(* ===== verification/_CoqProject ===== *)
-Q . S2P
Prelude.v
Cp0.v
Mmu.v
MmuSpec.v
Cpu.v
CpuSpec.v
Precise.v
Bytes.v
Mem.v
Strings.v
StringsSpec.v
Printfmt.v
PrintfmtSpec.v
Lists.v
DefaultPmm.v
DefaultPmmSpec.v
Proc.v
ProcSpec.v
Sync.v
SyncSpec.v
Philosophers.v
Process.v
Family.v
ProcessSpec.v
ForkSpec.v
ExitSpec.v
WaitSpec.v
Paging.v
PagingSpec.v
TlbSpec.v
Heap.v
Kmalloc.v
SlobSpec.v
KmallocSpec.v
Vmm.v
VmmSpec.v
Iobuf.v
Bitmap.v
Vfs.v
File.v
FileSpec.v
Sfs.v
SfsSpec.v
SfsMap.v
SfsOps.v
SfsFile.v
SfsIo.v
SfsMount.v
SfsSync.v
Mksfs.v
MksfsSpec.v
MksfsTree.v
MksfsBuild.v
MksfsClose.v
MksfsMount.v
Console.v
ConsoleSpec.v
Disk0.v
Disk0Dev.v
Kfs.v
KfsLaws.v
Sysfile.v
SysfileSpec.v
SysfileRead.v
SkewHeap.v
Kdebug.v
KdebugSpec.v
Ri.v
Trap.v
TrapSpec.v
