(* ===== verification/Prelude.v ===== *)
(** * A MIPS32 emulator and the operating system it runs

    The repository holds two programs that meet at an instruction set: an
    emulator of a MIPS32 processor in C++ (src/src) and the teaching kernel
    uCore in C (src/ucore_OS), which is compiled for that processor and booted
    by it.  This library models both, function by function, and proves what
    makes each part correct; where the two meet (the software-managed TLB) a
    theorem relates the kernel's handler to the emulator's address translation.

    ** How programs are modelled

    A C or C++ function is a computation [M S A] (this file): from a state it
    returns a value and a state, or panics (a call of panic, a failed assert),
    or faults (behaviour the language leaves undefined), or diverges (the fuel
    of a loop is used up).  Integers are [Z] with the conversions to their
    widths written out.  A function of the source is a [Definition] or
    [Fixpoint] of the same name; a part of a function that has a name of its
    own here (a loop, a branch) says which in its comment.  A structure on the
    heap is an entry of a map from addresses; an intrusive list is the sequence
    of the objects linked in it, which [Lists] justifies: its theorems show that
    the pointer operations of libs/list.h on rings of entries are the operations
    on sequences.  Memory that is read at more than one type is a map of bytes
    ([Mem]) or of words ([Paging], [Kmalloc]).

    Parts that call each other through an interface are proved against it, and
    the parts behind it discharge its laws:
    - [Heap], [HeapLaws]: kmalloc and kfree; [KmallocSpec] shows that the real
      allocator is an instance.
    - [Resources], [ResourceLaws]: what process management asks of memory and
      files; copying an address space may stop the kernel.
    - [FsOps], [FsLaws]: the operations of a file system behind the VFS, where an
      operation may be missing or stop; [Kfs] is the kernel's own table of
      operations and [KfsLaws] shows that it keeps the laws.
    - [BlockDev], [DiskLaws], [KeepsWrites]: the device below the on-disk file
      system.  [Disk0Dev] shows that the driver of dev_disk0.c keeps the laws of
      reading and that it drops what is written, so the theorems about writing
      hold for other devices only, as their statements say.
    - [Stream]: an open file as a stream of bytes, between the system calls
      ([SysfileSpec]) and regular files ([SysfileRead]).
    - [Services]: what the dispatch of system calls calls in other parts.

    ** Files

    - [Prelude]: integers, bits, lists, the monad and its tactics.
    - [Cp0], [Mmu], [MmuSpec], [Cpu], [CpuSpec], [Precise]: the emulator,
      src/src/cp0.h, mmu.h, cpu.h, cpu.cc and cpu_instructions.cc.  Address
      translation against a specification by segments and TLB fields; the nested
      decoder against a flat table of the 48 encodings; every iteration completes
      its instruction or leaves no trace of it, and what the language leaves
      undefined is named; exceptions and ERET cancel; the clock; loads after
      stores.
    - [Bytes], [Mem], [Strings], [StringsSpec]: objects as bytes, and
      libs/string.c on them.
    - [Printfmt], [PrintfmtSpec]: libs/printfmt.c: termination, printing to a
      buffer as cut printing to a stream, and reading back with strtol.
    - [Lists]: libs/list.h.
    - [SkewHeap]: libs/skew_heap.h as a priority queue, and libs/rand.c.
    - [DefaultPmm], [DefaultPmmSpec]: kern/mm/default_pmm.c as a set of free
      frames.
    - [Proc], [ProcSpec]: kern/schedule/sched.c and default_sched.c: the run
      queue, fairness of round robin, the timer list as absolute deadlines.
    - [Sync], [SyncSpec], [Philosophers]: kern/sync/wait.c, sem.c, monitor.c and
      check_sync.c: permits of a semaphore over every interleaving, first come
      first served; the philosophers on semaphores exclude each other and never
      block for good.
    - [Process], [Family], [ProcessSpec], [ForkSpec], [ExitSpec], [WaitSpec]:
      kern/process/proc.c: fresh identifiers, the hash lists, the family tree,
      fork, exit and wait.
    - [Paging], [PagingSpec], [TlbSpec]: kern/mm/pmm.c, tlb.c, mmu.h: page
      tables as maps, and the coherence of the TLB with them, stated with the
      address translation of [Mmu].
    - [Heap], [Kmalloc], [SlobSpec], [KmallocSpec]: kern/mm/kmalloc.c: the SLOB
      ring as a set of available bytes, kmalloc and kfree as operations on the
      set of blocks in use, with no byte lost.
    - [Vmm], [VmmSpec]: kern/mm/vmm.c, swap.c, swap_fifo.c, fs/swap/swapfs.c:
      areas, mapping, the check of user buffers.
    - [Iobuf], [Bitmap], [Vfs], [File], [FileSpec]: kern/fs/iobuf.c,
      sfs/bitmap.c, vfs/*.c, file.c, fs.c: buffers, bit maps, reference and
      open counts, descriptor tables.
    - [Sfs], [SfsSpec], [SfsMap], [SfsOps], [SfsFile], [SfsIo], [SfsMount],
      [SfsSync]: kern/fs/sfs: the format, free blocks and block maps, reading,
      writing and truncating files, synchronising and mounting again.
    - [Mksfs], [MksfsSpec], [MksfsTree], [MksfsBuild], [MksfsClose],
      [MksfsMount]: tools/mksfs.c: the image it builds is one that the kernel
      mounts, with the directory of the host on it.
    - [Console], [ConsoleSpec], [Disk0], [Disk0Dev], [Kfs], [KfsLaws]:
      kern/driver/console.c, kern/libs/stdio.c and kern/fs/devs: input from the
      serial port to the readers of stdin, the disk, device inodes, and the
      tables of operations.
    - [Sysfile], [SysfileSpec], [SysfileRead]: kern/fs/sysfile.c: the read call
      from the check of user memory down to the blocks of the file.
    - [Ri], [Trap], [TrapSpec]: kern/trap, kern/syscall/syscall.c,
      kern/driver/clock.c and picirq.c: the dispatch of traps and system calls,
      the emulation of DIV, preemption by the clock, fork from user mode.
    - [Kdebug], [KdebugSpec]: kern/debug/kdebug.c: the search in the debugging
      information against a linear one.

    ** Fuel

    A loop with no structural measure takes fuel; each bound is the number of
    steps the loop can take before it repeats a state or ends.  String loops take
    the size of memory (each step visits a new address); [vprintfmt] twice the
    length of the format plus three; walks along the SLOB ring one more than
    the number of words of memory ([ring_fuel]), the search twice that (one
    round, a page, another round); [check_loop] one more than the number of
    areas; [get_pid] the range of identifiers; [find_order] the bits of an int;
    [disk0_loop] one more than the number of blocks; the loops of read and write
    one more than the bytes asked for, each round moving some; [namefile_loop]
    one more than the room for the name, each round using some; [com1_loop] one
    more than the characters pending; the search for a stab twice the range plus
    two, since a match can be met twice; [merge_rec] of skew heaps one more than
    the number of entries; the loops of mksfs one more than the bytes of a file
    or the blocks of the image.  The theorems about these functions state that
    they return.  A sleeping reader of stdin is woken at most [patience] times,
    a parameter, with what others do in between another parameter.

    ** Not modelled

    Boot code and assembly (trap entry, context switch).  Interrupt masking and
    locks around sections that do not sleep are left out: the kernel has one
    processor and is not preempted inside them.  One on-disk file system is
    mounted at a time, and calls of the host succeed in mksfs.  The printing of
    messages, the functions of the debugger and the monitor that print, and the
    self tests of the allocators.  The program loader ([do_execve],
    [load_icode]) and the version of the philosophers on a monitor.  The user
    programs only call the system, and the emulator's main program opens files. *)

From stdpp Require Export prelude gmap list sorting.
From Stdlib Require Export ZArith Lia.
Export List.ListNotations.
#[global] Open Scope Z_scope.

(** * Machine integers

    The sources use C integers of fixed width.  A value of an unsigned type
    of [n] bits is a [Z] in [0, 2^n); a value of a signed type is a [Z] in
    [-2^(n-1), 2^(n-1)).  The conversions below are the C conversions to the
    type of that name (two's complement for the signed ones). *)

Definition u8 (z : Z) : Z := z `mod` 0x100.
Definition u16 (z : Z) : Z := z `mod` 0x10000.
Definition u32 (z : Z) : Z := z `mod` 0x100000000.
Definition u64 (z : Z) : Z := z `mod` 0x10000000000000000.
Definition s8 (z : Z) : Z := (z + 0x80) `mod` 0x100 - 0x80.
Definition s16 (z : Z) : Z := (z + 0x8000) `mod` 0x10000 - 0x8000.
Definition s32 (z : Z) : Z := (z + 0x80000000) `mod` 0x100000000 - 0x80000000.
Definition s64 (z : Z) : Z :=
  (z + 0x8000000000000000) `mod` 0x10000000000000000 - 0x8000000000000000.

Definition is_u8 (z : Z) : Prop := 0 <= z < 0x100.
Definition is_u16 (z : Z) : Prop := 0 <= z < 0x10000.
Definition is_u32 (z : Z) : Prop := 0 <= z < 0x100000000.
Definition is_s32 (z : Z) : Prop := -0x80000000 <= z < 0x80000000.

Create HintDb width.

Ltac width := unfold is_u8, is_u16, is_u32, is_s32, u8, u16, u32, u64,
  s8, s16, s32, s64 in *; Z.div_mod_to_equations; lia.

Lemma u8_range z : is_u8 (u8 z).
Proof. width. Qed.
Lemma u16_range z : is_u16 (u16 z).
Proof. width. Qed.
Lemma u32_range z : is_u32 (u32 z).
Proof. width. Qed.
Lemma s32_range z : is_s32 (s32 z).
Proof. width. Qed.
#[export] Hint Resolve u8_range u16_range u32_range s32_range : width.

Lemma u8_id z : is_u8 z -> u8 z = z.
Proof. width. Qed.
Lemma u32_id z : is_u32 z -> u32 z = z.
Proof. width. Qed.
Lemma s32_id z : is_s32 z -> s32 z = z.
Proof. width. Qed.
Lemma u32_s32 z : u32 (s32 z) = u32 z.
Proof. width. Qed.
Lemma s32_u32 z : s32 (u32 z) = s32 z.
Proof. width. Qed.

(** * Bit masks

    The sources mix masks and shifts; the proofs turn both into division and
    remainder by powers of two, which [lia] decides. *)

Lemma land_low x k : 0 <= k -> Z.land x (2 ^ k - 1) = x `mod` 2 ^ k.
Proof. intros ?. by rewrite <- Z.land_ones, Z.ones_equiv, <- Z.sub_1_r. Qed.

Lemma ones_ldiff k n : 0 <= k <= n -> Z.ldiff (Z.ones n) (Z.ones k) = 2 ^ n - 2 ^ k.
Proof.
  intros Hk. rewrite <- Z.sub_nocarry_ldiff, !Z.ones_equiv; [lia|].
  apply Z.bits_inj'. intros i Hi. rewrite Z.ldiff_spec, Z.bits_0.
  destruct (Z.lt_ge_cases i k).
  - by rewrite (Z.ones_spec_low n), andb_false_r by lia.
  - by rewrite (Z.ones_spec_high k) by lia.
Qed.

(** Keeping the bits from [k] up to [n] of an [n]-bit number. *)
Lemma land_high x k n :
  0 <= k <= n -> 0 <= x < 2 ^ n -> Z.land x (2 ^ n - 2 ^ k) = x `div` 2 ^ k * 2 ^ k.
Proof.
  intros Hk Hx. rewrite <- ones_ldiff by lia.
  rewrite <- Z.shiftl_mul_pow2, <- Z.shiftr_div_pow2, <- Z.ldiff_ones_r by lia.
  apply Z.bits_inj'. intros i Hi.
  rewrite Z.land_spec, !Z.ldiff_spec, andb_assoc, <- Z.land_spec.
  by rewrite Z.land_ones, Z.mod_small by lia.
Qed.

(** Disjoint fields: [or] is [+]. *)
Lemma lor_add a b k : 0 <= k -> 0 <= b < 2 ^ k -> Z.lor (a * 2 ^ k) b = a * 2 ^ k + b.
Proof.
  intros Hk Hb. symmetry. apply Z.add_nocarry_lor.
  rewrite <- (Z.mod_small b (2 ^ k)), <- Z.land_ones by lia.
  rewrite (Z.land_comm b), Z.land_assoc, Z.land_ones by lia.
  by rewrite Z.mod_mul, Z.land_0_l by lia.
Qed.

Lemma testbit_land1 x : (Z.land x 1 =? 0) = negb (Z.testbit x 0).
Proof.
  change 1 with (2 ^ 1 - 1). rewrite land_low by lia.
  rewrite Z.bit0_odd, Zmod_odd. by destruct (Z.odd x).
Qed.

(** The test of one bit. *)
Lemma land_pow2 x k : 0 <= k -> Z.land x (2 ^ k) = if Z.testbit x k then 2 ^ k else 0.
Proof.
  intros Hk. apply Z.bits_inj'. intros i Hi. rewrite Z.land_spec, Z.pow2_bits_eqb by lia.
  destruct (Z.eqb_spec k i) as [->|Hne].
  - rewrite andb_true_r. destruct (Z.testbit x i) eqn:E; [|by rewrite Z.bits_0].
    by rewrite Z.pow2_bits_true by lia.
  - rewrite andb_false_r. destruct (Z.testbit x k); [|by rewrite Z.bits_0].
    by rewrite Z.pow2_bits_false by lia.
Qed.

(** Width of the bitwise operations. *)
Lemma is_u32_bits x :
  is_u32 x <-> 0 <= x /\ forall i, 32 <= i -> Z.testbit x i = false.
Proof.
  unfold is_u32. change 0x100000000 with (2 ^ 32). split.
  - intros Hx. split; [lia|]. intros i Hi.
    rewrite <- (Z.mod_small x (2 ^ 32)) by lia. by apply Z.mod_pow2_bits_high; lia.
  - intros [H0 Hb]. split; [done|].
    destruct (Z.eq_dec x 0) as [->|]; [lia|].
    apply Z.log2_lt_pow2; [lia|]. apply Z.nle_gt. intros Hle.
    specialize (Hb _ Hle). rewrite Z.bit_log2 in Hb by lia. done.
Qed.

Lemma is_u32_land x y : is_u32 x -> is_u32 (Z.land x y).
Proof.
  rewrite !is_u32_bits, Z.land_nonneg. intros [? Hb]. split; [by left|].
  intros i Hi. by rewrite Z.land_spec, Hb.
Qed.
Lemma is_u32_lor x y : is_u32 x -> is_u32 y -> is_u32 (Z.lor x y).
Proof.
  rewrite !is_u32_bits, Z.lor_nonneg. intros [? Hx] [? Hy]. split; [done|].
  intros i Hi. by rewrite Z.lor_spec, Hx, Hy.
Qed.
Lemma is_u32_lxor x y : is_u32 x -> is_u32 y -> is_u32 (Z.lxor x y).
Proof.
  rewrite !is_u32_bits, Z.lxor_nonneg. intros [? Hx] [? Hy]. split; [lia|].
  intros i Hi. by rewrite Z.lxor_spec, Hx, Hy.
Qed.
Lemma is_u32_shiftr x k : 0 <= k -> is_u32 x -> is_u32 (x ≫ k).
Proof.
  rewrite !is_u32_bits, Z.shiftr_nonneg. intros ? [? Hx]. split; [done|].
  intros i Hi. rewrite Z.shiftr_spec by lia. apply Hx. lia.
Qed.
#[export] Hint Resolve is_u32_land is_u32_lor is_u32_lxor : width.

(** Equality of two numbers below 2^32 bit by bit: [bits32] enumerates the 32
    positions, so that the bits of literal masks compute. *)
Lemma bits_eq_u32 x y :
  is_u32 x -> is_u32 y ->
  (forall i, 0 <= i < 32 -> Z.testbit x i = Z.testbit y i) -> x = y.
Proof.
  intros [H0x Hx]%is_u32_bits [H0y Hy]%is_u32_bits Hf. apply Z.bits_inj'. intros i Hi.
  destruct (Z.lt_ge_cases i 32); [|by rewrite Hx, Hy by lia]. apply Hf. lia.
Qed.

Lemma testbit_u32 z i : 0 <= i < 32 -> Z.testbit (u32 z) i = Z.testbit z i.
Proof. intros. unfold u32. change 0x100000000 with (2 ^ 32). apply Z.mod_pow2_bits_low. lia. Qed.

Lemma testbit_bound x k i : 0 <= x < 2 ^ k -> 0 <= k <= i -> Z.testbit x i = false.
Proof.
  intros Hx Hk. rewrite <- (Z.mod_small x (2 ^ k)) by lia.
  apply Z.mod_pow2_bits_high. lia.
Qed.

Ltac position_cases i :=
  let H := fresh in
  assert (H : i = 0 \/ i = 1 \/ i = 2 \/ i = 3 \/ i = 4 \/ i = 5 \/ i = 6 \/ i = 7 \/
    i = 8 \/ i = 9 \/ i = 10 \/ i = 11 \/ i = 12 \/ i = 13 \/ i = 14 \/ i = 15 \/
    i = 16 \/ i = 17 \/ i = 18 \/ i = 19 \/ i = 20 \/ i = 21 \/ i = 22 \/ i = 23 \/
    i = 24 \/ i = 25 \/ i = 26 \/ i = 27 \/ i = 28 \/ i = 29 \/ i = 30 \/ i = 31) by lia;
  repeat (destruct H as [->|H]); [.. | subst i].

Ltac is_Z_literal z :=
  lazymatch z with Z0 => idtac | Zpos _ => idtac | Zneg _ => idtac end.

Ltac const_testbit :=
  repeat match goal with
  | |- context [Z.testbit ?c ?i] =>
      is_Z_literal c; is_Z_literal i;
      let b := eval vm_compute in (Z.testbit c i) in
      change (Z.testbit c i) with b
  | |- context [Z.testbit ?x (?a + ?b)] =>
      is_Z_literal a; is_Z_literal b;
      let c := eval vm_compute in (a + b) in change (a + b) with c
  | |- context [Z.testbit ?x (?a - ?b)] =>
      is_Z_literal a; is_Z_literal b;
      let c := eval vm_compute in (a - b) in change (a - b) with c
  | |- context [Z.testbit ?x (Zneg ?p)] => rewrite (Z.testbit_neg_r x (Zneg p)) by lia
  end.

Ltac bits32 :=
  let i := fresh "i" in let Hi := fresh "Hi" in
  apply bits_eq_u32; [ | | intros i Hi; position_cases i; clear Hi;
    repeat first
      [ rewrite Z.land_spec | rewrite Z.lor_spec | rewrite Z.lxor_spec
      | rewrite Z.shiftr_spec by lia | rewrite Z.shiftl_spec by lia
      | rewrite testbit_u32 by lia | progress const_testbit
      | rewrite andb_true_r | rewrite andb_false_r
      | rewrite orb_false_r | rewrite orb_false_l | rewrite orb_true_r ];
    try reflexivity ].

(** * [switch]

    A [switch] whose cases all leave it: the arm of the first equal label, or
    the default. *)

Definition switch {A} (v : Z) (arms : list (Z * A)) (dflt : A) : A :=
  match List.find (fun c => c.1 =? v) arms with
  | Some c => c.2
  | None => dflt
  end.

Lemma switch_default {A} v (arms : list (Z * A)) d :
  v ∉ arms.*1 -> switch v arms d = d.
Proof.
  intros Hv. unfold switch. destruct (List.find _ arms) as [c|] eqn:E; [|done].
  apply List.find_some in E as [Hin Heq%Z.eqb_eq]. destruct Hv.
  apply list_elem_of_fmap. exists c. rewrite list_elem_of_In. done.
Qed.

Lemma switch_inv {A} v (arms : list (Z * A)) d :
  switch v arms d = d \/ exists a, (v, a) ∈ arms /\ switch v arms d = a.
Proof.
  unfold switch. destruct (List.find _ arms) as [[c a]|] eqn:E; [right|by left].
  apply List.find_some in E as [Hin Heq%Z.eqb_eq]. simpl in Heq. subst.
  exists a. by rewrite list_elem_of_In.
Qed.

(** Proving a property of every outcome of a [switch]. *)
Lemma switch_forall {A} (P : A -> Prop) v (arms : list (Z * A)) d :
  Forall (fun c => P c.2) arms -> P d -> P (switch v arms d).
Proof.
  intros Hf Hd. unfold switch. destruct (List.find _ arms) as [c|] eqn:E; [|done].
  apply List.find_some in E as [Hin _]. rewrite List.Forall_forall in Hf. auto.
Qed.

(** * Lists *)

Lemma filter_all {A} (P : A -> Prop) `{!forall x, Decision (P x)} (l : list A) :
  (forall x, x ∈ l -> P x) -> filter P l = l.
Proof.
  induction l as [|y l IH]; intros Hl; [done|].
  rewrite filter_cons_True by (apply Hl; set_solver). f_equal. apply IH. set_solver.
Qed.

(** Removing the one occurrence of an element. *)
Lemma filter_middle {A} `{EqDecision A} (l1 : list A) x l2 :
  x ∉ l1 -> x ∉ l2 -> filter (fun y => y <> x) (l1 ++ x :: l2) = l1 ++ l2.
Proof.
  intros H1 H2. rewrite filter_app, filter_cons_False by naive_solver.
  rewrite !filter_all; [done|set_solver..].
Qed.

(** * Views of maps

    A fact about one component of the entries of a map is a fact about the map
    of these components. *)

Lemma view_lookup {A B} (f : A -> B) (m m' : gmap Z A) a x :
  f <$> m' = f <$> m -> m !! a = Some x -> exists x', m' !! a = Some x' /\ f x' = f x.
Proof.
  intros He Hx. assert (Hl : (f <$> m') !! a = (f <$> m) !! a) by (by rewrite He).
  rewrite !lookup_fmap, Hx in Hl. simpl in Hl. destruct (m' !! a) as [x'|]; [|done].
  simpl in Hl. exists x'. split; [done|congruence].
Qed.

Lemma view_alter {A B} (f : A -> B) (g : A -> A) (h : B -> B) (m : gmap Z A) a :
  (forall x, f (g x) = h (f x)) -> f <$> alter g a m = alter h a (f <$> m).
Proof.
  intros Hf. apply map_eq. intros b. rewrite lookup_fmap. destruct (decide (b = a)) as [->|].
  - rewrite !lookup_alter_eq, lookup_fmap. destruct (m !! a); simpl; [by rewrite Hf|done].
  - by rewrite !lookup_alter_ne, lookup_fmap.
Qed.

Lemma view_alter_id {A B} (f : A -> B) (g : A -> A) (m : gmap Z A) a :
  (forall x, f (g x) = f x) -> f <$> alter g a m = f <$> m.
Proof.
  intros Hf. rewrite (view_alter f g id) by done. apply map_eq. intros b.
  destruct (decide (b = a)) as [->|]; [|by rewrite lookup_alter_ne].
  rewrite lookup_alter_eq. by destruct ((f <$> m) !! a).
Qed.

Lemma view_trans {A B C} (f : A -> B) (g : B -> C) (m m' : gmap Z A) :
  f <$> m' = f <$> m -> (g ∘ f) <$> m' = (g ∘ f) <$> m.
Proof. intros He. rewrite !map_fmap_compose. by rewrite He. Qed.

(** * Arrays

    An array of integers; out-of-range accesses are guarded where the code
    can make them. *)

Definition arr_get (l : list Z) (i : Z) : Z := default 0 (l !! Z.to_nat i).
Definition arr_set (l : list Z) (i v : Z) : list Z := <[Z.to_nat i := v]> l.

Arguments arr_get : simpl never.
Arguments arr_set : simpl never.

Lemma arr_set_length l i v : length (arr_set l i v) = length l.
Proof. apply length_insert. Qed.

Lemma arr_get_set_eq l i v :
  0 <= i < Z.of_nat (length l) -> arr_get (arr_set l i v) i = v.
Proof.
  intros Hi. unfold arr_get, arr_set. by rewrite list_lookup_insert_eq by lia.
Qed.

Lemma arr_get_set_ne l i j v :
  0 <= i -> 0 <= j -> i <> j -> arr_get (arr_set l i v) j = arr_get l j.
Proof.
  intros ???. unfold arr_get, arr_set. by rewrite list_lookup_insert_ne by lia.
Qed.

Lemma arr_set_set l i v w : arr_set (arr_set l i v) i w = arr_set l i w.
Proof. apply list_insert_insert_eq. Qed.

Lemma arr_set_Forall (P : Z -> Prop) l i v :
  Forall P l -> P v -> Forall P (arr_set l i v).
Proof. intros. unfold arr_set. by apply Forall_insert. Qed.

Lemma arr_get_Forall (P : Z -> Prop) l i :
  Forall P l -> P 0 -> P (arr_get l i).
Proof.
  intros Hl H0. unfold arr_get.
  destruct (l !! Z.to_nat i) eqn:E; [|done]. simpl.
  rewrite Forall_lookup in Hl. eauto.
Qed.

(** * Computations

    A kernel function runs on a state [S] and returns a value, or stops the
    machine: [Panic] is a call of [panic] or a failed [assert], [Fault] an
    access the language leaves undefined (a null or out-of-range pointer, a
    shift by the width, an indeterminate value), [Diverge] the exhaustion of
    the fuel of a loop. *)

Inductive res (A : Type) : Type :=
| Ret (a : A)
| Panic
| Fault
| Diverge.
Arguments Ret {A} a.
Arguments Panic {A}.
Arguments Fault {A}.
Arguments Diverge {A}.

Definition M (S A : Type) : Type := S -> res (A * S).

#[export] Instance M_ret S : MRet (M S) := fun A a s => Ret (a, s).
#[export] Instance M_bind S : MBind (M S) := fun A B k m s =>
  match m s with
  | Ret (a, s') => k a s'
  | Panic => Panic
  | Fault => Fault
  | Diverge => Diverge
  end.

Section Ops.
  Context {S : Type}.

Definition get : M S S := fun s => Ret (s, s).
Definition put (s : S) : M S unit := fun _ => Ret (tt, s).
Definition gets {A} (f : S -> A) : M S A := fun s => Ret (f s, s).
Definition modify (f : S -> S) : M S unit := fun s => Ret (tt, f s).
Definition panic {A} : M S A := fun _ => Panic.
Definition fault {A} : M S A := fun _ => Fault.
Definition diverge {A} : M S A := fun _ => Diverge.
Definition assert_ (b : bool) : M S unit := if b then mret tt else panic.
Definition defined (b : bool) : M S unit := if b then mret tt else fault.
Definition lift_opt {A} (o : option A) : M S A :=
  match o with Some a => mret a | None => fault end.
Definition when (b : bool) (m : M S unit) : M S unit := if b then m else mret tt.

(** Running the first computation of a sequence. *)
Lemma bind_Ret {A B} (m : M S A) (k : A -> M S B) s a s' :
  m s = Ret (a, s') -> (m ≫= k) s = k a s'.
Proof. unfold mbind, M_bind. by intros ->. Qed.

(** Total correctness: [m] started in [s] returns, and its value and final
    state satisfy [Q].  A computation that panics, faults or runs out of fuel
    satisfies no postcondition. *)
Definition wp {A} (m : M S A) (Q : A -> S -> Prop) (s : S) : Prop :=
  exists a s', m s = Ret (a, s') /\ Q a s'.

Lemma wp_ret {A} (a : A) (Q : A -> S -> Prop) s : wp (mret a) Q s <-> Q a s.
Proof. unfold wp, mret, M_ret. naive_solver. Qed.

Lemma wp_bind {A B} (m : M S A) (k : A -> M S B) (Q : B -> S -> Prop) s :
  wp (m ≫= k) Q s <-> wp m (fun a s' => wp (k a) Q s') s.
Proof.
  unfold wp, mbind, M_bind. destruct (m s) as [[a s1]| | |]; naive_solver.
Qed.

Lemma wp_mono {A} (m : M S A) (Q R : A -> S -> Prop) s :
  wp m Q s -> (forall a s', Q a s' -> R a s') -> wp m R s.
Proof. unfold wp. naive_solver. Qed.

Lemma wp_get (Q : S -> S -> Prop) s : wp get Q s <-> Q s s.
Proof. unfold wp, get. naive_solver. Qed.
Lemma wp_gets {A} (f : S -> A) (Q : A -> S -> Prop) s :
  wp (gets f) Q s <-> Q (f s) s.
Proof. unfold wp, gets. naive_solver. Qed.
Lemma wp_put s' (Q : unit -> S -> Prop) s : wp (put s') Q s <-> Q tt s'.
Proof. unfold wp, put. naive_solver. Qed.
Lemma wp_modify f (Q : unit -> S -> Prop) s : wp (modify f) Q s <-> Q tt (f s).
Proof. unfold wp, modify. naive_solver. Qed.
Lemma wp_panic {A} (Q : A -> S -> Prop) s : wp panic Q s <-> False.
Proof. unfold wp, panic. naive_solver. Qed.
Lemma wp_assert b (Q : unit -> S -> Prop) s :
  wp (assert_ b) Q s <-> b = true /\ Q tt s.
Proof.
  unfold assert_. destruct b; [rewrite wp_ret | rewrite wp_panic]; naive_solver.
Qed.

(** Invariants: from a state satisfying [I], [m] never panics or diverges, and
    if it returns, [I] still holds and the value satisfies [Q]. *)
Definition keeps {A} (I : S -> Prop) (m : M S A) (Q : A -> Prop) : Prop :=
  forall s, I s ->
    match m s with
    | Ret (a, s') => I s' /\ Q a
    | Fault => True
    | _ => False
    end.

Lemma keeps_ret {A} (I : S -> Prop) (a : A) (Q : A -> Prop) : Q a -> keeps I (mret a) Q.
Proof. unfold keeps. simpl. auto. Qed.

Lemma keeps_bind {A B} (I : S -> Prop) (m : M S A) (k : A -> M S B) Q R :
  keeps I m Q -> (forall a, Q a -> keeps I (k a) R) -> keeps I (m ≫= k) R.
Proof.
  intros Hm Hk s Hs. unfold mbind, M_bind. specialize (Hm s Hs).
  destruct (m s) as [[a s1]| | |]; try done. destruct Hm. by apply Hk.
Qed.

Lemma keeps_get (I : S -> Prop) : keeps I get I.
Proof. unfold keeps, get. auto. Qed.
Lemma keeps_gets {A} (I : S -> Prop) (f : S -> A) : keeps I (gets f) (fun _ => True).
Proof. unfold keeps, gets. auto. Qed.
Lemma keeps_modify (I : S -> Prop) f :
  (forall s, I s -> I (f s)) -> keeps I (modify f) (fun _ => True).
Proof. unfold keeps, modify. auto. Qed.
Lemma keeps_defined (I : S -> Prop) b : keeps I (defined b) (fun _ => b = true).
Proof. unfold keeps, defined. destruct b; simpl; auto. Qed.
Lemma keeps_lift_opt {A} (I : S -> Prop) (o : option A) : keeps I (lift_opt o) (fun a => o = Some a).
Proof. unfold keeps, lift_opt. destruct o; simpl; auto. Qed.
Lemma keeps_fault {A} (I : S -> Prop) (Q : A -> Prop) : keeps I fault Q.
Proof. by unfold keeps, fault. Qed.
Lemma keeps_when (I : S -> Prop) (b : bool) m :
  keeps I m (fun _ => True) -> keeps I (when b m) (fun _ => True).
Proof. unfold keeps, when. intros Hm s Hs. destruct b; [by apply Hm|simpl; auto]. Qed.
Lemma keeps_if {A} (I : S -> Prop) (b : bool) (m1 m2 : M S A) Q :
  keeps I m1 Q -> keeps I m2 Q -> keeps I (if b then m1 else m2) Q.
Proof. by destruct b. Qed.
Lemma keeps_mono {A} (I : S -> Prop) (m : M S A) (Q R : A -> Prop) :
  keeps I m Q -> (forall a, Q a -> R a) -> keeps I m R.
Proof.
  intros Hm HQ s Hs. specialize (Hm s Hs).
  destruct (m s) as [[a s1]| | |]; naive_solver.
Qed.

End Ops.

(** Walks through a computation, leaving the updates and the values returned. *)
Ltac keeps_step :=
  lazymatch goal with
  | |- keeps _ (get ≫= _) _ => eapply keeps_bind; [apply keeps_get | intros ? ?]
  | |- keeps _ (_ ≫= _) _ => eapply keeps_bind; [ | intros ? ?]
  | |- keeps _ get _ => apply keeps_get
  | |- keeps _ (mret _) _ => apply keeps_ret
  | |- keeps _ (modify _) _ => apply keeps_modify; intros ? ?
  | |- keeps _ (defined _) _ => apply keeps_defined
  | |- keeps _ (lift_opt _) _ => apply keeps_lift_opt
  | |- keeps _ fault _ => apply keeps_fault
  | |- keeps _ (when _ _) _ => apply keeps_when
  | |- keeps _ (if _ then _ else _) _ => apply keeps_if
  end.
