(* ===== verification/Cp0.v ===== *)
(** Coprocessor 0 of the emulated MIPS32 machine: [struct CP0] of src/src/cp0.h,
    a file of 32 registers with the status, cause and exception helpers. *)

From S2P Require Import Prelude.

Module CP0.

(** [uint32_t registers_[32]]. *)
Record t := mk { registers_ : list Z }.

(** Register numbers (the anonymous [enum] of cp0.h). *)
Definition Index : Z := 0.
Definition EntryLo0 : Z := 2.
Definition EntryLo1 : Z := 3.
Definition Context : Z := 4.
Definition BadVAddr : Z := 8.
Definition Count : Z := 9.
Definition EntryHi : Z := 10.
Definition Compare : Z := 11.
Definition SR : Z := 12.
Definition Cause : Z := 13.
Definition EPC : Z := 14.
Definition EBase : Z := 15.

(** Values of the ExcCode field of Cause. *)
Definition Exc_Int : Z := 0.
Definition Exc_Mod : Z := 1.
Definition Exc_TLBL : Z := 2.
Definition Exc_TLBS : Z := 3.
Definition Exc_AdEL : Z := 4.
Definition Exc_AdES : Z := 5.
Definition Exc_Syscall : Z := 8.
Definition Exc_RI : Z := 10.

(** The interrupt bits IP7-0. *)
Definition IP_7 : Z := 128.

Definition rd (c : t) (i : Z) : Z := arr_get (registers_ c) i.
Definition wr (i v : Z) (c : t) : t := mk (arr_set (registers_ c) i v).

(** The constructor: all registers 0, EBase the exception entry. *)
Definition init : t := wr EBase 0x80000180 (mk (replicate 32 0)).

Definition set_exception_code (exc_code : Z) (c : t) : t :=
  let c := wr Cause (Z.land (rd c Cause) 0xffffff83) c in
  wr Cause (Z.lor (rd c Cause) (u32 (exc_code ≪ 2))) c.

Definition set_interrupt_code (interrupt_code : Z) (c : t) : t :=
  wr Cause (Z.lor (rd c Cause) (u32 (interrupt_code ≪ 8))) c.

(** The overload without argument: IE set, EXL and ERL clear. *)
Definition interrupt_enabled (c : t) : bool := Z.land (rd c SR) 7 =? 1.

(** The overload with a mask: the interrupt's bit of IM7-0. *)
Definition interrupt_enabled_mask (interrupt_mask : Z) (c : t) : bool :=
  negb (Z.land (rd c SR) (u32 (interrupt_mask ≪ 8)) =? 0).

Definition set_Status_EXL (c : t) : t := wr SR (Z.lor (rd c SR) 0x02) c.
Definition unset_Status_EXL (c : t) : t := wr SR (Z.land (rd c SR) 0xfffffffd) c.
Definition Status_EXL (c : t) : bool := negb (Z.land (rd c SR) 0x02 =? 0).

(** Well-formedness: 32 registers of 32 bits. *)
Definition wf (c : t) : Prop :=
  length (registers_ c) = 32%nat /\ Forall is_u32 (registers_ c).

(** ** Facts *)

Lemma rd_wr_eq c i v : wf c -> 0 <= i < 32 -> rd (wr i v c) i = v.
Proof. intros [Hl _] Hi. unfold rd, wr. cbn [registers_]. apply arr_get_set_eq. lia. Qed.

Lemma rd_wr_ne c i j v : 0 <= i -> 0 <= j -> i <> j -> rd (wr i v c) j = rd c j.
Proof. intros. unfold rd, wr. by apply arr_get_set_ne. Qed.

Lemma wr_wf c i v : wf c -> is_u32 v -> wf (wr i v c).
Proof.
  intros [Hl Hf] Hv. split; simpl.
  - by rewrite arr_set_length.
  - by apply arr_set_Forall.
Qed.

Lemma rd_u32 c i : wf c -> is_u32 (rd c i).
Proof. intros [_ Hf]. unfold rd. apply arr_get_Forall; [done|width]. Qed.

Create HintDb cp0.
#[global] Hint Resolve wr_wf rd_u32 : cp0.
#[global] Hint Extern 1 (is_u32 _) => width : cp0.
#[global] Hint Resolve is_u32_land is_u32_lor u32_range : cp0.

Ltac reg_lia := unfold Index, EntryLo0, EntryLo1, Context, BadVAddr, Count, EntryHi,
  Compare, SR, Cause, EPC, EBase in *; lia.

(** A write keeps the number of registers, which is all a read back needs. *)
Lemma wr_length i v c : length (registers_ (wr i v c)) = length (registers_ c).
Proof. apply arr_set_length. Qed.

Lemma rd_wr_len c i v :
  length (registers_ c) = 32%nat -> 0 <= i < 32 -> rd (wr i v c) i = v.
Proof. intros Hl Hi. unfold rd, wr. cbn [registers_]. apply arr_get_set_eq. lia. Qed.

Lemma set_exception_code_length e c :
  length (registers_ (set_exception_code e c)) = length (registers_ c).
Proof. unfold set_exception_code. cbv zeta. by rewrite !wr_length. Qed.

Lemma wf_length c : wf c -> length (registers_ c) = 32%nat.
Proof. by intros []. Qed.

(** Reads through a chain of writes to named registers. *)
Ltac reg_len := rewrite ?wr_length, ?set_exception_code_length; by apply wf_length.
Ltac rd_simpl :=
  repeat first
    [ rewrite rd_wr_ne by reg_lia
    | rewrite rd_wr_len by (reg_lia || reg_len) ].

Lemma set_exception_code_wf e c : wf c -> wf (set_exception_code e c).
Proof. intros. unfold set_exception_code. cbv zeta. auto 10 with cp0. Qed.
Lemma set_interrupt_code_wf e c : wf c -> wf (set_interrupt_code e c).
Proof. intros. unfold set_interrupt_code. auto 10 with cp0. Qed.
Lemma set_Status_EXL_wf c : wf c -> wf (set_Status_EXL c).
Proof. unfold set_Status_EXL. auto with cp0. Qed.
Lemma unset_Status_EXL_wf c : wf c -> wf (unset_Status_EXL c).
Proof. unfold unset_Status_EXL. auto with cp0. Qed.
#[global] Hint Resolve set_exception_code_wf set_interrupt_code_wf
  set_Status_EXL_wf unset_Status_EXL_wf : cp0.

(** The ExcCode field, bits 6-2 of Cause. *)
Definition ExcCode (c : t) : Z := Z.land (rd c Cause ≫ 2) 0x1f.

Lemma rd_Cause_set c e :
  wf c -> rd (set_exception_code e c) Cause
          = Z.lor (Z.land (rd c Cause) 0xffffff83) (u32 (e ≪ 2)).
Proof.
  intros Hwf. unfold set_exception_code.
  by rewrite !rd_wr_eq by (unfold Cause; auto with cp0; lia).
Qed.

Lemma set_exception_code_other c e i :
  0 <= i -> i <> Cause -> rd (set_exception_code e c) i = rd c i.
Proof.
  intros Hi Hne. unfold set_exception_code. by rewrite !rd_wr_ne by (unfold Cause in *; lia).
Qed.

Lemma ExcCode_set c e : wf c -> 0 <= e < 32 -> ExcCode (set_exception_code e c) = e.
Proof.
  intros Hwf He. unfold ExcCode. rewrite rd_Cause_set by done.
  bits32; [apply is_u32_land, is_u32_shiftr; [lia|]; auto with cp0 | width |
           symmetry; apply (testbit_bound e 5); lia ..].
Qed.

(** Bit 1 of the status register. *)
Lemma Status_EXL_testbit c : Status_EXL c = Z.testbit (rd c SR) 1.
Proof.
  unfold Status_EXL. change 2 with (2 ^ 1). rewrite land_pow2 by lia.
  by destruct (Z.testbit _ 1).
Qed.

Lemma Status_EXL_set c : wf c -> Status_EXL (set_Status_EXL c) = true.
Proof.
  intros Hwf. rewrite Status_EXL_testbit. unfold set_Status_EXL.
  rewrite rd_wr_eq by (done || unfold SR; lia). by rewrite Z.lor_spec, orb_true_r.
Qed.

Lemma Status_EXL_unset c : wf c -> Status_EXL (unset_Status_EXL c) = false.
Proof.
  intros Hwf. rewrite Status_EXL_testbit. unfold unset_Status_EXL.
  rewrite rd_wr_eq by (done || unfold SR; lia). by rewrite Z.land_spec, andb_false_r.
Qed.

(** Leaving the exception level undoes entering it from the normal level. *)
Lemma unset_set_Status_EXL c :
  wf c -> Status_EXL c = false -> rd (unset_Status_EXL (set_Status_EXL c)) SR = rd c SR.
Proof.
  intros Hwf HEXL. rewrite Status_EXL_testbit in HEXL.
  unfold unset_Status_EXL, set_Status_EXL.
  rewrite !rd_wr_eq by (unfold SR; auto with cp0; lia).
  bits32; auto with cp0.
Qed.

End CP0.
