(* ===== verification/Mmu.v ===== *)
(** The memory management unit of the emulator: [class MMU] of src/src/mmu.h.
    Its state is the RAM, the two image streams, the 16-entry TLB, the CP0 it
    shares by reference with the CPU, the bytes written to the serial port
    and the [bool& exception] flag its callers pass down. *)

From S2P Require Import Prelude Cp0.

Module MMU.

(** Virtual and physical layout (the [constexpr] members). *)
Definition KSEG0_BASE : Z := 0x80000000.
Definition KSEG0_SIZE : Z := 0x20000000.
Definition KSEG1_BASE : Z := 0xa0000000.
Definition KSEG1_SIZE : Z := 0x20000000.
Definition RAM_BASE : Z := 0.
Definition RAM_SIZE : Z := 1024 * 1024 * 8.
Definition ROM_BASE : Z := 0x1fc00000.
Definition ROM_SIZE : Z := 1024 * 4.
Definition FLASH_BASE : Z := 0x1e000000.
Definition FLASH_SIZE : Z := 1024 * 1024 * 8.
Definition SERIAL_PORT : Z := 0x1fd003f8.
Definition SERIAL_STATUS : Z := 0x1fd003fc.
Definition k_TLB_ENTRIES : Z := 16.

Record t := mk {
  cp0_ : CP0.t;
  ram_ : gmap Z Z;            (* [std::string ram_]: absent bytes are 0 *)
  rom_ : list Z;              (* contents of the ROM stream *)
  flash_ : list Z;            (* contents of the flash stream *)
  tlb_key_ : list Z;
  tlb_data0 : list Z;         (* [tlb_data_[0]] *)
  tlb_data1 : list Z;         (* [tlb_data_[1]] *)
  out : list Z;               (* bytes put on standard output, oldest first *)
  exception : bool            (* the [bool& exception] cell *)
}.

Definition set_cp0 c m :=
  mk c (ram_ m) (rom_ m) (flash_ m) (tlb_key_ m) (tlb_data0 m) (tlb_data1 m) (out m) (exception m).
Definition set_ram r m :=
  mk (cp0_ m) r (rom_ m) (flash_ m) (tlb_key_ m) (tlb_data0 m) (tlb_data1 m) (out m) (exception m).
Definition set_out o m :=
  mk (cp0_ m) (ram_ m) (rom_ m) (flash_ m) (tlb_key_ m) (tlb_data0 m) (tlb_data1 m) o (exception m).
Definition set_tlb k d0 d1 m :=
  mk (cp0_ m) (ram_ m) (rom_ m) (flash_ m) k d0 d1 (out m) (exception m).
Definition set_exception b m :=
  mk (cp0_ m) (ram_ m) (rom_ m) (flash_ m) (tlb_key_ m) (tlb_data0 m) (tlb_data1 m) (out m) b.

Definition on_cp0 (f : CP0.t -> CP0.t) : M t unit := modify (fun m => set_cp0 (f (cp0_ m)) m).
Definition raise : M t unit := modify (set_exception true).

(** The constructor: [ram_.resize(RAM_SIZE)] clears the RAM; the TLB is not
    initialised, so its contents are arguments. *)
Definition init (rom flash key d0 d1 : list Z) : t :=
  mk CP0.init ∅ rom flash key d0 d1 [] false.

(** Reading one byte of an image stream at an offset; a position past the end
    of the image leaves the destination indeterminate. *)
Definition stream_byte (img : list Z) (pos : Z) : M t Z := lift_opt (img !! Z.to_nat pos).

Definition read_physical (addr : Z) : M t Z :=
  m ← get;
  if (RAM_BASE <=? addr) && (addr <? RAM_BASE + RAM_SIZE)
  then mret (default 0 (ram_ m !! (addr - RAM_BASE)))
  else if (ROM_BASE <=? addr) && (addr <? ROM_BASE + ROM_SIZE)
  then stream_byte (rom_ m) (addr - ROM_BASE)
  else if (FLASH_BASE <=? addr) && (addr <? FLASH_BASE + FLASH_SIZE)
  then stream_byte (flash_ m) (addr - FLASH_BASE)
  else if addr =? SERIAL_STATUS then mret 0x01
  else mret 0x00.

Definition write_physical (addr data : Z) : M t unit :=
  when ((RAM_BASE <=? addr) && (addr <? RAM_BASE + RAM_SIZE))
    (modify (fun m => set_ram (<[addr - RAM_BASE := data]> (ram_ m)) m));;
  when (addr =? SERIAL_PORT) (modify (fun m => set_out (out m ++ [data]) m)).

(** The CP0 updates of the three TLB exceptions of [addr_translate]. *)
Definition tlb_exception (exc_code virtual_addr : Z) (c : CP0.t) : CP0.t :=
  let c := CP0.set_exception_code exc_code c in
  let c := CP0.wr CP0.BadVAddr virtual_addr c in
  let c := CP0.wr CP0.Context (Z.land (CP0.rd c CP0.Context) 0xff80000f) c in
  let c := CP0.wr CP0.Context
             (Z.lor (CP0.rd c CP0.Context) (u32 ((virtual_addr ≫ 13) ≪ 4))) c in
  let c := CP0.wr CP0.EntryHi (Z.land (CP0.rd c CP0.EntryHi) 0x00001fff) c in
  CP0.wr CP0.EntryHi (Z.lor (CP0.rd c CP0.EntryHi) (Z.land virtual_addr 0xffffe000)) c.

Definition tlb_fail (exc_code virtual_addr : Z) : M t Z :=
  on_cp0 (tlb_exception exc_code virtual_addr);; raise;; mret 0x00.

(** The body of the TLB loop for a matching entry [i]. *)
Definition tlb_hit (virtual_addr : Z) (write : bool) (i : Z) : M t Z :=
  m ← get;
  let entry_lo :=
    arr_get (if Z.land (virtual_addr ≫ 12) 0x01 =? 0 then tlb_data0 m else tlb_data1 m) i in
  if Z.land (entry_lo ≫ 1) 0x01 =? 0 then
    tlb_fail (if write then CP0.Exc_TLBS else CP0.Exc_TLBL) virtual_addr
  else if (Z.land (entry_lo ≫ 2) 0x01 =? 0) && write then
    tlb_fail CP0.Exc_Mod virtual_addr
  else mret (Z.lor (Z.land (u32 (entry_lo ≪ 6)) 0xfffff000) (Z.land virtual_addr 0x00000fff)).

(** [for (i = 0; i < k_TLB_ENTRIES; ++i)], [n] entries left. *)
Fixpoint tlb_loop (n : nat) (i virtual_addr : Z) (write : bool) : M t Z :=
  match n with
  | O => tlb_fail (if write then CP0.Exc_TLBS else CP0.Exc_TLBL) virtual_addr
  | S n =>
      m ← get;
      if arr_get (tlb_key_ m) i ≫ 13 =? virtual_addr ≫ 13
      then tlb_hit virtual_addr write i
      else tlb_loop n (i + 1) virtual_addr write
  end.

Definition addr_translate (virtual_addr : Z) (write : bool) : M t Z :=
  if (KSEG0_BASE <=? virtual_addr) && (virtual_addr <? KSEG0_BASE + KSEG0_SIZE)
  then mret (Z.land virtual_addr 0x1fffffff)
  else if (KSEG1_BASE <=? virtual_addr) && (virtual_addr <? KSEG1_BASE + KSEG1_SIZE)
  then mret (Z.land virtual_addr 0x1fffffff)
  else tlb_loop (Z.to_nat k_TLB_ENTRIES) 0 virtual_addr write.

(** An unaligned access. *)
Definition addr_error (exc_code virtual_addr : Z) : M t unit :=
  on_cp0 (CP0.set_exception_code exc_code);;
  on_cp0 (CP0.wr CP0.BadVAddr virtual_addr);;
  raise.

Definition read_byte (virtual_addr : Z) : M t Z :=
  physical_addr ← addr_translate virtual_addr false;
  ex ← gets exception;
  if ex : bool then mret 0x00 else read_physical physical_addr.

Definition read_half_word (virtual_addr : Z) : M t Z :=
  if negb (Z.land virtual_addr 0x01 =? 0) then
    addr_error CP0.Exc_AdEL virtual_addr;; mret 0x00
  else
    physical_addr ← addr_translate virtual_addr false;
    ex ← gets exception;
    if ex : bool then mret 0x00 else
      b0 ← read_physical (u32 (physical_addr + 0));
      b1 ← read_physical (u32 (physical_addr + 1));
      mret (u16 (Z.lor b0 (b1 ≪ 8))).

Definition read_word (virtual_addr : Z) : M t Z :=
  if negb (Z.land virtual_addr 0x03 =? 0) then
    addr_error CP0.Exc_AdEL virtual_addr;; mret 0x00
  else
    physical_addr ← addr_translate virtual_addr false;
    ex ← gets exception;
    if ex : bool then mret 0x00 else
      b0 ← read_physical (u32 (physical_addr + 0));
      b1 ← read_physical (u32 (physical_addr + 1));
      b2 ← read_physical (u32 (physical_addr + 2));
      b3 ← read_physical (u32 (physical_addr + 3));
      mret (Z.lor (Z.lor (Z.lor b0 (u32 (b1 ≪ 8))) (u32 (b2 ≪ 16))) (u32 (b3 ≪ 24))).

Definition write_byte (virtual_addr data : Z) : M t unit :=
  physical_addr ← addr_translate virtual_addr true;
  ex ← gets exception;
  if ex : bool then mret tt else write_physical physical_addr data.

Definition write_half_word (virtual_addr data : Z) : M t unit :=
  if negb (Z.land virtual_addr 0x01 =? 0) then addr_error CP0.Exc_AdES virtual_addr
  else
    physical_addr ← addr_translate virtual_addr true;
    ex ← gets exception;
    if ex : bool then mret tt else
      write_physical (u32 (physical_addr + 0)) (u8 data);;
      write_physical (u32 (physical_addr + 1)) (u8 (data ≫ 8)).

Definition write_word (virtual_addr data : Z) : M t unit :=
  if negb (Z.land virtual_addr 0x03 =? 0) then addr_error CP0.Exc_AdES virtual_addr
  else
    physical_addr ← addr_translate virtual_addr true;
    ex ← gets exception;
    if ex : bool then mret tt else
      write_physical (u32 (physical_addr + 0)) (u8 data);;
      write_physical (u32 (physical_addr + 1)) (u8 (data ≫ 8));;
      write_physical (u32 (physical_addr + 2)) (u8 (data ≫ 16));;
      write_physical (u32 (physical_addr + 3)) (u8 (data ≫ 24)).

(** ** Well-formedness *)

Record wf (m : t) : Prop := {
  wf_cp0 : CP0.wf (cp0_ m);
  wf_ram : map_Forall (fun _ b => is_u8 b) (ram_ m);
  wf_rom : Forall is_u8 (rom_ m);
  wf_flash : Forall is_u8 (flash_ m);
  wf_key : length (tlb_key_ m) = 16%nat /\ Forall is_u32 (tlb_key_ m);
  wf_data0 : length (tlb_data0 m) = 16%nat /\ Forall is_u32 (tlb_data0 m);
  wf_data1 : length (tlb_data1 m) = 16%nat /\ Forall is_u32 (tlb_data1 m)
}.

Lemma set_cp0_wf c m : wf m -> CP0.wf c -> wf (set_cp0 c m).
Proof. intros [] ?. by split. Qed.
Lemma set_exception_wf b m : wf m -> wf (set_exception b m).
Proof. intros []. by split. Qed.
Lemma set_out_wf o m : wf m -> wf (set_out o m).
Proof. intros []. by split. Qed.
Lemma set_ram_wf a v m : wf m -> is_u8 v -> wf (set_ram (<[a := v]> (ram_ m)) m).
Proof. intros [] ?. split; try done. simpl. by apply map_Forall_insert_2. Qed.

Create HintDb mmu.
#[global] Hint Resolve set_cp0_wf set_exception_wf set_out_wf set_ram_wf wf_cp0 : mmu.
#[global] Hint Resolve CP0.wr_wf CP0.rd_u32 CP0.set_exception_code_wf
  is_u32_land is_u32_lor u32_range : mmu.

Lemma on_cp0_keeps f : (forall c, CP0.wf c -> CP0.wf (f c)) -> keeps wf (on_cp0 f) (fun _ => True).
Proof. intros Hf. apply keeps_modify. auto with mmu. Qed.

Lemma raise_keeps : keeps wf raise (fun _ => True).
Proof. apply keeps_modify. auto with mmu. Qed.

Lemma tlb_exception_wf e va c : is_u32 va -> CP0.wf c -> CP0.wf (tlb_exception e va c).
Proof. intros. unfold tlb_exception. cbv zeta. auto 20 with mmu. Qed.

Lemma tlb_fail_keeps e va : is_u32 va -> keeps wf (tlb_fail e va) is_u32.
Proof.
  intros Hva. unfold tlb_fail. repeat keeps_step.
  - apply on_cp0_keeps. intros. by apply tlb_exception_wf.
  - apply raise_keeps.
  - width.
Qed.

Lemma tlb_hit_keeps va w i : is_u32 va -> keeps wf (tlb_hit va w i) is_u32.
Proof.
  intros Hva. unfold tlb_hit. repeat keeps_step; auto using tlb_fail_keeps with mmu.
Qed.

Lemma tlb_loop_keeps n i va w : is_u32 va -> keeps wf (tlb_loop n i va w) is_u32.
Proof.
  intros Hva. revert i. induction n as [|n IH]; intros i; simpl.
  - by apply tlb_fail_keeps.
  - repeat keeps_step; auto using tlb_hit_keeps.
Qed.

Lemma addr_translate_keeps va w : is_u32 va -> keeps wf (addr_translate va w) is_u32.
Proof.
  intros Hva. unfold addr_translate.
  repeat keeps_step; auto using tlb_loop_keeps with mmu.
Qed.

Lemma stream_byte_keeps img pos : Forall is_u8 img -> keeps wf (stream_byte img pos) is_u8.
Proof.
  intros Hf. unfold stream_byte, lift_opt.
  destruct (img !! _) eqn:E; [|done]. apply keeps_ret.
  rewrite Forall_lookup in Hf. eauto.
Qed.

Lemma read_physical_keeps a : keeps wf (read_physical a) is_u8.
Proof.
  unfold read_physical. keeps_step. repeat keeps_step; try width.
  - unfold default. destruct (_ !! _) eqn:E; [|width]. by eapply (wf_ram _ H).
  - apply stream_byte_keeps, wf_rom; done.
  - apply stream_byte_keeps, wf_flash; done.
Qed.

Lemma write_physical_keeps a v : is_u8 v -> keeps wf (write_physical a v) (fun _ => True).
Proof. intros Hv. unfold write_physical. repeat keeps_step; auto with mmu. Qed.

Lemma addr_error_keeps e va : is_u32 va -> keeps wf (addr_error e va) (fun _ => True).
Proof.
  intros. unfold addr_error. repeat keeps_step;
    auto using raise_keeps, on_cp0_keeps with mmu.
Qed.

(** A byte shifted into its place in a word. *)
Lemma is_u32_place b k : is_u32 (u32 (b ≪ k)).
Proof. apply u32_range. Qed.

Ltac mmu_keeps :=
  repeat first
    [ keeps_step | apply addr_translate_keeps; solve [auto with mmu]
    | apply read_physical_keeps | apply write_physical_keeps; solve [auto with mmu width]
    | apply addr_error_keeps; solve [auto with mmu] | apply keeps_gets ].

Lemma read_byte_keeps va : is_u32 va -> keeps wf (read_byte va) is_u8.
Proof. intros. unfold read_byte. mmu_keeps. width. Qed.
Lemma read_half_word_keeps va : is_u32 va -> keeps wf (read_half_word va) is_u16.
Proof. intros. unfold read_half_word. mmu_keeps; auto with width; width. Qed.
Lemma read_word_keeps va : is_u32 va -> keeps wf (read_word va) is_u32.
Proof.
  intros. unfold read_word. mmu_keeps; [width..|].
  repeat apply is_u32_lor; auto using is_u32_place. width.
Qed.
Lemma write_byte_keeps va d : is_u32 va -> is_u8 d -> keeps wf (write_byte va d) (fun _ => True).
Proof. intros. unfold write_byte. mmu_keeps. done. Qed.
Lemma write_word_keeps va d : is_u32 va -> keeps wf (write_word va d) (fun _ => True).
Proof. intros. unfold write_word. mmu_keeps. done. Qed.

End MMU.
