(* ===== verification/MmuSpec.v ===== *)
(** What the emulator's MMU promises: address translation against a
    specification by segments and TLB fields, and loads and stores against a
    byte-addressed memory (src/src/mmu.h). *)

From S2P Require Import Prelude Cp0 Mmu.

Module MMUSpec.
Import MMU.

(** ** Specification of address translation *)

Inductive xlate := Phys (pa : Z) | Fail (code : Z).

Definition miss_code (write : bool) : Z := if write then CP0.Exc_TLBS else CP0.Exc_TLBL.

(** A TLB entry's low word: PFN in bits 25-6, D bit 2, V bit 1. *)
Definition entry_xlate (lo va : Z) (write : bool) : xlate :=
  if decide ((lo `div` 2) `mod` 2 = 0) then Fail (miss_code write)
  else if decide ((lo `div` 4) `mod` 2 = 0 /\ write = true) then Fail CP0.Exc_Mod
  else Phys ((lo `div` 64) `mod` 2 ^ 20 * 4096 + va `mod` 4096).

(** kseg0 and kseg1 are the low 512 MB of physical memory; the other
    addresses go through the first TLB entry with the same VPN2. *)
Definition xlate_spec (m : t) (va : Z) (write : bool) : xlate :=
  if decide (0x80000000 <= va < 0xc0000000) then Phys (va `mod` 2 ^ 29)
  else match list_find (fun k => k `div` 8192 = va `div` 8192) (tlb_key_ m) with
       | None => Fail (miss_code write)
       | Some (i, _) =>
           entry_xlate (arr_get (if decide ((va `div` 4096) `mod` 2 = 0)
                                 then tlb_data0 m else tlb_data1 m) (Z.of_nat i)) va write
       end.

(** The state after a TLB exception: the flag is set, Cause holds the code,
    BadVAddr the address, EntryHi its VPN2 above the old ASID bits, Context
    its VPN2 in bits 22-4; nothing else changes. *)
Record raised (m : t) (va code : Z) (m' : t) : Prop := {
  raised_flag : exception m' = true;
  raised_mem : ram_ m' = ram_ m /\ rom_ m' = rom_ m /\ flash_ m' = flash_ m /\ out m' = out m;
  raised_tlb : tlb_key_ m' = tlb_key_ m /\ tlb_data0 m' = tlb_data0 m /\ tlb_data1 m' = tlb_data1 m;
  raised_code : CP0.ExcCode (cp0_ m') = code;
  raised_badvaddr : CP0.rd (cp0_ m') CP0.BadVAddr = va;
  raised_entryhi : CP0.rd (cp0_ m') CP0.EntryHi
                   = va `div` 8192 * 8192 + CP0.rd (cp0_ m) CP0.EntryHi `mod` 8192;
  raised_context : (CP0.rd (cp0_ m') CP0.Context `div` 16) `mod` 2 ^ 19 = va `div` 8192;
  raised_other i : 0 <= i -> i ∉ [CP0.Cause; CP0.BadVAddr; CP0.EntryHi; CP0.Context] ->
                   CP0.rd (cp0_ m') i = CP0.rd (cp0_ m) i
}.

(** ** Translation facts *)

Lemma shiftr13 x : x ≫ 13 = x `div` 8192.
Proof. by rewrite Z.shiftr_div_pow2 by lia. Qed.

Lemma bit_test x k : 0 <= k -> (Z.land (x ≫ k) 1 =? 0) = bool_decide ((x `div` 2 ^ k) `mod` 2 = 0).
Proof.
  intros Hk. rewrite Z.shiftr_div_pow2 by lia. change 1 with (2 ^ 1 - 1).
  rewrite land_low by lia. apply eq_bool_prop_intro.
  rewrite bool_decide_spec. split; [by intros ?%Is_true_true%Z.eqb_eq|].
  intros Hx. by apply Is_true_true, Z.eqb_eq.
Qed.

Lemma frame_address lo va :
  is_u32 va ->
  Z.lor (Z.land (u32 (lo ≪ 6)) 0xfffff000) (Z.land va 0x00000fff)
  = (lo `div` 64) `mod` 2 ^ 20 * 4096 + va `mod` 4096.
Proof.
  intros Hva. change 0xfffff000 with (2 ^ 32 - 2 ^ 12).
  rewrite land_high by (try apply u32_range; lia).
  change 0xfff with (2 ^ 12 - 1). rewrite land_low by lia.
  rewrite lor_add by (try apply Z.mod_pos_bound; lia).
  rewrite Z.shiftl_mul_pow2 by lia. unfold u32. change (2 ^ 12) with 4096.
  change (2 ^ 6) with 64. change (2 ^ 20) with 1048576.
  f_equal. f_equal. Z.div_mod_to_equations. lia.
Qed.

Lemma tlb_fail_run code va m :
  tlb_fail code va m
  = Ret (0, set_exception true (set_cp0 (tlb_exception code va (cp0_ m)) m)).
Proof. done. Qed.

Lemma entryhi_field va eh :
  is_u32 va -> is_u32 eh ->
  Z.lor (Z.land eh 0x1fff) (Z.land va 0xffffe000) = va `div` 8192 * 8192 + eh `mod` 8192.
Proof.
  intros Hva Heh. rewrite Z.lor_comm. change 0xffffe000 with (2 ^ 32 - 2 ^ 13).
  rewrite land_high by (unfold is_u32 in *; lia).
  change 0x1fff with (2 ^ 13 - 1). rewrite land_low by lia.
  rewrite lor_add by (try apply Z.mod_pos_bound; lia). done.
Qed.

Lemma context_field va ctx :
  is_u32 va -> is_u32 ctx ->
  (Z.lor (Z.land ctx 0xff80000f) (u32 ((va ≫ 13) ≪ 4)) `div` 16) `mod` 2 ^ 19 = va `div` 8192.
Proof.
  intros Hva Hctx. rewrite <- shiftr13.
  change 16 with (2 ^ 4). rewrite <- Z.shiftr_div_pow2, <- land_low by lia.
  bits32; [ apply is_u32_land, is_u32_shiftr; [lia|]; auto with mmu
          | apply is_u32_shiftr; [lia|done]
          | rewrite ?(testbit_bound va 32) by (unfold is_u32 in *; lia); done .. ].
Qed.

Lemma tlb_exception_regs code va c :
  CP0.wf c -> is_u32 va -> 0 <= code < 32 ->
  let c' := tlb_exception code va c in
  CP0.ExcCode c' = code /\ CP0.rd c' CP0.BadVAddr = va /\
  CP0.rd c' CP0.EntryHi = va `div` 8192 * 8192 + CP0.rd c CP0.EntryHi `mod` 8192 /\
  (CP0.rd c' CP0.Context `div` 16) `mod` 2 ^ 19 = va `div` 8192 /\
  forall i, 0 <= i -> i ∉ [CP0.Cause; CP0.BadVAddr; CP0.EntryHi; CP0.Context] ->
    CP0.rd c' i = CP0.rd c i.
Proof.
  intros Hc Hva Hcode c'. subst c'. unfold tlb_exception. cbv zeta.
  assert (Hs : CP0.wf (CP0.set_exception_code code c)) by auto with mmu.
  assert (Hk : forall i, 0 <= i -> i <> CP0.Cause ->
    CP0.rd (CP0.set_exception_code code c) i = CP0.rd c i)
    by (intros; by apply CP0.set_exception_code_other).
  split_and!.
  - transitivity (CP0.ExcCode (CP0.set_exception_code code c)); [|by apply CP0.ExcCode_set].
    unfold CP0.ExcCode. by CP0.rd_simpl.
  - by CP0.rd_simpl.
  - CP0.rd_simpl. rewrite Hk by CP0.reg_lia. apply entryhi_field; auto with mmu.
  - CP0.rd_simpl. rewrite Hk by CP0.reg_lia. apply context_field; auto with mmu.
  - intros i Hi Hn. rewrite !not_elem_of_cons in Hn. destruct Hn as (?&?&?&?&_).
    CP0.rd_simpl. apply Hk; done.
Qed.

Lemma tlb_fail_raised code va m :
  wf m -> is_u32 va -> 0 <= code < 32 ->
  exists m', tlb_fail code va m = Ret (0, m') /\ raised m va code m'.
Proof.
  intros Hwf Hva Hcode. eexists. split; [apply tlb_fail_run|].
  destruct (tlb_exception_regs code va (cp0_ m)) as (?&?&?&?&?); auto with mmu.
  by split.
Qed.

Lemma tlb_hit_spec va w i m :
  is_u32 va ->
  tlb_hit va w i m =
  match entry_xlate (arr_get (if decide ((va `div` 4096) `mod` 2 = 0)
                              then tlb_data0 m else tlb_data1 m) i) va w with
  | Phys pa => Ret (pa, m)
  | Fail code => tlb_fail code va m
  end.
Proof.
  intros Hva. unfold tlb_hit, entry_xlate, get.
  unfold mbind, M_bind. cbv zeta. rewrite frame_address by done.
  rewrite !bit_test by lia.
  change (2 ^ 12) with 4096. change (2 ^ 1) with 2. change (2 ^ 2) with 4.
  rewrite !decide_bool_decide, bool_decide_and.
  set (lo := arr_get (if bool_decide _ then _ else _) i). clearbody lo.
  destruct (bool_decide ((lo `div` 2) `mod` 2 = 0)),
    (bool_decide ((lo `div` 4) `mod` 2 = 0)), w; done.
Qed.


(** The loop stops at the first key with the address's VPN2. *)
Lemma tlb_loop_spec n i va w m :
  is_u32 va -> length (tlb_key_ m) = (i + n)%nat ->
  tlb_loop n (Z.of_nat i) va w m =
  match list_find (fun k => k `div` 8192 = va `div` 8192) (drop i (tlb_key_ m)) with
  | None => tlb_fail (miss_code w) va m
  | Some (j, _) => tlb_hit va w (Z.of_nat (i + j)) m
  end.
Proof.
  intros Hva. revert i. induction n as [|n IH]; intros i Hlen.
  { rewrite drop_ge by lia. done. }
  assert (Hi : (i < length (tlb_key_ m))%nat) by lia.
  apply lookup_lt_is_Some in Hi as [k Hk]. rewrite (drop_S _ k) by done.
  cbn [tlb_loop]. unfold get, mbind, M_bind. unfold arr_get.
  rewrite Nat2Z.id, Hk. cbn [list_find default id from_option].
  rewrite !shiftr13. destruct (Z.eqb_spec (k `div` 8192) (va `div` 8192)).
  - rewrite decide_True by done. by rewrite Nat.add_0_r.
  - rewrite decide_False by done.
    replace (Z.of_nat i + 1) with (Z.of_nat (S i)) by lia. rewrite IH by lia.
    destruct (list_find _ (drop (S i) _)) as [[j ?]|]; simpl; [|done].
    by replace (i + S j)%nat with (S (i + j)) by lia.
Qed.

Lemma entry_xlate_code lo va w code : entry_xlate lo va w = Fail code -> 0 <= code < 32.
Proof.
  unfold entry_xlate, miss_code, CP0.Exc_TLBS, CP0.Exc_TLBL, CP0.Exc_Mod.
  repeat case_decide; destruct w; intros; simplify_eq; lia.
Qed.

Lemma addr_translate_eq m va w :
  wf m -> is_u32 va ->
  addr_translate va w m =
  match xlate_spec m va w with
  | Phys pa => Ret (pa, m)
  | Fail code => tlb_fail code va m
  end.
Proof.
  intros Hwf Hva. unfold addr_translate, xlate_spec, KSEG0_BASE, KSEG1_BASE, KSEG0_SIZE, KSEG1_SIZE.
  change 0x1fffffff with (2 ^ 29 - 1). rewrite land_low by lia.
  case_decide as Hseg.
  - destruct (Z.leb_spec 0x80000000 va); [|lia].
    destruct (Z.ltb_spec va (0x80000000 + 0x20000000)); [done|].
    destruct (Z.leb_spec 0xa0000000 va); [|lia].
    by destruct (Z.ltb_spec va (0xa0000000 + 0x20000000)); [|lia].
  - replace ((0x80000000 <=? va) && _) with false by lia.
    replace ((0xa0000000 <=? va) && _) with false by lia.
    change 0 with (Z.of_nat 0). rewrite tlb_loop_spec by (apply wf_key in Hwf; naive_solver).
    rewrite drop_0. destruct (list_find _ _) as [[j ?]|]; [|done].
    by rewrite tlb_hit_spec.
Qed.

Lemma xlate_code m va w code : xlate_spec m va w = Fail code -> 0 <= code < 32.
Proof.
  unfold xlate_spec. case_decide; [done|].
  destruct (list_find _ _) as [[j ?]|]; [apply entry_xlate_code|].
  intros; simplify_eq. unfold miss_code, CP0.Exc_TLBS, CP0.Exc_TLBL. destruct w; lia.
Qed.

(** ** Loads and stores in RAM *)

Definition in_ram (a : Z) : Prop := 0 <= a < RAM_SIZE.

Definition ram_byte (m : t) (a : Z) : Z := default 0 (ram_ m !! a).

(** The word at [a], least significant byte first. *)
Definition ram_word (m : t) (a : Z) : Z :=
  ram_byte m a + ram_byte m (a + 1) * 2 ^ 8 + ram_byte m (a + 2) * 2 ^ 16
  + ram_byte m (a + 3) * 2 ^ 24.

Lemma read_physical_ram a m : in_ram a -> read_physical a m = Ret (ram_byte m a, m).
Proof.
  unfold in_ram, read_physical, get, mbind, M_bind, RAM_BASE, RAM_SIZE. intros Ha.
  replace ((0 <=? a) && _) with true by lia. by rewrite Z.sub_0_r.
Qed.

Lemma write_physical_ram a b m :
  in_ram a -> write_physical a b m = Ret (tt, set_ram (<[a := b]> (ram_ m)) m).
Proof.
  unfold in_ram, write_physical, mbind, M_bind, RAM_BASE, RAM_SIZE, SERIAL_PORT. intros Ha.
  replace ((0 <=? a) && _) with true by lia. replace (a =? _) with false by lia.
  by rewrite Z.sub_0_r.
Qed.

Lemma ram_byte_u8 m a : wf m -> is_u8 (ram_byte m a).
Proof.
  intros Hwf. unfold ram_byte. destruct (_ !! _) eqn:E; simpl; [|width]. by eapply (wf_ram _ Hwf).
Qed.

Lemma join_bytes b0 b1 b2 b3 :
  is_u8 b0 -> is_u8 b1 -> is_u8 b2 -> is_u8 b3 ->
  Z.lor (Z.lor (Z.lor b0 (u32 (b1 ≪ 8))) (u32 (b2 ≪ 16))) (u32 (b3 ≪ 24))
  = b0 + b1 * 2 ^ 8 + b2 * 2 ^ 16 + b3 * 2 ^ 24.
Proof.
  intros. rewrite !Z.shiftl_mul_pow2 by lia.
  change (2 ^ 8) with 0x100. change (2 ^ 16) with 0x10000. change (2 ^ 24) with 0x1000000.
  rewrite !u32_id by width.
  change 0x100 with (2 ^ 8). change 0x10000 with (2 ^ 16). change 0x1000000 with (2 ^ 24).
  unfold is_u8 in *.
  rewrite (Z.lor_comm b0), (lor_add b1) by lia.
  rewrite (Z.lor_comm _ (b2 * _)), (lor_add b2) by lia.
  rewrite (Z.lor_comm _ (b3 * _)), (lor_add b3) by lia. lia.
Qed.

Lemma split_word d :
  is_u32 d -> u8 d + u8 (d ≫ 8) * 2 ^ 8 + u8 (d ≫ 16) * 2 ^ 16 + u8 (d ≫ 24) * 2 ^ 24 = d.
Proof.
  intros. rewrite !Z.shiftr_div_pow2 by lia.
  change (2 ^ 8) with 0x100. change (2 ^ 16) with 0x10000. change (2 ^ 24) with 0x1000000. width.
Qed.

Lemma xlate_low m va w pa : xlate_spec m va w = Phys pa -> pa `mod` 4096 = va `mod` 4096.
Proof.
  unfold xlate_spec, entry_xlate. case_decide; [intros [= <-]; change (2 ^ 29) with 0x20000000; width|].
  destruct (list_find _ _) as [[j ?]|]; [|done].
  repeat case_decide; intros Hx; try done; injection Hx as <-; width.
Qed.

(** What may be written may be read, at the same place. *)
Lemma xlate_write_read m va pa : xlate_spec m va true = Phys pa -> xlate_spec m va false = Phys pa.
Proof.
  unfold xlate_spec, entry_xlate. case_decide; [done|].
  destruct (list_find _ _) as [[j ?]|]; [|done]. repeat case_decide; naive_solver.
Qed.

(** Translation reads neither the RAM nor the flag. *)
Lemma xlate_set_ram r m va w : xlate_spec (set_ram r m) va w = xlate_spec m va w.
Proof. done. Qed.

Definition aligned (va : Z) : Prop := va `mod` 4 = 0.

Lemma aligned_test va : aligned va -> negb (Z.land va 0x03 =? 0) = false.
Proof. unfold aligned. intros Hal. change 3 with (2 ^ 2 - 1). rewrite land_low by lia. change (2 ^ 2) with 4; by rewrite Hal. Qed.

Section Stored.
  Context (m : t) (pa : Z).

Definition stored (d : Z) : t :=
  set_ram (<[pa + 3 := u8 (d ≫ 24)]> (<[pa + 2 := u8 (d ≫ 16)]>
          (<[pa + 1 := u8 (d ≫ 8)]> (<[pa := u8 d]> (ram_ m))))) m.

Lemma stored_wf d : wf m -> wf (stored d).
Proof.
  intros []. unfold stored. split; try done. simpl.
  repeat (apply map_Forall_insert_2; [apply u8_range|]). done.
Qed.

Lemma stored_word d : is_u32 d -> ram_word (stored d) pa = d.
Proof.
  intros Hd. unfold ram_word, ram_byte, stored. simpl. simplify_map_eq by lia.
  by apply split_word.
Qed.

Lemma stored_other d pa' :
  pa `mod` 4 = 0 -> pa' `mod` 4 = 0 -> pa' <> pa -> ram_word (stored d) pa' = ram_word m pa'.
Proof.
  intros. unfold ram_word, ram_byte, stored. simpl.
  rewrite !lookup_insert_ne by width. done.
Qed.

End Stored.

Section Access.
  Context (m : t) (va pa : Z).
  Hypothesis (Hwf : wf m) (Hva : is_u32 va) (Hal : aligned va).
  Hypothesis (Hram : in_ram pa).

Lemma pa_word w : xlate_spec m va w = Phys pa ->
  pa `mod` 4 = 0 /\ forall k, 0 <= k < 4 -> u32 (pa + k) = pa + k /\ in_ram (pa + k).
Proof.
  intros Hx%xlate_low. unfold aligned, in_ram, RAM_SIZE in *. split; [|intros k Hk; split]; width.
Qed.

Lemma read_word_eq :
  exception m = false -> xlate_spec m va false = Phys pa ->
  read_word va m = Ret (ram_word m pa, m).
Proof.
  intros Hex Hx. destruct (pa_word _ Hx) as [_ Hk].
  unfold read_word, gets. rewrite aligned_test by done. unfold mbind, M_bind.
  rewrite addr_translate_eq, Hx, Hex by done.
  assert (Hu : forall k, 0 <= k < 4 -> u32 (pa + k) = pa + k) by (intros; by apply Hk).
  rewrite !Hu by lia. rewrite Z.add_0_r.
  rewrite !read_physical_ram by (done || apply Hk; lia).
  unfold mret, M_ret. rewrite join_bytes by (by apply ram_byte_u8). done.
Qed.

Lemma write_word_eq d :
  exception m = false -> xlate_spec m va true = Phys pa ->
  write_word va d m = Ret (tt, stored m pa d).
Proof.
  intros Hex Hx. destruct (pa_word _ Hx) as [_ Hk].
  unfold write_word, gets. rewrite aligned_test by done. unfold mbind, M_bind.
  rewrite addr_translate_eq, Hx, Hex by done.
  assert (Hu : forall k, 0 <= k < 4 -> u32 (pa + k) = pa + k) by (intros; by apply Hk).
  rewrite !Hu by lia. rewrite Z.add_0_r.
  rewrite !write_physical_ram by (done || apply Hk; lia). done.
Qed.

End Access.

(** ** Properties *)

(** C1: For every TLB content and every 32-bit address, [addr_translate] gives
    the physical address of the segment or of the first matching valid (and,
    for a write, dirty) TLB entry and changes nothing; otherwise it raises
    exactly the exception the specification names, with BadVAddr, EntryHi and
    Context describing the address and every other register untouched. *)
Theorem addr_translate_correct m va w :
  wf m -> is_u32 va ->
  match xlate_spec m va w with
  | Phys pa => addr_translate va w m = Ret (pa, m)
  | Fail code => exists m', addr_translate va w m = Ret (0, m') /\ raised m va code m'
  end.
Proof.
  intros Hwf Hva. rewrite addr_translate_eq by done.
  destruct (xlate_spec m va w) as [|code] eqn:Hx; [done|].
  apply tlb_fail_raised; [done..|]. by eapply xlate_code.
Qed.

(** A word stored through any successful translation to RAM is loaded
    back from the same virtual address, and a load of any other word of RAM
    (through any translation) sees the value it had before. *)
Theorem word_roundtrip m va pa d :
  wf m -> exception m = false -> is_u32 va -> aligned va -> is_u32 d ->
  xlate_spec m va true = Phys pa -> in_ram pa ->
  exists m', write_word va d m = Ret (tt, m') /\ wf m' /\
    read_word va m' = Ret (d, m') /\
    forall va' pa', is_u32 va' -> aligned va' -> in_ram pa' -> pa' <> pa ->
      xlate_spec m va' false = Phys pa' ->
      exists v, read_word va' m = Ret (v, m) /\ read_word va' m' = Ret (v, m').
Proof.
  intros Hwf Hex Hva Hal Hd Hx Hram. exists (stored m pa d).
  assert (Hwf' := stored_wf m pa d Hwf). split_and!; [by apply write_word_eq|done|..].
  - rewrite (read_word_eq _ _ pa); [|done..|by apply xlate_write_read].
    by rewrite stored_word.
  - intros va' pa' Hva' Hal' Hram' Hne Hx'. exists (ram_word m pa').
    split; [by apply read_word_eq|].
    rewrite (read_word_eq _ _ pa') by done. f_equal. f_equal.
    apply stored_other; [by eapply (pa_word m va)|by eapply (pa_word m va')|done].
Qed.

(** Witnesses: page 0x00400000 mapped by TLB entry 3 to frame 0x123. *)
Definition demo : t :=
  init [] [] (arr_set (replicate 16 0xfffff000) 3 0x00400000)
    (arr_set (replicate 16 0) 3 (0x123 * 64 + 6)) (replicate 16 0).

Lemma demo_wf : wf demo.
Proof.
  split; try done; try (split; [done|]); repeat constructor; try width.
Qed.

Lemma addr_translate_correct_witness :
  xlate_spec demo 0x00400abc true = Phys 0x123abc /\
  addr_translate 0x00400abc true demo = Ret (0x123abc, demo).
Proof.
  split; [by vm_compute|].
  exact (addr_translate_correct demo 0x00400abc true demo_wf ltac:(width)).
Defined.

Lemma word_roundtrip_witness :
  exists m', write_word 0x00400ab8 0xdeadbeef demo = Ret (tt, m') /\
    read_word 0x00400ab8 m' = Ret (0xdeadbeef, m').
Proof.
  destruct (word_roundtrip demo 0x00400ab8 0x123ab8 0xdeadbeef) as (m' & Hw & _ & Hr & _);
    [exact demo_wf | done | width | done | width | by vm_compute | done |].
  by exists m'.
Defined.

End MMUSpec.
