(* ===== verification/Cpu.v ===== *)
(** The processor of the emulator: [class CPU] of src/src/cpu.h, the decoder
    of src/src/cpu.cc and the 48 instructions of src/src/cpu_instructions.cc. *)

From S2P Require Import Prelude Cp0 Mmu.

Module CPU.

Record t := mk {
  registers_ : list Z;        (* [uint32_t registers_[32]] *)
  pc_ : Z;
  instruction_ : Z;
  hi_ : Z;
  lo_ : Z;
  mmu_ : MMU.t                (* with the CP0 both classes share *)
}.

Definition PC_INITIAL : Z := 0xbfc00000.
Definition REG_ZERO : Z := 0.
Definition REG_RA : Z := 31.

Definition set_regs r s := mk r (pc_ s) (instruction_ s) (hi_ s) (lo_ s) (mmu_ s).
Definition set_pc p s := mk (registers_ s) p (instruction_ s) (hi_ s) (lo_ s) (mmu_ s).
Definition set_instr i s := mk (registers_ s) (pc_ s) i (hi_ s) (lo_ s) (mmu_ s).
Definition set_hi h s := mk (registers_ s) (pc_ s) (instruction_ s) h (lo_ s) (mmu_ s).
Definition set_lo l s := mk (registers_ s) (pc_ s) (instruction_ s) (hi_ s) l (mmu_ s).
Definition set_mmu m s := mk (registers_ s) (pc_ s) (instruction_ s) (hi_ s) (lo_ s) m.

Definition cp0_ (s : t) : CP0.t := MMU.cp0_ (mmu_ s).
Definition exception (s : t) : bool := MMU.exception (mmu_ s).

(** A member call on [mmu_]. *)
Definition on_mmu {A} (f : M MMU.t A) : M t A := fun s =>
  match f (mmu_ s) with
  | Ret (a, m) => Ret (a, set_mmu m s)
  | Panic => Panic
  | Fault => Fault
  | Diverge => Diverge
  end.

Definition on_cp0 (f : CP0.t -> CP0.t) : M t unit := on_mmu (MMU.on_cp0 f).
Definition raise : M t unit := on_mmu MMU.raise.

(** ** Fields of the instruction *)

Definition main_opcode (s : t) : Z := instruction_ s ≫ 26.
Definition sub_opcode (s : t) : Z := Z.land (instruction_ s) 0x3f.
Definition rs (s : t) : Z := Z.land (instruction_ s ≫ 21) 0x1f.
Definition rt (s : t) : Z := Z.land (instruction_ s ≫ 16) 0x1f.
Definition rd (s : t) : Z := Z.land (instruction_ s ≫ 11) 0x1f.
Definition shift (s : t) : Z := Z.land (instruction_ s ≫ 6) 0x1f.
Definition branch_offset (s : t) : Z := s16 (Z.land (instruction_ s) 0xffff).
Definition jump_target (s : t) : Z := Z.land (instruction_ s) 0x3ffffff.
Definition signed_immediate (s : t) : Z := s16 (Z.land (instruction_ s) 0xffff).
Definition unsigned_immediate (s : t) : Z := u16 (Z.land (instruction_ s) 0xffff).

Definition reg (s : t) (i : Z) : Z := arr_get (registers_ s) i.
Definition set_reg (i v : Z) : M t unit :=
  modify (fun s => set_regs (arr_set (registers_ s) i v) s).
Definition advance : M t unit := modify (fun s => set_pc (u32 (pc_ s + 4)) s).

(** ** Instructions *)

Definition exe_sll : M t unit :=
  s ← get; set_reg (rd s) (u32 (reg s (rt s) ≪ shift s));; advance.

Definition exe_srl : M t unit :=
  s ← get; set_reg (rd s) (reg s (rt s) ≫ shift s);; advance.

Definition exe_sra : M t unit :=
  s ← get;
  let val := s32 (reg s (rt s)) in
  let val := val ≫ shift s in
  set_reg (rd s) (u32 val);; advance.

(** The three variable shifts use the whole register as the distance, and a
    distance of 32 or more is undefined. *)
Definition exe_sllv : M t unit :=
  s ← get;
  defined (reg s (rs s) <? 32);;
  set_reg (rd s) (u32 (reg s (rt s) ≪ reg s (rs s)));; advance.

Definition exe_srlv : M t unit :=
  s ← get;
  defined (reg s (rs s) <? 32);;
  set_reg (rd s) (reg s (rt s) ≫ reg s (rs s));; advance.

Definition exe_srav : M t unit :=
  s ← get;
  defined (reg s (rs s) <? 32);;
  let val := s32 (reg s (rt s)) in
  let val := val ≫ reg s (rs s) in
  set_reg (rd s) (u32 val);; advance.

Definition exe_jr : M t unit := s ← get; modify (set_pc (reg s (rs s))).

Definition exe_jalr : M t unit :=
  s ← get;
  let npc := reg s (rs s) in
  set_reg (rd s) (u32 (pc_ s + 4));;
  modify (set_pc npc).

Definition exe_syscall : M t unit :=
  on_cp0 (CP0.set_exception_code CP0.Exc_Syscall);; raise.

Definition exe_mfhi : M t unit := s ← get; set_reg (rd s) (hi_ s);; advance.
Definition exe_mthi : M t unit := s ← get; modify (set_hi (reg s (rs s)));; advance.
Definition exe_mflo : M t unit := s ← get; set_reg (rd s) (lo_ s);; advance.
Definition exe_mtlo : M t unit := s ← get; modify (set_lo (reg s (rs s)));; advance.

(** The operands are converted from [uint32_t] to [int64_t], hence zero
    extended; a product of 2^63 or more overflows, which is undefined. *)
Definition exe_mult : M t unit :=
  s ← get;
  let a := s64 (reg s (rs s)) in
  let b := s64 (reg s (rt s)) in
  let a := a * b in
  defined ((-0x8000000000000000 <=? a) && (a <? 0x8000000000000000));;
  modify (set_hi (u32 (a ≫ 32)));;
  modify (set_lo (u32 a));;
  advance.

Definition exe_addu : M t unit :=
  s ← get; set_reg (rd s) (u32 (reg s (rs s) + reg s (rt s)));; advance.
Definition exe_subu : M t unit :=
  s ← get; set_reg (rd s) (u32 (reg s (rs s) - reg s (rt s)));; advance.
Definition exe_and : M t unit :=
  s ← get; set_reg (rd s) (Z.land (reg s (rs s)) (reg s (rt s)));; advance.
Definition exe_or : M t unit :=
  s ← get; set_reg (rd s) (Z.lor (reg s (rs s)) (reg s (rt s)));; advance.
Definition exe_xor : M t unit :=
  s ← get; set_reg (rd s) (Z.lxor (reg s (rs s)) (reg s (rt s)));; advance.
Definition exe_nor : M t unit :=
  s ← get; set_reg (rd s) (u32 (Z.lnot (Z.lor (reg s (rs s)) (reg s (rt s)))));; advance.

Definition exe_slt : M t unit :=
  s ← get;
  set_reg (rd s) (if s32 (reg s (rs s)) <? s32 (reg s (rt s)) then 1 else 0);; advance.
Definition exe_sltu : M t unit :=
  s ← get;
  set_reg (rd s) (if reg s (rs s) <? reg s (rt s) then 1 else 0);; advance.

(** A taken branch adds the scaled offset, then every branch adds 4. *)
Definition branch_if (b : bool) : M t unit :=
  when b (modify (fun s => set_pc (u32 (pc_ s + branch_offset s * 4)) s));; advance.

Definition exe_bltz : M t unit := s ← get; branch_if (s32 (reg s (rs s)) <? 0).
Definition exe_bgez : M t unit := s ← get; branch_if (0 <=? s32 (reg s (rs s))).

Definition exe_j : M t unit :=
  modify (fun s => set_pc (Z.lor (Z.land (pc_ s) 0xf0000000) (u32 (jump_target s * 4))) s).

Definition exe_jal : M t unit :=
  s ← get;
  set_reg REG_RA (u32 (pc_ s + 4));;
  modify (fun s => set_pc (Z.lor (Z.land (pc_ s) 0xf0000000) (u32 (jump_target s * 4))) s).

Definition exe_beq : M t unit := s ← get; branch_if (reg s (rs s) =? reg s (rt s)).
Definition exe_bne : M t unit := s ← get; branch_if (negb (reg s (rs s) =? reg s (rt s))).
Definition exe_blez : M t unit := s ← get; branch_if (s32 (reg s (rs s)) <=? 0).
Definition exe_bgtz : M t unit := s ← get; branch_if (0 <? s32 (reg s (rs s))).

Definition exe_addiu : M t unit :=
  s ← get; set_reg (rt s) (u32 (reg s (rs s) + signed_immediate s));; advance.
Definition exe_slti : M t unit :=
  s ← get;
  set_reg (rt s) (if s32 (reg s (rs s)) <? signed_immediate s then 1 else 0);; advance.
Definition exe_sltiu : M t unit :=
  s ← get;
  set_reg (rt s) (if reg s (rs s) <? unsigned_immediate s then 1 else 0);; advance.
Definition exe_andi : M t unit :=
  s ← get; set_reg (rt s) (Z.land (reg s (rs s)) (unsigned_immediate s));; advance.
Definition exe_ori : M t unit :=
  s ← get; set_reg (rt s) (Z.lor (reg s (rs s)) (unsigned_immediate s));; advance.
Definition exe_xori : M t unit :=
  s ← get; set_reg (rt s) (Z.lxor (reg s (rs s)) (unsigned_immediate s));; advance.
Definition exe_lui : M t unit :=
  s ← get; set_reg (rt s) (u32 (unsigned_immediate s ≪ 16));; advance.

Definition exe_mfc0 : M t unit :=
  s ← get; set_reg (rt s) (CP0.rd (cp0_ s) (rd s));; advance.
Definition exe_mtc0 : M t unit :=
  s ← get; on_cp0 (CP0.wr (rd s) (reg s (rt s)));; advance.

(** The Index register is not masked: an index of 16 or more is outside the
    arrays. *)
Definition exe_tlbwi : M t unit :=
  s ← get;
  let c := cp0_ s in
  let i := CP0.rd c CP0.Index in
  defined (i <? MMU.k_TLB_ENTRIES);;
  on_mmu (modify (fun m =>
    MMU.set_tlb (arr_set (MMU.tlb_key_ m) i (CP0.rd c CP0.EntryHi))
                (arr_set (MMU.tlb_data0 m) i (CP0.rd c CP0.EntryLo0))
                (arr_set (MMU.tlb_data1 m) i (CP0.rd c CP0.EntryLo1)) m));;
  advance.

Definition exe_eret : M t unit :=
  s ← get;
  modify (set_pc (CP0.rd (cp0_ s) CP0.EPC));;
  on_cp0 CP0.unset_Status_EXL.

(** A load: unless an exception was raised, [f] of the value goes to [rt]. *)
Definition load (rdop : Z -> M MMU.t Z) (f : Z -> Z) : M t unit :=
  s ← get;
  val ← on_mmu (rdop (u32 (reg s (rs s) + signed_immediate s)));
  s' ← get;
  if exception s' then mret tt else set_reg (rt s) (f val);; advance.

Definition exe_lb : M t unit := load MMU.read_byte (fun val => u32 (s8 val)).
Definition exe_lw : M t unit := load MMU.read_word (fun val => val).
Definition exe_lbu : M t unit := load MMU.read_byte (fun val => val).
Definition exe_lhu : M t unit := load MMU.read_half_word (fun val => val).

Definition store (wrop : Z -> Z -> M MMU.t unit) (f : Z -> Z) : M t unit :=
  s ← get;
  on_mmu (wrop (u32 (reg s (rs s) + signed_immediate s)) (f (reg s (rt s))));;
  s' ← get;
  if exception s' then mret tt else advance.

Definition exe_sb : M t unit := store MMU.write_byte (fun v => Z.land v 0xff).
Definition exe_sw : M t unit := store MMU.write_word (fun v => v).

Definition exe_cache : M t unit := advance.

(** ** Decoder *)

(** The [default] branches. *)
Definition reserved_instruction : M t unit :=
  on_cp0 (CP0.set_exception_code CP0.Exc_RI);; raise.

Definition special_arms : list (Z * M t unit) :=
  [(0x00, exe_sll); (0x02, exe_srl); (0x03, exe_sra); (0x04, exe_sllv);
   (0x06, exe_srlv); (0x07, exe_srav); (0x08, exe_jr); (0x09, exe_jalr);
   (0x0c, exe_syscall); (0x10, exe_mfhi); (0x11, exe_mthi); (0x12, exe_mflo);
   (0x13, exe_mtlo); (0x18, exe_mult); (0x21, exe_addu); (0x23, exe_subu);
   (0x24, exe_and); (0x25, exe_or); (0x26, exe_xor); (0x27, exe_nor);
   (0x2a, exe_slt); (0x2b, exe_sltu)].

Definition regimm_arms : list (Z * M t unit) := [(0x00, exe_bltz); (0x01, exe_bgez)].

Definition mfmt_arms : list (Z * M t unit) := [(0x00, exe_mfc0); (0x04, exe_mtc0)].

Definition cop0_arms (s : t) : list (Z * M t unit) :=
  [(0x00, switch (rs s) mfmt_arms reserved_instruction);
   (0x02, exe_tlbwi); (0x18, exe_eret)].

Definition main_arms (s : t) : list (Z * M t unit) :=
  [(0x00, switch (sub_opcode s) special_arms reserved_instruction);
   (0x01, switch (rt s) regimm_arms reserved_instruction);
   (0x02, exe_j); (0x03, exe_jal); (0x04, exe_beq); (0x05, exe_bne);
   (0x06, exe_blez); (0x07, exe_bgtz); (0x09, exe_addiu); (0x0a, exe_slti);
   (0x0b, exe_sltiu); (0x0c, exe_andi); (0x0d, exe_ori); (0x0e, exe_xori);
   (0x0f, exe_lui);
   (0x10, switch (sub_opcode s) (cop0_arms s) reserved_instruction);
   (0x20, exe_lb); (0x23, exe_lw); (0x24, exe_lbu); (0x25, exe_lhu);
   (0x28, exe_sb); (0x2b, exe_sw); (0x2f, exe_cache)].

Definition instruction_decode : M t unit :=
  s ← get; switch (main_opcode s) (main_arms s) reserved_instruction.

(** ** The processor loop *)

(** The clock: runs after an instruction that raised nothing. *)
Definition clock : M t unit :=
  s ← get;
  when (CP0.rd (cp0_ s) CP0.Compare <=? CP0.rd (cp0_ s) CP0.Count)
    (on_cp0 (CP0.wr CP0.Count 0x00);;
     s ← get;
     when (CP0.interrupt_enabled (cp0_ s) && CP0.interrupt_enabled_mask CP0.IP_7 (cp0_ s))
       (on_cp0 (CP0.set_interrupt_code CP0.IP_7);;
        on_cp0 (CP0.set_exception_code CP0.Exc_Int);;
        raise)).

Definition next : M t unit :=
  set_reg REG_ZERO 0x00;;
  on_cp0 (fun c => CP0.wr CP0.Count (u32 (CP0.rd c CP0.Count + 1)) c);;
  s ← get;
  instr ← on_mmu (MMU.read_word (pc_ s));
  modify (set_instr instr);;
  s ← get;
  if exception s then mret tt else
  instruction_decode;;
  s ← get;
  if exception s then mret tt else clock.

(** Entering the exception level. *)
Definition enter_exception : M t unit :=
  s ← get;
  when (negb (CP0.Status_EXL (cp0_ s))) (on_cp0 (CP0.wr CP0.EPC (pc_ s)));;
  modify (set_pc (CP0.rd (cp0_ s) CP0.EBase));;
  on_cp0 CP0.set_Status_EXL.

(** One iteration of [run]'s loop; [exception] starts false. *)
Definition run_once : M t unit :=
  on_mmu (modify (MMU.set_exception false));;
  next;;
  s ← get;
  when (exception s) enter_exception.

Fixpoint run (n : nat) : M t unit :=
  match n with O => mret tt | S n => run_once;; run n end.

End CPU.
