(* ===== verification/CpuSpec.v ===== *)
(** What the emulator's processor promises: every instruction keeps the
    machine well formed, the nested decoder agrees with a flat table of the
    instruction set, the arithmetic follows 32-bit two's complement, and
    exceptions enter and leave the exception level (src/src/cpu.h,
    src/src/cpu.cc, src/src/cpu_instructions.cc). *)

From S2P Require Import Prelude Cp0 Mmu MmuSpec Cpu.

Module CPUSpec.
Import CPU.

(** ** Well-formedness *)

Record wf (s : t) : Prop := {
  wf_regs : length (registers_ s) = 32%nat /\ Forall is_u32 (registers_ s);
  wf_pc : is_u32 (pc_ s);
  wf_instr : is_u32 (instruction_ s);
  wf_hi : is_u32 (hi_ s);
  wf_lo : is_u32 (lo_ s);
  wf_mmu : MMU.wf (mmu_ s)
}.

Lemma set_regs_wf i v s :
  wf s -> is_u32 v -> wf (set_regs (arr_set (registers_ s) i v) s).
Proof.
  intros [[] ] ?. split; try done. simpl. rewrite arr_set_length.
  split; [done|]. by apply arr_set_Forall.
Qed.
Lemma set_pc_wf p s : wf s -> is_u32 p -> wf (set_pc p s).
Proof. intros [] ?. by split. Qed.
Lemma set_instr_wf p s : wf s -> is_u32 p -> wf (set_instr p s).
Proof. intros [] ?. by split. Qed.
Lemma set_hi_wf p s : wf s -> is_u32 p -> wf (set_hi p s).
Proof. intros [] ?. by split. Qed.
Lemma set_lo_wf p s : wf s -> is_u32 p -> wf (set_lo p s).
Proof. intros [] ?. by split. Qed.
Lemma reg_u32 i s : wf s -> is_u32 (reg s i).
Proof. intros [[] ]. unfold reg. apply arr_get_Forall; [done|width]. Qed.
Lemma cp0_wf s : wf s -> CP0.wf (cp0_ s).
Proof. intros []. by apply MMU.wf_cp0. Qed.
Lemma cp0_rd_u32 i s : wf s -> is_u32 (CP0.rd (cp0_ s) i).
Proof. intros. by apply CP0.rd_u32, cp0_wf. Qed.
Lemma unsigned_immediate_range s : is_u32 (unsigned_immediate s).
Proof. unfold unsigned_immediate. width. Qed.

Create HintDb cpu.
#[global] Hint Resolve set_regs_wf set_pc_wf set_instr_wf set_hi_wf set_lo_wf reg_u32
  cp0_wf cp0_rd_u32 unsigned_immediate_range wf_pc wf_instr wf_hi wf_lo wf_mmu : cpu.
#[global] Hint Resolve u32_range is_u32_land is_u32_lor is_u32_lxor : cpu.

Lemma on_mmu_keeps {A} (f : M MMU.t A) Q : keeps MMU.wf f Q -> keeps wf (on_mmu f) Q.
Proof.
  intros Hf s [Hr Hp Hi Hh Hl Hm]. unfold on_mmu. specialize (Hf _ Hm).
  destruct (f (mmu_ s)) as [[a m]| | |]; try done. destruct Hf. split; [|done]. by split.
Qed.

Lemma cpu_cp0_keeps f :
  (forall c, CP0.wf c -> CP0.wf (f c)) -> keeps wf (on_cp0 f) (fun _ => True).
Proof. intros Hf. by apply on_mmu_keeps, MMU.on_cp0_keeps. Qed.

Lemma cpu_raise_keeps : keeps wf raise (fun _ => True).
Proof. apply on_mmu_keeps, MMU.raise_keeps. Qed.

Lemma set_reg_keeps i v : is_u32 v -> keeps wf (set_reg i v) (fun _ => True).
Proof. intros. apply keeps_modify. auto with cpu. Qed.

Lemma advance_keeps : keeps wf advance (fun _ => True).
Proof. apply keeps_modify. auto with cpu. Qed.

Lemma is_u32_bool (b : bool) : is_u32 (if b then 1 else 0).
Proof. destruct b; width. Qed.
#[global] Hint Resolve is_u32_bool : cpu.

(** One step through an instruction. *)
Ltac cpu_keeps :=
  repeat first
    [ apply advance_keeps | apply cpu_raise_keeps
    | apply set_reg_keeps; auto with cpu
    | apply cpu_cp0_keeps; intros; auto using CP0.wr_wf with cpu cp0
    | keeps_step; auto with cpu ].

Lemma shiftr_reg_u32 s i k : wf s -> 0 <= k -> is_u32 (reg s i ≫ k).
Proof. intros. apply is_u32_shiftr; auto with cpu. Qed.

Lemma shift_nonneg s : 0 <= shift s.
Proof. unfold shift. apply Z.land_nonneg. lia. Qed.
#[global] Hint Resolve shiftr_reg_u32 shift_nonneg : cpu.

Lemma reg_nonneg s i : wf s -> 0 <= reg s i.
Proof. intros Hs. by destruct (reg_u32 i s Hs). Qed.
#[global] Hint Resolve reg_nonneg : cpu.

Lemma load_keeps rdop f :
  (forall va, is_u32 va -> keeps MMU.wf (rdop va) (fun v => is_u32 (f v))) ->
  keeps wf (load rdop f) (fun _ => True).
Proof.
  intros Hop. unfold load. keeps_step.
  eapply keeps_bind; [apply on_mmu_keeps, Hop; auto with cpu|]. intros v Hv.
  cpu_keeps.
Qed.

Lemma store_keeps wrop f :
  (forall va v, is_u32 va -> is_u32 v -> keeps MMU.wf (wrop va (f v)) (fun _ => True)) ->
  keeps wf (store wrop f) (fun _ => True).
Proof.
  intros Hop. unfold store. keeps_step.
  eapply keeps_bind; [apply on_mmu_keeps, Hop; auto with cpu|]. intros v Hv.
  cpu_keeps.
Qed.

Lemma set_tlb_wf i a b c m :
  MMU.wf m -> is_u32 a -> is_u32 b -> is_u32 c ->
  MMU.wf (MMU.set_tlb (arr_set (MMU.tlb_key_ m) i a) (arr_set (MMU.tlb_data0 m) i b)
                      (arr_set (MMU.tlb_data1 m) i c) m).
Proof.
  intros [] ???. split; try done; simpl; rewrite arr_set_length;
    (split; [naive_solver|apply arr_set_Forall; naive_solver]).
Qed.

Lemma exe_tlbwi_keeps : keeps wf exe_tlbwi (fun _ => True).
Proof.
  unfold exe_tlbwi. cbv zeta. keeps_step. keeps_step; [apply keeps_defined|].
  keeps_step; [|apply advance_keeps]. apply on_mmu_keeps, keeps_modify. intros.
  apply set_tlb_wf; auto with cpu.
Qed.

Lemma exe_mult_keeps : keeps wf exe_mult (fun _ => True).
Proof. unfold exe_mult. cbv zeta. cpu_keeps. Qed.

Lemma reserved_keeps : keeps wf reserved_instruction (fun _ => True).
Proof. unfold reserved_instruction. cpu_keeps. Qed.

Lemma special_keeps : Forall (fun c => keeps wf c.2 (fun _ => True)) special_arms.
Proof.
  unfold special_arms. repeat apply Forall_cons_2; [..|apply Forall_nil_2]; cbn [snd];
    try apply exe_mult_keeps;
    unfold exe_sll, exe_srl, exe_sra, exe_sllv, exe_srlv, exe_srav, exe_jr, exe_jalr,
      exe_syscall, exe_mfhi, exe_mthi, exe_mflo, exe_mtlo, exe_addu, exe_subu, exe_and,
      exe_or, exe_xor, exe_nor, exe_slt, exe_sltu; cbv zeta; cpu_keeps.
Qed.

Lemma regimm_keeps : Forall (fun c => keeps wf c.2 (fun _ => True)) regimm_arms.
Proof.
  unfold regimm_arms. repeat apply Forall_cons_2; [..|apply Forall_nil_2]; cbn [snd];
    unfold exe_bltz, exe_bgez, branch_if; cpu_keeps.
Qed.

Lemma mfmt_keeps : Forall (fun c => keeps wf c.2 (fun _ => True)) mfmt_arms.
Proof.
  unfold mfmt_arms. repeat apply Forall_cons_2; [..|apply Forall_nil_2]; cbn [snd];
    unfold exe_mfc0, exe_mtc0; cpu_keeps.
Qed.

Lemma cop0_keeps s : Forall (fun c => keeps wf c.2 (fun _ => True)) (cop0_arms s).
Proof.
  unfold cop0_arms. repeat apply Forall_cons_2; [..|apply Forall_nil_2]; cbn [snd].
  - apply switch_forall; [apply mfmt_keeps|apply reserved_keeps].
  - apply exe_tlbwi_keeps.
  - unfold exe_eret. cpu_keeps.
Qed.

Lemma memory_keeps :
  Forall (fun m => keeps wf m (fun _ => True)) [exe_lb; exe_lw; exe_lbu; exe_lhu; exe_sb; exe_sw].
Proof.
  repeat apply Forall_cons_2; [..|apply Forall_nil_2];
    first [apply load_keeps | apply store_keeps]; intros.
  - eapply keeps_mono; [by apply MMU.read_byte_keeps|]. auto with cpu.
  - eapply keeps_mono; [by apply MMU.read_word_keeps|]. auto with cpu.
  - eapply keeps_mono; [by apply MMU.read_byte_keeps|]. intros; width.
  - eapply keeps_mono; [by apply MMU.read_half_word_keeps|]. intros; width.
  - apply MMU.write_byte_keeps; [done|]. change 0xff with (2 ^ 8 - 1).
    rewrite land_low by lia. change (2 ^ 8) with 0x100. width.
  - by apply MMU.write_word_keeps.
Qed.

Lemma main_keeps s : Forall (fun c => keeps wf c.2 (fun _ => True)) (main_arms s).
Proof.
  assert (Hm := memory_keeps). decompose_Forall_hyps.
  unfold main_arms. repeat apply Forall_cons_2; [..|apply Forall_nil_2]; cbn [snd]; try done.
  all: first
    [ apply switch_forall;
        [first [apply special_keeps | apply regimm_keeps | apply cop0_keeps]
        |apply reserved_keeps]
    | unfold exe_j, exe_jal, exe_beq, exe_bne, exe_blez, exe_bgtz, exe_addiu, exe_slti,
        exe_sltiu, exe_andi, exe_ori, exe_xori, exe_lui, exe_cache, branch_if; by cpu_keeps ].
Qed.

Lemma decode_keeps : keeps wf instruction_decode (fun _ => True).
Proof.
  unfold instruction_decode. keeps_step.
  apply switch_forall; [apply main_keeps|apply reserved_keeps].
Qed.

Lemma clock_keeps : keeps wf clock (fun _ => True).
Proof. unfold clock. cpu_keeps. Qed.

Lemma next_keeps : keeps wf next (fun _ => True).
Proof.
  unfold next. keeps_step; [apply set_reg_keeps; width|].
  keeps_step; [apply cpu_cp0_keeps; intros; auto using CP0.wr_wf with cpu cp0|].
  keeps_step. eapply keeps_bind; [apply on_mmu_keeps, MMU.read_word_keeps; auto with cpu|].
  intros i Hi. keeps_step; [keeps_step; auto with cpu|].
  keeps_step. keeps_step; [by keeps_step|].
  keeps_step; [apply decode_keeps|]. keeps_step. keeps_step; [by keeps_step|].
  apply clock_keeps.
Qed.

Lemma run_once_keeps : keeps wf run_once (fun _ => True).
Proof.
  unfold run_once. keeps_step;
    [apply on_mmu_keeps, keeps_modify; auto with mmu|].
  keeps_step; [apply next_keeps|]. keeps_step. unfold enter_exception. cpu_keeps.
Qed.

(** ** The instruction set as a flat table *)

(** An encoding: the mask of the fixed bits, their value, the operation. *)
Definition enc : Type := Z * Z * M t unit.
Definition op_main (o : Z) (e : M t unit) : enc := (0xfc000000, o * 2 ^ 26, e).
Definition op_special (f : Z) (e : M t unit) : enc := (0xfc00003f, f, e).
Definition op_regimm (r : Z) (e : M t unit) : enc := (0xfc1f0000, 2 ^ 26 + r * 2 ^ 16, e).
Definition op_cop0 (f : Z) (e : M t unit) : enc := (0xfc00003f, 0x10 * 2 ^ 26 + f, e).
Definition op_mfmt (r : Z) (e : M t unit) : enc :=
  (0xffe0003f, 0x10 * 2 ^ 26 + r * 2 ^ 21, e).

Definition isa : list enc :=
  [op_special 0x00 exe_sll; op_special 0x02 exe_srl; op_special 0x03 exe_sra;
   op_special 0x04 exe_sllv; op_special 0x06 exe_srlv; op_special 0x07 exe_srav;
   op_special 0x08 exe_jr; op_special 0x09 exe_jalr; op_special 0x0c exe_syscall;
   op_special 0x10 exe_mfhi; op_special 0x11 exe_mthi; op_special 0x12 exe_mflo;
   op_special 0x13 exe_mtlo; op_special 0x18 exe_mult; op_special 0x21 exe_addu;
   op_special 0x23 exe_subu; op_special 0x24 exe_and; op_special 0x25 exe_or;
   op_special 0x26 exe_xor; op_special 0x27 exe_nor; op_special 0x2a exe_slt;
   op_special 0x2b exe_sltu; op_regimm 0 exe_bltz; op_regimm 1 exe_bgez;
   op_main 0x02 exe_j; op_main 0x03 exe_jal; op_main 0x04 exe_beq; op_main 0x05 exe_bne;
   op_main 0x06 exe_blez; op_main 0x07 exe_bgtz; op_main 0x09 exe_addiu;
   op_main 0x0a exe_slti; op_main 0x0b exe_sltiu; op_main 0x0c exe_andi;
   op_main 0x0d exe_ori; op_main 0x0e exe_xori; op_main 0x0f exe_lui;
   op_mfmt 0 exe_mfc0; op_mfmt 4 exe_mtc0; op_cop0 0x02 exe_tlbwi; op_cop0 0x18 exe_eret;
   op_main 0x20 exe_lb; op_main 0x23 exe_lw; op_main 0x24 exe_lbu; op_main 0x25 exe_lhu;
   op_main 0x28 exe_sb; op_main 0x2b exe_sw; op_main 0x2f exe_cache].

Definition matches (i : Z) (x : enc) : Prop := Z.land i x.1.1 = x.1.2.

Section Fields.
  Context (s : t).
  Hypothesis Hi : is_u32 (instruction_ s).

Lemma main_range : 0 <= main_opcode s < 64.
Proof. unfold main_opcode. rewrite Z.shiftr_div_pow2 by lia. change (2 ^ 26) with 67108864. width. Qed.

Lemma field_range k w : 0 <= k -> 0 < w -> 0 <= Z.land (instruction_ s ≫ k) (2 ^ w - 1) < 2 ^ w.
Proof. intros. rewrite land_low by lia. apply Z.mod_pos_bound. lia. Qed.

Lemma sub_range : 0 <= sub_opcode s < 64.
Proof. apply (field_range 0 6); lia. Qed.
Lemma rt_range : 0 <= rt s < 32.
Proof. apply (field_range 16 5); lia. Qed.
Lemma rs_range : 0 <= rs s < 32.
Proof. apply (field_range 21 5); lia. Qed.

Lemma mask_main : Z.land (instruction_ s) 0xfc000000 = main_opcode s * 2 ^ 26.
Proof.
  change 0xfc000000 with (2 ^ 32 - 2 ^ 26). rewrite land_high by (unfold is_u32 in *; lia).
  unfold main_opcode. by rewrite Z.shiftr_div_pow2 by lia.
Qed.

Lemma mask_join a b : Z.land (instruction_ s) (Z.lor a b)
  = Z.lor (Z.land (instruction_ s) a) (Z.land (instruction_ s) b).
Proof. apply Z.land_lor_distr_r. Qed.

Lemma mask_field k w : 0 <= k -> 0 <= w ->
  Z.land (instruction_ s) ((2 ^ w - 1) ≪ k) = Z.land (instruction_ s ≫ k) (2 ^ w - 1) * 2 ^ k.
Proof.
  intros. rewrite <- Z.shiftl_mul_pow2 by lia. apply Z.bits_inj'. intros j Hj.
  rewrite Z.land_spec, !Z.shiftl_spec by lia.
  destruct (Z.lt_ge_cases j k).
  - by rewrite !(Z.testbit_neg_r _ (j - k)), andb_false_r by lia.
  - rewrite Z.land_spec, Z.shiftr_spec by lia. by replace (j - k + k) with j by lia.
Qed.

Lemma mask_special : Z.land (instruction_ s) 0xfc00003f = main_opcode s * 2 ^ 26 + sub_opcode s.
Proof.
  change 0xfc00003f with (Z.lor 0xfc000000 0x3f). rewrite mask_join, mask_main.
  apply lor_add; [lia|]. pose proof sub_range. unfold sub_opcode in *. lia.
Qed.

Lemma mask_regimm :
  Z.land (instruction_ s) 0xfc1f0000 = main_opcode s * 2 ^ 26 + rt s * 2 ^ 16.
Proof.
  change 0xfc1f0000 with (Z.lor 0xfc000000 ((2 ^ 5 - 1) ≪ 16)).
  rewrite mask_join, mask_main, mask_field by lia.
  apply lor_add; [lia|]. pose proof rt_range. unfold rt in *.
  change (2 ^ 5 - 1) with 0x1f. lia.
Qed.

Lemma mask_mfmt :
  Z.land (instruction_ s) 0xffe0003f = main_opcode s * 2 ^ 26 + rs s * 2 ^ 21 + sub_opcode s.
Proof.
  change 0xffe0003f with (Z.lor (Z.lor 0xfc000000 ((2 ^ 5 - 1) ≪ 21)) 0x3f).
  rewrite mask_join, (mask_join 0xfc000000), mask_main, mask_field by lia.
  pose proof rs_range. pose proof sub_range. unfold rs, sub_opcode in *.
  change (2 ^ 5 - 1) with 0x1f. rewrite lor_add by lia.
  replace (main_opcode s * 2 ^ 26 + _) with
    ((main_opcode s * 2 ^ 5 + Z.land (instruction_ s ≫ 21) 0x1f) * 2 ^ 21) by lia.
  apply lor_add; lia.
Qed.

(** A matching entry fixes the opcode fields. *)
Lemma matches_main o e : matches (instruction_ s) (op_main o e) <-> main_opcode s = o.
Proof. unfold matches, op_main. simpl. rewrite mask_main. lia. Qed.
Lemma matches_special f e : 0 <= f < 64 ->
  matches (instruction_ s) (op_special f e) <-> main_opcode s = 0 /\ sub_opcode s = f.
Proof.
  intros. unfold matches, op_special. cbn [fst snd]. rewrite mask_special.
  pose proof sub_range. pose proof main_range. lia.
Qed.
Lemma matches_cop0 f e : 0 <= f < 64 ->
  matches (instruction_ s) (op_cop0 f e) <-> main_opcode s = 0x10 /\ sub_opcode s = f.
Proof.
  intros. unfold matches, op_cop0. cbn [fst snd]. rewrite mask_special.
  pose proof sub_range. pose proof main_range. lia.
Qed.
Lemma matches_regimm r e : 0 <= r < 32 ->
  matches (instruction_ s) (op_regimm r e) <-> main_opcode s = 1 /\ rt s = r.
Proof.
  intros. unfold matches, op_regimm. cbn [fst snd]. rewrite mask_regimm.
  pose proof rt_range. pose proof main_range. lia.
Qed.
Lemma matches_mfmt r e : 0 <= r < 32 ->
  matches (instruction_ s) (op_mfmt r e)
  <-> main_opcode s = 0x10 /\ sub_opcode s = 0 /\ rs s = r.
Proof.
  intros. unfold matches, op_mfmt. cbn [fst snd]. rewrite mask_mfmt.
  pose proof rs_range. pose proof sub_range. pose proof main_range. lia.
Qed.

Ltac decode_eq :=
  unfold instruction_decode, mbind, M_bind, get, main_arms, cop0_arms;
  repeat match goal with H : ?x s = _ |- _ => rewrite H; clear H end;
  reflexivity.

Lemma decode_match : Forall (fun x => matches (instruction_ s) x -> instruction_decode s = x.2 s) isa.
Proof.
  unfold isa. repeat apply Forall_cons_2; [..|apply Forall_nil_2];
    first [ intros ?%matches_main | intros [? ?]%matches_special; [|lia]
          | intros [? ?]%matches_cop0; [|lia] | intros [? ?]%matches_regimm; [|lia]
          | intros (? & ? & ?)%matches_mfmt; [|lia] ]; decode_eq.
Qed.

(** Every remaining arm contradicts one of the mismatches. *)
Ltac refute_arms Hin :=
  rewrite ?elem_of_cons, ?elem_of_nil in Hin;
  repeat destruct Hin as [Hin|Hin]; try done;
  injection Hin as ? ?; exfalso;
  match goal with H : ~ _ |- False => apply H; split_and?; congruence end.

Lemma decode_nomatch :
  Forall (fun x => ~ matches (instruction_ s) x) isa ->
  instruction_decode s = reserved_instruction s.
Proof.
  unfold isa. rewrite !Forall_cons.
  rewrite !matches_main, !matches_special, !matches_cop0, !matches_regimm, !matches_mfmt by lia.
  intros Hn. destruct_and! Hn. unfold instruction_decode, mbind, M_bind, get.
  destruct (switch_inv (main_opcode s) (main_arms s) reserved_instruction)
    as [->|(a & Hin & ->)]; [done|].
  assert (Harm :
    (main_opcode s = 0 /\ a = switch (sub_opcode s) special_arms reserved_instruction) \/
    (main_opcode s = 1 /\ a = switch (rt s) regimm_arms reserved_instruction) \/
    (main_opcode s = 0x10 /\ a = switch (sub_opcode s) (cop0_arms s) reserved_instruction)).
  { unfold main_arms in Hin. rewrite !elem_of_cons, !elem_of_nil in Hin.
    repeat destruct Hin as [Hin|Hin]; try done; injection Hin as ? ?; auto; exfalso;
    match goal with H : ~ _ |- False => apply H; congruence end. }
  clear Hin. destruct Harm as [[Hm ->]|[[Hm ->]|[Hm ->]]].
  - destruct (switch_inv (sub_opcode s) special_arms reserved_instruction)
      as [->|(a & Hin & ->)]; [done|]. unfold special_arms in Hin. refute_arms Hin.
  - destruct (switch_inv (rt s) regimm_arms reserved_instruction)
      as [->|(a & Hin & ->)]; [done|]. unfold regimm_arms in Hin. refute_arms Hin.
  - destruct (switch_inv (sub_opcode s) (cop0_arms s) reserved_instruction)
      as [->|(a & Hin & ->)]; [done|]. unfold cop0_arms in Hin.
    rewrite elem_of_cons in Hin. destruct Hin as [Hin|Hin]; [|refute_arms Hin].
    injection Hin as Hs ->.
    destruct (switch_inv (rs s) mfmt_arms reserved_instruction)
      as [->|(a & Hin & ->)]; [done|]. unfold mfmt_arms in Hin. refute_arms Hin.
Qed.

End Fields.

(** ** Exceptions *)

(** The state after [run_once] has entered the exception level from [s]. *)
Definition entered (s : t) : t :=
  let c := cp0_ s in
  let c' := if CP0.Status_EXL c then c else CP0.wr CP0.EPC (pc_ s) c in
  set_mmu (MMU.set_cp0 (CP0.set_Status_EXL c') (mmu_ s)) (set_pc (CP0.rd c CP0.EBase) s).

Lemma enter_exception_eq s : enter_exception s = Ret (tt, entered s).
Proof.
  unfold enter_exception, entered, mbind, M_bind, get, when. cbv zeta.
  by destruct (CP0.Status_EXL (cp0_ s)).
Qed.

Lemma exe_eret_eq s :
  exe_eret s = Ret (tt, set_mmu (MMU.set_cp0 (CP0.unset_Status_EXL (cp0_ s)) (mmu_ s))
                          (set_pc (CP0.rd (cp0_ s) CP0.EPC) s)).
Proof. done. Qed.

Lemma entered_cp0 s :
  cp0_ (entered s) = CP0.set_Status_EXL
    (if CP0.Status_EXL (cp0_ s) then cp0_ s else CP0.wr CP0.EPC (pc_ s) (cp0_ s)).
Proof. done. Qed.

(** A write to another register leaves the EXL bit alone. *)
Lemma Status_EXL_wr i v c : 0 <= i -> i <> CP0.SR -> CP0.Status_EXL (CP0.wr i v c) = CP0.Status_EXL c.
Proof. intros. unfold CP0.Status_EXL. by rewrite CP0.rd_wr_ne by CP0.reg_lia. Qed.

Lemma set_Status_EXL_rd c i : 0 <= i -> i <> CP0.SR -> CP0.rd (CP0.set_Status_EXL c) i = CP0.rd c i.
Proof. intros. unfold CP0.set_Status_EXL. by rewrite CP0.rd_wr_ne by CP0.reg_lia. Qed.

(** ** The clock *)

Definition interrupts_on (c : CP0.t) : bool :=
  let sr := CP0.rd c CP0.SR in
  Z.testbit sr 0 && negb (Z.testbit sr 1) && negb (Z.testbit sr 2) && Z.testbit sr 15.

Lemma interrupts_on_spec c :
  CP0.interrupt_enabled c && CP0.interrupt_enabled_mask CP0.IP_7 c = interrupts_on c.
Proof.
  unfold CP0.interrupt_enabled, CP0.interrupt_enabled_mask, interrupts_on, CP0.IP_7.
  change (u32 (128 ≪ 8)) with (2 ^ 15). rewrite land_pow2 by lia. cbv zeta.
  set (sr := CP0.rd c CP0.SR). clearbody sr.
  f_equal; [|by destruct (Z.testbit sr 15)].
  assert (H7 : Z.land sr 7 = Z.b2z (Z.testbit sr 0) + 2 * Z.b2z (Z.testbit sr 1)
                             + 4 * Z.b2z (Z.testbit sr 2)).
  { change 7 with (2 ^ 3 - 1). rewrite land_low by lia. rewrite !Z.testbit_spec' by lia.
    change (2 ^ 3) with 8. change (2 ^ 0) with 1. change (2 ^ 1) with 2. change (2 ^ 2) with 4.
    Z.div_mod_to_equations. lia. }
  rewrite H7. by destruct (Z.testbit sr 0), (Z.testbit sr 1), (Z.testbit sr 2).
Qed.

Definition clock_ticked (c : CP0.t) : CP0.t := CP0.wr CP0.Count 0 c.
Definition clock_interrupted (c : CP0.t) : CP0.t :=
  CP0.set_exception_code CP0.Exc_Int (CP0.set_interrupt_code CP0.IP_7 (clock_ticked c)).

Lemma clock_eq s :
  clock s = Ret (tt,
    if CP0.rd (cp0_ s) CP0.Compare <=? CP0.rd (cp0_ s) CP0.Count then
      if interrupts_on (cp0_ s) then
        set_mmu (MMU.set_exception true (MMU.set_cp0 (clock_interrupted (cp0_ s)) (mmu_ s))) s
      else set_mmu (MMU.set_cp0 (clock_ticked (cp0_ s)) (mmu_ s)) s
    else s).
Proof.
  unfold clock, when, mbind, M_bind, get. destruct (_ <=? _); [|done].
  cbn. rewrite interrupts_on_spec.
  replace (interrupts_on _) with (interrupts_on (cp0_ s)).
  - by destruct (interrupts_on (cp0_ s)).
  - unfold interrupts_on. cbn. by rewrite CP0.rd_wr_ne by CP0.reg_lia.
Qed.

Lemma clock_interrupted_cause c :
  CP0.wf c ->
  CP0.ExcCode (clock_interrupted c) = CP0.Exc_Int /\
  Z.testbit (CP0.rd (clock_interrupted c) CP0.Cause) 15 = true /\
  CP0.rd (clock_interrupted c) CP0.Count = 0.
Proof.
  intros Hc. assert (Ht : CP0.wf (clock_ticked c)) by (apply CP0.wr_wf; [done|width]).
  assert (Hs : CP0.wf (CP0.set_interrupt_code CP0.IP_7 (clock_ticked c))) by auto with cp0.
  unfold clock_interrupted. split_and!.
  - apply CP0.ExcCode_set; [done|]. unfold CP0.Exc_Int. lia.
  - rewrite CP0.rd_Cause_set by done. unfold CP0.set_interrupt_code.
    rewrite CP0.rd_wr_eq by (done || CP0.reg_lia).
    by rewrite Z.lor_spec, Z.land_spec, Z.lor_spec, orb_true_r.
  - rewrite CP0.set_exception_code_other by CP0.reg_lia.
    unfold CP0.set_interrupt_code, clock_ticked. by CP0.rd_simpl.
Qed.

(** ** Properties *)

(** Well-formedness is an invariant of the machine: from a well-formed
    state any number of iterations of the processor loop never stops on a
    failed assertion or a non-terminating loop, and every register, TLB word
    and memory byte keeps its width. *)
Theorem run_wf n : keeps wf (run n) (fun _ => True).
Proof.
  induction n as [|n IH]; simpl; [by apply keeps_ret|].
  eapply keeps_bind; [apply run_once_keeps|]. by intros.
Qed.

(** C2: The nested switches of the decoder implement the flat table of 48
    encodings: an instruction whose fixed bits match an entry runs that
    entry's operation, and any other instruction raises Reserved Instruction. *)
Theorem decode_table s :
  wf s ->
  Forall (fun x => matches (instruction_ s) x -> instruction_decode s = x.2 s) isa /\
  (Forall (fun x => ~ matches (instruction_ s) x) isa ->
   instruction_decode s = reserved_instruction s).
Proof.
  intros Hs. split; [apply decode_match|apply decode_nomatch]; auto with cpu.
Qed.

(** Register 0 reads as zero: whatever an instruction left in it, the next
    iteration of the loop behaves the same. *)
Theorem zero_register v s n :
  run (S n) (set_regs (arr_set (registers_ s) REG_ZERO v) s) = run (S n) s.
Proof.
  cbn [run]. unfold run_once, next. unfold mbind, M_bind, on_mmu, modify, set_reg.
  cbn. by rewrite arr_set_set.
Qed.

(** C4: Exception entry and return: when the instruction at the normal level
    raises an exception, the loop saves the pc in EPC, jumps to EBase with EXL
    set, and an ERET from that state resumes at the saved pc with the status
    register and the general registers as they were at the exception. *)
Theorem exception_eret s s1 :
  wf s ->
  next (set_mmu (MMU.set_exception false (mmu_ s)) s) = Ret (tt, s1) ->
  exception s1 = true -> CP0.Status_EXL (cp0_ s1) = false ->
  exists s2 s3, run_once s = Ret (tt, s2) /\
    pc_ s2 = CP0.rd (cp0_ s1) CP0.EBase /\ CP0.rd (cp0_ s2) CP0.EPC = pc_ s1 /\
    CP0.Status_EXL (cp0_ s2) = true /\
    exe_eret s2 = Ret (tt, s3) /\ pc_ s3 = pc_ s1 /\
    CP0.rd (cp0_ s3) CP0.SR = CP0.rd (cp0_ s1) CP0.SR /\ registers_ s3 = registers_ s1.
Proof.
  intros Hs Hn Hex HEXL. assert (Hs1 : wf s1).
  { pose proof (next_keeps (set_mmu (MMU.set_exception false (mmu_ s)) s)) as Hk.
    rewrite Hn in Hk. apply Hk. destruct Hs. split; try done. simpl. auto with mmu. }
  assert (Hc := cp0_wf s1 Hs1). exists (entered s1). eexists. split.
  { unfold run_once, mbind, M_bind, on_mmu, modify. rewrite Hn. unfold get, when.
    rewrite Hex. apply enter_exception_eq. }
  rewrite entered_cp0, HEXL, exe_eret_eq, entered_cp0, HEXL.
  assert (Hw : CP0.wf (CP0.wr CP0.EPC (pc_ s1) (cp0_ s1))) by (apply CP0.wr_wf; auto with cpu).
  split_and!; try reflexivity.
  - rewrite set_Status_EXL_rd by CP0.reg_lia. by CP0.rd_simpl.
  - by apply CP0.Status_EXL_set.
  - cbn. rewrite set_Status_EXL_rd by CP0.reg_lia. by CP0.rd_simpl.
  - cbn. rewrite CP0.unset_set_Status_EXL; [by CP0.rd_simpl|done|].
    rewrite Status_EXL_wr; [done|CP0.reg_lia..].
Qed.

(** The clock: with Count below Compare nothing happens; otherwise Count
    restarts, and an interrupt is raised exactly when IE is set, EXL and ERL
    are clear and the mask bit of interrupt 7 is set, with ExcCode 0 and the
    pending bit recorded in Cause. *)
Theorem clock_spec s :
  wf s -> exception s = false ->
  let c := cp0_ s in
  exists s', clock s = Ret (tt, s') /\
    (CP0.rd c CP0.Count < CP0.rd c CP0.Compare -> s' = s) /\
    (CP0.rd c CP0.Compare <= CP0.rd c CP0.Count ->
     CP0.rd (cp0_ s') CP0.Count = 0 /\ exception s' = interrupts_on c /\
     (interrupts_on c = true -> CP0.ExcCode (cp0_ s') = CP0.Exc_Int /\
        Z.testbit (CP0.rd (cp0_ s') CP0.Cause) 15 = true)).
Proof.
  intros Hs Hex c. rewrite clock_eq. eexists. split; [done|].
  assert (Hc := cp0_wf s Hs). fold c in Hc |- *.
  destruct (Z.leb_spec (CP0.rd c CP0.Compare) (CP0.rd c CP0.Count)); [|split; [done|lia]].
  split; [lia|]. intros _. destruct (clock_interrupted_cause c Hc) as (? & ? & ?).
  destruct (interrupts_on c) eqn:Hi; cbn; [done|]. split_and!; try done.
  unfold clock_ticked. by CP0.rd_simpl.
Qed.

(** MULT leaves in HI:LO the 64-bit product of the two registers read as
    unsigned numbers, whenever that product fits in 63 bits. *)
Theorem mult_unsigned s :
  wf s -> reg s (rs s) * reg s (rt s) < 2 ^ 63 ->
  exists s', exe_mult s = Ret (tt, s') /\
    hi_ s' * 2 ^ 32 + lo_ s' = reg s (rs s) * reg s (rt s) /\
    registers_ s' = registers_ s /\ pc_ s' = u32 (pc_ s + 4).
Proof.
  intros Hs Hp. pose proof (reg_u32 (rs s) s Hs) as Ha. pose proof (reg_u32 (rt s) s Hs) as Hb.
  assert (H64 : forall x, is_u32 x -> s64 x = x) by (intros; width).
  unfold exe_mult, mbind, M_bind, get, modify, defined. cbv zeta. rewrite !H64 by done.
  set (p := reg s (rs s) * reg s (rt s)) in *.
  assert (0 <= p) by (unfold p, is_u32 in *; nia).
  replace ((-0x8000000000000000 <=? p) && _) with true by lia.
  eexists. split; [done|]. cbn. split; [|done]. rewrite Z.shiftr_div_pow2 by lia.
  change (2 ^ 32) with 0x100000000. width.
Qed.

(** ** Witnesses *)

(** A machine that has fetched [instr] with the two operands in $8 and $9. *)
Definition demo_cpu (instr a b : Z) : t :=
  mk (arr_set (arr_set (replicate 32 0) 8 a) 9 b) 0x80001000 instr 0 0
     (MMU.init [] [] (replicate 16 0) (replicate 16 0) (replicate 16 0)).

Lemma demo_cpu_wf i a b : is_u32 i -> is_u32 a -> is_u32 b -> wf (demo_cpu i a b).
Proof.
  intros. split; try done; try width.
  - simpl. split; [done|]. repeat apply arr_set_Forall; try done. repeat constructor; width.
  - split; try done; simpl; repeat (split || constructor); try width.
Qed.

(** [mult $8, $9] and [addu $10, $8, $9]. *)
Definition i_mult : Z := 0x01090018.
Definition i_addu : Z := 0x01095021.

Lemma decode_table_witness :
  instruction_decode (demo_cpu i_addu 1 2) = exe_addu (demo_cpu i_addu 1 2) /\
  instruction_decode (demo_cpu 0xffffffff 1 2) = reserved_instruction (demo_cpu 0xffffffff 1 2).
Proof.
  split.
  - destruct (decode_table (demo_cpu i_addu 1 2)) as [Hm _];
      [apply demo_cpu_wf; unfold i_addu; width|].
    rewrite Forall_lookup in Hm. by apply (Hm 14%nat (op_special 0x21 exe_addu)).
  - apply (decode_table (demo_cpu 0xffffffff 1 2)); [apply demo_cpu_wf; width|].
    unfold isa. repeat constructor; by vm_compute.
Defined.

Lemma clock_spec_witness :
  exists s', clock (demo_cpu 0 0 0) = Ret (tt, s') /\ CP0.rd (cp0_ s') CP0.Count = 0.
Proof.
  destruct (clock_spec (demo_cpu 0 0 0)) as (s' & Hc & _ & Hge);
    [apply demo_cpu_wf; width|done|]. exists s'. split; [done|]. by apply Hge.
Defined.

Lemma mult_unsigned_witness :
  exists s', exe_mult (demo_cpu i_mult 0xffffffff 2) = Ret (tt, s') /\
    hi_ s' * 2 ^ 32 + lo_ s' = 0x1fffffffe.
Proof.
  destruct (mult_unsigned (demo_cpu i_mult 0xffffffff 2)) as (s' & He & Hp & _);
    [apply demo_cpu_wf; unfold i_mult; width|by vm_compute|].
  exists s'. split; [done|]. rewrite Hp. by vm_compute.
Defined.

(** A syscall at 0x80001000, in the emulated RAM. *)
Definition demo_syscall : t :=
  let m := mmu_ (demo_cpu 0 0 0) in
  set_mmu (MMU.set_ram {[ 0x1000 := 0x0c ]} m) (demo_cpu 0 0 0).

Lemma demo_syscall_wf : wf demo_syscall.
Proof.
  destruct (demo_cpu_wf 0 0 0) as [????? []]; try width. split; try done.
  split; try done. simpl. apply map_Forall_singleton. width.
Qed.

Lemma exception_eret_witness :
  exists s2 s3, run_once demo_syscall = Ret (tt, s2) /\ pc_ s2 = 0x80000180 /\
    exe_eret s2 = Ret (tt, s3) /\ pc_ s3 = 0x80001000.
Proof.
  destruct (exception_eret demo_syscall
    (match next demo_syscall with Ret (_, s) => s | _ => demo_syscall end))
    as (s2 & s3 & Hr & Hpc & _ & _ & He & Hp & _);
    [exact demo_syscall_wf | by vm_compute | by vm_compute | by vm_compute |].
  exists s2, s3. split_and!; [done | rewrite Hpc; by vm_compute | done | rewrite Hp; by vm_compute].
Defined.

(** A signed product would be -2 = 0xffffffff_fffffffe. *)
Lemma mult_not_signed :
  exists s', exe_mult (demo_cpu i_mult 0xffffffff 2) = Ret (tt, s') /\
    hi_ s' = 1 /\ lo_ s' = 0xfffffffe /\
    u64 (s32 0xffffffff * s32 2) = 0xfffffffffffffffe.
Proof. eexists. split; [by vm_compute|]. done. Qed.

(** SLTIU compares with the immediate zero extended: 0 is below 0xffffffff but
    the immediate 0xffff (which sign extends to it) is read as 65535. *)
Lemma sltiu_zero_extends :
  exists s', exe_sltiu (demo_cpu 0x2d0affff 0x10000 0) = Ret (tt, s') /\ reg s' 10 = 0.
Proof. eexists. split; [by vm_compute|]. by vm_compute. Qed.

End CPUSpec.
