(* ===== verification/Precise.v ===== *)
(** Precise exceptions of the emulated processor (src/src/cpu.h, cpu.cc,
    cpu_instructions.cc, mmu.h): an iteration of the loop either completes its
    instruction or leaves no trace of it. *)

From S2P Require Import Prelude Cp0 Mmu MmuSpec Cpu CpuSpec.

Module Precise.
Import CPU CPUSpec.

(** ** What an exception may change *)

(** The registers of coprocessor 0 that describe an exception. *)
Definition fault_regs : list Z := [CP0.Cause; CP0.BadVAddr; CP0.EntryHi; CP0.Context].

Definition same_cp0 (c c' : CP0.t) : Prop :=
  forall i, 0 <= i -> i ∉ fault_regs -> CP0.rd c' i = CP0.rd c i.

(** Memory, the TLB and the output of the machine. *)
Record same_store (m m' : MMU.t) : Prop := {
  same_ram : MMU.ram_ m' = MMU.ram_ m;
  same_rom : MMU.rom_ m' = MMU.rom_ m;
  same_flash : MMU.flash_ m' = MMU.flash_ m;
  same_key : MMU.tlb_key_ m' = MMU.tlb_key_ m;
  same_data0 : MMU.tlb_data0 m' = MMU.tlb_data0 m;
  same_data1 : MMU.tlb_data1 m' = MMU.tlb_data1 m;
  same_out : MMU.out m' = MMU.out m
}.

(** The programmer's registers and [same_store]. *)
Record same_machine (s s' : t) : Prop := {
  same_regs : registers_ s' = registers_ s;
  same_hi : hi_ s' = hi_ s;
  same_lo : lo_ s' = lo_ s;
  same_mmu : same_store (mmu_ s) (mmu_ s')
}.

Lemma same_store_refl m : same_store m m.
Proof. by split. Qed.
Lemma same_store_trans m1 m2 m3 : same_store m1 m2 -> same_store m2 m3 -> same_store m1 m3.
Proof. intros [] []. split; congruence. Qed.
Lemma same_machine_trans s1 s2 s3 : same_machine s1 s2 -> same_machine s2 s3 -> same_machine s1 s3.
Proof. intros [] []. split; [congruence..|]. by eapply same_store_trans. Qed.
Lemma same_cp0_refl c : same_cp0 c c.
Proof. by intros i. Qed.
Lemma same_cp0_trans c1 c2 c3 : same_cp0 c1 c2 -> same_cp0 c2 c3 -> same_cp0 c1 c3.
Proof. intros H1 H2 i Hi Hn. by rewrite H2, H1. Qed.

(** ** The MMU *)

(** If [m] raises an exception it has done nothing else. *)
Definition mmu_atomic {A} (m : M MMU.t A) : Prop := forall x a x',
  MMU.exception x = false -> m x = Ret (a, x') -> MMU.exception x' = true ->
  same_store x x' /\ same_cp0 (MMU.cp0_ x) (MMU.cp0_ x').

Lemma same_cp0_wr i v c : 0 <= i -> i ∈ fault_regs -> same_cp0 c (CP0.wr i v c).
Proof. intros Hi Hin j Hj Hn. apply CP0.rd_wr_ne; [done..|]. by intros ->. Qed.

Lemma same_cp0_code e c : same_cp0 c (CP0.set_exception_code e c).
Proof.
  intros i Hi Hn. apply CP0.set_exception_code_other; [done|]. intros ->. destruct Hn. set_solver.
Qed.

Lemma same_cp0_tlb e va c : same_cp0 c (MMU.tlb_exception e va c).
Proof.
  unfold MMU.tlb_exception. cbv zeta.
  repeat (eapply same_cp0_trans; [|apply same_cp0_wr; [CP0.reg_lia|set_solver]]).
  apply same_cp0_refl.
Qed.

Lemma tlb_loop_cases n i va w x :
  (exists pa, MMU.tlb_loop n i va w x = Ret (pa, x)) \/
  exists e, MMU.tlb_loop n i va w x =
    Ret (0, MMU.set_exception true (MMU.set_cp0 (MMU.tlb_exception e va (MMU.cp0_ x)) x)).
Proof.
  revert i. induction n as [|n IH]; intros i; cbn [MMU.tlb_loop].
  { right. eexists. apply MMUSpec.tlb_fail_run. }
  unfold mbind, M_bind, get. destruct (_ =? _); [|apply IH].
  unfold MMU.tlb_hit, mbind, M_bind, get. cbv zeta. destruct (_ =? 0).
  { right. eexists. apply MMUSpec.tlb_fail_run. }
  destruct (_ && _); [right; eexists; apply MMUSpec.tlb_fail_run|left; by eexists].
Qed.

Lemma addr_translate_cases va w x :
  (exists pa, MMU.addr_translate va w x = Ret (pa, x)) \/
  exists e, MMU.addr_translate va w x =
    Ret (0, MMU.set_exception true (MMU.set_cp0 (MMU.tlb_exception e va (MMU.cp0_ x)) x)).
Proof.
  unfold MMU.addr_translate. destruct (_ && _); [left; by eexists|].
  destruct (_ && _); [left; by eexists|apply tlb_loop_cases].
Qed.

(** What comes after a translation that succeeded does not touch the flag. *)
Definition mmu_quiet {A} (m : M MMU.t A) : Prop := forall x a x',
  m x = Ret (a, x') -> MMU.exception x' = MMU.exception x.

Lemma mmu_quiet_ret {A} (a : A) : mmu_quiet (mret a).
Proof. by intros x b x' [= <- <-]. Qed.

Lemma mmu_quiet_bind {A B} (m : M MMU.t A) (f : A -> M MMU.t B) :
  mmu_quiet m -> (forall a, mmu_quiet (f a)) -> mmu_quiet (m ≫= f).
Proof.
  intros Hm Hf x b x'. unfold mbind, M_bind. destruct (m x) as [[a y]| | |] eqn:E; [|done..].
  intros Hy. rewrite (Hf _ _ _ _ Hy). by eapply Hm.
Qed.

Lemma read_physical_quiet a : mmu_quiet (MMU.read_physical a).
Proof.
  intros x v x'. unfold MMU.read_physical, MMU.stream_byte, lift_opt, mbind, M_bind, get.
  repeat match goal with |- context [if ?b then _ else _] => destruct b end;
    repeat match goal with |- context [match ?o with Some _ => _ | None => _ end _] => destruct o end;
    by intros [= <- <-] || done.
Qed.

Lemma write_physical_quiet a v : mmu_quiet (MMU.write_physical a v).
Proof.
  intros x [] x'. unfold MMU.write_physical, when, modify, mbind, M_bind.
  destruct (_ && _), (a =? _); by intros [= <-].
Qed.

Lemma translated_atomic {A} va w (a0 : A) (f : Z -> M MMU.t A) :
  (forall pa, mmu_quiet (f pa)) ->
  mmu_atomic (pa ← MMU.addr_translate va w; ex ← gets MMU.exception; if ex : bool then mret a0 else f pa).
Proof.
  intros Hf x a x' Hx. unfold mbind, M_bind, gets.
  destruct (addr_translate_cases va w x) as [[pa ->]|[e ->]].
  - rewrite Hx. intros Hr He. apply Hf in Hr. congruence.
  - cbn. intros [= <- <-] _. split; [by split|]. apply same_cp0_tlb.
Qed.

Lemma addr_error_atomic {A} e va (a0 : A) : mmu_atomic (MMU.addr_error e va;; mret a0).
Proof.
  intros x a x' Hx [= <- <-] _. split; [by split|]. cbn.
  eapply same_cp0_trans; [apply same_cp0_code|]. apply same_cp0_wr; [CP0.reg_lia|set_solver].
Qed.

Create HintDb precise.
#[local] Hint Resolve mmu_quiet_ret mmu_quiet_bind read_physical_quiet write_physical_quiet : precise.

Lemma read_byte_atomic va : mmu_atomic (MMU.read_byte va).
Proof. apply translated_atomic. auto with precise. Qed.
Lemma read_half_word_atomic va : mmu_atomic (MMU.read_half_word va).
Proof.
  unfold MMU.read_half_word. destruct (negb _); [apply addr_error_atomic|].
  apply translated_atomic. auto 10 with precise.
Qed.
Lemma read_word_atomic va : mmu_atomic (MMU.read_word va).
Proof.
  unfold MMU.read_word. destruct (negb _); [apply addr_error_atomic|].
  apply translated_atomic. auto 12 with precise.
Qed.
Lemma write_byte_atomic va d : mmu_atomic (MMU.write_byte va d).
Proof. apply translated_atomic. auto with precise. Qed.
Lemma write_word_atomic va d : mmu_atomic (MMU.write_word va d).
Proof.
  unfold MMU.write_word. destruct (negb _).
  - intros x [] x' Hx Hr. by apply (addr_error_atomic CP0.Exc_AdES va tt x tt x').
  - apply translated_atomic. auto 12 with precise.
Qed.

(** ** Instructions *)

Definition quiet {A} (m : M t A) : Prop := forall s a s', m s = Ret (a, s') -> exception s' = exception s.

(** An instruction that raises an exception has not moved the pc either. *)
Definition atomic (m : M t unit) : Prop := forall s s',
  exception s = false -> m s = Ret (tt, s') -> exception s' = true ->
  same_machine s s' /\ pc_ s' = pc_ s /\ same_cp0 (cp0_ s) (cp0_ s').

Lemma quiet_atomic m : quiet m -> atomic m.
Proof. intros Hq s s' Hs Hr He. apply Hq in Hr. congruence. Qed.

Lemma quiet_bind {A B} (m : M t A) (f : A -> M t B) : quiet m -> (forall a, quiet (f a)) -> quiet (m ≫= f).
Proof.
  intros Hm Hf s b s'. unfold mbind, M_bind. destruct (m s) as [[a y]| | |] eqn:E; [|done..].
  intros Hy. rewrite (Hf _ _ _ _ Hy). by eapply Hm.
Qed.
Lemma quiet_get : quiet get.
Proof. by intros s a s' [= <- <-]. Qed.
Lemma quiet_defined b : quiet (defined b).
Proof. intros s [] s'. destruct b; [by intros [= <-]|done]. Qed.
Lemma quiet_set_reg i v : quiet (set_reg i v).
Proof. by intros s [] s' [= <-]. Qed.
Lemma quiet_advance : quiet advance.
Proof. by intros s [] s' [= <-]. Qed.
Lemma quiet_modify f : (forall s, mmu_ (f s) = mmu_ s) -> quiet (modify f).
Proof. intros Hf s [] s' [= <-]. unfold exception. by rewrite Hf. Qed.
Lemma quiet_cp0 f : quiet (on_cp0 f).
Proof. by intros s [] s' [= <-]. Qed.
Lemma quiet_when b m : quiet m -> quiet (when b m).
Proof. destruct b; [done|]. by intros _ s [] s' [= <-]. Qed.
Lemma quiet_branch b : quiet (branch_if b).
Proof. apply quiet_bind; [by apply quiet_when, quiet_modify|]. intros _. apply quiet_advance. Qed.
Lemma quiet_tlbwi : quiet exe_tlbwi.
Proof.
  apply quiet_bind; [apply quiet_get|]. intros s. apply quiet_bind; [apply quiet_defined|]. intros _.
  apply quiet_bind; [|intros _; apply quiet_advance]. by intros s1 [] s' [= <-].
Qed.

Ltac quiet :=
  repeat first
    [ apply quiet_branch | apply quiet_bind; [|intros ?] | apply quiet_get | apply quiet_defined | apply quiet_set_reg
    | apply quiet_advance | apply quiet_cp0 | apply quiet_modify; reflexivity ].

Lemma raise_atomic e : atomic (on_cp0 (CP0.set_exception_code e);; raise).
Proof.
  intros s s' Hs [= <-] _. split; [by split|]. split; [done|]. apply same_cp0_code.
Qed.

(** A call of the MMU raises nothing or is the whole effect. *)
Lemma on_mmu_atomic {A} (m : M MMU.t A) s a s' :
  mmu_atomic m -> exception s = false -> on_mmu m s = Ret (a, s') -> exception s' = true ->
  same_machine s s' /\ pc_ s' = pc_ s /\ same_cp0 (cp0_ s) (cp0_ s').
Proof.
  intros Hm Hs. unfold on_mmu. destruct (m (mmu_ s)) as [[b x]| | |] eqn:E; [|done..].
  intros [= <- <-] He. destruct (Hm _ _ _ Hs E He) as [Hst Hc]. by split_and!.
Qed.

Lemma load_atomic rdop f : (forall va, mmu_atomic (rdop va)) -> atomic (load rdop f).
Proof.
  intros Hrd s s' Hs. unfold load, mbind, M_bind, get.
  destruct (on_mmu _ s) as [[v s1]| | |] eqn:E; [|done..]. destruct (exception s1) eqn:He.
  - intros [= <-] _. by eapply on_mmu_atomic.
  - intros Hr Hx. assert (Hq : exception s' = exception s1); [|congruence].
    revert Hr. by intros [= <-].
Qed.

Lemma store_atomic wrop f : (forall va d, mmu_atomic (wrop va d)) -> atomic (store wrop f).
Proof.
  intros Hwr s s' Hs. unfold store, mbind, M_bind, get.
  destruct (on_mmu _ s) as [[v s1]| | |] eqn:E; [|done..]. destruct (exception s1) eqn:He.
  - intros [= <-] _. by eapply on_mmu_atomic.
  - intros Hr Hx. apply quiet_advance in Hr. congruence.
Qed.

Lemma special_atomic : Forall (fun c => atomic c.2) special_arms.
Proof.
  unfold special_arms. repeat (apply Forall_cons; split); [..|done]; cbn [snd];
    first [apply raise_atomic | apply quiet_atomic; quiet].
Qed.
Lemma regimm_atomic : Forall (fun c => atomic c.2) regimm_arms.
Proof. repeat (apply Forall_cons; split); [..|done]; apply quiet_atomic; cbn [snd]; quiet. Qed.
Lemma mfmt_atomic : Forall (fun c => atomic c.2) mfmt_arms.
Proof. repeat (apply Forall_cons; split); [..|done]; apply quiet_atomic; cbn [snd]; quiet. Qed.
Lemma cop0_atomic s : Forall (fun c => atomic c.2) (cop0_arms s).
Proof.
  repeat (apply Forall_cons; split); [..|done]; cbn [snd].
  - apply switch_forall; [apply mfmt_atomic|apply raise_atomic].
  - apply quiet_atomic, quiet_tlbwi.
  - apply quiet_atomic. quiet.
Qed.
Lemma main_atomic s : Forall (fun c => atomic c.2) (main_arms s).
Proof.
  repeat (apply Forall_cons; split); [..|done]; cbn [snd];
    try (apply switch_forall; [auto using special_atomic, regimm_atomic, cop0_atomic|apply raise_atomic]);
    try (apply load_atomic; auto using read_byte_atomic, read_half_word_atomic, read_word_atomic);
    try (apply store_atomic; auto using write_byte_atomic, write_word_atomic);
    apply quiet_atomic; quiet.
Qed.

Lemma decode_atomic : atomic instruction_decode.
Proof.
  intros s. unfold instruction_decode, mbind, M_bind, get.
  apply (switch_forall atomic); [apply main_atomic|apply raise_atomic].
Qed.

(** ** An iteration *)

(** The fetch of the instruction at the pc, with register 0 cleared and the
    counter advanced. *)
Definition fetch : M t unit :=
  on_mmu (modify (MMU.set_exception false));;
  set_reg REG_ZERO 0x00;;
  on_cp0 (fun c => CP0.wr CP0.Count (u32 (CP0.rd c CP0.Count + 1)) c);;
  s ← get;
  instr ← on_mmu (MMU.read_word (pc_ s));
  modify (set_instr instr).

(** The state of [s] in which its instruction is fetched. *)
Definition begun (s : t) : t :=
  set_mmu (MMU.set_cp0 (CP0.wr CP0.Count (u32 (CP0.rd (cp0_ s) CP0.Count + 1)) (cp0_ s))
             (MMU.set_exception false (mmu_ s)))
    (set_regs (arr_set (registers_ s) REG_ZERO 0) s).

Lemma fetch_eq s :
  fetch s = (instr ← on_mmu (MMU.read_word (pc_ s)); modify (set_instr instr)) (begun s).
Proof. done. Qed.

Lemma run_once_eq s :
  run_once s =
  match fetch s with
  | Ret (_, s1) =>
      if exception s1 then Ret (tt, entered s1) else
      match instruction_decode s1 with
      | Ret (_, s2) =>
          if exception s2 then Ret (tt, entered s2) else
          match clock s2 with
          | Ret (_, s3) => if exception s3 then Ret (tt, entered s3) else Ret (tt, s3)
          | Panic => Panic | Fault => Fault | Diverge => Diverge
          end
      | Panic => Panic | Fault => Fault | Diverge => Diverge
      end
  | Panic => Panic | Fault => Fault | Diverge => Diverge
  end.
Proof.
  rewrite fetch_eq. unfold run_once.
  rewrite (bind_Ret _ _ s tt (set_mmu (MMU.set_exception false (mmu_ s)) s)) by done.
  set (s0 := set_mmu _ s). unfold next.
  assert (Hb : forall (m : M t unit) (k : unit -> M t unit), (m ≫= k) s0 =
    match m s0 with Ret (a, x) => k a x | Panic => Panic | Fault => Fault | Diverge => Diverge end) by done.
  rewrite Hb. clear Hb.
  rewrite (bind_Ret _ _ s0 tt (set_regs (arr_set (registers_ s) REG_ZERO 0) s0)) by done.
  rewrite (bind_Ret _ _ _ tt (begun s)) by done. rewrite (bind_Ret _ _ _ (begun s) (begun s)) by done.
  change (pc_ (begun s)) with (pc_ s). unfold mbind at 1 7, M_bind at 1 7.
  destruct (on_mmu (MMU.read_word (pc_ s)) (begun s)) as [[i s1]| | |]; [|done..].
  set (s2 := set_instr i s1).
  rewrite (bind_Ret _ _ s1 tt s2) by done. rewrite (bind_Ret _ _ s2 s2 s2) by done.
  cbn [modify]. fold s2. destruct (exception s2) eqn:E2.
  { unfold mret, M_ret. rewrite (bind_Ret _ _ s2 s2 s2) by done. rewrite E2. apply enter_exception_eq. }
  unfold mbind at 1, M_bind at 1. destruct (instruction_decode s2) as [[[] s3]| | |]; [|done..].
  rewrite (bind_Ret _ _ s3 s3 s3) by done. destruct (exception s3) eqn:E3.
  { unfold mret, M_ret. rewrite (bind_Ret _ _ s3 s3 s3) by done. rewrite E3. apply enter_exception_eq. }
  destruct (clock s3) as [[[] s4]| | |]; [|done..]. rewrite (bind_Ret _ _ s4 s4 s4) by done.
  destruct (exception s4) eqn:E4; [apply enter_exception_eq|done].
Qed.

(** The instruction at the pc of [s] has run to its end, in the state [s2]. *)
Definition completed (s s2 : t) : Prop := exists s1,
  fetch s = Ret (tt, s1) /\ exception s1 = false /\ instruction_decode s1 = Ret (tt, s2) /\ exception s2 = false.

(** [s'] is the first state of the handler of an exception that left the machine
    as in [x], where the handler is to return to [pc]. *)
Record in_handler (x s' : t) (pc : Z) : Prop := {
  ih_machine : same_machine x s';
  ih_pc : pc_ s' = CP0.rd (cp0_ x) CP0.EBase;
  ih_EXL : CP0.Status_EXL (cp0_ s') = true;
  ih_EPC : CP0.rd (cp0_ s') CP0.EPC = pc
}.

(** Where the handler returns to from an exception at [pc]: the register is kept
    when the exception is nested. *)
Definition return_to (c : CP0.t) (pc : Z) : Z := if CP0.Status_EXL c then CP0.rd c CP0.EPC else pc.

Lemma EXL_same c c' : CP0.rd c' CP0.SR = CP0.rd c CP0.SR -> CP0.Status_EXL c' = CP0.Status_EXL c.
Proof. intros E. by rewrite !CP0.Status_EXL_testbit, E. Qed.

Lemma entered_handler x s pc :
  wf s -> same_machine x s -> pc_ s = pc ->
  (forall i, i ∈ [CP0.SR; CP0.EPC; CP0.EBase] -> CP0.rd (cp0_ s) i = CP0.rd (cp0_ x) i) ->
  in_handler x (entered s) (return_to (cp0_ x) pc).
Proof.
  intros Hs Hm <- Hc. assert (Hw := cp0_wf s Hs).
  assert (HE : CP0.Status_EXL (cp0_ s) = CP0.Status_EXL (cp0_ x)) by (apply EXL_same, Hc; set_solver).
  assert (Hw' : CP0.wf (if CP0.Status_EXL (cp0_ s) then cp0_ s else CP0.wr CP0.EPC (pc_ s) (cp0_ s))).
  { destruct (CP0.Status_EXL _); [done|]. apply CP0.wr_wf; auto with cpu. }
  split.
  - destruct Hm as [???[]]. by repeat split.
  - cbn. apply Hc. set_solver.
  - rewrite entered_cp0. by apply CP0.Status_EXL_set.
  - rewrite entered_cp0, set_Status_EXL_rd by CP0.reg_lia. unfold return_to. rewrite <- HE.
    destruct (CP0.Status_EXL (cp0_ s)); [apply Hc; set_solver|]. by CP0.rd_simpl.
Qed.

(** *** Fetch *)

Lemma begun_wf s : wf s -> wf (begun s).
Proof.
  intros Hs. apply set_regs_wf with (i := REG_ZERO) (v := 0) in Hs as [????? Hm]; [|width].
  split; try done. apply MMU.set_cp0_wf; [by apply MMU.set_exception_wf|]. apply CP0.wr_wf; [|width].
  by apply MMU.wf_cp0.
Qed.

Lemma begun_cp0 s i : wf s -> i ∈ [CP0.SR; CP0.EPC; CP0.EBase] -> CP0.rd (cp0_ (begun s)) i = CP0.rd (cp0_ s) i.
Proof. intros Hs Hi. cbn. apply CP0.rd_wr_ne; set_unfold; CP0.reg_lia. Qed.

Lemma fetch_keeps s a s1 : wf s -> fetch s = Ret (a, s1) -> wf s1.
Proof.
  intros Hs. rewrite fetch_eq. unfold mbind, M_bind.
  pose proof (on_mmu_keeps _ _ (MMU.read_word_keeps (pc_ s) (wf_pc s Hs)) (begun s) (begun_wf s Hs)) as Hk.
  destruct (on_mmu _ _) as [[v x]| | |]; [|done..]. destruct Hk. intros [= <- <-]. by apply set_instr_wf.
Qed.

Lemma fetch_fault s s1 : wf s -> fetch s = Ret (tt, s1) -> exception s1 = true ->
  same_machine (begun s) s1 /\ pc_ s1 = pc_ s /\ same_cp0 (cp0_ (begun s)) (cp0_ s1).
Proof.
  intros Hs. rewrite fetch_eq. unfold mbind, M_bind.
  destruct (on_mmu _ _) as [[v x]| | |] eqn:E; [|done..]. intros [= <-] He.
  destruct (on_mmu_atomic _ (begun s) v x (read_word_atomic _) eq_refl E He) as ([] & ? & ?). by split.
Qed.

Lemma read_physical_same a x v x' : MMU.read_physical a x = Ret (v, x') -> x' = x.
Proof.
  unfold MMU.read_physical, MMU.stream_byte, lift_opt, mbind, M_bind, get.
  repeat match goal with |- context [if ?b then _ else _] => destruct b end;
    repeat match goal with |- context [match ?o with Some _ => _ | None => _ end _] => destruct o end;
    by intros [= <- <-] || done.
Qed.

(** A fetch that raises nothing only loads the instruction. *)
Lemma read_word_pure va x v x' :
  MMU.exception x = false -> MMU.read_word va x = Ret (v, x') -> MMU.exception x' = false -> x' = x.
Proof.
  intros Hx. unfold MMU.read_word. destruct (negb _); [by intros [= <- <-]|].
  unfold mbind, M_bind, gets. destruct (addr_translate_cases va false x) as [[pa ->]|[e ->]]; [|by intros [= <- <-]].
  rewrite Hx. intros Hr _.
  repeat match type of Hr with context [MMU.read_physical ?a ?y] =>
    destruct (MMU.read_physical a y) as [[? ?]| | |] eqn:?; [|done..] end.
  injection Hr as <- <-. repeat match goal with E : MMU.read_physical _ _ = _ |- _ => apply read_physical_same in E end. congruence.
Qed.

Lemma fetch_pure s s1 : fetch s = Ret (tt, s1) -> exception s1 = false ->
  exists i, s1 = set_instr i (begun s).
Proof.
  rewrite fetch_eq. unfold mbind, M_bind, on_mmu. destruct (MMU.read_word _ _) as [[v x]| | |] eqn:E; [|done..].
  intros [= <-] He. apply read_word_pure in E; [|done..]. subst. exists v. by destruct (begun s).
Qed.

(** *** The three ends of an iteration *)

Lemma fault_handler s s1 :
  wf s -> wf s1 -> same_machine (begun s) s1 -> pc_ s1 = pc_ s -> same_cp0 (cp0_ (begun s)) (cp0_ s1) ->
  in_handler (set_regs (arr_set (registers_ s) REG_ZERO 0) s) (entered s1) (return_to (cp0_ s) (pc_ s)).
Proof.
  intros Hs Hs1 [???[]] Hpc Hc. apply (entered_handler (set_regs (arr_set (registers_ s) REG_ZERO 0) s)); try done.
  intros i Hi. change (cp0_ (set_regs _ s)) with (cp0_ s). rewrite <- (begun_cp0 s i Hs Hi).
  apply Hc; unfold fault_regs; set_unfold; CP0.reg_lia.
Qed.

Lemma clock_end s2 :
  wf s2 -> exception s2 = false ->
  exists s3, clock s2 = Ret (tt, s3) /\ wf s3 /\
    (exception s3 = false /\ same_machine s2 s3 /\ pc_ s3 = pc_ s2 \/
     exception s3 = true /\ CP0.rd (cp0_ s2) CP0.Compare <= CP0.rd (cp0_ s2) CP0.Count /\
     interrupts_on (cp0_ s2) = true /\ in_handler s2 (entered s3) (pc_ s2) /\
     CP0.ExcCode (cp0_ (entered s3)) = CP0.Exc_Int).
Proof.
  intros Hs He. pose proof (clock_keeps s2 Hs) as Hk. rewrite clock_eq in *. eexists. split; [done|].
  destruct Hk as [Hw _]. split; [done|]. destruct (Z.leb_spec (CP0.rd (cp0_ s2) CP0.Compare) (CP0.rd (cp0_ s2) CP0.Count)).
  2: { left. by repeat split. }
  destruct (interrupts_on (cp0_ s2)) eqn:Hi; [right|left; by repeat split].
  assert (HE : CP0.Status_EXL (cp0_ s2) = false).
  { rewrite CP0.Status_EXL_testbit. unfold interrupts_on in Hi. cbv zeta in Hi. by destruct (Z.testbit _ 1), (Z.testbit _ 0). }
  assert (Hc := cp0_wf s2 Hs). destruct (clock_interrupted_cause (cp0_ s2) Hc) as (Hcode & _ & _).
  set (s3 := set_mmu _ s2) in *.
  assert (Hrd : forall i, i ∈ [CP0.SR; CP0.EPC; CP0.EBase] -> CP0.rd (cp0_ s3) i = CP0.rd (cp0_ s2) i).
  { intros i Hin. change (cp0_ s3) with (clock_interrupted (cp0_ s2)). unfold clock_interrupted, clock_ticked.
    rewrite CP0.set_exception_code_other by (set_unfold; CP0.reg_lia). unfold CP0.set_interrupt_code.
    rewrite !CP0.rd_wr_ne by (set_unfold; CP0.reg_lia). done. }
  split; [done|]. split; [done|]. split; [done|]. split.
  - replace (pc_ s2) with (return_to (cp0_ s2) (pc_ s2)) by (unfold return_to; by rewrite HE).
    by apply entered_handler; [| | |].
  - rewrite entered_cp0. unfold CP0.ExcCode. rewrite set_Status_EXL_rd by CP0.reg_lia.
    destruct (CP0.Status_EXL (cp0_ s3)); [exact Hcode|]. rewrite CP0.rd_wr_ne by CP0.reg_lia. exact Hcode.
Qed.

(** ** What the language leaves undefined *)

(** An image shorter than the addresses it is mapped at: a byte past its end is
    indeterminate. *)
Definition short_images (m : MMU.t) : Prop :=
  Z.of_nat (length (MMU.rom_ m)) < MMU.ROM_SIZE \/ Z.of_nat (length (MMU.flash_ m)) < MMU.FLASH_SIZE.

(** SLLV, SRLV and SRAV by 32 or more, MULT with a product that no [int64_t] can
    hold, and TLBWI with an index outside the TLB. *)
Definition undefined_operands (s : t) : Prop :=
  (main_opcode s = 0 /\ (sub_opcode s = 0x04 \/ sub_opcode s = 0x06 \/ sub_opcode s = 0x07) /\ 32 <= reg s (rs s)) \/
  (main_opcode s = 0 /\ sub_opcode s = 0x18 /\ 0x8000000000000000 <= reg s (rs s) * reg s (rt s)) \/
  (main_opcode s = 0x10 /\ sub_opcode s = 0x02 /\ MMU.k_TLB_ENTRIES <= CP0.rd (cp0_ s) CP0.Index).

Lemma read_physical_fault a x : MMU.read_physical a x = Fault -> short_images x.
Proof.
  unfold MMU.read_physical, MMU.stream_byte, lift_opt, mbind, M_bind, get, short_images.
  destruct ((MMU.RAM_BASE <=? a) && _); [done|]. destruct ((MMU.ROM_BASE <=? a) && _) eqn:E1.
  { destruct (MMU.rom_ x !! _) eqn:El; [done|]. intros _. left. apply lookup_ge_None in El. lia. }
  destruct ((MMU.FLASH_BASE <=? a) && _) eqn:E2.
  { destruct (MMU.flash_ x !! _) eqn:El; [done|]. intros _. right. apply lookup_ge_None in El. lia. }
  by destruct (a =? MMU.SERIAL_STATUS).
Qed.

(** A read of the MMU faults only past the end of an image. *)
Definition reads (m : M MMU.t Z) : Prop := forall x, m x = Fault -> short_images x.

Lemma reads_bind a (k : Z -> M MMU.t Z) : (forall v, reads (k v)) -> reads (v ← MMU.read_physical a; k v).
Proof.
  intros Hk x. unfold mbind, M_bind. destruct (MMU.read_physical a x) as [[v x']| | |] eqn:E; [|done| |done].
  - apply read_physical_same in E as ->. apply Hk.
  - intros _. by eapply read_physical_fault.
Qed.

Lemma reads_translated va (k : Z -> M MMU.t Z) : (forall pa, reads (k pa)) ->
  reads (pa ← MMU.addr_translate va false; ex ← gets MMU.exception; if ex : bool then mret 0 else k pa).
Proof.
  intros Hk x. unfold mbind, M_bind, gets. destruct (addr_translate_cases va false x) as [[pa ->]|[e ->]]; [|done].
  destruct (MMU.exception x); [done|]. apply Hk.
Qed.

Lemma read_byte_reads va : reads (MMU.read_byte va).
Proof. apply reads_translated. intros pa x. apply read_physical_fault. Qed.
Lemma read_half_word_reads va : reads (MMU.read_half_word va).
Proof.
  unfold MMU.read_half_word. destruct (negb _); [done|]. apply reads_translated. intros pa.
  do 2 (apply reads_bind; intros ?). done.
Qed.
Lemma read_word_reads va : reads (MMU.read_word va).
Proof.
  unfold MMU.read_word. destruct (negb _); [done|]. apply reads_translated. intros pa.
  do 4 (apply reads_bind; intros ?). done.
Qed.

Lemma write_returns a v x : exists x', MMU.write_physical a v x = Ret (tt, x').
Proof. unfold MMU.write_physical, when, mbind, M_bind. destruct (_ && _), (_ =? _); by eexists. Qed.

(** A write of the MMU never faults. *)
Lemma write_byte_returns va d x : MMU.write_byte va d x <> Fault.
Proof.
  unfold MMU.write_byte, mbind, M_bind, gets. destruct (addr_translate_cases va true x) as [[pa ->]|[e ->]]; [|done].
  destruct (MMU.exception x); [done|]. by destruct (write_returns pa d x) as [x' ->].
Qed.
Lemma write_word_returns va d x : MMU.write_word va d x <> Fault.
Proof.
  unfold MMU.write_word. destruct (negb _); [done|].
  unfold mbind, M_bind, gets. destruct (addr_translate_cases va true x) as [[pa ->]|[e ->]]; [|done].
  destruct (MMU.exception x); [done|].
  repeat match goal with |- context [MMU.write_physical ?a ?d ?x] => destruct (write_returns a d x) as [? ->] end. done.
Qed.

Lemma load_fault rdop f s : (forall va, reads (rdop va)) -> load rdop f s = Fault -> short_images (mmu_ s).
Proof.
  intros Hrd. unfold load, mbind, M_bind, get, on_mmu. destruct (rdop _ (mmu_ s)) as [[v x]| | |] eqn:E; [|done| |done].
  - by destruct (exception _).
  - intros _. by eapply Hrd.
Qed.
Lemma store_fault wrop f s : (forall va d x, wrop va d x <> Fault) -> store wrop f s <> Fault.
Proof.
  intros Hwr. unfold store, mbind, M_bind, get, on_mmu. destruct (wrop _ _ (mmu_ s)) as [[v x]| | |] eqn:E; [|done| |done].
  - by destruct (exception _).
  - by destruct (Hwr _ _ _ E).
Qed.

Lemma branch_returns b s : branch_if b s <> Fault.
Proof. by destruct b. Qed.
Lemma defined_fault {A} b (k : unit -> M t A) s : (defined b ≫= k) s = Fault -> b = false \/ k tt s = Fault.
Proof. destruct b; [by right|by left]. Qed.

(** An instruction faults only for one of those reasons. *)
Lemma isa_fault s : wf s -> Forall (fun x => matches (instruction_ s) x -> x.2 s = Fault ->
  short_images (mmu_ s) \/ undefined_operands s) isa.
Proof.
  intros Hs. assert (Hi := wf_instr s Hs). assert (Hrs := reg_u32 (rs s) s Hs). assert (Hrt := reg_u32 (rt s) s Hs).
  unfold isa. repeat apply Forall_cons_2; [..|apply Forall_nil_2]; cbn [snd op_special op_main op_regimm op_cop0 op_mfmt];
    try (intros _ Hf; discriminate Hf); try (intros _ Hf; exfalso; exact (branch_returns _ _ Hf));
    try (intros _ Hf; left; eapply load_fault; [|exact Hf]; auto using read_byte_reads, read_half_word_reads, read_word_reads; fail);
    try (intros _ Hf; exfalso; eapply store_fault; [|exact Hf]; auto using write_byte_returns, write_word_returns; fail).
  1-3: intros Hm Hf; apply matches_special in Hm as [H0 Hf']; [|done..]; right; left; apply defined_fault in Hf as [Hf|Hf]; [|done];
    split; [done|]; split; [tauto|lia].
  - intros Hm Hf. apply matches_special in Hm as [H0 Hf']; [|done..]. right; right; left.
    unfold exe_mult in Hf. rewrite (bind_Ret _ _ s s s) in Hf by done. cbv zeta in Hf.
    apply defined_fault in Hf as [Hf|Hf]; [|done]. unfold is_u32 in Hrs, Hrt.
    assert (Hid : forall x, 0 <= x < 2 ^ 32 -> s64 x = x) by (intros x Hx; width).
    rewrite !Hid in Hf by lia. split; [done|]. split; [done|]. nia.
  - intros Hm Hf. apply matches_cop0 in Hm as [H0 Hf']; [|done..]. right; right; right.
    unfold exe_tlbwi in Hf. rewrite (bind_Ret _ _ s s s) in Hf by done. cbv zeta in Hf.
    apply defined_fault in Hf as [Hf|Hf]; [|done]. split; [done|]. split; [done|]. lia.
Qed.

Lemma decode_fault s : wf s -> instruction_decode s = Fault -> short_images (mmu_ s) \/ undefined_operands s.
Proof.
  intros Hs Hf. assert (Hi := wf_instr s Hs).
  assert (Hdec : forall x : enc, Decision (matches (instruction_ s) x)) by (intros x; unfold matches; apply _).
  destruct (decide (Exists (fun x => matches (instruction_ s) x) isa)) as [(x & Hx & Hm)%Exists_exists|Hno].
  - assert (Hd := decode_match s Hi). assert (Hb := isa_fault s Hs). rewrite Forall_forall in Hd, Hb.
    apply (Hb x Hx Hm). by rewrite <- (Hd x Hx Hm).
  - rewrite decode_nomatch in Hf; [done|done|]. apply Forall_forall. intros x Hx Hm. apply Hno, Exists_exists. eauto.
Qed.

Lemma fetch_undefined s : fetch s = Fault -> short_images (mmu_ s).
Proof.
  rewrite fetch_eq. unfold mbind, M_bind, on_mmu. destruct (MMU.read_word _ _) as [[v x]| | |] eqn:E; [done..| |done].
  intros _. by apply read_word_reads in E.
Qed.

(** ** Properties *)


(** ** Examples *)


End Precise.
