(* ===== verification/Bytes.v ===== *)
(** Objects as bytes: integers in little-endian order, arrays of words, and
    parts of a buffer. *)

From S2P Require Import Prelude.

Fixpoint le_bytes (n : nat) (v : Z) : list Z :=
  match n with O => [] | S n => v `mod` 256 :: le_bytes n (v `div` 256) end.
Fixpoint le_val (l : list Z) : Z :=
  match l with [] => 0 | b :: l => b + 256 * le_val l end.

(** The [n] bytes of [l] from the offset [off] on, and [l] with [d] in place
    of the bytes there. *)
Definition slice (off n : nat) (l : list Z) : list Z := take n (drop off l).
Definition splice (off : nat) (d l : list Z) : list Z := take off l ++ d ++ drop (off + length d) l.

Definition words_bytes (ws : list Z) : list Z := flat_map (le_bytes 4) ws.
Fixpoint words_of (n : nat) (l : list Z) : list Z :=
  match n with O => [] | S n => le_val (take 4 l) :: words_of n (drop 4 l) end.

(** ** Integers *)

Lemma length_le_bytes n v : length (le_bytes n v) = n.
Proof. revert v. induction n; intros v; simpl; auto. Qed.

Lemma le_val_bytes n v : 0 <= v < 256 ^ Z.of_nat n -> le_val (le_bytes n v) = v.
Proof.
  revert v. induction n as [|n IH]; intros v Hv; cbn [le_bytes le_val]; [change (256 ^ Z.of_nat 0) with 1 in Hv; lia|].
  rewrite Nat2Z.inj_succ, Z.pow_succ_r in Hv by lia. rewrite IH; [width|]. split; [width|].
  apply Z.div_lt_upper_bound; lia.
Qed.

Lemma le_val_u32 v : is_u32 v -> le_val (le_bytes 4 v) = v.
Proof. intros Hv. apply le_val_bytes. exact Hv. Qed.

Lemma le_bytes_u8 n v : Forall is_u8 (le_bytes n v).
Proof. revert v. induction n as [|n IH]; intros v; simpl; constructor; [width|done]. Qed.

Lemma le_val_range l : Forall is_u8 l -> 0 <= le_val l < 256 ^ Z.of_nat (length l).
Proof.
  induction 1 as [|b l Hb _ IH]; cbn [le_val length]; [done|].
  rewrite Nat2Z.inj_succ, Z.pow_succ_r by lia. unfold is_u8 in Hb. lia.
Qed.

Lemma le_bytes_val l : Forall is_u8 l -> le_bytes (length l) (le_val l) = l.
Proof.
  induction 1 as [|b l Hb Hl IH]; cbn [le_val length le_bytes]; [done|].
  assert (He : (b + 256 * le_val l) `mod` 256 = b /\ (b + 256 * le_val l) `div` 256 = le_val l) by width.
  destruct He as [-> ->]. by rewrite IH.
Qed.

Lemma le_val_zero n : le_val (replicate n 0) = 0.
Proof. induction n as [|n IH]; simpl; [done|]. rewrite IH. lia. Qed.

(** ** Parts of a buffer *)

Lemma lookup_slice off n l i :
  slice off n l !! i = if decide (i < n)%nat then l !! (off + i)%nat else None.
Proof.
  unfold slice. case_decide.
  - rewrite lookup_take_lt by lia. apply lookup_drop.
  - by rewrite lookup_take_ge by lia.
Qed.

Lemma length_slice off n l : (off + n <= length l)%nat -> length (slice off n l) = n.
Proof. intros Hl. unfold slice. rewrite length_take, length_drop. lia. Qed.

Lemma lookup_splice off d l i :
  (off + length d <= length l)%nat ->
  splice off d l !! i =
    if decide (i < off)%nat then l !! i
    else if decide (i < off + length d)%nat then d !! (i - off)%nat else l !! i.
Proof.
  intros Hl. unfold splice. assert (Ht : length (take off l) = off) by (rewrite length_take; lia). case_decide.
  - rewrite lookup_app_l by lia. by apply lookup_take_lt.
  - rewrite lookup_app_r by lia. rewrite Ht. case_decide.
    + apply lookup_app_l. lia.
    + rewrite lookup_app_r, lookup_drop by lia. f_equal. lia.
Qed.

Lemma length_splice off d l : (off + length d <= length l)%nat -> length (splice off d l) = length l.
Proof. intros Hl. unfold splice. rewrite !length_app, length_take, length_drop. lia. Qed.

Lemma slice_splice off d l n :
  (off + length d <= length l)%nat -> n = length d -> slice off n (splice off d l) = d.
Proof.
  intros Hl ->. apply list_eq. intros i. rewrite lookup_slice. case_decide.
  - rewrite lookup_splice by done. rewrite decide_False, decide_True by lia. f_equal. lia.
  - symmetry. apply lookup_ge_None. lia.
Qed.

Lemma slice_splice_ne off d l off' n :
  (off + length d <= length l)%nat -> (off' + n <= off \/ off + length d <= off')%nat ->
  slice off' n (splice off d l) = slice off' n l.
Proof.
  intros Hl Hd. apply list_eq. intros i. rewrite !lookup_slice. case_decide; [|done].
  rewrite lookup_splice by done. destruct (decide (off' + i < off)%nat); [done|]. by rewrite decide_False by lia.
Qed.

Lemma splice_full d l : length d = length l -> splice 0 d l = d.
Proof. intros Hl. unfold splice. simpl. rewrite drop_ge by lia. apply app_nil_r. Qed.

Lemma splice_Forall (P : Z -> Prop) off d l : Forall P l -> Forall P d -> Forall P (splice off d l).
Proof. intros Hl Hd. unfold splice. rewrite !Forall_app. auto using Forall_take, Forall_drop. Qed.

Lemma slice_Forall (P : Z -> Prop) off n l : Forall P l -> Forall P (slice off n l).
Proof. intros Hl. unfold slice. auto using Forall_take, Forall_drop. Qed.

Lemma slice_replicate off n k x : (off + n <= k)%nat -> slice off n (replicate k x) = replicate n x.
Proof.
  intros Hk. unfold slice. rewrite drop_replicate, take_replicate. f_equal. lia.
Qed.

Lemma slice_slice o1 n1 o2 n2 l : (o1 + n1 <= n2)%nat -> slice o1 n1 (slice o2 n2 l) = slice (o2 + o1) n1 l.
Proof.
  intros Hn. apply list_eq. intros i. rewrite !lookup_slice. case_decide; [|done].
  rewrite decide_True by lia. f_equal. lia.
Qed.

(** Replacing a part of a part. *)
Lemma splice_nested p off n d l :
  (p + n <= length l)%nat -> (off + length d <= n)%nat ->
  splice p (splice off d (slice p n l)) l = splice (p + off) d l.
Proof.
  intros Hl Hd. assert (Hs : length (slice p n l) = n) by (by apply length_slice).
  assert (Hls : length (splice off d (slice p n l)) = n) by (rewrite length_splice; lia).
  apply list_eq. intros i. rewrite !lookup_splice by lia. rewrite Hls.
  repeat case_decide; try lia; try done; try (f_equal; lia);
    rewrite lookup_slice, decide_True by lia; f_equal; lia.
Qed.

(** Two parts that follow each other. *)
Lemma splice_splice p d1 d2 l :
  (p + length d1 + length d2 <= length l)%nat ->
  splice (p + length d1) d2 (splice p d1 l) = splice p (d1 ++ d2) l.
Proof.
  intros Hl. assert (Hs : length (splice p d1 l) = length l) by (apply length_splice; lia).
  apply list_eq. intros i. rewrite !lookup_splice by (rewrite ?Hs, ?length_app; lia). rewrite length_app.
  repeat case_decide; try lia; try done.
  - rewrite lookup_app_l by lia. done.
  - rewrite lookup_app_r by lia. f_equal. lia.
Qed.

Lemma splice_app p d l k : (p + length d <= length l)%nat -> splice p d (l ++ k) = splice p d l ++ k.
Proof.
  intros Hl. unfold splice. rewrite take_app_le, drop_app_le by lia. by rewrite <- !app_assoc.
Qed.

Lemma splice_nil p l : splice p [] l = l.
Proof. unfold splice. simpl. rewrite Nat.add_0_r. apply take_drop. Qed.

(** ** Words *)

Lemma length_words_bytes ws : length (words_bytes ws) = (4 * length ws)%nat.
Proof.
  unfold words_bytes. induction ws as [|w ws IH]; cbn [flat_map length]; [done|].
  rewrite length_app, length_le_bytes, IH. lia.
Qed.

Lemma words_bytes_u8 ws : Forall is_u8 (words_bytes ws).
Proof.
  unfold words_bytes. induction ws as [|w ws IH]; cbn [flat_map]; [done|].
  apply Forall_app. split; [apply le_bytes_u8|done].
Qed.

Lemma words_of_bytes ws : Forall is_u32 ws -> words_of (length ws) (words_bytes ws) = ws.
Proof.
  unfold words_bytes. induction 1 as [|w ws Hw _ IH]; cbn [length words_of flat_map]; [done|].
  rewrite take_app_length', drop_app_length' by (symmetry; apply length_le_bytes). by rewrite le_val_u32, IH.
Qed.

Lemma words_bytes_of n l : Forall is_u8 l -> length l = (4 * n)%nat -> words_bytes (words_of n l) = l.
Proof.
  revert l. induction n as [|n IH]; intros l Hu Hl; unfold words_bytes; cbn [words_of flat_map].
  { destruct l; [done|simpl in Hl; lia]. }
  fold (words_bytes (words_of n (drop 4 l))). rewrite IH; [|by apply Forall_drop|rewrite length_drop; lia].
  assert (H4 : le_bytes 4 (le_val (take 4 l)) = take 4 l).
  { rewrite <- (le_bytes_val (take 4 l)) at 2 by (by apply Forall_take). f_equal. rewrite length_take. lia. }
  rewrite H4. apply take_drop.
Qed.

Lemma words_of_u32 n l : Forall is_u8 l -> (4 * n <= length l)%nat -> Forall is_u32 (words_of n l).
Proof.
  revert l. induction n as [|n IH]; intros l Hu Hl; cbn [words_of]; constructor.
  - assert (Hr := le_val_range (take 4 l) (Forall_take _ _ _ Hu)). rewrite length_take in Hr.
    replace (4 `min` length l)%nat with 4%nat in Hr by lia. exact Hr.
  - apply IH; [by apply Forall_drop|rewrite length_drop; lia].
Qed.

Lemma length_words_of n l : length (words_of n l) = n.
Proof. revert l. induction n as [|n IH]; intros l; simpl; [done|]. by rewrite IH. Qed.
