(* ===== verification/Mem.v ===== *)
(** Byte-addressed memory of the kernel's C code: the object representation
    that the string, formatting and I/O-buffer code works on.  Pointers are
    addresses in [Z]; an access to a byte that is not part of an allocated
    object is undefined ([Fault]). *)

From S2P Require Import Prelude Bytes.

Abbreviation mem := (gmap Z Z).

Definition load (a : Z) : M mem Z := fun m =>
  match m !! a with Some b => Ret (b, m) | None => Fault end.
Definition store (a v : Z) : M mem unit := fun m =>
  match m !! a with Some _ => Ret (tt, <[a := u8 v]> m) | None => Fault end.

(** The value of a plain [char], signed on this target. *)
Definition load_char (a : Z) : M mem Z := b ← load a; mret (s8 b).

(** An object of [n] bytes; an integer of [n] bytes. *)
Fixpoint load_bytes (n : nat) (a : Z) : M mem (list Z) :=
  match n with O => mret [] | S n => b ← load a; l ← load_bytes n (a + 1); mret (b :: l) end.
Definition load_le (n : nat) (a : Z) : M mem Z := b ← load_bytes n a; mret (le_val b).

(** The bytes [l] are stored from address [a] on. *)
Fixpoint bytes (m : mem) (a : Z) (l : list Z) : Prop :=
  match l with
  | [] => True
  | b :: l => m !! a = Some b /\ bytes m (a + 1) l
  end.

(** [n] bytes are allocated from [a] on. *)
Definition allocated (m : mem) (a : Z) (n : nat) : Prop :=
  forall i, a <= i < a + Z.of_nat n -> is_Some (m !! i).

(** A NUL-terminated string. *)
Definition cstr (m : mem) (a : Z) (l : list Z) : Prop :=
  bytes m a (l ++ [0]) /\ Forall (fun b => 0 < b < 256) l.

Fixpoint write_bytes (m : mem) (a : Z) (l : list Z) : mem :=
  match l with
  | [] => m
  | b :: l => write_bytes (<[a := b]> m) (a + 1) l
  end.

(** ** Facts *)

Lemma load_eq m a b : m !! a = Some b -> load a m = Ret (b, m).
Proof. unfold load. by intros ->. Qed.

Lemma store_eq m a v : is_Some (m !! a) -> store a v m = Ret (tt, <[a := u8 v]> m).
Proof. unfold store. by intros [? ->]. Qed.

Lemma load_bytes_eq m a l : bytes m a l -> load_bytes (length l) a m = Ret (l, m).
Proof.
  revert a. induction l as [|b l IH]; intros a; [done|]. intros [Hb Hl]. cbn [length load_bytes].
  rewrite (bind_Ret _ _ _ _ _ (load_eq m a b Hb)). by rewrite (bind_Ret _ _ _ _ _ (IH _ Hl)).
Qed.

Lemma bytes_app m a l1 l2 :
  bytes m a (l1 ++ l2) <-> bytes m a l1 /\ bytes m (a + Z.of_nat (length l1)) l2.
Proof.
  revert a. induction l1 as [|b l1 IH]; intros a; simpl.
  - rewrite Z.add_0_r. naive_solver.
  - rewrite IH. replace (a + 1 + Z.of_nat (length l1)) with (a + Z.of_nat (S (length l1))) by lia.
    naive_solver.
Qed.

Lemma bytes_lookup m a l :
  bytes m a l <-> forall i b, l !! i = Some b -> m !! (a + Z.of_nat i) = Some b.
Proof.
  revert a. induction l as [|b l IH]; intros a; simpl; [naive_solver|].
  rewrite IH. split.
  - intros [Hb Hl] [|i] c Hc; simpl in Hc; simplify_eq; [by rewrite Z.add_0_r|].
    specialize (Hl i c Hc). by replace (a + Z.of_nat (S i)) with (a + 1 + Z.of_nat i) by lia.
  - intros Hl. split; [by rewrite <- (Hl 0%nat b), Z.add_0_r|].
    intros i c Hc. replace (a + 1 + Z.of_nat i) with (a + Z.of_nat (S i)) by lia. by apply Hl.
Qed.

Lemma bytes_slice m a l off n : bytes m a l -> bytes m (a + Z.of_nat off) (slice off n l).
Proof.
  rewrite !bytes_lookup. intros Hm j b Hb. rewrite lookup_slice in Hb. case_decide; [|done].
  rewrite <- (Hm _ _ Hb). f_equal. lia.
Qed.

Lemma bytes_allocated m a l : bytes m a l -> allocated m a (length l).
Proof.
  rewrite bytes_lookup. intros Hl i Hi.
  destruct (l !! Z.to_nat (i - a)) as [b|] eqn:E.
  - exists b. apply Hl in E. by replace (a + Z.of_nat (Z.to_nat (i - a))) with i in E by lia.
  - apply lookup_ge_None in E. lia.
Qed.

Lemma allocated_S m a n :
  allocated m a (S n) <-> is_Some (m !! a) /\ allocated m (a + 1) n.
Proof.
  split.
  - intros H. split; [apply H; lia|]. intros i Hi. apply H. lia.
  - intros [H0 H] i Hi. destruct (decide (i = a)) as [->|]; [done|]. apply H. lia.
Qed.

Lemma allocated_mono m a n k : (k <= n)%nat -> allocated m a n -> allocated m a k.
Proof. intros Hk H i Hi. apply H. lia. Qed.

Lemma allocated_size m a n : allocated m a n -> (n <= size m)%nat.
Proof.
  revert m a. induction n as [|n IH]; intros m a H; [lia|].
  apply allocated_S in H as [[b Hb] H].
  assert (n <= size (delete a m))%nat.
  { apply (IH _ (a + 1)). intros i Hi. rewrite lookup_delete_ne by lia. by apply H. }
  rewrite map_size_delete_Some in * by eauto. 
  assert (size m <> 0)%nat.
  { intros Hs%map_size_empty_iff. subst. by rewrite lookup_empty in Hb. }
  lia.
Qed.

Lemma bytes_size m a l : bytes m a l -> (length l <= size m)%nat.
Proof. intros ?%bytes_allocated. by eapply allocated_size. Qed.

(** *** Writing a block of bytes *)

Lemma write_bytes_out m a l i :
  i < a \/ a + Z.of_nat (length l) <= i -> write_bytes m a l !! i = m !! i.
Proof.
  revert m a. induction l as [|b l IH]; intros m a Hi; simpl in *; [done|].
  rewrite IH by lia. rewrite lookup_insert_ne; [done|lia].
Qed.

Lemma write_bytes_insert m a l i b :
  i < a \/ a + Z.of_nat (length l) <= i ->
  write_bytes (<[i := b]> m) a l = <[i := b]> (write_bytes m a l).
Proof.
  revert m a. induction l as [|c l IH]; intros m a Hi; simpl in *; [done|].
  rewrite insert_insert_ne by lia. apply IH. lia.
Qed.

Lemma write_bytes_app m a l1 l2 :
  write_bytes m a (l1 ++ l2) = write_bytes (write_bytes m a l1) (a + Z.of_nat (length l1)) l2.
Proof.
  revert m a. induction l1 as [|c l IH]; intros m a; simpl; [by rewrite Z.add_0_r|].
  rewrite IH. f_equal. lia.
Qed.

Lemma bytes_write m a l : bytes (write_bytes m a l) a l.
Proof.
  revert m a. induction l as [|b l IH]; intros m a; simpl; [done|]. split; [|apply IH].
  rewrite write_bytes_out by lia. apply lookup_insert_eq.
Qed.

Definition disjoint (a : Z) (n : nat) (b : Z) (k : nat) : Prop :=
  a + Z.of_nat n <= b \/ b + Z.of_nat k <= a.

Lemma bytes_write_disjoint m a l b k :
  disjoint b (length k) a (length l) -> bytes m b k -> bytes (write_bytes m a l) b k.
Proof.
  unfold disjoint. rewrite !bytes_lookup. intros Hd Hk i c Hc.
  rewrite write_bytes_out; [by apply Hk|].
  apply lookup_lt_Some in Hc. lia.
Qed.

Lemma allocated_write m a l b n : allocated m b n -> allocated (write_bytes m a l) b n.
Proof.
  intros H. revert m a H. induction l as [|c l IH]; intros m a H; simpl; [done|].
  apply IH. intros i Hi. destruct (decide (i = a)) as [->|].
  - rewrite lookup_insert_eq. by eexists.
  - rewrite lookup_insert_ne by done. by apply H.
Qed.

(** The bytes of a string. *)
Lemma cstr_nil m a : cstr m a [] <-> m !! a = Some 0.
Proof. unfold cstr. simpl. naive_solver. Qed.

Lemma cstr_cons m a b l :
  cstr m a (b :: l) <-> m !! a = Some b /\ 0 < b < 256 /\ cstr m (a + 1) l.
Proof. unfold cstr. simpl. rewrite Forall_cons. naive_solver. Qed.

Lemma cstr_size m a l : cstr m a l -> (length l < size m)%nat.
Proof. intros [H%bytes_size _]. rewrite length_app in H. simpl in H. lia. Qed.
