(* ===== verification/Strings.v ===== *)
(** The C string library of the kernel and the user programs,
    src/ucore_OS/libs/string.c: every loop with the reads and writes of the
    source, on the byte memory of [Mem].  A loop that runs to a NUL visits each
    address once, so the size of the memory bounds its iterations. *)

From S2P Require Import Prelude Mem.

Module Strings.

Fixpoint strlen_loop (fuel : nat) (s cnt : Z) : M mem Z :=
  match fuel with
  | O => diverge
  | S fuel =>
      c ← load s;
      if negb (c =? 0) then strlen_loop fuel (s + 1) (u32 (cnt + 1)) else mret cnt
  end.
Definition strlen (s : Z) : M mem Z := m ← get; strlen_loop (S (size m)) s 0.

(** [cnt < len] is [k] iterations left. *)
Fixpoint strnlen_loop (k : nat) (s cnt : Z) : M mem Z :=
  match k with
  | O => mret cnt
  | S k =>
      c ← load s;
      if negb (c =? 0) then strnlen_loop k (s + 1) (u32 (cnt + 1)) else mret cnt
  end.
Definition strnlen (s len : Z) : M mem Z := strnlen_loop (Z.to_nat len) s 0.

Fixpoint strcpy_loop (fuel : nat) (p src : Z) : M mem unit :=
  match fuel with
  | O => diverge
  | S fuel =>
      c ← load src;
      store p c;;
      if negb (c =? 0) then strcpy_loop fuel (p + 1) (src + 1) else mret tt
  end.
Definition strcpy (dst src : Z) : M mem Z :=
  m ← get; strcpy_loop (S (size m)) dst src;; mret dst.

Definition strcat (dst src : Z) : M mem Z :=
  n ← strlen dst; strcpy (dst + n) src.

Fixpoint strncpy_loop (len : nat) (p src : Z) : M mem unit :=
  match len with
  | O => mret tt
  | S len =>
      c ← load src;
      store p c;;
      strncpy_loop len (p + 1) (if negb (c =? 0) then src + 1 else src)
  end.
Definition strncpy (dst src len : Z) : M mem Z :=
  strncpy_loop (Z.to_nat len) dst src;; mret dst.

Fixpoint strcmp_loop (fuel : nat) (s1 s2 : Z) : M mem Z :=
  match fuel with
  | O => diverge
  | S fuel =>
      a ← load s1;
      if negb (a =? 0) then
        b ← load s2;
        if a =? b then strcmp_loop fuel (s1 + 1) (s2 + 1) else mret (a - b)
      else b ← load s2; mret (a - b)
  end.
Definition strcmp (s1 s2 : Z) : M mem Z := m ← get; strcmp_loop (S (size m)) s1 s2.

Fixpoint strncmp_loop (n : nat) (s1 s2 : Z) : M mem Z :=
  match n with
  | O => mret 0
  | S n =>
      a ← load s1;
      if negb (a =? 0) then
        b ← load s2;
        if a =? b then strncmp_loop n (s1 + 1) (s2 + 1) else mret (a - b)
      else b ← load s2; mret (a - b)
  end.
Definition strncmp (s1 s2 n : Z) : M mem Z := strncmp_loop (Z.to_nat n) s1 s2.

(** [NULL] is [None]. *)
Fixpoint strchr_loop (fuel : nat) (s c : Z) : M mem (option Z) :=
  match fuel with
  | O => diverge
  | S fuel =>
      b ← load s;
      if negb (b =? 0) then
        if s8 b =? c then mret (Some s) else strchr_loop fuel (s + 1) c
      else mret None
  end.
Definition strchr (s c : Z) : M mem (option Z) := m ← get; strchr_loop (S (size m)) s c.

Fixpoint strfind_loop (fuel : nat) (s c : Z) : M mem Z :=
  match fuel with
  | O => diverge
  | S fuel =>
      b ← load s;
      if negb (b =? 0) then
        if s8 b =? c then mret s else strfind_loop fuel (s + 1) c
      else mret s
  end.
Definition strfind (s c : Z) : M mem Z := m ← get; strfind_loop (S (size m)) s c.

(** *** strtol *)

Fixpoint skip_blanks (fuel : nat) (s : Z) : M mem Z :=
  match fuel with
  | O => diverge
  | S fuel =>
      c ← load_char s;
      if (c =? 32) || (c =? 9) then skip_blanks fuel (s + 1) else mret s
  end.

(** The digit of a character; [None] leaves the loop. *)
Definition digit_of (c : Z) : option Z :=
  if (48 <=? c) && (c <=? 57) then Some (c - 48)
  else if (97 <=? c) && (c <=? 122) then Some (c - 97 + 10)
  else if (65 <=? c) && (c <=? 90) then Some (c - 65 + 10)
  else None.

(** [val] is a 32-bit [long]; an overflowing step is undefined. *)
Fixpoint digits_loop (fuel : nat) (s base val : Z) : M mem (Z * Z) :=
  match fuel with
  | O => diverge
  | S fuel =>
      c ← load_char s;
      match digit_of c with
      | None => mret (s, val)
      | Some dig =>
          if base <=? dig then mret (s, val)
          else
            let v := val * base + dig in
            defined ((-0x80000000 <=? v) && (v <? 0x80000000));;
            digits_loop fuel (s + 1) base v
      end
  end.

(** Returns the value and the address stored to [*endptr]. *)
Definition strtol (s base : Z) : M mem (Z * Z) :=
  m ← get;
  let fuel := S (size m) in
  s ← skip_blanks fuel s;
  c ← load_char s;
  sg ← (if c =? 43 then mret (s + 1, false)
        else if c =? 45 then mret (s + 1, true)
        else mret (s, false));
  let '(s, neg) := sg in
  c0 ← load_char s;
  hex ← (if ((base =? 0) || (base =? 16)) && (c0 =? 48)
         then c1 ← load_char (s + 1); mret (c1 =? 120) else mret false);
  let '(s, base) :=
    if hex : bool then (s + 2, 16)
    else if (base =? 0) && (c0 =? 48) then (s + 1, 8)
    else if base =? 0 then (s, 10)
    else (s, base) in
  r ← digits_loop fuel s base 0;
  let '(s, val) := r in
  mret (if (neg : bool) then - val else val, s).

(** *** Memory blocks *)

Fixpoint memset_loop (n : nat) (p c : Z) : M mem unit :=
  match n with
  | O => mret tt
  | S n => store p c;; memset_loop n (p + 1) c
  end.
Definition memset (s c n : Z) : M mem Z := memset_loop (Z.to_nat n) s c;; mret s.

Fixpoint copy_up (n : nat) (d s : Z) : M mem unit :=
  match n with
  | O => mret tt
  | S n => b ← load s; store d b;; copy_up n (d + 1) (s + 1)
  end.
Fixpoint copy_down (n : nat) (d s : Z) : M mem unit :=
  match n with
  | O => mret tt
  | S n => b ← load (s - 1); store (d - 1) b;; copy_down n (d - 1) (s - 1)
  end.

Definition memmove (dst src n : Z) : M mem Z :=
  (if (src <? dst) && (dst <? src + n)
   then copy_down (Z.to_nat n) (dst + n) (src + n)
   else copy_up (Z.to_nat n) dst src);;
  mret dst.

Definition memcpy (dst src n : Z) : M mem Z := copy_up (Z.to_nat n) dst src;; mret dst.

(** Copies two bytes of every four; [n] is unsigned and goes down by two, so
    an odd [n] steps over 0. *)
Fixpoint memcpy_flash_loop (fuel : nat) (d s n : Z) : M mem unit :=
  match fuel with
  | O => diverge
  | S fuel =>
      if 0 <? n then
        b ← load s; store d b;;
        b ← load (s + 1); store (d + 1) b;;
        memcpy_flash_loop fuel (d + 2) (s + 4) (u32 (n - 2))
      else mret tt
  end.
Definition memcpy_flash (dst src n : Z) : M mem Z :=
  m ← get; memcpy_flash_loop (S (size m)) dst src n;; mret dst.

Fixpoint memcmp_loop (n : nat) (s1 s2 : Z) : M mem Z :=
  match n with
  | O => mret 0
  | S n =>
      a ← load s1; b ← load s2;
      if negb (a =? b) then mret (a - b) else memcmp_loop n (s1 + 1) (s2 + 1)
  end.
Definition memcmp (v1 v2 n : Z) : M mem Z := memcmp_loop (Z.to_nat n) v1 v2.

End Strings.
