(* ===== verification/StringsSpec.v ===== *)
(** What the string library promises: lengths, copies, comparisons and moves
    against lists of bytes (src/ucore_OS/libs/string.c). *)

From S2P Require Import Prelude Mem Strings.

Module StringsSpec.
Import Strings.

(** Runs the next [load] or [store] whose outcome is known. *)
Ltac mem_step :=
  unfold mbind, M_bind;
  repeat first
    [ rewrite (load_eq _ _ _) by eassumption | rewrite store_eq by eauto ].

Lemma char_nonzero b : 0 < b < 256 -> negb (b =? 0) = true.
Proof. intros. lia. Qed.

(** ** Length and copies *)

Lemma strlen_loop_eq l m fuel a cnt :
  cstr m a l -> (length l < fuel)%nat -> 0 <= cnt -> cnt + Z.of_nat (length l) < 2 ^ 32 ->
  strlen_loop fuel a cnt m = Ret (cnt + Z.of_nat (length l), m).
Proof.
  revert fuel a cnt. induction l as [|b l IH]; intros [|fuel] a cnt Hs Hf Hc Hb; simpl in Hf; try lia.
  - apply cstr_nil in Hs. simpl. mem_step. simpl. by rewrite Z.add_0_r.
  - apply cstr_cons in Hs as (Ha & Hr & Hs). simpl. mem_step.
    rewrite char_nonzero by done. simpl in Hb. rewrite u32_id by (unfold is_u32; lia).
    rewrite IH by (done || lia). do 2 f_equal. lia.
Qed.

Lemma strlen_eq m a l :
  cstr m a l -> Z.of_nat (length l) < 2 ^ 32 -> strlen a m = Ret (Z.of_nat (length l), m).
Proof.
  intros Hs Hl. unfold strlen, mbind, M_bind, get.
  assert (Hz := cstr_size _ _ _ Hs). by rewrite (strlen_loop_eq l) by (done || lia).
Qed.

(** Copying [l] and its terminator to a place that does not overlap it. *)
Lemma strcpy_loop_eq l m fuel d s :
  cstr m s l -> allocated m d (S (length l)) -> (length l < fuel)%nat ->
  disjoint s (S (length l)) d (S (length l)) ->
  strcpy_loop fuel d s m = Ret (tt, write_bytes m d (l ++ [0])).
Proof.
  revert m fuel d s. induction l as [|b l IH]; intros m [|fuel] d s Hs Hd Hf Hdis;
    simpl in Hf; try lia.
  - apply cstr_nil in Hs. apply allocated_S in Hd as [Hd _]. simpl. by mem_step.
  - apply cstr_cons in Hs as (Ha & Hr & Hs). apply allocated_S in Hd as [Hd0 Hd].
    simpl. mem_step. rewrite char_nonzero by done. rewrite u8_id by (unfold is_u8; lia).
    unfold disjoint in Hdis. cbn [length] in Hdis. apply IH.
    + destruct Hs as [Hs ?]. split; [|done].
      apply (bytes_write_disjoint m d [b]); [|done].
      unfold disjoint. rewrite length_app. simpl. lia.
    + by apply (allocated_write m d [b]).
    + lia.
    + unfold disjoint. simpl. lia.
Qed.

Lemma strcpy_eq m d s l :
  cstr m s l -> allocated m d (S (length l)) ->
  disjoint s (S (length l)) d (S (length l)) ->
  strcpy d s m = Ret (d, write_bytes m d (l ++ [0])).
Proof.
  intros Hs Hd Hdis. unfold strcpy, mbind, M_bind, get.
  assert (Hz := cstr_size _ _ _ Hs).
  by rewrite (strcpy_loop_eq l) by (done || lia).
Qed.

Lemma cstr_write m a l : Forall (fun b => 0 < b < 256) l -> cstr (write_bytes m a (l ++ [0])) a l.
Proof. intros. split; [apply bytes_write|done]. Qed.

(** [strncpy] fills the field: the characters, then NULs. *)
Fixpoint field (len : nat) (l : list Z) : list Z :=
  match len, l with
  | O, _ => []
  | S n, [] => 0 :: field n []
  | S n, b :: l => b :: field n l
  end.

Lemma field_length len l : length (field len l) = len.
Proof. revert l. induction len as [|n IH]; intros [|b l]; simpl; auto. Qed.

Lemma strncpy_loop_eq len m d s l :
  cstr m s l -> allocated m d len -> disjoint s (S (length l)) d len ->
  strncpy_loop len d s m = Ret (tt, write_bytes m d (field len l)).
Proof.
  revert m d s l. induction len as [|n IH]; intros m d s l Hs Hd Hdis; [by destruct l|].
  apply allocated_S in Hd as [Hd0 Hd]. unfold disjoint in Hdis.
  destruct l as [|b l]; simpl in Hdis.
  - apply cstr_nil in Hs. simpl. mem_step. change (if negb (0 =? 0) then s + 1 else s) with s. apply (IH _ _ _ []).
    + apply cstr_nil. rewrite lookup_insert_ne; [done|lia].
    + by apply (allocated_write m d [0]).
    + unfold disjoint. simpl. lia.
  - apply cstr_cons in Hs as (Ha & Hr & Hs). simpl. mem_step.
    rewrite char_nonzero by done. rewrite u8_id by (unfold is_u8; lia). apply IH.
    + destruct Hs as [Hs ?]. split; [|done].
      apply (bytes_write_disjoint m d [b]); [|done].
      unfold disjoint. rewrite length_app. simpl. lia.
    + by apply (allocated_write m d [b]).
    + unfold disjoint. simpl. lia.
Qed.

(** ** Comparison *)

(** The difference of the first pair of different bytes; a string ends with 0. *)
Fixpoint diff (l1 l2 : list Z) : Z :=
  match l1, l2 with
  | [], [] => 0
  | [], b :: _ => 0 - b
  | a :: _, [] => a - 0
  | a :: l1, b :: l2 => if a =? b then diff l1 l2 else a - b
  end.

(** Lexicographic order, with a prefix below its extensions. *)
Fixpoint lex (l1 l2 : list Z) : comparison :=
  match l1, l2 with
  | [], [] => Eq
  | [], _ :: _ => Lt
  | _ :: _, [] => Gt
  | a :: l1, b :: l2 => match a ?= b with Eq => lex l1 l2 | c => c end
  end.

Lemma lex_eq l1 l2 : lex l1 l2 = Eq <-> l1 = l2.
Proof.
  revert l2. induction l1 as [|a l1 IH]; intros [|b l2]; simpl; try done.
  destruct (Z.compare_spec a b); [rewrite IH|..]; naive_solver lia.
Qed.

Definition is_char (b : Z) : Prop := 0 < b < 256.

Lemma diff_lex l1 l2 :
  Forall is_char l1 -> Forall is_char l2 -> (diff l1 l2 ?= 0) = lex l1 l2.
Proof.
  intros H1. revert l2. induction H1 as [|a l1 Ha H1 IH]; intros l2 H2;
    destruct H2 as [|b l2 Hb H2]; unfold is_char in *; cbn [diff lex].
  - done.
  - destruct (Z.compare_spec (0 - b) 0); (done || lia).
  - destruct (Z.compare_spec (a - 0) 0); (done || lia).
  - destruct (Z.eqb_spec a b) as [->|].
    + rewrite Z.compare_refl. by apply IH.
    + destruct (Z.compare_spec a b), (Z.compare_spec (a - b) 0); (done || lia).
Qed.

Lemma strcmp_loop_eq l1 l2 m fuel a1 a2 :
  cstr m a1 l1 -> cstr m a2 l2 -> (length l1 < fuel)%nat ->
  strcmp_loop fuel a1 a2 m = Ret (diff l1 l2, m).
Proof.
  revert l2 fuel a1 a2. induction l1 as [|a l1 IH]; intros l2 [|fuel] a1 a2 H1 H2 Hf;
    simpl in Hf; try lia; simpl.
  - apply cstr_nil in H1. mem_step. simpl.
    destruct l2 as [|b l2]; [apply cstr_nil in H2|apply cstr_cons in H2 as (H2 & _ & _)];
      by mem_step.
  - apply cstr_cons in H1 as (Ha & Hr & H1). mem_step. rewrite char_nonzero by done.
    destruct l2 as [|b l2].
    + apply cstr_nil in H2. mem_step. by replace (a =? 0) with false by lia.
    + apply cstr_cons in H2 as (Hb & _ & H2). mem_step.
      destruct (a =? b); [|done]. apply IH; (done || lia).
Qed.

(** ** Blocks *)

Lemma copy_up_eq l m d s :
  bytes m s l -> allocated m d (length l) -> Forall is_u8 l ->
  d <= s \/ s + Z.of_nat (length l) <= d ->
  copy_up (length l) d s m = Ret (tt, write_bytes m d l).
Proof.
  revert m d s. induction l as [|b l IH]; intros m d s Hs Hd Hu Hdis; [done|].
  apply Forall_cons in Hu as [Hb Hu]. destruct Hs as [Ha Hs].
  apply allocated_S in Hd as [Hd0 Hd]. cbn [length] in Hdis. simpl. mem_step.
  rewrite u8_id by done. apply IH; [|by apply (allocated_write m d [b])|done|lia].
  rewrite bytes_lookup in *. intros i c Hc. specialize (Hs i c Hc).
  apply lookup_lt_Some in Hc. rewrite lookup_insert_ne; [done|lia].
Qed.

Lemma bytes_snoc m a l b :
  bytes m a (l ++ [b]) <-> bytes m a l /\ m !! (a + Z.of_nat (length l)) = Some b.
Proof. rewrite bytes_app. simpl. naive_solver. Qed.

Lemma write_bytes_snoc m a l b :
  write_bytes m a (l ++ [b]) = write_bytes (<[a + Z.of_nat (length l) := b]> m) a l.
Proof. rewrite write_bytes_app. simpl. rewrite write_bytes_insert; [done|lia]. Qed.

Lemma copy_down_eq l m d s :
  bytes m s l -> allocated m d (length l) -> Forall is_u8 l -> s <= d ->
  copy_down (length l) (d + Z.of_nat (length l)) (s + Z.of_nat (length l)) m
  = Ret (tt, write_bytes m d l).
Proof.
  revert m. induction l as [|b l IH] using rev_ind; intros m Hs Hd Hu Hle; [done|].
  apply Forall_app in Hu as [Hu Hb]. rewrite Forall_singleton in Hb. apply bytes_snoc in Hs as [Hs Ha].
  rewrite length_app, Nat.add_1_r in *. cbn [copy_down].
  replace (s + Z.of_nat (S (length l)) - 1) with (s + Z.of_nat (length l)) by lia.
  replace (d + Z.of_nat (S (length l)) - 1) with (d + Z.of_nat (length l)) by lia.
  assert (is_Some (m !! (d + Z.of_nat (length l)))) by (apply Hd; lia).
  mem_step. rewrite u8_id by done. rewrite write_bytes_snoc.
  rewrite IH; [done|..|done|done].
  - rewrite bytes_lookup in *. intros i c Hc. specialize (Hs i c Hc).
    apply lookup_lt_Some in Hc. rewrite lookup_insert_ne; [done|lia].
  - apply (allocated_write m _ [b]). by eapply allocated_mono; [|done]; lia.
Qed.

Lemma memset_loop_eq n m a c :
  allocated m a n -> memset_loop n a c m = Ret (tt, write_bytes m a (replicate n (u8 c))).
Proof.
  revert m a. induction n as [|n IH]; intros m a Ha; [done|].
  apply allocated_S in Ha as [Ha0 Ha]. simpl. mem_step.
  apply IH. by apply (allocated_write m a [u8 c]).
Qed.

Lemma memmove_eq m d s l :
  bytes m s l -> Forall is_u8 l -> allocated m d (length l) ->
  memmove d s (Z.of_nat (length l)) m = Ret (d, write_bytes m d l).
Proof.
  intros Hs Hu Hd. unfold memmove, mbind, M_bind. rewrite Nat2Z.id.
  destruct (Z.ltb_spec s d), (Z.ltb_spec d (s + Z.of_nat (length l))); simpl.
  - by rewrite copy_down_eq by (done || lia).
  - rewrite copy_up_eq by (done || lia). done.
  - rewrite copy_up_eq by (done || lia). done.
  - rewrite copy_up_eq by (done || lia). done.
Qed.

(** ** Properties *)

(** [strcat] appends: with room for both strings and no overlap with the
    source, it returns its destination, which then holds the concatenation,
    and every byte outside the appended part is unchanged. *)
Theorem strcat_appends m d s l1 l2 :
  cstr m d l1 -> cstr m s l2 ->
  Z.of_nat (length l1) < 2 ^ 32 ->
  allocated m d (S (length l1 + length l2)) ->
  disjoint s (S (length l2)) d (S (length l1 + length l2)) ->
  exists m', strcat d s m = Ret (d + Z.of_nat (length l1), m') /\ cstr m' d (l1 ++ l2) /\
    (forall i, i < d + Z.of_nat (length l1) \/ d + Z.of_nat (S (length l1 + length l2)) <= i ->
       m' !! i = m !! i).
Proof.
  intros H1 H2 Hl Hd Hdis. unfold strcat, mbind, M_bind. rewrite (strlen_eq _ _ l1) by done.
  unfold disjoint in *. rewrite (strcpy_eq _ _ _ l2); [|done| |unfold disjoint; lia].
  2:{ intros i Hi. apply Hd. lia. }
  eexists. split; [done|]. destruct H1 as [H1 Hc1]. destruct H2 as [H2 Hc2]. split.
  - split; [|by apply Forall_app]. rewrite <- app_assoc. apply bytes_app. split.
    + apply bytes_app in H1 as [H1 _]. apply bytes_write_disjoint; [|done].
      unfold disjoint. lia.
    + apply bytes_write.
  - intros i Hi. apply write_bytes_out. rewrite length_app. simpl. lia.
Qed.

(** [strncpy] fills exactly [len] bytes of the destination with the
    string cut or padded with NULs to that length. *)
Theorem strncpy_fills m d s l len :
  0 <= len -> cstr m s l -> allocated m d (Z.to_nat len) ->
  disjoint s (S (length l)) d (Z.to_nat len) ->
  strncpy d s len m = Ret (d, write_bytes m d (field (Z.to_nat len) l)) /\
  length (field (Z.to_nat len) l) = Z.to_nat len.
Proof.
  intros Hl Hs Hd Hdis. unfold strncpy, mbind, M_bind.
  rewrite (strncpy_loop_eq _ _ _ _ l) by done. by rewrite field_length.
Qed.

(** [strcmp] returns a number whose sign is the lexicographic order of the
    two strings as unsigned bytes; it is zero exactly for equal strings. *)
Theorem strcmp_order m a1 a2 l1 l2 :
  cstr m a1 l1 -> cstr m a2 l2 ->
  exists r, strcmp a1 a2 m = Ret (r, m) /\ (r ?= 0) = lex l1 l2 /\ (r = 0 <-> l1 = l2).
Proof.
  intros H1 H2. exists (diff l1 l2). unfold strcmp, mbind, M_bind, get.
  assert (Hz := cstr_size _ _ _ H1). rewrite (strcmp_loop_eq l1 l2) by (done || lia).
  assert (Hd := diff_lex l1 l2 (proj2 H1) (proj2 H2)). split_and!; try done.
  rewrite <- lex_eq, <- Hd. by rewrite Z.compare_eq_iff.
Qed.

(** C5: [memmove] copies correctly whatever the overlap of the two blocks:
    afterwards the destination holds the bytes the source held before, and
    nothing outside the destination changed. *)
Theorem memmove_correct m d s l :
  bytes m s l -> Forall is_u8 l -> allocated m d (length l) ->
  exists m', memmove d s (Z.of_nat (length l)) m = Ret (d, m') /\ bytes m' d l /\
    (forall i, i < d \/ d + Z.of_nat (length l) <= i -> m' !! i = m !! i).
Proof.
  intros Hs Hu Hd. exists (write_bytes m d l). split; [by apply memmove_eq|].
  split; [apply bytes_write|intros; by apply write_bytes_out].
Qed.

(** [memset] sets exactly the block it is given. *)
Theorem memset_correct m a c n :
  0 <= n -> allocated m a (Z.to_nat n) ->
  exists m', memset a c n m = Ret (a, m') /\
    bytes m' a (replicate (Z.to_nat n) (u8 c)) /\
    (forall i, i < a \/ a + n <= i -> m' !! i = m !! i).
Proof.
  intros Hn Ha. eexists. unfold memset, mbind, M_bind. rewrite memset_loop_eq by done.
  split; [done|]. split; [apply bytes_write|]. intros i Hi. apply write_bytes_out.
  rewrite length_replicate. lia.
Qed.

(** ** Witnesses *)

(** The string "abc" at 100, in a 16-byte block; "abd" at 200. *)
Definition demo_mem : mem :=
  write_bytes (write_bytes ∅ 100 ([97; 98; 99] ++ replicate 13 0)) 200 [97; 98; 100; 0].

Lemma demo_allocated n : (n <= 16)%nat -> allocated demo_mem 100 n.
Proof.
  intros Hn. apply (allocated_mono _ _ 16); [done|].
  apply allocated_write.
  exact (bytes_allocated _ _ _ (bytes_write ∅ 100 ([97; 98; 99] ++ replicate 13 0))).
Qed.

Lemma demo_abc : cstr demo_mem 100 [97; 98; 99].
Proof. split; [by vm_compute|]. repeat constructor; lia. Qed.
Lemma demo_abd : cstr demo_mem 200 [97; 98; 100].
Proof. split; [by vm_compute|]. repeat constructor; lia. Qed.

Lemma strcat_appends_witness :
  exists m', strcat 100 200 demo_mem = Ret (103, m') /\ cstr m' 100 [97; 98; 99; 97; 98; 100].
Proof.
  destruct (strcat_appends demo_mem 100 200 [97; 98; 99] [97; 98; 100]) as (m' & Hr & Hc & _);
    [exact demo_abc | exact demo_abd | done | apply demo_allocated; simpl; lia
    | right; simpl; lia |].
  by exists m'.
Defined.

Lemma strcmp_order_witness : exists r, strcmp 100 200 demo_mem = Ret (r, demo_mem) /\ r < 0.
Proof.
  destruct (strcmp_order demo_mem 100 200 _ _ demo_abc demo_abd) as (r & Hr & Hs & _).
  exists r. split; [done|]. exact Hs.
Defined.

Lemma memmove_correct_witness :
  exists m', memmove 101 100 3 demo_mem = Ret (101, m') /\ bytes m' 101 [97; 98; 99].
Proof.
  destruct (memmove_correct demo_mem 101 100 [97; 98; 99]) as (m' & Hr & Hb & _);
    [by vm_compute | repeat constructor; width
    | intros i Hi; simpl in Hi; apply (demo_allocated 16); simpl; lia |].
  by exists m'.
Defined.

End StringsSpec.
