(* ===== verification/Printfmt.v ===== *)
(** Formatted output, src/ucore_OS/libs/printfmt.c, with the division macro
    [do_div] of src/ucore_OS/libs/mips32s.h.  A C string is the list of its
    characters (the NUL is implicit); the variable arguments are a list of
    typed values; [putch] is a parameter that runs on the caller's state. *)

From stdpp Require Import strings.
From S2P Require Import Prelude Mem.

Module Printfmt.

(** ** Division without a divide instruction *)

(** [do_div(n, base)] on an [unsigned long long]: the remainder (the value of
    the statement expression) and the quotient (left in [n]).  [q] and
    [__mod] are 32-bit. *)
Definition do_div (n base : Z) : Z * Z :=
  if base =? 10 then
    let q := u32 ((n ≫ 1) + (n ≫ 2)) in
    let q := u32 (q + (q ≫ 4)) in
    let q := u32 (q + (q ≫ 8)) in
    let q := u32 (q + (q ≫ 16)) in
    let q := q ≫ 3 in
    let mod_ := u32 (n - u32 (u32 (u32 (q ≪ 2) + q) ≪ 1)) in
    let q := u32 (q + (u32 (mod_ + 6) ≫ 4)) in
    let mod_ := u32 (n - u32 (u32 (u32 (q ≪ 2) + q) ≪ 1)) in
    (mod_, q)
  else if base =? 16 then (Z.land n 0xf, n ≫ 4)
  else if base =? 8 then (Z.land n 0x7, n ≫ 3)
  else if base =? 2147483648 then (Z.land n 0x7fffffff, n ≫ 31)
  else (3, 1).

(** ** Characters and arguments *)

Definition c_space : Z := 32.
Definition c_percent : Z := 37.
Definition c_minus : Z := 45.
Definition c_zero : Z := 48.
Definition c_nine : Z := 57.

(** The digit string literal. *)
Definition digits16 : list Z :=
  [48; 49; 50; 51; 52; 53; 54; 55; 56; 57; 97; 98; 99; 100; 101; 102].

(** One variable argument: a 32-bit value, a 64-bit value, or a string
    pointer ([None] is NULL). *)
Inductive va :=
| VInt (z : Z)
| VLong (z : Z)
| VStr (s : option (list Z)).

Definition E_INVAL : Z := 3.
Definition MAXERROR : Z := 24.

Definition str (s : string) : list Z :=
  (fix go s := match s with
   | EmptyString => []
   | String c s => Z.of_N (Ascii.N_of_ascii c) :: go s
   end) s.

(** [error_string]: the entries that the initialiser leaves out are NULL. *)
Definition error_string (err : Z) : option (list Z) :=
  switch err
    [(1, Some (str "unspecified error"%string)); (2, Some (str "bad process"%string));
     (3, Some (str "invalid parameter"%string)); (4, Some (str "out of memory"%string));
     (5, Some (str "out of processes"%string)); (6, Some (str "segmentation fault"%string));
     (8, Some (str "invalid elf file"%string)); (9, Some (str "process is killed"%string));
     (10, Some (str "panic failure"%string)); (13, Some (str "no such device"%string));
     (14, Some (str "device not available"%string)); (15, Some (str "device/file is busy"%string));
     (16, Some (str "no such file or directory"%string)); (17, Some (str "is a directory"%string));
     (18, Some (str "not a directory"%string)); (19, Some (str "cross device link"%string));
     (20, Some (str "unimplemented feature"%string)); (21, Some (str "illegal seek"%string));
     (22, Some (str "too many files are open"%string));
     (23, Some (str "file or directory already exists"%string));
     (24, Some (str "directory is not empty"%string))] None.

(** The unsigned character [fmt[i]]: the terminator past the last character. *)
Definition fmt_at (fmt : list Z) (i : nat) : Z := default 0 (fmt !! i).

(** The locals of [vprintfmt] set by one escape sequence. *)
Record esc := mk_esc { padc : Z; width : Z; precision : Z; lflag : Z; altflag : bool }.
Definition esc0 : esc := mk_esc c_space (-1) (-1) 0 false.

Definition is_int (z : Z) : bool := (-0x80000000 <=? z) && (z <? 0x80000000).

Section Printer.
  Context {St : Type} (putch : Z -> M St unit).

(** [while (cond on k) putch(c)], [n] times. *)
Fixpoint pad (n : nat) (c : Z) : M St unit :=
  match n with O => mret tt | S n => putch c;; pad n c end.

(** The recursion on the quotient; 64 digits are enough for a 64-bit number in
    any base of at least 2. *)
Fixpoint printnum (fuel : nat) (num base width padc : Z) : M St unit :=
  match fuel with
  | O => diverge
  | S fuel =>
      let '(mod_, result) := do_div num base in
      (if base <=? num then printnum fuel result base (width - 1) padc
       else pad (Z.to_nat (width - 1)) padc);;
      d ← lift_opt (digits16 !! Z.to_nat mod_);
      putch d
  end.

Definition getuint (ap : list va) (lflag : Z) : M St (Z * list va) :=
  match ap with
  | VLong z :: ap => if 2 <=? lflag then mret (u64 z, ap) else fault
  | VInt z :: ap => if 2 <=? lflag then fault else mret (u32 z, ap)
  | _ => fault
  end.

Definition getint (ap : list va) (lflag : Z) : M St (Z * list va) :=
  match ap with
  | VLong z :: ap => if 2 <=? lflag then mret (s64 z, ap) else fault
  | VInt z :: ap => if 2 <=? lflag then fault else mret (s32 z, ap)
  | _ => fault
  end.

(** [va_arg(ap, int)] and [va_arg(ap, char * )]. *)
Definition va_int (ap : list va) : M St (Z * list va) :=
  match ap with VInt z :: ap => mret (s32 z, ap) | _ => fault end.
Definition va_str (ap : list va) : M St (option (list Z) * list va) :=
  match ap with VStr p :: ap => mret (p, ap) | _ => fault end.

(** The width digits: from [ch], the character at [fmt[i]] on. *)
Fixpoint width_loop (fuel : nat) (fmt : list Z) (i : nat) (precision ch : Z) : M St (Z * nat) :=
  match fuel with
  | O => diverge
  | S fuel =>
      let p := precision * 10 + ch - c_zero in
      defined (is_int p);;
      let ch := s8 (fmt_at fmt i) in
      if (ch <? c_zero) || (c_nine <? ch) then mret (p, i)
      else width_loop fuel fmt (i + 1) p ch
  end.

(** The characters of [%s]: stops at the end of the string or of the
    precision; returns the width left. *)
Fixpoint puts (p : list Z) (precision width : Z) (altflag : bool) : M St Z :=
  match p with
  | [] => mret width
  | c :: p =>
      let ch := s8 c in
      if (precision <? 0) || (0 <=? precision - 1) then
        (if altflag && ((ch <? c_space) || (126 <? ch)) then putch 63 else putch ch);;
        puts p (if precision <? 0 then precision else precision - 1) (width - 1) altflag
      else mret width
  end.

Definition strnlen (p : list Z) (len : Z) : Z := Z.min (Z.of_nat (length p)) (u32 len).

Definition put_string (p : list Z) (e : esc) : M St unit :=
  w ← (if (0 <? width e) && negb (padc e =? c_minus) then
         let w := width e - strnlen p (precision e) in
         pad (Z.to_nat w) (padc e);; mret (if 0 <? w then 0 else w)
       else mret (width e));
  w ← puts p (precision e) w (altflag e);
  pad (Z.to_nat w) c_space.

(** [process_precision] *)
Definition process_precision (p : Z) (e : esc) : esc :=
  if width e <? 0 then mk_esc (padc e) p (-1) (lflag e) (altflag e)
  else mk_esc (padc e) (width e) p (lflag e) (altflag e).

Definition number (num base : Z) (e : esc) : M St unit :=
  printnum 64 num base (width e) (padc e).

(** [%d], after [getint]; negating the least [long long] is undefined. *)
Definition put_decimal (num : Z) (e : esc) : M St unit :=
  (if num <? 0 then
     putch c_minus;;
     defined (negb (num =? -0x8000000000000000));;
     number (u64 (- num)) 10 e
   else number (u64 num) 10 e).

(** [%e]; the two recursive calls of [printfmt] print with the defaults of a
    fresh escape. *)
Definition put_error (err : Z) : M St unit :=
  defined (negb (err =? -0x80000000));;
  let err := if err <? 0 then - err else err in
  match (if MAXERROR <? err then None else error_string err) with
  | None => foldr (fun c k => putch c;; k) (put_decimal err esc0) (str "error "%string)
  | Some p => put_string p esc0
  end.

(** Backs up to the character after the last '%'. *)
Fixpoint backup (fmt : list Z) (i : nat) : M St nat :=
  match i with
  | O => fault
  | S j => if fmt_at fmt j =? c_percent then mret i else backup fmt j
  end.

(** What a conversion does next: read another character of the escape, or go
    on with plain text from an index with the arguments left. *)
Inductive outcome :=
| Reswitch (i : nat) (e : esc) (ap : list va)
| Done (i : nat) (ap : list va).

(** One pass of the [switch], [ch] being the character before [fmt[i]]. *)
Definition conversion (fmt : list Z) (i : nat) (ch : Z) (e : esc) (ap : list va) : M St outcome :=
  if ch =? 45 then mret (Reswitch i (mk_esc c_minus (width e) (precision e) (lflag e) (altflag e)) ap)
  else if ch =? 48 then
    mret (Reswitch i (mk_esc c_zero (width e) (precision e) (lflag e) (altflag e)) ap)
  else if (49 <=? ch) && (ch <=? 57) then
    r ← width_loop (1 + length fmt) fmt i 0 ch;
    mret (Reswitch r.2 (process_precision r.1 e) ap)
  else if ch =? 42 then
    r ← va_int ap; mret (Reswitch i (process_precision r.1 e) r.2)
  else if ch =? 46 then
    mret (Reswitch i (mk_esc (padc e) (if width e <? 0 then 0 else width e)
                             (precision e) (lflag e) (altflag e)) ap)
  else if ch =? 35 then
    mret (Reswitch i (mk_esc (padc e) (width e) (precision e) (lflag e) true) ap)
  else if ch =? 108 then
    mret (Reswitch i (mk_esc (padc e) (width e) (precision e) (lflag e + 1) (altflag e)) ap)
  else if ch =? 99 then r ← va_int ap; putch r.1;; mret (Done i r.2)
  else if ch =? 101 then r ← va_int ap; put_error r.1;; mret (Done i r.2)
  else if ch =? 115 then
    r ← va_str ap;
    put_string (default (str "(null)"%string) r.1) e;; mret (Done i r.2)
  else if ch =? 100 then
    r ← getint ap (lflag e); put_decimal r.1 e;; mret (Done i r.2)
  else if ch =? 117 then
    r ← getuint ap (lflag e); number r.1 10 e;; mret (Done i r.2)
  else if ch =? 111 then
    r ← getuint ap (lflag e); number r.1 8 e;; mret (Done i r.2)
  else if ch =? 112 then
    putch 48;; putch 120;;
    r ← va_int ap; number (u64 (u32 r.1)) 16 e;; mret (Done i r.2)
  else if ch =? 120 then
    r ← getuint ap (lflag e); number r.1 16 e;; mret (Done i r.2)
  else if ch =? 37 then putch ch;; mret (Done i ap)
  else putch c_percent;; j ← backup fmt (i - 1); mret (Done j ap).

(** The two loops of [vprintfmt]: plain text, and the escape in progress. *)
Fixpoint vprintfmt_loop (fuel : nat) (fmt : list Z) (i : nat) (st : option esc) (ap : list va)
    : M St unit :=
  match fuel with
  | O => diverge
  | S fuel =>
      let ch := fmt_at fmt i in
      match st with
      | None =>
          if negb (ch =? c_percent) then
            if ch =? 0 then mret tt
            else putch ch;; vprintfmt_loop fuel fmt (i + 1) None ap
          else vprintfmt_loop fuel fmt (i + 1) (Some esc0) ap
      | Some e =>
          o ← conversion fmt (i + 1) ch e ap;
          match o with
          | Reswitch i e ap => vprintfmt_loop fuel fmt i (Some e) ap
          | Done i ap => vprintfmt_loop fuel fmt i None ap
          end
      end
  end.

Definition vprintfmt (fmt : list Z) (ap : list va) : M St unit :=
  vprintfmt_loop (2 * length fmt + 3) fmt 0 None ap.

End Printer.

(** ** Printing to a buffer *)

(** [struct sprintbuf] beside the memory it points into. *)
Record sprintbuf := mk_sb { buf : Z; ebuf : Z; cnt : Z; smem : mem }.

Definition on_smem {A} (f : M mem A) : M sprintbuf A := fun b =>
  match f (smem b) with
  | Ret (a, m) => Ret (a, mk_sb (buf b) (ebuf b) (cnt b) m)
  | Panic => Panic | Fault => Fault | Diverge => Diverge
  end.

(** The count is an [int]: an overflow is undefined. *)
Definition sprintputch (ch : Z) : M sprintbuf unit :=
  b ← get;
  defined (cnt b <? 0x7fffffff);;
  modify (fun b => mk_sb (buf b) (ebuf b) (cnt b + 1) (smem b));;
  b ← get;
  when (buf b <? ebuf b)
    (on_smem (store (buf b) ch);;
     modify (fun b => mk_sb (buf b + 1) (ebuf b) (cnt b) (smem b))).

(** [str == NULL] is address 0; the size is unsigned. *)
Definition vsnprintf (str size : Z) (fmt : list Z) (ap : list va) : M mem Z := fun m =>
  let b := mk_sb str (str + size - 1) 0 m in
  if (str =? 0) || (ebuf b <? buf b) then Ret (- E_INVAL, m)
  else match (vprintfmt sprintputch fmt ap;; b ← get; on_smem (store (buf b) 0)) b with
       | Ret (_, b) => Ret (cnt b, smem b)
       | Panic => Panic | Fault => Fault | Diverge => Diverge
       end.

End Printfmt.
