(* ===== verification/PrintfmtSpec.v ===== *)
(** What formatted output promises: the division macro divides, the format
    loop terminates, printing to a buffer is printing to a stream cut to the
    buffer's size, and a printed number reads back with [strtol]
    (src/ucore_OS/libs/printfmt.c, src/ucore_OS/libs/mips32s.h). *)

From stdpp Require Import strings.
From S2P Require Import Prelude Mem Strings StringsSpec Printfmt.

Module PrintfmtSpec.
Import Printfmt.

(** ** Division *)

(** The quotient estimate by shifts and adds of [do_div]'s base 10. *)
Definition quot10 (n : Z) : Z :=
  let q := n `div` 2 + n `div` 4 in
  let q := q + q `div` 16 in
  let q := q + q `div` 256 in
  let q := q + q `div` 65536 in
  q `div` 8.

Lemma quot10_range n : is_u32 n -> 0 <= n - 10 * quot10 n <= 19.
Proof. intros Hn. unfold quot10. cbv zeta. width. Qed.

Lemma do_div10 n : is_u32 n -> do_div n 10 = (n `mod` 10, n `div` 10).
Proof.
  intros Hn. assert (Hq := quot10_range n Hn). unfold do_div. simpl (10 =? 10). cbv iota.
  rewrite !Z.shiftr_div_pow2 by lia.
  change (2 ^ 1) with 2. change (2 ^ 2) with 4. change (2 ^ 4) with 16.
  change (2 ^ 8) with 256. change (2 ^ 16) with 65536. change (2 ^ 3) with 8.
  unfold quot10 in Hq.
  set (q0 := n `div` 2 + n `div` 4) in *. rewrite (u32_id q0) by (unfold q0; width).
  set (q1 := q0 + q0 `div` 16) in *. rewrite (u32_id q1) by (unfold q1, q0; width).
  set (q2 := q1 + q1 `div` 256) in *. rewrite (u32_id q2) by (unfold q2, q1, q0; width).
  set (q3 := q2 + q2 `div` 65536) in *. rewrite (u32_id q3) by (unfold q3, q2, q1, q0; width).
  cbv zeta in Hq |- *. set (q := q3 `div` 8) in *.
  assert (0 <= q) by (unfold q, q3, q2, q1, q0; width). clearbody q. clear q0 q1 q2 q3.
  rewrite !Z.shiftl_mul_pow2 by lia. change (2 ^ 1) with 2. change (2 ^ 2) with 4.
  assert (H10 : forall x, 0 <= x -> 10 * x <= n -> u32 (u32 (u32 (x * 4) + x) * 2) = 10 * x).
  { intros x H0 Hx. rewrite !(u32_id (x * 4)), !(u32_id (x * 4 + x)), !u32_id by width. lia. }
  rewrite !(H10 q), (u32_id (n - 10 * q)), (u32_id (n - 10 * q + 6)) by width.
  assert (Hd : q + (n - 10 * q + 6) `div` 16 = n `div` 10) by width.
  rewrite Hd, (u32_id (n `div` 10)) by width. rewrite H10 by width.
  rewrite u32_id by width. f_equal. width.
Qed.

Lemma do_div_pow2 n base : base = 8 \/ base = 16 -> do_div n base = (n `mod` base, n `div` base).
Proof.
  intros [-> | ->]; unfold do_div; simpl; f_equal.
  - apply (land_low n 3). lia.
  - by rewrite Z.shiftr_div_pow2 by lia.
  - apply (land_low n 4). lia.
  - by rewrite Z.shiftr_div_pow2 by lia.
Qed.

Definition printable (num base : Z) : Prop :=
  0 <= num /\ ((base = 10 /\ num < 2 ^ 32) \/ base = 8 \/ base = 16).

Lemma do_div_eq num base : printable num base -> do_div num base = (num `mod` base, num `div` base).
Proof.
  intros [H0 [[-> Hn]|Hb]]; [apply do_div10; unfold is_u32; lia|by apply do_div_pow2].
Qed.

Lemma printable_div num base : printable num base -> printable (num `div` base) base.
Proof.
  intros [H0 Hb]. split; [apply Z.div_pos; lia|].
  destruct Hb as [[-> Hn]|Hb]; [left|by right]. split; [done|]. width.
Qed.

(** ** The output of [printnum] *)

(** Printing to a stream. *)
Definition emit (c : Z) : M (list Z) unit := modify (fun out => out ++ [u8 c]).

Fixpoint digits (fuel : nat) (num base : Z) : list Z :=
  match fuel with
  | O => []
  | S fuel =>
      (if base <=? num then digits fuel (num `div` base) base else []) ++ [num `mod` base]
  end.

Definition digit_char (d : Z) : Z := default 0 (digits16 !! Z.to_nat d).

Lemma pad_emit n c out : pad emit n c out = Ret (tt, out ++ replicate n (u8 c)).
Proof.
  revert out. induction n as [|n IH]; intros out; simpl; [by rewrite app_nil_r|].
  unfold mbind, M_bind, emit, modify. rewrite IH. by rewrite <- app_assoc.
Qed.

Lemma digit_lookup d : 0 <= d < 16 -> digits16 !! Z.to_nat d = Some (digit_char d).
Proof.
  intros Hd. unfold digit_char. destruct (digits16 !! Z.to_nat d) as [c|] eqn:E; [done|].
  apply lookup_ge_None in E. simpl in E. lia.
Qed.

Lemma digits16_range c : c ∈ digits16 -> 48 <= c < 103.
Proof. unfold digits16. rewrite !elem_of_cons, elem_of_nil. naive_solver lia. Qed.

Lemma digit_char_range d : 0 <= d < 16 -> 48 <= digit_char d < 103.
Proof. intros Hd. eapply digits16_range, list_elem_of_lookup_2. by apply digit_lookup. Qed.

Lemma printable_base num base : printable num base -> 2 <= base <= 16.
Proof. intros [_ [[-> _]|[-> | ->]]]; lia. Qed.

Lemma pow_div_lt num base f :
  2 <= base -> num < 2 ^ Z.of_nat (S f) -> num `div` base < 2 ^ Z.of_nat f.
Proof.
  intros Hb Hn. apply Z.div_lt_upper_bound; [lia|].
  rewrite Nat2Z.inj_succ, Z.pow_succ_r in Hn by lia. nia.
Qed.

(** [printnum] prints the padding, then the digits. *)
Lemma printnum_emit fuel num base w c out :
  printable num base -> num < 2 ^ Z.of_nat fuel -> (0 < fuel)%nat ->
  printnum emit fuel num base w c out
  = Ret (tt, out ++ replicate (Z.to_nat (w - Z.of_nat (length (digits fuel num base)))) (u8 c)
                 ++ map digit_char (digits fuel num base)).
Proof.
  revert num w out. induction fuel as [|f IH]; intros num w out Hp Hn Hf; [lia|].
  assert (Hb := printable_base _ _ Hp). cbn [printnum digits].
  rewrite do_div_eq by done. unfold mbind, M_bind.
  assert (Hm : 0 <= num `mod` base < base) by (apply Z.mod_pos_bound; lia).
  assert (Hlast : forall o, (x ← lift_opt (digits16 !! Z.to_nat (num `mod` base)); emit x) o
      = Ret (tt, o ++ [digit_char (num `mod` base)])).
  { intros o. rewrite digit_lookup by lia. unfold mbind, M_bind, emit, modify. simpl.
    rewrite u8_id; [done|]. assert (Hr := digit_char_range (num `mod` base)). unfold is_u8. lia. }
  unfold mbind, M_bind in Hlast.
  destruct (Z.leb_spec base num).
  - assert (Hd := pow_div_lt num base f ltac:(lia) Hn).
    assert (1 <= num `div` base) by (apply Z.div_le_lower_bound; lia).
    assert (f <> 0%nat) by (intros ->; simpl in Hd; lia).
    rewrite IH by (try apply printable_div; done || lia). rewrite Hlast.
    rewrite length_app, map_app, <- !app_assoc. simpl.
    do 5 f_equal. f_equal. lia.
  - rewrite pad_emit, Hlast. simpl. rewrite <- app_assoc. by do 4 f_equal.
Qed.

(** The digits are those of the number. *)
Definition value (base : Z) (ds : list Z) : Z := fold_left (fun v d => v * base + d) ds 0.

Lemma digits_value fuel num base :
  2 <= base -> 0 <= num < 2 ^ Z.of_nat fuel -> (0 < fuel)%nat ->
  value base (digits fuel num base) = num.
Proof.
  intros Hb. revert num. induction fuel as [|f IH]; intros num Hn Hf; [lia|].
  cbn [digits]. unfold value. rewrite fold_left_app. fold (value base).
  assert (Hdm := Z.div_mod num base ltac:(lia)).
  destruct (Z.leb_spec base num); simpl.
  - assert (Hd := pow_div_lt num base f Hb ltac:(lia)).
    assert (1 <= num `div` base) by (apply Z.div_le_lower_bound; lia).
    assert (f <> 0%nat) by (intros ->; simpl in Hd; lia).
    fold (value base (digits f (num `div` base) base)). rewrite IH by lia. lia.
  - rewrite Z.mod_small by lia. lia.
Qed.

Lemma digits_range fuel num base : 2 <= base -> Forall (fun d => 0 <= d < base) (digits fuel num base).
Proof.
  intros Hb. revert num. induction fuel as [|f IH]; intros num; simpl; [done|].
  apply Forall_app. split; [destruct (base <=? num); auto|].
  apply Forall_singleton, Z.mod_pos_bound. lia.
Qed.

(** ** Printing on two states

    The printing functions use their state only through [putch], so two
    [putch]s that simulate each other give simulating printers.  The simulation
    is up to states that are not [ok] any more, and that nothing makes [ok]
    again: the second [putch] may stop there. *)

Section Sim.
  Context {S1 S2 : Type} (ok : S1 -> Prop) (R : S1 -> S2 -> Prop).

Definition grows {A} (m1 : M S1 A) : Prop :=
  forall s a s', m1 s = Ret (a, s') -> ok s' -> ok s.

Definition sim {A} (m1 : M S1 A) (m2 : M S2 A) : Prop :=
  grows m1 /\
  forall s1 s2 a s1', R s1 s2 -> m1 s1 = Ret (a, s1') -> ok s1' ->
    exists s2', m2 s2 = Ret (a, s2') /\ R s1' s2'.

Lemma sim_ret {A} (a : A) : sim (mret a) (mret a).
Proof.
  split; [by intros s b s' [= <- <-]|]. intros s1 s2 b s1' HR [= <- <-] _. by exists s2.
Qed.
Lemma sim_fault {A} : sim (A := A) fault fault.
Proof. by split. Qed.
Lemma sim_diverge {A} : sim (A := A) diverge diverge.
Proof. by split. Qed.
Lemma sim_defined b : sim (defined b) (defined b).
Proof. destruct b; [apply sim_ret|apply sim_fault]. Qed.
Lemma sim_lift_opt {A} (o : option A) : sim (lift_opt o) (lift_opt o).
Proof. destruct o; [apply sim_ret|apply sim_fault]. Qed.
Lemma sim_bind {A B} (m1 : M S1 A) m2 (k1 : A -> M S1 B) k2 :
  sim m1 m2 -> (forall a, sim (k1 a) (k2 a)) -> sim (m1 ≫= k1) (m2 ≫= k2).
Proof.
  intros [Hg Hm] Hk. split.
  - intros s b s'. unfold mbind, M_bind. destruct (m1 s) as [[a x]| | |] eqn:E; [|done..].
    intros Hb Hok. eapply Hg; [exact E|]. by eapply (Hk a).
  - intros s1 s2 b s1'. intros HR. unfold mbind, M_bind. destruct (m1 s1) as [[a x]| | |] eqn:E; [|done..].
    intros Hb Hok. destruct (Hk a) as [Hga Hka].
    destruct (Hm _ _ _ _ HR E (Hga _ _ _ Hb Hok)) as (x2 & -> & HR'). by eapply Hka.
Qed.

Context (putch1 : Z -> M S1 unit) (putch2 : Z -> M S2 unit).
Hypothesis Hput : forall c, sim (putch1 c) (putch2 c).

Ltac sim_step :=
  first
    [ apply sim_ret | apply sim_fault | apply sim_diverge | apply sim_defined
    | apply sim_lift_opt | apply Hput
    | apply sim_bind; [|intros ?]
    | match goal with |- sim (if ?b then _ else _) _ => destruct b end
    | match goal with |- sim (match ?x with _ => _ end) _ => destruct x end ].

Lemma sim_pad n c : sim (pad putch1 n c) (pad putch2 n c).
Proof. induction n as [|n IH]; simpl; [apply sim_ret|]. by sim_step; [sim_step|]. Qed.

Lemma sim_printnum fuel num base w c :
  sim (printnum putch1 fuel num base w c) (printnum putch2 fuel num base w c).
Proof.
  revert num w. induction fuel as [|f IH]; intros num w; simpl; [apply sim_diverge|].
  destruct (do_div num base). repeat (apply sim_pad || apply IH || sim_step).
Qed.

Lemma sim_puts p pr w b : sim (puts putch1 p pr w b) (puts putch2 p pr w b).
Proof.
  revert pr w. induction p as [|x p IH]; intros pr w; simpl; [apply sim_ret|].
  repeat (apply IH || sim_step).
Qed.

Lemma sim_put_string p e : sim (put_string putch1 p e) (put_string putch2 p e).
Proof. unfold put_string. cbv zeta. repeat (apply sim_puts || apply sim_pad || sim_step). Qed.

Lemma sim_put_decimal num e : sim (put_decimal putch1 num e) (put_decimal putch2 num e).
Proof. unfold put_decimal, number. repeat (apply sim_printnum || sim_step). Qed.

Lemma sim_foldr l (m1 : M S1 unit) (m2 : M S2 unit) :
  sim m1 m2 -> sim (foldr (fun c k => putch1 c;; k) m1 l) (foldr (fun c k => putch2 c;; k) m2 l).
Proof. intros Hm. induction l as [|c l IH]; simpl; [done|]. by sim_step; [sim_step|]. Qed.

Lemma sim_put_error err : sim (put_error putch1 err) (put_error putch2 err).
Proof.
  unfold put_error. cbv zeta. sim_step; [sim_step|].
  destruct (if MAXERROR <? _ then _ else _); [apply sim_put_string|].
  apply sim_foldr, sim_put_decimal.
Qed.

Lemma sim_width_loop fuel fmt i p ch :
  sim (width_loop fuel fmt i p ch) (width_loop fuel fmt i p ch).
Proof.
  revert i p ch. induction fuel as [|f IH]; intros; simpl; [apply sim_diverge|].
  repeat (apply IH || sim_step).
Qed.

Lemma sim_backup fmt i : sim (backup fmt i) (backup fmt i).
Proof. induction i as [|i IH]; simpl; repeat (apply IH || sim_step). Qed.

Lemma sim_conversion fmt i ch e ap :
  sim (conversion putch1 fmt i ch e ap) (conversion putch2 fmt i ch e ap).
Proof.
  unfold conversion, getint, getuint, va_int, va_str, number.
  repeat (apply sim_put_error || apply sim_put_string || apply sim_put_decimal
    || apply sim_printnum || apply sim_width_loop || apply sim_backup || sim_step).
Qed.

Lemma sim_loop fuel fmt i st ap :
  sim (vprintfmt_loop putch1 fuel fmt i st ap) (vprintfmt_loop putch2 fuel fmt i st ap).
Proof.
  revert i st ap. induction fuel as [|f IH]; intros i st ap; simpl; [apply sim_diverge|].
  destruct st; repeat (apply sim_conversion || apply IH || sim_step).
Qed.

Lemma sim_vprintfmt fmt ap : sim (vprintfmt putch1 fmt ap) (vprintfmt putch2 fmt ap).
Proof. apply sim_loop. Qed.

End Sim.

(** ** The buffer *)

Section Buffer.
  Context (m : mem) (p : Z) (size : Z).
  Hypothesis (Hsize : 1 <= size) (Halloc : allocated m p (Z.to_nat size)).

(** The buffer after the characters [out] were printed. *)
Definition holds (out : list Z) (b : sprintbuf) : Prop :=
  let n := Z.to_nat (size - 1) in
  b = mk_sb (p + Z.of_nat (length (take n out))) (p + size - 1) (Z.of_nat (length out))
        (write_bytes m p (take n out)).

(** The count is an [int]. *)
Definition counted (out : list Z) : Prop := Z.of_nat (length out) < 0x80000000.

Lemma sprintputch_holds c : sim counted holds (emit c) (sprintputch c).
Proof.
  split.
  { intros out [] out' [= <-]. unfold counted. rewrite length_app. simpl. lia. }
  intros out b [] out' -> [= <-] Hc. unfold counted in Hc. rewrite length_app in Hc. simpl in Hc.
  unfold holds, sprintputch, mbind, M_bind, modify, get, when. cbn [cnt].
  replace (Z.of_nat (length out) <? 0x7fffffff) with true by lia. simpl.
  rewrite length_app, !length_take. simpl.
  set (n := Z.to_nat (size - 1)).
  destruct (Z.ltb_spec (p + Z.of_nat (n `min` length out)) (p + size - 1)).
  - assert (Hlt : (length out < n)%nat) by lia.
    unfold on_smem. simpl. rewrite !take_ge, !Nat.min_r by (rewrite ?length_app; simpl; lia).
    rewrite store_eq.
    + eexists. split; [done|]. rewrite write_bytes_app. simpl.
      f_equal; rewrite ?length_app; simpl; lia.
    + apply (allocated_write m p out p (Z.to_nat size) Halloc). lia.
  - eexists. split; [done|]. rewrite take_app_le by lia. f_equal; rewrite ?length_take, ?length_app; simpl; unfold n in *; lia.
Qed.

Lemma holds_init : holds [] (mk_sb p (p + size - 1) 0 m).
Proof. unfold holds. rewrite take_nil. simpl. by rewrite Z.add_0_r. Qed.

Lemma vsnprintf_eq fmt ap out :
  p <> 0 -> counted out -> vprintfmt emit fmt ap [] = Ret (tt, out) ->
  vsnprintf p size fmt ap m
  = Ret (Z.of_nat (length out), write_bytes m p (take (Z.to_nat (size - 1)) out ++ [0])).
Proof.
  intros Hp Hc He. unfold vsnprintf. simpl.
  replace ((p =? 0) || _) with false by lia.
  destruct (sim_vprintfmt counted holds emit sprintputch sprintputch_holds fmt ap) as [_ Hs].
  destruct (Hs _ _ _ _ holds_init He Hc) as (b & Hb & ->).
  unfold mbind, M_bind. rewrite Hb. unfold get, on_smem. simpl.
  rewrite store_eq.
  - by rewrite write_bytes_app.
  - apply (allocated_write m p _ p (Z.to_nat size) Halloc). rewrite length_take. lia.
Qed.

End Buffer.

(** ** Termination *)

Section Terminates.
  Context {St : Type} (I : St -> Prop) (putch : Z -> M St unit).
  Hypothesis Hput : forall c, keeps I (putch c) (fun _ => True).

Lemma pad_keeps n c : keeps I (pad putch n c) (fun _ => True).
Proof.
  induction n as [|n IH]; simpl; [by apply keeps_ret|].
  eapply keeps_bind; [apply Hput|done].
Qed.

Lemma digit_keeps d : keeps I (x ← lift_opt (digits16 !! d); putch x) (fun _ => True).
Proof. eapply keeps_bind; [apply keeps_lift_opt|]. intros. apply Hput. Qed.

Lemma printnum_keeps fuel num base w c :
  printable num base -> num < 2 ^ Z.of_nat fuel -> (0 < fuel)%nat ->
  keeps I (printnum putch fuel num base w c) (fun _ => True).
Proof.
  revert num w. induction fuel as [|f IH]; intros num w Hp Hn Hf; [lia|].
  assert (Hb := printable_base _ _ Hp). cbn [printnum]. rewrite do_div_eq by done.
  eapply keeps_bind; [|intros; apply digit_keeps].
  destruct (Z.leb_spec base num); [|apply pad_keeps].
  assert (Hd := pow_div_lt num base f ltac:(lia) Hn).
  assert (1 <= num `div` base) by (apply Z.div_le_lower_bound; lia).
  apply IH; [by apply printable_div|done|]. destruct f; [simpl in Hd|]; lia.
Qed.

Lemma do_div10_u32 num : is_u32 (do_div num 10).2.
Proof. unfold do_div. simpl. apply u32_range. Qed.

Lemma number_keeps num base e :
  0 <= num < 2 ^ 64 -> base = 8 \/ base = 10 \/ base = 16 ->
  keeps I (number putch num base e) (fun _ => True).
Proof.
  intros Hn Hb. unfold number.
  destruct (decide (base = 10 /\ 2 ^ 32 <= num)) as [[-> Hbig]|Hsmall].
  - assert (Hf : exists f, f = 63%nat) by eauto. destruct Hf as [f Hf].
    change 64%nat with (S 63). rewrite <- Hf. cbn [printnum]. assert (Hq := do_div10_u32 num).
    destruct (do_div num 10) as [d q]. simpl in Hq. unfold is_u32 in Hq.
    eapply keeps_bind; [|intros; apply digit_keeps].
    destruct (10 <=? num); [|apply pad_keeps]. subst f. apply printnum_keeps; [|lia|lia].
    split; [lia|]. left. lia.
  - apply printnum_keeps; [|lia|lia]. split; [lia|]. lia.
Qed.

Lemma u64_range z : 0 <= u64 z < 2 ^ 64.
Proof. change (2 ^ 64) with 0x10000000000000000. width. Qed.

Lemma puts_keeps p pr w b : keeps I (puts putch p pr w b) (fun _ => True).
Proof.
  revert pr w. induction p as [|x p IH]; intros pr w; simpl; [by apply keeps_ret|].
  apply keeps_if; [|by apply keeps_ret].
  eapply keeps_bind; [|intros; apply IH]. apply keeps_if; apply Hput.
Qed.

Lemma put_string_keeps p e : keeps I (put_string putch p e) (fun _ => True).
Proof.
  unfold put_string. cbv zeta. eapply keeps_bind; [|intros; eapply keeps_bind;
    [apply puts_keeps|intros; apply pad_keeps]].
  apply keeps_if; [|by apply (keeps_ret I _ (fun _ => True))].
  eapply keeps_bind; [apply pad_keeps|]. intros. by apply keeps_ret.
Qed.

Lemma put_decimal_keeps num e : keeps I (put_decimal putch num e) (fun _ => True).
Proof.
  unfold put_decimal. apply keeps_if; [|apply number_keeps; [apply u64_range|auto]].
  eapply keeps_bind; [apply Hput|]. intros. eapply keeps_bind; [apply keeps_defined|].
  intros. apply number_keeps; [apply u64_range|auto].
Qed.

Lemma put_error_keeps err : keeps I (put_error putch err) (fun _ => True).
Proof.
  unfold put_error. cbv zeta. eapply keeps_bind; [apply keeps_defined|]. intros.
  destruct (if MAXERROR <? _ then _ else _); [apply put_string_keeps|].
  generalize (str "error "%string). intros l. induction l as [|c l IH]; simpl;
    [apply put_decimal_keeps|]. eapply keeps_bind; [apply Hput|]. auto.
Qed.

(** An argument's value is within its width. *)
Lemma getuint_keeps ap lf : keeps I (getuint ap lf) (fun r => 0 <= r.1 < 2 ^ 64).
Proof.
  unfold getuint. destruct ap as [|[z|z|o] ap]; try by apply keeps_fault.
  all: apply keeps_if; try apply keeps_fault; apply keeps_ret; simpl.
  - assert (H := u32_range z). unfold is_u32 in H. lia.
  - apply u64_range.
Qed.

Definition no_pct (fmt : list Z) (i j : nat) : Prop :=
  forall k, (i <= k < j)%nat -> fmt_at fmt k <> c_percent.

Lemma no_pct_S fmt i j : no_pct fmt i j -> fmt_at fmt j <> c_percent -> no_pct fmt i (S j).
Proof. intros Hn Hj k Hk. destruct (decide (k = j)) as [->|]; [done|]. apply Hn. lia. Qed.

Lemma fmt_at_lt fmt i : fmt_at fmt i <> 0 -> (i < length fmt)%nat.
Proof.
  unfold fmt_at. intros H. destruct (fmt !! i) eqn:E; [|done]. by eapply lookup_lt_Some.
Qed.

Lemma width_loop_keeps fuel fmt i p ch :
  (length fmt - i < fuel)%nat ->
  keeps I (width_loop fuel fmt i p ch) (fun r => (i <= r.2)%nat /\ no_pct fmt i r.2).
Proof.
  revert i p ch. induction fuel as [|f IH]; intros i p ch Hf; [lia|]. simpl.
  eapply keeps_bind; [apply keeps_defined|]. intros [] _.
  destruct ((_ <? _) || _) eqn:E.
  - apply keeps_ret. split; [done|]. intros k Hk. simpl in Hk. lia.
  - apply orb_false_iff in E as [E1%Z.ltb_ge E2%Z.ltb_ge].
    assert (Hne : fmt_at fmt i <> 0 /\ fmt_at fmt i <> c_percent).
    { unfold c_zero, c_percent in *. split; intros H; rewrite H in E1; by destruct (E1 eq_refl). }
    destruct Hne as [H0 Hp]. apply fmt_at_lt in H0.
    eapply keeps_mono; [apply IH; lia|]. intros r [Hr Hn]. split; [lia|].
    intros k Hk. destruct (decide (k = i)) as [->|]; [done|]. apply Hn. lia.
Qed.

(** An escape that began after the '%' at [p - 1] and is at [k]. *)
Definition escape_at (fmt : list Z) (p k : nat) : Prop :=
  (1 <= p <= k)%nat /\ fmt_at fmt (p - 1) = c_percent /\ no_pct fmt p k.

Lemma backup_keeps fmt p k : escape_at fmt p k -> keeps I (backup fmt k) (fun j => j = p).
Proof.
  intros (Hp & Hpct & Hn). revert Hp Hn. induction k as [|k IH]; intros Hp Hn; [lia|]. simpl.
  destruct (Z.eqb_spec (fmt_at fmt k) c_percent).
  - apply keeps_ret. destruct (decide (p = S k)) as [->|]; [done|]. destruct (Hn k); [lia|done].
  - assert (p <> S k) by (intros ->; simpl in Hpct; by rewrite Nat.sub_0_r in Hpct).
    apply IH; [lia|]. intros j Hj. apply Hn. lia.
Qed.

(** Where a conversion of the character at [k] leads. *)
Definition leads (fmt : list Z) (p k : nat) (o : outcome) : Prop :=
  match o with
  | Reswitch i _ _ => (k < i)%nat /\ no_pct fmt p i /\ (k < length fmt)%nat
  | Done j _ => (j = S k /\ (k < length fmt)%nat) \/ (j = p /\ fmt_at fmt k <> c_percent)
  end.

Lemma leads_reswitch fmt p k e ap :
  escape_at fmt p k -> fmt_at fmt k <> c_percent -> fmt_at fmt k <> 0 ->
  leads fmt p k (Reswitch (S k) e ap).
Proof.
  intros (Hp & _ & Hn) Hk H0. split_and!; [lia|by apply no_pct_S|by apply fmt_at_lt].
Qed.

Ltac conv_arm H :=
  first
    [ match goal with |- keeps _ (_ ≫= _) _ => eapply keeps_bind end;
      [ first [ apply Hput | apply put_error_keeps | apply put_string_keeps
              | apply put_decimal_keeps | apply getuint_keeps
              | unfold va_int, va_str, getint; repeat case_match; try apply keeps_fault;
                by apply (keeps_ret I _ (fun _ => True))
              | apply number_keeps; [first [done | apply u64_range]|auto] ]
      | intros ? ? ]
    | apply keeps_ret; first
        [ apply leads_reswitch; [assumption|rewrite H; unfold c_percent; lia..]
        | left; split; [done|]; apply fmt_at_lt; rewrite H; lia ] ].

Lemma conversion_keeps fmt p k e ap :
  escape_at fmt p k ->
  keeps I (conversion putch fmt (S k) (fmt_at fmt k) e ap) (leads fmt p k).
Proof.
  intros He. unfold conversion.
  remember (fmt_at fmt k) as ch eqn:Hch. symmetry in Hch.
  repeat match goal with
  | |- keeps _ (if ?ch =? ?c then _ else _) _ =>
      destruct (Z.eqb_spec ch c) as [Hc|]; [rewrite Hc in Hch; clear Hc; by repeat conv_arm Hch|]
  | |- keeps _ (if (49 <=? ?ch) && _ then _ else _) _ =>
      destruct ((49 <=? ch) && _) eqn:Hdig
  end.
  - eapply keeps_bind; [apply width_loop_keeps; lia|]. intros [q i] [Hi Hn]. apply keeps_ret.
    simpl in *. split_and!; [lia| |apply fmt_at_lt; lia].
    intros j Hj. destruct (decide (j < k)%nat).
    + apply He. lia.
    + destruct (decide (j = k)) as [->|]; [rewrite Hch; unfold c_percent; lia|]. apply Hn. lia.
  - eapply keeps_bind; [apply Hput|]. intros _ _. simpl. rewrite Nat.sub_0_r.
    eapply keeps_bind; [by apply backup_keeps|]. intros j ->. apply keeps_ret. right.
    split; [done|]. by rewrite Hch.
Qed.

(** The characters before the next '%' (or the end). *)
Fixpoint run_length (l : list Z) : nat :=
  match l with
  | [] => 0
  | c :: l => if c =? c_percent then 0 else S (run_length l)
  end.

Definition plain_cost (fmt : list Z) (i : nat) : nat :=
  let l := drop i fmt in length l + (length l - run_length l) + 1.
Definition escape_cost (fmt : list Z) (p k : nat) : nat :=
  (length fmt - p) + (length fmt - k) + 2.

Lemma run_length_le l : (run_length l <= length l)%nat.
Proof. induction l as [|c l IH]; simpl; [lia|]. destruct (c =? _); lia. Qed.

Lemma plain_cost_S fmt i :
  (i < length fmt)%nat -> fmt_at fmt i <> c_percent ->
  plain_cost fmt i = S (plain_cost fmt (S i)).
Proof.
  intros Hi Hn. apply lookup_lt_is_Some in Hi as [c Hc]. unfold plain_cost, fmt_at in *.
  rewrite Hc in Hn. simpl in Hn. rewrite (drop_S _ c) by done. simpl.
  replace (c =? c_percent) with false by lia. assert (H := run_length_le (drop (S i) fmt)). lia.
Qed.

Lemma plain_cost_no_pct fmt i j :
  (i <= j)%nat -> no_pct fmt i j ->
  (plain_cost fmt i <= (length fmt - i) + (length fmt - j) + 1)%nat.
Proof.
  intros Hij. remember (j - i)%nat as d eqn:Hd. revert i Hij Hd.
  induction d as [|d IH]; intros i Hij Hd Hn.
  - unfold plain_cost. rewrite length_drop. lia.
  - destruct (decide (i < length fmt)%nat).
    + rewrite plain_cost_S; [|done|apply Hn; lia].
      assert (H := IH (S i) ltac:(lia) ltac:(lia)). 
      assert (no_pct fmt (S i) j) by (intros k Hk; apply Hn; lia). specialize (H H0). lia.
    + unfold plain_cost. rewrite drop_ge by lia. simpl. lia.
Qed.

Lemma loop_keeps fuel fmt i st ap :
  match st with
  | None => (plain_cost fmt i <= fuel)%nat
  | Some _ => exists p, escape_at fmt p i /\ (escape_cost fmt p i <= fuel)%nat
  end ->
  keeps I (vprintfmt_loop putch fuel fmt i st ap) (fun _ => True).
Proof.
  revert i st ap. induction fuel as [|f IH]; intros i st ap Hm.
  { destruct st as [e|]; [destruct Hm as (p & _ & Hm); unfold escape_cost in Hm; lia|].
    unfold plain_cost in Hm. lia. }
  cbn [vprintfmt_loop]. destruct st as [e|].
  - destruct Hm as (p & He & Hm). rewrite Nat.add_1_r. unfold escape_cost in Hm.
    eapply keeps_bind; [by apply (conversion_keeps fmt p)|]. destruct He as (Hp & Hpct & Hn).
    intros [i' e' ap'|j ap'] Hl; simpl in Hl; apply IH.
    + exists p. destruct Hl as (Hi & Hn' & Hk). split; [split_and!; (done || lia)|].
      unfold escape_cost. lia.
    + destruct Hl as [[-> Hk]|[-> Hk]].
      * unfold plain_cost. rewrite length_drop. lia.
      * etransitivity; [apply (plain_cost_no_pct fmt p (S i)); [lia|by apply no_pct_S]|]. lia.
  - destruct (Z.eqb_spec (fmt_at fmt i) c_percent) as [Hpct|Hpct]; simpl.
    + apply IH. assert (Hlt : (i < length fmt)%nat).
      { apply fmt_at_lt. rewrite Hpct. unfold c_percent. lia. }
      exists (i + 1)%nat. split.
      * split_and!; [lia|lia| |intros k Hk; lia]. by replace (i + 1 - 1)%nat with i by lia.
      * apply lookup_lt_is_Some in Hlt as [c Hc]. unfold fmt_at in Hpct.
        rewrite Hc in Hpct. simpl in Hpct. unfold plain_cost, escape_cost in *.
        rewrite (drop_S _ c), Hpct in Hm by done. simpl in Hm. rewrite length_drop in Hm.
        apply lookup_lt_Some in Hc. lia.
    + destruct (Z.eqb_spec (fmt_at fmt i) 0) as [H0|H0]; [by apply keeps_ret|].
      eapply keeps_bind; [apply Hput|]. intros _ _. apply IH. rewrite Nat.add_1_r.
      rewrite plain_cost_S in Hm by (done || by apply fmt_at_lt). lia.
Qed.

End Terminates.

(** ** Decimal numbers and back *)

Definition decimal (n : Z) : list Z :=
  (if n <? 0 then [c_minus] else []) ++ map digit_char (digits 64 (Z.abs n) 10).

Lemma digits_length fuel num base : (length (digits fuel num base) <= fuel)%nat.
Proof.
  revert num. induction fuel as [|f IH]; intros num; simpl; [lia|]. rewrite length_app. simpl.
  destruct (base <=? num); [specialize (IH (num `div` base)); lia|simpl; lia].
Qed.

Lemma decimal_counted n : counted (decimal n).
Proof.
  unfold counted, decimal. rewrite length_app, length_map.
  pose proof (digits_length 64 (Z.abs n) 10). destruct (n <? 0); simpl length at 1; lia.
Qed.

Lemma put_decimal_emit n out :
  is_s32 n -> put_decimal emit n esc0 out = Ret (tt, out ++ decimal n).
Proof.
  intros Hn. unfold put_decimal, decimal, number, esc0, mbind, M_bind, emit, modify.
  assert (Hp : forall o, printnum emit 64 (Z.abs n) 10 (-1) c_space o
    = Ret (tt, o ++ map digit_char (digits 64 (Z.abs n) 10))).
  { intros o. rewrite printnum_emit; [|split; [lia|left; unfold is_s32 in *; lia]|unfold is_s32 in *; lia|lia].
    by replace (Z.to_nat (-1 - _)) with 0%nat by lia. }
  unfold emit, modify in Hp. cbn [padc width]. destruct (Z.ltb_spec n 0).
  - replace (negb (n =? _)) with true by (unfold is_s32 in *; lia). cbn [defined mret M_ret].
    replace (u64 (- n)) with (Z.abs n) by (unfold is_s32 in *; unfold u64; rewrite Z.mod_small; lia).
    rewrite Hp. by rewrite <- app_assoc.
  - replace (u64 n) with (Z.abs n) by (unfold is_s32 in *; unfold u64; rewrite Z.mod_small; lia).
    by rewrite Hp.
Qed.

Lemma conversion_d {St} (putch : Z -> M St unit) fmt i e ap :
  conversion putch fmt i 100 e ap
  = (r ← getint ap (lflag e); put_decimal putch r.1 e;; mret (Done i r.2)).
Proof. done. Qed.

Lemma loop_escape {St} (putch : Z -> M St unit) f fmt i e ap s :
  vprintfmt_loop putch (S f) fmt i (Some e) ap s =
  (o ← conversion putch fmt (i + 1) (fmt_at fmt i) e ap;
   match o with
   | Reswitch i e ap => vprintfmt_loop putch f fmt i (Some e) ap
   | Done i ap => vprintfmt_loop putch f fmt i None ap
   end) s.
Proof. done. Qed.

Lemma vprintfmt_d n :
  is_s32 n -> vprintfmt emit (str "%d"%string) [VInt n] [] = Ret (tt, decimal n).
Proof.
  intros Hn. change (str "%d"%string) with [37; 100].
  transitivity (vprintfmt_loop emit 6 [37; 100] 1 (Some esc0) [VInt n] []); [done|].
  rewrite loop_escape. change (fmt_at [37; 100] 1) with 100. rewrite conversion_d.
  unfold mbind, M_bind. simpl (getint _ _ _). cbv iota beta. cbn [fst snd].
  unfold mret at 1, M_ret at 1. cbv iota beta. cbn [fst snd]. rewrite s32_id, put_decimal_emit by done. done.
Qed.

Lemma digit_char10 d : 0 <= d < 10 -> digit_char d = 48 + d.
Proof.
  intros Hd. assert (H : d = 0 \/ d = 1 \/ d = 2 \/ d = 3 \/ d = 4 \/ d = 5 \/ d = 6 \/ d = 7
    \/ d = 8 \/ d = 9) by lia.
  repeat (destruct H as [->|H]; [done|]). by subst.
Qed.

Lemma value_mono base ds v :
  1 <= base -> 0 <= v -> Forall (fun d => 0 <= d < base) ds ->
  v <= fold_left (fun v d => v * base + d) ds v.
Proof.
  intros Hb Hv Hds. revert v Hv. induction Hds as [|d ds Hd Hds IH]; intros v Hv; simpl; [lia|].
  assert (Hi := IH (v * base + d) ltac:(nia)). nia.
Qed.

Lemma digits_loop_eq ds m fuel s v :
  bytes m s (map digit_char ds ++ [0]) -> Forall (fun d => 0 <= d < 10) ds ->
  (length ds < fuel)%nat -> 0 <= v -> fold_left (fun v d => v * 10 + d) ds v < 0x80000000 ->
  Strings.digits_loop fuel s 10 v m
  = Ret ((s + Z.of_nat (length ds), fold_left (fun v d => v * 10 + d) ds v), m).
Proof.
  intros Hs Hds. revert fuel s v Hs. induction Hds as [|d ds Hd Hds IH];
    intros [|f] s v Hs Hf Hv Hlt; simpl in Hf; try lia; cbn [Strings.digits_loop];
    unfold load_char, mbind, M_bind; destruct Hs as [Hb Hs]; rewrite (load_eq _ _ _ Hb).
  - cbn. by rewrite Z.add_0_r.
  - cbn [mret M_ret]. rewrite digit_char10 by done.
    replace (s8 (48 + d)) with (48 + d) by (unfold s8; rewrite Z.mod_small; lia).
    unfold Strings.digit_of. replace ((48 <=? 48 + d) && _) with true by lia.
    replace (10 <=? _) with false by lia. cbv zeta. simpl in Hlt.
    replace (48 + d - 48) with d by lia.
    assert (Hm := value_mono 10 ds (v * 10 + d) ltac:(lia) ltac:(lia) Hds).
    replace (defined _) with (defined (S := gmap Z Z) true) by (f_equal; lia). simpl.
    rewrite IH by (done || lia). do 3 f_equal. lia.
Qed.

Lemma decimal_chars n : Forall (fun b => 0 < b < 256) (decimal n).
Proof.
  unfold decimal. apply Forall_app. split; [destruct (n <? 0); repeat constructor; unfold c_minus; lia|].
  apply Forall_map. eapply Forall_impl; [apply (digits_range 64 (Z.abs n) 10); lia|].
  intros d Hd. simpl in *. rewrite digit_char10 by lia. lia.
Qed.

Lemma digits_nonempty fuel num base : digits (S fuel) num base <> [].
Proof. cbn [digits]. intros H%app_eq_nil. naive_solver. Qed.

(** [strtol] once the sign is read: the first digit is at [s]. *)
Lemma strtol_tail m a s (neg : bool) n ds :
  bytes m s (map digit_char ds ++ [0]) -> Forall (fun d => 0 <= d < 10) ds ->
  (length ds < size m)%nat -> fold_left (fun v d => v * 10 + d) ds 0 = n -> n < 0x80000000 ->
  ds <> [] -> a = s + Z.of_nat (length ds) ->
  (c0 ← load_char s;
   hex ← (if ((10 =? 0) || (10 =? 16)) && (c0 =? 48)
          then c1 ← load_char (s + 1); mret (c1 =? 120) else mret false);
   let '(s, base) :=
     if hex : bool then (s + 2, 16)
     else if (10 =? 0) && (c0 =? 48) then (s + 1, 8)
     else if 10 =? 0 then (s, 10)
     else (s, 10) in
   r ← Strings.digits_loop (S (size m)) s base 0;
   let '(s, val) := r in
   mret (if neg then - val else val, s)) m
  = Ret ((if neg then - n else n, a), m).
Proof.
  intros Hb Hds Hz Hv Hn Hne ->. destruct ds as [|d ds]; [done|].
  destruct Hb as [Hb0 Hb]. unfold load_char, mbind, M_bind. rewrite (load_eq _ _ _ Hb0).
  simpl ((10 =? 0) || (10 =? 16)). cbv iota beta. simpl (10 =? 0). cbn [mret M_ret andb].
  cbv iota. rewrite (digits_loop_eq (d :: ds)); [by rewrite Hv|by split|done|lia|lia|by rewrite Hv].
Qed.

Lemma char_digit d : 0 <= d < 10 -> s8 (digit_char d) = 48 + d.
Proof. intros Hd. rewrite digit_char10 by done. unfold s8. rewrite Z.mod_small; lia. Qed.

Lemma strtol_decimal m a n :
  -0x80000000 < n < 0x80000000 -> cstr m a (decimal n) ->
  Strings.strtol a 10 m = Ret ((n, a + Z.of_nat (length (decimal n))), m).
Proof.
  intros Hn Hc. assert (Hz := cstr_size _ _ _ Hc). destruct Hc as [Hb _].
  unfold decimal in *. rewrite length_app, length_map in *.
  assert (Hds : Forall (fun d => 0 <= d < 10) (digits 64 (Z.abs n) 10)) by (apply digits_range; lia).
  assert (Hv : fold_left (fun v d => v * 10 + d) (digits 64 (Z.abs n) 10) 0 = Z.abs n)
    by (apply (digits_value 64); lia).
  assert (Hne := digits_nonempty 63 (Z.abs n) 10 : digits 64 _ _ <> []).
  generalize dependent (digits 64 (Z.abs n) 10). intros ds Hb Hz Hds Hv Hne.
  rewrite <- app_assoc in Hb.
  assert (Hlc : forall c, m !! a = Some c -> load_char a m = Ret (s8 c, m)).
  { intros c Hc. unfold load_char. by rewrite (bind_Ret _ _ _ _ _ (load_eq _ _ _ Hc)). }
  assert (Hsk : forall c, m !! a = Some c -> s8 c <> 32 -> s8 c <> 9 ->
    Strings.skip_blanks (S (size m)) a m = Ret (a, m)).
  { intros c Hc ??. cbn [Strings.skip_blanks]. rewrite (bind_Ret _ _ _ _ _ (Hlc _ Hc)).
    by replace ((s8 c =? 32) || _) with false by lia. }
  unfold Strings.strtol. erewrite bind_Ret by done. cbv zeta.
  destruct (Z.ltb_spec n 0); simpl (length _) in *; cbn [app] in Hb.
  - destruct Hb as [Hb0 Hb]. erewrite bind_Ret by by apply (Hsk _ Hb0).
    erewrite bind_Ret by by apply (Hlc _ Hb0). erewrite bind_Ret by done.
    etransitivity; [apply (strtol_tail m (a + 1 + Z.of_nat (length ds)) (a + 1) true (Z.abs n) ds);
      (done || lia)|].
    do 2 f_equal. f_equal; lia.
  - destruct ds as [|d ds]; [done|]. assert (Hd := proj1 (proj1 (Forall_cons _ _ _) Hds)).
    simpl in Hd. assert (Hc := char_digit d Hd). assert (Hb' := Hb). destruct Hb' as [Hb0 _].
    erewrite bind_Ret by (apply (Hsk _ Hb0); lia).
    erewrite bind_Ret by by apply (Hlc _ Hb0). rewrite Hc.
    replace (48 + d =? 43) with false by lia. replace (48 + d =? 45) with false by lia.
    erewrite bind_Ret by done.
    etransitivity; [apply (strtol_tail m (a + Z.of_nat (length (d :: ds))) a false (Z.abs n)
      (d :: ds)); (done || lia)|].
    do 2 f_equal. f_equal; lia.
Qed.

(** ** Properties *)

(** The shift-and-add division of [do_div] is division: on every 32-bit
    number, base 10 gives the exact quotient and remainder. *)
Theorem do_div_correct n : is_u32 n -> do_div n 10 = (n `mod` 10, n `div` 10).
Proof. apply do_div10. Qed.

(** C7: [vprintfmt] terminates on every format and every argument list: it
    never runs out of the [2 * length + 3] passes of its loop, and any
    property of the output state that [putch] keeps holds when it returns. *)
Theorem vprintfmt_terminates {St} (I : St -> Prop) (putch : Z -> M St unit) fmt ap :
  (forall c, keeps I (putch c) (fun _ => True)) ->
  keeps I (vprintfmt putch fmt ap) (fun _ => True).
Proof.
  intros Hput. apply loop_keeps; [done|]. unfold plain_cost. rewrite drop_0. lia.
Qed.

(** C6: [vsnprintf] refines printing to an unbounded stream: when the stream
    receives the characters [out], fewer than 2^31 so that an [int] can count
    them, the buffer receives their first [size - 1] and a NUL, nothing outside
    the buffer changes, and the number of characters of [out] is returned. *)
Theorem vsnprintf_refines m p size fmt ap out :
  p <> 0 -> 1 <= size -> allocated m p (Z.to_nat size) ->
  vprintfmt emit fmt ap [] = Ret (tt, out) -> Z.of_nat (length out) < 0x80000000 ->
  exists m', vsnprintf p size fmt ap m = Ret (Z.of_nat (length out), m') /\
    bytes m' p (take (Z.to_nat (size - 1)) out ++ [0]) /\
    (forall i, i < p \/ p + size <= i -> m' !! i = m !! i).
Proof.
  intros Hp Hs Ha He Hc. eexists. split; [by apply vsnprintf_eq|].
  split; [apply bytes_write|]. intros i Hi. apply write_bytes_out.
  rewrite length_app, length_take. simpl. lia.
Qed.

(** A number survives the round trip through text: [snprintf] with "%d"
    into a large enough buffer, then [strtol] in base 10, gives it back, for
    every [int] but the least one. *)
Theorem snprintf_strtol m p size n :
  p <> 0 -> allocated m p (Z.to_nat size) -> Z.of_nat (length (decimal n)) < size ->
  -0x80000000 < n < 0x80000000 ->
  exists m', vsnprintf p size (str "%d"%string) [VInt n] m
             = Ret (Z.of_nat (length (decimal n)), m') /\
    Strings.strtol p 10 m' = Ret ((n, p + Z.of_nat (length (decimal n))), m').
Proof.
  intros Hp Ha Hl Hn. eexists. split.
  - apply vsnprintf_eq; [lia|done|done|by apply decimal_counted|]. apply vprintfmt_d. unfold is_s32. lia.
  - apply strtol_decimal; [done|]. rewrite take_ge by lia.
    apply StringsSpec.cstr_write, decimal_chars.
Qed.

(** ** Witnesses *)

Lemma do_div_correct_witness : do_div 0xfffffffb 10 = (1, 429496729).
Proof. exact (do_div_correct 0xfffffffb ltac:(width)). Defined.

(** A larger number is not divided: the quotient is computed in 32 bits, and
    the remainder indexes the digit string out of its range. *)
Lemma do_div_above_32_bits :
  do_div 10000000000 10 = (536870914, 516816179).
Proof. by vm_compute. Qed.

Lemma vprintfmt_terminates_witness :
  keeps (fun _ => True) (vprintfmt emit (str "%5%-%q%"%string) []) (fun _ => True).
Proof.
  apply (vprintfmt_terminates (fun _ => True) emit). intros c out _. by split.
Defined.

Definition demo_buffer : mem := write_bytes ∅ 100 (replicate 16 7).

Lemma demo_buffer_allocated : allocated demo_buffer 100 16.
Proof. exact (bytes_allocated _ _ _ (bytes_write ∅ 100 (replicate 16 7))). Qed.

Lemma vsnprintf_refines_witness :
  exists m', vsnprintf 100 4 (str "ab%dc"%string) [VInt 42] demo_buffer = Ret (5, m') /\
    bytes m' 100 (str "ab4"%string ++ [0]).
Proof.
  destruct (vsnprintf_refines demo_buffer 100 4 (str "ab%dc"%string) [VInt 42]
    (str "ab42c"%string)) as (m' & Hr & Hb & _);
    [done | lia | eapply allocated_mono; [|exact demo_buffer_allocated]; lia | by vm_compute | by vm_compute |].
  exists m'. split; [exact Hr|]. exact Hb.
Defined.

Lemma snprintf_strtol_witness :
  exists m', vsnprintf 100 16 (str "%d"%string) [VInt (-2015)] demo_buffer = Ret (5, m') /\
    Strings.strtol 100 10 m' = Ret ((-2015, 105), m').
Proof.
  destruct (snprintf_strtol demo_buffer 100 16 (-2015)) as (m' & Hr & Hs);
    [done | exact demo_buffer_allocated | by vm_compute | lia |].
  exists m'. split; [exact Hr|]. exact Hs.
Defined.

(** The '-' flag pads numbers on the left, with minus signs. *)
Lemma minus_flag_pads_left :
  vprintfmt emit (str "%-5d"%string) [VInt 42] [] = Ret (tt, str "---42"%string).
Proof. by vm_compute. Qed.

End PrintfmtSpec.
