(* ===== verification/Lists.v ===== *)
(** The intrusive doubly linked lists of src/ucore_OS/libs/list.h on a heap of
    entries, and their refinement to lists: a head and the sequence of entries
    reached from it.  The allocator, the scheduler, the wait queues and the
    memory areas keep their lists in this form; their models hold the
    sequences. *)

From S2P Require Import Prelude.

Module Lists.

(** [struct list_entry], by address. *)
Record list_entry := mk_entry { prev : Z; next : Z }.
Abbreviation heap := (gmap Z list_entry).

Definition load_next (e : Z) : M heap Z := fun h =>
  match h !! e with Some n => Ret (next n, h) | None => Fault end.
Definition load_prev (e : Z) : M heap Z := fun h =>
  match h !! e with Some n => Ret (prev n, h) | None => Fault end.
Definition store_next (e v : Z) : M heap unit := fun h =>
  match h !! e with Some n => Ret (tt, <[e := mk_entry (prev n) v]> h) | None => Fault end.
Definition store_prev (e v : Z) : M heap unit := fun h =>
  match h !! e with Some n => Ret (tt, <[e := mk_entry v (next n)]> h) | None => Fault end.

Definition list_init (elm : Z) : M heap unit := store_next elm elm;; store_prev elm elm.

Definition __list_add (elm prev next : Z) : M heap unit :=
  store_prev next elm;; store_next prev elm;;
  store_next elm next;; store_prev elm prev.

Definition __list_del (prev next : Z) : M heap unit :=
  store_next prev next;; store_prev next prev.

Definition list_add_before (listelm elm : Z) : M heap unit :=
  p ← load_prev listelm; __list_add elm p listelm.

Definition list_add_after (listelm elm : Z) : M heap unit :=
  n ← load_next listelm; __list_add elm listelm n.

Definition list_add (listelm elm : Z) : M heap unit := list_add_after listelm elm.

Definition list_del (listelm : Z) : M heap unit :=
  p ← load_prev listelm; n ← load_next listelm; __list_del p n.

Definition list_del_init (listelm : Z) : M heap unit := list_del listelm;; list_init listelm.

Definition list_empty (list : Z) : M heap bool := n ← load_next list; mret (n =? list).
Definition list_next (listelm : Z) : M heap Z := load_next listelm.
Definition list_prev (listelm : Z) : M heap Z := load_prev listelm.

(** The walk [while ((le = list_next(le)) != head)] of the callers: the
    entries visited. *)
Fixpoint walk (fuel : nat) (head le : Z) : M heap (list Z) :=
  match fuel with
  | O => diverge
  | S fuel =>
      le ← list_next le;
      if le =? head then mret [] else r ← walk fuel head le; mret (le :: r)
  end.

(** ** Rings *)

Definition nxt (h : heap) (e : Z) : option Z := next <$> h !! e.
Definition prv (h : heap) (e : Z) : option Z := prev <$> h !! e.

(** The links from [a] through [l] to [b], in both directions. *)
Fixpoint seg (h : heap) (a : Z) (l : list Z) (b : Z) : Prop :=
  match l with
  | [] => nxt h a = Some b /\ prv h b = Some a
  | c :: l => nxt h a = Some c /\ prv h c = Some a /\ seg h c l b
  end.

Definition ring (h : heap) (head : Z) (l : list Z) : Prop :=
  NoDup (head :: l) /\ seg h head l head.

(** ** Facts *)

Lemma store_next_eq h e v :
  is_Some (h !! e) -> exists h', store_next e v h = Ret (tt, h') /\
    (forall x, nxt h' x = if decide (x = e) then Some v else nxt h x) /\
    (forall x, prv h' x = prv h x) /\ dom h' = dom h.
Proof.
  intros [n Hn]. unfold store_next. rewrite Hn. eexists. split; [done|].
  split_and!; intros; unfold nxt, prv; [| |by apply dom_insert_lookup_L; eauto].
  - case_decide; [subst; by rewrite lookup_insert_eq|by rewrite lookup_insert_ne].
  - destruct (decide (x = e)) as [->|]; [by rewrite lookup_insert_eq, Hn|].
    by rewrite lookup_insert_ne.
Qed.

Lemma store_prev_eq h e v :
  is_Some (h !! e) -> exists h', store_prev e v h = Ret (tt, h') /\
    (forall x, prv h' x = if decide (x = e) then Some v else prv h x) /\
    (forall x, nxt h' x = nxt h x) /\ dom h' = dom h.
Proof.
  intros [n Hn]. unfold store_prev. rewrite Hn. eexists. split; [done|].
  split_and!; intros; unfold nxt, prv; [| |by apply dom_insert_lookup_L; eauto].
  - case_decide; [subst; by rewrite lookup_insert_eq|by rewrite lookup_insert_ne].
  - destruct (decide (x = e)) as [->|]; [by rewrite lookup_insert_eq, Hn|].
    by rewrite lookup_insert_ne.
Qed.

Lemma dom_Some {h h' : heap} {e} : dom h' = dom h -> is_Some (h !! e) -> is_Some (h' !! e).
Proof. intros Hd He. apply elem_of_dom. rewrite Hd. by apply elem_of_dom. Qed.

Lemma __list_add_eq h e p n :
  is_Some (h !! e) -> is_Some (h !! p) -> is_Some (h !! n) -> e <> p -> e <> n ->
  exists h', __list_add e p n h = Ret (tt, h') /\ dom h' = dom h /\
    (forall x, nxt h' x = if decide (x = e) then Some n
                          else if decide (x = p) then Some e else nxt h x) /\
    (forall x, prv h' x = if decide (x = e) then Some p
                          else if decide (x = n) then Some e else prv h x).
Proof.
  intros He Hp Hn Hep Hen. unfold __list_add.
  destruct (store_prev_eq h n e Hn) as (h1 & E1 & P1 & N1 & D1). rewrite (bind_Ret _ _ _ _ _ E1).
  destruct (store_next_eq h1 p e (dom_Some D1 Hp)) as (h2 & E2 & N2 & P2 & D2).
  rewrite (bind_Ret _ _ _ _ _ E2).
  assert (D12 : dom h2 = dom h) by congruence.
  destruct (store_next_eq h2 e n (dom_Some D12 He)) as (h3 & E3 & N3 & P3 & D3).
  rewrite (bind_Ret _ _ _ _ _ E3). assert (D13 : dom h3 = dom h) by congruence.
  destruct (store_prev_eq h3 e p (dom_Some D13 He)) as (h4 & E4 & P4 & N4 & D4).
  exists h4. split; [done|]. split; [congruence|]. split; intros x.
  - by rewrite N4, N3, N2, N1.
  - by rewrite P4, P3, P2, P1.
Qed.

Lemma __list_del_eq h p n :
  is_Some (h !! p) -> is_Some (h !! n) ->
  exists h', __list_del p n h = Ret (tt, h') /\ dom h' = dom h /\
    (forall x, nxt h' x = if decide (x = p) then Some n else nxt h x) /\
    (forall x, prv h' x = if decide (x = n) then Some p else prv h x).
Proof.
  intros Hp Hn. unfold __list_del.
  destruct (store_next_eq h p n Hp) as (h1 & E1 & N1 & P1 & D1). rewrite (bind_Ret _ _ _ _ _ E1).
  destruct (store_prev_eq h1 n p (dom_Some D1 Hn)) as (h2 & E2 & P2 & N2 & D2).
  exists h2. split; [done|]. split; [congruence|]. split; intros x; [by rewrite N2, N1|by rewrite P2, P1].
Qed.

(** *** Segments *)

Lemma seg_app h a l1 c l2 b : seg h a (l1 ++ c :: l2) b <-> seg h a l1 c /\ seg h c l2 b.
Proof. revert a. induction l1 as [|d l1 IH]; intros a; simpl; [|rewrite IH]; tauto. Qed.

Lemma seg_ext h h' a l b :
  (forall x, x ∈ a :: l -> nxt h' x = nxt h x) -> (forall x, x ∈ l ++ [b] -> prv h' x = prv h x) ->
  seg h a l b -> seg h' a l b.
Proof.
  revert a. induction l as [|c l IH]; intros a Hn Hp; simpl.
  - by rewrite Hn, Hp by set_solver.
  - rewrite Hn, Hp by set_solver. intros (? & ? & ?). split_and!; try done.
    apply IH; [..|done]; intros x Hx; [apply Hn|apply Hp]; set_solver.
Qed.

Lemma seg_dom h a l b : seg h a l b -> is_Some (h !! a) /\ is_Some (h !! b).
Proof.
  revert a. induction l as [|c l IH]; intros a; simpl.
  - unfold nxt, prv. destruct (h !! a), (h !! b); naive_solver.
  - intros (Hn & _ & Hs). split; [|by eapply IH].
    unfold nxt in Hn. destruct (h !! a); naive_solver.
Qed.

(** The ring seen from another of its entries. *)
Lemma ring_rotate h head l1 x l2 : ring h head (l1 ++ x :: l2) <-> ring h x (l2 ++ head :: l1).
Proof.
  assert (Hp : head :: l1 ++ x :: l2 ≡ₚ x :: l2 ++ head :: l1).
  { rewrite <- !Permutation_middle, (Permutation_app_comm l1 l2). apply perm_swap. }
  unfold ring. rewrite !seg_app, Hp. tauto.
Qed.

Lemma ring_next h head l :
  ring h head l -> load_next head h = Ret (default head (l !! 0%nat), h).
Proof.
  intros [_ Hs]. unfold load_next. destruct l as [|c l]; simpl in *; destruct Hs as [Hn _];
    unfold nxt in Hn; destruct (h !! head); naive_solver.
Qed.

(** Opening a ring after its head: the neighbour and the rest of the way round. *)
Lemma add_front h head l e :
  ring h head l -> e ∉ head :: l -> is_Some (h !! e) ->
  exists h', list_add head e h = Ret (tt, h') /\ ring h' head (e :: l) /\ dom h' = dom h.
Proof.
  intros Hr He Hde. unfold list_add, list_add_after.
  rewrite (bind_Ret _ _ _ _ _ (ring_next h head l Hr)). destruct Hr as [Hnd Hs].
  rewrite not_elem_of_cons in He. destruct He as [Heh Hel].
  assert (Hh : is_Some (h !! head)) by (by eapply seg_dom).
  assert (Hc : is_Some (h !! default head (l !! 0%nat)) /\ e <> default head (l !! 0%nat)).
  { destruct l as [|c l]; simpl; [done|]. simpl in Hs. split; [|set_solver].
    destruct Hs as (_ & _ & Hs). by apply (seg_dom h c l head). }
  destruct Hc as [Hc Hec].
  destruct (__list_add_eq h e head _ Hde Hh Hc) as (h' & -> & HD & HN & HP); [done..|].
  exists h'. split; [done|]. split; [|done]. split; [apply NoDup_cons in Hnd as []; repeat constructor; set_solver|].
  destruct l as [|c l]; simpl in *.
  - rewrite !HN, !HP. repeat case_decide; naive_solver.
  - destruct Hs as (Hn & Hp & Hs). rewrite !HN, !HP.
    rewrite not_elem_of_cons in Hel.
    split; [repeat case_decide; naive_solver|]. split; [repeat case_decide; naive_solver|].
    split; [repeat case_decide; naive_solver|]. split; [repeat case_decide; naive_solver|].
    apply NoDup_cons in Hnd as [Hh0 Hnd]. apply NoDup_cons in Hnd as [Hc0 Hnd].
    eapply seg_ext; [..|exact Hs]; intros x Hx.
    + rewrite HN. rewrite !decide_False; [done|set_solver..].
    + rewrite HP. rewrite !decide_False; [done|set_solver..].
Qed.

Lemma ring_prev h head l :
  ring h head l -> load_prev head h = Ret (default head (last l), h).
Proof.
  intros [_ Hs]. unfold load_prev. destruct l as [|z l _] using rev_ind.
  - simpl in *. destruct Hs as [_ Hp]. unfold prv in Hp. destruct (h !! head); naive_solver.
  - rewrite last_snoc. apply seg_app in Hs as [_ [_ Hp]]. simpl.
    unfold prv in Hp. destruct (h !! head); naive_solver.
Qed.

Lemma add_back h head l e :
  ring h head l -> e ∉ head :: l -> is_Some (h !! e) ->
  exists h', list_add_before head e h = Ret (tt, h') /\ ring h' head (l ++ [e]) /\ dom h' = dom h.
Proof.
  intros Hr He Hde. unfold list_add_before. rewrite (bind_Ret _ _ _ _ _ (ring_prev h head l Hr)).
  destruct l as [|z l _] using rev_ind.
  - destruct (add_front h head [] e Hr He Hde) as (h' & Ha & ?).
    unfold list_add, list_add_after in Ha. rewrite (bind_Ret _ _ _ _ _ (ring_next h head [] Hr)) in Ha.
    eauto.
  - rewrite last_snoc. apply (ring_rotate h head l z []) in Hr. simpl in Hr.
    destruct (add_front h z (head :: l) e Hr) as (h' & Ha & Hr' & ?); [set_solver|done|].
    unfold list_add, list_add_after in Ha.
    rewrite (bind_Ret _ _ _ _ _ (ring_next h z (head :: l) Hr)) in Ha.
    exists h'. split; [done|]. split; [|done].
    apply (ring_rotate h' z [e] head l) in Hr'. by rewrite <- app_assoc.
Qed.

Lemma del_ring h x c l :
  ring h x (c :: l) ->
  exists h', list_del x h = Ret (tt, h') /\ ring h' c l /\ dom h' = dom h.
Proof.
  intros Hr. unfold list_del.
  rewrite (bind_Ret _ _ _ _ _ (ring_prev h x _ Hr)), (bind_Ret _ _ _ _ _ (ring_next h x _ Hr)).
  destruct Hr as [Hnd Hs]. apply NoDup_cons in Hnd as [Hx Hnd].
  assert (Hc : is_Some (h !! c)) by (destruct Hs as (_ & _ & Hs); by apply (seg_dom h c l x)).
  destruct l as [|z l _] using rev_ind.
  - destruct (__list_del_eq h c c Hc Hc) as (h' & Hd & HD & HN & HP). exists h'.
    split; [done|]. split; [|done]. split; [done|]. simpl. rewrite HN, HP. by case_decide.
  - rewrite app_comm_cons, last_snoc. simpl in Hs. destruct Hs as (_ & _ & Hs).
    apply seg_app in Hs as [Hs [Hn Hp]].
    assert (Hz : is_Some (h !! z)) by (by apply (seg_dom h c l z)).
    destruct (__list_del_eq h z c Hz Hc) as (h' & Hd & HD & HN & HP). exists h'.
    split; [done|]. split; [|done]. split; [done|]. apply seg_app.
    rewrite app_comm_cons in Hnd. apply NoDup_app in Hnd as (Hnd & Hdis & _). split.
    + eapply seg_ext; [..|exact Hs]; intros y Hy.
      * rewrite HN, decide_False; [done|]. set_solver.
      * rewrite HP, decide_False; [done|]. apply NoDup_cons in Hnd as [Hcl _]. set_solver.
    + simpl. rewrite HN, HP. by rewrite !decide_True by done.
Qed.

(** ** Properties *)

(** Insertion refines insertion in the sequence: [list_add_before] at the
    entry that starts [l2] (or at the head, for the end) puts the new entry
    between [l1] and [l2], and [list_add_after] at the entry that ends [l1]
    does the same. *)
Theorem list_insert_refines h head l1 l2 e :
  ring h head (l1 ++ l2) -> e ∉ head :: l1 ++ l2 -> is_Some (h !! e) ->
  (exists h', list_add_before (default head (l2 !! 0%nat)) e h = Ret (tt, h') /\
     ring h' head (l1 ++ e :: l2)) /\
  (exists h', list_add_after (default head (last l1)) e h = Ret (tt, h') /\
     ring h' head (l1 ++ e :: l2)).
Proof.
  intros Hr He Hde. split.
  - destruct l2 as [|x l2]; simpl.
    + rewrite app_nil_r in *. destruct (add_back h head l1 e) as (h' & ? & ? & _); eauto.
    + apply (ring_rotate h head l1 x l2) in Hr.
      destruct (add_back h x (l2 ++ head :: l1) e Hr) as (h' & Ha & Hr' & _);
        [set_solver|done|]. exists h'. split; [done|].
      rewrite <- app_assoc in Hr'. simpl in Hr'.
      apply (ring_rotate h' x l2 head (l1 ++ [e])) in Hr'. by rewrite <- app_assoc in Hr'.
  - destruct l1 as [|z l1 _] using rev_ind; simpl.
    + destruct (add_front h head l2 e) as (h' & ? & ? & _); eauto.
    + rewrite last_snoc. rewrite <- app_assoc in Hr. simpl in Hr.
      apply (ring_rotate h head l1 z l2) in Hr.
      destruct (add_front h z (l2 ++ head :: l1) e Hr) as (h' & Ha & Hr' & _);
        [set_solver|done|]. exists h'. split; [done|].
      apply (ring_rotate h' z (e :: l2) head l1) in Hr'. by rewrite <- app_assoc.
Qed.

(** Deletion refines deletion from the sequence; after [list_del_init] the
    entry is an empty ring of its own. *)
Theorem list_delete_refines h head l1 x l2 :
  ring h head (l1 ++ x :: l2) ->
  (exists h', list_del x h = Ret (tt, h') /\ ring h' head (l1 ++ l2)) /\
  (exists h', list_del_init x h = Ret (tt, h') /\ ring h' head (l1 ++ l2) /\ ring h' x []).
Proof.
  intros Hr. assert (Hd : exists h', list_del x h = Ret (tt, h') /\ ring h' head (l1 ++ l2)
    /\ dom h' = dom h).
  { apply ring_rotate in Hr. destruct l2 as [|c l2].
    - destruct (del_ring h x head l1 Hr) as (h' & ? & ? & ?). exists h'. by rewrite app_nil_r.
    - destruct (del_ring h x c (l2 ++ head :: l1) Hr) as (h' & ? & Hr' & ?). exists h'.
      split; [done|]. split; [|done]. by apply ring_rotate. }
  assert (Hx : x ∉ head :: l1 ++ l2).
  { destruct Hr as [Hnd _]. rewrite <- Permutation_middle in Hnd.
    apply NoDup_cons in Hnd as [? Hnd]. apply NoDup_cons in Hnd as [? Hnd]. set_solver. }
  assert (Hdx : is_Some (h !! x)) by (destruct Hr as [_ [Hs _]%seg_app]; by eapply seg_dom).
  destruct Hd as (h1 & Hd & Hr1 & D1). split; [by exists h1|].
  unfold list_del_init. rewrite (bind_Ret _ _ _ _ _ Hd). unfold list_init.
  destruct (store_next_eq h1 x x (dom_Some D1 Hdx)) as (h2 & E2 & N2 & P2 & D2).
  rewrite (bind_Ret _ _ _ _ _ E2).
  assert (D12 : dom h2 = dom h) by congruence.
  destruct (store_prev_eq h2 x x (dom_Some D12 Hdx)) as (h3 & E3 & P3 & N3 & D3).
  exists h3. split; [done|]. destruct Hr1 as [Hnd Hs]. split.
  - split; [done|]. eapply seg_ext; [..|exact Hs]; intros y Hy.
    + rewrite N3, N2, decide_False; [done|]. set_solver.
    + rewrite P3, decide_False; [done|]. set_solver.
  - split; [repeat constructor; set_solver|]. simpl. rewrite N3, N2, P3. by rewrite !decide_True.
Qed.

(** The callers' loop from the head visits exactly the sequence, in order,
    and [list_empty] tells whether it is empty. *)
Theorem list_walk h head l fuel :
  ring h head l -> (length l < fuel)%nat ->
  walk fuel head head h = Ret (l, h) /\
  list_empty head h = Ret (bool_decide (l = []), h).
Proof.
  intros [Hnd Hs] Hf. apply NoDup_cons in Hnd as [Hh Hnd]. split.
  - assert (Hw : forall l a fuel, (length l < fuel)%nat -> head ∉ l -> seg h a l head ->
      walk fuel head a h = Ret (l, h)).
    { clear. intros l. induction l as [|c l IH]; intros a [|f] Hf Hh Hs; simpl in Hf; try lia;
        cbn [walk]; unfold list_next; simpl in Hs; destruct Hs as [Hn Hs];
        unfold load_next; unfold nxt in Hn; destruct (h !! a) as [n|] eqn:E; try done;
        unfold mbind, M_bind; rewrite E; simpl in Hn; injection Hn as ->.
      - by rewrite Z.eqb_refl.
      - destruct (Z.eqb_spec c head); [set_solver|].
        rewrite IH; [done|lia|set_solver|apply Hs]. }
    by apply Hw.
  - unfold list_empty. erewrite bind_Ret by by apply ring_next; split; [constructor|].
    destruct l as [|c l]; simpl; [by rewrite Z.eqb_refl|].
    by destruct (Z.eqb_spec c head); [set_solver|].
Qed.

(** ** Witnesses *)

(** A ring of two entries 10, 20 with head 1, and a free entry 30. *)
Definition demo_heap : heap :=
  {[ 1 := mk_entry 20 10; 10 := mk_entry 1 20; 20 := mk_entry 10 1; 30 := mk_entry 0 0 ]}.

Lemma demo_ring : ring demo_heap 1 [10; 20].
Proof. split; [|by vm_compute]. by apply (bool_decide_unpack _). Qed.

Lemma list_insert_refines_witness :
  exists h', list_add_before 20 30 demo_heap = Ret (tt, h') /\ ring h' 1 [10; 30; 20].
Proof.
  apply (list_insert_refines demo_heap 1 [10] [20] 30 demo_ring);
    [by apply (bool_decide_unpack _)|by eexists].
Defined.

Lemma list_delete_refines_witness :
  exists h', list_del 10 demo_heap = Ret (tt, h') /\ ring h' 1 [20].
Proof. apply (list_delete_refines demo_heap 1 [] 10 [20] demo_ring). Defined.

Lemma list_walk_witness : walk 3 1 1 demo_heap = Ret ([10; 20], demo_heap).
Proof. apply (list_walk demo_heap 1 [10; 20] 3 demo_ring). simpl. lia. Defined.

End Lists.
