(* ===== verification/DefaultPmm.v ===== *)
(** The first-fit page allocator, src/ucore_OS/kern/mm/default_pmm.c, on the
    page descriptors of kern/mm/memlayout.h with the flag bits of
    libs/atomic.h.  A [struct Page *] is the index of its page frame; the free
    list is the sequence of the head pages linked in it (see [Lists]). *)

From S2P Require Import Prelude.

Module Pmm.

(** [struct Page], without the links. *)
Record Page := mk_page { ref : Z; flags : Z; property : Z }.

(** [free_area] and the page array. *)
Record t := mk { pages : gmap Z Page; free_list : list Z; nr_free : Z }.

Definition PG_reserved : Z := 0.
Definition PG_property : Z := 1.

Definition set_pages p s := mk p (free_list s) (nr_free s).
Definition set_list l s := mk (pages s) l (nr_free s).
Definition set_nr_free n s := mk (pages s) (free_list s) n.

Definition load_page (p : Z) : M t Page := fun s =>
  match pages s !! p with Some pg => Ret (pg, s) | None => Fault end.
Definition update_page (p : Z) (f : Page -> Page) : M t unit := fun s =>
  match pages s !! p with
  | Some pg => Ret (tt, set_pages (<[p := f pg]> (pages s)) s)
  | None => Fault
  end.

(** The flag operations, with interrupts off around each. *)
Definition set_bit (nr w : Z) : Z := u32 (Z.lor w (1 ≪ nr)).
Definition clear_bit (nr w : Z) : Z := u32 (Z.land w (Z.lnot (1 ≪ nr))).
Definition test_bit (nr w : Z) : bool := negb (Z.land w (1 ≪ nr) =? 0).

Definition SetPageProperty (p : Z) : M t unit :=
  update_page p (fun pg => mk_page (ref pg) (set_bit PG_property (flags pg)) (property pg)).
Definition ClearPageProperty (p : Z) : M t unit :=
  update_page p (fun pg => mk_page (ref pg) (clear_bit PG_property (flags pg)) (property pg)).
Definition set_property (p v : Z) : M t unit :=
  update_page p (fun pg => mk_page (ref pg) (flags pg) v).

(** [list_del] of an entry, [list_add_before] another one. *)
Definition list_del (x : Z) : M t unit :=
  modify (fun s => set_list (filter (fun y => y <> x) (free_list s)) s).
Fixpoint insert_before (x e : Z) (l : list Z) : list Z :=
  match l with
  | [] => [e]
  | y :: l => if y =? x then e :: y :: l else y :: insert_before x e l
  end.

(** The walk of [default_list_add]: stops at the first block above [base]. *)
Fixpoint default_list_add_loop (l : list Z) (base : Z) : M t unit :=
  match l with
  | [] => modify (fun s => set_list (free_list s ++ [base]) s)
  | p :: l =>
      assert_ (negb (base =? p));;
      if base <? p then
        pb ← load_page base;
        assert_ (base + property pb <=? p);;
        modify (fun s => set_list (insert_before p base (free_list s)) s)
      else
        pp ← load_page p;
        assert_ (p + property pp <=? base);;
        default_list_add_loop l base
  end.
Definition default_list_add (base : Z) : M t unit :=
  s ← get; default_list_add_loop (free_list s) base.

Definition default_init : M t unit :=
  modify (set_list []);; modify (set_nr_free 0).

(** [for (; p != base + n; p ++)] of [default_init_memmap], [k] pages left. *)
Fixpoint init_pages (k : nat) (p : Z) : M t unit :=
  match k with
  | O => mret tt
  | S k =>
      pg ← load_page p;
      assert_ (test_bit PG_reserved (flags pg));;
      update_page p (fun _ => mk_page 0 0 0);;
      init_pages k (p + 1)
  end.

Definition default_init_memmap (base n : Z) : M t unit :=
  assert_ (0 <? n);;
  init_pages (Z.to_nat n) base;;
  set_property base n;;
  SetPageProperty base;;
  modify (fun s => set_nr_free (u32 (nr_free s + n)) s);;
  default_list_add base.

(** The search loop: the first block of at least [n] pages. *)
Fixpoint first_fit (l : list Z) (n : Z) : M t (option Z) :=
  match l with
  | [] => mret None
  | p :: l =>
      pg ← load_page p;
      if n <=? property pg then mret (Some p) else first_fit l n
  end.

(** [list_add(page->page_link.prev, p)] once [page] is unlinked: [p] takes
    the place of [page]. *)
Fixpoint replace (x e : Z) (l : list Z) : list Z :=
  match l with
  | [] => []
  | y :: l => if y =? x then e :: l else y :: replace x e l
  end.

Definition default_alloc_pages (n : Z) : M t (option Z) :=
  assert_ (0 <? n);;
  s ← get;
  if nr_free s <? n then mret None else
  r ← first_fit (free_list s) n;
  match r with
  | None => mret None
  | Some page =>
      pg ← load_page page;
      (if n <? property pg then
         let p := page + n in
         set_property p (u32 (property pg - n));;
         SetPageProperty p;;
         modify (fun s => set_list (replace page p (free_list s)) s)
       else list_del page);;
      modify (fun s => set_nr_free (u32 (nr_free s - n)) s);;
      ClearPageProperty page;;
      mret (Some page)
  end.

(** The loop of [default_free_pages] over the pages given back. *)
Fixpoint free_loop (k : nat) (p : Z) : M t unit :=
  match k with
  | O => mret tt
  | S k =>
      pg ← load_page p;
      assert_ (negb (test_bit PG_reserved (flags pg)) && negb (test_bit PG_property (flags pg)));;
      update_page p (fun pg => mk_page 0 0 (property pg));;
      free_loop k (p + 1)
  end.

(** The coalescing loop, on the blocks in the list when it starts (each is
    passed before it is unlinked); returns the final [base]. *)
Fixpoint merge_loop (l : list Z) (base : Z) : M t Z :=
  match l with
  | [] => mret base
  | p :: l =>
      pb ← load_page base;
      pp ← load_page p;
      if base + property pb =? p then
        set_property base (u32 (property pb + property pp));;
        ClearPageProperty p;;
        list_del p;;
        merge_loop l base
      else if p + property pp =? base then
        set_property p (u32 (property pp + property pb));;
        ClearPageProperty base;;
        list_del p;;
        merge_loop l p
      else merge_loop l base
  end.

Definition default_free_pages (base n : Z) : M t unit :=
  assert_ (0 <? n);;
  free_loop (Z.to_nat n) base;;
  set_property base n;;
  SetPageProperty base;;
  s ← get;
  base ← merge_loop (free_list s) base;
  modify (fun s => set_nr_free (u32 (nr_free s + n)) s);;
  default_list_add base.

Definition default_nr_free_pages : M t Z := gets nr_free.

End Pmm.
