(* ===== verification/DefaultPmmSpec.v ===== *)
(** What the page allocator promises, against an abstract set of free pages:
    a state represents an ascending list of disjoint blocks; allocation takes
    the first block that fits and gives back the rest; freeing merges with the
    neighbours (src/ucore_OS/kern/mm/default_pmm.c). *)

From S2P Require Import Prelude DefaultPmm.

Module PmmSpec.
Import Pmm.

(** ** Blocks *)

(** A free block: its first page and its number of pages. *)
Abbreviation block := (Z * Z)%type.

Definition covers (x : block) (q : Z) : Prop := x.1 <= q < x.1 + x.2.
Definition free (bl : list block) (q : Z) : Prop := exists x, x ∈ bl /\ covers x q.

(** Ascending, with at least [g] pages between two blocks: [g = 0] for
    disjoint blocks, [g = 1] when no two blocks touch. *)
Fixpoint sep (g : Z) (bl : list block) : Prop :=
  match bl with
  | [] => True
  | x :: bl => 0 < x.2 /\ Forall (fun y => x.1 + x.2 + g <= y.1) bl /\ sep g bl
  end.

Definition total (bl : list block) : Z := foldr (fun x n => x.2 + n) 0 bl.

(** The descriptors of a free block: the size in its head, the property bit
    set in the head only, the reserved bit nowhere. *)
Definition block_ok (pg : gmap Z Page) (x : block) : Prop :=
  (exists p, pg !! x.1 = Some p /\ property p = x.2) /\
  forall q, covers x q -> exists p, pg !! q = Some p /\
    test_bit PG_reserved (flags p) = false /\
    test_bit PG_property (flags p) = bool_decide (q = x.1).

Record rep (g : Z) (s : t) (bl : list block) : Prop := {
  rep_list : free_list s = bl.*1;
  rep_pages : Forall (block_ok (pages s)) bl;
  rep_sep : sep g bl;
  rep_total : nr_free s = total bl;
  rep_bound : total bl < 2 ^ 32
}.

(** Pages ready to be given back: allocated, both flags clear. *)
Definition in_use (pg : gmap Z Page) (q : Z) : Prop :=
  exists p, pg !! q = Some p /\ test_bit PG_reserved (flags p) = false /\
            test_bit PG_property (flags p) = false.

(** ** Flags *)

Lemma test_bit_spec nr w : 0 <= nr -> test_bit nr w = Z.testbit w nr.
Proof.
  intros. unfold test_bit. rewrite Z.shiftl_1_l, land_pow2 by lia.
  destruct (Z.testbit w nr); [|done]. by replace (2 ^ nr =? 0) with false by lia.
Qed.

Lemma test_set_property w : test_bit PG_property (set_bit PG_property w) = true.
Proof.
  rewrite test_bit_spec by (unfold PG_property; lia). unfold set_bit, PG_property.
  rewrite testbit_u32 by lia. by rewrite Z.lor_spec, orb_true_r.
Qed.
Lemma test_clear_property w : test_bit PG_property (clear_bit PG_property w) = false.
Proof.
  rewrite test_bit_spec by (unfold PG_property; lia). unfold clear_bit, PG_property.
  rewrite testbit_u32 by lia. by rewrite Z.land_spec, andb_false_r.
Qed.
Lemma test_set_reserved w : test_bit PG_reserved (set_bit PG_property w) = test_bit PG_reserved w.
Proof.
  rewrite !test_bit_spec by (unfold PG_reserved; lia). unfold set_bit, PG_property, PG_reserved.
  rewrite testbit_u32 by lia. by rewrite Z.lor_spec, orb_false_r.
Qed.
Lemma test_clear_reserved w : test_bit PG_reserved (clear_bit PG_property w) = test_bit PG_reserved w.
Proof.
  rewrite !test_bit_spec by (unfold PG_reserved; lia). unfold clear_bit, PG_property, PG_reserved.
  rewrite testbit_u32 by lia. by rewrite Z.land_spec, andb_true_r.
Qed.

(** ** Updates of one page *)

Lemma update_page_eq s q f p :
  pages s !! q = Some p -> update_page q f s = Ret (tt, set_pages (<[q := f p]> (pages s)) s).
Proof. unfold update_page. by intros ->. Qed.

Lemma load_page_eq s q p : pages s !! q = Some p -> load_page q s = Ret (p, s).
Proof. unfold load_page. by intros ->. Qed.

(** A page outside a block does not matter to it. *)
Lemma block_ok_insert pg x q p : ~ covers x q -> 0 < x.2 -> block_ok pg x -> block_ok (<[q := p]> pg) x.
Proof.
  intros Hq Hpos [(ph & Hh & Hs) Hb]. unfold covers in *. split.
  - exists ph. split; [|done]. rewrite lookup_insert_ne; [done|lia].
  - intros r Hr. rewrite lookup_insert_ne; [by apply Hb|]. intros ->. done.
Qed.

Lemma blocks_ok_insert pg bl q p :
  ~ free bl q -> Forall (fun x => 0 < x.2) bl -> Forall (block_ok pg) bl ->
  Forall (block_ok (<[q := p]> pg)) bl.
Proof.
  intros Hq Hpos Hbl. rewrite Forall_forall in *. intros x Hx.
  apply block_ok_insert; [|by apply Hpos|by apply Hbl]. intros Hc. apply Hq. by exists x.
Qed.

(** ** Separated blocks *)

Lemma sep_pos g bl : sep g bl -> Forall (fun x => 0 < x.2) bl.
Proof. induction bl as [|x bl IH]; simpl; [done|]. intros (? & _ & ?). constructor; auto. Qed.

Lemma sep_app g l1 l2 :
  sep g (l1 ++ l2) <->
  sep g l1 /\ sep g l2 /\ Forall (fun x => Forall (fun y => x.1 + x.2 + g <= y.1) l2) l1.
Proof.
  induction l1 as [|x l1 IH]; simpl; [naive_solver|].
  rewrite IH, Forall_app, Forall_cons. tauto.
Qed.

Lemma total_app l1 l2 : total (l1 ++ l2) = total l1 + total l2.
Proof. induction l1 as [|x l1 IH]; simpl; [done|]. rewrite IH. lia. Qed.

Lemma total_nonneg g bl : sep g bl -> 0 <= total bl.
Proof. induction bl as [|x bl IH]; simpl; [lia|]. intros (? & _ & ?%IH). lia. Qed.

Lemma free_app l1 l2 q : free (l1 ++ l2) q <-> free l1 q \/ free l2 q.
Proof. unfold free. setoid_rewrite elem_of_app. naive_solver. Qed.
Lemma free_cons x l q : free (x :: l) q <-> covers x q \/ free l q.
Proof. unfold free. setoid_rewrite elem_of_cons. naive_solver. Qed.
Lemma free_nil q : free [] q <-> False.
Proof. unfold free. setoid_rewrite elem_of_nil. naive_solver. Qed.

(** Blocks on the two sides of a separated list do not cover a page in common. *)
Lemma sep_not_free g l1 x l2 q :
  0 <= g -> sep g (l1 ++ x :: l2) -> covers x q -> ~ free (l1 ++ l2) q.
Proof.
  intros Hg (H1 & (Hx & Hx2 & H2) & H12)%sep_app Hc. rewrite free_app. unfold free, covers in *.
  rewrite !Forall_forall in *. intros [(y & Hy & Hq)|(y & Hy & Hq)].
  - specialize (H12 y Hy). rewrite Forall_cons in H12. lia.
  - specialize (Hx2 y Hy). lia.
Qed.

(** ** Allocation *)

Lemma first_fit_eq s bl n :
  Forall (block_ok (pages s)) bl ->
  first_fit bl.*1 n s = Ret (fst <$> (snd <$> list_find (fun x => n <= x.2) bl), s).
Proof.
  induction 1 as [|x bl Hx Hbl IH]; [done|]. rewrite fmap_cons.
  cbn [first_fit list_find]. destruct Hx as [(p & Hp & Hs) _].
  rewrite (bind_Ret _ _ _ _ _ (load_page_eq _ _ _ Hp)), Hs.
  destruct (Z.leb_spec n x.2); [by rewrite decide_True|]. rewrite decide_False by lia.
  rewrite IH. by destruct (list_find (fun x => n <= x.2) bl) as [[]|].
Qed.

Lemma replace_eq l1 x e l2 : x ∉ l1 -> replace x e (l1 ++ x :: l2) = l1 ++ e :: l2.
Proof.
  induction l1 as [|y l1 IH]; simpl; intros Hx; [by rewrite Z.eqb_refl|].
  rewrite not_elem_of_cons in Hx. destruct (Z.eqb_spec y x); [naive_solver|].
  rewrite IH; [done|naive_solver].
Qed.

Lemma sep_heads g l1 x l2 :
  0 <= g -> sep g (l1 ++ x :: l2) -> (x.1 ∉ l1.*1) /\ (x.1 ∉ l2.*1).
Proof.
  intros Hg (H1 & (Hx & Hx2 & H2) & H12)%sep_app. apply sep_pos in H1.
  rewrite !Forall_forall in *. split; intros (y & Hxy & Hy)%list_elem_of_fmap.
  - specialize (H12 y Hy). specialize (H1 y Hy). simpl in H1. rewrite Forall_cons in H12. lia.
  - specialize (Hx2 y Hy). lia.
Qed.

(** What is left of a block after its first [n] pages are taken. *)
Definition rest (x : block) (n : Z) : list block :=
  if n <? x.2 then [(x.1 + n, x.2 - n)] else [].

Lemma rest_sep g l1 x l2 n :
  0 <= g -> 0 < n <= x.2 -> sep g (l1 ++ x :: l2) -> sep g (l1 ++ rest x n ++ l2).
Proof.
  intros Hg Hn (H1 & (Hx & Hx2 & H2) & H12)%sep_app. unfold rest.
  destruct (Z.ltb_spec n x.2); simpl; apply sep_app; (split; [done|]); split; try done.
  - simpl. split; [lia|]. split; [|done]. eapply Forall_impl; [exact Hx2|].
    simpl. intros. lia.
  - eapply Forall_impl; [exact H12|]. simpl. intros y Hy.
    apply Forall_cons in Hy as [? ?]. constructor; [simpl; lia|done].
  - eapply Forall_impl; [exact H12|]. simpl. intros y Hy. by apply Forall_cons in Hy as [? ?].
Qed.

Lemma rest_total l1 x l2 n :
  0 < n <= x.2 -> total (l1 ++ rest x n ++ l2) = total (l1 ++ x :: l2) - n.
Proof.
  intros Hn. rewrite !total_app. unfold rest. simpl.
  destruct (Z.ltb_spec n x.2); simpl; lia.
Qed.

Lemma rest_free g l1 x l2 n q :
  0 <= g -> 0 < n <= x.2 -> sep g (l1 ++ x :: l2) ->
  free (l1 ++ rest x n ++ l2) q <-> free (l1 ++ x :: l2) q /\ ~ (x.1 <= q < x.1 + n).
Proof.
  intros Hg Hn Hs. assert (Hx := fun Hc => sep_not_free g l1 x l2 q Hg Hs Hc).
  rewrite free_app in Hx. rewrite !free_app, free_cons. unfold rest, covers in *.
  destruct (Z.ltb_spec n x.2); rewrite ?free_cons, free_nil; unfold covers; simpl.
  - destruct (decide (x.1 <= q < x.1 + x.2)); [|split; [intros [?|[[?|?]|?]]|]; naive_solver lia].
    split; [naive_solver lia|]. intros [_ ?]. right; left; left. lia.
  - destruct (decide (x.1 <= q < x.1 + x.2)); [|naive_solver lia].
    split; [naive_solver|]. intros [_ []]. lia.
Qed.

(** The descriptors after the head of the remainder is set up. *)
Lemma rest_ok pg x n p0 p1 :
  0 < n < x.2 -> block_ok pg x -> pg !! (x.1 + n) = Some p0 ->
  p1 = mk_page (ref p0) (set_bit PG_property (flags p0)) (x.2 - n) ->
  block_ok (<[x.1 + n := p1]> pg) (x.1 + n, x.2 - n).
Proof.
  intros Hn [_ Hb] H0 ->. split; simpl.
  - eexists. rewrite lookup_insert_eq. done.
  - intros q Hq. unfold covers in Hq. simpl in Hq.
    destruct (Hb q) as (p & Hp & Hr & Hpr); [unfold covers; lia|].
    destruct (decide (q = x.1 + n)) as [->|Hne].
    + rewrite lookup_insert_eq. eexists. split; [done|]. simpl.
      rewrite H0 in Hp. injection Hp as ->. by rewrite test_set_reserved, test_set_property, bool_decide_true.
    + rewrite lookup_insert_ne by done. exists p. split_and!; try done.
      rewrite Hpr. by rewrite !bool_decide_false by lia.
Qed.

Lemma rest_not_covered g l1 x l2 n q :
  0 <= g -> 0 < n <= x.2 -> sep g (l1 ++ x :: l2) -> x.1 <= q < x.1 + n ->
  ~ free (l1 ++ rest x n ++ l2) q.
Proof. intros Hg Hn Hs Hq. rewrite rest_free by done. tauto. Qed.

Section Alloc.
  Context (g : Z) (s : t) (l1 : list block) (x : block) (l2 : list block) (n : Z).
  Hypothesis (Hg : 0 <= g) (Hn : 0 < n <= x.2) (Hrep : rep g s (l1 ++ x :: l2)).

(** The descriptors after the split, before the head of the block is cleared. *)
Definition split_pages : gmap Z Page :=
  if n <? x.2 then
    match pages s !! (x.1 + n) with
    | Some p => <[x.1 + n := mk_page (ref p) (set_bit PG_property (flags p)) (x.2 - n)]> (pages s)
    | None => pages s
    end
  else pages s.

Definition alloc_state : t :=
  mk (match split_pages !! x.1 with
      | Some p => <[x.1 := mk_page (ref p) (clear_bit PG_property (flags p)) (property p)]> split_pages
      | None => split_pages
      end) (l1 ++ rest x n ++ l2).*1 (nr_free s - n).

Lemma head_page : exists p, pages s !! x.1 = Some p /\ property p = x.2 /\
  test_bit PG_reserved (flags p) = false.
Proof.
  destruct Hrep as [_ Hp _ _ _]. apply Forall_app in Hp as [_ Hp].
  apply Forall_cons in Hp as [[(p & Hp & Hs) Hb] _].
  destruct (Hb x.1) as (p' & Hp' & Hr & _); [unfold covers; lia|].
  exists p. split_and!; [done..|]. congruence.
Qed.

Lemma split_head : split_pages !! x.1 = pages s !! x.1.
Proof.
  unfold split_pages. destruct (n <? x.2); [|done]. destruct (pages s !! (x.1 + n)); [|done].
  rewrite lookup_insert_ne; [done|lia].
Qed.

Lemma body_page q : covers x q -> exists p, pages s !! q = Some p /\
  test_bit PG_reserved (flags p) = false /\ test_bit PG_property (flags p) = bool_decide (q = x.1).
Proof.
  destruct Hrep as [_ Hp _ _ _]. apply Forall_app in Hp as [_ Hp].
  apply Forall_cons in Hp as [[_ Hb] _]. apply Hb.
Qed.

Lemma split_ok : Forall (block_ok split_pages) (l1 ++ rest x n ++ l2).
Proof.
  destruct Hrep as [_ Hp Hs _ _]. assert (Hsep := Hs).
  apply sep_pos in Hs. rewrite Forall_app, Forall_cons in Hs, Hp.
  destruct Hs as (Hs1 & _ & Hs2). destruct Hp as (Hp1 & Hpx & Hp2).
  unfold rest, split_pages. destruct (Z.ltb_spec n x.2); [|by apply Forall_app].
  destruct (body_page (x.1 + n)) as (p & Hp & _); [unfold covers; lia|]. rewrite Hp.
  assert (Hnf : ~ free (l1 ++ l2) (x.1 + n)).
  { apply (sep_not_free g l1 x l2); [done..|]. unfold covers. lia. }
  rewrite free_app in Hnf. apply Forall_app. split; [|apply Forall_app; split].
  - apply blocks_ok_insert; [tauto|done..].
  - apply Forall_singleton. eapply rest_ok; [lia|done..].
  - apply blocks_ok_insert; [tauto|done..].
Qed.

Lemma alloc_rep : rep g alloc_state (l1 ++ rest x n ++ l2).
Proof.
  destruct Hrep as [_ _ Hs Ht Hb]. destruct head_page as (p & Hp & _).
  assert (Hs' := rest_sep g l1 x l2 n Hg Hn Hs). assert (Ht' := rest_total l1 x l2 n Hn).
  split; simpl; try done; try lia.
  rewrite split_head, Hp. apply blocks_ok_insert; [|by eapply sep_pos|apply split_ok].
  apply (rest_not_covered g); [done..|lia].
Qed.

Lemma alloc_eq :
  snd <$> list_find (fun y => n <= y.2) (l1 ++ x :: l2) = Some x ->
  default_alloc_pages n s = Ret (Some x.1, alloc_state).
Proof.
  intros Hf. destruct Hrep as [Hl Hp Hs Ht Hb]. destruct head_page as (p & Hh & Hpr & _).
  assert (Hle : n <= nr_free s).
  { rewrite Ht, total_app. simpl. apply sep_app in Hs as (Hs1 & Hs2 & _).
    apply total_nonneg in Hs1. simpl in Hs2. destruct Hs2 as (_ & _ & Hs2%total_nonneg). lia. }
  assert (0 <= total (l1 ++ x :: l2)) by (by eapply total_nonneg).
  destruct (sep_heads g l1 x l2 Hg Hs) as [Hx1 Hx2].
  unfold default_alloc_pages. replace (assert_ (0 <? n)) with (assert_ (S := t) true) by (f_equal; lia).
  erewrite bind_Ret by done. erewrite bind_Ret by done.
  replace (nr_free s <? n) with false by lia.
  erewrite bind_Ret by (rewrite Hl; by apply first_fit_eq). rewrite Hf. simpl.
  erewrite bind_Ret by by apply load_page_eq. rewrite Hpr.
  assert (Hu : u32 (nr_free s - n) = nr_free s - n) by (apply u32_id; unfold is_u32; lia).
  unfold alloc_state, rest. rewrite split_head, Hh. unfold split_pages.
  destruct (Z.ltb_spec n x.2).
  - destruct (body_page (x.1 + n)) as (p0 & Hp0 & _); [unfold covers; lia|].
    rewrite Hp0. erewrite bind_Ret; cycle 1.
    { unfold set_property, SetPageProperty. erewrite bind_Ret by by apply update_page_eq.
      erewrite bind_Ret by (apply update_page_eq; simpl; apply lookup_insert_eq). done. }
    erewrite bind_Ret by done. simpl. rewrite insert_insert_eq. erewrite bind_Ret; cycle 1.
    { apply update_page_eq. simpl. rewrite lookup_insert_ne by lia. done. }
    unfold mret, M_ret. do 3 f_equal. unfold set_pages. simpl. f_equal.
    + do 3 f_equal. apply u32_id. unfold is_u32. 
      rewrite total_app in Hb. simpl in Hb. apply sep_app in Hs as (Hs1 & Hs2 & _).
      apply total_nonneg in Hs1. destruct Hs2 as (_ & _ & Hs2%total_nonneg). lia.
    + rewrite Hl, !fmap_app, !fmap_cons. simpl. by apply replace_eq.
    + done.
  - erewrite bind_Ret by done. erewrite bind_Ret by done. simpl. erewrite bind_Ret; cycle 1.
    { apply update_page_eq. simpl. done. }
    unfold mret, M_ret. do 3 f_equal. unfold set_pages. simpl. f_equal; [|done].
    rewrite Hl, !fmap_app, !fmap_cons. by apply filter_middle.
Qed.

Lemma alloc_in_use q : x.1 <= q < x.1 + n -> in_use (pages alloc_state) q.
Proof.
  intros Hq. destruct head_page as (p & Hp & _ & Hr). simpl. rewrite split_head, Hp.
  destruct (decide (q = x.1)) as [->|Hne].
  - eexists. rewrite lookup_insert_eq. split; [done|]. simpl.
    by rewrite test_clear_reserved, test_clear_property.
  - destruct (body_page q) as (p' & Hp' & Hr' & Hpr'); [unfold covers; lia|].
    exists p'. rewrite lookup_insert_ne by done. split.
    + unfold split_pages. destruct (Z.ltb_spec n x.2); [|done].
      destruct (pages s !! (x.1 + n)); [|done]. rewrite lookup_insert_ne; [done|lia].
    + split; [done|]. by rewrite Hpr', bool_decide_false.
Qed.

End Alloc.

(** ** Freeing *)

Definition apart (x y : block) : Prop := x.1 + x.2 <= y.1 \/ y.1 + y.2 <= x.1.

(** The coalescing loop on blocks: the grown block and the blocks kept. *)
Fixpoint merge_bl (ls : list block) (x : block) : block * list block :=
  match ls with
  | [] => (x, [])
  | y :: ls =>
      if x.1 + x.2 =? y.1 then merge_bl ls (x.1, x.2 + y.2)
      else if y.1 + y.2 =? x.1 then merge_bl ls (y.1, y.2 + x.2)
      else let r := merge_bl ls x in (r.1, y :: r.2)
  end.

Lemma free_loop_eq k p s :
  (forall q, p <= q < p + Z.of_nat k -> in_use (pages s) q) ->
  exists pg, free_loop k p s = Ret (tt, set_pages pg s) /\
    (forall q, p <= q < p + Z.of_nat k -> exists pr, pg !! q = Some (mk_page 0 0 pr)) /\
    (forall q, ~ (p <= q < p + Z.of_nat k) -> pg !! q = pages s !! q).
Proof.
  revert p s. induction k as [|k IH]; intros p s Hu.
  - exists (pages s). split; [by destruct s|]. split; [lia|done].
  - destruct (Hu p) as (pg & Hp & Hr & Hpr); [lia|]. cbn [free_loop].
    erewrite bind_Ret by by apply load_page_eq. rewrite Hr, Hpr.
    erewrite bind_Ret by done. erewrite bind_Ret by by apply update_page_eq.
    destruct (IH (p + 1) (set_pages (<[p:=mk_page 0 0 (property pg)]> (pages s)) s))
      as (pg' & -> & H1 & H2).
    { intros q Hq. unfold in_use. simpl. rewrite lookup_insert_ne by lia. apply Hu. lia. }
    exists pg'. split; [done|]. split; intros q Hq.
    + destruct (decide (q = p)) as [->|]; [|apply H1; lia].
      rewrite H2 by lia. simpl. rewrite lookup_insert_eq. by eexists.
    + rewrite H2 by lia. simpl. by rewrite lookup_insert_ne by lia.
Qed.

(** Joining two adjacent blocks. *)
Lemma join_ok pg x y px py :
  0 < x.2 -> 0 < y.2 -> x.1 + x.2 = y.1 -> block_ok pg x -> block_ok pg y ->
  pg !! x.1 = Some px -> pg !! y.1 = Some py ->
  block_ok (<[y.1 := mk_page (ref py) (clear_bit PG_property (flags py)) (property py)]>
             (<[x.1 := mk_page (ref px) (flags px) (x.2 + y.2)]> pg)) (x.1, x.2 + y.2).
Proof.
  intros Hx Hy Hadj [_ Bx] [_ By] Px Py. split; simpl.
  - eexists. rewrite lookup_insert_ne, lookup_insert_eq by lia. done.
  - intros q Hq. unfold covers in *. simpl in Hq. destruct (decide (q = y.1)) as [->|].
    + rewrite lookup_insert_eq. eexists. split; [done|]. simpl.
      destruct (By y.1) as (p & Hp & Hr & _); [lia|]. rewrite Py in Hp. injection Hp as <-.
      rewrite test_clear_reserved, test_clear_property. by rewrite bool_decide_false by lia.
    + rewrite lookup_insert_ne by done. destruct (decide (q = x.1)) as [->|].
      * rewrite lookup_insert_eq. eexists. split; [done|]. simpl.
        destruct (Bx x.1) as (p & Hp & ? & ?); [lia|]. rewrite Px in Hp. by injection Hp as <-.
      * rewrite lookup_insert_ne by done. destruct (decide (q < y.1)).
        -- apply Bx. lia.
        -- destruct (By q) as (p & Hp & Hr & Hpr); [lia|]. exists p. split_and!; try done.
           rewrite Hpr. by rewrite !bool_decide_false by done.
Qed.

Lemma apart_not_free x bl q :
  Forall (apart x) bl -> covers x q -> Forall (fun y => 0 < y.2) bl -> ~ free bl q.
Proof.
  intros Ha Hc Hp (y & Hy & Hq). rewrite Forall_forall in *.
  destruct (Ha y Hy); unfold covers in *; lia.
Qed.

(** The two page updates of a merge leave the other blocks alone. *)
Lemma blocks_ok_join pg bl x y p1 p2 :
  Forall (apart x) bl -> Forall (apart y) bl -> 0 < x.2 -> 0 < y.2 ->
  Forall (fun z => 0 < z.2) bl -> Forall (block_ok pg) bl ->
  Forall (block_ok (<[y.1 := p2]> (<[x.1 := p1]> pg))) bl.
Proof.
  intros Hx Hy Px Py Hp Hbl.
  apply blocks_ok_insert; [|done|apply blocks_ok_insert; [|done..]].
  - apply (apart_not_free y); [done| |done]. unfold covers. lia.
  - apply (apart_not_free x); [done| |done]. unfold covers. lia.
Qed.

Lemma apart_join x y bl z :
  x.1 + x.2 = y.1 -> Forall (apart x) bl -> Forall (apart y) bl ->
  Forall (fun z => 0 < z.2) bl -> z = (x.1, x.2 + y.2) -> Forall (apart z) bl.
Proof.
  intros Hadj Hx Hy Hp ->. rewrite Forall_forall in *. intros w Hw.
  specialize (Hx w Hw). specialize (Hy w Hw). specialize (Hp w Hw).
  unfold apart in *. simpl in *. lia.
Qed.

Lemma sep_apart g l1 y l2 : 0 <= g -> sep g (l1 ++ y :: l2) -> Forall (apart y) (l1 ++ l2).
Proof.
  intros Hg (H1 & (Hy & Hy2 & H2) & H12)%sep_app. apply Forall_app. split.
  - eapply Forall_impl; [exact H12|]. intros z Hz. apply Forall_cons in Hz as [? _].
    right. simpl in *. lia.
  - eapply Forall_impl; [exact Hy2|]. intros z Hz. left. simpl in *. lia.
Qed.

Lemma sep_drop g l1 y l2 : sep g (l1 ++ y :: l2) -> sep g (l1 ++ l2).
Proof.
  rewrite !sep_app. simpl. intros (? & (_ & _ & ?) & Hf). split_and!; try done.
  eapply Forall_impl; [exact Hf|]. intros z Hz. by apply Forall_cons in Hz as [_ ?].
Qed.

(** A state in the middle of the coalescing loop. *)
Record mid (g : Z) (s : t) (kept ls : list block) (x : block) : Prop := {
  mid_list : free_list s = (kept ++ ls).*1;
  mid_pages : Forall (block_ok (pages s)) (kept ++ ls);
  mid_head : block_ok (pages s) x;
  mid_sep : sep g (kept ++ ls);
  mid_apart : Forall (apart x) (kept ++ ls);
  mid_pos : 0 < x.2;
  mid_total : x.2 + total (kept ++ ls) < 2 ^ 32
}.

(** One merge of the block [y] at the front of the rest, [lo] and [hi] being
    the lower and the upper of [x] and [y]. *)
Lemma mid_join g s kept y ls x lo hi plo phi :
  0 <= g -> mid g s kept (y :: ls) x ->
  (lo = x /\ hi = y) \/ (lo = y /\ hi = x) -> lo.1 + lo.2 = hi.1 ->
  pages s !! lo.1 = Some plo -> pages s !! hi.1 = Some phi ->
  mid g (mk (<[hi.1 := mk_page (ref phi) (clear_bit PG_property (flags phi)) (property phi)]>
              (<[lo.1 := mk_page (ref plo) (flags plo) (lo.2 + hi.2)]> (pages s)))
            (kept ++ ls).*1 (nr_free s))
    kept ls (lo.1, lo.2 + hi.2).
Proof.
  intros Hg [Hl Hp Hh Hs Ha Hpos Ht] Hlohi Hadj Plo Phi.
  assert (Hay := sep_apart g kept y ls Hg Hs). assert (Hs' := sep_drop g kept y ls Hs).
  assert (Hps := sep_pos g _ Hs'). assert (Hy : 0 < y.2).
  { apply sep_pos in Hs. rewrite Forall_app, Forall_cons in Hs. naive_solver. }
  rewrite Forall_app, Forall_cons in Hp, Ha. destruct Hp as (Hp1 & Hpy & Hp2).
  destruct Ha as (Ha1 & Hay' & Ha2).
  assert (Hax : Forall (apart x) (kept ++ ls)) by (by apply Forall_app).
  rewrite !total_app in Ht. simpl in Ht.
  assert (Hb : Forall (block_ok (pages s)) (kept ++ ls)) by (by apply Forall_app).
  destruct Hlohi as [[-> ->]|[-> ->]]; split; simpl; try done; try (rewrite total_app; lia); try lia.
  - by apply blocks_ok_join.
  - by apply join_ok.
  - by apply (apart_join x y).
  - by apply blocks_ok_join.
  - by apply join_ok.
  - by apply (apart_join y x).
Qed.

Lemma mid_skip g s kept y ls x : mid g s kept (y :: ls) x <-> mid g s (kept ++ [y]) ls x.
Proof. split; intros []; split; rewrite ?(app_assoc _ [y] ls) in *; rewrite <- ?app_assoc in *; done. Qed.

Lemma merge_loop_eq g ls kept x s :
  0 <= g -> mid g s kept ls x ->
  exists s', merge_loop ls.*1 x.1 s = Ret ((merge_bl ls x).1.1, s') /\
    mid g s' (kept ++ (merge_bl ls x).2) [] (merge_bl ls x).1 /\ nr_free s' = nr_free s.
Proof.
  intros Hg. revert kept x s. induction ls as [|y ls IH]; intros kept x s Hm.
  - exists s. rewrite app_nil_r. done.
  - assert (Hm0 := Hm). destruct Hm0 as [Hl Hp [(px & Px & Sx) _] Hs Ha Hpos Ht].
    assert (Hp' := Hp). rewrite Forall_app, Forall_cons in Hp'.
    destruct Hp' as (_ & [(py & Py & Sy) _] & _).
    destruct (sep_heads g kept y ls Hg Hs) as [Hk Hk2].
    assert (Hdel : filter (fun z => z <> y.1) (free_list s) = (kept ++ ls).*1).
    { rewrite Hl, !fmap_app, fmap_cons. by apply filter_middle. }
    assert (Htot : 0 <= total kept /\ 0 <= total ls /\ 0 < y.2).
    { apply sep_app in Hs as (Hs1 & Hs2 & _). simpl in Hs2. destruct Hs2 as (? & _ & Hs2).
      eauto using total_nonneg. }
    rewrite total_app in Ht. simpl in Ht.
    assert (Hu : forall a b, a = x.2 /\ b = y.2 \/ a = y.2 /\ b = x.2 -> u32 (a + b) = a + b).
    { intros a b Hab. apply u32_id. unfold is_u32. lia. }
    rewrite fmap_cons. cbn [merge_loop merge_bl].
    erewrite bind_Ret by by apply load_page_eq. erewrite bind_Ret by by apply load_page_eq.
    rewrite Sx, Sy. destruct (Z.eqb_spec (x.1 + x.2) y.1) as [Hadj|Hadj].
    + assert (Hj := mid_join g s kept y ls x x y px py Hg Hm ltac:(auto) Hadj Px Py).
      destruct (IH _ _ _ Hj) as (s' & Hr & Hm' & Hn). exists s'. split; [|done].
      unfold set_property, ClearPageProperty. erewrite bind_Ret by by apply update_page_eq.
      erewrite bind_Ret by (apply update_page_eq; simpl; rewrite lookup_insert_ne by lia; done).
      erewrite bind_Ret by done. simpl in Hr. rewrite <- Hr. f_equal.
      unfold set_list, set_pages. simpl. by rewrite Hdel, Hu by auto.
    + destruct (Z.eqb_spec (y.1 + y.2) x.1) as [Hadj'|Hadj'].
      * assert (Hj := mid_join g s kept y ls x y x py px Hg Hm ltac:(auto) Hadj' Py Px).
        destruct (IH _ _ _ Hj) as (s' & Hr & Hm' & Hn). exists s'. split; [|done].
        unfold set_property, ClearPageProperty. erewrite bind_Ret by by apply update_page_eq.
        erewrite bind_Ret by (apply update_page_eq; simpl; rewrite lookup_insert_ne by lia; done).
        erewrite bind_Ret by done. simpl in Hr. rewrite <- Hr. f_equal.
        unfold set_list, set_pages. simpl. by rewrite Hdel, Hu by auto.
      * apply mid_skip in Hm. destruct (IH _ _ _ Hm) as (s' & Hr & Hm' & Hn).
        exists s'. simpl. split; [done|]. by rewrite <- app_assoc in Hm'.
Qed.

(** Merging keeps the pages covered and their number. *)
Lemma merge_free ls x q :
  Forall (fun y => 0 < y.2) ls -> 0 < x.2 ->
  (covers (merge_bl ls x).1 q \/ free (merge_bl ls x).2 q) <-> (covers x q \/ free ls q).
Proof.
  intros Hp. revert x. induction Hp as [|y ls Hy Hp IH]; intros x Hx; simpl; [done|].
  rewrite free_cons. destruct (Z.eqb_spec (x.1 + x.2) y.1).
  - rewrite IH by (simpl; lia). unfold covers. simpl. intuition lia.
  - destruct (Z.eqb_spec (y.1 + y.2) x.1).
    + rewrite IH by (simpl; lia). unfold covers. simpl. intuition lia.
    + simpl. rewrite free_cons. specialize (IH x Hx). tauto.
Qed.

Lemma merge_total ls x : (merge_bl ls x).1.2 + total (merge_bl ls x).2 = x.2 + total ls.
Proof.
  revert x. induction ls as [|y ls IH]; intros x; simpl; [done|].
  destruct (_ =? _); [rewrite IH; simpl; lia|]. destruct (_ =? _); [rewrite IH; simpl; lia|].
  specialize (IH x). simpl. lia.
Qed.

Lemma merge_start ls x : (merge_bl ls x).1.1 = x.1 \/ (merge_bl ls x).1.1 ∈ ls.*1.
Proof.
  revert x. induction ls as [|y ls IH]; intros x; simpl; [by left|].
  rewrite elem_of_cons. destruct (_ =? _); [destruct (IH (x.1, x.2 + y.2)); simpl in *; tauto|].
  destruct (_ =? _); [destruct (IH (y.1, y.2 + x.2)); simpl in *; tauto|].
  destruct (IH x); simpl; tauto.
Qed.

Lemma merge_above ls x :
  Forall (fun y => x.1 + x.2 < y.1) ls -> Forall (fun y => 0 < y.2) ls -> 0 < x.2 ->
  merge_bl ls x = (x, ls).
Proof.
  intros Ha Hp Hx. induction ls as [|y ls IH]; simpl; [done|].
  apply Forall_cons in Ha as [? Ha]. apply Forall_cons in Hp as [? Hp].
  replace (x.1 + x.2 =? y.1) with false by lia. replace (y.1 + y.2 =? x.1) with false by lia.
  by rewrite IH.
Qed.

(** Distance between two blocks. *)
Definition gap (g : Z) (x y : block) : Prop := x.1 + x.2 + g <= y.1 \/ y.1 + y.2 + g <= x.1.

(** After merging, the grown block keeps the distance of the others, up to 1. *)
Lemma merge_gap g ls x :
  0 <= g <= 1 -> sep g ls -> Forall (apart x) ls -> 0 < x.2 ->
  Forall (gap g (merge_bl ls x).1) (merge_bl ls x).2.
Proof.
  intros Hg. revert x. induction ls as [|y ls IH]; intros x Hs Ha Hx; [done|].
  destruct Hs as (Hy & Hyl & Hs). apply Forall_cons in Ha as [Hxy Ha].
  assert (Hps := sep_pos g ls Hs). assert (Hay : Forall (apart y) ls).
  { eapply Forall_impl; [exact Hyl|]. intros z Hz. left. simpl in Hz. lia. }
  cbn [merge_bl]. destruct (Z.eqb_spec (x.1 + x.2) y.1).
  - apply IH; [done| |simpl; lia]. by apply (apart_join x y).
  - destruct (Z.eqb_spec (y.1 + y.2) x.1).
    + apply IH; [done| |simpl; lia]. by apply (apart_join y x).
    + simpl. constructor; [|by apply IH]. unfold gap, apart in *.
      destruct Hxy as [Hxy|Hxy].
      * rewrite merge_above; [simpl; lia| |done..].
        eapply Forall_impl; [exact Hyl|]. simpl. intros. lia.
      * right. destruct (merge_start ls x) as [->|(z & -> & Hz)%list_elem_of_fmap]; [lia|].
        rewrite Forall_forall in Hyl. by apply Hyl.
Qed.

(** *** Linking the block back *)

Fixpoint insert_bl (x : block) (bl : list block) : list block :=
  match bl with
  | [] => [x]
  | y :: bl => if x.1 <? y.1 then x :: y :: bl else y :: insert_bl x bl
  end.

Lemma insert_before_eq l1 p e l2 : p ∉ l1 -> insert_before p e (l1 ++ p :: l2) = l1 ++ e :: p :: l2.
Proof.
  induction l1 as [|y l1 IH]; simpl; intros Hp; [by rewrite Z.eqb_refl|].
  rewrite not_elem_of_cons in Hp. destruct (Z.eqb_spec y p); [naive_solver|].
  rewrite IH; naive_solver.
Qed.

Lemma list_add_eq g s pre ls x :
  0 <= g -> free_list s = (pre ++ ls).*1 -> sep g (pre ++ ls) -> Forall (apart x) (pre ++ ls) ->
  Forall (block_ok (pages s)) (pre ++ ls) -> block_ok (pages s) x -> 0 < x.2 ->
  default_list_add_loop ls.*1 x.1 s = Ret (tt, set_list (pre ++ insert_bl x ls).*1 s).
Proof.
  intros Hg. revert pre. induction ls as [|y ls IH]; intros pre Hl Hs Ha Hp [(px & Px & Sx) Hb] Hx.
  - simpl. unfold modify. rewrite Hl, app_nil_r. by rewrite fmap_app.
  - rewrite fmap_cons. cbn [default_list_add_loop insert_bl].
    assert (Hp' := Hp). assert (Ha' := Ha). rewrite Forall_app, Forall_cons in Hp', Ha'.
    destruct Hp' as (_ & [(py & Py & Sy) _] & _). destruct Ha' as (_ & Hxy & _).
    assert (Hy : 0 < y.2). { apply sep_pos in Hs. rewrite Forall_app, Forall_cons in Hs. naive_solver. }
    unfold apart in Hxy. replace (negb (x.1 =? y.1)) with true by lia.
    erewrite bind_Ret by done. destruct (Z.ltb_spec x.1 y.1).
    + erewrite bind_Ret by by apply load_page_eq. rewrite Sx.
      replace (x.1 + x.2 <=? y.1) with true by lia. erewrite bind_Ret by done.
      unfold modify. rewrite Hl, !fmap_app, !fmap_cons. do 3 f_equal.
      apply insert_before_eq. by apply (sep_heads g pre y ls).
    + erewrite bind_Ret by by apply load_page_eq. rewrite Sy.
      replace (y.1 + y.2 <=? x.1) with true by lia. erewrite bind_Ret by done.
      rewrite (IH (pre ++ [y])); rewrite <- ?app_assoc; try done. split; [|done]. by exists px.
Qed.

Lemma insert_elem x bl y : y ∈ insert_bl x bl <-> y = x \/ y ∈ bl.
Proof.
  induction bl as [|z bl IH]; simpl; [set_solver|]. destruct (_ <? _); [set_solver|].
  rewrite !elem_of_cons, IH. tauto.
Qed.

Lemma insert_free x bl q : free (insert_bl x bl) q <-> covers x q \/ free bl q.
Proof. unfold free. setoid_rewrite insert_elem. naive_solver. Qed.

Lemma insert_total x bl : total (insert_bl x bl) = x.2 + total bl.
Proof. induction bl as [|y bl IH]; simpl; [done|]. destruct (_ <? _); simpl; lia. Qed.

Lemma insert_sep g x bl :
  0 <= g -> 0 < x.2 -> Forall (gap g x) bl -> sep g bl -> sep g (insert_bl x bl).
Proof.
  intros Hg Hx. induction bl as [|y bl IH]; intros Hgap Hs; simpl; [done|].
  destruct Hs as (Hy & Hyl & Hs). apply Forall_cons in Hgap as [Hxy Hgap].
  unfold gap in Hxy. destruct (Z.ltb_spec x.1 y.1); simpl.
  - split_and!; try done. constructor; [lia|]. eapply Forall_impl; [exact Hyl|].
    simpl. intros. lia.
  - split_and!; [done| |by apply IH]. rewrite Forall_forall in *. intros z [->|Hz]%insert_elem; [lia|].
    by apply Hyl.
Qed.

(** *** The whole of [default_free_pages] *)

Definition freed_bl (base n : Z) (bl : list block) : list block :=
  let r := merge_bl bl (base, n) in insert_bl r.1 r.2.

Lemma free_pages_eq g s bl base n :
  0 <= g <= 1 -> rep g s bl -> 0 < n -> total bl + n < 2 ^ 32 ->
  (forall q, base <= q < base + n -> in_use (pages s) q /\ ~ free bl q) ->
  exists s', default_free_pages base n s = Ret (tt, s') /\ rep g s' (freed_bl base n bl).
Proof.
  intros Hg [Hl Hp Hs Ht Hb] Hn Hbound Hu. assert (Hps := sep_pos g bl Hs).
  unfold default_free_pages. replace (0 <? n) with true by lia. erewrite bind_Ret by done.
  destruct (free_loop_eq (Z.to_nat n) base s) as (pg & Hf & H1 & H2).
  { intros q Hq. apply Hu. lia. }
  rewrite (bind_Ret _ _ _ _ _ Hf). destruct (H1 base) as [pr Hbase]; [lia|].
  unfold set_property, SetPageProperty. erewrite bind_Ret by by apply update_page_eq.
  erewrite bind_Ret by (apply update_page_eq; simpl; apply lookup_insert_eq).
  erewrite bind_Ret by done. simpl. rewrite insert_insert_eq, Hl.
  set (s1 := set_pages _ _). assert (Hm : mid g s1 [] bl (base, n)).
  { assert (Hap : Forall (apart (base, n)) bl).
    { rewrite Forall_forall in *. intros y Hy. specialize (Hps y Hy). simpl in Hps.
      unfold apart. simpl. destruct (Z.le_gt_cases (base + n) y.1); [by left|].
      destruct (Z.le_gt_cases (y.1 + y.2) base); [by right|]. exfalso.
      destruct (Hu (Z.max base y.1)) as [_ Hq]; [lia|]. apply Hq. exists y.
      split; [done|]. unfold covers. lia. }
    split; simpl; try done; try lia.
    - apply blocks_ok_insert; [|done|].
      + apply (apart_not_free (base, n)); [done| |done]. unfold covers. simpl. lia.
      + rewrite Forall_forall in *. intros y Hy. specialize (Hp y Hy). specialize (Hps y Hy).
        destruct Hp as [(py & Py & Sy) By]. simpl in Hps.
        assert (Hsame : forall q, covers y q -> pg !! q = pages s !! q).
        { intros q Hq. apply H2. intros Hq'. destruct (Hu q) as [_ Hnf]; [lia|].
          apply Hnf. by exists y. }
        split; [exists py; rewrite Hsame by (unfold covers; lia); done|].
        intros q Hq. rewrite Hsame by done. by apply By.
    - split; [eexists; by rewrite lookup_insert_eq|]. intros q Hq. unfold covers in Hq. simpl in *.
      destruct (decide (q = base)) as [->|].
      + rewrite lookup_insert_eq. eexists. split; [done|]. simpl.
        by rewrite test_set_reserved, test_set_property, bool_decide_true.
      + rewrite lookup_insert_ne by done. destruct (H1 q) as [pq Hq']; [lia|].
        eexists. split; [done|]. simpl. by rewrite bool_decide_false. }
  destruct (merge_loop_eq g bl [] (base, n) s1) as (s2 & Hr & Hm2 & Hn2); [lia|done|].
  rewrite (bind_Ret _ _ _ _ _ Hr). erewrite bind_Ret by done.
  unfold default_list_add. erewrite bind_Ret by done.
  destruct Hm2 as [Hl2 Hp2 Hh2 Hs2 Ha2 Hpos2 Ht2]. rewrite app_nil_l, app_nil_r in *.
  simpl. rewrite Hl2, (list_add_eq g _ []); try done; [|lia]. eexists. split; [done|].
  assert (Htot := merge_total bl (base, n)). simpl in Htot.
  assert (0 <= total bl) by (by eapply total_nonneg).
  assert (Hg2 := merge_gap g bl (base, n) Hg Hs (mid_apart _ _ _ _ _ Hm) Hn).
  unfold freed_bl. split; simpl.
  - done.
  - rewrite Forall_forall in *. intros y [->|Hy]%insert_elem; [done|by apply Hp2].
  - apply insert_sep; [lia|done..].
  - rewrite insert_total, Hn2. simpl. rewrite Ht, u32_id; [lia|]. unfold is_u32. lia.
  - rewrite insert_total. lia.
Qed.

(** *** The whole of [default_init_memmap] *)

Definition reserved (pg : gmap Z Page) (q : Z) : Prop :=
  exists p, pg !! q = Some p /\ test_bit PG_reserved (flags p) = true.

Lemma init_pages_eq k p s :
  (forall q, p <= q < p + Z.of_nat k -> reserved (pages s) q) ->
  exists pg, init_pages k p s = Ret (tt, set_pages pg s) /\
    (forall q, p <= q < p + Z.of_nat k -> pg !! q = Some (mk_page 0 0 0)) /\
    (forall q, ~ (p <= q < p + Z.of_nat k) -> pg !! q = pages s !! q).
Proof.
  revert p s. induction k as [|k IH]; intros p s Hu.
  - exists (pages s). split; [by destruct s|]. split; [lia|done].
  - destruct (Hu p) as (pg & Hp & Hr); [lia|]. cbn [init_pages].
    erewrite bind_Ret by by apply load_page_eq. rewrite Hr.
    erewrite bind_Ret by done. erewrite bind_Ret by by apply update_page_eq.
    destruct (IH (p + 1) (set_pages (<[p:=mk_page 0 0 0]> (pages s)) s)) as (pg' & -> & H1 & H2).
    { intros q Hq. unfold reserved. simpl. rewrite lookup_insert_ne by lia. apply Hu. lia. }
    exists pg'. split; [done|]. split; intros q Hq.
    + destruct (decide (q = p)) as [->|]; [|apply H1; lia].
      rewrite H2 by lia. simpl. by rewrite lookup_insert_eq.
    + rewrite H2 by lia. simpl. by rewrite lookup_insert_ne by lia.
Qed.

Lemma init_memmap_eq g s bl base n :
  0 <= g -> rep g s bl -> 0 < n -> total bl + n < 2 ^ 32 -> Forall (gap g (base, n)) bl ->
  (forall q, base <= q < base + n -> reserved (pages s) q) ->
  exists s', default_init_memmap base n s = Ret (tt, s') /\ rep g s' (insert_bl (base, n) bl).
Proof.
  intros Hg [Hl Hp Hs Ht Hb] Hn Hbound Hgap Hu. assert (Hps := sep_pos g bl Hs).
  assert (Hap : Forall (apart (base, n)) bl).
  { eapply Forall_impl; [exact Hgap|]. intros y Hy. unfold gap, apart in *. simpl in *. lia. }
  unfold default_init_memmap. replace (0 <? n) with true by lia. erewrite bind_Ret by done.
  destruct (init_pages_eq (Z.to_nat n) base s) as (pg & Hf & H1 & H2).
  { intros q Hq. apply Hu. lia. }
  rewrite (bind_Ret _ _ _ _ _ Hf). assert (Hbase := H1 base ltac:(lia)).
  unfold set_property, SetPageProperty. erewrite bind_Ret by by apply update_page_eq.
  erewrite bind_Ret by (apply update_page_eq; simpl; apply lookup_insert_eq).
  erewrite bind_Ret by done. unfold default_list_add. erewrite bind_Ret by done.
  simpl. rewrite insert_insert_eq, Hl.
  set (pg1 := <[base := _]> pg). assert (Hok : Forall (block_ok pg1) bl).
  { apply blocks_ok_insert; [|done|].
    - apply (apart_not_free (base, n)); [done| |done]. unfold covers. simpl. lia.
    - rewrite Forall_forall in *. intros y Hy. specialize (Hp y Hy). specialize (Hps y Hy).
      destruct Hp as [(py & Py & Sy) By]. simpl in Hps.
      assert (Hsame : forall q, covers y q -> pg !! q = pages s !! q).
      { intros q Hq. apply H2. intros Hq'. specialize (Hap y Hy). unfold apart, covers in *.
        simpl in *. lia. }
      split; [exists py; rewrite Hsame by (unfold covers; lia); done|].
      intros q Hq. rewrite Hsame by done. by apply By. }
  assert (Hnew : block_ok pg1 (base, n)).
  { split; [eexists; unfold pg1; simpl; by rewrite lookup_insert_eq|]. intros q Hq.
    unfold covers in Hq. simpl in *. unfold pg1. destruct (decide (q = base)) as [->|].
    - rewrite lookup_insert_eq. eexists. split; [done|]. simpl.
      by rewrite test_set_reserved, test_set_property, bool_decide_true.
    - rewrite lookup_insert_ne by done. rewrite H1 by lia.
      eexists. split; [done|]. simpl. by rewrite bool_decide_false. }
  assert (0 <= total bl) by (by eapply total_nonneg).
  rewrite (list_add_eq g _ [] bl (base, n)); try done. eexists. split; [done|]. split; simpl.
  - done.
  - rewrite Forall_forall in *. intros y [->|Hy]%insert_elem; [done|by apply Hok].
  - by apply insert_sep.
  - rewrite insert_total, Ht, u32_id; [simpl; lia|]. unfold is_u32. lia.
  - rewrite insert_total. simpl. lia.
Qed.

Lemma alloc_spec g s bl n :
  0 <= g -> rep g s bl -> 0 < n ->
  match list_find (fun x => n <= x.2) bl with
  | None => default_alloc_pages n s = Ret (None, s)
  | Some (_, x) =>
      exists s' bl', default_alloc_pages n s = Ret (Some x.1, s') /\ rep g s' bl' /\
        nr_free s' = nr_free s - n /\
        (forall q, x.1 <= q < x.1 + n -> free bl q /\ in_use (pages s') q) /\
        (forall q, free bl' q <-> free bl q /\ ~ (x.1 <= q < x.1 + n))
  end.
Proof.
  intros Hg Hrep Hn. destruct (list_find _ bl) as [[i x]|] eqn:Hf.
  - assert (Hf' := Hf). apply list_find_Some in Hf' as (Hi & Hx & _).
    rewrite <- (take_drop_middle bl i x Hi) in Hrep, Hf |- *.
    exists (alloc_state s (take i bl) x (drop (S i) bl) n). eexists.
    split; [apply (alloc_eq g); [done|lia|done|by rewrite Hf]|].
    split; [apply alloc_rep; [done|lia|done]|]. split; [done|]. split; intros q.
    + intros Hq. split; [|by eapply alloc_in_use]. apply free_app. right. apply free_cons. left.
      unfold covers. lia.
    + apply (rest_free g); [done|lia|by apply rep_sep in Hrep].
  - unfold default_alloc_pages. replace (0 <? n) with true by lia. erewrite bind_Ret by done.
    erewrite bind_Ret by done. destruct (_ <? _); [done|].
    destruct Hrep as [Hl Hp _ _ _]. rewrite Hl. erewrite bind_Ret by by apply first_fit_eq.
    by rewrite Hf.
Qed.

Lemma freed_free g base n bl q :
  sep g bl -> 0 < n -> free (freed_bl base n bl) q <-> (base <= q < base + n) \/ free bl q.
Proof. intros Hs Hn. unfold freed_bl. rewrite insert_free, merge_free; [done|by eapply sep_pos|done]. Qed.

Lemma freed_total base n bl : total (freed_bl base n bl) = total bl + n.
Proof. unfold freed_bl. rewrite insert_total, merge_total. simpl. lia. Qed.

(** ** Descriptors that stay *)

(** With the free list in [P], [m] writes only descriptors in [P], keeps the list
    there and returns a value in [Q]. *)
Definition only {A} (P : Z -> Prop) (Q : A -> Prop) (m : M t A) : Prop :=
  forall s a s', Forall P (free_list s) -> m s = Ret (a, s') ->
    Forall P (free_list s') /\ Q a /\ forall q, ~ P q -> pages s' !! q = pages s !! q.

Section Only.
  Context (P : Z -> Prop).
  Abbreviation writes := (only P (fun _ => True)).

Lemma only_bind {A B} Q R (m : M t A) (k : A -> M t B) :
  only P Q m -> (forall a, Q a -> only P R (k a)) -> only P R (m ≫= k).
Proof.
  intros Hm Hk s b s' Hs H. unfold mbind, M_bind in H. destruct (m s) as [[a s1]| | |] eqn:Hms; try done.
  destruct (Hm s a s1 Hs Hms) as (H1 & Ha & H2). destruct (Hk a Ha s1 b s' H1 H) as (H3 & Hb & H4). split; [done|].
  split; [done|]. intros q Hq. by rewrite H4, H2.
Qed.
Lemma only_get {B} R (k : t -> M t B) : (forall s, Forall P (free_list s) -> only P R (k s)) -> only P R (get ≫= k).
Proof. intros Hk s b s' Hs H. by apply (Hk s Hs s b). Qed.
Lemma only_update p f : P p -> writes (update_page p f).
Proof.
  intros Hp s a s' Hs. unfold update_page. destruct (pages s !! p); [|done]. intros [= _ <-]. split; [done|].
  split; [done|]. intros q Hq. cbn. apply lookup_insert_ne. by intros ->.
Qed.
Lemma only_load p : writes (load_page p).
Proof. intros s a s' Hs. unfold load_page. by destruct (pages s !! p); intros [= _ <-]. Qed.
Lemma only_assert b : writes (assert_ b).
Proof. intros s a s' Hs. destruct b; [|done]. by intros [= _ <-]. Qed.
Lemma only_ret {A} (Q : A -> Prop) a : Q a -> only P Q (mret a).
Proof. intros Ha s b s' Hs. by intros [= <- <-]. Qed.
Lemma only_list f : (forall l, Forall P l -> Forall P (f l)) -> writes (modify (fun s => set_list (f (free_list s)) s)).
Proof. intros Hf s a s' Hs [= _ <-]. split; [by apply Hf|done]. Qed.
Lemma only_nr f : writes (modify (fun s => set_nr_free (f s) s)).
Proof. intros s a s' Hs [= _ <-]. done. Qed.

Lemma free_loop_only k p : (forall q, p <= q < p + Z.of_nat k -> P q) -> writes (free_loop k p).
Proof.
  revert p. induction k as [|k IH]; intros p HP; cbn [free_loop]; [by apply only_ret|].
  eapply only_bind; [apply only_load|intros pg _]. eapply only_bind; [apply only_assert|intros _ _].
  eapply only_bind; [apply only_update, HP; lia|intros _ _]. apply IH. intros q Hq. apply HP. lia.
Qed.

Lemma merge_loop_only l base : P base -> Forall P l -> only P P (merge_loop l base).
Proof.
  revert base. induction l as [|p l IH]; intros base Hb Hl; cbn [merge_loop]; [by apply only_ret|].
  apply Forall_cons in Hl as [Hp Hl].
  eapply only_bind; [apply only_load|intros pb _]. eapply only_bind; [apply only_load|intros pp _].
  assert (Hdel : forall c, writes (list_del c)).
  { intros c. apply (only_list (filter (fun y => y <> c))). intros l' Hl'. rewrite Forall_forall in *.
    intros y [_ Hy]%list_elem_of_filter. by apply Hl'. }
  destruct (_ =? p); [|destruct (_ =? base); [|by apply IH]];
    (eapply only_bind; [by apply only_update|intros _ _]; eapply only_bind; [by apply only_update|intros _ _];
     eapply only_bind; [done|intros _ _]; by apply IH).
Qed.

Lemma list_add_only l base : P base -> writes (default_list_add_loop l base).
Proof.
  intros Hb. induction l as [|p l IH]; cbn [default_list_add_loop].
  { apply (only_list (fun l => l ++ [base])). intros l Hl. apply Forall_app. split; [done|by apply Forall_singleton]. }
  eapply only_bind; [apply only_assert|intros _ _]. destruct (base <? p).
  - eapply only_bind; [apply only_load|intros pb _]. eapply only_bind; [apply only_assert|intros _ _].
    apply (only_list (insert_before p base)). intros l' Hl'. induction Hl' as [|y l' Hy Hl' IHl]; cbn; [by apply Forall_singleton|].
    destruct (y =? p); rewrite !Forall_cons; done.
  - eapply only_bind; [apply only_load|intros pb _]. by eapply only_bind; [apply only_assert|intros _ _].
Qed.

(** Freeing writes the descriptors given back and those in the free list. *)
Lemma free_pages_only base n :
  0 < n -> (forall q, base <= q < base + n -> P q) -> writes (default_free_pages base n).
Proof.
  intros Hn HP. unfold default_free_pages. assert (Hb : P base) by (apply HP; lia).
  eapply only_bind; [apply only_assert|intros _ _].
  eapply only_bind; [apply free_loop_only; intros q Hq; apply HP; lia|intros _ _].
  do 2 (eapply only_bind; [by apply only_update|intros _ _]). apply only_get. intros s Hs.
  eapply only_bind; [by apply merge_loop_only|intros b Hb']. eapply only_bind; [apply only_nr|intros _ _].
  apply only_get. intros s' _. by apply list_add_only.
Qed.

End Only.

(** Descriptors in use that are not given back stay as they are. *)
Lemma free_pages_keeps g s bl base n s' q :
  rep g s bl -> 0 <= g -> 0 < n -> default_free_pages base n s = Ret (tt, s') ->
  ~ (base <= q < base + n) -> ~ free bl q -> pages s' !! q = pages s !! q.
Proof.
  intros Hrep Hg Hn H Hq Hf.
  destruct (free_pages_only (fun r => base <= r < base + n \/ r ∈ free_list s) base n Hn ltac:(intros r Hr; by left) s tt s')
    as (_ & _ & Hk); [apply Forall_forall; intros r Hr; by right|done|]. apply Hk. intros [|Hin]; [done|]. apply Hf.
  rewrite (rep_list _ _ _ Hrep) in Hin. apply list_elem_of_fmap in Hin as [x [-> Hx]]. exists x. split; [done|].
  assert (Hp := sep_pos _ _ (rep_sep _ _ _ Hrep)). rewrite Forall_forall in Hp. specialize (Hp x Hx). unfold covers. lia.
Qed.

Lemma alloc_pages_keeps g s bl n r s' q :
  0 <= g -> rep g s bl -> 0 < n -> default_alloc_pages n s = Ret (r, s') -> ~ free bl q ->
  pages s' !! q = pages s !! q.
Proof.
  intros Hg Hrep Hn Ha Hq. assert (Hsp := alloc_spec g s bl n Hg Hrep Hn).
  destruct (list_find _ bl) as [[i x]|] eqn:Hf; [|rewrite Ha in Hsp; by injection Hsp as -> ->].
  assert (Hf' := Hf). apply list_find_Some in Hf' as (Hi & Hx & _).
  rewrite <- (take_drop_middle bl i x Hi) in Hrep, Hf, Hq.
  rewrite (alloc_eq g s (take i bl) x (drop (S i) bl) n) in Ha; [|done|lia|done|by rewrite Hf].
  injection Ha as _ <-. rewrite free_app, free_cons in Hq. unfold covers in Hq.
  unfold alloc_state. cbn. rewrite split_head by lia. unfold split_pages.
  destruct (head_page g s (take i bl) x (drop (S i) bl) n ltac:(lia) Hrep) as (p & -> & _).
  rewrite lookup_insert_ne by lia. destruct (n <? x.2) eqn:?; [|done]. destruct (pages s !! (x.1 + n)); [|done].
  apply lookup_insert_ne. lia.
Qed.

(** ** Properties *)

(** C8: Allocation refines taking [n] consecutive pages from the free set: if
    some block is large enough, the first such block gives its first [n]
    pages, which were free, are now in use with both flags clear, and are
    exactly the pages that leave the free set; otherwise NULL is returned and
    nothing changes.  The representation invariant is preserved for touching
    ([g = 0]) and for coalesced ([g = 1]) blocks. *)
Theorem alloc_pages_correct g s bl n :
  0 <= g -> rep g s bl -> 0 < n ->
  exists r s', default_alloc_pages n s = Ret (r, s') /\
    match r with
    | None => s' = s /\ Forall (fun x => x.2 < n) bl
    | Some p =>
        (exists i k, bl !! i = Some (p, k) /\ n <= k /\ Forall (fun x => x.2 < n) (take i bl)) /\
        exists bl', rep g s' bl' /\ nr_free s' = nr_free s - n /\
          (forall q, p <= q < p + n -> free bl q /\ in_use (pages s') q) /\
          (forall q, free bl' q <-> free bl q /\ ~ (p <= q < p + n))
    end.
Proof.
  intros Hg Hrep Hn. assert (H := alloc_spec g s bl n Hg Hrep Hn).
  destruct (list_find _ bl) as [[i [p k]]|] eqn:Hf.
  - destruct H as (s' & bl' & Ha & H). exists (Some p), s'. split; [done|]. split; [|by exists bl'].
    apply list_find_Some in Hf as (Hi & Hk & Hlt). exists i, k. split_and!; [done..|].
    apply Forall_lookup. intros j y (Hy & Hj)%lookup_take_Some.
    specialize (Hlt j y Hy Hj). simpl in Hlt. lia.
  - exists None, s. split; [done|]. split; [done|].
    apply list_find_None in Hf. eapply Forall_impl; [exact Hf|]. intros y Hy. simpl in Hy. lia.
Qed.

(** C9: Freeing refines adding the pages to the free set: pages in use that
    are given back join it, no other page does, their number is added to the
    count, no assertion of the allocator fails, and blocks that did not touch
    still do not ([g = 1]): neighbours are merged. *)
Theorem free_pages_correct g s bl base n :
  0 <= g <= 1 -> rep g s bl -> 0 < n -> total bl + n < 2 ^ 32 ->
  (forall q, base <= q < base + n -> in_use (pages s) q /\ ~ free bl q) ->
  exists s' bl', default_free_pages base n s = Ret (tt, s') /\ rep g s' bl' /\
    nr_free s' = nr_free s + n /\
    (forall q, free bl' q <-> (base <= q < base + n) \/ free bl q).
Proof.
  intros Hg Hrep Hn Hb Hu. destruct (free_pages_eq g s bl base n) as (s' & He & Hr); [done..|].
  exists s', (freed_bl base n bl). split; [done|]. split; [done|].
  split.
  - by rewrite (rep_total g s' _ Hr), (rep_total g s bl Hrep), freed_total.
  - intros q. apply (freed_free g); [|done]. by eapply rep_sep.
Qed.

(** Allocation and release cancel: after a successful allocation of [n]
    pages, freeing them succeeds and gives back the same set of free pages and
    the same count. *)
Theorem alloc_free_roundtrip g s bl n p s1 :
  0 <= g <= 1 -> rep g s bl -> 0 < n ->
  default_alloc_pages n s = Ret (Some p, s1) ->
  exists s2 bl2, default_free_pages p n s1 = Ret (tt, s2) /\ rep g s2 bl2 /\
    nr_free s2 = nr_free s /\ (forall q, free bl2 q <-> free bl q).
Proof.
  intros Hg Hrep Hn Ha.
  assert (Hb : total bl < 2 ^ 32) by (by eapply rep_bound).
  assert (Hal : exists bl1, rep g s1 bl1 /\ nr_free s1 = nr_free s - n /\
    (forall q, p <= q < p + n -> free bl q /\ in_use (pages s1) q) /\
    (forall q, free bl1 q <-> free bl q /\ ~ (p <= q < p + n))).
  { assert (H := alloc_spec g s bl n ltac:(lia) Hrep Hn).
    destruct (list_find _ bl) as [[i x]|]; [|congruence].
    destruct H as (s' & bl1 & Ha' & H). rewrite Ha in Ha'. injection Ha' as -> ->. by exists bl1. }
  destruct Hal as (bl1 & Hr1 & Hn1 & Hp1 & Hf1).
  assert (Ht1 : total bl1 = total bl - n).
  { by rewrite <- (rep_total g s1 bl1 Hr1), Hn1, (rep_total g s bl Hrep). }
  destruct (free_pages_eq g s1 bl1 p n) as (s2 & He & Hr); [done..|lia| |].
  { intros q Hq. rewrite Hf1. destruct (Hp1 q Hq). tauto. }
  exists s2, (freed_bl p n bl1). split; [done|]. split; [done|]. split.
  - rewrite (rep_total g s2 _ Hr), freed_total, Ht1, (rep_total g s bl Hrep). lia.
  - intros q. rewrite (freed_free g) by (done || by eapply rep_sep). rewrite Hf1.
    destruct (decide (p <= q < p + n)) as [Hq|]; [|tauto]. destruct (Hp1 q Hq). tauto.
Qed.

(** ** Witnesses *)

(** Ten reserved pages, of which pages 2 to 9 are given to the allocator. *)
Definition demo_pages : gmap Z Page := list_to_map ((fun i => (i, mk_page 0 1 0)) <$> seqZ 0 10).

Definition demo_pmm : t :=
  match default_init_memmap 2 8 (mk demo_pages [] 0) with
  | Ret (_, s) => s
  | _ => mk demo_pages [] 0
  end.

Lemma demo_pmm_rep : rep 1 demo_pmm [(2, 8)].
Proof.
  destruct (init_memmap_eq 1 (mk demo_pages [] 0) [] 2 8) as (s' & He & Hr).
  - lia.
  - by split.
  - lia.
  - done.
  - done.
  - intros q Hq. exists (mk_page 0 1 0). split; [|done]. simpl.
    apply elem_of_list_to_map_1; [by apply (bool_decide_unpack _); vm_compute|].
    apply list_elem_of_fmap. exists q. split; [done|]. apply elem_of_seqZ. lia.
  - unfold demo_pmm. rewrite He. exact Hr.
Qed.

Lemma alloc_pages_correct_witness :
  exists s', default_alloc_pages 3 demo_pmm = Ret (Some 2, s') /\ nr_free s' = 5.
Proof.
  destruct (alloc_pages_correct 1 demo_pmm [(2, 8)] 3) as (r & s' & Ha & Hp);
    [lia | exact demo_pmm_rep | lia |].
  assert (r = Some 2) as -> by (revert Ha; vm_compute; congruence).
  exists s'. split; [done|]. destruct Hp as (_ & bl' & _ & Hn & _). rewrite Hn. by vm_compute.
Defined.

Lemma alloc_free_roundtrip_witness :
  exists s1 s2, default_alloc_pages 3 demo_pmm = Ret (Some 2, s1) /\
    default_free_pages 2 3 s1 = Ret (tt, s2) /\ nr_free s2 = 8.
Proof.
  destruct (default_alloc_pages 3 demo_pmm) as [[r s1]| | |] eqn:Ha;
    [|by vm_compute in Ha..].
  assert (r = Some 2) as -> by (revert Ha; vm_compute; congruence).
  destruct (alloc_free_roundtrip 1 demo_pmm [(2, 8)] 3 2 s1) as (s2 & bl2 & Hf & _ & Hn & _);
    [lia | exact demo_pmm_rep | lia | done |].
  exists s1, s2. split_and!; [done..|]. rewrite Hn. by vm_compute.
Defined.

(** Pages 0 and 1 are in use: they were reserved and are released. *)
Definition demo_used : t :=
  set_pages (<[0 := mk_page 0 0 0]> (<[1 := mk_page 0 0 0]> (pages demo_pmm))) demo_pmm.

Lemma demo_used_rep : rep 1 demo_used [(2, 8)].
Proof.
  destruct demo_pmm_rep as [H1 H2 H3 H4 H5]. split; try done. simpl.
  apply blocks_ok_insert; [|by repeat constructor|apply blocks_ok_insert; [|by repeat constructor|done]];
    rewrite free_cons, free_nil; unfold covers; simpl; lia.
Qed.

Lemma free_pages_correct_witness :
  exists s', default_free_pages 0 2 demo_used = Ret (tt, s') /\ nr_free s' = 10.
Proof.
  destruct (free_pages_correct 1 demo_used [(2, 8)] 0 2) as (s' & bl' & Hf & _ & Hn & _);
    [lia | exact demo_used_rep | lia | done | |].
  { intros q Hq. split.
    - exists (mk_page 0 0 0). split; [|done]. assert (q = 0 \/ q = 1) as [-> | ->] by lia;
        by vm_compute.
    - rewrite free_cons, free_nil. unfold covers. simpl. lia. }
  exists s'. split; [done|]. rewrite Hn. by vm_compute.
Defined.

End PmmSpec.
