(* ===== verification/Proc.v ===== *)
(** The process part of the kernel state and the scheduler: the process
    descriptors of src/ucore_OS/kern/process/proc.h, the round-robin class of
    kern/schedule/default_sched.c and the core scheduler with its timers of
    kern/schedule/sched.c.  Every list of the C code is the sequence of the
    objects linked in it (see [Lists]); a link outside any list is an empty
    ring, so [list_empty] of an object's own link says that it is not linked. *)

From S2P Require Import Prelude.

Module Proc.

Inductive proc_state := PROC_UNINIT | PROC_SLEEPING | PROC_RUNNABLE | PROC_ZOMBIE.

#[global] Instance proc_state_eq_dec : EqDecision proc_state.
Proof. solve_decision. Defined.

(** [struct proc_struct]; a pointer is an address, NULL is 0.  Of the saved
    context the two registers that [copy_thread] sets are kept, [ra] and [sp];
    the list links are the lists of the kernel state. *)
Record proc := mk_proc {
  state : proc_state;
  pid : Z;
  runs : Z;
  kstack : Z;
  need_resched : bool;
  parent : Z;
  mm : Z;
  context : Z * Z;
  tf : Z;
  pgdir : Z;
  flags : Z;
  name : list Z;
  exit_code : Z;
  wait_state : Z;
  cptr : Z;
  yptr : Z;
  optr : Z;
  time_slice : Z;
  lab6_priority : Z;
  filesp : Z
}.

Definition NULL : Z := 0.
Definition MAX_TIME_SLICE : Z := 20.
Definition PF_EXITING : Z := 1.
Definition WT_INTERRUPTED : Z := 0x80000000.
Definition WT_CHILD : Z := Z.lor 0x1 WT_INTERRUPTED.
Definition WT_KSEM : Z := 0x100.
Definition WT_TIMER : Z := Z.lor 0x2 WT_INTERRUPTED.
Definition WT_KBD : Z := Z.lor 0x4 WT_INTERRUPTED.

(** [struct run_queue] and [timer_t]. *)
Record run_queue := mk_rq { run_list : list Z; proc_num : Z; max_time_slice : Z }.
Record timer := mk_timer { expires : Z; tproc : Z }.

(** The lists and counters of proc.c. *)
Record ptable := mk_pt {
  proc_list : list Z;
  hash_list : list (list Z);
  nr_process : Z;
  next_safe : Z;
  last_pid : Z
}.

(** [wait_t]; the queue is the address of the [wait_queue_t]. *)
Record wait := mk_wait { wproc : Z; wakeup_flags : Z; wait_queue : Z }.

(** [struct trapframe]: the registers in the order of [struct pushregs], which
    is that of their numbers, and the saved coprocessor registers. *)
Record trapframe := mk_tf {
  tf_regs : list Z;
  tf_Status : Z; tf_Cause : Z; tf_EPC : Z; tf_BadVAddr : Z; tf_LO : Z; tf_HI : Z
}.

(** [ints] holds the counters of monitors and condition variables, [frames] the
    trap frames on the kernel stacks; [kstack_sp] and [loaded_pgdir] are what
    load_ksp and load_pgdir set. *)
Record ks := mk_ks {
  procs : gmap Z proc;
  current : Z;
  idleproc : Z;
  initproc : Z;
  rq : run_queue;
  timers : gmap Z timer;
  timer_list : list Z;
  table : ptable;
  waits : gmap Z wait;
  queues : gmap Z (list Z);
  sems : gmap Z Z;
  ints : gmap Z Z;
  frames : gmap Z trapframe;
  kstack_sp : Z;
  loaded_pgdir : Z
}.

Definition set_procs v k := mk_ks v (current k) (idleproc k) (initproc k) (rq k) (timers k)
  (timer_list k) (table k) (waits k) (queues k) (sems k) (ints k) (frames k)
  (kstack_sp k) (loaded_pgdir k).
Definition set_current v k := mk_ks (procs k) v (idleproc k) (initproc k) (rq k) (timers k)
  (timer_list k) (table k) (waits k) (queues k) (sems k) (ints k) (frames k)
  (kstack_sp k) (loaded_pgdir k).
Definition set_idleproc v k := mk_ks (procs k) (current k) v (initproc k) (rq k) (timers k)
  (timer_list k) (table k) (waits k) (queues k) (sems k) (ints k) (frames k)
  (kstack_sp k) (loaded_pgdir k).
Definition set_initproc v k := mk_ks (procs k) (current k) (idleproc k) v (rq k) (timers k)
  (timer_list k) (table k) (waits k) (queues k) (sems k) (ints k) (frames k)
  (kstack_sp k) (loaded_pgdir k).
Definition set_rq v k := mk_ks (procs k) (current k) (idleproc k) (initproc k) v (timers k)
  (timer_list k) (table k) (waits k) (queues k) (sems k) (ints k) (frames k)
  (kstack_sp k) (loaded_pgdir k).
Definition set_timers v l k := mk_ks (procs k) (current k) (idleproc k) (initproc k) (rq k) v l
  (table k) (waits k) (queues k) (sems k) (ints k) (frames k)
  (kstack_sp k) (loaded_pgdir k).
Definition set_table v k := mk_ks (procs k) (current k) (idleproc k) (initproc k) (rq k) (timers k)
  (timer_list k) v (waits k) (queues k) (sems k) (ints k) (frames k)
  (kstack_sp k) (loaded_pgdir k).
Definition set_waits v k := mk_ks (procs k) (current k) (idleproc k) (initproc k) (rq k) (timers k)
  (timer_list k) (table k) v (queues k) (sems k) (ints k) (frames k)
  (kstack_sp k) (loaded_pgdir k).
Definition set_queues v k := mk_ks (procs k) (current k) (idleproc k) (initproc k) (rq k) (timers k)
  (timer_list k) (table k) (waits k) v (sems k) (ints k) (frames k)
  (kstack_sp k) (loaded_pgdir k).
Definition set_sems v k := mk_ks (procs k) (current k) (idleproc k) (initproc k) (rq k) (timers k)
  (timer_list k) (table k) (waits k) (queues k) v (ints k) (frames k)
  (kstack_sp k) (loaded_pgdir k).
Definition set_ints v k := mk_ks (procs k) (current k) (idleproc k) (initproc k) (rq k) (timers k)
  (timer_list k) (table k) (waits k) (queues k) (sems k) v (frames k)
  (kstack_sp k) (loaded_pgdir k).
Definition set_frames v k := mk_ks (procs k) (current k) (idleproc k) (initproc k) (rq k) (timers k)
  (timer_list k) (table k) (waits k) (queues k) (sems k) (ints k) v
  (kstack_sp k) (loaded_pgdir k).

Definition set_running v sp pg k := mk_ks (procs k) v (idleproc k) (initproc k) (rq k) (timers k)
  (timer_list k) (table k) (waits k) (queues k) (sems k) (ints k) (frames k) sp pg.
Definition set_loaded pg k := set_running (current k) (kstack_sp k) pg k.

(** Field updates of a descriptor. *)
Definition with_state v p := mk_proc v (pid p) (runs p) (kstack p) (need_resched p) (parent p) (mm
  p) (context p) (tf p) (pgdir p) (flags p) (name p) (exit_code p) (wait_state p) (cptr p) (yptr p)
  (optr p) (time_slice p) (lab6_priority p) (filesp p).
Definition with_pid v p := mk_proc (state p) v (runs p) (kstack p) (need_resched p) (parent p) (mm
  p) (context p) (tf p) (pgdir p) (flags p) (name p) (exit_code p) (wait_state p) (cptr p) (yptr p)
  (optr p) (time_slice p) (lab6_priority p) (filesp p).
Definition with_runs v p := mk_proc (state p) (pid p) v (kstack p) (need_resched p) (parent p) (mm
  p) (context p) (tf p) (pgdir p) (flags p) (name p) (exit_code p) (wait_state p) (cptr p) (yptr p)
  (optr p) (time_slice p) (lab6_priority p) (filesp p).
Definition with_kstack v p := mk_proc (state p) (pid p) (runs p) v (need_resched p) (parent p) (mm
  p) (context p) (tf p) (pgdir p) (flags p) (name p) (exit_code p) (wait_state p) (cptr p) (yptr p)
  (optr p) (time_slice p) (lab6_priority p) (filesp p).
Definition with_need_resched v p := mk_proc (state p) (pid p) (runs p) (kstack p) v (parent p) (mm
  p) (context p) (tf p) (pgdir p) (flags p) (name p) (exit_code p) (wait_state p) (cptr p) (yptr p)
  (optr p) (time_slice p) (lab6_priority p) (filesp p).
Definition with_parent v p := mk_proc (state p) (pid p) (runs p) (kstack p) (need_resched p) v (mm
  p) (context p) (tf p) (pgdir p) (flags p) (name p) (exit_code p) (wait_state p) (cptr p) (yptr p)
  (optr p) (time_slice p) (lab6_priority p) (filesp p).
Definition with_mm v p := mk_proc (state p) (pid p) (runs p) (kstack p) (need_resched p) (parent p)
  v (context p) (tf p) (pgdir p) (flags p) (name p) (exit_code p) (wait_state p) (cptr p) (yptr p)
  (optr p) (time_slice p) (lab6_priority p) (filesp p).
Definition with_context v p := mk_proc (state p) (pid p) (runs p) (kstack p) (need_resched p)
  (parent p) (mm p) v (tf p) (pgdir p) (flags p) (name p) (exit_code p) (wait_state p) (cptr p)
  (yptr p) (optr p) (time_slice p) (lab6_priority p) (filesp p).
Definition with_tf v p := mk_proc (state p) (pid p) (runs p) (kstack p) (need_resched p) (parent p)
  (mm p) (context p) v (pgdir p) (flags p) (name p) (exit_code p) (wait_state p) (cptr p) (yptr p)
  (optr p) (time_slice p) (lab6_priority p) (filesp p).
Definition with_pgdir v p := mk_proc (state p) (pid p) (runs p) (kstack p) (need_resched p) (parent
  p) (mm p) (context p) (tf p) v (flags p) (name p) (exit_code p) (wait_state p) (cptr p) (yptr p)
  (optr p) (time_slice p) (lab6_priority p) (filesp p).
Definition with_flags v p := mk_proc (state p) (pid p) (runs p) (kstack p) (need_resched p) (parent
  p) (mm p) (context p) (tf p) (pgdir p) v (name p) (exit_code p) (wait_state p) (cptr p) (yptr p)
  (optr p) (time_slice p) (lab6_priority p) (filesp p).
Definition with_name v p := mk_proc (state p) (pid p) (runs p) (kstack p) (need_resched p) (parent
  p) (mm p) (context p) (tf p) (pgdir p) (flags p) v (exit_code p) (wait_state p) (cptr p) (yptr p)
  (optr p) (time_slice p) (lab6_priority p) (filesp p).
Definition with_exit_code v p := mk_proc (state p) (pid p) (runs p) (kstack p) (need_resched p)
  (parent p) (mm p) (context p) (tf p) (pgdir p) (flags p) (name p) v (wait_state p) (cptr p) (yptr
  p) (optr p) (time_slice p) (lab6_priority p) (filesp p).
Definition with_wait_state v p := mk_proc (state p) (pid p) (runs p) (kstack p) (need_resched p)
  (parent p) (mm p) (context p) (tf p) (pgdir p) (flags p) (name p) (exit_code p) v (cptr p) (yptr
  p) (optr p) (time_slice p) (lab6_priority p) (filesp p).
Definition with_cptr v p := mk_proc (state p) (pid p) (runs p) (kstack p) (need_resched p) (parent
  p) (mm p) (context p) (tf p) (pgdir p) (flags p) (name p) (exit_code p) (wait_state p) v (yptr p)
  (optr p) (time_slice p) (lab6_priority p) (filesp p).
Definition with_yptr v p := mk_proc (state p) (pid p) (runs p) (kstack p) (need_resched p) (parent
  p) (mm p) (context p) (tf p) (pgdir p) (flags p) (name p) (exit_code p) (wait_state p) (cptr p) v
  (optr p) (time_slice p) (lab6_priority p) (filesp p).
Definition with_optr v p := mk_proc (state p) (pid p) (runs p) (kstack p) (need_resched p) (parent
  p) (mm p) (context p) (tf p) (pgdir p) (flags p) (name p) (exit_code p) (wait_state p) (cptr p)
  (yptr p) v (time_slice p) (lab6_priority p) (filesp p).
Definition with_time_slice v p := mk_proc (state p) (pid p) (runs p) (kstack p) (need_resched p)
  (parent p) (mm p) (context p) (tf p) (pgdir p) (flags p) (name p) (exit_code p) (wait_state p)
  (cptr p) (yptr p) (optr p) v (lab6_priority p) (filesp p).
Definition with_priority v p := mk_proc (state p) (pid p) (runs p) (kstack p) (need_resched p)
  (parent p) (mm p) (context p) (tf p) (pgdir p) (flags p) (name p) (exit_code p) (wait_state p)
  (cptr p) (yptr p) (optr p) (time_slice p) v (filesp p).
Definition with_filesp v p := mk_proc (state p) (pid p) (runs p) (kstack p) (need_resched p) (parent
  p) (mm p) (context p) (tf p) (pgdir p) (flags p) (name p) (exit_code p) (wait_state p) (cptr p)
  (yptr p) (optr p) (time_slice p) (lab6_priority p) v.

Definition load_proc (a : Z) : M ks proc := fun k =>
  match procs k !! a with Some p => Ret (p, k) | None => Fault end.
Definition update_proc (a : Z) (f : proc -> proc) : M ks unit := fun k =>
  match procs k !! a with
  | Some p => Ret (tt, set_procs (<[a := f p]> (procs k)) k)
  | None => Fault
  end.

Definition remove (x : Z) (l : list Z) : list Z := filter (fun y => y <> x) l.

(** ** The round-robin class *)

Definition on_rq (f : run_queue -> run_queue) : M ks unit := modify (fun k => set_rq (f (rq k)) k).

Definition RR_init : M ks unit := on_rq (fun q => mk_rq [] 0 (max_time_slice q)).

Definition RR_enqueue (a : Z) : M ks unit :=
  k ← get;
  assert_ (bool_decide (a ∉ run_list (rq k)));;
  on_rq (fun q => mk_rq (run_list q ++ [a]) (proc_num q) (max_time_slice q));;
  p ← load_proc a;
  when ((time_slice p =? 0) || (max_time_slice (rq k) <? time_slice p))
    (update_proc a (with_time_slice (max_time_slice (rq k))));;
  on_rq (fun q => mk_rq (run_list q) (u32 (proc_num q + 1)) (max_time_slice q)).

Definition RR_dequeue (a : Z) : M ks unit :=
  k ← get;
  assert_ (bool_decide (a ∈ run_list (rq k)));;
  on_rq (fun q => mk_rq (remove a (run_list q)) (u32 (proc_num q - 1)) (max_time_slice q)).

Definition RR_pick_next : M ks (option Z) := k ← get; mret (head (run_list (rq k))).

Definition RR_proc_tick (a : Z) : M ks unit :=
  p ← load_proc a;
  when (0 <? time_slice p) (update_proc a (with_time_slice (time_slice p - 1)));;
  p ← load_proc a;
  when (time_slice p =? 0) (update_proc a (with_need_resched true)).

(** ** The core scheduler *)

Definition sched_class_enqueue (a : Z) : M ks unit :=
  k ← get; when (negb (a =? idleproc k)) (RR_enqueue a).

Definition sched_class_proc_tick (a : Z) : M ks unit :=
  k ← get;
  if negb (a =? idleproc k) then RR_proc_tick a else update_proc a (with_need_resched true).

Definition sched_init : M ks unit :=
  modify (fun k => set_timers (timers k) [] k);;
  on_rq (fun q => mk_rq (run_list q) (proc_num q) MAX_TIME_SLICE);;
  RR_init.

(** The warning for a runnable process only prints. *)
Definition wakeup_proc (a : Z) : M ks unit :=
  p ← load_proc a;
  assert_ (bool_decide (state p <> PROC_ZOMBIE));;
  when (bool_decide (state p <> PROC_RUNNABLE))
    (update_proc a (with_state PROC_RUNNABLE);;
     update_proc a (with_wait_state 0);;
     k ← get;
     when (negb (a =? current k)) (sched_class_enqueue a)).

Definition KSTACKSIZE : Z := 2 * 4096.

(** [switch_to] makes the new process go on where it left [proc_run]. *)
Definition proc_run (a : Z) : M ks unit :=
  k ← get;
  when (negb (a =? current k))
    (p ← load_proc a;
     modify (set_running a (u32 (kstack p + KSTACKSIZE)) (pgdir p))).

Definition schedule : M ks unit :=
  k ← get;
  update_proc (current k) (with_need_resched false);;
  p ← load_proc (current k);
  when (bool_decide (state p = PROC_RUNNABLE)) (sched_class_enqueue (current k));;
  o ← RR_pick_next;
  next ← match o with
         | Some n => RR_dequeue n;; mret n
         | None => mret (idleproc k)
         end;
  update_proc next (fun p => with_runs (runs p + 1) p);;
  when (negb (next =? current k)) (proc_run next).

(** ** Timers *)

Definition load_timer (t : Z) : M ks timer := fun k =>
  match timers k !! t with Some x => Ret (x, k) | None => Fault end.
Definition set_expires (t v : Z) : M ks unit := fun k =>
  match timers k !! t with
  | Some x => Ret (tt, set_timers (<[t := mk_timer v (tproc x)]> (timers k)) (timer_list k) k)
  | None => Fault
  end.
Definition set_timer_list (l : list Z) : M ks unit := modify (fun k => set_timers (timers k) l k).

(** The walk of [add_timer] over the timers after [pre]; [le] is where the
    timer is linked. *)
Fixpoint add_timer_loop (pre l : list Z) (t : Z) : M ks unit :=
  match l with
  | [] => set_timer_list (pre ++ [t])
  | next :: l =>
      x ← load_timer t;
      n ← load_timer next;
      if expires x <? expires n then
        set_expires next (u32 (expires n - expires x));;
        set_timer_list (pre ++ t :: next :: l)
      else
        set_expires t (u32 (expires x - expires n));;
        add_timer_loop (pre ++ [next]) l t
  end.

Definition add_timer (t : Z) : M ks unit :=
  x ← load_timer t;
  assert_ ((0 <? expires x) && negb (tproc x =? NULL));;
  k ← get;
  assert_ (bool_decide (t ∉ timer_list k));;
  add_timer_loop [] (timer_list k) t.

(** The entry after [t] in the list. *)
Fixpoint succ_of (t : Z) (l : list Z) : option Z :=
  match l with
  | [] => None
  | x :: l => if x =? t then head l else succ_of t l
  end.

Definition del_timer (t : Z) : M ks unit :=
  k ← get;
  when (bool_decide (t ∈ timer_list k))
    (x ← load_timer t;
     when (negb (expires x =? 0))
       match succ_of t (timer_list k) with
       | None => mret tt
       | Some next =>
           n ← load_timer next;
           set_expires next (u32 (expires n + expires x))
       end;;
     set_timer_list (remove t (timer_list k))).

(** The loop of [run_timer_list] over the timers that expire now: [l] is the
    list from the timer at hand on. *)
Fixpoint expire_loop (l : list Z) : M ks unit :=
  match l with
  | [] => mret tt
  | t :: l =>
      x ← load_timer t;
      if expires x =? 0 then
        p ← load_proc (tproc x);
        when (negb (wait_state p =? 0))
          (assert_ (negb (Z.land (wait_state p) WT_INTERRUPTED =? 0)));;
        wakeup_proc (tproc x);;
        del_timer t;;
        expire_loop l
      else mret tt
  end.

Definition run_timer_list : M ks unit :=
  k ← get;
  match timer_list k with
  | [] => mret tt
  | t :: l =>
      x ← load_timer t;
      assert_ (negb (expires x =? 0));;
      set_expires t (u32 (expires x - 1));;
      expire_loop (t :: l)
  end;;
  sched_class_proc_tick (current k).

End Proc.
