(* ===== verification/ProcSpec.v ===== *)
(** What the scheduler promises: every runnable process other than the current
    one and the idle one is queued exactly once, the queue is served in order,
    and the list of timer differences represents the absolute expiry times
    (src/ucore_OS/kern/schedule/default_sched.c, kern/schedule/sched.c). *)

From S2P Require Import Prelude Proc.

Module ProcSpec.
Import Proc.

(** ** The run queue *)

Definition runnable (k : ks) (a : Z) : Prop :=
  exists p, procs k !! a = Some p /\ state p = PROC_RUNNABLE.

Record sched_inv (k : ks) : Prop := {
  si_nodup : NoDup (run_list (rq k));
  si_queued a : a ∈ run_list (rq k) <-> runnable k a /\ a <> current k /\ a <> idleproc k;
  si_num : proc_num (rq k) = u32 (Z.of_nat (length (run_list (rq k))));
  si_current : is_Some (procs k !! current k);
  si_idle : runnable k (idleproc k)
}.

Lemma update_proc_eq k a p f :
  procs k !! a = Some p -> update_proc a f k = Ret (tt, set_procs (<[a := f p]> (procs k)) k).
Proof. unfold update_proc. by intros ->. Qed.
Lemma load_proc_eq k a p : procs k !! a = Some p -> load_proc a k = Ret (p, k).
Proof. unfold load_proc. by intros ->. Qed.

(** Enqueueing: the process goes to the end, with a time slice; the rest of
    the state is unchanged. *)
Definition refill (k : ks) (p : proc) : proc :=
  if (time_slice p =? 0) || (max_time_slice (rq k) <? time_slice p)
  then with_time_slice (max_time_slice (rq k)) p else p.

Definition enqueued (k : ks) (a : Z) (p : proc) : ks :=
  set_rq (mk_rq (run_list (rq k) ++ [a]) (u32 (proc_num (rq k) + 1)) (max_time_slice (rq k)))
    (set_procs (<[a := refill k p]> (procs k)) k).

Lemma RR_enqueue_eq k a p :
  procs k !! a = Some p -> a ∉ run_list (rq k) -> RR_enqueue a k = Ret (tt, enqueued k a p).
Proof.
  intros Hp Ha. unfold RR_enqueue. erewrite bind_Ret by done.
  rewrite bool_decide_true by done. erewrite bind_Ret by done. erewrite bind_Ret by done.
  erewrite bind_Ret by by apply load_proc_eq. unfold enqueued, refill.
  destruct (_ || _); simpl.
  - erewrite bind_Ret by by apply update_proc_eq. done.
  - erewrite bind_Ret by done. unfold on_rq, modify. rewrite insert_id by done. by destruct k.
Qed.

Lemma refill_state k p : state (refill k p) = state p.
Proof. unfold refill. by destruct (_ || _). Qed.

Lemma RR_dequeue_eq k a :
  a ∈ run_list (rq k) ->
  RR_dequeue a k = Ret (tt, set_rq (mk_rq (remove a (run_list (rq k))) (u32 (proc_num (rq k) - 1))
                                     (max_time_slice (rq k))) k).
Proof. intros Ha. unfold RR_dequeue. erewrite bind_Ret by done. by rewrite bool_decide_true. Qed.

Lemma remove_head a l : NoDup (a :: l) -> remove a (a :: l) = l.
Proof. intros [Ha _]%NoDup_cons. apply (filter_middle []); set_solver. Qed.

(** A descriptor up to what the scheduler accounts in it. *)
Definition core_of (p : proc) : proc := with_time_slice 0 (with_runs 0 (with_need_resched false p)).
Definition same_proc (p p' : proc) : Prop := core_of p' = core_of p.

(** Every other field is the same. *)
Lemma same_proc_field {A} (f : proc -> A) p p' :
  (forall q, f (core_of q) = f q) -> same_proc p p' -> f p' = f p.
Proof. intros Hf Hs. rewrite <- (Hf p'), <- (Hf p). by rewrite Hs. Qed.

(** ** Waking up *)

(** The state after [a] was woken up. *)
Definition woken (k : ks) (a : Z) (p : proc) (k' : ks) : Prop :=
  sched_inv k' /\ runnable k' a /\
  current k' = current k /\ idleproc k' = idleproc k /\
  timers k' = timers k /\ timer_list k' = timer_list k /\ queues k' = queues k /\
  waits k' = waits k /\ sems k' = sems k /\ table k' = table k /\ ints k' = ints k /\
  (forall b, b <> a -> procs k' !! b = procs k !! b) /\
  (exists p', procs k' !! a = Some p' /\
     same_proc (if decide (state p = PROC_RUNNABLE) then p
                else with_wait_state 0 (with_state PROC_RUNNABLE p)) p') /\
  frames k' = frames k /\ initproc k' = initproc k /\
  kstack_sp k' = kstack_sp k /\ loaded_pgdir k' = loaded_pgdir k /\
  (exists w, run_list (rq k') = run_list (rq k) ++ w) /\ (state p = PROC_RUNNABLE -> procs k' = procs k).

Lemma wakeup_inv k a p :
  sched_inv k -> procs k !! a = Some p -> state p <> PROC_ZOMBIE ->
  exists k', wakeup_proc a k = Ret (tt, k') /\ woken k a p k'.
Proof.
  intros Hi Hp Hz. unfold wakeup_proc, woken. erewrite bind_Ret by by apply load_proc_eq.
  rewrite (bool_decide_true (state p <> PROC_ZOMBIE)) by done. erewrite bind_Ret by done.
  destruct (decide (state p = PROC_RUNNABLE)) as [Hr|Hr].
  { rewrite bool_decide_false by naive_solver. exists k. simpl. split; [done|].
    split_and!; try done; [by exists p|by exists p|]. exists []. by rewrite app_nil_r. }
  rewrite bool_decide_true by done. simpl. erewrite bind_Ret by by apply update_proc_eq.
  erewrite bind_Ret by (apply update_proc_eq; simpl; apply lookup_insert_eq).
  erewrite bind_Ret by done. simpl. rewrite insert_insert_eq.
  set (p1 := with_wait_state 0 (with_state PROC_RUNNABLE p)).
  set (k1 := set_procs _ _).
  destruct Hi as [Hnd Hq Hn Hc Hidle].
  assert (Hai : a <> idleproc k).
  { intros ->. destruct Hidle as (pi & Hpi & ?). congruence. }
  assert (Hidle1 : runnable k1 (idleproc k)).
  { destruct Hidle as (pi & ? & ?). exists pi. simpl. by rewrite lookup_insert_ne. }
  assert (Hc1 : is_Some (procs k1 !! current k)).
  { simpl. destruct (decide (current k = a)) as [->|]; [rewrite lookup_insert_eq; eauto|].
    by rewrite lookup_insert_ne. }
  destruct (Z.eqb_spec a (current k)) as [->|Hac]; simpl.
  { exists k1. split; [done|]. split_and!; try done.
    - split; try done. intros b. simpl. rewrite Hq. unfold runnable. simpl.
      destruct (decide (b = current k)) as [->|]; [naive_solver|]. by rewrite lookup_insert_ne.
    - exists p1. simpl. by rewrite lookup_insert_eq.
    - intros b Hb. simpl. by rewrite lookup_insert_ne.
    - exists p1. simpl. by rewrite lookup_insert_eq.
    - exists []. by rewrite app_nil_r. }
  assert (Haq : a ∉ run_list (rq k)).
  { rewrite Hq. intros ((p' & Hp' & ?) & _). congruence. }
  unfold sched_class_enqueue. erewrite bind_Ret by done. simpl.
  replace (a =? idleproc k) with false by lia. simpl.
  rewrite (RR_enqueue_eq k1 a p1); [|simpl; apply lookup_insert_eq|done].
  exists (enqueued k1 a p1). split; [done|]. unfold enqueued. simpl. rewrite insert_insert_eq.
  assert (Hst := refill_state k1 p1). split_and!; try done.
  - split; simpl.
    + apply NoDup_app. split_and!; [done| |apply NoDup_singleton]. set_solver.
    + intros b. rewrite elem_of_app, list_elem_of_singleton, Hq. unfold runnable. simpl.
      destruct (decide (b = a)) as [->|].
      * rewrite lookup_insert_eq. naive_solver.
      * rewrite lookup_insert_ne by done. naive_solver.
    + rewrite Hn, length_app. simpl. unfold u32. rewrite Zplus_mod_idemp_l. f_equal. lia.
    + destruct (decide (current k = a)) as [Heq|]; [congruence|]. by rewrite lookup_insert_ne.
    + destruct Hidle as (pi & ? & ?). exists pi. simpl. by rewrite lookup_insert_ne.
  - eexists. simpl. rewrite lookup_insert_eq. done.
  - intros b Hb. by rewrite lookup_insert_ne.
  - eexists. rewrite lookup_insert_eq. split; [done|].
    unfold refill. by destruct (_ || _).
  - by eexists.
Qed.

(** Processes have been woken: the queue has grown at its end, and what could
    run is as it was. *)
Record grown (k k' : ks) : Prop := {
  gr_queue : exists w, run_list (rq k') = run_list (rq k) ++ w;
  gr_current : current k' = current k;
  gr_idle : idleproc k' = idleproc k;
  gr_frames : frames k' = frames k;
  gr_procs b : runnable k b -> procs k' !! b = procs k !! b
}.

Lemma grown_refl k : grown k k.
Proof. split; try done. exists []. by rewrite app_nil_r. Qed.
Lemma grown_runnable k k' b : grown k k' -> runnable k b -> runnable k' b.
Proof. intros Hg Hb. unfold runnable. rewrite (gr_procs k k' Hg b Hb). exact Hb. Qed.
Lemma grown_trans k1 k2 k3 : grown k1 k2 -> grown k2 k3 -> grown k1 k3.
Proof.
  intros Hg1 Hg2. destruct (gr_queue _ _ Hg1) as [w1 Hw1], (gr_queue _ _ Hg2) as [w2 Hw2].
  split; [|destruct Hg1, Hg2; congruence..|].
  - exists (w1 ++ w2). by rewrite Hw2, Hw1, app_assoc.
  - intros b Hb. rewrite (gr_procs _ _ Hg2) by by eapply grown_runnable. by apply Hg1.
Qed.

Lemma woken_grown k a p k' : procs k !! a = Some p -> woken k a p k' -> grown k k'.
Proof.
  intros Hp (_ & _ & Hc & Hi & _ & _ & _ & _ & _ & _ & _ & Ho & _ & Hf & _ & _ & _ & Hq & Hr). split; try done.
  intros b Hb. destruct (decide (b = a)) as [->|]; [|by apply Ho]. rewrite Hr; [done|].
  destruct Hb as (q & Hq' & Hs). congruence.
Qed.

(** ** Scheduling *)

#[global] Instance runnable_dec k a : Decision (runnable k a).
Proof.
  unfold runnable. destruct (procs k !! a) as [p|]; [|right; naive_solver].
  destruct (decide (state p = PROC_RUNNABLE)); [left; eauto|right; naive_solver].
Defined.

(** The queue that [schedule] serves: the current process joins its end when
    it can go on and is not the idle one. *)
Definition serving (k : ks) : list Z :=
  run_list (rq k) ++
  (if decide (runnable k (current k) /\ current k <> idleproc k) then [current k] else []).

Lemma serving_spec k a :
  sched_inv k -> a ∈ serving k <-> runnable k a /\ a <> idleproc k.
Proof.
  intros [_ Hq _ _ _]. unfold serving. rewrite elem_of_app, Hq. case_decide; [|set_solver].
  rewrite list_elem_of_singleton. destruct (decide (a = current k)) as [->|]; naive_solver.
Qed.

(** The process that will run is runnable. *)
Lemma served_runnable k : sched_inv k -> runnable k (default (idleproc k) (head (serving k))).
Proof.
  intros Hi. destruct (serving k) as [|n l] eqn:E; simpl; [apply (si_idle k Hi)|].
  apply (serving_spec k n Hi). rewrite E. apply list_elem_of_here.
Qed.

Lemma serving_nodup k : sched_inv k -> NoDup (serving k).
Proof.
  intros [Hnd Hq _ _ _]. unfold serving. apply NoDup_app. split_and!; [done| |].
  - intros x Hx. case_decide; set_solver.
  - case_decide; repeat constructor; set_solver.
Qed.

(** A change that keeps which processes are runnable. *)
Definition same_runnable (k k' : ks) : Prop := forall a, runnable k' a <-> runnable k a.

Lemma same_runnable_insert k k' a p p' :
  procs k !! a = Some p -> procs k' = <[a := p']> (procs k) -> state p' = state p ->
  same_runnable k k'.
Proof.
  intros Hp Hk Hs b. unfold runnable. rewrite Hk. destruct (decide (b = a)) as [->|].
  - rewrite lookup_insert_eq. split; intros (q & Hq & Hr); [exists p|exists p'];
      (split; [done|]); congruence.
  - by rewrite lookup_insert_ne.
Qed.

(** What scheduling leaves alone: the objects other than the run queue, and of
    a process everything but its accounting. *)
Record same_core (k k' : ks) : Prop := {
  sc_procs : core_of <$> procs k' = core_of <$> procs k;
  sc_waits : waits k' = waits k;
  sc_queues : queues k' = queues k;
  sc_sems : sems k' = sems k;
  sc_timers : timers k' = timers k /\ timer_list k' = timer_list k;
  sc_table : table k' = table k;
  sc_ints : ints k' = ints k;
  sc_frames : frames k' = frames k;
  sc_initproc : initproc k' = initproc k
}.

Lemma same_core_trans k1 k2 k3 : same_core k1 k2 -> same_core k2 k3 -> same_core k1 k3.
Proof.
  intros [P1 W1 Q1 S1 [T1 L1] B1 I1 F1 N1] [P2 W2 Q2 S2 [T2 L2] B2 I2 F2 N2].
  split; try congruence. split; congruence.
Qed.

Lemma same_core_insert k a p p' q :
  procs k !! a = Some p -> same_proc p p' ->
  same_core k (set_rq q (set_procs (<[a := p']> (procs k)) k)).
Proof.
  intros Hp Hs. split; try done. simpl. rewrite fmap_insert, Hs, <- fmap_insert. by rewrite insert_id.
Qed.

(** A component that scheduling does not account in. *)
Lemma same_core_view {B} (f : proc -> B) k k' :
  (forall q, f (core_of q) = f q) -> same_core k k' -> f <$> procs k' = f <$> procs k.
Proof.
  intros Hf Hc. assert (Hx : forall n : gmap Z proc, f <$> n = (f ∘ core_of) <$> n).
  { intros n. apply map_fmap_ext. intros i x _. simpl. by rewrite Hf. }
  rewrite (Hx (procs k')), (Hx (procs k)). apply view_trans, Hc.
Qed.

Lemma refill_same k p : same_proc p (refill k p).
Proof. unfold refill. by destruct (_ || _). Qed.

(** The first half of [schedule]: the current process is queued again. *)
Lemma requeue_eq k :
  sched_inv k ->
  exists k2, (update_proc (current k) (with_need_resched false);;
              p ← load_proc (current k);
              when (bool_decide (state p = PROC_RUNNABLE)) (sched_class_enqueue (current k))) k
             = Ret (tt, k2) /\
    run_list (rq k2) = serving k /\ proc_num (rq k2) = u32 (Z.of_nat (length (serving k))) /\
    same_runnable k k2 /\ current k2 = current k /\ idleproc k2 = idleproc k /\
    is_Some (procs k2 !! current k) /\ same_core k k2.
Proof.
  intros Hi. assert (Hi0 := Hi). destruct Hi as [Hnd Hq Hn [p Hp] Hidle].
  erewrite bind_Ret by by apply update_proc_eq.
  erewrite bind_Ret by (apply load_proc_eq; simpl; apply lookup_insert_eq).
  set (k1 := set_procs _ k).
  assert (Hs1 : same_runnable k k1) by (by eapply same_runnable_insert).
  assert (Hsc1 : same_core k k1).
  { replace k1 with (set_rq (rq k) k1) by (by destruct k). by apply (same_core_insert k _ p). }
  unfold serving. destruct (decide (state p = PROC_RUNNABLE)) as [Hr|Hr].
  2:{ rewrite bool_decide_false by done. exists k1. split; [done|].
      rewrite decide_False by (intros [(p' & ? & ?) _]; congruence). rewrite app_nil_r.
      split_and!; try done. simpl. rewrite lookup_insert_eq. eauto. }
  rewrite bool_decide_true by done. cbn [when]. unfold sched_class_enqueue.
  erewrite bind_Ret by done. destruct (Z.eqb_spec (current k) (idleproc k)) as [Hci|Hci].
  { exists k1. simpl. replace (current k =? idleproc k) with true by lia. split; [done|].
    rewrite decide_False by naive_solver. rewrite app_nil_r.
    split_and!; try done. simpl. rewrite lookup_insert_eq. eauto. }
  simpl. replace (current k =? idleproc k) with false by lia. cbn [negb when].
  erewrite (RR_enqueue_eq k1); [|simpl; apply lookup_insert_eq|simpl; rewrite Hq; naive_solver].
  eexists. split; [done|]. rewrite decide_True by (split; [by exists p|done]).
  simpl. split_and!; try done.
  - rewrite Hn, length_app. simpl. unfold u32. rewrite Zplus_mod_idemp_l. f_equal. lia.
  - intros a. rewrite <- (Hs1 a). symmetry. symmetry.
    eapply (same_runnable_insert k1); [simpl; apply lookup_insert_eq|done|apply refill_state].
  - rewrite insert_insert_eq, lookup_insert_eq. eauto.
  - eapply same_core_trans; [exact Hsc1|].
    eapply (same_core_insert k1); [simpl; apply lookup_insert_eq|apply refill_same].
Qed.

Lemma schedule_eq k :
  sched_inv k ->
  exists k', schedule k = Ret (tt, k') /\ sched_inv k' /\ same_runnable k k' /\
    idleproc k' = idleproc k /\
    current k' = default (idleproc k) (head (serving k)) /\
    run_list (rq k') = tail (serving k) /\ same_core k k'.
Proof.
  intros Hi. destruct (requeue_eq k Hi) as (k2 & Hrq & Hl2 & Hn2 & Hs2 & Hc2 & Hi2 & Hp2 & Hsc2).
  unfold schedule. erewrite bind_Ret by done.
  assert (Hassoc : forall (m1 : M ks unit) (m2 : M ks proc) (m3 : proc -> M ks unit) (m4 : M ks unit) s,
    (m1;; p ← m2; m3 p;; m4) s = ((m1;; p ← m2; m3 p);; m4) s).
  { intros. unfold mbind, M_bind. destruct (m1 s) as [[? s1]| | |]; try done.
    by destruct (m2 s1) as [[? s2]| | |]. }
  rewrite Hassoc, (bind_Ret _ _ _ _ _ Hrq). unfold RR_pick_next.
  erewrite bind_Ret by (erewrite bind_Ret by done; done). rewrite Hl2.
  assert (Hnd := serving_nodup k Hi). assert (Hsp := fun a => serving_spec k a Hi).
  set (nx := default (idleproc k) (head (serving k))).
  assert (Hdq : exists k3, (match head (serving k) with
       | Some n => RR_dequeue n;; mret n
       | None => mret (idleproc k) end) k2 = Ret (nx, k3) /\ procs k3 = procs k2 /\
       run_list (rq k3) = tail (serving k) /\
       proc_num (rq k3) = u32 (Z.of_nat (length (tail (serving k)))) /\
       current k3 = current k /\ idleproc k3 = idleproc k /\ same_core k k3).
  { unfold nx. destruct (serving k) as [|n l] eqn:E; simpl.
    - exists k2. split; [done|]. by rewrite Hl2, Hn2.
    - eexists. erewrite bind_Ret by (apply RR_dequeue_eq; rewrite Hl2; set_solver).
      split; [done|]. simpl. rewrite Hl2, remove_head by done. split_and!; try done.
      + rewrite Hn2. simpl. unfold u32. rewrite Zminus_mod_idemp_l. f_equal. lia.
      + destruct Hsc2. by split. }
  destruct Hdq as (k3 & Hdq & Hp3 & Hl3 & Hn3 & Hc3 & Hi3 & Hsc3).
  rewrite (bind_Ret _ _ _ _ _ Hdq).
  assert (Hrn : runnable k nx).
  { unfold nx. destruct (serving k) as [|n l] eqn:E; simpl; [apply (si_idle k Hi)|].
    apply Hsp. set_solver. }
  apply Hs2 in Hrn as (pn & Hpn & Hrn). rewrite <- Hp3 in Hpn.
  erewrite bind_Ret by by apply update_proc_eq.
  set (k4 := set_procs _ k3).
  assert (Hs4 : same_runnable k k4).
  { intros a. rewrite <- (Hs2 a). unfold runnable at 2. rewrite <- Hp3. fold (runnable k3 a).
    by apply (same_runnable_insert k3 k4 nx pn (with_runs (runs pn + 1) pn)). }
  assert (Hrun : exists sp pg, when (negb (nx =? current k)) (proc_run nx) k4
                               = Ret (tt, set_running nx sp pg k4)).
  { destruct (Z.eqb_spec nx (current k)) as [He|He]; cbn [negb when].
    - exists (kstack_sp k3), (loaded_pgdir k3). unfold mret, M_ret.
      do 2 f_equal. unfold set_running, k4. simpl. rewrite He, <- Hc3. by destruct k3.
    - unfold proc_run. erewrite bind_Ret by done. simpl. rewrite Hc3.
      replace (nx =? current k) with false by lia. cbn [negb when].
      erewrite bind_Ret by (apply load_proc_eq; simpl; apply lookup_insert_eq). by eexists _, _. }
  destruct Hrun as (sp & pg & Hrun). exists (set_running nx sp pg k4). split; [done|].
  assert (Hsc4 : same_core k (set_running nx sp pg k4)).
  { eapply same_core_trans; [exact Hsc3|].
    assert (Hi4 : same_core k3 (set_rq (rq k3) k4)) by (by apply (same_core_insert k3 _ pn)).
    destruct Hi4. by split. }
  split_and!; try done. split; simpl; rewrite ?Hl3.
  - destruct (serving k); [constructor|]. simpl. by apply NoDup_cons in Hnd as [_ ?].
  - intros a. rewrite Hi3. change (runnable (set_running nx sp pg k4) a) with (runnable k4 a).
    rewrite (Hs4 a). unfold nx. destruct (serving k) as [|n l] eqn:E; simpl.
    + rewrite elem_of_nil. specialize (Hsp a). rewrite elem_of_nil in Hsp. naive_solver.
    + specialize (Hsp a). rewrite elem_of_cons in Hsp. apply NoDup_cons in Hnd as [Hnl _].
      split; [intros Ha; split; [apply Hsp; auto|split; [naive_solver|apply Hsp; auto]]|naive_solver].
  - done.
  - rewrite lookup_insert_eq. eauto.
  - rewrite Hi3. apply (Hs4 (idleproc k)), (si_idle k Hi).
Qed.

(** The current process leaves the runnable ones. *)
Lemma sleep_inv k k' p p' :
  sched_inv k -> procs k !! current k = Some p -> current k <> idleproc k ->
  procs k' = <[current k := p']> (procs k) -> state p' <> PROC_RUNNABLE ->
  current k' = current k -> idleproc k' = idleproc k -> rq k' = rq k ->
  sched_inv k' /\ forall a, runnable k' a <-> runnable k a /\ a <> current k.
Proof.
  intros [Hnd Hq Hn Hc Hi] Hp Hci Hpk Hst Hck Hik Hrk.
  assert (Hrun : forall a, runnable k' a <-> runnable k a /\ a <> current k).
  { intros a. unfold runnable. rewrite Hpk. destruct (decide (a = current k)) as [->|Ha].
    - rewrite lookup_insert_eq. naive_solver.
    - rewrite lookup_insert_ne by done. naive_solver. }
  split; [|done]. split; rewrite ?Hrk, ?Hck, ?Hik; try done.
  - intros a. rewrite Hq, Hrun. naive_solver.
  - rewrite Hpk, lookup_insert_eq. eauto.
  - by apply Hrun.
Qed.

Fixpoint schedules (n : nat) : M ks unit :=
  match n with O => mret tt | S n => schedule;; schedules n end.

(** ** Timers *)

(** The absolute expiry times that the differences in the list stand for. *)
Fixpoint deadlines (tm : gmap Z timer) (base : Z) (l : list Z) : list (Z * Z) :=
  match l with
  | [] => []
  | t :: l =>
      let e := base + default 0 (expires <$> tm !! t) in (t, e) :: deadlines tm e l
  end.

Definition dl (k : ks) : list (Z * Z) := deadlines (timers k) 0 (timer_list k).

Record timers_ok (k : ks) : Prop := {
  to_nodup : NoDup (timer_list k);
  to_timer t : t ∈ timer_list k -> exists x, timers k !! t = Some x /\ 0 <= expires x;
  to_bound : Forall (fun d => 0 < d.2 < 2 ^ 32) (dl k)
}.

(** Insertion in order of expiry, after the deadlines that are equal. *)
Fixpoint insert_dl (d : Z * Z) (l : list (Z * Z)) : list (Z * Z) :=
  match l with
  | [] => [d]
  | x :: l => if d.2 <? x.2 then d :: x :: l else x :: insert_dl d l
  end.

Lemma insert_dl_perm d l : insert_dl d l ≡ₚ d :: l.
Proof.
  induction l as [|x l IH]; simpl; [done|]. destruct (_ <? _); [done|]. rewrite IH. apply perm_swap.
Qed.

Lemma deadlines_fst tm base l : (deadlines tm base l).*1 = l.
Proof. revert base. induction l as [|t l IH]; intros base; simpl; [done|]. f_equal. apply IH. Qed.

Lemma deadlines_ext tm tm' base l :
  (forall t, t ∈ l -> tm' !! t = tm !! t) -> deadlines tm' base l = deadlines tm base l.
Proof.
  revert base. induction l as [|t l IH]; intros base Hl; simpl; [done|].
  rewrite Hl by set_solver. f_equal. apply IH. intros u Hu. apply Hl. set_solver.
Qed.

Definition span (tm : gmap Z timer) (l : list Z) : Z :=
  foldr (fun t n => default 0 (expires <$> tm !! t) + n) 0 l.

Lemma deadlines_app tm base l1 l2 :
  deadlines tm base (l1 ++ l2) = deadlines tm base l1 ++ deadlines tm (base + span tm l1) l2.
Proof.
  revert base. induction l1 as [|t l1 IH]; intros base; simpl; [by rewrite Z.add_0_r|].
  rewrite IH. do 3 f_equal. lia.
Qed.

(** Shifting the base of a list whose first difference absorbs it. *)
Lemma deadlines_shift tm tm' base base' t l x x' :
  tm !! t = Some x -> tm' !! t = Some x' -> base + expires x = base' + expires x' ->
  (forall u, u ∈ l -> tm' !! u = tm !! u) ->
  deadlines tm' base' (t :: l) = deadlines tm base (t :: l).
Proof.
  intros Hx Hx' He Hl. simpl. rewrite Hx, Hx'. simpl. rewrite <- He. f_equal. by apply deadlines_ext.
Qed.

Lemma set_expires_eq k t v x :
  timers k !! t = Some x ->
  set_expires t v k = Ret (tt, set_timers (<[t := mk_timer v (tproc x)]> (timers k)) (timer_list k) k).
Proof. unfold set_expires. by intros ->. Qed.
Lemma load_timer_eq k t x : timers k !! t = Some x -> load_timer t k = Ret (x, k).
Proof. unfold load_timer. by intros ->. Qed.

(** The walk of [add_timer]: [base] is the deadline of the last timer passed. *)
Lemma add_timer_loop_eq l k pre t x base :
  timers k !! t = Some x -> t ∉ l -> NoDup l -> is_u32 (expires x) ->
  (forall u, u ∈ l -> exists y, timers k !! u = Some y /\ is_u32 (expires y)) ->
  exists k' tm, add_timer_loop pre l t k = Ret (tt, k') /\
    k' = set_timers tm (pre ++ (insert_dl (t, base + expires x) (deadlines (timers k) base l)).*1) k /\
    deadlines tm base (insert_dl (t, base + expires x) (deadlines (timers k) base l)).*1
    = insert_dl (t, base + expires x) (deadlines (timers k) base l) /\
    (forall u, u ∉ t :: l -> tm !! u = timers k !! u) /\
    (forall u, u ∈ t :: l -> exists y y', tm !! u = Some y /\ timers k !! u = Some y' /\
       tproc y = tproc y' /\ is_u32 (expires y)).
Proof.
  revert k pre x base. induction l as [|n l IH]; intros k pre x base Hx Ht Hnd Hu Hl.
  - eexists _, (timers k). split; [done|]. split; [done|]. simpl. rewrite Hx. simpl.
    split_and!; try done. intros u Hu'. apply list_elem_of_singleton in Hu' as ->. naive_solver.
  - apply NoDup_cons in Hnd as [Hn Hnd]. rewrite not_elem_of_cons in Ht. destruct Ht as [Htn Ht].
    destruct (Hl n) as (y & Hy & Huy); [set_solver|]. cbn [add_timer_loop deadlines].
    erewrite bind_Ret by by apply load_timer_eq. erewrite bind_Ret by by apply load_timer_eq.
    rewrite Hy. simpl (default 0 _). cbn [insert_dl snd].
    destruct (Z.ltb_spec (expires x) (expires y)) as [Hlt|Hge].
    + erewrite bind_Ret by by apply set_expires_eq. 
      rewrite u32_id by (unfold is_u32 in *; lia).
      replace (base + expires x <? base + expires y) with true by lia.
      eexists _, _. split; [done|]. split; [simpl; by rewrite deadlines_fst|]. simpl.
      rewrite lookup_insert_ne, Hx, lookup_insert_eq by done. simpl. split_and!.
      * do 2 f_equal; [f_equal; lia|]. rewrite deadlines_fst.
        replace (base + expires x + (expires y - expires x)) with (base + expires y) by lia.
        apply deadlines_ext. intros u Hu'. rewrite lookup_insert_ne; [done|]. set_solver.
      * intros u Hu'. rewrite lookup_insert_ne; [done|set_solver].
      * intros u Hu'. destruct (decide (u = n)) as [->|].
        -- rewrite lookup_insert_eq. eexists _, y. split_and!; try done. unfold is_u32 in *; simpl; lia.
        -- rewrite lookup_insert_ne by done. rewrite !elem_of_cons in Hu'.
           destruct Hu' as [->|[->|Hu']]; [naive_solver|done|].
           destruct (Hl u) as (z & ? & ?); [set_solver|]. naive_solver.
    + erewrite bind_Ret by by apply set_expires_eq. rewrite u32_id by (unfold is_u32 in *; lia).
      replace (base + expires x <? base + expires y) with false by lia.
      set (k1 := set_timers _ _ k).
      destruct (IH k1 (pre ++ [n]) (mk_timer (expires x - expires y) (tproc x)) (base + expires y))
        as (k' & tm & Hr & Hk' & Hd & Ho & Hs); try done.
      { simpl. apply lookup_insert_eq. }
      { unfold is_u32 in *. simpl. lia. }
      { intros u Hu'. simpl. rewrite lookup_insert_ne by set_solver. apply Hl. set_solver. }
      simpl in Hr, Hk', Hd. replace (base + expires y + (expires x - expires y)) with (base + expires x)
        in Hk', Hd by lia.
      assert (Hext : deadlines (timers k1) (base + expires y) l = deadlines (timers k) (base + expires y) l).
      { apply deadlines_ext. intros u Hu'. simpl. rewrite lookup_insert_ne; [done|]. set_solver. }
      simpl in Hext. rewrite Hext in Hk', Hd.
      exists k', tm. split; [done|]. split; [rewrite Hk'; simpl; by rewrite <- app_assoc|].
      assert (Hnt : tm !! n = Some y).
      { rewrite Ho by set_solver. simpl. by rewrite lookup_insert_ne. }
      split; [rewrite fmap_cons; cbn [deadlines fst]; rewrite Hnt; simpl (default 0 _); by rewrite Hd|].
      split.
      * intros u Hu'. rewrite Ho by set_solver. simpl. rewrite lookup_insert_ne; [done|set_solver].
      * intros u Hu'. destruct (decide (u = n)) as [->|]; [naive_solver|].
        destruct (Hs u) as (z & z' & ? & Hz' & ? & ?); [set_solver|]. exists z.
        simpl in Hz'. destruct (decide (u = t)) as [->|].
        -- rewrite lookup_insert_eq in Hz'. injection Hz' as <-. exists x. done.
        -- rewrite lookup_insert_ne in Hz' by done. by exists z'.
Qed.

Lemma remove_middle (l1 : list Z) t l2 : NoDup (l1 ++ t :: l2) -> remove t (l1 ++ t :: l2) = l1 ++ l2.
Proof.
  intros (_ & H1 & [H2 _]%NoDup_cons)%NoDup_app. apply filter_middle; set_solver.
Qed.

Lemma succ_of_eq (l1 : list Z) t l2 : t ∉ l1 -> succ_of t (l1 ++ t :: l2) = head l2.
Proof.
  induction l1 as [|y l1 IH]; simpl; intros Ht; [by rewrite Z.eqb_refl|].
  rewrite not_elem_of_cons in Ht. destruct (Z.eqb_spec y t); [naive_solver|]. apply IH. naive_solver.
Qed.

(** Unlinking a timer: the next one takes over its difference. *)
Lemma del_timer_eq k l1 t l2 x :
  timer_list k = l1 ++ t :: l2 -> NoDup (timer_list k) -> timers k !! t = Some x ->
  (forall n y, expires x <> 0 -> head l2 = Some n -> timers k !! n = Some y ->
     is_u32 (expires y + expires x)) ->
  (forall u, u ∈ l2 -> is_Some (timers k !! u)) ->
  exists tm, del_timer t k = Ret (tt, set_timers tm (l1 ++ l2) k) /\
    (forall base, deadlines tm base l2 = deadlines (timers k) (base + expires x) l2) /\
    (forall u, u ∉ l2 \/ expires x = 0 -> tm !! u = timers k !! u) /\
    (forall u y, tm !! u = Some y -> exists y', timers k !! u = Some y' /\ tproc y = tproc y').
Proof.
  intros Hl Hnd Hx Hb Hs. unfold del_timer. erewrite bind_Ret by done.
  rewrite bool_decide_true by (rewrite Hl; set_solver). cbn [when].
  erewrite bind_Ret by by apply load_timer_eq. rewrite Hl in Hnd |- *.
  assert (Ht1 : t ∉ l1) by (apply NoDup_app in Hnd as (_ & H1 & _); set_solver).
  assert (Hnl : NoDup l2) by (by apply NoDup_app in Hnd as (_ & _ & [_ ?]%NoDup_cons)).
  rewrite succ_of_eq, remove_middle by done. destruct (Z.eqb_spec (expires x) 0) as [H0|H0].
  - erewrite bind_Ret by done. exists (timers k). split; [done|].
    split_and!; try done; [intros; by rewrite H0, Z.add_0_r|naive_solver].
  - cbn [negb when]. destruct l2 as [|n l2]; simpl.
    + erewrite bind_Ret by done. exists (timers k). split; [done|]. naive_solver.
    + destruct (Hs n) as [y Hy]; [set_solver|].
      erewrite bind_Ret by (erewrite bind_Ret by (by apply load_timer_eq); by apply set_expires_eq).
      apply NoDup_cons in Hnl as [Hn Hnl]. rewrite u32_id by (by eapply Hb).
      eexists. split; [done|]. split_and!.
      * intros base. simpl. rewrite lookup_insert_eq, Hy. simpl.
        replace (base + (expires y + expires x)) with (base + expires x + expires y) by lia.
        f_equal. apply deadlines_ext. intros u Hu. rewrite lookup_insert_ne; [done|]. set_solver.
      * intros u [Hu|]; [|done]. simpl. rewrite lookup_insert_ne; [done|]. set_solver.
      * intros u z Hz. simpl in Hz. destruct (decide (u = n)) as [->|].
        -- rewrite lookup_insert_eq in Hz. injection Hz as <-. by exists y.
        -- rewrite lookup_insert_ne in Hz by done. by exists z.
Qed.

(** A timer whose process can be woken. *)
Definition wakeable (k : ks) (t : Z) : Prop :=
  exists x p, timers k !! t = Some x /\ procs k !! tproc x = Some p /\ state p <> PROC_ZOMBIE /\
    (wait_state p = 0 \/ Z.land (wait_state p) WT_INTERRUPTED <> 0).

Lemma wakeable_woken k a p k' t :
  procs k !! a = Some p -> woken k a p k' -> (wait_state p = 0 \/ Z.land (wait_state p) WT_INTERRUPTED <> 0) ->
  wakeable k t -> wakeable k' t.
Proof.
  intros Hp (Hi & (pr & Hpr & Hr) & _ & _ & Ht & _ & _ & _ & _ & _ & _ & Ho & (p' & Hp' & Hs) & _) Hwp
    (x & q & Hx & Hq & Hz & Hwq).
  rewrite Hpr in Hp'. injection Hp' as <-.
  destruct (decide (tproc x = a)) as [He|Hne].
  - exists x, pr. rewrite Ht, He. split_and!; try done; [congruence|].
    rewrite (same_proc_field wait_state _ pr (fun q => eq_refl) Hs). case_decide; [done|by left].
  - exists x, q. rewrite Ht, (Ho _ Hne). done.
Qed.

Lemma runnable_woken k a p k' b : woken k a p k' -> runnable k b -> runnable k' b.
Proof.
  intros (Hi & Hr & _ & _ & _ & _ & _ & _ & _ & _ & _ & Ho & _) Hb.
  destruct (decide (b = a)) as [->|Hne]; [done|]. unfold runnable. by rewrite Ho.
Qed.

(** The timers that have run out, and the list after them. *)
Fixpoint due (tm : gmap Z timer) (l : list Z) : list Z :=
  match l with
  | [] => []
  | t :: l => if default 0 (expires <$> tm !! t) =? 0 then t :: due tm l else []
  end.

Lemma expire_loop_eq l k :
  sched_inv k -> timer_list k = l -> NoDup l -> (forall t, t ∈ l -> wakeable k t) ->
  exists k' rest, expire_loop l k = Ret (tt, k') /\ sched_inv k' /\
    l = due (timers k) l ++ rest /\ timer_list k' = rest /\ timers k' = timers k /\
    current k' = current k /\
    (forall t x, t ∈ due (timers k) l -> timers k !! t = Some x -> runnable k' (tproc x)) /\
    (forall u, wakeable k u -> wakeable k' u) /\ grown k k'.
Proof.
  revert k. induction l as [|t l IH]; intros k Hi Hl Hnd Hw.
  - exists k, []. split_and!; try done; [set_solver|apply grown_refl].
  - destruct (Hw t) as (x & p & Hx & Hp & Hz & Hws); [set_solver|].
    cbn [expire_loop due]. erewrite bind_Ret by by apply load_timer_eq. rewrite Hx. simpl (default 0 _).
    destruct (Z.eqb_spec (expires x) 0) as [H0|H0].
    2:{ exists k, (t :: l). split_and!; try done; [set_solver|apply grown_refl]. }
    erewrite bind_Ret by by apply load_proc_eq.
    erewrite (bind_Ret _ _ k tt k); cycle 1.
    { destruct (Z.eqb_spec (wait_state p) 0); [done|]. simpl. destruct Hws as [|Hws]; [done|].
      by replace (Z.land _ _ =? 0) with false by lia. }
    destruct (wakeup_inv k (tproc x) p Hi Hp Hz) as (k1 & Hk1 & Hwk).
    rewrite (bind_Ret _ _ _ _ _ Hk1). assert (Hwk' := Hwk).
    destruct Hwk' as (Hi1 & Hr1 & Hc1 & _ & Ht1 & Hl1 & _).
    destruct (del_timer_eq k1 [] t l x) as (tm & Hd & Hdl & Htm & _).
    { by rewrite Hl1, Hl. } { by rewrite Hl1, Hl. } { by rewrite Ht1. }
    { by intros ? ? []. }
    { intros u Hu. rewrite Ht1. destruct (Hw u) as (xu & ? & ? & _); [set_solver|]. eauto. }
    assert (tm = timers k) as -> by (apply map_eq; intros u; rewrite <- Ht1; auto).
    rewrite (bind_Ret _ _ _ _ _ Hd). apply NoDup_cons in Hnd as [Hn Hnd].
    destruct (IH (set_timers (timers k) ([] ++ l) k1)) as (k' & rest & He & Hi' & Hrest & Hl' & Ht' & Hc' & Hr' & Hwk'' & Hm').
    { destruct Hi1. by split. } { done. } { done. }
    { intros u Hu. destruct (wakeable_woken k (tproc x) p k1 u Hp Hwk Hws) as (xu & pu & Hxu & ?);
        [apply Hw; set_solver|]. exists xu, pu. rewrite Ht1 in Hxu. done. }
    exists k', rest. simpl in *. split_and!; try done; [by f_equal|congruence| | |].
    + intros u y [->|Hu]%elem_of_cons Hy; [|by eapply Hr'].
      rewrite Hx in Hy. injection Hy as <-. by apply (grown_runnable _ _ _ Hm').
    + intros u Hu. apply Hwk''. destruct (wakeable_woken k (tproc x) p k1 u Hp Hwk Hws Hu) as (xu & pu & Hxu & ?).
      exists xu, pu. rewrite Ht1 in Hxu. done.
    + eapply grown_trans; [by eapply woken_grown|]. destruct Hm'. by split.
Qed.

Lemma deadlines_base tm base c l :
  deadlines tm (base + c) l = (fun d => (d.1, d.2 + c)) <$> deadlines tm base l.
Proof.
  revert base. induction l as [|t l IH]; intros base; [done|]. cbn [deadlines].
  rewrite fmap_cons, <- IH. simpl. set (e := default 0 _).
  by replace (base + c + e) with (base + e + c) by lia.
Qed.

Definition nonneg (tm : gmap Z timer) (l : list Z) : Prop :=
  forall t, t ∈ l -> exists x, tm !! t = Some x /\ 0 <= expires x.

Lemma deadlines_ge tm base l d : nonneg tm l -> d ∈ deadlines tm base l -> base <= d.2.
Proof.
  revert base. induction l as [|t l IH]; intros base Hn; cbn [deadlines]; [set_solver|].
  destruct (Hn t) as (x & Hx & H0); [set_solver|]. rewrite Hx. simpl (default 0 _).
  intros [->|Hd]%elem_of_cons; [simpl; lia|]. apply IH in Hd; [lia|]. intros u Hu. apply Hn. set_solver.
Qed.

Lemma deadlines_expires tm l t x :
  nonneg tm l -> t ∈ l -> tm !! t = Some x -> exists d, d ∈ deadlines tm 0 l /\ expires x <= d.2.
Proof.
  intros Hn (l1 & l2 & ->)%list_elem_of_split Hx. rewrite deadlines_app. simpl. rewrite Hx. simpl.
  eexists. split; [apply elem_of_app; right; apply elem_of_cons; by left|]. simpl.
  assert (0 <= span tm l1); [|lia]. clear -Hn. induction l1 as [|u l1 IH]; simpl; [lia|].
  destruct (Hn u) as (y & -> & ?); [set_solver|]. simpl.
  assert (0 <= span tm l1) by (apply IH; intros v Hv; apply Hn; set_solver). lia.
Qed.

Lemma due_filter tm l rest :
  nonneg tm l -> l = due tm l ++ rest ->
  deadlines tm 0 rest = filter (fun d => 0 < d.2) (deadlines tm 0 l) /\
  (forall t, (t, 0) ∈ deadlines tm 0 l -> t ∈ due tm l).
Proof.
  intros Hn. induction l as [|t l IH]; intros Hl; cbn [due] in Hl; cbn [deadlines due].
  - simpl in Hl. subst rest. split; [done|]. set_solver.
  - destruct (Hn t) as (x & Hx & H0); [set_solver|]. rewrite Hx in Hl |- *.
    assert (Hn' : nonneg tm l) by (intros u Hu; apply Hn; set_solver).
    simpl (default 0 _) in *. destruct (Z.eqb_spec (expires x) 0) as [E|E].
    + rewrite E, Z.add_0_r. injection Hl as Hl. destruct (IH Hn' Hl) as (Hd & Hz).
      split; [|set_solver]. rewrite filter_cons_False by (simpl; lia). done.
    + simpl in Hl. subst rest. cbn [deadlines]. rewrite Hx. simpl (default 0 _). split.
      * rewrite filter_cons_True by (simpl; lia). f_equal.
        symmetry. apply filter_all. intros d Hd. apply deadlines_ge in Hd; [lia|done].
      * intros u [Hu|Hu]%elem_of_cons; [simplify_eq; lia|]. apply deadlines_ge in Hu; [simpl in Hu; lia|done].
Qed.

Lemma shift_filter (l : list (Z * Z)) :
  filter (fun d => 0 < d.2) ((fun d => (d.1, d.2 + -1)) <$> l)
  = (fun d => (d.1, d.2 + -1)) <$> filter (fun d => 1 < d.2) l.
Proof.
  induction l as [|d l IH]; [done|]. rewrite fmap_cons, !filter_cons, IH. simpl.
  by repeat case_decide; try lia.
Qed.

Lemma timers_nonneg k : timers_ok k -> nonneg (timers k) (timer_list k).
Proof. intros [_ Ht _] t. apply Ht. Qed.

Lemma timers_u32 k t x : timers_ok k -> t ∈ timer_list k -> timers k !! t = Some x -> is_u32 (expires x).
Proof.
  intros Hok Ht Hx. assert (Hn := timers_nonneg k Hok). destruct (Hn t Ht) as (x' & Hx' & H0).
  rewrite Hx in Hx'. injection Hx' as <-.
  destruct (deadlines_expires _ _ t x Hn Ht Hx) as (d & Hd & Hle).
  assert (Hb := to_bound k Hok). rewrite Forall_forall in Hb. specialize (Hb d Hd). simpl in Hb.
  unfold is_u32. lia.
Qed.

(** ** The tick of the current process *)

(** What a tick makes of the descriptor of the current process. *)
Definition ticked (k : ks) (p : proc) : proc :=
  if current k =? idleproc k then with_need_resched true p else
  let p := if 0 <? time_slice p then with_time_slice (time_slice p - 1) p else p in
  if time_slice p =? 0 then with_need_resched true p else p.

Lemma ticked_state k p : state (ticked k p) = state p.
Proof. unfold ticked. by repeat case_match. Qed.

Lemma tick_eq k p : procs k !! current k = Some p ->
  sched_class_proc_tick (current k) k = Ret (tt, set_procs (<[current k := ticked k p]> (procs k)) k).
Proof.
  intros Hp. unfold sched_class_proc_tick, ticked. erewrite bind_Ret by done.
  destruct (current k =? idleproc k); simpl; [by apply update_proc_eq|].
  unfold RR_proc_tick. erewrite bind_Ret by by apply load_proc_eq.
  destruct (0 <? time_slice p); cbn [when].
  - erewrite bind_Ret by by apply update_proc_eq.
    erewrite bind_Ret by (apply load_proc_eq; simpl; apply lookup_insert_eq).
    destruct (_ =? 0); cbn [when]; [|done].
    erewrite update_proc_eq by (simpl; apply lookup_insert_eq). simpl. by rewrite insert_insert_eq.
  - erewrite bind_Ret by done. erewrite bind_Ret by by apply load_proc_eq.
    destruct (_ =? 0); cbn [when]; [by apply update_proc_eq|]. rewrite insert_id by done. by destruct k.
Qed.

Lemma tick_inv k p : sched_inv k -> procs k !! current k = Some p ->
  sched_inv (set_procs (<[current k := ticked k p]> (procs k)) k) /\
  same_runnable k (set_procs (<[current k := ticked k p]> (procs k)) k).
Proof.
  intros Hi Hp. set (k' := set_procs _ k).
  assert (Hs : same_runnable k k') by (eapply same_runnable_insert; [done|done|]; apply ticked_state).
  split; [|done]. destruct Hi as [Hnd Hq Hn Hc Hidle]. split; try done; simpl.
  - intros a. rewrite (Hs a). apply Hq.
  - rewrite lookup_insert_eq. eauto.
  - by apply Hs.
Qed.

(** The part of [run_timer_list] before the scheduler's own tick: every deadline
    is one closer, and the timers that run out have woken their processes. *)
Definition one_closer (l : list (Z * Z)) : list (Z * Z) := (fun d => (d.1, d.2 + -1)) <$> filter (fun d => 1 < d.2) l.

Record advanced (k k' : ks) : Prop := {
  ad_inv : sched_inv k';
  ad_timers : timers_ok k';
  ad_dl : dl k' = one_closer (dl k);
  ad_woken t x : (t, 1) ∈ dl k -> timers k !! t = Some x -> runnable k' (tproc x);
  ad_wakeable t : t ∈ timer_list k' -> wakeable k' t;
  ad_grown : grown k k'
}.

Section Advance.
  Context (k : ks) (t : Z) (l : list Z) (x : timer).
  Hypothesis Hok : timers_ok k.
  Hypothesis El : timer_list k = t :: l.
  Hypothesis Hx : timers k !! t = Some x.

(** The first difference is decremented. *)
Definition lowered : gmap Z timer := <[t := mk_timer (expires x - 1) (tproc x)]> (timers k).

Lemma first_pos : 0 < expires x.
Proof using Hok El Hx.
  assert (Hb := to_bound k Hok). unfold dl in Hb. rewrite El in Hb. simpl in Hb. rewrite Hx in Hb.
  apply Forall_cons in Hb as [Hb _]. simpl in Hb. lia.
Qed.

Lemma lowered_dl : deadlines lowered 0 (t :: l) = (fun d => (d.1, d.2 + -1)) <$> dl k.
Proof using Hok El Hx.
  assert (Hnd := to_nodup k Hok). rewrite El in Hnd. apply NoDup_cons in Hnd as [Htl _].
  unfold dl. rewrite El, <- (deadlines_base (timers k) 0 (-1)).
  eapply deadlines_shift; [done|apply lookup_insert_eq|simpl; lia|].
  intros u Hu. unfold lowered. rewrite lookup_insert_ne; [done|]. set_solver.
Qed.

Lemma lowered_tproc u y : lowered !! u = Some y -> exists y', timers k !! u = Some y' /\ tproc y = tproc y'.
Proof using Hx.
  unfold lowered. destruct (decide (u = t)) as [->|]; [rewrite lookup_insert_eq; intros [= <-]; by exists x|].
  rewrite lookup_insert_ne by done. by exists y.
Qed.

Lemma lowered_nonneg : nonneg lowered (t :: l).
Proof using Hok El Hx.
  intros u Hu. assert (Hp := first_pos). unfold lowered. destruct (decide (u = t)) as [->|].
  - eexists. rewrite lookup_insert_eq. split; [done|]. simpl. lia.
  - rewrite lookup_insert_ne by done. apply (timers_nonneg k Hok). by rewrite El.
Qed.

Lemma advance_eq : sched_inv k -> (forall t, t ∈ timer_list k -> wakeable k t) ->
  exists k', (x ← load_timer t; assert_ (negb (expires x =? 0));; set_expires t (u32 (expires x - 1));; expire_loop (t :: l)) k = Ret (tt, k') /\
    advanced k k'.
Proof using Hok El Hx.
  intros Hi Hw. assert (Hpos := first_pos). assert (Hn1 := lowered_nonneg). assert (Hd1 := lowered_dl).
  assert (Hu := timers_u32 k t x Hok ltac:(rewrite El; set_solver) Hx).
  assert (Hnd := to_nodup k Hok). rewrite El in Hnd. set (k1 := set_timers lowered (t :: l) k).
  assert (Hw1 : forall u, u ∈ t :: l -> wakeable k1 u).
  { intros u Hu'. rewrite <- El in Hu'. destruct (Hw u Hu') as (y & p & Hy & Hp & ?). rewrite El in Hu'.
    destruct (Hn1 u Hu') as (y1 & Hy1 & _). exists y1, p. split; [done|].
    destruct (lowered_tproc u y1 Hy1) as (y' & Hy' & ->). rewrite Hy in Hy'. by injection Hy' as <-. }
  destruct (expire_loop_eq (t :: l) k1) as (k2 & rest & He & Hi2 & Hrest & Hl2 & Ht2 & Hc2 & Hr2 & Hw2 & Hg);
    [by destruct Hi|done|done|done|].
  destruct (due_filter lowered (t :: l) rest Hn1 Hrest) as [Hdr Hdue]. simpl in Ht2.
  exists k2. split.
  { erewrite bind_Ret by by apply load_timer_eq. replace (expires x =? 0) with false by lia. erewrite bind_Ret by done.
    erewrite bind_Ret by by apply set_expires_eq. rewrite u32_id by (unfold is_u32 in *; lia). rewrite El. exact He. }
  assert (Hdl : dl k2 = one_closer (dl k)).
  { unfold dl at 1. rewrite Hl2, Ht2. rewrite Hdr, Hd1. apply shift_filter. }
  split; [done| |done| | |].
  - split.
    + rewrite Hl2. rewrite Hrest in Hnd. by apply NoDup_app in Hnd as (_ & _ & ?).
    + intros u Hu'. rewrite Ht2. apply Hn1. rewrite Hl2 in Hu'. rewrite Hrest. set_solver.
    + rewrite Hdl. unfold one_closer. rewrite Forall_fmap. apply Forall_forall. intros d (Hd & Hin)%list_elem_of_filter.
      assert (Hb := to_bound k Hok). rewrite Forall_forall in Hb. specialize (Hb d Hin). simpl in *. lia.
  - intros u y Hd Hy.
    assert (Hul : u ∈ t :: l).
    { rewrite <- El, <- (deadlines_fst (timers k) 0). apply list_elem_of_fmap. by exists (u, 1). }
    destruct (Hn1 u Hul) as (y1 & Hy1 & _). destruct (lowered_tproc u y1 Hy1) as (y' & Hy' & Htp').
    rewrite Hy in Hy'. injection Hy' as <-. rewrite <- Htp'. apply (Hr2 u); [|done].
    apply Hdue. rewrite Hd1. apply list_elem_of_fmap. by exists (u, 1).
  - intros u Hu'. apply Hw2, Hw1. rewrite Hl2 in Hu'. rewrite Hrest. set_solver.
  - destruct Hg. by split.
Qed.
End Advance.

Lemma run_timer_list_eq k p :
  sched_inv k -> timers_ok k -> (forall t, t ∈ timer_list k -> wakeable k t) ->
  procs k !! current k = Some p ->
  exists k1 p1, run_timer_list k = Ret (tt, set_procs (<[current k := ticked k p1]> (procs k1)) k1) /\ advanced k k1 /\
    procs k1 !! current k = Some p1 /\ (state p = PROC_RUNNABLE -> p1 = p).
Proof.
  intros Hi Hok Hw Hp. unfold run_timer_list. erewrite bind_Ret by done.
  assert (Hgo : exists k1, match timer_list k with
     | [] => mret tt
     | t :: l => x ← load_timer t; assert_ (negb (expires x =? 0));; set_expires t (u32 (expires x - 1));; expire_loop (t :: l)
     end k = Ret (tt, k1) /\ advanced k k1).
  { destruct (timer_list k) as [|t l] eqn:El.
    - exists k. split; [done|]. split; [done|done| | |by rewrite El|apply grown_refl]; unfold dl; rewrite El; [done|].
      intros ? ? Hin. by apply elem_of_nil in Hin.
    - destruct (timers_nonneg k Hok t) as (x & Hx & _); [rewrite El; left|]. rewrite <- El in Hw.
      by apply (advance_eq k t l x). }
  destruct Hgo as (k1 & Hr & Ha). destruct (ad_grown _ _ Ha) as [_ Hc Hid _ Hg].
  destruct (si_current k1 (ad_inv _ _ Ha)) as [p1 Hp1]. exists k1, p1. rewrite (bind_Ret _ _ _ _ _ Hr).
  split_and!; [|done|by rewrite <- Hc|].
  - rewrite <- Hc, (tick_eq k1 p1 Hp1). do 4 f_equal. unfold ticked. by rewrite Hc, Hid.
  - intros Hs. rewrite Hc, Hg in Hp1 by by exists p. congruence.
Qed.

(** ** Properties *)

(** Scheduling loses nobody and serves in order: the call returns, the
    process at the head of the queue (with the current one, if it can go on,
    at its end) becomes current, or the idle process when the queue is empty;
    afterwards every runnable process is current, idle, or queued once. *)
Theorem schedule_serves k :
  sched_inv k ->
  exists k', schedule k = Ret (tt, k') /\ sched_inv k' /\
    current k' = default (idleproc k) (head (serving k)) /\
    run_list (rq k') = tail (serving k) /\
    (forall a, runnable k a -> a = current k' \/ a = idleproc k' \/ a ∈ run_list (rq k')).
Proof.
  intros Hi. destruct (schedule_eq k Hi) as (k' & He & Hi' & Hs & Hid & Hc & Hl & _).
  exists k'. split_and!; try done. intros a Ha. apply Hs in Ha.
  destruct (decide (a = current k')); [by left|]. destruct (decide (a = idleproc k')); [by right; left|].
  right; right. by apply si_queued.
Qed.

(** C10: Round robin is fair: as long as the processes stay runnable, the one at
    position [i] of the queue being served is the current process after [i + 1]
    calls of [schedule]. *)
Theorem round_robin_fair k i a :
  sched_inv k -> serving k !! i = Some a ->
  exists k', schedules (S i) k = Ret (tt, k') /\ sched_inv k' /\ current k' = a.
Proof.
  revert k. induction i as [|i IH]; intros k Hi Ha;
    destruct (schedule_eq k Hi) as (k1 & He & Hi1 & Hs & Hid & Hc & Hl & _); cbn [schedules];
    rewrite (bind_Ret _ _ _ _ _ He).
  - exists k1. split_and!; try done. rewrite Hc. by destruct (serving k); simplify_eq/=.
  - apply IH; [done|]. unfold serving at 1. rewrite Hl.
    destruct (serving k) as [|n l] eqn:E; [done|]. simpl in *. by apply lookup_app_l_Some.
Qed.

(** [add_timer] refines insertion of an absolute deadline: a timer for
    [expires] ticks from now is linked in order of expiry, after those of the
    same tick, and the deadline of every other timer is unchanged. *)
Theorem add_timer_refines k t x :
  timers_ok k -> timers k !! t = Some x -> 0 < expires x < 2 ^ 32 -> tproc x <> NULL ->
  t ∉ timer_list k ->
  exists k', add_timer t k = Ret (tt, k') /\ timers_ok k' /\ dl k' = insert_dl (t, expires x) (dl k).
Proof.
  intros Hok Hx He Hp Ht. assert (Hn := timers_nonneg k Hok).
  unfold add_timer. erewrite bind_Ret by by apply load_timer_eq.
  replace ((0 <? expires x) && _) with true by lia. erewrite bind_Ret by done.
  erewrite bind_Ret by done. rewrite bool_decide_true by done. erewrite bind_Ret by done.
  destruct (add_timer_loop_eq (timer_list k) k [] t x 0) as (k' & tm & Hr & Hk' & Hd & Ho & Hs);
    [done|done|apply Hok|unfold is_u32; lia| |].
  { intros u Hu. destruct (Hn u Hu) as (y & Hy & _). exists y. split; [done|]. by eapply timers_u32. }
  exists k'. split; [done|]. simpl in Hd. rewrite Hk'. fold (dl k) in *. unfold dl at 2. simpl.
  split; [|done].
  assert (Hperm := insert_dl_perm (t, expires x) (dl k)).
  assert (Hfst : (insert_dl (t, expires x) (dl k)).*1 ≡ₚ t :: timer_list k).
  { rewrite Hperm, fmap_cons. unfold dl. by rewrite deadlines_fst. }
  split; simpl.
  - rewrite Hfst. apply NoDup_cons. split; [done|apply Hok].
  - intros u Hu. rewrite Hfst in Hu. destruct (Hs u Hu) as (y & y' & Hy & _ & _ & Hu32). exists y.
    unfold is_u32 in Hu32. split; [done|lia].
  - unfold dl at 1. simpl. rewrite Hd, Hperm. constructor; [simpl; lia|apply Hok].
Qed.

(** C11: [run_timer_list] refines the passing of one tick: every deadline comes
    one tick closer, the timers whose deadline has come are unlinked and their
    processes are runnable afterwards, and the scheduler's invariant holds. *)
Theorem run_timer_list_refines k :
  sched_inv k -> timers_ok k -> (forall t, t ∈ timer_list k -> wakeable k t) ->
  exists k', run_timer_list k = Ret (tt, k') /\ sched_inv k' /\ timers_ok k' /\
    dl k' = one_closer (dl k) /\
    (forall t x, (t, 1) ∈ dl k -> timers k !! t = Some x -> runnable k' (tproc x)).
Proof.
  intros Hi Hok Hw. destruct (si_current k Hi) as [p Hp].
  destruct (run_timer_list_eq k p Hi Hok Hw Hp) as (k1 & p1 & Hr & [Hi1 Ht1 Hd1 Hw1 _ Hg] & Hp1 & _).
  rewrite <- (gr_current _ _ Hg) in Hp1. destruct (tick_inv k1 p1 Hi1 Hp1) as [Hi' Hs'].
  replace (ticked k p1) with (ticked k1 p1) in Hr by (unfold ticked; by rewrite (gr_current _ _ Hg), (gr_idle _ _ Hg)).
  rewrite <- (gr_current _ _ Hg) in Hr. eexists. split; [exact Hr|]. split_and!; [done|by destruct Ht1|done|].
  intros t x Hd Hx. apply Hs'. by apply (Hw1 t).
Qed.

(** ** Witnesses *)

Definition demo_proc (st : proc_state) (i w : Z) : proc :=
  mk_proc st i 0 0 false 1 0 (0, 0) 0 0 0 [] 0 w 0 0 0 5 0 0.

(** Idle process 1, current process 10, queued 20 and 30, and 40 asleep on
    timer 500, which expires with the next tick. *)
Definition demo_ks : ks :=
  mk_ks {[ 1 := demo_proc PROC_RUNNABLE 0 0; 10 := demo_proc PROC_RUNNABLE 1 0;
           20 := demo_proc PROC_RUNNABLE 2 0; 30 := demo_proc PROC_RUNNABLE 3 0;
           40 := demo_proc PROC_SLEEPING 4 WT_TIMER ]}
    10 1 10 (mk_rq [20; 30] 2 20) {[ 500 := mk_timer 1 40; 600 := mk_timer 7 40 ]} [500]
    (mk_pt [10; 20; 30; 40] [] 5 8192 4) ∅ ∅ ∅ ∅ ∅ 0 0.

Lemma demo_ks_inv : sched_inv demo_ks.
Proof.
  assert (Hr : forall a, runnable demo_ks a <-> a = 1 \/ a = 10 \/ a = 20 \/ a = 30).
  { intros a. unfold runnable. split.
    - intros (p & Hp & Hs). simpl in Hp. rewrite !lookup_insert_Some, lookup_singleton_Some in Hp.
      repeat destruct Hp as [[? ?]|[? Hp]]; try naive_solver.
    - intros [->|[->|[->| ->]]]; eexists; (split; [by vm_compute|done]). }
  split.
  - by apply (bool_decide_unpack _).
  - intros a. rewrite Hr. simpl. set_solver.
  - done.
  - by eexists.
  - apply Hr. by left.
Qed.

Lemma demo_timers_ok : timers_ok demo_ks.
Proof.
  split.
  - by apply (bool_decide_unpack _).
  - intros t Ht. simpl in Ht. apply list_elem_of_singleton in Ht as ->. eexists.
    split; [by vm_compute|]. simpl. lia.
  - by repeat constructor.
Qed.

Lemma schedule_serves_witness :
  exists k', schedule demo_ks = Ret (tt, k') /\ current k' = 20 /\ run_list (rq k') = [30; 10].
Proof.
  destruct (schedule_serves demo_ks demo_ks_inv) as (k' & He & _ & Hc & Hl & _).
  exists k'. split_and!; [done|rewrite Hc; by vm_compute|rewrite Hl; by vm_compute].
Defined.

Lemma round_robin_fair_witness :
  exists k', schedules 2 demo_ks = Ret (tt, k') /\ current k' = 30.
Proof.
  destruct (round_robin_fair demo_ks 1 30 demo_ks_inv) as (k' & He & _ & Hc);
    [by vm_compute|]. by exists k'.
Defined.

Lemma add_timer_refines_witness :
  exists k', add_timer 600 demo_ks = Ret (tt, k') /\ dl k' = [(500, 1); (600, 7)].
Proof.
  destruct (add_timer_refines demo_ks 600 (mk_timer 7 40) demo_timers_ok) as (k' & He & _ & Hd);
    [by vm_compute | simpl; lia | done | by apply (bool_decide_unpack _) |].
  exists k'. split; [done|]. rewrite Hd. by vm_compute.
Defined.

Lemma run_timer_list_refines_witness :
  exists k', run_timer_list demo_ks = Ret (tt, k') /\ dl k' = [] /\ runnable k' 40.
Proof.
  destruct (run_timer_list_refines demo_ks demo_ks_inv demo_timers_ok) as (k' & He & _ & _ & Hd & Hr).
  { intros t Ht. simpl in Ht. apply list_elem_of_singleton in Ht as ->.
    exists (mk_timer 1 40), (demo_proc PROC_SLEEPING 4 WT_TIMER). split_and!; [by vm_compute..|done|].
    right. by vm_compute. }
  exists k'. split_and!; [done|rewrite Hd; by vm_compute|].
  apply (Hr 500 (mk_timer 1 40)); [by apply (bool_decide_unpack _); vm_compute|by vm_compute].
Defined.

End ProcSpec.
