(* ===== verification/Sync.v ===== *)
(** Wait queues, semaphores and monitors: src/ucore_OS/kern/sync/wait.c, sem.c
    and monitor.c.  A [wait_queue_t] is the sequence of the waits linked in it;
    a semaphore's queue has the address of the semaphore.  The functions that
    sleep are cut at their call of [schedule]: what runs before it (with it),
    and what the process runs when it is current again. *)

From S2P Require Import Prelude Proc.

Module Sync.
Import Proc.

(** ** Wait queues (wait.c) *)

Definition load_wait (w : Z) : M ks wait := fun k =>
  match waits k !! w with Some x => Ret (x, k) | None => Fault end.
Definition put_wait (w : Z) (x : wait) : M ks unit :=
  modify (fun k => set_waits (<[w := x]> (waits k)) k).
Definition load_queue (q : Z) : M ks (list Z) := fun k =>
  match queues k !! q with Some l => Ret (l, k) | None => Fault end.
Definition put_queue (q : Z) (l : list Z) : M ks unit :=
  modify (fun k => set_queues (<[q := l]> (queues k)) k).

(** [!list_empty(&(wait->wait_link))]: the wait is in the queue it names. *)
Definition wait_in_queue (w : Z) : M ks bool :=
  x ← load_wait w;
  k ← get;
  mret (bool_decide (w ∈ default [] (queues k !! wait_queue x))).

(** A fresh wait: not linked anywhere. *)
Definition wait_init (w proc : Z) : M ks unit := put_wait w (mk_wait proc WT_INTERRUPTED NULL).

Definition wait_queue_init (q : Z) : M ks unit := put_queue q [].

Definition wait_queue_add (q w : Z) : M ks unit :=
  b ← wait_in_queue w;
  x ← load_wait w;
  assert_ (negb b && negb (wproc x =? NULL));;
  put_wait w (mk_wait (wproc x) (wakeup_flags x) q);;
  l ← load_queue q;
  put_queue q (l ++ [w]).

Definition wait_queue_del (q w : Z) : M ks unit :=
  b ← wait_in_queue w;
  x ← load_wait w;
  assert_ (b && (wait_queue x =? q));;
  l ← load_queue q;
  put_queue q (remove w l).

Definition wait_queue_next (q w : Z) : M ks (option Z) :=
  b ← wait_in_queue w;
  x ← load_wait w;
  assert_ (b && (wait_queue x =? q));;
  l ← load_queue q;
  mret (succ_of w l).

Definition wait_queue_prev (q w : Z) : M ks (option Z) :=
  b ← wait_in_queue w;
  x ← load_wait w;
  assert_ (b && (wait_queue x =? q));;
  l ← load_queue q;
  mret (succ_of w (rev l)).

Definition wait_queue_first (q : Z) : M ks (option Z) := l ← load_queue q; mret (head l).
Definition wait_queue_last (q : Z) : M ks (option Z) := l ← load_queue q; mret (last l).
Definition wait_queue_empty (q : Z) : M ks bool := l ← load_queue q; mret (bool_decide (l = [])).

Definition wakeup_wait (q w flags : Z) (del : bool) : M ks unit :=
  when del (wait_queue_del q w);;
  x ← load_wait w;
  put_wait w (mk_wait (wproc x) flags (wait_queue x));;
  wakeup_proc (wproc x).

Definition wakeup_first (q flags : Z) (del : bool) : M ks unit :=
  o ← wait_queue_first q;
  match o with Some w => wakeup_wait q w flags del | None => mret tt end.

(** The two loops of [wakeup_queue]. *)
Fixpoint wakeup_all_del (fuel : nat) (q flags : Z) : M ks unit :=
  match fuel with
  | O => diverge
  | S fuel =>
      o ← wait_queue_first q;
      match o with
      | None => mret tt
      | Some w => wakeup_wait q w flags true;; wakeup_all_del fuel q flags
      end
  end.
Fixpoint wakeup_all_keep (fuel : nat) (q flags w : Z) : M ks unit :=
  match fuel with
  | O => diverge
  | S fuel =>
      wakeup_wait q w flags false;;
      o ← wait_queue_next q w;
      match o with
      | None => mret tt
      | Some w => wakeup_all_keep fuel q flags w
      end
  end.
Definition wakeup_queue (q flags : Z) (del : bool) : M ks unit :=
  l ← load_queue q;
  let fuel := S (length l) in
  if del then wakeup_all_del fuel q flags
  else match head l with
       | None => mret tt
       | Some w => wakeup_all_keep fuel q flags w
       end.

Definition wait_current_set (q w wait_state : Z) : M ks unit :=
  k ← get;
  assert_ (negb (current k =? NULL));;
  wait_init w (current k);;
  update_proc (current k) (with_state PROC_SLEEPING);;
  update_proc (current k) (with_wait_state wait_state);;
  wait_queue_add q w.

(** The macro of wait.h. *)
Definition wait_current_del (q w : Z) : M ks unit :=
  b ← wait_in_queue w; when b (wait_queue_del q w).

(** ** Semaphores (sem.c) *)

Definition load_sem (s : Z) : M ks Z := fun k =>
  match sems k !! s with Some v => Ret (v, k) | None => Fault end.
(** [value] is an [int]: incrementing the largest is undefined. *)
Definition put_sem (s v : Z) : M ks unit :=
  defined (v <? 0x80000000);; modify (fun k => set_sems (<[s := v]> (sems k)) k).

Definition sem_init (s v : Z) : M ks unit := put_sem s v;; wait_queue_init s.

Definition __up (s wait_state : Z) : M ks unit :=
  o ← wait_queue_first s;
  match o with
  | None => v ← load_sem s; put_sem s (v + 1)
  | Some w =>
      x ← load_wait w;
      p ← load_proc (wproc x);
      assert_ (Proc.wait_state p =? wait_state);;
      wakeup_wait s w wait_state true
  end.

(** [__down] up to and with [schedule]: [Some 0] when it returns at once,
    [None] when the current process sleeps on the wait [w]. *)
Definition __down_begin (s wait_state w : Z) : M ks (option Z) :=
  v ← load_sem s;
  if 0 <? v then put_sem s (v - 1);; mret (Some 0)
  else wait_current_set s w wait_state;; schedule;; mret None.

(** [__down] after [schedule] has returned. *)
Definition __down_end (s wait_state w : Z) : M ks Z :=
  wait_current_del s w;;
  x ← load_wait w;
  mret (if negb (wakeup_flags x =? wait_state) then wakeup_flags x else 0).

Definition up (s : Z) : M ks unit := __up s WT_KSEM.

Definition down_begin (s w : Z) : M ks (option Z) := __down_begin s WT_KSEM w.
Definition down_end (s w : Z) : M ks unit :=
  flags ← __down_end s WT_KSEM w; assert_ (flags =? 0).

Definition try_down (s : Z) : M ks bool :=
  v ← load_sem s;
  if 0 <? v then put_sem s (v - 1);; mret true else mret false.

(** ** Monitors (monitor.c) *)

(** [monitor_t] and [condvar_t]: the addresses of their semaphores and of
    their counters, which every process in the monitor shares. *)
Record monitor := mk_monitor { mutex : Z; next_ : Z; next_count : Z }.
Record condvar := mk_cv { csem : Z; count : Z; owner : monitor }.

Definition load_int (a : Z) : M ks Z := fun k =>
  match ints k !! a with Some v => Ret (v, k) | None => Fault end.
Definition put_int (a v : Z) : M ks unit := modify (fun k => set_ints (<[a := v]> (ints k)) k).
Definition add_int (a d : Z) : M ks unit := v ← load_int a; put_int a (v + d).

(** The loop of [monitor_init] over the condition variables. *)
Fixpoint init_cvs (cvs : list condvar) : M ks unit :=
  match cvs with
  | [] => mret tt
  | cv :: cvs => put_int (count cv) 0;; sem_init (csem cv) 0;; init_cvs cvs
  end.

(** [kmalloc] has given the array [cvs] (the assertion on it has passed). *)
Definition monitor_init (mt : monitor) (cvs : list condvar) : M ks unit :=
  assert_ (negb (bool_decide (cvs = [])));;
  put_int (next_count mt) 0;;
  sem_init (mutex mt) 1;;
  sem_init (next_ mt) 0;;
  init_cvs cvs.

(** [cond_signal] up to its [down(&(owner->next))]: [None] when nobody waits
    and the function has returned. *)
Definition cond_signal_begin (cv : condvar) (w : Z) : M ks (option (option Z)) :=
  c ← load_int (count cv);
  if 0 <? c then
    add_int (next_count (owner cv)) 1;;
    up (csem cv);;
    r ← down_begin (next_ (owner cv)) w;
    mret (Some r)
  else mret None.

(** After that [down] has returned. *)
Definition cond_signal_end (cv : condvar) : M ks unit := add_int (next_count (owner cv)) (-1).

(** [cond_wait] up to its [down(&(cvp->sem))]. *)
Definition cond_wait_begin (cv : condvar) (w : Z) : M ks (option Z) :=
  add_int (count cv) 1;;
  n ← load_int (next_count (owner cv));
  (if 0 <? n then up (next_ (owner cv)) else up (mutex (owner cv)));;
  down_begin (csem cv) w.

Definition cond_wait_end (cv : condvar) : M ks unit := add_int (count cv) (-1).

End Sync.
