(* ===== verification/SyncSpec.v ===== *)
(** What the semaphores promise: permits are neither lost nor made up, the
    longest waiter is served first, and a woken [down] reports success
    (src/ucore_OS/kern/sync/wait.c, sem.c). *)

From S2P Require Import Prelude Proc ProcSpec Sync.

Module SyncSpec.
Import Proc ProcSpec Sync.

(** The semaphore [s] has value [v] and the waits [ws] queued, oldest first;
    each is on behalf of its own process, asleep on a kernel semaphore. *)
Record sem_rep (k : ks) (s v : Z) (ws : list Z) : Prop := {
  sr_value : sems k !! s = Some v;
  sr_queue : queues k !! s = Some ws;
  sr_nodup : NoDup ws;
  sr_nonneg : 0 <= v;
  sr_idle : 0 < v -> ws = [];
  sr_wait w : w ∈ ws -> exists x p, waits k !! w = Some x /\ wait_queue x = s /\
    procs k !! wproc x = Some p /\ state p = PROC_SLEEPING /\ wait_state p = WT_KSEM;
  sr_distinct w w' x x' : w ∈ ws -> w' ∈ ws -> waits k !! w = Some x -> waits k !! w' = Some x' ->
    wproc x = wproc x' -> w = w'
}.

(** The run queue does not depend on the synchronisation objects. *)
Lemma sched_inv_ext k k' :
  sched_inv k -> procs k' = procs k -> current k' = current k -> idleproc k' = idleproc k ->
  rq k' = rq k -> sched_inv k'.
Proof.
  intros [Hn Hq Hl Hc Hi] Hp Hc' Hi' Hr.
  assert (Hrun : forall a, runnable k' a <-> runnable k a) by (intros; unfold runnable; by rewrite Hp).
  split; rewrite ?Hr, ?Hc', ?Hi', ?Hp; try done.
  - intros a. by rewrite Hrun.
  - by apply Hrun.
Qed.

Lemma load_wait_eq k w x : waits k !! w = Some x -> load_wait w k = Ret (x, k).
Proof. unfold load_wait. by intros ->. Qed.
Lemma load_queue_eq k q l : queues k !! q = Some l -> load_queue q k = Ret (l, k).
Proof. unfold load_queue. by intros ->. Qed.
Lemma load_sem_eq k s v : sems k !! s = Some v -> load_sem s k = Ret (v, k).
Proof. unfold load_sem. by intros ->. Qed.

Lemma wait_in_queue_eq k w x q l :
  waits k !! w = Some x -> wait_queue x = q -> queues k !! q = Some l ->
  wait_in_queue w k = Ret (bool_decide (w ∈ l), k).
Proof.
  intros Hw Hq Hl. unfold wait_in_queue. erewrite bind_Ret by by apply load_wait_eq.
  erewrite bind_Ret by done. by rewrite Hq, Hl.
Qed.

Lemma wait_queue_del_eq k q w x l :
  waits k !! w = Some x -> wait_queue x = q -> queues k !! q = Some l -> w ∈ l ->
  wait_queue_del q w k = Ret (tt, set_queues (<[q := remove w l]> (queues k)) k).
Proof.
  intros Hw Hq Hl Hin. unfold wait_queue_del.
  erewrite bind_Ret by (by eapply wait_in_queue_eq). erewrite bind_Ret by by apply load_wait_eq.
  rewrite bool_decide_true, Hq, Z.eqb_refl by done. erewrite bind_Ret by done.
  erewrite bind_Ret by by apply load_queue_eq. done.
Qed.

(** The oldest waiter is unlinked, told [WT_KSEM], and runnable. *)
Lemma up_eq k s v ws :
  sched_inv k -> sem_rep k s v ws -> v + 1 < 0x80000000 ->
  exists k', up s k = Ret (tt, k') /\ sched_inv k' /\
    (forall q, q <> s -> queues k' !! q = queues k !! q) /\
    (forall a, runnable k a -> runnable k' a) /\ current k' = current k /\ idleproc k' = idleproc k /\
    match ws with
    | [] => sem_rep k' s (v + 1) [] /\ procs k' = procs k
    | w :: ws' =>
        sem_rep k' s v ws' /\
        exists x, waits k' !! w = Some x /\ wakeup_flags x = WT_KSEM /\ wait_queue x = s /\
          runnable k' (wproc x)
    end.
Proof.
  intros Hi [Hv Hq Hnd H0 Hidle Hw Hdis] Hb. unfold up, __up, wait_queue_first.
  erewrite bind_Ret by (erewrite bind_Ret by (by apply load_queue_eq); done).
  destruct ws as [|w ws']; simpl.
  - erewrite bind_Ret by by apply load_sem_eq. unfold put_sem.
    replace (v + 1 <? 0x80000000) with true by lia. erewrite bind_Ret by done.
    eexists. split; [done|]. split; [by eapply sched_inv_ext|]. do 4 (split; [done|]). split; [|done].
    split; simpl; try done; try lia; try set_solver. by rewrite lookup_insert_eq.
  - destruct (Hw w) as (x & p & Hx & Hxs & Hp & Hst & Hws); [set_solver|].
    erewrite bind_Ret by by apply load_wait_eq. erewrite bind_Ret by by apply load_proc_eq.
    rewrite Hws, Z.eqb_refl. erewrite bind_Ret by done. unfold wakeup_wait. simpl (when true _).
    erewrite bind_Ret by (eapply wait_queue_del_eq; [done..|set_solver]).
    rewrite remove_head by done. erewrite bind_Ret by by apply load_wait_eq.
    erewrite bind_Ret by done. apply NoDup_cons in Hnd as [Hnw Hnd].
    set (k1 := set_waits _ _).
    destruct (wakeup_inv k1 (wproc x) p) as (k' & He & Hwk).
    { by apply (sched_inv_ext k). } { done. } { by rewrite Hst. }
    exists k'. split; [done|].
    destruct Hwk as (Hi' & Hr & Hc' & Hid' & _ & _ & Hqs & Hwt & Hsm & _ & _ & Ho & _).
    split; [done|]. split; [intros q Hqn; rewrite Hqs; simpl; by rewrite lookup_insert_ne|].
    split; [|split; [done|split; [done|split; [split|]]]].
    { intros a (pa & Hpa & ?). destruct (decide (a = wproc x)) as [->|]; [done|].
      exists pa. by rewrite Ho. }
    + by rewrite Hsm.
    + rewrite Hqs. simpl. apply lookup_insert_eq.
    + done.
    + done.
    + intros Hpos. specialize (Hidle Hpos). done.
    + intros w' Hw'. destruct (Hw w') as (x' & p' & Hx' & Hs' & Hp' & ?); [set_solver|].
      exists x', p'. rewrite Hwt. simpl. rewrite lookup_insert_ne by set_solver.
      split; [done|]. split; [done|]. rewrite Ho; [done|]. intros Heq.
      assert (w' = w); [|set_solver]. eapply Hdis; [set_solver|set_solver|done..].
    + intros w1 w2 x1 x2 H1 H2. rewrite Hwt. simpl. rewrite !lookup_insert_ne by set_solver.
      apply Hdis; set_solver.
    + eexists. rewrite Hwt. simpl. rewrite lookup_insert_eq. done.
Qed.

(** Scheduling moves no wait and no permit. *)
Lemma sem_rep_core k k' s v ws : sem_rep k s v ws -> same_core k k' -> sem_rep k' s v ws.
Proof.
  intros [Hv Hq Hnd H0 Hidle Hw Hdis] [Hp Hwt Hqs Hsm _ _ _ _ _].
  split; rewrite ?Hwt, ?Hqs, ?Hsm; try done.
  intros w Hin. destruct (Hw w Hin) as (x & p & Hx & Hs & Hpx & Hst & Hws).
  destruct (view_lookup _ _ _ _ _ Hp Hpx) as (p' & Hp' & E). exists x, p'.
  by rewrite (same_proc_field state p p'), (same_proc_field wait_state p p').
Qed.

Lemma wait_current_set_eq k s w st l p :
  procs k !! current k = Some p -> current k <> NULL -> queues k !! NULL = None ->
  queues k !! s = Some l ->
  wait_current_set s w st k =
  Ret (tt, set_queues (<[s := l ++ [w]]> (queues k))
    (set_waits (<[w := mk_wait (current k) WT_INTERRUPTED s]> (waits k))
      (set_procs (<[current k := with_wait_state st (with_state PROC_SLEEPING p)]> (procs k)) k))).
Proof.
  intros Hp Hc Hq0 Hq. unfold wait_current_set, wait_init. erewrite bind_Ret by done.
  replace (current k =? NULL) with false by lia. erewrite bind_Ret by done.
  erewrite bind_Ret by done. simpl.
  erewrite bind_Ret by (by apply update_proc_eq).
  erewrite bind_Ret by (apply update_proc_eq; simpl; apply lookup_insert_eq).
  unfold wait_queue_add, wait_in_queue. simpl.
  erewrite bind_Ret by (erewrite bind_Ret by (apply load_wait_eq; simpl; apply lookup_insert_eq);
    simpl; erewrite bind_Ret by done; simpl; rewrite Hq0; done).
  erewrite bind_Ret by (apply load_wait_eq; simpl; apply lookup_insert_eq). simpl.
  rewrite ?bool_decide_false by set_solver. replace (current k =? NULL) with false by lia.
  erewrite bind_Ret by done. erewrite bind_Ret by done.
  erewrite bind_Ret by (by apply load_queue_eq). unfold put_queue, modify. simpl.
  rewrite !insert_insert_eq. done.
Qed.

(** A [down] with a permit takes it; without one the current process joins the
    end of the queue and another process runs. *)
Lemma down_eq k s v ws w :
  sched_inv k -> sem_rep k s v ws -> runnable k (current k) -> current k <> idleproc k ->
  current k <> NULL -> w ∉ ws -> queues k !! NULL = None -> v < 0x80000000 ->
  exists r k', down_begin s w k = Ret (r, k') /\ sched_inv k' /\ runnable k' (current k') /\
    (forall q, q <> s -> queues k' !! q = queues k !! q) /\
    (if decide (0 < v) then r = Some 0 /\ sem_rep k' s (v - 1) [] /\ current k' = current k
     else r = None /\ sem_rep k' s 0 (ws ++ [w]) /\ current k' <> current k /\
          (exists x, waits k' !! w = Some x /\ wproc x = current k) /\
          ~ runnable k' (current k)).
Proof.
  intros Hi Hsr Hrun Hci Hc0 Hwn Hq0 Hb. assert (Hsr' := Hsr).
  destruct Hsr as [Hv Hq Hnd H0 Hidle Hw Hdis].
  unfold down_begin, __down_begin. erewrite bind_Ret by by apply load_sem_eq.
  destruct (Z.ltb_spec 0 v) as [Hpos|Hle].
  - unfold put_sem. replace (v - 1 <? 0x80000000) with true by lia.
    erewrite bind_Ret by (erewrite bind_Ret by done; done).
    eexists _, _. split; [done|]. split; [by eapply sched_inv_ext|]. do 2 (split; [done|]).
    rewrite decide_True by done.
    split; [done|]. split; [|done]. rewrite (Hidle Hpos) in *.
    split; simpl; try done; try lia; try set_solver. by rewrite lookup_insert_eq.
  - assert (v = 0) as -> by lia. destruct Hrun as (p & Hp & Hst).
    erewrite bind_Ret by (by eapply wait_current_set_eq). set (k1 := set_queues _ _).
    destruct (sleep_inv k k1 p (with_wait_state WT_KSEM (with_state PROC_SLEEPING p)))
      as [Hi1 Hr1]; try done.
    destruct (schedule_eq k1 Hi1) as (k' & Hsch & Hi' & Hr' & _ & Hc' & _ & Hcore).
    rewrite (bind_Ret _ _ _ _ _ Hsch).
    assert (Hcr : runnable k1 (current k')).
    { rewrite Hc'. by apply served_runnable. }
    exists None, k'. split; [done|]. split; [done|]. split; [by apply Hr'|].
    split; [intros q Hqn; rewrite (sc_queues _ _ Hcore); simpl; by rewrite lookup_insert_ne|].
    rewrite decide_False by lia. split; [done|]. split; [|split; [|split]].
    + apply (sem_rep_core k1); [|done].
      assert (Hne : forall w', w' ∈ ws -> w' <> w) by set_solver.
      split; simpl.
      * done.
      * apply lookup_insert_eq.
      * apply NoDup_app. split_and!; [done|set_solver|apply NoDup_singleton].
      * lia.
      * lia.
      * intros w' [Hw'|Hw']%elem_of_app.
        -- rewrite lookup_insert_ne by set_solver.
           destruct (Hw w' Hw') as (x & q & Hx & Hs & Hpx & Hsx & Hwx). exists x, q.
           rewrite lookup_insert_ne; [done|]. intros Heq. rewrite Heq in Hp. congruence.
        -- apply list_elem_of_singleton in Hw' as ->. rewrite lookup_insert_eq.
           eexists _, _. split; [done|]. split; [done|]. simpl. by rewrite lookup_insert_eq.
      * assert (Hcur : forall w' x', w' ∈ ws -> waits k !! w' = Some x' -> wproc x' <> current k).
        { intros w' x' Hin Hx' Heq. destruct (Hw w' Hin) as (x & q & Hx & _ & Hpx & Hsx & _).
          assert (x = x') as -> by congruence. rewrite Heq in Hpx. congruence. }
        intros w1 w2 x1 x2. rewrite !elem_of_app, !list_elem_of_singleton.
        intros [H1|H1] [H2|H2] Hx1 Hx2 Heq; try congruence.
        -- rewrite lookup_insert_ne in Hx1, Hx2 by set_solver. by eapply Hdis.
        -- subst w2. rewrite lookup_insert_eq in Hx2. rewrite lookup_insert_ne in Hx1 by set_solver.
           simplify_eq. by destruct (Hcur w1 x1).
        -- subst w1. rewrite lookup_insert_eq in Hx1. rewrite lookup_insert_ne in Hx2 by set_solver.
           simplify_eq. by destruct (Hcur w2 x2).
    + intros Heq. rewrite Heq in Hcr. apply Hr1 in Hcr. naive_solver.
    + exists (mk_wait (current k) WT_INTERRUPTED s). rewrite (sc_waits _ _ Hcore). simpl.
      by rewrite lookup_insert_eq.
    + intros Hc. apply Hr' in Hc. apply Hr1 in Hc. naive_solver.
Qed.

(** ** A semaphore in use *)

(** The states reached from [k0] when processes call [up] and [down] on [s] and
    are scheduled, with the numbers of calls of [up] and of [down] so far.  The
    process that calls [down] is not the idle one and brings a [wait_t] on its
    own stack, which no earlier caller still uses. *)
Inductive reach (s : Z) (k0 : ks) : ks -> Z -> Z -> Prop :=
| reach_start : reach s k0 k0 0 0
| reach_up k k' u d :
    reach s k0 k u d -> default 0 (sems k !! s) + 1 < 0x80000000 ->
    up s k = Ret (tt, k') -> reach s k0 k' (u + 1) d
| reach_down k k' r w u d :
    reach s k0 k u d -> current k <> idleproc k -> current k <> NULL ->
    w ∉ default [] (queues k !! s) -> default 0 (sems k !! s) < 0x80000000 ->
    down_begin s w k = Ret (r, k') -> reach s k0 k' u (d + 1)
| reach_schedule k k' u d :
    reach s k0 k u d -> schedule k = Ret (tt, k') -> reach s k0 k' u d.

Definition usable (k : ks) (s v : Z) (ws : list Z) : Prop :=
  sched_inv k /\ sem_rep k s v ws /\ runnable k (current k) /\ queues k !! NULL = None.

Lemma schedule_usable k k' s v ws :
  usable k s v ws -> schedule k = Ret (tt, k') -> usable k' s v ws.
Proof.
  intros (Hi & Hs & Hr & Hq) Hk.
  destruct (schedule_eq k Hi) as (k2 & Hk2 & Hi2 & Hr2 & _ & Hc2 & _ & Hcore).
  assert (k2 = k') as -> by congruence.
  split; [done|]. split; [by eapply sem_rep_core|]. split; [|by rewrite (sc_queues _ _ Hcore)].
  apply Hr2. rewrite Hc2. by apply served_runnable.
Qed.

Lemma reach_usable s k0 v0 k u d :
  s <> NULL -> usable k0 s v0 [] -> reach s k0 k u d ->
  exists v ws, usable k s v ws /\ v + d = v0 + u + Z.of_nat (length ws).
Proof.
  intros Hs0 H0. induction 1 as [|k k' u d _ (v & ws & (Hi & Hs & Hr & Hq) & Hn) Hb Hup
    |k k' r w u d _ (v & ws & (Hi & Hs & Hr & Hq) & Hn) Hci Hc0 Hw Hb Hdn
    |k k' u d _ (v & ws & Hu & Hn) Hsc].
  - exists v0, []. split; [done|]. simpl. lia.
  - rewrite (sr_value _ _ _ _ Hs) in Hb. destruct (up_eq k s v ws Hi Hs Hb)
      as (k2 & Hk2 & Hi2 & Hq2 & Hr2 & Hc2 & _ & Hm).
    assert (k2 = k') as -> by congruence.
    assert (Hu' : forall v' ws', sem_rep k' s v' ws' -> usable k' s v' ws').
    { intros v' ws' ?. do 2 (split; [done|]). split; [rewrite Hc2; by apply Hr2|by rewrite Hq2]. }
    destruct ws as [|w ws].
    + exists (v + 1), []. split; [apply Hu', Hm|]. simpl in *. lia.
    + exists v, ws. split; [apply Hu', Hm|]. simpl in *. lia.
  - rewrite (sr_value _ _ _ _ Hs) in Hb. rewrite (sr_queue _ _ _ _ Hs) in Hw. simpl in Hb, Hw.
    destruct (down_eq k s v ws w) as (r2 & k2 & Hk2 & Hi2 & Hr2 & Hq2 & Hm); try done.
    assert (k2 = k') as -> by congruence.
    assert (Hu' : forall v' ws', sem_rep k' s v' ws' -> usable k' s v' ws').
    { intros v' ws' ?. do 3 (split; [done|]). by rewrite Hq2. }
    case_decide as Hv.
    + exists (v - 1), []. rewrite (sr_idle _ _ _ _ Hs Hv) in Hn.
      split; [apply Hu', Hm|]. simpl in *. lia.
    + exists 0, (ws ++ [w]). split; [apply Hu', Hm|]. assert (0 <= v) by apply Hs.
      rewrite length_app. simpl. lia.
  - exists v, ws. split; [by eapply schedule_usable|done].
Qed.

(** C12: permits are conserved.  From any initial state in which the semaphore
    [s] has value [v0] and no waiter, after any interleaving of [u] calls of
    [up], [d] calls of [down] and of rescheduling, the value is [v0 + u] less
    the calls of [down] that have been granted (all but the ones still in the
    queue), it is never negative, nobody waits while it is positive, every
    waiter is asleep, and the next [up] runs to its end without failing an
    assertion. *)
Theorem sem_conservation (s v0 : Z) (k0 k : ks) (u d : Z) :
  s <> NULL -> usable k0 s v0 [] -> reach s k0 k u d ->
  exists v ws, sems k !! s = Some v /\ queues k !! s = Some ws /\
    v = v0 + u - (d - Z.of_nat (length ws)) /\ 0 <= v /\ (0 < v -> ws = []) /\
    (forall w, w ∈ ws -> exists x, waits k !! w = Some x /\ ~ runnable k (wproc x)) /\
    (v + 1 < 0x80000000 -> exists k', up s k = Ret (tt, k')).
Proof.
  intros Hs0 H0 Hr. destruct (reach_usable s k0 v0 k u d Hs0 H0 Hr) as (v & ws & (Hi & Hs & _) & Hn).
  exists v, ws. assert (Hs' := Hs). destruct Hs as [Hv Hq _ Hnn Hid Hw _].
  split_and!; try done; [lia| |].
  - intros w Hin. destruct (Hw w Hin) as (x & p & Hx & _ & Hp & Hst & _). exists x.
    split; [done|]. intros (p' & Hp' & ?). congruence.
  - intros Hb. destruct (up_eq k s v ws Hi Hs' Hb) as (k' & Hk & _). eauto.
Qed.

(** Hand-off in order of arrival.  When the current process finds no permit
    its [down] suspends it and another process runs; the [up] that finds waiters
    serves the oldest one: that process becomes runnable, the later waiters stay
    queued in their order, the value is not touched, and the rest of the served
    process's [down] succeeds without changing anything. *)
Theorem up_serves_oldest (k : ks) (s : Z) (w : Z) (ws : list Z) :
  sched_inv k -> sem_rep k s 0 (w :: ws) ->
  exists k' x, up s k = Ret (tt, k') /\ waits k' !! w = Some x /\
    runnable k' (wproc x) /\ (wproc x <> current k -> wproc x <> idleproc k ->
      wproc x ∈ run_list (rq k')) /\
    queues k' !! s = Some ws /\ sems k' !! s = Some 0 /\
    down_end s w k' = Ret (tt, k').
Proof.
  intros Hi Hs. destruct (up_eq k s 0 (w :: ws) Hi Hs) as
    (k' & Hk & Hi' & _ & _ & Hc & Hid & [Hv Hq _ _ _ _ _] & x & Hx & Hf & Hxs & Hr); [lia|].
  exists k', x. split_and!; try done.
  - intros. apply (si_queued k' Hi'). by rewrite Hc, Hid.
  - assert (Hnd := sr_nodup _ _ _ _ Hs). unfold down_end, __down_end, wait_current_del.
    erewrite bind_Ret; [by rewrite Z.eqb_refl|].
    erewrite bind_Ret by (erewrite bind_Ret by (by eapply wait_in_queue_eq);
      rewrite bool_decide_false by (by apply NoDup_cons in Hnd as [? _]); done).
    erewrite bind_Ret by by apply load_wait_eq. rewrite Hf, Z.eqb_refl. done.
Qed.

(** ** Witnesses *)

(** [demo_ks] with the semaphore 900 of value 0. *)
Definition demo_sem : ks := set_sems {[ 900 := 0 ]} (set_queues {[ 900 := [] ]} demo_ks).

Lemma demo_sem_usable : usable demo_sem 900 0 [].
Proof.
  split; [by apply (sched_inv_ext demo_ks); [apply demo_ks_inv|..]|].
  split; [|split; [by eexists|done]].
  split; try done; try (intros; set_solver). constructor.
Qed.

Lemma sem_conservation_witness :
  exists k v ws, reach 900 demo_sem k 1 2 /\ sems k !! 900 = Some v /\ queues k !! 900 = Some ws /\
    ws = [701] /\ v = 0 + 1 - (2 - Z.of_nat (length ws)).
Proof.
  assert (Hreach : exists k, reach 900 demo_sem k 1 2 /\ queues k !! 900 = Some [701]).
  { eexists. split.
    - change 1 with (0 + 1) at 1. eapply reach_up.
      + change 2 with (0 + 1 + 1). eapply reach_down with (w := 701).
        * eapply reach_down with (w := 700); [apply reach_start|done|done|set_solver|done|].
          vm_compute. reflexivity.
        * done.
        * done.
        * apply (bool_decide_unpack _). by vm_compute.
        * done.
        * vm_compute. reflexivity.
      + done.
      + vm_compute. reflexivity.
    - by vm_compute. }
  destruct Hreach as (k & Hr & Hq).
  destruct (sem_conservation 900 0 demo_sem k 1 2 ltac:(done) demo_sem_usable Hr)
    as (v & ws & Hv & Hq' & Hn & _).
  exists k, v, ws. split_and!; [done..|congruence|done].
Defined.

Lemma up_serves_oldest_witness :
  exists k k' x, down_begin 900 700 demo_sem = Ret (None, k) /\ up 900 k = Ret (tt, k') /\
    waits k' !! 700 = Some x /\ wproc x = 10 /\ down_end 900 700 k' = Ret (tt, k').
Proof.
  destruct demo_sem_usable as (Hi & Hs & Hr & Hq).
  destruct (down_eq demo_sem 900 0 [] 700 Hi Hs Hr) as (r & k & Hk & Hi' & _ & _ & Hm);
    [done|done|set_solver|done|done|].
  rewrite decide_False in Hm by lia. destruct Hm as (-> & Hs' & _ & (x0 & Hx0 & Hp0) & _).
  destruct (up_serves_oldest k 900 700 [] Hi' Hs') as (k' & x & Hu & Hx & _ & _ & _ & _ & Hd).
  exists k, k', x. split_and!; try done.
  assert (Hc : exists kc, down_begin 900 700 demo_sem = Ret (None, kc) /\
     exists kd xd, up 900 kc = Ret (tt, kd) /\ waits kd !! 700 = Some xd /\ wproc xd = 10).
  { eexists. split; [vm_compute; reflexivity|]. eexists _, _. split; [vm_compute; reflexivity|].
    split; [vm_compute; reflexivity|done]. }
  destruct Hc as (kc & Hkc & kd & xd & Hkd & Hxd & Hx10).
  assert (kc = k) as -> by congruence. assert (kd = k') as -> by congruence. congruence.
Defined.

End SyncSpec.
