(* ===== verification/Philosophers.v ===== *)
(** The dining philosophers that test the semaphores
    (kern/sync/check_sync.c): five threads as programs over the semaphores that
    [SyncSpec] shows the wait queues to implement, a counter and a queue in order
    of arrival. *)

From S2P Require Import Prelude.

Module Philosophers.

Definition N : Z := 5.
Definition LEFT (i : Z) : Z := Z.rem (i - 1 + N) N.
Definition RIGHT (i : Z) : Z := Z.rem (i + 1) N.
Definition THINKING : Z := 0.
Definition HUNGRY : Z := 1.
Definition EATING : Z := 2.
Definition TIMES : Z := 4.

(** Where a philosopher is: the statements of [philosopher_using_semaphore] and
    of the two functions it calls; [TakeMutexW], [TakeForkW] and [PutMutexW] are
    asleep inside [down]. *)
Inductive pc := Loop | Sleep | TakeMutex | TakeMutexW | TakeHungry | TakeTest | TakeUp | TakeFork | TakeForkW
  | Eat | PutMutex | PutMutexW | PutThink | PutLeft | PutRight | PutUp | Done.
#[global] Instance pc_eq_dec : EqDecision pc.
Proof. solve_decision. Defined.

(** A semaphore: its value and the philosophers asleep on it. *)
Record sem := mk_sem { value : Z; waiting : list Z }.

(** The arrays are functions of the index. *)
Definition upd {A} (f : Z -> A) (i : Z) (v : A) : Z -> A := fun j => if j =? i then v else f j.

Record t := mk { state_sema : Z -> Z; mutex : sem; s : Z -> sem; at_ : Z -> pc; iter : Z -> Z }.

Definition set_state f x := mk f (mutex x) (s x) (at_ x) (iter x).
Definition set_mutex m x := mk (state_sema x) m (s x) (at_ x) (iter x).
Definition set_s f x := mk (state_sema x) (mutex x) f (at_ x) (iter x).
Definition go (i : Z) (p : pc) (x : t) : t := mk (state_sema x) (mutex x) (s x) (upd (at_ x) i p) (iter x).

(** The statement after the [down] in which a philosopher sleeps. *)
Definition woken (p : pc) : pc :=
  match p with TakeMutexW => TakeHungry | PutMutexW => PutThink | TakeForkW => Eat | p => p end.

(** [up]: the first sleeper goes on, or the value grows. *)
Definition up (put : sem -> t -> t) (m : sem) (x : t) : t :=
  match waiting m with
  | [] => put (mk_sem (value m + 1) []) x
  | j :: q => go j (woken (at_ x j)) (put (mk_sem (value m) q) x)
  end.

(** [down] by [i], which goes on at [next] or sleeps at [asleep]. *)
Definition down (put : sem -> t -> t) (m : sem) (i : Z) (next asleep : pc) (x : t) : t :=
  if 0 <? value m then go i next (put (mk_sem (value m - 1) (waiting m)) x)
  else go i asleep (put (mk_sem (value m) (waiting m ++ [i])) x).

Definition put_s (i : Z) (m : sem) (x : t) : t := set_s (upd (s x) i m) x.

Definition phi_test_sema (i : Z) (x : t) : t :=
  if (state_sema x i =? HUNGRY) && negb (state_sema x (LEFT i) =? EATING) && negb (state_sema x (RIGHT i) =? EATING)
  then up (put_s i) (s x i) (set_state (upd (state_sema x) i EATING) x)
  else x.

(** The next statement of philosopher [i]; [None] when it is asleep or done. *)
Definition phi_step (i : Z) (x : t) : option t :=
  match at_ x i with
  (* philosopher_using_semaphore *)
  | Loop => let n := iter x i in
      let x := mk (state_sema x) (mutex x) (s x) (at_ x) (upd (iter x) i (n + 1)) in
      Some (if n <? TIMES then go i Sleep x else go i Done x)
  | Sleep => Some (go i TakeMutex x)
  (* phi_take_forks_sema *)
  | TakeMutex => Some (down set_mutex (mutex x) i TakeHungry TakeMutexW x)
  | TakeHungry => Some (go i TakeTest (set_state (upd (state_sema x) i HUNGRY) x))
  | TakeTest => Some (go i TakeUp (phi_test_sema i x))
  | TakeUp => Some (up set_mutex (mutex x) (go i TakeFork x))
  | TakeFork => Some (down (put_s i) (s x i) i Eat TakeForkW x)
  | Eat => Some (go i PutMutex x)
  (* phi_put_forks_sema *)
  | PutMutex => Some (down set_mutex (mutex x) i PutThink PutMutexW x)
  | PutThink => Some (go i PutLeft (set_state (upd (state_sema x) i THINKING) x))
  | PutLeft => Some (go i PutRight (phi_test_sema (LEFT i) x))
  | PutRight => Some (go i PutUp (phi_test_sema (RIGHT i) x))
  | PutUp => Some (up set_mutex (mutex x) (go i Loop x))
  | TakeMutexW | TakeForkW | PutMutexW | Done => None
  end.

(** The table as [check_sync] lays it, and the states after [n] statements in
    any order. *)
Definition start : t := mk (fun _ => THINKING) (mk_sem 1 []) (fun _ => mk_sem 0 []) (fun _ => Loop) (fun _ => 0).

Definition seat (i : Z) : Prop := 0 <= i < N.

Inductive reach : nat -> t -> Prop :=
  | reach_start : reach 0 start
  | reach_step n x i x' : reach n x -> seat i -> phi_step i x = Some x' -> reach (S n) x'.

(** ** The invariant *)

(** Inside the critical section. *)
Definition inside (p : pc) : bool :=
  match p with TakeHungry | TakeTest | TakeUp | PutThink | PutLeft | PutRight | PutUp => true | _ => false end.
(** Asleep on the mutex. *)
Definition queued (p : pc) : bool := match p with TakeMutexW | PutMutexW => true | _ => false end.

(** What a philosopher's place says of its state and its own semaphore. *)
Definition local (p : pc) (st v : Z) : Prop :=
  match p with
  | TakeForkW => st = HUNGRY /\ v = 0
  | TakeTest | TakeUp | TakeFork => (st = HUNGRY /\ v = 0) \/ (st = EATING /\ v = 1)
  | Eat | PutMutex | PutMutexW | PutThink => st = EATING /\ v = 0
  | _ => st = THINKING /\ v = 0
  end.

(** The philosopher inside still has to look at [j]. *)
Definition to_look (p : pc) (c j : Z) : Prop :=
  match p with
  | TakeTest => j = c
  | PutLeft => j = LEFT c \/ j = RIGHT c
  | PutRight => j = RIGHT c
  | _ => False
  end.

(** [o] is inside; a hungry philosopher has a neighbour that eats, but for those
    in [L]. *)
Record inv_look (o : option Z) (L : Z -> Prop) (x : t) : Prop := {
  in_owner j : seat j -> inside (at_ x j) = true <-> o = Some j;
  in_seat c : o = Some c -> seat c;
  in_value : value (mutex x) = match o with Some _ => 0 | None => 1 end;
  in_queue j : j ∈ waiting (mutex x) <-> seat j /\ queued (at_ x j) = true;
  in_nodup : NoDup (waiting (mutex x));
  in_free : o = None -> waiting (mutex x) = [];
  in_own j : seat j -> waiting (s x j) = if decide (at_ x j = TakeForkW) then [j] else [];
  in_local j : seat j -> local (at_ x j) (state_sema x j) (value (s x j));
  in_apart j : seat j -> ~ (state_sema x j = EATING /\ state_sema x (RIGHT j) = EATING);
  in_hungry j : seat j -> state_sema x j = HUNGRY ->
    state_sema x (LEFT j) = EATING \/ state_sema x (RIGHT j) = EATING \/ L j
}.
Definition looks (o : option Z) (x : t) (j : Z) : Prop := match o with Some c => to_look (at_ x c) c j | None => False end.
Definition inv (x : t) : Prop := exists o, inv_look o (looks o x) x.

Lemma upd_eq {A} (f : Z -> A) i v : upd f i v i = v.
Proof. unfold upd. by rewrite Z.eqb_refl. Qed.
Lemma upd_ne {A} (f : Z -> A) i j v : j <> i -> upd f i v j = f j.
Proof. intros Hj. unfold upd. by replace (j =? i) with false by lia. Qed.

Lemma rem_mod i : 0 <= i -> Z.rem i N = i `mod` 5.
Proof. intros Hi. by rewrite Z.rem_mod_nonneg by (unfold N; lia). Qed.
Lemma left_seat i : seat i -> seat (LEFT i).
Proof. unfold seat, LEFT. intros Hi. rewrite rem_mod by (unfold N in *; lia). unfold N in *. Z.div_mod_to_equations. lia. Qed.
Lemma right_seat i : seat i -> seat (RIGHT i).
Proof. unfold seat, RIGHT. intros Hi. rewrite rem_mod by (unfold N in *; lia). unfold N in *. Z.div_mod_to_equations. lia. Qed.
Lemma right_left i : seat i -> RIGHT (LEFT i) = i.
Proof.
  intros Hi. pose proof (left_seat i Hi) as Hl. unfold seat, RIGHT, LEFT in *.
  rewrite !rem_mod by (rewrite ?rem_mod in * by (unfold N in *; lia); unfold N in *; lia).
  unfold N in *. Z.div_mod_to_equations. lia.
Qed.
Lemma left_right i : seat i -> LEFT (RIGHT i) = i.
Proof.
  intros Hi. pose proof (right_seat i Hi) as Hl. unfold seat, RIGHT, LEFT in *.
  rewrite !rem_mod by (rewrite ?rem_mod in * by (unfold N in *; lia); unfold N in *; lia).
  unfold N in *. Z.div_mod_to_equations. lia.
Qed.
Lemma neighbours i : seat i -> LEFT i <> i /\ RIGHT i <> i /\ LEFT i <> RIGHT i.
Proof.
  intros Hi. unfold seat, RIGHT, LEFT in *. rewrite !rem_mod by (unfold N in *; lia). unfold N in *. Z.div_mod_to_equations. lia.
Qed.

Lemma start_inv : inv start.
Proof.
  exists None. split; try done.
  - intros j. cbn. split; [by intros ?%elem_of_nil|by intros []].
  - constructor.
  - intros j _ [? _]. done.
Qed.

Ltac seats j i := destruct (decide (j = i)) as [->|]; [rewrite ?upd_eq in *|rewrite ?upd_ne in * by done].

Lemma inv_mono o (L L' : Z -> Prop) x : (forall j, L j -> L' j) -> inv_look o L x -> inv_look o L' x.
Proof. intros Hl []. split; try done. intros j Hj Hh. destruct (in_hungry0 j Hj Hh) as [?|[?|?]]; auto. Qed.

(** ** The steps *)

Section Steps.
  Context (x : t) (o : option Z) (L : Z -> Prop) (i : Z).
  Hypothesis Hv : inv_look o L x.
  Hypothesis Hi : seat i.

Lemma not_owner : inside (at_ x i) = false -> o <> Some i.
Proof using Hv Hi. intros Hn Ho. apply (in_owner _ _ _ Hv i Hi) in Ho. congruence. Qed.

(** Moving on outside. *)
Lemma move_inv p : inside (at_ x i) = false -> inside p = false -> queued p = queued (at_ x i) ->
  at_ x i <> TakeForkW -> p <> TakeForkW -> (forall st v, local (at_ x i) st v -> local p st v) ->
  inv_look o L (go i p x).
Proof using Hv Hi.
  intros Ho Hp Hq Hw Hw' Hl. destruct Hv as [H1 H2 H3 H4 H5 H6 H7 H8 H9 H10]. split; cbn; try done.
  - intros j Hj. seats j i; [|by apply H1]. rewrite Hp, <- (H1 i Hj). by rewrite Ho.
  - intros j. rewrite H4. seats j i; [by rewrite Hq|done].
  - intros j Hj. seats j i; [|by apply H7]. by rewrite (H7 i Hi), !decide_False.
  - intros j Hj. seats j i; [|by apply H8]. by apply Hl, H8.
Qed.

(** Entering the critical section. *)
Lemma enter_inv p : o = None -> inside (at_ x i) = false -> queued (at_ x i) = false -> at_ x i <> TakeForkW ->
  inside p = true -> queued p = false -> p <> TakeForkW -> (forall st v, local (at_ x i) st v -> local p st v) ->
  inv_look (Some i) L (go i p (set_mutex (mk_sem (value (mutex x) - 1) (waiting (mutex x))) x)).
Proof using Hv Hi.
  intros Ho Hin Hq Hw Hp Hq' Hw' Hl. destruct Hv as [H1 H2 H3 H4 H5 H6 H7 H8 H9 H10]. subst o. split; cbn; try done.
  - intros j Hj. seats j i; [by rewrite Hp|]. rewrite (H1 j Hj). split; [done|]. intros [= ->]. done.
  - by intros c [= <-].
  - lia.
  - intros j. rewrite H4. seats j i; [by rewrite Hq, Hq'|done].
  - intros j Hj. seats j i; [|by apply H7]. by rewrite (H7 i Hi), !decide_False.
  - intros j Hj. seats j i; [|by apply H8]. by apply Hl, H8.
Qed.

(** Falling asleep before it. *)
Lemma queue_inv p : inside (at_ x i) = false -> queued (at_ x i) = false -> at_ x i <> TakeForkW -> o <> None ->
  inside p = false -> queued p = true -> p <> TakeForkW -> (forall st v, local (at_ x i) st v -> local p st v) ->
  inv_look o L (go i p (set_mutex (mk_sem (value (mutex x)) (waiting (mutex x) ++ [i])) x)).
Proof using Hv Hi.
  intros Hin Hq Hw Ho Hp Hq' Hw' Hl. destruct Hv as [H1 H2 H3 H4 H5 H6 H7 H8 H9 H10]. split; cbn; try done.
  - intros j Hj. seats j i; [|by apply H1]. rewrite Hp, <- (H1 i Hj). by rewrite Hin.
  - intros j. rewrite elem_of_app, list_elem_of_singleton, H4. seats j i; [rewrite Hq, Hq'; tauto|tauto].
  - apply NoDup_app. split_and!; [done| |apply NoDup_singleton]. intros j Hj ->%list_elem_of_singleton.
    apply H4 in Hj as [_ Hj]. congruence.
  - intros j Hj. seats j i; [|by apply H7]. by rewrite (H7 i Hi), !decide_False.
  - intros j Hj. seats j i; [|by apply H8]. by apply Hl, H8.
Qed.

(** Leaving it: nobody, or the first sleeper, is inside. *)
Lemma leave_inv p : o = Some i -> (forall j, ~ L j) -> inside p = false -> queued p = false -> p <> TakeForkW ->
  queued (at_ x i) = false -> at_ x i <> TakeForkW -> (forall st v, local (at_ x i) st v -> local p st v) ->
  inv (up set_mutex (mutex x) (go i p x)).
Proof using Hv Hi.
  intros Ho HL Hp Hq Hw Hq' Hw' Hl. destruct Hv as [H1 H2 H3 H4 H5 H6 H7 H8 H9 H10]. subst o.
  assert (Hh : forall j, seat j -> state_sema x j = HUNGRY -> state_sema x (LEFT j) = EATING \/ state_sema x (RIGHT j) = EATING).
  { intros j Hj Hh. destruct (H10 j Hj Hh) as [?|[?|Hx]]; [by left|by right|by destruct (HL j)]. }
  unfold up. destruct (waiting (mutex x)) as [|k q] eqn:Eq.
  - exists None. split; cbn; try done.
    + intros j Hj. seats j i; [by rewrite Hp|]. rewrite (H1 j Hj). split; [by intros [= ->]|done].
    + lia.
    + intros j. rewrite H4. seats j i; [by rewrite Hq, Hq'|done].
    + intros j Hj. seats j i; [|by apply H7]. by rewrite (H7 i Hi), !decide_False.
    + intros j Hj. seats j i; [|by apply H8]. by apply Hl, H8.
    + intros j Hj Hj'. destruct (Hh j Hj Hj'); auto.
  - destruct (proj1 (H4 k) ltac:(left)) as [Hk Hkq]. assert (Hki : k <> i) by (intros ->; congruence).
    apply NoDup_cons in H5 as [Hkn H5]. cbn [at_ go]. rewrite (upd_ne _ _ _ _ Hki).
    assert (Hwk : inside (woken (at_ x k)) = true /\ queued (woken (at_ x k)) = false /\ woken (at_ x k) <> TakeForkW /\ at_ x k <> TakeForkW /\
      (forall st v, local (at_ x k) st v -> local (woken (at_ x k)) st v) /\ (forall j, ~ to_look (woken (at_ x k)) k j)).
    { destruct (at_ x k); try done; cbn; split_and!; auto. }
    destruct Hwk as (W1 & W2 & W3 & W4 & W5 & W6).
    exists (Some k). split; cbn; try done.
    + intros j Hj. seats j k; [by rewrite W1|]. seats j i; [rewrite Hp; split; [done|congruence]|].
      rewrite (H1 j Hj). split; [by intros [= ->]|congruence].
    + by intros c [= <-].
    + intros j. specialize (H4 j). rewrite elem_of_cons in H4. seats j k.
      { rewrite W2. split; [done|by intros []]. }
      seats j i.
      { rewrite Hq. rewrite Hq' in H4. split; [|by intros []]. intros Hj. destruct (proj1 H4 (or_intror Hj)). done. }
      rewrite <- H4. split; [by right|by intros [->|]].
    + intros j Hj. seats j k; [by rewrite (H7 k Hk), !decide_False|]. seats j i; [|by apply H7]. by rewrite (H7 i Hi), !decide_False.
    + intros j Hj. seats j k; [by apply W5, H8|]. seats j i; [|by apply H8]. by apply Hl, H8.
    + intros j Hj Hj'. destruct (Hh j Hj Hj'); auto.
Qed.

(** The one inside goes on to its next statement. *)
Lemma advance_inv p : o = Some i -> inside p = true -> queued (at_ x i) = false -> queued p = false ->
  at_ x i <> TakeForkW -> p <> TakeForkW -> (forall st v, local (at_ x i) st v -> local p st v) ->
  inv_look o L (go i p x).
Proof using Hv Hi.
  intros Ho Hp Hq Hq' Hw Hw' Hl. destruct Hv as [H1 H2 H3 H4 H5 H6 H7 H8 H9 H10]. split; cbn; try done.
  - intros j Hj. seats j i; [|by apply H1]. by rewrite Hp.
  - intros j. rewrite H4. seats j i; [by rewrite Hq, Hq'|done].
  - intros j Hj. seats j i; [|by apply H7]. by rewrite (H7 i Hi), !decide_False.
  - intros j Hj. seats j i; [|by apply H8]. by apply Hl, H8.
Qed.

(** It gets hungry, and has to look at itself. *)
Lemma hungry_inv : o = Some i -> at_ x i = TakeHungry -> (forall j, ~ L j) ->
  inv_look o (fun j => j = i) (go i TakeTest (set_state (upd (state_sema x) i HUNGRY) x)).
Proof using Hv Hi.
  intros Ho Ha HL. destruct Hv as [H1 H2 H3 H4 H5 H6 H7 H8 H9 H10].
  pose proof (H8 i Hi) as Hloc. rewrite Ha in Hloc. destruct Hloc as [Hst Hval].
  assert (Hkeep : forall j, state_sema x j = EATING -> upd (state_sema x) i HUNGRY j = EATING).
  { intros j Hj. rewrite upd_ne; [done|]. intros ->. by rewrite Hst in Hj. }
  assert (Hback : forall j, upd (state_sema x) i HUNGRY j = EATING -> state_sema x j = EATING).
  { intros j. by seats j i. }
  split; cbn; try done.
  - intros j Hj. seats j i; [done|by apply H1].
  - intros j. rewrite H4. seats j i; [by rewrite Ha|done].
  - intros j Hj. seats j i; [|by apply H7]. by rewrite (H7 i Hi), Ha, !decide_False.
  - intros j Hj. seats j i; [|by apply H8]. by left.
  - intros j Hj [Ha1 Ha2]. by apply (H9 j Hj); auto.
  - intros j Hj Hh. seats j i; [by auto|]. destruct (H10 j Hj Hh) as [?|[?|Hx]]; auto. by destruct (HL j).
Qed.

(** It puts its forks down, and has to look at its neighbours. *)
Lemma think_inv : o = Some i -> at_ x i = PutThink -> (forall j, ~ L j) ->
  inv_look o (fun j => j = LEFT i \/ j = RIGHT i) (go i PutLeft (set_state (upd (state_sema x) i THINKING) x)).
Proof using Hv Hi.
  intros Ho Ha HL. destruct Hv as [H1 H2 H3 H4 H5 H6 H7 H8 H9 H10].
  pose proof (H8 i Hi) as Hloc. rewrite Ha in Hloc. destruct Hloc as [Hst Hval].
  assert (Hback : forall j, upd (state_sema x) i THINKING j = EATING -> state_sema x j = EATING).
  { intros j. by seats j i. }
  split; cbn; try done.
  - intros j Hj. seats j i; [done|by apply H1].
  - intros j. rewrite H4. seats j i; [by rewrite Ha|done].
  - intros j Hj. seats j i; [|by apply H7]. by rewrite (H7 i Hi), Ha, !decide_False.
  - intros j Hj. seats j i; [|by apply H8]. done.
  - intros j Hj [Ha1 Ha2]. by apply (H9 j Hj); auto.
  - intros j Hj Hh. destruct (decide (j = i)) as [->|Hji]; [by rewrite upd_eq in Hh|]. rewrite (upd_ne _ _ j) in Hh by done.
    destruct (decide (LEFT j = i)) as [<-|Hl]; [rewrite right_left by done; auto|].
    destruct (decide (RIGHT j = i)) as [<-|Hr]; [rewrite left_right by done; auto|].
    rewrite !upd_ne by done. destruct (H10 j Hj Hh) as [?|[?|Hx]]; auto. by destruct (HL j).
Qed.

(** A look at [k]: it eats when it may, and wakes up if it sleeps. *)
Lemma test_inv k : seat k -> inv_look o (fun j => L j /\ j <> k) (phi_test_sema k x).
Proof using Hv.
  intros Hk. destruct Hv as [H1 H2 H3 H4 H5 H6 H7 H8 H9 H10]. unfold phi_test_sema.
  destruct (_ && _ && _) eqn:E.
  2:{ split; try done. intros j Hj Hh. destruct (decide (j = k)) as [->|]; [|by destruct (H10 j Hj Hh) as [?|[?|?]]; auto].
      rewrite Hh in E. destruct (state_sema x (LEFT k) =? EATING) eqn:E1; [left; lia|].
      destruct (state_sema x (RIGHT k) =? EATING) eqn:E2; [right; left; lia|done]. }
  apply andb_true_iff in E as [[Eh El]%andb_true_iff Er]. apply Z.eqb_eq in Eh.
  apply negb_true_iff, Z.eqb_neq in El, Er.
  assert (Hkeep : forall j, state_sema x j = EATING -> upd (state_sema x) k EATING j = EATING).
  { intros j Hj. by seats j k. }
  assert (Hap : forall j, seat j -> ~ (upd (state_sema x) k EATING j = EATING /\ upd (state_sema x) k EATING (RIGHT j) = EATING)).
  { intros j Hj [Ha Hb]. destruct (neighbours j Hj) as (_ & Hne & _). destruct (decide (j = k)) as [->|Hjk].
    - by rewrite upd_ne in Hb.
    - rewrite (upd_ne _ _ j) in Ha by done. destruct (decide (RIGHT j = k)) as [<-|Hr]; [by rewrite left_right in El|].
      rewrite upd_ne in Hb by done. by apply (H9 j Hj). }
  assert (Hhu : forall j, seat j -> upd (state_sema x) k EATING j = HUNGRY ->
    upd (state_sema x) k EATING (LEFT j) = EATING \/ upd (state_sema x) k EATING (RIGHT j) = EATING \/ L j /\ j <> k).
  { intros j Hj Hh. destruct (decide (j = k)) as [->|Hjk]; [by rewrite upd_eq in Hh|]. rewrite (upd_ne _ _ j) in Hh by done.
    destruct (H10 j Hj Hh) as [?|[?|?]]; auto. }
  pose proof (H8 k Hk) as Hloc. rewrite Eh in Hloc.
  unfold up. rewrite (H7 k Hk). destruct (decide (at_ x k = TakeForkW)) as [Ew|Ew].
  - cbn. rewrite Ew in Hloc |- *. destruct Hloc as [_ Hv0]. split; cbn; try done.
    + intros j Hj. rewrite <- (H1 j Hj). seats j k; [by rewrite Ew|done].
    + intros j. rewrite H4. seats j k; [by rewrite Ew|done].
    + intros j Hj. seats j k; [done|by apply H7].
    + intros j Hj. seats j k; [done|by apply H8].
  - assert (Hv0 : value (s x k) = 0 /\ forall v, local (at_ x k) EATING (v + 1) <-> v = 0).
    { destruct (at_ x k); cbn in Hloc |- *; try (destruct Hloc as [Hh _]; done); try done;
        (split; [destruct Hloc as [[_ ?]|[? _]]; done|]; intros v; split; [intros [[? _]|[_ ?]]; [done|lia]|intros ->; by right]). }
    destruct Hv0 as [Hv0 Hl]. split; cbn; try done.
    + intros j Hj. seats j k; [by rewrite decide_False|by apply H7].
    + intros j Hj. seats j k; [|by apply H8]. by apply Hl.
Qed.

(** Taking the forks: eating, or asleep until a neighbour looks. *)
Lemma fork_inv : at_ x i = TakeFork -> inv_look o L (down (put_s i) (s x i) i Eat TakeForkW x).
Proof using Hv Hi.
  intros Ha. destruct Hv as [H1 H2 H3 H4 H5 H6 H7 H8 H9 H10].
  pose proof (H8 i Hi) as Hloc. rewrite Ha in Hloc. pose proof (H7 i Hi) as Hw. rewrite Ha, decide_False in Hw by done.
  unfold down. destruct (0 <? value (s x i)) eqn:E; (split; cbn; try done);
    try (intros j Hj; rewrite <- (H1 j Hj); seats j i; [by rewrite Ha|done]);
    try (intros j; rewrite H4; seats j i; [by rewrite Ha|done]);
    try (intros j Hj; seats j i; [by rewrite Hw|by apply H7]).
  - intros j Hj. seats j i; [|by apply H8]. cbn. destruct Hloc as [[_ ?]|[? ?]]; [lia|split; [done|lia]].
  - intros j Hj. seats j i; [|by apply H8]. cbn. destruct Hloc as [[? ?]|[? ?]]; [done|lia].
Qed.

End Steps.

Lemma look_inv o (L : Z -> Prop) x : inv_look o L x -> (forall j, L j -> looks o x j) -> inv x.
Proof. intros Hv HL. exists o. by eapply inv_mono. Qed.

(** Outside, nothing changes for the one inside. *)
Lemma looks_out o x i p j : o <> Some i -> looks o x j -> looks o (go i p x) j.
Proof. intros Ho. destruct o as [c|]; [|done]. cbn. rewrite upd_ne; [done|congruence]. Qed.

(** Waiting for the critical section. *)
Lemma down_inv x i next asleep : inv x -> seat i -> inside (at_ x i) = false -> queued (at_ x i) = false -> at_ x i <> TakeForkW ->
  (inside next, queued next, inside asleep, queued asleep) = (true, false, false, true) ->
  (forall j, ~ to_look next i j) -> (forall st v, local (at_ x i) st v -> local next st v /\ local asleep st v) ->
  inv (down set_mutex (mutex x) i next asleep x).
Proof.
  intros [o Hv] Hi Hin Hq Hw [= Hn Hnq Has Hasq] Hno Hl. unfold down. pose proof (in_value _ _ _ Hv) as Hval.
  assert (next <> TakeForkW) by (intros ->; done). assert (asleep <> TakeForkW) by (intros ->; done).
  assert (o <> Some i) by (eapply not_owner; eauto).
  destruct o as [c|].
  - replace (0 <? value (mutex x)) with false by lia. eapply (look_inv (Some c)).
    + eapply queue_inv; eauto; try done. intros st v Hs. by apply Hl.
    + intros j. by apply (looks_out (Some c) x).
  - replace (0 <? value (mutex x)) with true by lia. eapply (look_inv (Some i) (looks None x)); [|done].
    eapply enter_inv; eauto; intros st v Hs; by apply Hl.
Qed.

Lemma test_at o L x k j : inv_look o L x -> seat k -> at_ x j <> TakeForkW -> at_ (phi_test_sema k x) j = at_ x j.
Proof.
  intros Hv Hk Hj. unfold phi_test_sema, up. destruct (_ && _); [|done]. rewrite (in_own _ _ _ Hv k Hk).
  destruct (decide (at_ x k = TakeForkW)) as [Hw|]; [|done]. cbn. apply upd_ne. congruence.
Qed.

(** The one inside looks at [k] and goes on. *)
Lemma look_at_inv L x i k p : inv_look (Some i) L x -> seat i -> seat k -> inside p = true -> queued (at_ x i) = false -> queued p = false ->
  at_ x i <> TakeForkW -> p <> TakeForkW -> (forall st v, local (at_ x i) st v -> local p st v) ->
  (forall j, L j -> j <> k -> to_look p i j) -> inv (go i p (phi_test_sema k x)).
Proof.
  intros Hv Hi Hk Hp Hq Hq' Hw Hw' Hl HL. pose proof (test_at _ _ _ k i Hv Hk Hw) as Hat.
  eapply (look_inv (Some i)); [eapply (advance_inv _ _ _ i (test_inv _ _ _ Hv k Hk) Hi); rewrite ?Hat; eauto|].
  cbn. rewrite upd_eq. intros j [Hj Hjk]. by apply HL.
Qed.

Lemma step_inv x i x' : inv x -> seat i -> phi_step i x = Some x' -> inv x'.
Proof.
  intros Hx Hi. pose proof Hx as [o Hv]. pose proof (in_owner _ _ _ Hv i Hi) as Hown.
  pose proof (left_seat i Hi). pose proof (right_seat i Hi).
  unfold phi_step. destruct (at_ x i) eqn:Ea; intros [= <-]; cbn in Hown;
    first [assert (Ho : o = Some i) by (by apply Hown); subst o;
           apply (inv_mono _ _ (to_look (at_ x i) i)) in Hv; [|done]; rewrite Ea in Hv; cbn in Hv
          |assert (Ho : o <> Some i) by (intros Ho; apply Hown in Ho; discriminate)].
  - eapply (look_inv o); [|by case_match; intros j; apply (looks_out o x)].
    case_match; (apply (move_inv (mk _ _ _ _ _)); cbn; rewrite ?Ea; try done; by destruct Hv).
  - eapply (look_inv o); [|by intros j; apply (looks_out o x)]. by apply move_inv; rewrite ?Ea.
  - apply down_inv; rewrite ?Ea; try done; by cbn; auto.
  - eapply look_inv; [eapply (hungry_inv x); eauto|]. cbn. rewrite upd_eq. done.
  - eapply look_at_inv; rewrite ?Ea; eauto. cbn. congruence.
  - eapply leave_inv; rewrite ?Ea; eauto.
  - eapply (look_inv o); [by apply fork_inv|]. unfold down. case_match; intros j; apply (looks_out o x); done.
  - eapply (look_inv o); [|by intros j; apply (looks_out o x)]. by apply move_inv; rewrite ?Ea.
  - apply down_inv; rewrite ?Ea; try done; by cbn; auto.
  - eapply look_inv; [eapply (think_inv x); eauto|]. cbn. rewrite upd_eq. done.
  - eapply look_at_inv; rewrite ?Ea; eauto. cbn. tauto.
  - eapply look_at_inv; rewrite ?Ea; eauto; cbn; congruence.
  - eapply leave_inv; rewrite ?Ea; eauto.
Qed.

Lemma dining_inv n x : reach n x -> inv x.
Proof. induction 1; [apply start_inv|by eapply step_inv]. Qed.

(** ** Progress *)

(** How far a philosopher has come: statements of the round, and rounds. *)
Definition place (p : pc) : Z :=
  match p with
  | Loop => 16 | Sleep => 1 | TakeMutex => 2 | TakeMutexW => 3 | TakeHungry => 4 | TakeTest => 5 | TakeUp => 6 | TakeFork => 7
  | TakeForkW => 8 | Eat => 9 | PutMutex => 10 | PutMutexW => 11 | PutThink => 12 | PutLeft => 13 | PutRight => 14 | PutUp => 15
  | Done => 1
  end.
Definition progress (x : t) (j : Z) : Z := 16 * iter x j + place (at_ x j).
Definition counted (x : t) (j : Z) : Prop :=
  match at_ x j with Loop => 0 <= iter x j <= TIMES | Done => iter x j = TIMES + 1 | _ => 1 <= iter x j <= TIMES end.

(** A step moves one philosopher on, and wakes others at most. *)
Definition stepped (i : Z) (x x' : t) : Prop :=
  (forall j, j <> i -> iter x' j = iter x j /\ (at_ x' j = at_ x j \/ at_ x' j = woken (at_ x j))) /\
  (counted x i -> counted x' i) /\ progress x i < progress x' i.

Lemma stepped_plain i x x' p : iter x' = iter x -> (forall j, j <> i -> at_ x' j = at_ x j \/ at_ x' j = woken (at_ x j)) ->
  at_ x' i = p -> p <> Done -> at_ x i <> Loop -> at_ x i <> Done -> place (at_ x i) < place p -> stepped i x x'.
Proof.
  intros Hi Ha Hp Hd Hl Hd' Hlt. unfold stepped, progress, counted. rewrite Hi, Hp. split_and!; [auto| |lia].
  destruct (at_ x i); try done; destruct p; try done; unfold TIMES; lia.
Qed.

Lemma up_at put m x j : (forall q y, at_ (put q y) = at_ y) -> at_ (up put m x) j = at_ x j \/ at_ (up put m x) j = woken (at_ x j).
Proof.
  intros Hp. unfold up. destruct (waiting m) as [|k q]; [rewrite Hp; by left|]. cbn. rewrite Hp. seats j k; auto.
Qed.
Lemma up_iter put m x : (forall q y, iter (put q y) = iter y) -> iter (up put m x) = iter x.
Proof. intros Hp. unfold up. destruct (waiting m); [by rewrite Hp|]. cbn. by rewrite Hp. Qed.

Lemma test_moves k x j : iter (phi_test_sema k x) = iter x /\
  (at_ (phi_test_sema k x) j = at_ x j \/ at_ (phi_test_sema k x) j = woken (at_ x j)).
Proof.
  unfold phi_test_sema. destruct (_ && _); [|by auto]. split; [by rewrite up_iter|].
  destruct (up_at (put_s k) (s x k) (set_state (upd (state_sema x) k EATING) x) j) as [->| ->]; auto.
Qed.

(** The three shapes of a step inside a round. *)
Lemma go_stepped i p x y : p <> Done -> at_ x i <> Loop -> at_ x i <> Done -> place (at_ x i) < place p ->
  iter y = iter x -> (forall j, at_ y j = at_ x j \/ at_ y j = woken (at_ x j)) -> stepped i x (go i p y).
Proof.
  intros Hp Hl Hd Hlt Hit Hat. apply (stepped_plain _ _ _ p); try done; cbn; [|by rewrite upd_eq].
  intros j Hj. rewrite upd_ne by done. auto.
Qed.
Lemma down_stepped i put m next asleep x : (forall q y, at_ (put q y) = at_ y) -> (forall q y, iter (put q y) = iter y) ->
  next <> Done -> asleep <> Done -> at_ x i <> Loop -> at_ x i <> Done -> place (at_ x i) < place next -> place (at_ x i) < place asleep ->
  stepped i x (down put m i next asleep x).
Proof.
  intros Ha Hit Hn Has Hl Hd Hlt Hlt'. unfold down. case_match; (apply go_stepped; auto; intros j; rewrite Ha; auto).
Qed.
Lemma up_stepped i p m x : p <> Done -> woken p = p -> at_ x i <> Loop -> at_ x i <> Done -> place (at_ x i) < place p ->
  stepped i x (up set_mutex m (go i p x)).
Proof.
  intros Hp Hw Hl Hd Hlt. apply (stepped_plain _ _ _ p); try done; [by rewrite up_iter| |].
  - intros j Hj. destruct (up_at set_mutex m (go i p x) j) as [->| ->]; [done|..]; cbn; rewrite upd_ne by done; auto.
  - destruct (up_at set_mutex m (go i p x) i) as [->| ->]; [done|..]; cbn; by rewrite upd_eq.
Qed.

Lemma step_moves i x x' : phi_step i x = Some x' -> stepped i x x'.
Proof.
  unfold phi_step. destruct (at_ x i) eqn:Ea; intros [= <-];
    try (by apply up_stepped; rewrite ?Ea); try (by apply down_stepped; rewrite ?Ea);
    try (by apply go_stepped; rewrite ?Ea; auto); try (apply go_stepped; rewrite ?Ea; try done; [|intros j]; by apply test_moves).
  unfold stepped, counted, progress. rewrite Ea. unfold TIMES.
  destruct (_ <? _) eqn:E; cbn; rewrite !upd_eq; (split_and!; [|lia|cbn; lia]);
    intros j Hj; rewrite !upd_ne by done; auto.
Qed.

Definition seats_ : list Z := [0; 1; 2; 3; 4].
Definition total (x : t) : Z := foldr Z.add 0 (progress x <$> seats_).

Lemma woken_place p : place p <= place (woken p).
Proof. by destruct p; cbn; lia. Qed.

Lemma step_total i x x' : seat i -> (forall j, seat j -> counted x j) -> phi_step i x = Some x' ->
  (forall j, seat j -> counted x' j) /\ total x < total x'.
Proof.
  intros Hi Hc (Hj & Hci & Hlt)%step_moves. split.
  - intros j Hs. destruct (decide (j = i)) as [->|Hji]; [by auto|]. destruct (Hj j Hji) as [Hit Hat]. specialize (Hc j Hs).
    unfold counted in *. rewrite Hit. destruct Hat as [->| ->]; [done|]. by destruct (at_ x j).
  - assert (Hle : forall j, j <> i -> progress x j <= progress x' j).
    { intros j Hji. destruct (Hj j Hji) as [Hit Hat]. unfold progress. rewrite Hit. pose proof (woken_place (at_ x j)).
      destruct Hat as [->| ->]; lia. }
    unfold total, seats_. cbn [foldr fmap list_fmap].
    assert (Hall : forall j, progress x j + (if decide (j = i) then 1 else 0) <= progress x' j).
    { intros j. destruct (decide (j = i)) as [->|Hji]; [lia|]. specialize (Hle j Hji). lia. }
    pose proof (Hall 0). pose proof (Hall 1). pose proof (Hall 2). pose proof (Hall 3). pose proof (Hall 4).
    unfold seat, N in Hi. repeat case_decide; lia.
Qed.

Lemma reach_total n x : reach n x -> (forall j, seat j -> counted x j) /\ 80 + Z.of_nat n <= total x.
Proof.
  induction 1 as [|n x i x' _ [IHc IHt] Hi Hs].
  - split; [|by vm_compute]. intros j _. unfold counted. by vm_compute.
  - destruct (step_total i x x' Hi IHc Hs) as [Hc Ht]. split; [done|lia].
Qed.

Lemma total_bound x : (forall j, seat j -> counted x j) -> total x <= 405.
Proof.
  intros Hc. assert (Hb : forall j, seat j -> progress x j <= 81).
  { intros j Hj. specialize (Hc j Hj). unfold counted, progress, TIMES in *. destruct (at_ x j); cbn; lia. }
  unfold total, seats_, seat, N in *. cbn [foldr fmap list_fmap].
  pose proof (Hb 0). pose proof (Hb 1). pose proof (Hb 2). pose proof (Hb 3). pose proof (Hb 4). lia.
Qed.

(** A table at which nobody can move is one at which everybody is done. *)
Lemma stuck_done x i : inv x -> (forall j, seat j -> phi_step j x = None) -> seat i -> at_ x i = Done.
Proof.
  intros [o Hv] Hstuck Hi.
  assert (Hout : forall j, seat j -> at_ x j = TakeForkW \/ at_ x j = Done).
  { intros j Hj. destruct o as [c|].
    - pose proof (in_seat _ _ _ Hv c eq_refl) as Hc. pose proof (proj2 (in_owner _ _ _ Hv c Hc) eq_refl) as Hin.
      specialize (Hstuck c Hc). unfold phi_step in Hstuck. by destruct (at_ x c).
    - pose proof (in_queue _ _ _ Hv j) as Hq. rewrite (in_free _ _ _ Hv eq_refl) in Hq.
      specialize (Hstuck j Hj). unfold phi_step in Hstuck.
      destruct (at_ x j); try done; auto; pose proof (proj2 Hq (conj Hj eq_refl)) as Hf; by apply elem_of_nil in Hf. }
  destruct (Hout i Hi) as [Hw|]; [|done].
  assert (Ho : o = None).
  { destruct o as [c|]; [|done]. pose proof (in_seat _ _ _ Hv c eq_refl) as Hc.
    pose proof (proj2 (in_owner _ _ _ Hv c Hc) eq_refl) as Hin. by destruct (Hout c Hc) as [Hx|Hx]; rewrite Hx in Hin. }
  subst o. assert (Hne : forall j, seat j -> state_sema x j <> EATING).
  { intros j Hj He. pose proof (in_local _ _ _ Hv j Hj) as Hl. rewrite He in Hl. by destruct (Hout j Hj) as [Hx|Hx]; rewrite Hx in Hl; destruct Hl. }
  pose proof (in_local _ _ _ Hv i Hi) as Hl. rewrite Hw in Hl. destruct Hl as [Hh _].
  destruct (in_hungry _ _ _ Hv i Hi Hh) as [He|[He|[]]];
    [by destruct (Hne _ (left_seat i Hi) He)|by destruct (Hne _ (right_seat i Hi) He)].
Qed.

(** From the return of the [down] on its semaphore to its return to [THINKING]. *)
Definition has_forks (p : pc) : bool := match p with Eat | PutMutex | PutMutexW | PutThink => true | _ => false end.

(** C39: however the five threads of [check_sync] are interleaved, two neighbours
    never have their forks at once; no schedule is longer than 325 statements,
    and one that cannot be continued has every philosopher done after [TIMES]
    rounds: there is neither a deadlock nor a lost wake-up. *)
Theorem dining_correct n x : reach n x ->
  (forall i, seat i -> ~ (has_forks (at_ x i) = true /\ has_forks (at_ x (RIGHT i)) = true)) /\
  (n <= 325)%nat /\
  ((forall i, seat i -> phi_step i x = None) -> forall i, seat i -> at_ x i = Done /\ iter x i = TIMES + 1 /\ state_sema x i = THINKING).
Proof.
  intros Hr. pose proof (dining_inv _ _ Hr) as Hinv. destruct (reach_total _ _ Hr) as [Hc Ht]. pose proof (total_bound x Hc).
  split_and!; [|lia|].
  - intros i Hi [Ha Hb]. destruct Hinv as [o Hv]. apply (in_apart _ _ _ Hv i Hi).
    pose proof (in_local _ _ _ Hv i Hi) as Hl. pose proof (in_local _ _ _ Hv _ (right_seat i Hi)) as Hl'.
    split; [clear Hb Hl'; destruct (at_ x i)|clear Ha Hl; destruct (at_ x (RIGHT i))]; first [discriminate|apply Hl|apply Hl'].
  - intros Hstuck i Hi. pose proof (stuck_done x i Hinv Hstuck Hi) as Hd. destruct Hinv as [o Hv].
    pose proof (in_local _ _ _ Hv i Hi) as Hl. specialize (Hc i Hi). unfold counted in Hc. rewrite Hd in Hl, Hc. by destruct Hl.
Qed.

(** Round robin for [k] turns: a philosopher that cannot move is passed over. *)
Fixpoint play (k : nat) (i : Z) (n : nat) (x : t) : nat * t :=
  match k with
  | O => (n, x)
  | S k => match phi_step i x with Some x' => play k (RIGHT i) (S n) x' | None => play k (RIGHT i) n x end
  end.
Lemma play_reach k : forall i n x, seat i -> reach n x -> reach (play k i n x).1 (play k i n x).2.
Proof.
  induction k as [|k IH]; intros i n x Hi Hr; cbn; [done|]. pose proof (right_seat i Hi).
  destruct (phi_step i x) as [y|] eqn:E; apply IH; [done|exact (reach_step n x i y Hr Hi E)|done|done].
Qed.

(** A thousand turns in order are enough to end the meal. *)
Lemma dining_correct_witness :
  let x := (play 1000 0 0 start).2 in (play 1000 0 0 start).1 = 265%nat /\ (at_ x 3 = Done /\ iter x 3 = TIMES + 1 /\ state_sema x 3 = THINKING).
Proof.
  cbv zeta. split; [vm_compute; reflexivity|].
  apply (dining_correct (play 1000 0 0 start).1).
  - apply play_reach; [done|constructor].
  - intros i Hi. assert (Hc : i = 0 \/ i = 1 \/ i = 2 \/ i = 3 \/ i = 4) by (unfold seat, N in Hi; lia).
    destruct Hc as [->|[->|[->|[->| ->]]]]; vm_compute; reflexivity.
  - done.
Defined.

End Philosophers.
