(* ===== verification/Process.v ===== *)
(** Processes: src/ucore_OS/kern/process/proc.c on the kernel state of [Proc],
    and the hash function of src/ucore_OS/libs/hash.c.  What the functions ask
    of the allocators, of address spaces and of file tables is the interface
    [Resources], so that process management can be read and proved without
    fixing their representation. *)

From S2P Require Import Prelude Proc.

Module Process.
Import Proc.

Definition MAX_PROCESS : Z := 4096.
Definition MAX_PID : Z := MAX_PROCESS * 2.
Definition HASH_SHIFT : Z := 10.
Definition HASH_LIST_SIZE : Z := Z.shiftl 1 HASH_SHIFT.
Definition KSTACKPAGE : Z := 2.
Definition CLONE_VM : Z := 0x100.
Definition CLONE_FS : Z := 0x800.
Definition E_BAD_PROC : Z := 2.
Definition E_INVAL : Z := 3.
Definition E_NO_MEM : Z := 4.
Definition E_NO_FREE_PROC : Z := 5.
Definition E_KILLED : Z := 9.
Definition PROC_NAME_LEN : nat := 50.

Definition GOLDEN_RATIO_PRIME_32 : Z := 0x9e370001.
Definition hash32 (val bits : Z) : Z := Z.shiftr (u32 (val * GOLDEN_RATIO_PRIME_32)) (32 - bits).
Definition pid_hashfn (x : Z) : Z := hash32 (u32 x) HASH_SHIFT.

Arguments hash32 : simpl never.
Arguments pid_hashfn : simpl never.

(** ** Identifiers *)

(** One walk of [get_pid] over the process list from [last] and [safe]; [true]
    when it has to start again. *)
Fixpoint scan_pids (l : list Z) (last safe : Z) : M ks (Z * Z * bool) :=
  match l with
  | [] => mret (last, safe, false)
  | a :: l =>
      p ← load_proc a;
      if pid p =? last then
        if safe <=? last + 1 then
          mret (if MAX_PID <=? last + 1 then 1 else last + 1, MAX_PID, true)
        else scan_pids l (last + 1) safe
      else if (last <? pid p) && (pid p <? safe) then scan_pids l last (pid p)
      else scan_pids l last safe
  end.

(** The walks from the label [repeat] on. *)
Fixpoint repeat_scan (fuel : nat) (last safe : Z) : M ks (Z * Z) :=
  match fuel with
  | O => diverge
  | S fuel =>
      k ← get;
      r ← scan_pids (proc_list (table k)) last safe;
      match r with
      | (last, safe, true) => repeat_scan fuel last safe
      | (last, safe, false) => mret (last, safe)
      end
  end.

Definition set_pids (safe last : Z) : M ks unit := modify (fun k =>
  let t := table k in
  set_table (mk_pt (proc_list t) (hash_list t) (nr_process t) safe last) k).

Definition get_pid : M ks Z :=
  k ← get;
  let last := last_pid (table k) + 1 in
  let fuel := Z.to_nat MAX_PID in
  r ← if MAX_PID <=? last then repeat_scan fuel 1 MAX_PID
      else if next_safe (table k) <=? last then repeat_scan fuel last MAX_PID
      else mret (last, next_safe (table k));
  set_pids r.2 r.1;;
  mret r.1.

(** ** The process lists *)

Definition empty_hash : list (list Z) := repeat [] (Z.to_nat HASH_LIST_SIZE).
Arguments empty_hash : simpl never.
Definition bucket (h : list (list Z)) (i : Z) : list Z := default [] (h !! Z.to_nat i).

(** [list_add] puts the entry right after the head. *)
Definition hash_proc (a : Z) : M ks unit :=
  p ← load_proc a;
  let i := pid_hashfn (pid p) in
  modify (fun k => let t := table k in
    set_table (mk_pt (proc_list t) (<[Z.to_nat i := a :: bucket (hash_list t) i]> (hash_list t))
                     (nr_process t) (next_safe t) (last_pid t)) k).

(** [list_del] unlinks the entry from the list that holds it. *)
Definition unhash_proc (a : Z) : M ks unit :=
  modify (fun k => let t := table k in
    set_table (mk_pt (proc_list t) (remove a <$> hash_list t)
                     (nr_process t) (next_safe t) (last_pid t)) k).

Fixpoint find_loop (l : list Z) (i : Z) : M ks Z :=
  match l with
  | [] => mret NULL
  | a :: l => p ← load_proc a; if pid p =? i then mret a else find_loop l i
  end.

Definition find_proc (i : Z) : M ks Z :=
  if (0 <? i) && (i <? MAX_PID) then
    k ← get; find_loop (bucket (hash_list (table k)) (pid_hashfn i)) i
  else mret NULL.

Definition on_table (f : list Z -> list Z) (d : Z) : M ks unit := modify (fun k =>
  let t := table k in
  set_table (mk_pt (f (proc_list t)) (hash_list t) (nr_process t + d) (next_safe t) (last_pid t)) k).

Definition set_links (a : Z) : M ks unit :=
  on_table (fun l => a :: l) 0;;
  update_proc a (with_yptr NULL);;
  p ← load_proc a;
  q ← load_proc (parent p);
  update_proc a (with_optr (cptr q));;
  when (negb (cptr q =? NULL)) (update_proc (cptr q) (with_yptr a));;
  update_proc (parent p) (with_cptr a);;
  on_table (fun l => l) 1.

Definition remove_links (a : Z) : M ks unit :=
  on_table (remove a) 0;;
  p ← load_proc a;
  when (negb (optr p =? NULL)) (update_proc (optr p) (with_yptr (yptr p)));;
  (if negb (yptr p =? NULL) then update_proc (yptr p) (with_optr (optr p))
   else update_proc (parent p) (with_cptr (optr p)));;
  on_table (fun l => l) (-1).

(** The last steps of [do_fork], from the identifier on. *)
Definition enter_process (a : Z) : M ks Z :=
  i ← get_pid;
  update_proc a (with_pid i);;
  hash_proc a;;
  set_links a;;
  wakeup_proc a;;
  p ← load_proc a;
  mret (pid p).

(** [memcpy] of the whole buffer: [nm] is the 50 bytes at the source. *)
Definition set_proc_name (a : Z) (nm : list Z) : M ks unit :=
  update_proc a (with_name (take PROC_NAME_LEN nm ++ [0])).

Definition get_proc_name (a : Z) : M ks (list Z) :=
  p ← load_proc a; mret (take PROC_NAME_LEN (name p) ++ [0]).

Definition do_yield : M ks Z :=
  k ← get; update_proc (current k) (with_need_resched true);; mret 0.

Definition lab6_set_priority (v : Z) : M ks unit :=
  k ← get; update_proc (current k) (with_priority (if v =? 0 then 1 else v)).

Definition do_kill (i : Z) : M ks Z :=
  a ← find_proc i;
  if negb (a =? NULL) then
    p ← load_proc a;
    if Z.land (flags p) PF_EXITING =? 0 then
      update_proc a (with_flags (Z.lor (flags p) PF_EXITING));;
      when (negb (Z.land (wait_state p) WT_INTERRUPTED =? 0)) (wakeup_proc a);;
      mret 0
    else mret (- E_KILLED)
  else mret (- E_INVAL).

(** [do_sleep] up to and with [schedule] ([t] is the timer on its stack), and
    after it. *)
Definition do_sleep_begin (t time : Z) : M ks (option Z) :=
  if time =? 0 then mret (Some 0) else
  k ← get;
  modify (fun k => set_timers (<[t := mk_timer (u32 time) (current k)]> (timers k)) (timer_list k) k);;
  update_proc (current k) (with_state PROC_SLEEPING);;
  update_proc (current k) (with_wait_state WT_TIMER);;
  add_timer t;;
  schedule;;
  mret None.

Definition do_sleep_end (t : Z) : M ks Z := del_timer t;; mret 0.

Definition cpu_idle_step : M ks unit :=
  k ← get; p ← load_proc (current k); when (need_resched p) schedule.

(** One child goes to the front of the children of [initproc]. *)
Definition adopt (a : Z) : M ks unit :=
  k ← get;
  p ← load_proc a;
  update_proc (current k) (with_cptr (optr p));;
  update_proc a (with_yptr NULL);;
  i ← load_proc (initproc k);
  update_proc a (with_optr (cptr i));;
  when (negb (cptr i =? NULL)) (update_proc (cptr i) (with_yptr a));;
  update_proc a (with_parent (initproc k));;
  update_proc (initproc k) (with_cptr a).

(** [initproc] is told of a child that is already a zombie. *)
Definition notify_init (a : Z) : M ks unit :=
  k ← get;
  p ← load_proc a;
  when (bool_decide (state p = PROC_ZOMBIE))
    (i ← load_proc (initproc k);
     when (wait_state i =? WT_CHILD) (wakeup_proc (initproc k))).

(** The loop that gives the children to [initproc]; it takes one child off the
    list each time, so that the number of processes is fuel enough. *)
Fixpoint reparent (fuel : nat) : M ks unit :=
  match fuel with
  | O => diverge
  | S fuel =>
      k ← get;
      c ← load_proc (current k);
      if cptr c =? NULL then mret tt else
      adopt (cptr c);;
      notify_init (cptr c);;
      reparent fuel
  end.

(** The end of [do_exit] of the current process of [k0], a child of [par]: the
    process is a zombie from here on.  The [panic] after [schedule] would need
    it to be scheduled again. *)
Definition leave (error_code : Z) (k0 : ks) (par : Z) : M ks unit :=
  update_proc (current k0) (with_state PROC_ZOMBIE);;
  update_proc (current k0) (with_exit_code error_code);;
  p ← load_proc par;
  when (wait_state p =? WT_CHILD) (wakeup_proc par);;
  reparent (S (size (procs k0)));;
  schedule.

(** ** The other components *)

(** What process management calls: the allocators, the address spaces, the
    file tables, and the memory of the current process.  [NULL] and a nonzero
    status are their failures. *)
Class Resources (R : Type) := {
  kmalloc_proc : M R Z;                      (* kmalloc(sizeof(struct proc_struct)) *)
  kfree_proc : Z -> M R unit;
  alloc_pages : Z -> M R Z;
  free_pages : Z -> Z -> M R unit;
  page2kva : Z -> Z;
  kva2page : Z -> Z;
  mm_create : M R Z;
  mm_destroy : Z -> M R unit;
  setup_pgdir : Z -> M R Z;
  put_pgdir : Z -> M R unit;
  mm_pgdir : Z -> M R Z;
  lock_mm : Z -> M R unit;
  unlock_mm : Z -> M R unit;
  dup_mmap : Z -> Z -> M R Z;
  exit_mmap : Z -> M R unit;
  mm_count_inc : Z -> M R unit;
  mm_count_dec : Z -> M R Z;
  files_create : M R Z;
  files_destroy : Z -> M R unit;
  files_count_inc : Z -> M R unit;
  files_count_dec : Z -> M R Z;
  dup_files : Z -> Z -> M R Z;
  user_mem_check : Z -> Z -> Z -> bool -> M R bool;
  store_int : Z -> Z -> M R unit             (* a store through a user pointer *)
}.

(** The addresses the linker gives. *)
Record symbols := mk_symbols {
  boot_pgdir : Z; bootstack : Z; forkret : Z; kernel_thread_entry : Z; init_main : Z; gp : Z
}.

Record sys (R : Type) := mk_sys { kst : ks; rst : R }.
Arguments mk_sys {R} _ _.
Arguments kst {R} _.
Arguments rst {R} _.

Section Process.
  Context {R : Type} `{Resources R} (sy : symbols).

Definition inK {A} (m : M ks A) : M (sys R) A := fun s =>
  match m (kst s) with
  | Ret (a, k) => Ret (a, mk_sys k (rst s))
  | Panic => Panic | Fault => Fault | Diverge => Diverge
  end.
Definition inR {A} (m : M R A) : M (sys R) A := fun s =>
  match m (rst s) with
  | Ret (a, r) => Ret (a, mk_sys (kst s) r)
  | Panic => Panic | Fault => Fault | Diverge => Diverge
  end.

(** ** Creation *)

Definition alloc_proc : M (sys R) Z :=
  a ← inR kmalloc_proc;
  when (negb (a =? NULL))
    (f ← inR files_create;
     inK (modify (fun k => set_procs (<[a :=
       mk_proc PROC_UNINIT 0 0 0 false NULL NULL (0, 0) NULL (boot_pgdir sy) 0
         (repeat 0 51) 0 0 NULL NULL NULL 0 0 f]> (procs k)) k)));;
  mret a.

Definition setup_kstack (a : Z) : M (sys R) Z :=
  pg ← inR (alloc_pages KSTACKPAGE);
  if negb (pg =? NULL) then inK (update_proc a (with_kstack (page2kva pg)));; mret 0
  else mret (- E_NO_MEM).

Definition put_kstack (a : Z) : M (sys R) unit :=
  p ← inK (load_proc a); inR (free_pages (kva2page (kstack p)) KSTACKPAGE).

Definition good_mm (a m : Z) : M (sys R) Z :=
  inR (mm_count_inc m);;
  inK (update_proc a (with_mm m));;
  g ← inR (mm_pgdir m);
  inK (update_proc a (with_pgdir g));;
  mret 0.

Definition copy_mm (clone_flags a : Z) : M (sys R) Z :=
  s ← get;
  cur ← inK (load_proc (current (kst s)));
  if mm cur =? NULL then mret 0
  else if negb (Z.land clone_flags CLONE_VM =? 0) then good_mm a (mm cur)
  else
    m ← inR mm_create;
    if m =? NULL then mret (- E_NO_MEM) else
    r ← inR (setup_pgdir m);
    if negb (r =? 0) then inR (mm_destroy m);; mret (- E_NO_MEM) else
    inR (lock_mm (mm cur));;
    r ← inR (dup_mmap m (mm cur));
    inR (unlock_mm (mm cur));;
    if negb (r =? 0) then
      inR (exit_mmap m);; inR (put_pgdir m);; inR (mm_destroy m);; mret r
    else good_mm a m.

Definition sizeof_trapframe : Z := 38 * 4.
Definition reg_v0 : nat := 2.
Definition reg_a0 : nat := 4.
Definition reg_a1 : nat := 5.
Definition reg_gp : nat := 28.
Definition reg_sp : nat := 29.

(** The frame the child returns through. *)
Definition child_frame (esp : Z) (t : trapframe) : trapframe :=
  mk_tf (<[reg_sp := esp]> (<[reg_v0 := 0]> (tf_regs t))) (Z.lor (tf_Status t) 0x3)
    (tf_Cause t) (tf_EPC t) (tf_BadVAddr t) (tf_LO t) (tf_HI t).

Definition copy_thread (a esp : Z) (t : trapframe) : M (sys R) unit := inK (
  p ← load_proc a;
  let f := u32 (kstack p + KSTACKSIZE - sizeof_trapframe) in
  update_proc a (with_tf f);;
  modify (fun k => set_frames (<[f := child_frame esp t]> (frames k)) k);;
  update_proc a (with_context (forkret sy, f))).

Definition copy_files (clone_flags a : Z) : M (sys R) Z :=
  s ← get;
  cur ← inK (load_proc (current (kst s)));
  assert_ (negb (filesp cur =? NULL));;
  let good f := inR (files_count_inc f);; inK (update_proc a (with_filesp f));; mret 0 in
  if negb (Z.land clone_flags CLONE_FS =? 0) then good (filesp cur)
  else
    f ← inR files_create;
    if f =? NULL then mret (- E_NO_MEM) else
    r ← inR (dup_files f (filesp cur));
    if negb (r =? 0) then inR (files_destroy f);; mret r
    else good f.

Definition put_files (a : Z) : M (sys R) unit :=
  p ← inK (load_proc a);
  when (negb (filesp p =? NULL))
    (n ← inR (files_count_dec (filesp p));
     when (n =? 0) (inR (files_destroy (filesp p)))).

(** [kfree(proc)]: the descriptor is gone. *)
Definition free_proc (a : Z) : M (sys R) unit :=
  inK (modify (fun k => set_procs (delete a (procs k)) k));; inR (kfree_proc a).

Definition do_fork (clone_flags stack : Z) (t : trapframe) : M (sys R) Z :=
  s ← get;
  let k := kst s in
  if MAX_PROCESS <=? nr_process (table k) then mret (- E_NO_FREE_PROC) else
  a ← alloc_proc;
  cur ← inK (load_proc (current k));
  assert_ (wait_state cur =? 0);;
  inK (update_proc a (with_parent (current k)));;
  r ← setup_kstack a;
  if negb (r =? 0) then free_proc a;; mret (- E_NO_MEM) else
  r ← copy_mm clone_flags a;
  if negb (r =? 0) then put_kstack a;; free_proc a;; mret (- E_NO_MEM) else
  r ← copy_files clone_flags a;
  if negb (r =? 0) then put_files a;; put_kstack a;; free_proc a;; mret (- E_NO_MEM) else
  copy_thread a stack t;;
  inK (enter_process a).

Definition kernel_thread (fn arg clone_flags : Z) : M (sys R) Z :=
  do_fork (Z.lor clone_flags CLONE_VM) 0
    (mk_tf (<[reg_gp := gp sy]> (<[reg_a0 := arg]> (<[reg_a1 := fn]> (repeat 0 32))))
       0 0 (kernel_thread_entry sy) 0 0 0).

(** ** Exit *)

Definition do_exit (error_code : Z) : M (sys R) unit :=
  s ← get;
  let k := kst s in
  assert_ (negb (current k =? idleproc k));;
  assert_ (negb (current k =? initproc k));;
  c ← inK (load_proc (current k));
  when (negb (mm c =? NULL))
    (inK (modify (set_loaded (boot_pgdir sy)));;
     n ← inR (mm_count_dec (mm c));
     when (n =? 0) (inR (exit_mmap (mm c));; inR (put_pgdir (mm c));; inR (mm_destroy (mm c)));;
     inK (update_proc (current k) (with_mm NULL)));;
  put_files (current k);;
  inK (leave error_code k (parent c)).

(** ** Wait *)

(** The walk over the children: a zombie, or whether there was any. *)
Fixpoint find_zombie (fuel : nat) (a : Z) (haskid : bool) : M ks (option Z * bool) :=
  match fuel with
  | O => diverge
  | S fuel =>
      if a =? NULL then mret (None, haskid) else
      p ← load_proc a;
      if bool_decide (state p = PROC_ZOMBIE) then mret (Some a, true)
      else find_zombie fuel (optr p) true
  end.

(** What the wait is for: the zombie found, or whether a child may become one. *)
Definition look_for_child (i : Z) : M ks (option Z * bool) :=
  k ← get;
  if negb (i =? 0) then
    a ← find_proc i;
    if a =? NULL then mret (None, false) else
    p ← load_proc a;
    if parent p =? current k then
      mret (if bool_decide (state p = PROC_ZOMBIE) then (Some a, true) else (None, true))
    else mret (None, false)
  else
    c ← load_proc (current k);
    find_zombie (S (size (procs k))) (cptr c) false.

(** The label [found]. *)
Definition reap (a code_store : Z) : M (sys R) Z :=
  s ← get;
  assert_ (negb ((a =? idleproc (kst s)) || (a =? initproc (kst s))));;
  p ← inK (load_proc a);
  when (negb (code_store =? NULL)) (inR (store_int code_store (exit_code p)));;
  inK (unhash_proc a);;
  inK (remove_links a);;
  put_kstack a;;
  free_proc a;;
  mret 0.

(** From the label [repeat] to the return ([Some]) or to the [schedule] that
    suspends the process ([None]). *)
Definition do_wait_pass (i code_store : Z) : M (sys R) (option Z) :=
  r ← inK (look_for_child i);
  match r with
  | (Some a, _) => v ← reap a code_store; mret (Some v)
  | (None, true) =>
      s ← get;
      inK (update_proc (current (kst s)) (with_state PROC_SLEEPING));;
      inK (update_proc (current (kst s)) (with_wait_state WT_CHILD));;
      inK schedule;;
      mret None
  | (None, false) => mret (Some (- E_BAD_PROC))
  end.

Definition do_wait (i code_store : Z) : M (sys R) (option Z) :=
  s ← get;
  c ← inK (load_proc (current (kst s)));
  ok ← if negb (code_store =? NULL) then inR (user_mem_check (mm c) code_store 4 true) else mret true;
  if negb ok then mret (Some (- E_INVAL)) else do_wait_pass i code_store.

(** After that [schedule]. *)
Definition do_wait_resume (i code_store : Z) : M (sys R) (option Z) :=
  s ← get;
  c ← inK (load_proc (current (kst s)));
  if negb (Z.land (flags c) PF_EXITING =? 0) then do_exit (- E_KILLED);; mret None
  else do_wait_pass i code_store.

(** ** Start *)

Definition idle_name : list Z := [105; 100; 108; 101] ++ repeat 0 46.
Definition init_name : list Z := [105; 110; 105; 116] ++ repeat 0 46.

Definition proc_init : M (sys R) unit :=
  inK (modify (fun k => let t := table k in
    set_table (mk_pt [] empty_hash (nr_process t) (next_safe t) (last_pid t)) k));;
  a ← alloc_proc;
  inK (modify (set_idleproc a));;
  assert_ (negb (a =? NULL));;
  inK (update_proc a (with_pid 0));;
  inK (update_proc a (with_state PROC_RUNNABLE));;
  inK (update_proc a (with_kstack (bootstack sy)));;
  inK (update_proc a (with_need_resched true));;
  f ← inR files_create;
  inK (update_proc a (with_filesp f));;
  assert_ (negb (f =? NULL));;
  inR (files_count_inc f);;
  inK (set_proc_name a idle_name);;
  inK (on_table (fun l => l) 1);;
  inK (modify (set_current a));;
  i ← kernel_thread (init_main sy) NULL 0;
  assert_ (0 <? i);;
  b ← inK (find_proc i);
  inK (modify (set_initproc b));;
  inK (set_proc_name b init_name);;
  p ← inK (load_proc a);
  assert_ (pid p =? 0);;
  q ← inK (load_proc b);
  assert_ (pid q =? 1).

End Process.
End Process.
