(* ===== verification/Family.v ===== *)
(** The family tree of the process descriptors: for each process the ring-free
    list of its children through [cptr], [optr] and [yptr]
    (src/ucore_OS/kern/process/proc.c, set_links, remove_links and the loop of
    do_exit).  The lemmas here are about the four link fields alone. *)

From S2P Require Import Prelude Proc.

Module Family.
Import Proc.

(** The link fields of a descriptor. *)
Record links := mk_links { l_parent : Z; l_cptr : Z; l_yptr : Z; l_optr : Z }.
Definition link (p : proc) : links := mk_links (parent p) (cptr p) (yptr p) (optr p).

Definition l_set_parent v l := mk_links v (l_cptr l) (l_yptr l) (l_optr l).
Definition l_set_cptr v l := mk_links (l_parent l) v (l_yptr l) (l_optr l).
Definition l_set_yptr v l := mk_links (l_parent l) (l_cptr l) v (l_optr l).
Definition l_set_optr v l := mk_links (l_parent l) (l_cptr l) (l_yptr l) v.

Abbreviation lmap := (gmap Z links).

(** [l] are consecutive siblings of parent [par], the first with [y] as its
    younger sibling and the last with [o] as its older one. *)
Fixpoint sibs (m : lmap) (par y : Z) (l : list Z) (o : Z) : Prop :=
  match l with
  | [] => True
  | c :: l =>
      (exists x, m !! c = Some x /\ l_parent x = par /\ l_yptr x = y /\ l_optr x = hd o l) /\
      sibs m par c l o
  end.

(** [l] are the children of [par], youngest first. *)
Definition family (m : lmap) (par : Z) (l : list Z) : Prop :=
  (exists x, m !! par = Some x /\ l_cptr x = hd NULL l) /\
  sibs m par NULL l NULL /\ NoDup l /\ NULL ∉ l /\ par ∉ l.

Lemma sibs_ext m m' par y l o :
  (forall c, c ∈ l -> m' !! c = m !! c) -> sibs m par y l o -> sibs m' par y l o.
Proof.
  revert y. induction l as [|c l IH]; intros y He; [done|]. intros [(x & Hx & Hr) Hs].
  split; [exists x; rewrite He by set_solver; done|]. apply IH; [|done].
  intros d Hd. apply He. set_solver.
Qed.

(** Changes of [cptr] do not matter to the siblings. *)
Lemma sibs_alter_cptr m par y l o a v :
  sibs m par y l o -> sibs (alter (l_set_cptr v) a m) par y l o.
Proof.
  revert y. induction l as [|c l IH]; intros y; [done|]. intros [(x & Hx & Hr) Hs].
  split; [|by apply IH]. destruct (decide (c = a)) as [->|].
  - exists (l_set_cptr v x). by rewrite lookup_alter_eq, Hx.
  - exists x. by rewrite lookup_alter_ne.
Qed.

Lemma sibs_alter_ne m par y l o a f : a ∉ l -> sibs m par y l o -> sibs (alter f a m) par y l o.
Proof. intros Ha. apply sibs_ext. intros c Hc. apply lookup_alter_ne. set_solver. Qed.

Lemma sibs_elem m par y l o c :
  sibs m par y l o -> c ∈ l -> exists x, m !! c = Some x /\ l_parent x = par.
Proof.
  revert y. induction l as [|d l IH]; intros y; [set_solver|]. intros [(x & Hx & Hp & _) Hs].
  intros [->|Hc]%elem_of_cons; [by exists x|by eapply IH].
Qed.

Lemma last_hd (y c : Z) l : List.last (c :: l) y = List.last l c.
Proof. revert c. induction l as [|d l IH]; intros c; [done|]. simpl in *. destruct l; [done|apply IH]. Qed.

Lemma sibs_app m par y l1 l2 o :
  sibs m par y (l1 ++ l2) o <-> sibs m par y l1 (hd o l2) /\ sibs m par (List.last l1 y) l2 o.
Proof.
  revert y. induction l1 as [|c l1 IH]; intros y; [simpl; naive_solver|].
  rewrite last_hd. cbn [app sibs]. rewrite IH. destruct l1; simpl; naive_solver.
Qed.

(** A new first sibling: the former first one gets it as its younger one. *)
Lemma sibs_cons m par y y' l o :
  sibs m par y l o -> NoDup l ->
  sibs (match l with [] => m | c :: _ => alter (l_set_yptr y') c m end) par y' l o.
Proof.
  destruct l as [|c l]; [done|]. intros [(x & Hx & Hp & Hy & Ho) Hs] [Hc _]%NoDup_cons. split.
  - exists (l_set_yptr y' x). by rewrite lookup_alter_eq, Hx.
  - by apply sibs_alter_ne.
Qed.

(** The last sibling gets another older one. *)
Lemma sibs_snoc m par y l b o o' :
  sibs m par y (l ++ [b]) o -> NoDup (l ++ [b]) ->
  sibs (alter (l_set_optr o') b m) par y (l ++ [b]) o'.
Proof.
  intros Hs Hn. apply sibs_app in Hs as [H1 [(x & Hx & Hp & Hy & Ho) _]].
  apply NoDup_app in Hn as (_ & Hb & _). apply sibs_app. split.
  - apply sibs_alter_ne; [set_solver|]. done.
  - split; [|done]. exists (l_set_optr o' x). by rewrite lookup_alter_eq, Hx.
Qed.

(** The lists of children of several processes; [ps] are the processes. *)
Definition tree (m : lmap) (ps : list Z) (fam : Z -> list Z) : Prop :=
  (forall p, p ∈ ps -> family m p (fam p)) /\
  (forall p c, p ∈ ps -> c ∈ fam p -> c ∈ ps).

Lemma family_cptr m p l : family m p l -> exists x, m !! p = Some x /\ l_cptr x = hd NULL l.
Proof. by intros [? _]. Qed.

Lemma family_ext m m' p l :
  (forall c, c ∈ p :: l -> m' !! c = m !! c) -> family m p l -> family m' p l.
Proof.
  intros He ((x & Hx & Hc) & Hs & Hr). split; [exists x; rewrite He by set_solver; done|].
  split; [|done]. apply (sibs_ext m); [|done]. intros c Hc'. apply He. set_solver.
Qed.

Lemma tree_dom m ps fam p : tree m ps fam -> p ∈ ps -> is_Some (m !! p).
Proof. intros [Hf _] Hp. destruct (Hf p Hp) as [(x & Hx & _) _]. eauto. Qed.

(** A child has one parent. *)
Lemma family_disjoint m p q l l' c : family m p l -> family m q l' -> c ∈ l -> c ∈ l' -> p = q.
Proof.
  intros (_ & Hs & _) (_ & Hs' & _) Hc Hc'.
  destruct (sibs_elem _ _ _ _ _ _ Hs Hc) as (x & Hx & Hp).
  destruct (sibs_elem _ _ _ _ _ _ Hs' Hc') as (x' & Hx' & Hp'). congruence.
Qed.

(** *** set_links *)

(** The links after [set_links a] below [par], whose children were [l]. *)
Definition linked (m : lmap) (par a : Z) (l : list Z) : lmap :=
  alter (l_set_cptr a) par
    (match l with [] => fun m => m | c :: _ => alter (l_set_yptr a) c end
       (alter (l_set_optr (hd NULL l)) a (alter (l_set_yptr NULL) a m))).

Lemma linked_family m par a l x :
  family m par l -> m !! a = Some x -> l_parent x = par -> a <> NULL -> a <> par -> a ∉ l ->
  family (linked m par a l) par (a :: l).
Proof.
  intros ((xp & Hxp & Hc) & Hs & Hnd & Hnl & Hpl) Ha Hpa Ha0 Hap Hal. unfold linked. split_and!.
  - exists (l_set_cptr a xp). rewrite lookup_alter_eq. split; [|done].
    destruct l as [|c l]; rewrite ?lookup_alter_ne by set_solver; by rewrite Hxp.
  - apply sibs_alter_cptr. split.
    + exists (l_set_optr (hd NULL l) (l_set_yptr NULL x)). split; [|done].
      destruct l as [|c l]; rewrite ?(lookup_alter_ne (l_set_yptr a)) by set_solver;
        by rewrite !lookup_alter_eq, Ha.
    + pose proof (sibs_cons (alter (l_set_optr (hd NULL l)) a (alter (l_set_yptr NULL) a m))
        par NULL a l NULL) as Hseg.
      destruct l as [|c l]; apply Hseg; try done; by do 2 (apply sibs_alter_ne; [done|]).
  - by constructor.
  - rewrite elem_of_cons. naive_solver.
  - rewrite elem_of_cons. naive_solver.
Qed.

(** Changing another link than [cptr] of an entry outside a family. *)
Definition keeps_cptr (f : links -> links) : Prop := forall x, l_cptr (f x) = l_cptr x.

Lemma family_alter m p l c f : c ∉ l -> keeps_cptr f -> family m p l -> family (alter f c m) p l.
Proof.
  intros Hc Hf ((x & Hx & Hcx) & Hs & Hr). split; [|split; [by apply sibs_alter_ne|done]].
  destruct (decide (p = c)) as [->|].
  - exists (f x). by rewrite lookup_alter_eq, Hx, Hf.
  - exists x. by rewrite lookup_alter_ne.
Qed.

Lemma family_alter_cptr m p l c v : c <> p -> family m p l -> family (alter (l_set_cptr v) c m) p l.
Proof.
  intros Hc ((x & Hx & Hcx) & Hs & Hr). split; [|split; [by apply sibs_alter_cptr|done]].
  exists x. by rewrite lookup_alter_ne.
Qed.

Lemma linked_other m par a l q lq :
  family m par l -> family m q lq -> q <> par -> a ∉ lq -> family (linked m par a l) q lq.
Proof.
  intros Hfp Hfq Hq Hal.
  assert (Hdis : forall c, c ∈ l -> c ∉ lq) by (intros c Hc Hc'; by destruct (family_disjoint _ _ _ _ _ c Hfp Hfq Hc Hc')).
  unfold linked. apply family_alter_cptr; [done|].
  destruct l as [|c l]; [|apply family_alter; [apply Hdis; set_solver|done|]];
    by do 2 (apply family_alter; [done|done|]).
Qed.

(** The tree with the new child [a] of [par]. *)
Definition add_child (fam : Z -> list Z) (par a : Z) : Z -> list Z := fun x =>
  if decide (x = par) then a :: fam par else if decide (x = a) then [] else fam x.

Lemma linked_tree m ps fam par a :
  tree m ps fam -> par ∈ ps -> a ∉ ps -> a <> NULL ->
  tree (linked (<[a := mk_links par NULL NULL NULL]> m) par a (fam par)) (a :: ps) (add_child fam par a).
Proof.
  intros [Hf Hc] Hp Ha H0. set (m1 := <[a := _]> m).
  assert (Hfa : forall p, p ∈ ps -> a ∉ fam p) by (intros p Hps Hin; by apply Ha, (Hc p)).
  assert (Hf1 : forall p, p ∈ ps -> family m1 p (fam p)).
  { intros p Hps. apply (family_ext m); [|by apply Hf]. intros c [->|Hin]%elem_of_cons;
      unfold m1; rewrite lookup_insert_ne; try done; [congruence|]. intros ->. by eapply Hfa. }
  assert (Hap : a <> par) by congruence.
  assert (Hpa : m1 !! a = Some (mk_links par NULL NULL NULL)) by apply lookup_insert_eq.
  split.
  - intros p Hps. unfold add_child. case_decide as Hpp; [subst p|].
    { eapply linked_family; [by apply Hf1|done|done|done|done|by apply Hfa]. }
    case_decide as Hpa'; [subst p|].
    + split; [|split_and!; [done|constructor|set_solver|set_solver]].
      exists (mk_links par NULL NULL (hd NULL (fam par))). split; [|done].
      unfold linked. rewrite lookup_alter_ne by done.
      assert (Hin : a ∉ fam par) by by apply Hfa.
      destruct (fam par) as [|c l]; rewrite ?(lookup_alter_ne (l_set_yptr a)) by set_solver;
        by rewrite !lookup_alter_eq, Hpa.
    + assert (p ∈ ps) by set_solver.
      eapply linked_other; [by apply Hf1|by apply Hf1|done|by apply Hfa].
  - intros p c Hps. unfold add_child. repeat case_decide; [|set_solver|].
    + intros [->|Hin]%elem_of_cons; [set_solver|]. apply elem_of_cons. right. by apply (Hc par).
    + intros Hin. apply elem_of_cons. right. apply (Hc p); [set_solver|done].
Qed.

(** *** remove_links *)

Definition unlinked (m : lmap) (par : Z) (l1 : list Z) (a : Z) (l2 : list Z) : lmap :=
  let m1 := match l2 with [] => m | c :: _ => alter (l_set_yptr (List.last l1 NULL)) c m end in
  match l1 with
  | [] => alter (l_set_cptr (hd NULL l2)) par m1
  | _ => alter (l_set_optr (hd NULL l2)) (List.last l1 NULL) m1
  end.

Lemma last_snoc_ne (y : Z) l : l <> [] -> exists l' b, l = l' ++ [b] /\ List.last l y = b.
Proof. intros Hl. destruct (exists_last Hl) as (l' & b & ->). exists l', b. split; [done|apply last_last]. Qed.

Lemma unlinked_family m par l1 a l2 :
  family m par (l1 ++ a :: l2) -> family (unlinked m par l1 a l2) par (l1 ++ l2).
Proof.
  intros ((xp & Hxp & Hc) & Hs & Hnd & Hnl & Hpl). apply sibs_app in Hs as [H1 [_ H2]].
  assert (Hnd' := Hnd). apply NoDup_app in Hnd as (Hn1 & Hd & [Ha Hn2]%NoDup_cons). unfold unlinked.
  assert (Hrest : NoDup (l1 ++ l2) /\ NULL ∉ l1 ++ l2 /\ par ∉ l1 ++ l2).
  { split_and!; [|set_solver|set_solver]. apply NoDup_app. split_and!; [done|set_solver|done]. }
  set (m1 := match l2 with [] => m | _ => _ end).
  assert (H2' : sibs m1 par (List.last l1 NULL) l2 NULL).
  { pose proof (sibs_cons m par a (List.last l1 NULL) l2 NULL H2 Hn2) as Hq. by destruct l2. }
  assert (H1' : sibs m1 par NULL l1 a).
  { unfold m1. destruct l2 as [|c l2]; [done|]. apply sibs_alter_ne; [set_solver|done]. }
  assert (Hxp1 : m1 !! par = Some xp).
  { unfold m1. destruct l2 as [|c l2]; [done|]. rewrite lookup_alter_ne; [done|set_solver]. }
  destruct (decide (l1 = [])) as [->|Hl1].
  - split; [|split; [by apply sibs_alter_cptr|done]].
    exists (l_set_cptr (hd NULL l2) xp). by rewrite lookup_alter_eq, Hxp1.
  - destruct (last_snoc_ne NULL l1 Hl1) as (l' & b & -> & Hb). rewrite Hb in *.
    replace (match l' ++ [b] with [] => _ | _ => alter (l_set_optr (hd NULL l2)) b m1 end)
      with (alter (l_set_optr (hd NULL l2)) b m1) by (by destruct l').
    split; [|split; [|done]].
    + exists xp. rewrite lookup_alter_ne by set_solver. split; [done|]. rewrite Hc. by destruct l'.
    + apply sibs_app. split; [by apply (sibs_snoc m1 par NULL l' b a)|]. rewrite Hb.
      apply sibs_alter_ne; [set_solver|done].
Qed.

Lemma unlinked_other m par l1 a l2 q lq :
  family m par (l1 ++ a :: l2) -> family m q lq -> q <> par ->
  family (unlinked m par l1 a l2) q lq.
Proof.
  intros Hfp Hfq Hq.
  assert (Hdis : forall c, c ∈ l1 ++ a :: l2 -> c ∉ lq)
    by (intros c Hc Hc'; by destruct (family_disjoint _ _ _ _ _ c Hfp Hfq Hc Hc')).
  unfold unlinked. set (m1 := match l2 with [] => m | _ => _ end).
  assert (Hm1 : family m1 q lq).
  { unfold m1. destruct l2 as [|c l2]; [done|]. apply family_alter; [apply Hdis; set_solver|done|done]. }
  destruct (decide (l1 = [])) as [->|Hl1]; [by apply family_alter_cptr|].
  destruct (last_snoc_ne NULL l1 Hl1) as (l' & b & Hl' & Hb).
  assert (Hin : List.last l1 NULL ∈ l1 ++ a :: l2) by (rewrite Hb, Hl'; set_solver).
  destruct l1; [done|]. apply family_alter; [by apply Hdis|done|done].
Qed.

(** *** The loop of do_exit *)

(** The children that the exiting process still has: the first may keep a stale
    younger sibling, since the loop clears it only when its turn comes. *)
Definition orphans (m : lmap) (cur : Z) (l : list Z) : Prop :=
  (exists x, m !! cur = Some x /\ l_cptr x = hd NULL l) /\
  (exists y, sibs m cur y l NULL) /\ NoDup l /\ NULL ∉ l /\ cur ∉ l.

(** One child [c] goes to the front of the children [li] of [ini]. *)
Definition adopted (m : lmap) (cur ini c : Z) (rest li : list Z) : lmap :=
  alter (l_set_cptr c) ini (alter (l_set_parent ini) c
    (match li with [] => fun m => m | d :: _ => alter (l_set_yptr c) d end
      (alter (l_set_optr (hd NULL li)) c (alter (l_set_yptr NULL) c
        (alter (l_set_cptr (hd NULL rest)) cur m))))).

Lemma adopted_linked m cur ini c rest li :
  c <> cur -> c <> ini -> c ∉ li ->
  adopted m cur ini c rest li =
  linked (alter (l_set_parent ini) c (alter (l_set_cptr (hd NULL rest)) cur m)) ini c li.
Proof.
  intros H1 H2 H3. unfold adopted, linked. f_equal.
  set (m0 := alter (l_set_cptr _) cur m).
  assert (Hc : forall f g (n : lmap), (forall x, f (g x) = g (f x)) -> alter f c (alter g c n) = alter g c (alter f c n)).
  { intros f g n Hfg. apply map_eq. intros b.
    destruct (decide (b = c)) as [->|]; [|by rewrite !lookup_alter_ne].
    rewrite !lookup_alter_eq. destruct (n !! c); simpl; [by rewrite Hfg|done]. }
  assert (Hn : forall f g d (n : lmap), d <> c -> alter f c (alter g d n) = alter g d (alter f c n)).
  { intros f g d n Hd. apply map_eq. intros b. destruct (decide (b = c)) as [->|].
    - by rewrite lookup_alter_eq, !(lookup_alter_ne g), lookup_alter_eq by done.
    - rewrite (lookup_alter_ne f) by done. destruct (decide (b = d)) as [->|].
      + by rewrite !lookup_alter_eq, lookup_alter_ne.
      + by rewrite !lookup_alter_ne. }
  destruct li as [|d li]; [|rewrite Hn by set_solver; f_equal];
    rewrite Hc by done; f_equal; by rewrite Hc.
Qed.

Lemma orphans_elem m cur l c : orphans m cur l -> c ∈ l -> exists x, m !! c = Some x /\ l_parent x = cur.
Proof. intros (_ & (y & Hs) & _) Hc. by eapply sibs_elem. Qed.

Section Adopt.
  Context (m : lmap) (cur ini c : Z) (rest li : list Z).
  Hypothesis Ho : orphans m cur (c :: rest).
  Hypothesis Hi : family m ini li.
  Hypothesis Hci : cur <> ini.
  Hypothesis Hic : ini ∉ c :: rest.

Lemma adopt_facts : c <> cur /\ c <> ini /\ c <> NULL /\ (forall d, d ∈ c :: rest -> d ∉ li).
Proof.
  assert (Ho' := Ho). destruct Ho' as (_ & _ & _ & Hn & Hcu). split_and!; try set_solver.
  intros d Hd Hin. destruct (orphans_elem _ _ _ _ Ho Hd) as (x & Hx & Hp).
  destruct Hi as (_ & Hs & _). destruct (sibs_elem _ _ _ _ _ _ Hs Hin) as (x' & Hx' & Hp'). congruence.
Qed.

Let m0 : lmap := alter (l_set_parent ini) c (alter (l_set_cptr (hd NULL rest)) cur m).

Lemma adopt_family0 q lq :
  q <> cur -> c ∉ lq -> family m q lq -> family m0 q lq.
Proof. intros Hq Hc Hf. apply family_alter; [done|done|]. by apply family_alter_cptr. Qed.

Lemma adopted_init : family (adopted m cur ini c rest li) ini (c :: li).
Proof.
  destruct adopt_facts as (H1 & H2 & H3 & Hd). rewrite adopted_linked; [|done|done|by apply Hd; set_solver].
  destruct (orphans_elem m cur (c :: rest) c Ho) as (x & Hx & Hp); [set_solver|].
  eapply (linked_family _ ini c li (l_set_parent ini x)); [|by rewrite lookup_alter_eq, lookup_alter_ne, Hx|done..|].
  - apply adopt_family0; [done|apply Hd; set_solver|done].
  - apply Hd; set_solver.
Qed.

Lemma adopted_other q lq :
  q <> cur -> q <> ini -> family m q lq -> family (adopted m cur ini c rest li) q lq.
Proof.
  intros Hqc Hqi Hf. destruct adopt_facts as (H1 & H2 & H3 & Hd).
  assert (Hcq : c ∉ lq).
  { intros Hin. destruct (orphans_elem m cur (c :: rest) c Ho) as (x & Hx & Hp); [set_solver|].
    destruct Hf as (_ & Hs & _). destruct (sibs_elem _ _ _ _ _ _ Hs Hin) as (x' & Hx' & Hp'). congruence. }
  rewrite adopted_linked; [|done|done|by apply Hd; set_solver].
  apply linked_other; [|by apply adopt_family0|done|done].
  apply adopt_family0; [done|apply Hd; set_solver|done].
Qed.

Lemma adopted_orphans : orphans (adopted m cur ini c rest li) cur rest.
Proof.
  destruct adopt_facts as (H1 & H2 & H3 & Hd). assert (Ho' := Ho).
  destruct Ho' as ((x & Hx & Hcx) & (y & [_ Hs]) & [Hcr Hnd]%NoDup_cons & Hn & Hcu). unfold adopted.
  assert (Hhd : forall d l, li = d :: l -> d ∉ c :: rest).
  { intros d l -> Hin. apply (Hd d Hin). set_solver. }
  split; [|split; [exists c|split_and!; [done|set_solver|set_solver]]].
  - rewrite lookup_alter_ne, lookup_alter_ne by done. destruct li as [|d l].
    + rewrite lookup_alter_ne, lookup_alter_ne by done. rewrite lookup_alter_eq, Hx. by eexists.
    + destruct (decide (cur = d)) as [<-|].
      * rewrite lookup_alter_eq, lookup_alter_ne, lookup_alter_ne, lookup_alter_eq, Hx by done. by eexists.
      * rewrite lookup_alter_ne, lookup_alter_ne, lookup_alter_ne by done.
        rewrite lookup_alter_eq, Hx. by eexists.
  - apply sibs_alter_cptr, sibs_alter_ne; [done|].
    assert (Hbase : sibs (alter (l_set_optr (hd NULL li)) c (alter (l_set_yptr NULL) c
        (alter (l_set_cptr (hd NULL rest)) cur m))) cur c rest NULL).
    { apply sibs_alter_ne; [done|]. apply sibs_alter_ne; [done|]. by apply sibs_alter_cptr. }
    destruct li as [|d l]; [done|]. apply sibs_alter_ne; [|done].
    specialize (Hhd d l eq_refl). set_solver.
Qed.

End Adopt.

End Family.
