(* ===== verification/ProcessSpec.v ===== *)
(** What process management promises: identifiers are unique, the hash lists
    find every process, and fork, exit and wait keep the family tree
    (src/ucore_OS/kern/process/proc.c). *)

From S2P Require Import Prelude Proc ProcSpec Process Family.

Module ProcessSpec.
Import Proc ProcSpec Process Family.

(** ** Identifiers *)

Definition pid_of (k : ks) (a : Z) : Z := default 0 (pid <$> procs k !! a).
Definition pids (k : ks) : list Z := pid_of k <$> proc_list (table k).

Definition present (k : ks) (l : list Z) : Prop := forall a, a ∈ l -> is_Some (procs k !! a).

Lemma load_present k l a : present k l -> a ∈ l ->
  exists p, load_proc a k = Ret (p, k) /\ pid_of k a = pid p /\ procs k !! a = Some p.
Proof.
  intros Hl Ha. destruct (Hl a Ha) as [p Hp]. exists p.
  split; [by apply load_proc_eq|]. unfold pid_of. by rewrite Hp.
Qed.

(** No identifier of [l] lies strictly between [last] and [safe], or is [last]. *)
Definition clear_of (k : ks) (l : list Z) (last safe : Z) : Prop :=
  forall a, a ∈ l -> pid_of k a < last \/ safe <= pid_of k a.

Definition used (k : ks) (l : list Z) (lo hi : Z) : Prop :=
  forall i, lo <= i < hi -> i ∈ (pid_of k <$> l).

Lemma scan_pids_eq k l last safe :
  present k l -> last < safe <= MAX_PID ->
  exists last' safe' b, scan_pids l last safe k = Ret ((last', safe', b), k) /\
    if b : bool
    then exists n, last < n <= MAX_PID /\ used k l last n /\ safe' = MAX_PID /\
                   last' = (if decide (n = MAX_PID) then 1 else n)
    else last <= last' < safe' /\ safe' <= safe /\ clear_of k l last' safe'.
Proof.
  revert last safe. induction l as [|a l IH]; intros last safe Hp Hb.
  { eexists _, _, _. split; [done|]. split; [lia|]. split; [lia|]. intros a Ha. set_solver. }
  assert (Hp' : present k l) by (intros x Hx; apply Hp; set_solver).
  destruct (load_present k (a :: l) a Hp) as (p & Hl & Hpid & _); [set_solver|].
  assert (Hused : forall lo hi, used k l lo hi -> used k (a :: l) lo hi).
  { intros lo hi Hu i Hi. simpl. apply list_elem_of_further. by apply Hu. }
  assert (Hcl : forall la sa, clear_of k l la sa -> pid_of k a < la \/ sa <= pid_of k a ->
                              clear_of k (a :: l) la sa).
  { intros la sa Hc Ha x [->|Hx]%elem_of_cons; [done|by apply Hc]. }
  cbn [scan_pids]. rewrite (bind_Ret _ _ _ _ _ Hl).
  destruct (Z.eqb_spec (pid p) last) as [He|Hne].
  - assert (Hone : used k (a :: l) last (last + 1)).
    { intros i Hi. replace i with (pid_of k a) by lia. simpl. apply list_elem_of_here. }
    destruct (Z.leb_spec safe (last + 1)) as [Hs|Hs].
    + eexists _, _, true. split; [done|]. exists (last + 1). split_and!; [lia|lia|done|done|].
      case_decide; destruct (Z.leb_spec MAX_PID (last + 1)); lia.
    + destruct (IH (last + 1) safe Hp') as (la & sa & b & Hr & Hm); [lia|].
      exists la, sa, b. split; [done|]. destruct b.
      * destruct Hm as (n & Hn & Hu & -> & ->). exists n. split_and!; try lia.
        intros i Hi. destruct (decide (i = last)) as [->|]; [by apply Hone; lia|].
        apply (Hused (last + 1) n Hu). lia.
      * destruct Hm as (H1 & H2 & Hc). split_and!; [lia|lia|lia|]. apply Hcl; [done|lia].
  - destruct ((last <? pid p) && (pid p <? safe)) eqn:E.
    + apply andb_true_iff in E as [E1%Z.ltb_lt E2%Z.ltb_lt].
      destruct (IH last (pid p) Hp') as (la & sa & b & Hr & Hm); [lia|].
      exists la, sa, b. split; [done|]. destruct b.
      * destruct Hm as (n & Hn & Hu & -> & ->). exists n. split_and!; try lia. by apply Hused.
      * destruct Hm as (H1 & H2 & Hc). split_and!; [lia|lia|lia|]. apply Hcl; [done|lia].
    + destruct (IH last safe Hp') as (la & sa & b & Hr & Hm); [lia|].
      exists la, sa, b. split; [done|]. destruct b.
      * destruct Hm as (n & Hn & Hu & -> & ->). exists n. split_and!; try lia. by apply Hused.
      * destruct Hm as (H1 & H2 & Hc). split_and!; [lia|lia|lia|]. apply Hcl; [done|].
        apply andb_false_iff in E as [E%Z.ltb_ge|E%Z.ltb_ge]; lia.
Qed.

(** How many identifiers lie between [last] and the free one [f], going round. *)
Definition ahead (f last : Z) : Z := if decide (last <= f) then f - last else f - last + MAX_PID - 1.

Lemma repeat_scan_eq k f fuel last :
  present k (proc_list (table k)) -> 1 <= f < MAX_PID -> f ∉ pids k -> 1 <= last < MAX_PID ->
  ahead f last < Z.of_nat fuel ->
  exists last' safe', repeat_scan fuel last MAX_PID k = Ret ((last', safe'), k) /\
    1 <= last' < safe' /\ safe' <= MAX_PID /\ clear_of k (proc_list (table k)) last' safe'.
Proof.
  intros Hp Hf Hfree. revert last. induction fuel as [|fuel IH]; intros last Hl Hd.
  { unfold ahead in Hd. case_decide; lia. }
  cbn [repeat_scan]. erewrite bind_Ret by done.
  destruct (scan_pids_eq k (proc_list (table k)) last MAX_PID Hp) as (la & sa & b & Hr & Hm); [lia|].
  rewrite (bind_Ret _ _ _ _ _ Hr). destruct b.
  - destruct Hm as (n & Hn & Hu & -> & ->).
    assert (Hnf : ~ last <= f < n) by (intros Hc; by apply Hfree, Hu).
    unfold ahead in Hd. apply IH.
    + case_decide; [unfold MAX_PID, MAX_PROCESS|]; lia.
    + unfold ahead. repeat case_decide; lia.
  - exists la, sa. split; [done|]. lia || (split_and!; [lia|lia|lia|apply Hm]).
Qed.

(** Some identifier is free when there are fewer processes than identifiers. *)
Lemma free_pid (l : list Z) : Z.of_nat (length l) < MAX_PID - 1 -> exists f, 1 <= f < MAX_PID /\ f ∉ l.
Proof.
  intros Hl. destruct (decide (Forall (fun i => i ∈ l) (seqZ 1 (MAX_PID - 1)))) as [Hall|Hno].
  - assert (Hs : seqZ 1 (MAX_PID - 1) ⊆+ l).
    { apply NoDup_submseteq; [apply NoDup_seqZ|]. by apply Forall_forall. }
    apply submseteq_length in Hs. rewrite length_seqZ in Hs. lia.
  - apply not_Forall_Exists in Hno; [|apply _]. apply Exists_exists in Hno as (f & Hin & Hf).
    apply elem_of_seqZ in Hin. exists f. split; [lia|done].
Qed.

(** Between calls the identifiers above the last one given and below the next
    safe bound are free. *)
Record pid_window (k : ks) : Prop := {
  pw_last : 1 <= last_pid (table k) <= MAX_PID;
  pw_safe : next_safe (table k) <= MAX_PID;
  pw_free a : a ∈ proc_list (table k) ->
    pid_of k a <= last_pid (table k) \/ next_safe (table k) <= pid_of k a
}.

Definition with_pids (k : ks) (safe last : Z) : ks :=
  set_table (mk_pt (proc_list (table k)) (hash_list (table k)) (nr_process (table k)) safe last) k.

Lemma get_pid_eq k :
  present k (proc_list (table k)) -> pid_window k ->
  Z.of_nat (length (proc_list (table k))) < MAX_PID - 1 ->
  exists i safe, get_pid k = Ret (i, with_pids k safe i) /\
    1 <= i < MAX_PID /\ i ∉ pids k /\ pid_window (with_pids k safe i).
Proof.
  intros Hp [Hlast Hsafe Hfr] Hlen. set (l := proc_list (table k)) in *.
  destruct (free_pid (pids k)) as (f & Hf & Hfree); [unfold pids; by rewrite length_fmap|].
  assert (Hres : exists i safe,
    (if MAX_PID <=? last_pid (table k) + 1 then repeat_scan (Z.to_nat MAX_PID) 1 MAX_PID
     else if next_safe (table k) <=? last_pid (table k) + 1
          then repeat_scan (Z.to_nat MAX_PID) (last_pid (table k) + 1) MAX_PID
          else mret (last_pid (table k) + 1, next_safe (table k))) k = Ret ((i, safe), k) /\
    1 <= i < safe /\ safe <= MAX_PID /\ clear_of k l i safe).
  { assert (Hah : forall x, 1 <= x < MAX_PID -> ahead f x < Z.of_nat (Z.to_nat MAX_PID)).
    { intros x Hx. unfold ahead. rewrite Z2Nat.id by done. case_decide; lia. }
    destruct (Z.leb_spec MAX_PID (last_pid (table k) + 1)).
    { apply (repeat_scan_eq k f); try done; try apply Hah; done. }
    destruct (Z.leb_spec (next_safe (table k)) (last_pid (table k) + 1)).
    { apply (repeat_scan_eq k f); try done; try apply Hah; lia. }
    eexists _, _. split; [done|]. split; [lia|]. split; [done|].
    intros a Ha. destruct (Hfr a Ha); lia. }
  destruct Hres as (i & safe & Hr & Hi & Hs & Hc). exists i, safe.
  unfold get_pid. erewrite bind_Ret by done. cbv zeta. rewrite (bind_Ret _ _ _ _ _ Hr).
  split; [done|]. split; [lia|]. split.
  - intros Hin. unfold pids in Hin. apply list_elem_of_fmap in Hin as (a & Ha & Hin).
    destruct (Hc a Hin); lia.
  - split; simpl; [lia|done|]. intros a Ha. change (pid_of (with_pids k safe i) a) with (pid_of k a).
    destruct (Hc a Ha); lia.
Qed.

(** C16: [get_pid] terminates and gives an identifier between 1 and [MAX_PID]
    that no process has, whatever identifiers are in use, as long as there are
    fewer processes than identifiers; the window it remembers stays free. *)
Theorem get_pid_fresh (k : ks) :
  present k (proc_list (table k)) -> pid_window k ->
  Z.of_nat (length (proc_list (table k))) < MAX_PID - 1 ->
  exists i k', get_pid k = Ret (i, k') /\ 1 <= i < MAX_PID /\ i ∉ pids k /\
    pid_window k' /\ last_pid (table k') = i /\ pids k' = pids k /\ procs k' = procs k.
Proof.
  intros Hp Hw Hl. destruct (get_pid_eq k Hp Hw Hl) as (i & safe & Hr & Hi & Hn & Hw').
  by exists i, (with_pids k safe i).
Qed.

(** ** The hash lists *)

Record table_inv (k : ks) : Prop := {
  ti_nodup : NoDup (proc_list (table k));
  ti_null : NULL ∉ proc_list (table k);
  ti_idle : idleproc k ∉ proc_list (table k);
  ti_present : present k (proc_list (table k));
  ti_pids : NoDup (pids k);
  ti_range a : a ∈ proc_list (table k) -> 1 <= pid_of k a < MAX_PID;
  ti_size : Z.of_nat (length (hash_list (table k))) = HASH_LIST_SIZE;
  ti_hash i a : a ∈ bucket (hash_list (table k)) i -> a ∈ proc_list (table k);
  ti_hashed a : a ∈ proc_list (table k) ->
    a ∈ bucket (hash_list (table k)) (pid_hashfn (pid_of k a));
  ti_count : nr_process (table k) = Z.of_nat (length (proc_list (table k))) + 1
}.

Lemma hash_range i : 0 <= pid_hashfn i < HASH_LIST_SIZE.
Proof.
  unfold pid_hashfn, hash32, HASH_SHIFT. set (h := u32 (_ * _)).
  assert (Hh : is_u32 h) by apply u32_range. unfold is_u32 in Hh.
  change (32 - 10) with 22. rewrite Z.shiftr_div_pow2 by done.
  split; [apply Z.div_pos; lia|]. apply Z.div_lt_upper_bound; [done|].
  change (2 ^ 22 * HASH_LIST_SIZE) with 0x100000000. lia.
Qed.

Lemma find_loop_eq k l i :
  present k l ->
  exists r, find_loop l i k = Ret (r, k) /\
    ((r = NULL /\ i ∉ (pid_of k <$> l)) \/ (r ∈ l /\ pid_of k r = i)).
Proof.
  induction l as [|a l IH]; intros Hp; simpl.
  { exists NULL. split; [done|]. left. split; [done|set_solver]. }
  destruct (load_present k (a :: l) a Hp) as (p & Hl & Hpid & _); [set_solver|].
  rewrite (bind_Ret _ _ _ _ _ Hl). destruct (Z.eqb_spec (pid p) i) as [He|Hne].
  - exists a. split; [done|]. right. split; [set_solver|congruence].
  - destruct IH as (r & Hr & Hc); [intros x Hx; apply Hp; set_solver|]. exists r. split; [done|].
    destruct Hc as [[-> Hn]|[Hin Hi]]; [left|right]; (split; [done || set_solver|]); [|done].
    rewrite elem_of_cons. intros [Hc|Hc]; [congruence|done].
Qed.

(** The process with the identifier [i]. *)
Definition named (k : ks) (i a : Z) : Prop := a ∈ proc_list (table k) /\ pid_of k a = i.

Lemma find_proc_eq k i :
  table_inv k ->
  exists r, find_proc i k = Ret (r, k) /\ ((r = NULL /\ i ∉ pids k) \/ named k i r).
Proof.
  intros Hi. unfold find_proc. destruct ((0 <? i) && (i <? MAX_PID)) eqn:E.
  - erewrite bind_Ret by done.
    destruct (find_loop_eq k (bucket (hash_list (table k)) (pid_hashfn i)) i) as (r & Hr & Hc).
    { intros a Ha. eapply (ti_present k Hi), (ti_hash k Hi), Ha. }
    exists r. split; [done|]. destruct Hc as [[-> Hn]|[Hin He]].
    + left. split; [done|]. intros Hin. apply Hn. unfold pids in Hin.
      apply list_elem_of_fmap in Hin as (a & -> & Ha). apply list_elem_of_fmap.
      exists a. split; [done|]. by apply (ti_hashed k Hi).
    + right. split; [by eapply (ti_hash k Hi)|done].
  - exists NULL. split; [done|]. left. split; [done|]. intros Hin. unfold pids in Hin.
    apply list_elem_of_fmap in Hin as (a & -> & Ha). apply (ti_range k Hi) in Ha.
    apply andb_false_iff in E as [E%Z.ltb_ge|E%Z.ltb_ge]; lia.
Qed.

Lemma named_unique k i a b : table_inv k -> named k i a -> named k i b -> a = b.
Proof.
  intros Hi [Ha Hia] [Hb Hib]. apply list_elem_of_lookup in Ha as [x Hx], Hb as [y Hy].
  assert (x = y); [|congruence]. eapply (NoDup_lookup (pids k)); [apply (ti_pids k Hi)|..];
    unfold pids; rewrite list_lookup_fmap; [by rewrite Hx; simpl; rewrite Hia|
    by rewrite Hy; simpl; rewrite Hib].
Qed.

(** [find_proc] is lookup by identifier: it returns the one process of the
    list with the identifier, through the hash list of the identifier, and NULL
    when no process has it (or the identifier is out of range); it never follows
    a link that is not a process and does not change the state. *)
Theorem find_proc_refines (k : ks) (i : Z) :
  table_inv k ->
  exists r, find_proc i k = Ret (r, k) /\
    (forall a, named k i a <-> r = a /\ r <> NULL) /\ (r = NULL <-> i ∉ pids k).
Proof.
  intros Hi. destruct (find_proc_eq k i Hi) as (r & Hr & Hc). exists r. split; [done|].
  assert (Hnn : forall a, named k i a -> a <> NULL /\ i ∈ pids k).
  { intros a [Ha He]. split; [intros ->; by apply (ti_null k Hi)|].
    unfold pids. apply list_elem_of_fmap. by exists a. }
  destruct Hc as [[-> Hn]|Hr'].
  - split; [|done]. intros a. split; [|naive_solver]. intros Ha. by apply Hnn in Ha as [_ ?].
  - destruct (Hnn r Hr') as [Hne Hin]. split; [|naive_solver]. intros a. split.
    + intros Ha. split; [by eapply named_unique|done].
    + by intros [-> _].
Qed.

(** ** The invariant of process management *)

Definition lks (k : ks) : gmap Z links := link <$> procs k.
Definition everyone (k : ks) : list Z := idleproc k :: proc_list (table k).

(** [fam] gives the children of each process. *)
Record proc_inv (k : ks) (fam : Z -> list Z) : Prop := {
  pi_sched : sched_inv k;
  pi_table : table_inv k;
  pi_window : pid_window k;
  pi_tree : tree (lks k) (everyone k) fam;
  pi_born a : a ∈ proc_list (table k) -> exists p, p ∈ everyone k /\ a ∈ fam p;
  pi_dom a : is_Some (procs k !! a) <-> a ∈ everyone k;
  pi_current : current k ∈ everyone k;
  pi_idle : idleproc k <> NULL;
  pi_zombie a p : procs k !! a = Some p -> state p = PROC_ZOMBIE -> fam a = [];
  pi_root p : p ∈ everyone k -> idleproc k ∉ fam p
}.

Lemma update_proc_alter k a f :
  is_Some (procs k !! a) -> update_proc a f k = Ret (tt, set_procs (alter f a (procs k)) k).
Proof.
  intros [p Hp]. rewrite (update_proc_eq k a p f Hp). do 3 f_equal.
  apply map_eq. intros b. destruct (decide (b = a)) as [->|].
  - by rewrite lookup_insert_eq, lookup_alter_eq, Hp.
  - by rewrite lookup_insert_ne, lookup_alter_ne.
Qed.

Lemma runnable_view k k' :
  state <$> procs k' = state <$> procs k -> forall a, runnable k' a <-> runnable k a.
Proof.
  intros He a. split; intros (p & Hp & Hs); symmetry in He || idtac.
  - destruct (view_lookup _ _ _ _ _ He Hp) as (p' & ? & ?). exists p'. split; [done|congruence].
  - symmetry in He. destruct (view_lookup _ _ _ _ _ He Hp) as (p' & ? & ?).
    exists p'. split; [done|congruence].
Qed.

Lemma present_view {B} (f : proc -> B) k k' a :
  f <$> procs k' = f <$> procs k -> is_Some (procs k !! a) -> is_Some (procs k' !! a).
Proof. intros He [p Hp]. destruct (view_lookup _ _ _ _ _ He Hp) as (p' & ? & _). eauto. Qed.

Lemma pid_of_view k k' a : pid <$> procs k' = pid <$> procs k -> pid_of k' a = pid_of k a.
Proof. intros He. unfold pid_of. by rewrite <- !lookup_fmap, He. Qed.

Lemma sched_inv_view k k' :
  sched_inv k -> state <$> procs k' = state <$> procs k -> current k' = current k ->
  idleproc k' = idleproc k -> rq k' = rq k -> sched_inv k'.
Proof.
  intros [Hn Hq Hl Hc Hi] Hp Hc' Hi' Hr. assert (Hrun := runnable_view k k' Hp).
  split; rewrite ?Hr, ?Hc', ?Hi'; try done.
  - intros a. by rewrite Hrun.
  - by eapply present_view.
  - by apply Hrun.
Qed.

(** The descriptor without its links. *)
Definition body (p : proc) : proc :=
  with_parent NULL (with_cptr NULL (with_yptr NULL (with_optr NULL p))).

Lemma body_view {B} (f : proc -> B) (m m' : gmap Z proc) :
  (forall p, f (body p) = f p) -> body <$> m' = body <$> m -> f <$> m' = f <$> m.
Proof.
  intros Hf He. assert (Hx : forall n : gmap Z proc, f <$> n = (f ∘ body) <$> n).
  { intros n. apply map_fmap_ext. intros i x _. simpl. by rewrite Hf. }
  rewrite (Hx m'), (Hx m). by apply view_trans.
Qed.

Lemma table_inv_view k k' :
  table_inv k -> pid <$> procs k' = pid <$> procs k -> table k' = table k -> idleproc k' = idleproc k ->
  table_inv k'.
Proof.
  intros [T1 T2 T3 T4 T5 T6 T7 T8 T9 T10] Hp Ht Hi.
  assert (Hpid := fun a => pid_of_view k k' a Hp).
  assert (Hpids : pids k' = pids k).
  { unfold pids. rewrite Ht. apply list_fmap_ext. intros. apply Hpid. }
  split; rewrite ?Ht, ?Hi, ?Hpids; try done.
  - intros a Ha. eapply (present_view pid); [done|by apply T4].
  - intros a Ha. rewrite Hpid. by apply T6.
  - intros a Ha. rewrite Hpid. by apply T9.
Qed.

Lemma pid_window_view k k' :
  pid_window k -> pid <$> procs k' = pid <$> procs k -> table k' = table k -> pid_window k'.
Proof.
  intros [W1 W2 W3] Hp Ht. split; rewrite ?Ht; try done.
  intros a Ha. rewrite (pid_of_view k k' a Hp). by apply W3.
Qed.

(** The invariant depends on the states, the identifiers and the links of the
    processes, the queue and the table. *)
Lemma proc_inv_view k k' fam :
  proc_inv k fam ->
  state <$> procs k' = state <$> procs k -> pid <$> procs k' = pid <$> procs k -> lks k' = lks k ->
  current k' = current k -> idleproc k' = idleproc k -> rq k' = rq k -> table k' = table k -> proc_inv k' fam.
Proof.
  intros [Hs Ht Hw Htr Hb Hd Hc Hi Hz Hr] Hst Hpid Hl Hcu Hid Hrq Htb.
  assert (Hev : everyone k' = everyone k) by (unfold everyone; by rewrite Hid, Htb).
  assert (Hpo : forall a, pid_of k' a = pid_of k a) by (intros a; by apply pid_of_view).
  split; rewrite ?Hev, ?Hcu, ?Hid, ?Htb, ?Hl; try done.
  - by apply (sched_inv_view k).
  - by apply (table_inv_view k).
  - by apply (pid_window_view k).
  - intros a. rewrite <- Hd. split; eapply (present_view state); [by symmetry|done].
  - intros a p Hp Hzp. symmetry in Hst. destruct (view_lookup state _ _ _ _ Hst Hp) as (q & Hq & He). apply (Hz a q); [done|congruence].
Qed.

(** [set_links] puts the process in front of its parent's children. *)
Lemma set_links_eq k a p l :
  procs k !! a = Some p -> is_Some (procs k !! parent p) -> a <> parent p ->
  family (lks k) (parent p) l -> a ∉ l ->
  exists m, set_links a k = Ret (tt, set_table (mk_pt (a :: proc_list (table k)) (hash_list (table k))
      (nr_process (table k) + 1) (next_safe (table k)) (last_pid (table k))) (set_procs m k)) /\
    link <$> m = linked (lks k) (parent p) a l /\ body <$> m = body <$> procs k.
Proof.
  intros Hp [q Hq] Hne Hf Hal. destruct (family_cptr _ _ _ Hf) as (x & Hx & Hc).
  unfold lks in Hx. rewrite lookup_fmap, Hq in Hx. simpl in Hx. injection Hx as <-. simpl in Hc.
  unfold set_links, on_table. erewrite bind_Ret by done.
  erewrite bind_Ret by (by apply update_proc_alter). simpl.
  erewrite bind_Ret by (apply load_proc_eq; simpl; by rewrite lookup_alter_eq, Hp). simpl.
  erewrite bind_Ret by (apply load_proc_eq; simpl; by rewrite lookup_alter_ne).
  erewrite bind_Ret by (apply update_proc_alter; simpl; rewrite lookup_alter_eq, Hp; by eexists). simpl.
  rewrite Hc.
  set (m2 := alter (with_optr (hd NULL l)) a (alter (with_yptr NULL) a (procs k))).
  assert (Hm2q : m2 !! parent p = Some q) by (unfold m2; by rewrite !lookup_alter_ne).
  assert (Hm3 : exists m3, when (negb (hd NULL l =? NULL)) (update_proc (hd NULL l) (with_yptr a))
      (set_procs m2 (set_table (mk_pt (a :: proc_list (table k)) (hash_list (table k))
         (nr_process (table k) + 0) (next_safe (table k)) (last_pid (table k))) k)) =
    Ret (tt, set_procs m3 (set_table (mk_pt (a :: proc_list (table k)) (hash_list (table k))
         (nr_process (table k) + 0) (next_safe (table k)) (last_pid (table k))) k)) /\
    is_Some (m3 !! parent p) /\ body <$> m3 = body <$> m2 /\
    link <$> m3 = match l with [] => fun m => m | c :: _ => alter (l_set_yptr a) c end (link <$> m2)).
  { destruct Hf as (_ & Hs & _ & Hnl & _). destruct l as [|c l]; simpl.
    - exists m2. split; [done|]. by rewrite Hm2q.
    - assert (c <> NULL) by set_solver. replace (c =? NULL) with false by lia.
      destruct (sibs_elem _ _ _ _ _ c Hs) as (xc & Hxc & _); [set_solver|].
      unfold lks in Hxc. rewrite lookup_fmap in Hxc. destruct (procs k !! c) as [pc|] eqn:Hpc; [|done].
      exists (alter (with_yptr a) c m2). split.
      + simpl. rewrite update_proc_alter; [done|]. simpl. unfold m2.
        rewrite !lookup_alter_ne, Hpc by set_solver. by eexists.
      + split; [|split; [by apply view_alter_id|by apply view_alter]].
        destruct (decide (parent p = c)) as [<-|]; [rewrite lookup_alter_eq, Hm2q; by eexists|].
        by rewrite lookup_alter_ne, Hm2q. }
  destruct Hm3 as (m3 & Hr3 & Hs3 & Hb3 & Hl3). rewrite (bind_Ret _ _ _ _ _ Hr3).
  erewrite bind_Ret by (apply update_proc_alter; done). simpl.
  eexists. split; [unfold modify; simpl; do 2 f_equal; unfold set_table, set_procs; simpl; do 2 f_equal; lia|].
  split.
  - rewrite (view_alter link _ (l_set_cptr a)) by done. rewrite Hl3. unfold linked, m2.
    by rewrite (view_alter link _ (l_set_optr (hd NULL l))), (view_alter link _ (l_set_yptr NULL)).
  - rewrite view_alter_id, Hb3 by done. unfold m2. by rewrite !view_alter_id.
Qed.

End ProcessSpec.
