(* ===== verification/ForkSpec.v ===== *)
(** What [do_fork] promises, against the interface [Resources]: a child with a
    fresh identifier, linked below its parent, findable and runnable, or no
    trace of the attempt (src/ucore_OS/kern/process/proc.c). *)

From S2P Require Import Prelude Proc ProcSpec Process Family ProcessSpec.

Module ForkSpec.
Import Proc ProcSpec Process Family ProcessSpec.

(** ** The interface's laws *)

Section Laws.
  Context {R : Type} `{Resources R} (owned : R -> Z -> Prop).

(** The blocks handed out for descriptors stay handed out. *)
Definition grows (r r' : R) : Prop := forall x, owned r x -> owned r' x.

(** An operation that returns, and takes back no descriptor. *)
Definition quiet {A} (m : M R A) : Prop :=
  forall r, exists v r', m r = Ret (v, r') /\ grows r r'.

End Laws.

(** The kernel stops: a failed assertion, or a bad access. *)
Definition stops {A} (o : res A) : Prop := o = Panic \/ o = Fault.

(** [owned r a]: the block at [a] is in use for a descriptor.  The allocator
    gives blocks that are not in use; only [kfree] takes a block back.  Copying
    an address space may stop the kernel: [copy_range] asserts that there is a
    frame for every page, and [get_pte] uses the frame of a new table unchecked. *)
Class ResourceLaws {R : Type} `{Resources R} (owned : R -> Z -> Prop) : Prop := {
  law_kmalloc r : exists a r', kmalloc_proc r = Ret (a, r') /\ grows owned r r' /\
    (a <> NULL -> ~ owned r a /\ owned r' a);
  law_kfree a r : exists r', kfree_proc a r = Ret (tt, r') /\
    (forall x, x <> a -> owned r x -> owned r' x);
  law_alloc_pages n : quiet owned (alloc_pages n);
  law_free_pages a n : quiet owned (free_pages a n);
  law_mm_create : quiet owned mm_create;
  law_mm_destroy m : quiet owned (mm_destroy m);
  law_setup_pgdir m : quiet owned (setup_pgdir m);
  law_put_pgdir m : quiet owned (put_pgdir m);
  law_mm_pgdir m : quiet owned (mm_pgdir m);
  law_lock_mm m : quiet owned (lock_mm m);
  law_unlock_mm m : quiet owned (unlock_mm m);
  law_dup_mmap m m' r : (exists v r', dup_mmap m m' r = Ret (v, r') /\ grows owned r r') \/
    stops (dup_mmap m m' r);
  law_exit_mmap m : quiet owned (exit_mmap m);
  law_mm_count_inc m : quiet owned (mm_count_inc m);
  law_mm_count_dec m : quiet owned (mm_count_dec m);
  law_files_create : quiet owned files_create;
  law_files_destroy f : quiet owned (files_destroy f);
  law_files_count_inc f : quiet owned (files_count_inc f);
  law_files_count_dec f : quiet owned (files_count_dec f);
  law_dup_files f f' : quiet owned (dup_files f f');
  law_user_mem_check m a n w : quiet owned (user_mem_check m a n w);
  law_store_int a v : quiet owned (store_int a v)
}.

Create HintDb laws.
#[export] Hint Resolve law_alloc_pages law_free_pages law_mm_create law_mm_destroy law_setup_pgdir
  law_put_pgdir law_mm_pgdir law_lock_mm law_unlock_mm law_exit_mmap law_mm_count_inc
  law_mm_count_dec law_files_create law_files_destroy law_files_count_inc law_files_count_dec
  law_dup_files law_user_mem_check law_store_int : laws.

Section Fork.
  Context {R : Type} `{Resources R} (owned : R -> Z -> Prop) `{!ResourceLaws owned} (sy : symbols).

Local Infix "⊑" := (grows owned) (at level 70).

Lemma grows_trans (r1 r2 r3 : R) : r1 ⊑ r2 -> r2 ⊑ r3 -> r1 ⊑ r3.
Proof. unfold grows. auto. Qed.
Lemma grows_refl (r : R) : r ⊑ r.
Proof. by unfold grows. Qed.

(** ** Rules for the two parts of the state *)

Lemma wp_quiet {A} (m : M R A) (Q : A -> sys R -> Prop) k r :
  quiet owned m -> (forall v r', r ⊑ r' -> Q v (mk_sys k r')) -> wp (inR m) Q (mk_sys k r).
Proof.
  intros Hq HQ. destruct (Hq r) as (v & r' & Hr & Hg). exists v, (mk_sys k r').
  unfold inR. simpl. rewrite Hr. split; [done|]. by apply HQ.
Qed.

Lemma wp_inK {A} (m : M ks A) (Q : A -> sys R -> Prop) k r v k' :
  m k = Ret (v, k') -> Q v (mk_sys k' r) -> wp (inK m) Q (mk_sys k r).
Proof. intros Hm HQ. exists v, (mk_sys k' r). unfold inK. simpl. by rewrite Hm. Qed.

(** The state with the new descriptor [p] at [a], before it is entered in the
    lists. *)
Definition emb (k : ks) (a : Z) (p : proc) : ks := set_procs (<[a := p]> (procs k)) k.

Lemma update_emb k a p f : update_proc a f (emb k a p) = Ret (tt, emb k a (f p)).
Proof.
  unfold emb. rewrite (update_proc_eq _ a p) by (simpl; apply lookup_insert_eq).
  simpl. by rewrite insert_insert_eq.
Qed.

Lemma load_emb_self k a p : load_proc a (emb k a p) = Ret (p, emb k a p).
Proof. apply load_proc_eq. simpl. apply lookup_insert_eq. Qed.

Lemma load_emb k a p b q : a <> b -> procs k !! b = Some q -> load_proc b (emb k a p) = Ret (q, emb k a p).
Proof. intros. apply load_proc_eq. simpl. by rewrite lookup_insert_ne. Qed.

(** [m] returns in [Q], or stops the kernel and [X] holds. *)
Definition returns_or {A} (X : Prop) (m : M (sys R) A) (Q : A -> sys R -> Prop) (s : sys R) : Prop :=
  wp m Q s \/ (stops (m s) /\ X).

Lemma ro_wp {A} X (m : M (sys R) A) Q s : wp m Q s -> returns_or X m Q s.
Proof. by left. Qed.
Lemma ro_stop {A} (X : Prop) (m : M (sys R) A) Q s : stops (m s) -> X -> returns_or X m Q s.
Proof. by right. Qed.
Lemma ro_bind {A B} X (m : M (sys R) A) (f : A -> M (sys R) B) Q s :
  returns_or X m (fun v s' => returns_or X (f v) Q s') s -> returns_or X (m ≫= f) Q s.
Proof.
  intros [(v & s' & E & Hf)|[Hs HX]].
  - destruct Hf as [(w & s2 & E2 & HQ)|[Hs HX]].
    + left. exists w, s2. by rewrite (bind_Ret _ _ _ _ _ E).
    + right. by rewrite (bind_Ret _ _ _ _ _ E).
  - right. split; [|done]. unfold stops, mbind, M_bind in *. by destruct Hs as [-> | ->]; [left|right].
Qed.
Lemma ro_mono {A} X (m : M (sys R) A) (Q Q' : A -> sys R -> Prop) s :
  returns_or X m Q s -> (forall v s', Q v s' -> Q' v s') -> returns_or X m Q' s.
Proof. intros [Hm|?] HQ; [left; by eapply wp_mono|by right]. Qed.

(** What the steps of [do_fork] keep of the new descriptor. *)
Definition same_embryo (p p' : proc) : Prop := link p' = link p /\ state p' = state p.

(** The outcome of a step that only works on the new descriptor. *)
Definition embryo_post (k : ks) (a : Z) (p : proc) (r : R) {A} (v : A) (s' : sys R) : Prop :=
  exists p' r', s' = mk_sys (emb k a p') r' /\ same_embryo p p' /\ r ⊑ r'.

Ltac wstep :=
  cbn [kst rst];
  lazymatch goal with
  | |- wp (_ ≫= _) _ _ => apply wp_bind
  | |- wp get _ _ => apply wp_get
  | |- wp (mret _) _ _ => apply wp_ret
  | |- wp (assert_ true) _ _ => apply wp_ret
  | |- wp (inR _) _ _ => apply wp_quiet; [solve [eauto with laws]|intros ? ? ?]
  | |- wp (inK (update_proc ?a _)) _ (mk_sys (emb _ ?a _) _) => eapply wp_inK; [apply update_emb|]
  | |- wp (inK (load_proc ?a)) _ (mk_sys (emb _ ?a _) _) => eapply wp_inK; [apply load_emb_self|]
  | |- wp (if ?b then _ else _) _ _ => destruct b eqn:?
  | |- wp (when ?b _) _ _ => destruct b eqn:?; cbn [when]
  end.
Ltac wrun := repeat wstep.
Ltac wdone := eexists _, _; split; [reflexivity|]; split; [split; reflexivity|];
  repeat (eapply grows_trans; [eassumption|]); solve [assumption | apply grows_refl].

Lemma setup_kstack_wp k a p r :
  wp (setup_kstack a) (embryo_post k a p r) (mk_sys (emb k a p) r).
Proof. unfold setup_kstack. wrun; wdone. Qed.

Lemma good_mm_wp k a m p r :
  wp (good_mm a m) (fun v s' => v = 0 /\ embryo_post k a p r v s') (mk_sys (emb k a p) r).
Proof. unfold good_mm. wrun. split; [done|]. wdone. Qed.

(** Copying the address space of [cur] can stop the kernel. *)
Definition copy_stops (flags : Z) (cur : proc) : Prop :=
  mm cur <> NULL /\ Z.land flags CLONE_VM = 0 /\ exists m r, stops (dup_mmap m (mm cur) r).

Ltac ro_case := match goal with |- returns_or _ (if ?b then _ else _) _ _ => destruct b eqn:? end.

Lemma copy_mm_wp k a flags p r cur :
  procs k !! current k = Some cur -> a <> current k ->
  returns_or (copy_stops flags cur) (copy_mm flags a) (embryo_post k a p r) (mk_sys (emb k a p) r).
Proof.
  intros Hc Ha. unfold copy_mm. apply ro_bind, ro_wp. wstep. apply ro_bind, ro_wp.
  eapply wp_inK; [by apply load_emb|]. destruct (mm cur =? NULL) eqn:Hm; [apply ro_wp; wrun; wdone|].
  destruct (negb _) eqn:Hv.
  { apply ro_wp. eapply wp_mono; [apply good_mm_wp|]. by intros v s' [_ ?]. }
  apply ro_bind, ro_wp. wstep. ro_case; [apply ro_wp; wrun; wdone|].
  apply ro_bind, ro_wp. wstep. ro_case; [apply ro_wp; wrun; wdone|].
  apply ro_bind, ro_wp. wstep. apply ro_bind.
  match goal with |- returns_or _ (inR (dup_mmap ?m _)) _ (mk_sys _ ?x) =>
    destruct (law_dup_mmap m (mm cur) x) as [(w & rd & Hd & Hg)|Hs] end.
  2: { apply ro_stop.
       - unfold inR, stops in *. cbn [rst]. by destruct Hs as [-> | ->]; [left|right].
       - split; [lia|]. split; [by apply negb_false_iff, Z.eqb_eq in Hv|eauto]. }
  apply ro_wp. eexists _, (mk_sys _ rd). split; [unfold inR; cbn [rst kst]; by rewrite Hd|].
  apply ro_bind, ro_wp. wstep. apply ro_wp. wrun; [wdone|].
  eapply wp_mono; [apply good_mm_wp|]. intros ? ? [_ (p' & rf & -> & ? & ?)].
  exists p', rf. split; [done|]. split; [done|].
  repeat (eapply grows_trans; [eassumption|]). apply grows_refl.
Qed.

Lemma copy_files_wp k a flags p r cur :
  procs k !! current k = Some cur -> a <> current k -> filesp cur <> NULL ->
  wp (copy_files flags a) (embryo_post k a p r) (mk_sys (emb k a p) r).
Proof.
  intros Hc Ha Hf. unfold copy_files. wstep. wstep. wstep.
  eapply wp_inK; [by apply load_emb|]. replace (filesp cur =? NULL) with false by lia.
  cbn [negb]. wrun; wdone.
Qed.

Lemma put_kstack_wp k a p r :
  wp (put_kstack a) (embryo_post k a p r) (mk_sys (emb k a p) r).
Proof. unfold put_kstack. wrun; wdone. Qed.

Lemma put_files_wp k a p r :
  wp (put_files a) (embryo_post k a p r) (mk_sys (emb k a p) r).
Proof. unfold put_files. wrun; wdone. Qed.

(** Freeing the descriptor leaves no trace of it. *)
Lemma free_proc_wp k a p r :
  procs k !! a = None ->
  wp (free_proc a) (fun _ s' => kst s' = k /\ forall x, x <> a -> owned r x -> owned (rst s') x)
     (mk_sys (emb k a p) r).
Proof.
  intros Hn. unfold free_proc. wstep. eapply wp_inK; [done|].
  destruct (law_kfree a r) as (r' & Hr & Hg). exists tt. unfold inR. simpl. rewrite Hr.
  eexists. split; [done|]. split; [|done]. simpl. rewrite delete_insert_id by done. by destruct k.
Qed.

Lemma copy_thread_wp k a esp t p (r : R) :
  wp (copy_thread (R:=R) sy a esp t) (fun _ s' => exists p' fr,
       s' = mk_sys (set_frames fr (emb k a p')) r /\ same_embryo p p' /\
       fr !! tf p' = Some (child_frame esp t) /\ (forall f, f <> tf p' -> fr !! f = frames k !! f)) (mk_sys (emb k a p) r).
Proof.
  unfold copy_thread. eapply wp_inK.
  - erewrite bind_Ret by apply load_emb_self. erewrite bind_Ret by apply update_emb.
    erewrite bind_Ret by done. apply update_proc_eq. simpl. apply lookup_insert_eq.
  - set (f := u32 _). exists (with_context (forkret sy, f) (with_tf f p)). eexists.
    split; [|split; [done|split; [simpl; apply lookup_insert_eq|simpl; intros g Hg; by apply lookup_insert_ne]]]. f_equal. unfold emb, set_frames, set_procs. simpl. by rewrite insert_insert_eq.
Qed.

End Fork.

(** ** Entering the new process *)

Lemma woken_view {B} (f : proc -> B) k a p k' :
  (forall q, f (core_of q) = f q) -> (forall q, f (with_wait_state 0 (with_state PROC_RUNNABLE q)) = f q) ->
  procs k !! a = Some p -> woken k a p k' -> f <$> procs k' = f <$> procs k.
Proof.
  intros H1 H2 Hp Hw. destruct Hw as (_ & _ & _ & _ & _ & _ & _ & _ & _ & _ & _ & Ho & (p' & Hp' & Hs) & _).
  apply map_eq. intros b. rewrite !lookup_fmap. destruct (decide (b = a)) as [->|]; [|by rewrite Ho].
  rewrite Hp, Hp'. simpl. f_equal. rewrite (same_proc_field f _ p' H1 Hs). by case_decide.
Qed.

Lemma bucket_insert (h : list (list Z)) (i j : Z) l :
  (Z.to_nat i < length h)%nat ->
  bucket (<[Z.to_nat i := l]> h) j = if decide (Z.to_nat j = Z.to_nat i) then l else bucket h j.
Proof.
  intros Hi. unfold bucket. case_decide as He.
  - by rewrite He, list_lookup_insert_eq.
  - by rewrite list_lookup_insert_ne.
Qed.

(** The lists of the process table after the new process has been entered. *)
Lemma table_inv_enter k k' a i :
  table_inv k -> a ∉ everyone k -> a <> NULL -> 1 <= i < MAX_PID -> i ∉ pids k ->
  idleproc k' = idleproc k -> is_Some (procs k' !! a) -> pid_of k' a = i ->
  (forall b, b ∈ proc_list (table k) -> is_Some (procs k' !! b) /\ pid_of k' b = pid_of k b) ->
  proc_list (table k') = a :: proc_list (table k) ->
  hash_list (table k') =
    <[Z.to_nat (pid_hashfn i) := a :: bucket (hash_list (table k)) (pid_hashfn i)]> (hash_list (table k)) ->
  nr_process (table k') = nr_process (table k) + 1 ->
  table_inv k'.
Proof.
  intros [Hnd Hn Hid Hp Hpd Hr Hs Hh Hhd Hc] Ha H0 Hi Hip Hid' Hpa Hpida Hold Hl Hhl Hnr.
  unfold everyone in Ha. apply not_elem_of_cons in Ha as [Hai Hal].
  assert (Hrange := hash_range i).
  assert (Hlen : (Z.to_nat (pid_hashfn i) < length (hash_list (table k)))%nat) by lia.
  assert (Hpids : pids k' = i :: pids k).
  { unfold pids. rewrite Hl. simpl. rewrite Hpida. f_equal. apply list_fmap_ext.
    intros j b Hb. apply list_elem_of_lookup_2 in Hb. by destruct (Hold b Hb). }
  split; rewrite ?Hl, ?Hhl, ?Hid', ?Hpids, ?length_insert; try done.
  - by constructor.
  - apply not_elem_of_cons. by split.
  - apply not_elem_of_cons. by split.
  - intros b [->|Hb]%elem_of_cons; [done|by destruct (Hold b Hb)].
  - by constructor.
  - intros b [->|Hb]%elem_of_cons; [by rewrite Hpida|].
    destruct (Hold b Hb) as [_ ->]. by apply Hr.
  - intros j b. rewrite bucket_insert by done. intros Hb. apply elem_of_cons.
    case_decide; [|right; by eapply Hh]. apply elem_of_cons in Hb as [->|Hb]; [by left|].
    right. by eapply Hh.
  - intros b [->|Hb]%elem_of_cons; rewrite bucket_insert by done.
    + rewrite Hpida, decide_True by done. apply list_elem_of_here.
    + destruct (Hold b Hb) as [_ ->]. specialize (Hhd b Hb). case_decide as He; [|done].
      apply elem_of_cons. right. unfold bucket in *. by rewrite He in Hhd.
  - rewrite Hnr, Hc. simpl. lia.
Qed.

(** The state after [hash_proc]. *)
Definition hashed (k : ks) (a i : Z) : ks :=
  set_table (mk_pt (proc_list (table k))
    (<[Z.to_nat (pid_hashfn i) := a :: bucket (hash_list (table k)) (pid_hashfn i)]> (hash_list (table k)))
    (nr_process (table k)) (next_safe (table k)) (last_pid (table k))) k.

Lemma hash_proc_eq k a p : procs k !! a = Some p -> hash_proc a k = Ret (tt, hashed k a (pid p)).
Proof. intros Hp. unfold hash_proc. erewrite bind_Ret by (by apply load_proc_eq). done. Qed.

(** The new process is runnable and everything else is as it was. *)
Record entered (k : ks) (fam : Z -> list Z) (a i : Z) (t : trapframe) (k' : ks) : Prop := {
  en_inv : proc_inv k' (add_child fam (current k) a);
  en_pid : pid_of k' a = i;
  en_fresh : i ∉ pids k;
  en_range : 1 <= i < MAX_PID;
  en_list : proc_list (table k') = a :: proc_list (table k);
  en_run : runnable k' a;
  en_frame : exists p, procs k' !! a = Some p /\ frames k' !! tf p = Some t /\
    (forall f, f <> tf p -> frames k' !! f = frames k !! f);
  en_current : current k' = current k /\ idleproc k' = idleproc k /\ initproc k' = initproc k;
  en_others b p : procs k !! b = Some p -> exists p', procs k' !! b = Some p' /\ body p' = body p;
  en_objects : timers k' = timers k /\ timer_list k' = timer_list k /\ waits k' = waits k /\
    queues k' = queues k /\ sems k' = sems k
}.

Lemma enter_process_eq k fam a p fr t cur :
  proc_inv k fam -> procs k !! a = None -> a <> NULL ->
  state p = PROC_UNINIT -> link p = mk_links (current k) NULL NULL NULL ->
  nr_process (table k) < MAX_PROCESS -> fr !! tf p = Some t -> (forall f, f <> tf p -> fr !! f = frames k !! f) ->
  procs k !! current k = Some cur -> state cur <> PROC_ZOMBIE ->
  exists i k', enter_process a (set_frames fr (emb k a p)) = Ret (i, k') /\ entered k fam a i t k'.
Proof.
  intros [Hsch Htab Hwin Htree Hborn Hdom Hcur Hid0 Hzom Hroot] Hna Ha0 Hst Hlk Hnr Hfr Hfo Hpc Hcz.
  assert (Ha : a ∉ everyone k) by (intros Hin; apply Hdom in Hin; rewrite Hna in Hin; by destruct Hin).
  set (k0 := set_frames fr (emb k a p)).
  assert (Hne : forall b, b ∈ everyone k -> b <> a) by (intros b Hb ->; done).
  assert (Hlook : forall b, b <> a -> procs k0 !! b = procs k !! b)
    by (intros b Hb; simpl; by rewrite lookup_insert_ne).
  assert (Hlist : forall b, b ∈ proc_list (table k) -> b ∈ everyone k) by (intros; by apply elem_of_cons; right).
  assert (Hpid0 : forall b, b ∈ proc_list (table k) -> pid_of k0 b = pid_of k b).
  { intros b Hb. unfold pid_of. by rewrite Hlook by auto. }
  assert (Hpids0 : pids k0 = pids k).
  { unfold pids. apply list_fmap_ext. intros j b Hb%list_elem_of_lookup_2. by apply Hpid0. }
  destruct (get_pid_eq k0) as (i & safe & Hgp & Hi & Hfresh & Hwin1).
  { intros b Hb. rewrite Hlook by auto. by apply (ti_present k Htab). }
  { destruct Hwin as [H1 H2 H3]. split; try done. intros b Hb. rewrite Hpid0 by done. by apply H3. }
  { rewrite (ti_count k Htab) in Hnr. simpl. unfold MAX_PID. lia. }
  rewrite Hpids0 in Hfresh.
  unfold enter_process. rewrite (bind_Ret _ _ _ _ _ Hgp).
  set (k1 := with_pids k0 safe i) in *. set (k2 := set_procs (<[a := with_pid i p]> (procs k)) k1).
  assert (Hup : update_proc a (with_pid i) k1 = Ret (tt, k2)).
  { rewrite (update_proc_eq k1 a p) by (simpl; apply lookup_insert_eq). simpl.
    by rewrite insert_insert_eq. }
  rewrite (bind_Ret _ _ _ _ _ Hup). set (k3 := hashed k2 a i).
  assert (Hhp : hash_proc a k2 = Ret (tt, k3)).
  { apply (hash_proc_eq k2 a (with_pid i p)). simpl. apply lookup_insert_eq. }
  rewrite (bind_Ret _ _ _ _ _ Hhp).
  assert (Hp3 : procs k3 !! a = Some (with_pid i p)) by (simpl; apply lookup_insert_eq).
  assert (Hpar : parent p = current k) by (change (l_parent (link p) = current k); by rewrite Hlk).
  assert (Hlks3 : lks k3 = <[a := mk_links (current k) NULL NULL NULL]> (lks k)).
  { unfold lks. simpl. rewrite fmap_insert. by rewrite <- Hlk. }
  assert (Htr := linked_tree _ _ _ _ a Htree Hcur Ha Ha0).
  assert (Hcc : is_Some (procs k !! current k)) by (by apply Hdom).
  destruct (set_links_eq k3 a (with_pid i p) (fam (current k))) as (m & Hsl & Hml & Hmb).
  { done. } { simpl. rewrite Hpar, lookup_insert_ne by (intros He; by apply (Hne _ Hcur)). done. }
  { simpl. rewrite Hpar. intros He. by apply (Hne _ Hcur). }
  { simpl. rewrite Hpar, Hlks3. destruct Htree as [Hf Hc]. apply (family_ext (lks k)); [|by apply Hf].
    intros c [->|Hc']%elem_of_cons; rewrite lookup_insert_ne; try done;
      intros He; subst; [by apply (Hne _ Hcur)|by eapply Ha, (Hc (current k))]. }
  { destruct Htree as [_ Hc]. intros Hin. by eapply Ha, (Hc (current k)). }
  rewrite (bind_Ret _ _ _ _ _ Hsl). set (k4 := set_table _ (set_procs m k3)).
  destruct (view_lookup body _ m a _ Hmb Hp3) as (p4 & Hp4 & Hb4).
  assert (Hst4 : state p4 = PROC_UNINIT).
  { change (state (body p4) = PROC_UNINIT). by rewrite Hb4. }
  assert (Hsch4 : sched_inv k4).
  { apply (sched_inv_view k3); try done; [|by apply body_view].
    destruct Hsch as [S1 S2 S3 S4 S5]. unfold everyone in *.
    assert (Hr3 : forall b, runnable k3 b <-> runnable k b).
    { intros b. unfold runnable. simpl. destruct (decide (b = a)) as [->|].
      - rewrite lookup_insert_eq, Hna. split; [|by intros (q & ? & _)].
        intros (q & Hq & Hs). injection Hq as <-. simpl in Hs. congruence.
      - by rewrite lookup_insert_ne. }
    split; simpl; try done.
    - intros b. by rewrite Hr3.
    - rewrite lookup_insert_ne; [done|]. intros He. by apply (Hne _ Hcur).
    - by apply Hr3. }
  destruct (wakeup_inv k4 a p4 Hsch4 Hp4) as (k5 & Hwu & Hwk); [by rewrite Hst4|].
  rewrite (bind_Ret _ _ _ _ _ Hwu). assert (Hwk' := Hwk).
  destruct Hwk' as (Hsch5 & Hrun5 & Hc5 & Hi5 & Ht5 & Htl5 & Hq5 & Hw5 & Hs5 & Htb5 & _ & Ho5 & (p5 & Hp5 & Hsp5) & Hf5 & Hin5 & _).
  assert (Hpid5 : pid p5 = i).
  { rewrite (same_proc_field pid _ p5 (fun q => eq_refl) Hsp5).
    case_decide; change (pid (body p4) = i); by rewrite Hb4. }
  erewrite bind_Ret by (by apply load_proc_eq). rewrite Hpid5.
  exists i, k5. split; [done|]. clear Hgp Hup Hhp Hsl Hwu.
  assert (Hold : forall b q, procs k !! b = Some q -> exists q', procs k5 !! b = Some q' /\ body q' = body q).
  { intros b q Hq. assert (b <> a) by (intros ->; congruence). rewrite Ho5 by done. simpl.
    apply (view_lookup body (procs k3) m); [done|]. simpl. by rewrite lookup_insert_ne. }
  assert (Hpid_a : pid_of k5 a = i) by (unfold pid_of; by rewrite Hp5).
  assert (Hold' : forall b, b ∈ proc_list (table k) -> is_Some (procs k5 !! b) /\ pid_of k5 b = pid_of k b).
  { intros b Hb. destruct (ti_present k Htab b Hb) as [q Hq].
    destruct (Hold b q Hq) as (q' & Hq' & Hbq). split; [eauto|]. unfold pid_of. rewrite Hq, Hq'. simpl.
    change (pid (body q') = pid (body q)). by rewrite Hbq. }
  assert (Hev : everyone k5 ≡ₚ a :: everyone k).
  { unfold everyone. rewrite Htb5, Hi5. simpl. apply perm_swap. }
  assert (Hevin : forall b, b ∈ everyone k5 <-> b = a \/ b ∈ everyone k).
  { intros b. rewrite Hev. apply elem_of_cons. }
  assert (Hl5 : lks k5 = linked (<[a := mk_links (current k) NULL NULL NULL]> (lks k)) (current k) a (fam (current k))).
  { transitivity (link <$> procs k4); [by apply (woken_view link k4 a p4)|]. simpl. rewrite Hml, Hlks3.
    simpl. by rewrite Hpar. }
  split; try done.
  - split; try done.
    + apply (table_inv_enter k k5 a i); rewrite ?Htb5; try done.
    + destruct Hwin1 as [W1 W2 W3]. split; rewrite ?Htb5; simpl.
      * lia.
      * done.
      * intros b [->|Hb]%elem_of_cons; [left; rewrite Hpid_a; lia|].
        destruct (Hold' b Hb) as [_ ->]. rewrite <- Hpid0 by done. by apply W3.
    + rewrite Hl5. destruct Htr as [Hf Hc]. split.
      * intros b Hb. apply Hf. apply elem_of_cons. by apply Hevin.
      * intros b c Hb Hcb. apply Hevin, elem_of_cons. eapply Hc; [|done]. by apply elem_of_cons, Hevin.
    + intros b Hb. rewrite Htb5 in Hb. simpl in Hb. apply elem_of_cons in Hb as [->|Hb].
      * exists (current k). split; [apply Hevin; by right|]. unfold add_child. rewrite decide_True by done.
        apply list_elem_of_here.
      * destruct (Hborn b Hb) as (q & Hq & Hbq). exists q. split; [apply Hevin; by right|].
        unfold add_child. destruct (decide (q = current k)) as [->|]; [by apply list_elem_of_further|].
        rewrite decide_False; [done|]. by apply Hne.
    + intros b. rewrite Hevin. destruct (decide (b = a)) as [->|Hba]; [rewrite Hp5; split; [by left|by eexists]|].
      rewrite Ho5 by done. simpl. split.
      * intros [q Hq]. right. apply Hdom.
        destruct (view_lookup body m (procs k3) b q (eq_sym Hmb) Hq) as (q' & Hq' & _). simpl in Hq'.
        rewrite lookup_insert_ne in Hq' by done. eauto.
      * intros [->|Hb]; [done|]. apply Hdom in Hb as [q Hq].
        destruct (view_lookup body (procs k3) m b q Hmb) as (q' & Hq' & _);
          [simpl; by rewrite lookup_insert_ne|eauto].
    + rewrite Hc5. apply Hevin. by right.
    + by rewrite Hi5.
    + intros b q Hq Hz. destruct (decide (b = a)) as [->|Hba].
      { destruct Hrun5 as (q' & ? & ?). congruence. }
      assert (Hb : b ∈ everyone k).
      { assert (Hin : is_Some (procs k5 !! b)) by eauto. rewrite Ho5 in Hin by done. destruct Hin as [q4 Hq4].
        destruct (view_lookup body m (procs k3) b q4 (eq_sym Hmb) Hq4) as (q' & Hq' & _). simpl in Hq'.
        rewrite lookup_insert_ne in Hq' by done. apply Hdom. eauto. }
      apply Hdom in Hb as [q0 Hq0]. destruct (Hold b q0 Hq0) as (q' & Hq' & Hbq).
      assert (Hsq : state q0 = PROC_ZOMBIE).
      { change (state (body q0) = PROC_ZOMBIE). rewrite <- Hbq. simpl. congruence. }
      unfold add_child. destruct (decide (b = current k)) as [->|]; [congruence|].
      rewrite decide_False by done. by apply (Hzom b q0).
    + intros q Hq. rewrite Hi5. simpl. unfold add_child.
      destruct (decide (q = current k)) as [->|].
      { intros [He|Hin]%elem_of_cons; [|by apply (Hroot (current k))].
        apply Ha. rewrite <- He. apply list_elem_of_here. }
      destruct (decide (q = a)); [by apply not_elem_of_nil|]. apply Hroot. by apply Hevin in Hq as [->|?].
  - by rewrite Htb5.
  - exists p5. assert (Htf : tf p5 = tf p).
    { rewrite (same_proc_field tf _ p5 (fun q => eq_refl) Hsp5).
      replace (tf (if decide (state p4 = PROC_RUNNABLE) then _ else _)) with (tf p4) by (by case_decide).
      change (tf p4) with (tf (body p4)). by rewrite Hb4. }
    by rewrite Hf5, Htf.
Qed.

Section ForkTheorem.
  Context {R : Type} `{Resources R} (owned : R -> Z -> Prop) `{!ResourceLaws owned} (sy : symbols).

(** Every descriptor is a block in use. *)
Definition held (s : sys R) : Prop := forall a, is_Some (procs (kst s) !! a) -> owned (rst s) a.

Lemma alloc_proc_wp k r a r1 :
  kmalloc_proc r = Ret (a, r1) -> a <> NULL -> grows owned r r1 ->
  wp (alloc_proc sy) (fun v s' => v = a /\ exists p r', s' = mk_sys (emb k a p) r' /\
       link p = mk_links NULL NULL NULL NULL /\ state p = PROC_UNINIT /\ grows owned r1 r')
     (mk_sys k r).
Proof.
  intros Hk Ha Hg. unfold alloc_proc. apply wp_bind. exists a, (mk_sys k r1). unfold inR at 1. simpl.
  rewrite Hk. split; [done|]. replace (a =? NULL) with false by lia. cbn [negb when].
  apply wp_bind, wp_bind. apply (wp_quiet owned); [apply law_files_create|]. intros f r' Hr'.
  eapply wp_inK; [done|]. apply wp_ret. split; [done|]. eexists _, r'. split; [done|]. done.
Qed.

(** The steps of [do_fork] that fail undo what was done: nothing but free
    blocks of memory tells the outcome from the start. *)
Lemma rollback_wp k a p r0 r :
  procs k !! a = None -> ~ owned r0 a -> grows owned r0 r ->
  wp (free_proc a;; mret (- E_NO_MEM))
     (fun v s' => v = - E_NO_MEM /\ kst s' = k /\ grows owned r0 (rst s')) (mk_sys (emb k a p) r).
Proof.
  intros Hn Ho Hg. apply wp_bind. eapply wp_mono; [by apply (free_proc_wp owned)|].
  intros _ s' [Hk Hx]. apply wp_ret. split; [done|]. split; [done|].
  intros x Hox. apply Hx; [congruence|by apply Hg].
Qed.

(** What [do_fork] comes to: an error and the state as it was, or a child. *)
Definition fork_post (k : ks) (fam : Z -> list Z) (r : R) (a : Z) (t : trapframe) (v : Z) (s' : sys R) : Prop :=
  ((v = - E_NO_MEM \/ v = - E_NO_FREE_PROC) /\ kst s' = k /\ grows owned r (rst s')) \/
  (entered k fam a v t (kst s') /\ grows owned r (rst s') /\ owned (rst s') a).

Lemma fork_steps_wp k fam a p r0 r flags stack t cur :
  proc_inv k fam -> procs k !! a = None -> a <> NULL -> ~ owned r0 a -> grows owned r0 r -> owned r a ->
  procs k !! current k = Some cur -> filesp cur <> NULL -> state cur <> PROC_ZOMBIE ->
  state p = PROC_UNINIT -> link p = mk_links (current k) NULL NULL NULL ->
  nr_process (table k) < MAX_PROCESS ->
  returns_or (copy_stops flags cur) (r ← setup_kstack a;
      if negb (r =? 0) then free_proc a;; mret (- E_NO_MEM) else
      r ← copy_mm flags a;
      if negb (r =? 0) then put_kstack a;; free_proc a;; mret (- E_NO_MEM) else
      r ← copy_files flags a;
      if negb (r =? 0) then put_files a;; put_kstack a;; free_proc a;; mret (- E_NO_MEM) else
      copy_thread sy a stack t;;
      inK (enter_process a))
     (fork_post k fam r0 a (child_frame stack t)) (mk_sys (emb k a p) r).
Proof.
  intros Hi Hn H0 Ho Hg Hoa Hc Hf Hcz Hst Hlk Hnr.
  assert (Hac : a <> current k) by (intros ->; congruence).
  assert (Hfail : forall v s', v = - E_NO_MEM /\ kst s' = k /\ grows owned r0 (rst s') ->
                               fork_post k fam r0 a (child_frame stack t) v s').
  { intros v s' (-> & ? & ?). left. split_and!; [by left|done|done]. }
  apply ro_bind, ro_wp. eapply wp_mono; [apply (setup_kstack_wp owned)|].
  intros v1 s1 (p1 & r1 & -> & [Hl1 Hs1] & Hg1). assert (Hg1' := grows_trans owned _ _ _ Hg Hg1).
  destruct (negb _); [apply ro_wp; by eapply wp_mono; [apply rollback_wp|]|].
  apply ro_bind. eapply ro_mono; [by eapply (copy_mm_wp owned)|].
  intros v2 s2 (p2 & r2 & -> & [Hl2 Hs2] & Hg2). assert (Hg2' := grows_trans owned _ _ _ Hg1' Hg2). apply ro_wp.
  destruct (negb _).
  { apply wp_bind. eapply wp_mono; [apply (put_kstack_wp owned)|].
    intros ? ? (p3 & r3 & -> & _ & Hg3). assert (Hg3' := grows_trans owned _ _ _ Hg2' Hg3).
    by eapply wp_mono; [apply rollback_wp|]. }
  apply wp_bind. eapply wp_mono; [by eapply (copy_files_wp owned)|].
  intros v3 s3 (p3 & r3 & -> & [Hl3 Hs3] & Hg3). assert (Hg3' := grows_trans owned _ _ _ Hg2' Hg3).
  destruct (negb _).
  { apply wp_bind. eapply wp_mono; [apply (put_files_wp owned)|].
    intros ? ? (p4 & r4 & -> & _ & Hg4). assert (Hg4' := grows_trans owned _ _ _ Hg3' Hg4).
    apply wp_bind. eapply wp_mono; [apply (put_kstack_wp owned)|].
    intros ? ? (p5 & r5 & -> & _ & Hg5). assert (Hg5' := grows_trans owned _ _ _ Hg4' Hg5).
    by eapply wp_mono; [apply rollback_wp|]. }
  apply wp_bind. eapply wp_mono; [apply copy_thread_wp|].
  intros ? ? (p4 & fr & -> & [Hl4 Hs4] & Hfr & Hfo).
  destruct (enter_process_eq k fam a p4 fr (child_frame stack t) cur) as (i & k' & He & Hen);
    [done|done|done|congruence|congruence|done|done|done|done|done|].
  eapply wp_inK; [exact He|]. right. split; [done|]. split; [done|]. by apply Hg3, Hg2, Hg1.
Qed.

Lemma do_fork_eq (s : sys R) (fam : Z -> list Z) (flags stack : Z) (t : trapframe) (cur : proc)
    (a : Z) (r1 : R) :
  proc_inv (kst s) fam -> held s ->
  procs (kst s) !! current (kst s) = Some cur -> state cur <> PROC_ZOMBIE ->
  wait_state cur = 0 -> filesp cur <> NULL ->
  kmalloc_proc (rst s) = Ret (a, r1) -> a <> NULL ->
  (exists v s', do_fork sy flags stack t s = Ret (v, s') /\ held s' /\
    ((v < 0 /\ kst s' = kst s) \/
     (entered (kst s) fam a v (child_frame stack t) (kst s') /\
      procs (kst s) !! a = None /\ find_proc v (kst s') = Ret (a, kst s')))) \/
  (stops (do_fork sy flags stack t s) /\ copy_stops flags cur).
Proof.
  intros Hi Hh Hc Hcz Hw Hf Hk Ha. destruct (law_kmalloc (rst s)) as (a' & r' & Hk' & Hg & Hfr).
  rewrite Hk in Hk'. injection Hk' as <- <-. destruct (Hfr Ha) as [Hno Hoa].
  assert (Hna : procs (kst s) !! a = None).
  { destruct (procs (kst s) !! a) eqn:E; [|done]. destruct Hno. apply Hh. by rewrite E. }
  assert (Hwp : returns_or (copy_stops flags cur) (do_fork sy flags stack t)
     (fork_post (kst s) fam (rst s) a (child_frame stack t)) s).
  { unfold do_fork. apply ro_bind, ro_wp, wp_get. destruct (Z.leb_spec MAX_PROCESS (nr_process (table (kst s)))).
    { apply ro_wp, wp_ret. left. split_and!; [by right|done|by unfold grows]. }
    apply ro_bind, ro_wp. destruct s as [k r]. simpl in *. eapply wp_mono; [by eapply alloc_proc_wp|].
    intros v s' (-> & p & r2 & -> & Hlk & Hst & Hg2). simpl.
    assert (Hac : a <> current k) by congruence.
    apply ro_bind, ro_wp. eapply wp_inK; [by apply load_emb|]. rewrite Hw. simpl. apply ro_bind, ro_wp, wp_ret.
    apply ro_bind, ro_wp. eapply wp_inK; [apply update_emb|].
    assert (Hg' := grows_trans owned _ _ _ Hg Hg2).
    eapply (fork_steps_wp k fam a _ r r2); try done; [by apply Hg2|].
    destruct p. simpl in *. unfold link in *. simpl in *. congruence. }
  destruct Hwp as [(v & s' & Hr & Hp)|Hs]; [left|by right]. exists v, s'. split; [done|].
  destruct Hp as [(Hv & Hks & Hgr)|(Hen & Hgr & Hoa')].
  - split; [intros b; rewrite Hks; intros Hb; by apply Hgr, Hh|]. left.
    split; [destruct Hv as [-> | ->]; done|done].
  - assert (Hev : forall b, b ∈ everyone (kst s') <-> b = a \/ b ∈ everyone (kst s)).
    { intros b. unfold everyone. rewrite (en_list _ _ _ _ _ _ Hen).
      destruct (en_current _ _ _ _ _ _ Hen) as (_ & -> & _). rewrite !elem_of_cons. tauto. }
    assert (Hinv := en_inv _ _ _ _ _ _ Hen). split.
    { intros b Hb. apply (pi_dom _ _ Hinv), Hev in Hb as [->|Hb]; [done|].
      apply Hgr, Hh. by apply (pi_dom _ _ Hi). }
    right. split_and!; try done.
    destruct (find_proc_eq (kst s') v (pi_table _ _ Hinv)) as (b & Hb & Hcase).
    assert (Hnm : named (kst s') v a).
    { split; [rewrite (en_list _ _ _ _ _ _ Hen); apply list_elem_of_here|apply Hen]. }
    destruct Hcase as [[_ Hnin]|Hb'].
    + destruct Hnin. unfold pids. apply list_elem_of_fmap. exists a. destruct Hnm. by split.
    + rewrite Hb. do 2 f_equal. by eapply named_unique; [apply (pi_table _ _ Hinv)|..].
Qed.

Lemma null_free k fam : proc_inv k fam -> procs k !! NULL = None.
Proof.
  intros Hi. destruct (procs k !! NULL) as [p|] eqn:E; [|done].
  assert (Hin : NULL ∈ everyone k) by (apply (pi_dom _ _ Hi); by rewrite E).
  apply elem_of_cons in Hin as [Hc|Hc]; [by destruct (pi_idle _ _ Hi)|by destruct (ti_null _ (pi_table _ _ Hi))].
Qed.

(** Without a descriptor [do_fork] goes on with the null pointer. *)
Lemma do_fork_null (s : sys R) fam flags stack t cur r1 :
  proc_inv (kst s) fam -> procs (kst s) !! current (kst s) = Some cur -> wait_state cur = 0 ->
  kmalloc_proc (rst s) = Ret (NULL, r1) -> nr_process (table (kst s)) < MAX_PROCESS ->
  do_fork sy flags stack t s = Fault.
Proof.
  intros Hi Hc Hw Hk Hn. unfold do_fork. rewrite (bind_Ret _ _ s s s) by done. cbv zeta.
  replace (MAX_PROCESS <=? nr_process (table (kst s))) with false by lia.
  rewrite (bind_Ret _ _ s NULL (mk_sys (kst s) r1)).
  2: { unfold alloc_proc. rewrite (bind_Ret _ _ s NULL (mk_sys (kst s) r1)); [done|]. unfold inR. by rewrite Hk. }
  rewrite (bind_Ret _ _ _ cur (mk_sys (kst s) r1)).
  2: { unfold inK, load_proc. cbn [kst]. by rewrite Hc. }
  rewrite Hw. rewrite (bind_Ret _ _ _ tt (mk_sys (kst s) r1)) by done.
  unfold mbind at 1, M_bind at 1, inK at 1, update_proc at 1. cbn [kst]. by rewrite (null_free _ _ Hi).
Qed.


End ForkTheorem.

(** ** Witnesses *)

(** The idle process alone, as [proc_init] sets it up before the first fork. *)
Definition boot_proc : proc :=
  mk_proc PROC_RUNNABLE 0 0 0 true NULL NULL (0, 0) NULL 7 0 [] 0 0 NULL NULL NULL 0 0 77.
Definition boot_ks : ks :=
  mk_ks {[ 1 := boot_proc ]} 1 1 NULL (mk_rq [] 0 20) ∅ []
    (mk_pt [] empty_hash 1 MAX_PID MAX_PID) ∅ ∅ ∅ ∅ ∅ 0 7.

Lemma boot_bucket i : bucket (hash_list (table boot_ks)) i = [].
Proof.
  unfold bucket. simpl. unfold empty_hash. destruct (_ !! Z.to_nat i) as [l|] eqn:E; [|done].
  apply list_elem_of_lookup_2, list_elem_of_In, repeat_spec in E. by rewrite E.
Qed.

Lemma boot_procs a p : procs boot_ks !! a = Some p -> a = 1 /\ p = boot_proc.
Proof. simpl. rewrite lookup_singleton_Some. naive_solver. Qed.

Lemma boot_inv : proc_inv boot_ks (fun _ => []).
Proof.
  assert (Hr : forall a, runnable boot_ks a <-> a = 1).
  { intros a. split; [intros (p & Hp & _); by apply boot_procs in Hp as [-> _]|].
    intros ->. by exists boot_proc. }
  split.
  - split; simpl.
    + constructor.
    + intros a. rewrite Hr. set_solver.
    + done.
    + by eexists.
    + by apply Hr.
  - split; simpl.
    + constructor.
    + set_solver.
    + set_solver.
    + intros a Ha. set_solver.
    + constructor.
    + set_solver.
    + by vm_compute.
    + intros i a. change (a ∈ bucket (hash_list (table boot_ks)) i -> a ∈ []). by rewrite boot_bucket.
    + set_solver.
    + done.
  - split; try done. simpl. set_solver.
  - split; [|set_solver]. intros p Hp. apply list_elem_of_singleton in Hp as ->.
    split; [by eexists|]. split_and!; [done|constructor|set_solver|set_solver].
  - simpl. set_solver.
  - intros a. split.
    + intros [p Hp]. apply boot_procs in Hp as [-> _]. set_solver.
    + intros Ha. apply list_elem_of_singleton in Ha as ->. by eexists.
  - set_solver.
  - done.
  - done.
  - set_solver.
Qed.

(** Resources that are never exhausted: descriptors at increasing addresses. *)
#[global] Instance demo_resources : Resources Z := {
  kmalloc_proc := fun r => Ret (r, r + 1);
  kfree_proc := fun _ r => Ret (tt, r);
  alloc_pages := fun _ r => Ret (5, r);
  free_pages := fun _ _ r => Ret (tt, r);
  page2kva := fun p => 0x80000000 + p * 4096;
  kva2page := fun v => (v - 0x80000000) / 4096;
  mm_create := fun r => Ret (6, r);
  mm_destroy := fun _ r => Ret (tt, r);
  setup_pgdir := fun _ r => Ret (0, r);
  put_pgdir := fun _ r => Ret (tt, r);
  mm_pgdir := fun _ r => Ret (7, r);
  lock_mm := fun _ r => Ret (tt, r);
  unlock_mm := fun _ r => Ret (tt, r);
  dup_mmap := fun _ _ r => Ret (0, r);
  exit_mmap := fun _ r => Ret (tt, r);
  mm_count_inc := fun _ r => Ret (tt, r);
  mm_count_dec := fun _ r => Ret (0, r);
  files_create := fun r => Ret (77, r);
  files_destroy := fun _ r => Ret (tt, r);
  files_count_inc := fun _ r => Ret (tt, r);
  files_count_dec := fun _ r => Ret (0, r);
  dup_files := fun _ _ r => Ret (0, r);
  user_mem_check := fun _ _ _ _ r => Ret (true, r);
  store_int := fun _ _ r => Ret (tt, r)
}.

Definition demo_owned (r a : Z) : Prop := a < r.

#[global] Instance demo_laws : ResourceLaws demo_owned.
Proof.
  split.
  { intros r. exists r, (r + 1). unfold grows, demo_owned. split; [done|]. split; intros; lia. }
  { intros a r. exists r. split; [done|]. auto. }
  all: intros; unfold quiet; intros; try left; eexists _, _; split; try reflexivity; by unfold grows.
Qed.

Definition demo_symbols : symbols := mk_symbols 7 0x80001000 0x80002000 0x80003000 0x80004000 0.
Definition demo_tf : trapframe := mk_tf (repeat 1 32) 0 0 0x1000 0 0 0.


Lemma get_pid_fresh_witness :
  exists i k', get_pid boot_ks = Ret (i, k') /\ 1 <= i < MAX_PID /\ last_pid (table k') = i.
Proof.
  destruct (get_pid_fresh boot_ks) as (i & k' & Hr & Hi & _ & _ & Hl & _).
  - apply (ti_present _ (pi_table _ _ boot_inv)).
  - apply (pi_window _ _ boot_inv).
  - done.
  - by exists i, k'.
Defined.

Lemma find_proc_refines_witness :
  exists k i r, find_proc i k = Ret (r, k) /\ r = 100 /\ named k i 100.
Proof.
  destruct (enter_process_eq boot_ks (fun _ => []) 100
    (mk_proc PROC_UNINIT 0 0 0 false 1 NULL (0, 0) 5 7 0 [] 0 0 NULL NULL NULL 0 0 77)
    {[ 5 := demo_tf ]} demo_tf boot_proc boot_inv) as (i & k & _ & Hen); try done.
  { intros f Hf. simpl in *. by rewrite lookup_singleton_ne. }
  assert (Hn : named k i 100).
  { split; [rewrite (en_list _ _ _ _ _ _ Hen); apply list_elem_of_here|apply Hen]. }
  destruct (find_proc_refines k i (pi_table _ _ (en_inv _ _ _ _ _ _ Hen))) as (r & Hr & Hu & _).
  exists k, i, r. split_and!; [done|by destruct (proj1 (Hu 100) Hn)|done].
Defined.

End ForkSpec.
