(* ===== verification/ExitSpec.v ===== *)
(** What [do_exit] and [do_wait] promise: the children of an exiting process go
    to the init process, its parent is woken, and waiting reaps exactly one
    zombie child (src/ucore_OS/kern/process/proc.c). *)

From S2P Require Import Prelude Proc ProcSpec Process Family ProcessSpec ForkSpec.

Module ExitSpec.
Import Proc ProcSpec Process Family ProcessSpec ForkSpec.

(** ** Adoption *)

Lemma lks_lookup k a x : lks k !! a = Some x -> exists p, procs k !! a = Some p /\ link p = x.
Proof.
  unfold lks. rewrite lookup_fmap. destruct (procs k !! a) as [p|]; [|done]. simpl.
  intros Hx. injection Hx as <-. by exists p.
Qed.

Lemma adopt_eq k a rest li :
  orphans (lks k) (current k) (a :: rest) -> family (lks k) (initproc k) li ->
  current k <> initproc k -> initproc k ∉ a :: rest ->
  exists m, adopt a k = Ret (tt, set_procs m k) /\
    link <$> m = adopted (lks k) (current k) (initproc k) a rest li /\ body <$> m = body <$> procs k.
Proof.
  intros Ho Hi Hci Hic. destruct (adopt_facts _ _ _ _ _ _ Ho Hi Hci Hic) as (H1 & H2 & H3 & Hd).
  destruct Ho as ((xc & Hxc & _) & (y & [(xa & Hxa & _ & _ & Hoa) _]) & _).
  destruct (family_cptr _ _ _ Hi) as (xi & Hxi & Hcpi).
  destruct (lks_lookup _ _ _ Hxc) as (pc & Hpc & _). destruct (lks_lookup _ _ _ Hxa) as (pa & Hpa & <-).
  destruct (lks_lookup _ _ _ Hxi) as (pi & Hpi & <-). simpl in Hoa, Hcpi.
  unfold adopt. erewrite bind_Ret by done. erewrite bind_Ret by (by apply load_proc_eq).
  rewrite Hoa. erewrite bind_Ret by (apply update_proc_alter; by rewrite Hpc).
  erewrite bind_Ret by (apply update_proc_alter; simpl; by rewrite lookup_alter_ne, Hpa). cbn [procs set_procs].
  erewrite bind_Ret by (apply load_proc_eq; simpl; by rewrite !lookup_alter_ne). rewrite Hcpi.
  erewrite bind_Ret by (apply update_proc_alter; simpl; by rewrite lookup_alter_eq, lookup_alter_ne, Hpa).
  cbn [procs set_procs].
  set (m1 := alter (with_optr (hd NULL li)) a (alter (with_yptr NULL) a (alter (with_cptr (hd NULL rest)) (current k) (procs k)))).
  assert (Hm1a : exists p, m1 !! a = Some p).
  { unfold m1. rewrite !lookup_alter_eq, lookup_alter_ne, Hpa by done. by eexists. }
  assert (Hm1i : m1 !! initproc k = Some pi) by (unfold m1; by rewrite !lookup_alter_ne).
  assert (Hm2 : exists m2, when (negb (hd NULL li =? NULL)) (update_proc (hd NULL li) (with_yptr a)) (set_procs m1 k)
      = Ret (tt, set_procs m2 k) /\ is_Some (m2 !! a) /\ is_Some (m2 !! initproc k) /\
      body <$> m2 = body <$> m1 /\
      link <$> m2 = match li with [] => fun m => m | c :: _ => alter (l_set_yptr a) c end (link <$> m1)).
  { destruct Hi as (_ & Hs & _ & Hnl & Hil). destruct li as [|d li]; cbn [hd].
    - exists m1. split; [done|]. split; [by destruct Hm1a as (? & ->)|]. by rewrite Hm1i.
    - assert (Hd0 : d <> NULL) by set_solver. replace (d =? NULL) with false by lia.
      assert (Hda : d <> a) by (intros ->; apply (Hd a); set_solver).
      destruct (sibs_elem _ _ _ _ _ d Hs) as (xd & Hxd & _); [set_solver|].
      destruct (lks_lookup _ _ _ Hxd) as (pd & Hpd & _).
      assert (Hm1d : is_Some (m1 !! d)).
      { unfold m1. rewrite !(lookup_alter_ne _ _ a) by done.
        destruct (decide (d = current k)) as [->|]; [rewrite lookup_alter_eq, Hpd|rewrite lookup_alter_ne, Hpd by done]; by eexists. }
      exists (alter (with_yptr a) d m1). cbn [negb when]. split; [by rewrite update_proc_alter|].
      rewrite !lookup_alter_ne by set_solver. rewrite Hm1i. split; [by destruct Hm1a as (? & ->)|].
      split; [by eexists|]. split; [by apply view_alter_id|by apply view_alter]. }
  destruct Hm2 as (m2 & Hr2 & Ha2 & Hi2 & Hb2 & Hl2). rewrite (bind_Ret _ _ _ _ _ Hr2).
  erewrite bind_Ret by (by apply update_proc_alter).
  erewrite update_proc_alter by (simpl; by rewrite lookup_alter_ne).
  eexists. split; [done|]. cbn [procs set_procs]. split.
  - rewrite (view_alter link _ (l_set_cptr a)), (view_alter link _ (l_set_parent (initproc k))) by done.
    rewrite Hl2. unfold adopted, m1.
    by rewrite (view_alter link _ (l_set_optr (hd NULL li))), (view_alter link _ (l_set_yptr NULL)),
      (view_alter link _ (l_set_cptr (hd NULL rest))).
  - rewrite !view_alter_id, Hb2 by done. unfold m1. by rewrite !view_alter_id.
Qed.

(** A descriptor without its links, its scheduling state and its accounting. *)
Definition inner (p : proc) : proc := with_state PROC_UNINIT (with_wait_state 0 (core_of (body p))).

(** What the loop leaves alone: apart from links, only the init process may
    change, by being woken. *)
Record settled (k k' : ks) : Prop := {
  se_inner : inner <$> procs k' = inner <$> procs k;
  se_body b : b <> initproc k -> body <$> procs k' !! b = body <$> procs k !! b;
  se_vars : current k' = current k /\ idleproc k' = idleproc k /\ initproc k' = initproc k /\
    table k' = table k /\ timers k' = timers k /\ timer_list k' = timer_list k;
  se_sync : waits k' = waits k /\ queues k' = queues k /\ sems k' = sems k;
  se_regs : frames k' = frames k /\ kstack_sp k' = kstack_sp k /\ loaded_pgdir k' = loaded_pgdir k
}.

Lemma settled_trans k1 k2 k3 : settled k1 k2 -> settled k2 k3 -> settled k1 k3.
Proof.
  intros [I1 B1 (V1 & V2 & V3 & V4 & V5 & V6) (S1 & S2 & S3) (G1 & G2 & G3)]
    [I2 B2 (W1 & W2 & W3 & W4 & W5 & W6) (T1 & T2 & T3) (U1 & U2 & U3)].
  split; [congruence| |split_and!; congruence..].
  intros b Hb. rewrite B2, B1; [done|done|congruence].
Qed.

Definition alive (k : ks) (a : Z) : Prop := exists p, procs k !! a = Some p /\ state p <> PROC_ZOMBIE.

Lemma settled_links k m : body <$> m = body <$> procs k -> settled k (set_procs m k).
Proof.
  intros Hb. split; try done.
  - by apply body_view.
  - intros b _. simpl. by rewrite <- !lookup_fmap, Hb.
Qed.

Lemma settled_woken k p k' :
  procs k !! initproc k = Some p -> woken k (initproc k) p k' -> settled k k'.
Proof.
  intros Hp Hw. assert (Hi := woken_view inner k _ p k' (fun q => eq_refl) (fun q => eq_refl) Hp Hw).
  destruct Hw as (_ & _ & ? & ? & ? & ? & ? & ? & ? & ? & _ & Ho & _ & ? & ? & ? & ? & _).
  split; try done. intros b Hb. by rewrite Ho.
Qed.

Lemma notify_init_eq k a :
  sched_inv k -> alive k (initproc k) -> is_Some (procs k !! a) ->
  exists k', notify_init a k = Ret (tt, k') /\ sched_inv k' /\ lks k' = lks k /\ settled k k' /\
    alive k' (initproc k) /\ (forall b, runnable k b -> runnable k' b).
Proof.
  intros Hs (pi & Hpi & Hz) [p Hp]. unfold notify_init. erewrite bind_Ret by done.
  erewrite bind_Ret by (by apply load_proc_eq).
  assert (Hstay : exists k', Ret (tt, k) = Ret (tt, k') /\ sched_inv k' /\ lks k' = lks k /\ settled k k' /\
    alive k' (initproc k) /\ (forall b, runnable k b -> runnable k' b)).
  { exists k. split_and!; try done. by exists pi. }
  case_bool_decide; [|exact Hstay]. cbn [when].
  erewrite bind_Ret by (by apply load_proc_eq). destruct (_ =? _); [|exact Hstay]. cbn [when].
  destruct (wakeup_inv k (initproc k) pi Hs Hpi Hz) as (k' & Hk & Hw). exists k'. split; [done|].
  split; [apply Hw|]. split; [by apply (woken_view link k (initproc k) pi)|].
  split; [by eapply settled_woken|]. split; [|intros b; by apply (runnable_woken k (initproc k) pi)].
  destruct Hw as (_ & (q & Hq & Hr) & _). exists q. split; [done|congruence].
Qed.

Lemma reparent_eq l k fuel li :
  sched_inv k -> orphans (lks k) (current k) l -> family (lks k) (initproc k) li ->
  current k <> initproc k -> initproc k ∉ l -> alive k (initproc k) -> (length l < fuel)%nat ->
  exists k', reparent fuel k = Ret (tt, k') /\ sched_inv k' /\ settled k k' /\
    orphans (lks k') (current k) [] /\ family (lks k') (initproc k) (rev l ++ li) /\
    (forall q lq, q <> current k -> q <> initproc k -> family (lks k) q lq -> family (lks k') q lq) /\
    alive k' (initproc k) /\ (forall b, runnable k b -> runnable k' b).
Proof.
  revert k fuel li. induction l as [|c l IH]; intros k fuel li Hs Ho Hf Hci Hic Hal Hfuel;
    (destruct fuel as [|fuel]; [simpl in Hfuel; lia|]); cbn [reparent]; erewrite bind_Ret by done.
  - assert (Ho' := Ho). destruct Ho' as ((x & Hx & Hc) & _). apply lks_lookup in Hx as (p & Hp & <-).
    erewrite bind_Ret by (by apply load_proc_eq). simpl in Hc. rewrite Hc.
    exists k. split_and!; try done.
  - assert (Ho' := Ho). destruct Ho' as ((x & Hx & Hc) & _ & _ & Hn & _).
    apply lks_lookup in Hx as (p & Hp & <-). simpl in Hc.
    erewrite bind_Ret by (by apply load_proc_eq). rewrite Hc.
    assert (Hc0 : c <> NULL) by set_solver. replace (c =? NULL) with false by lia.
    destruct (adopt_eq k c l li Ho Hf Hci Hic) as (m & Hm & Hml & Hmb).
    rewrite (bind_Ret _ _ _ _ _ Hm). set (k1 := set_procs m k).
    assert (Hs1 : sched_inv k1) by (apply (sched_inv_view k); try done; by apply body_view).
    assert (Hl1 : lks k1 = adopted (lks k) (current k) (initproc k) c l li) by done.
    assert (Hset1 : settled k k1) by by apply settled_links.
    destruct Hal as (pi & Hpi & Hpz).
    destruct (view_lookup body (procs k) m _ _ Hmb Hpi) as (pi1 & Hpi1 & Hb1).
    assert (Hst1 : state pi1 = state pi) by (change (state (body pi1) = state (body pi)); by rewrite Hb1).
    assert (Hal1 : alive k1 (initproc k1)) by (exists pi1; split; [done|congruence]).
    destruct (orphans_elem _ _ _ c Ho) as (xc & Hxc & _); [set_solver|].
    apply lks_lookup in Hxc as (pc & Hpc & _).
    destruct (view_lookup body (procs k) m _ _ Hmb Hpc) as (pc1 & Hpc1 & _).
    destruct (notify_init_eq k1 c Hs1 Hal1) as (k2 & Hk2 & Hs2 & Hl2 & Hset2 & Hal2 & Hr2); [by exists pc1|].
    rewrite (bind_Ret _ _ _ _ _ Hk2). assert (Hset12 := settled_trans _ _ _ Hset1 Hset2).
    destruct (se_vars _ _ Hset12) as (Hcur & _ & Hini & _).
    destruct (IH k2 fuel (c :: li)) as (k3 & Hk3 & Hs3 & Hset3 & Ho3 & Hf3 & Hq3 & Hal3 & Hr3); try done.
    + rewrite Hl2, Hl1, Hcur. by apply adopted_orphans.
    + rewrite Hl2, Hl1, Hini. by apply adopted_init.
    + congruence.
    + rewrite Hini. set_solver.
    + by rewrite Hini.
    + simpl in Hfuel. lia.
    + rewrite Hcur in Ho3, Hq3. rewrite Hini in Hf3, Hq3, Hal3. exists k3. split; [done|].
      split; [done|]. split; [by eapply settled_trans|]. split; [done|].
      split; [simpl; by rewrite <- app_assoc|]. split; [|split; [done|]].
      * intros q lq Hq1 Hq2 Hfq. apply Hq3; [done|done|]. rewrite Hl2, Hl1. by apply adopted_other.
      * intros b Hb. apply Hr3, Hr2. apply (runnable_view k k1); [by apply body_view|done].
Qed.

(** ** Exit *)

Lemma elem_of_rev (x : Z) l : x ∈ rev l <-> x ∈ l.
Proof. by rewrite !list_elem_of_In, <- in_rev. Qed.

(** The tree after [cur] has given its children to [ini]. *)
Definition move_children (fam : Z -> list Z) (cur ini : Z) : Z -> list Z := fun x =>
  if decide (x = ini) then rev (fam cur) ++ fam ini else if decide (x = cur) then [] else fam x.

Lemma family_length k fam a :
  proc_inv k fam -> a ∈ everyone k -> (length (fam a) <= size (procs k))%nat.
Proof.
  intros Hi Ha. destruct (pi_tree _ _ Hi) as [Hf Hc].
  destruct (Hf a Ha) as (_ & _ & Hnd & _).
  rewrite <- (size_list_to_set (C := gset Z) (fam a) Hnd), <- size_dom.
  apply subseteq_size. intros c Hin. apply elem_of_list_to_set in Hin.
  apply elem_of_dom. apply (pi_dom _ _ Hi). by apply (Hc a).
Qed.

(** The parent of a process is in the tree, and not a zombie. *)
Lemma parent_alive k fam a p :
  proc_inv k fam -> a ∈ proc_list (table k) -> procs k !! a = Some p ->
  parent p ∈ everyone k /\ a ∈ fam (parent p) /\ parent p <> a /\ alive k (parent p).
Proof.
  intros Hi Ha Hp. destruct (pi_born _ _ Hi a Ha) as (q & Hq & Hin).
  destruct (pi_tree _ _ Hi) as [Hf _]. destruct (Hf q Hq) as (_ & Hs & _ & _ & Hqq).
  destruct (sibs_elem _ _ _ _ _ _ Hs Hin) as (x & Hx & Hpx).
  apply lks_lookup in Hx as (p' & Hp' & <-). simpl in Hpx. assert (p' = p) as -> by congruence.
  rewrite Hpx. split_and!; [done|done|congruence|].
  apply (pi_dom _ _ Hi) in Hq as [pq Hpq]. exists pq. split; [done|]. intros Hz.
  rewrite (pi_zombie _ _ Hi q pq Hpq Hz) in Hin. set_solver.
Qed.

(** What the others see of an exit. *)
Record exited (k : ks) (fam : Z -> list Z) (code : Z) (k' : ks) : Prop := {
  ex_inv : proc_inv k' (move_children fam (current k) (initproc k));
  ex_zombie : exists p, procs k' !! current k = Some p /\ state p = PROC_ZOMBIE /\ exit_code p = code;
  ex_gone : current k' <> current k;
  ex_parent c p : procs k !! current k = Some c -> procs k !! parent c = Some p ->
    wait_state p = WT_CHILD -> runnable k' (parent c);
  ex_table : table k' = table k;
  ex_init : initproc k' = initproc k /\ idleproc k' = idleproc k /\ alive k' (initproc k)
}.

Lemma leave_eq k fam c c1 k1 code :
  proc_inv k fam -> procs k !! current k = Some c -> state c = PROC_RUNNABLE ->
  current k <> idleproc k -> current k <> initproc k ->
  initproc k ∈ fam (idleproc k) -> alive k (initproc k) ->
  procs k1 = <[current k := c1]> (procs k) -> link c1 = link c -> state c1 = PROC_RUNNABLE -> pid c1 = pid c ->
  current k1 = current k -> idleproc k1 = idleproc k -> initproc k1 = initproc k -> rq k1 = rq k ->
  table k1 = table k ->
  exists k', leave code k (parent c) k1 = Ret (tt, k') /\ exited k fam code k' /\
    (forall b, is_Some (procs k' !! b) <-> is_Some (procs k !! b)).
Proof.
  intros Hi Hc Hst Hci Hcn Hini Hal Hp1 Hl1 Hs1 Hpid1 Hcur1 Hid1 Hin1 Hrq1 Htb1.
  assert (Hcl : current k ∈ proc_list (table k)).
  { pose proof (pi_current _ _ Hi) as Hin. apply elem_of_cons in Hin as [?|?]; [done|done]. }
  destruct (parent_alive k fam _ c Hi Hcl Hc) as (Hpe & Hpin & Hpne & (pp & Hpp & Hppz)).
  set (c2 := with_exit_code code (with_state PROC_ZOMBIE c1)).
  set (k2 := set_procs (<[current k := c2]> (procs k)) k1).
  unfold leave.
  erewrite bind_Ret by (apply update_proc_eq; rewrite Hp1; apply lookup_insert_eq).
  erewrite bind_Ret by (apply update_proc_eq; simpl; apply lookup_insert_eq). simpl.
  rewrite Hp1, !insert_insert_eq. fold c2. change (set_procs _ (set_procs _ k1)) with k2.
  destruct (sleep_inv k k2 c c2 (pi_sched _ _ Hi) Hc Hci) as [Hsch2 Hrun2]; try done.
  assert (Hlks2 : lks k2 = lks k).
  { unfold lks. simpl. rewrite fmap_insert. change (link c2) with (link c1). rewrite Hl1, <- fmap_insert.
    by rewrite insert_id. }
  assert (Hpid2 : pid <$> procs k2 = pid <$> procs k).
  { simpl. rewrite fmap_insert. change (pid c2) with (pid c1). rewrite Hpid1, <- fmap_insert.
    by rewrite insert_id. }
  assert (Hlook2 : forall b, b <> current k -> procs k2 !! b = procs k !! b)
    by (intros b Hb; simpl; by rewrite lookup_insert_ne).
  assert (Hpp2 : procs k2 !! parent c = Some pp) by (by rewrite Hlook2).
  erewrite bind_Ret by (by apply load_proc_eq).
  (* the parent *)
  assert (Hw : exists k3, when (wait_state pp =? WT_CHILD) (wakeup_proc (parent c)) k2 = Ret (tt, k3) /\
    sched_inv k3 /\ link <$> procs k3 = link <$> procs k2 /\ pid <$> procs k3 = pid <$> procs k2 /\
    (forall b, b <> parent c -> procs k3 !! b = procs k2 !! b) /\ alive k3 (parent c) /\
    (wait_state pp = WT_CHILD -> runnable k3 (parent c)) /\ (forall b, runnable k2 b -> runnable k3 b) /\
    current k3 = current k /\ idleproc k3 = idleproc k /\ initproc k3 = initproc k /\ table k3 = table k).
  { destruct (Z.eqb_spec (wait_state pp) WT_CHILD) as [Hw|Hw]; cbn [when].
    - destruct (wakeup_inv k2 (parent c) pp Hsch2 Hpp2 Hppz) as (k3 & Hk3 & Hw3). exists k3. split; [done|].
      assert (Hw3' := Hw3). destruct Hw3' as (? & Hr & ? & ? & _ & _ & _ & _ & _ & ? & _ & Ho & _ & _ & ? & _).
      split; [done|]. split; [by apply (woken_view link k2 (parent c) pp)|].
      split; [by apply (woken_view pid k2 (parent c) pp)|]. split; [done|].
      split; [destruct Hr as (q & ? & ?); exists q; split; [done|congruence]|].
      split; [done|]. split; [intros b; by apply (runnable_woken k2 (parent c) pp)|]. simpl in *. split_and!; congruence.
    - exists k2. split_and!; try done. by exists pp. }
  destruct Hw as (k3 & Hk3 & Hsch3 & Hl3 & Hpid3 & Ho3 & Hal3 & Hrp3 & Hr3 & Hcur3 & Hid3 & Hin3 & Htb3).
  rewrite (bind_Ret _ _ _ _ _ Hk3).
  (* the children *)
  destruct (pi_tree _ _ Hi) as [Hfam Hclo].
  assert (Hie : initproc k ∈ everyone k) by (apply (Hclo (idleproc k)); [apply list_elem_of_here|done]).
  assert (Hinc : initproc k ∉ fam (current k)).
  { intros Hin. apply Hci. symmetry.
    eapply (family_disjoint (lks k) _ _ _ _ (initproc k) (Hfam _ (list_elem_of_here _ _)));
      [apply (Hfam _ (pi_current _ _ Hi))|done|done]. }
  assert (Hlk3 : lks k3 = lks k) by (unfold lks in *; congruence).
  assert (Hal3i : alive k3 (initproc k)).
  { destruct (decide (initproc k = parent c)) as [->|Hne]; [done|].
    destruct Hal as (pi & Hpi & ?). exists pi. by rewrite Ho3, Hlook2. }
  destruct (reparent_eq (fam (current k)) k3 (S (size (procs k))) (fam (initproc k)))
    as (k4 & Hk4 & Hsch4 & Hset4 & Ho4 & Hf4 & Hq4 & Hal4 & Hr4); rewrite ?Hlk3, ?Hcur3, ?Hin3; try done.
  { destruct (Hfam (current k) (pi_current _ _ Hi)) as (Hx & Hsg & Hrest). split; [done|]. split; [by eexists|done]. }
  { by apply Hfam. }
  { assert (Hlen := family_length k fam _ Hi (pi_current _ _ Hi)). lia. }
  rewrite (bind_Ret _ _ _ _ _ Hk4). rewrite Hlk3, Hcur3, Hin3 in *.
  destruct (se_vars _ _ Hset4) as (Hcur4 & Hid4 & Hin4 & Htb4 & _).
  (* the switch *)
  destruct (schedule_eq k4 Hsch4) as (k5 & Hk5 & Hsch5 & Hr5 & Hid5 & Hcur5 & _ & Hcore5).
  exists k5. split; [done|].
  assert (Hlk5 : lks k5 = lks k4) by (by apply same_core_view).
  assert (Hpid5 : pid <$> procs k5 = pid <$> procs k).
  { rewrite (same_core_view pid k4 k5) by done. rewrite <- Hpid2, <- Hpid3.
    assert (Hx : forall n : gmap Z proc, pid <$> n = (pid ∘ inner) <$> n) by (intros n; by apply map_fmap_ext).
    rewrite (Hx (procs k4)), (Hx (procs k3)). apply view_trans, Hset4. }
  assert (Htb5 : table k5 = table k) by (rewrite (sc_table _ _ Hcore5); congruence).
  assert (Hdom5 : forall b, is_Some (procs k5 !! b) <-> is_Some (procs k !! b)).
  { intros b. split; intros Hb; [by apply (present_view pid k5 k)|by apply (present_view pid k k5)]. }
  (* the states of the others *)
  assert (Hst5 : forall b q, procs k5 !! b = Some q -> exists q4, procs k4 !! b = Some q4 /\ core_of q4 = core_of q).
  { intros b q Hq. destruct (view_lookup core_of (procs k5) (procs k4) b q) as (q4 & ? & ?);
      [symmetry; apply Hcore5|done|by exists q4]. }
  assert (Hbody4 : forall b q, b <> initproc k -> procs k4 !! b = Some q ->
     exists q3, procs k3 !! b = Some q3 /\ body q3 = body q).
  { intros b q Hb Hq. pose proof (se_body _ _ Hset4 b) as Hx. rewrite Hin3, Hq in Hx. specialize (Hx Hb).
    simpl in Hx. destruct (procs k3 !! b) as [q3|]; [|done]. simpl in Hx. exists q3. split; [done|congruence]. }
  assert (Hcz : exists p, procs k5 !! current k = Some p /\ state p = PROC_ZOMBIE /\ exit_code p = code).
  { assert (Hc3 : procs k3 !! current k = Some c2).
    { rewrite Ho3 by done. simpl. apply lookup_insert_eq. }
    pose proof (se_body _ _ Hset4 (current k)) as Hx. rewrite Hin3, Hc3 in Hx. specialize (Hx Hcn). simpl in Hx.
    destruct (procs k4 !! current k) as [q4|] eqn:Hq4'; [|done]. simpl in Hx. apply (inj Some) in Hx.
    destruct (view_lookup core_of (procs k4) (procs k5) _ q4 (sc_procs _ _ Hcore5) Hq4') as (q5 & Hq5 & Hcq).
    exists q5. split; [done|]. split.
    - change (state (core_of q5) = PROC_ZOMBIE). rewrite Hcq. change (state (body q4) = PROC_ZOMBIE). by rewrite Hx.
    - change (exit_code (core_of q5) = code). rewrite Hcq. change (exit_code (body q4) = code). by rewrite Hx. }
  split; [|done]. split.
  - split; try done.
    + apply (table_inv_view k); [apply Hi|done|done|congruence].
    + apply (pid_window_view k); [apply Hi|done|done].
    + assert (Hev : everyone k5 = everyone k) by (unfold everyone; rewrite Htb5; congruence).
      rewrite Hev, Hlk5. split.
      * intros p Hp. unfold move_children. destruct (decide (p = initproc k)) as [->|Hpi]; [exact Hf4|].
        destruct (decide (p = current k)) as [->|Hpc].
        { destruct Ho4 as (Hx & (y & Hy) & Hrest). by split; [|split]. }
        apply Hq4; [done|done|by apply Hfam].
      * intros p d Hp. unfold move_children. case_decide; [|case_decide; [set_solver|by apply Hclo]].
        rewrite elem_of_app, elem_of_rev. intros [Hd|Hd]; [by eapply Hclo; [apply (pi_current _ _ Hi)|]|by eapply Hclo; [exact Hie|]].
    + intros b Hb. rewrite Htb5 in Hb. destruct (pi_born _ _ Hi b Hb) as (q & Hq & Hbq).
      assert (Hev : everyone k5 = everyone k) by (unfold everyone; rewrite Htb5; congruence). rewrite Hev.
      unfold move_children. destruct (decide (q = current k)) as [->|Hqc].
      * exists (initproc k). split; [done|]. rewrite decide_True by done. apply elem_of_app. left. by apply elem_of_rev.
      * exists q. split; [done|]. case_decide; [subst; apply elem_of_app; by right|]. by rewrite decide_False.
    + intros b. rewrite Hdom5, (pi_dom _ _ Hi). unfold everyone. rewrite Htb5. by rewrite Hid5, Hid4, Hid3.
    + assert (Hrc : runnable k5 (current k5)).
      { apply Hr5. rewrite Hcur5. by apply served_runnable. }
      destruct Hrc as (q & Hq & _). unfold everyone. rewrite Htb5, Hid5, Hid4, Hid3. apply (pi_dom _ _ Hi), Hdom5. eauto.
    + rewrite Hid5, Hid4, Hid3. apply Hi.
    + intros b q Hq Hz. unfold move_children. destruct (Hst5 b q Hq) as (q4 & Hq4' & Hcq).
      assert (Hz4 : state q4 = PROC_ZOMBIE).
      { change (state (core_of q4) = PROC_ZOMBIE). by rewrite Hcq. }
      case_decide as Hbi; [subst b; destruct Hal4 as (q' & ? & ?); congruence|].
      case_decide as Hbc; [done|].
      destruct (Hbody4 b q4 Hbi Hq4') as (q3 & Hq3 & Hb3).
      assert (Hz3 : state q3 = PROC_ZOMBIE).
      { change (state (body q3) = PROC_ZOMBIE). by rewrite Hb3. }
      destruct (decide (b = parent c)) as [->|Hbp]; [destruct Hal3 as (q' & ? & ?); congruence|].
      rewrite Ho3, Hlook2 in Hq3 by done. by apply (pi_zombie _ _ Hi b q3).
    + intros q Hq. assert (Hev : everyone k5 = everyone k) by (unfold everyone; rewrite Htb5; congruence).
      rewrite Hev in Hq. rewrite Hid5, Hid4, Hid3. unfold move_children.
      destruct (decide (q = initproc k)).
      { rewrite elem_of_app, elem_of_rev. intros [Hin|Hin];
          [by apply (pi_root _ _ Hi (current k) (pi_current _ _ Hi))|by apply (pi_root _ _ Hi (initproc k) Hie)]. }
      destruct (decide (q = current k)); [by apply not_elem_of_nil|]. by apply (pi_root _ _ Hi).
  - done.
  - intros Heq. destruct Hcz as (q & Hq & Hz & _).
    assert (Hrc : runnable k5 (current k5)).
    { apply Hr5. rewrite Hcur5. by apply served_runnable. }
    destruct Hrc as (q' & Hq' & ?). congruence.
  - intros c' p' Hc' Hp' Hwt. assert (c' = c) as -> by congruence. assert (p' = pp) as -> by congruence.
    apply Hr5, Hr4, Hrp3, Hwt.
  - done.
  - split; [rewrite (sc_initproc _ _ Hcore5); congruence|]. split; [congruence|].
    destruct Hal4 as (q & Hq & Hz). destruct (view_lookup core_of (procs k4) (procs k5) _ q (sc_procs _ _ Hcore5) Hq) as (q5 & Hq5 & Hcq).
    exists q5. split; [done|]. intros Hz5. apply Hz. change (state (core_of q) = PROC_ZOMBIE). by rewrite <- Hcq.
Qed.

Section ExitTheorem.
  Context {R : Type} `{Resources R} (owned : R -> Z -> Prop) `{!ResourceLaws owned} (sy : symbols).

(** The state while the current process gives its resources back. *)
Definition releasing (k : ks) (c1 : proc) (pg : Z) : ks :=
  set_loaded pg (set_procs (<[current k := c1]> (procs k)) k).

Lemma put_files_releasing k c1 pg (r : R) :
  wp (put_files (current k)) (fun _ s' => exists r', s' = mk_sys (releasing k c1 pg) r' /\ grows owned r r')
     (mk_sys (releasing k c1 pg) r).
Proof.
  unfold put_files. apply wp_bind. eapply wp_inK; [apply load_proc_eq; simpl; apply lookup_insert_eq|].
  destruct (negb _); cbn [when]; [|apply wp_ret; exists r; split; [done|apply grows_refl]].
  apply wp_bind, (wp_quiet owned); [apply law_files_count_dec|]. intros n r1 Hg1.
  destruct (n =? 0); cbn [when]; [|apply wp_ret; by exists r1].
  apply (wp_quiet owned); [apply law_files_destroy|]. intros v r2 Hg2. exists r2.
  split; [done|]. by eapply grows_trans.
Qed.

(** C14: [do_exit] of a process other than the idle and the init process returns
    control to another process, with the caller a zombie that keeps its exit
    code; every child of the caller is now a child of the init process, in a tree
    whose links are consistent again, no other family has changed, the caller has
    no children left, and its parent is runnable if it was waiting for a child. *)
Theorem do_exit_correct (s : sys R) (fam : Z -> list Z) (c : proc) (code : Z) :
  let k := kst s in
  proc_inv k fam -> held owned s ->
  procs k !! current k = Some c -> state c = PROC_RUNNABLE ->
  current k <> idleproc k -> current k <> initproc k ->
  initproc k ∈ fam (idleproc k) -> alive k (initproc k) ->
  exists s', do_exit sy code s = Ret (tt, s') /\ held owned s' /\ exited k fam code (kst s').
Proof.
  destruct s as [k r]. cbn [kst]. intros Hi Hh Hc Hst Hci Hcn Hini Hal.
  assert (Hwp : wp (do_exit sy code) (fun _ s' => exited k fam code (kst s') /\ grows owned r (rst s') /\
      forall b, is_Some (procs (kst s') !! b) <-> is_Some (procs k !! b)) (mk_sys k r)).
  { unfold do_exit. apply wp_bind, wp_get. cbn [kst].
    replace (current k =? idleproc k) with false by lia. replace (current k =? initproc k) with false by lia.
    apply wp_bind, wp_ret, wp_bind, wp_ret, wp_bind. eapply wp_inK; [by apply load_proc_eq|].
    apply wp_bind.
    assert (Hmm : wp (when (negb (mm c =? NULL))
       (inK (modify (set_loaded (boot_pgdir sy)));;
        n ← inR (mm_count_dec (mm c));
        when (n =? 0) (inR (exit_mmap (mm c));; inR (put_pgdir (mm c));; inR (mm_destroy (mm c)));;
        inK (update_proc (current k) (with_mm NULL))))
       (fun _ s' => exists c1 pg r', s' = mk_sys (releasing k c1 pg) r' /\ link c1 = link c /\
          state c1 = PROC_RUNNABLE /\ pid c1 = pid c /\ grows owned r r') (mk_sys k r)).
    { destruct (negb (mm c =? NULL)); cbn [when].
      - apply wp_bind. eapply wp_inK; [done|]. apply wp_bind, (wp_quiet owned); [apply law_mm_count_dec|].
        intros n r1 Hg1. apply wp_bind.
        assert (Hfree : wp (when (n =? 0) (inR (exit_mmap (mm c));; inR (put_pgdir (mm c));; inR (mm_destroy (mm c))))
          (fun _ s' => exists r2, s' = mk_sys (set_loaded (boot_pgdir sy) k) r2 /\ grows owned r r2)
          (mk_sys (set_loaded (boot_pgdir sy) k) r1)).
        { destruct (n =? 0); cbn [when]; [|apply wp_ret; by exists r1].
          do 2 (apply wp_bind, (wp_quiet owned); [eauto with laws|]; intros ? ? ?).
          apply (wp_quiet owned); [eauto with laws|]. intros ? r4 ?. exists r4. split; [done|].
          repeat (eapply grows_trans; [eassumption|]). apply grows_refl. }
        eapply wp_mono; [exact Hfree|]. intros _ s' (r2 & -> & Hg2).
        eapply wp_inK; [by apply update_proc_eq|]. exists (with_mm NULL c), (boot_pgdir sy), r2.
        by split_and!.
      - apply wp_ret. exists c, (loaded_pgdir k), r. split_and!; try done; [|apply grows_refl].
        unfold releasing. rewrite insert_id by done. by destruct k. }
    eapply wp_mono; [exact Hmm|]. intros _ s' (c1 & pg & r1 & -> & Hl1 & Hs1 & Hp1 & Hg1).
    apply wp_bind. eapply wp_mono; [apply put_files_releasing|]. intros _ s' (r2 & -> & Hg2).
    destruct (leave_eq k fam c c1 (releasing k c1 pg) code) as (k' & Hk & Hex & Hdom); try done.
    eapply wp_inK; [exact Hk|]. cbn [kst rst]. split; [done|]. split; [|done]. by eapply grows_trans. }
  destruct Hwp as ([] & s' & Hr & Hex & Hg & Hdom). exists s'. split; [done|]. split; [|done].
  intros b Hb. apply Hg, Hh. by apply Hdom.
Qed.

End ExitTheorem.

End ExitSpec.
