(* ===== verification/WaitSpec.v ===== *)
(** What [do_wait] promises: it reaps one zombie child, sleeps while it has
    children but no zombie, and fails without children
    (src/ucore_OS/kern/process/proc.c). *)

From S2P Require Import Prelude Proc ProcSpec Process Family ProcessSpec ForkSpec ExitSpec.

Module WaitSpec.
Import Proc ProcSpec Process Family ProcessSpec ForkSpec ExitSpec.

(** ** Unlinking *)

Lemma remove_links_eq k a p l1 l2 :
  procs k !! a = Some p -> family (lks k) (parent p) (l1 ++ a :: l2) ->
  exists m, remove_links a k =
    Ret (tt, set_table (mk_pt (remove a (proc_list (table k))) (hash_list (table k))
      (nr_process (table k) - 1) (next_safe (table k)) (last_pid (table k))) (set_procs m k)) /\
    link <$> m = unlinked (lks k) (parent p) l1 a l2 /\ body <$> m = body <$> procs k.
Proof.
  intros Hp Hf. assert (Hf' := Hf). destruct Hf as ((xp & Hxp & _) & Hs & Hnd & Hnl & Hpl).
  apply sibs_app in Hs as [H1 [(x & Hx & _ & Hy & Ho) H2]].
  apply lks_lookup in Hx as (p' & Hp' & <-). assert (p' = p) as -> by congruence. simpl in Hy, Ho.
  apply lks_lookup in Hxp as (pp & Hpp & _).
  unfold remove_links, on_table. erewrite bind_Ret by done.
  erewrite bind_Ret by (by apply load_proc_eq). rewrite Hy, Ho.
  set (k1 := set_table _ k).
  assert (Hin : forall b, b ∈ l1 ++ a :: l2 -> is_Some (procs k !! b)).
  { intros b Hb. destruct Hf' as (_ & Hs & _). destruct (sibs_elem _ _ _ _ _ _ Hs Hb) as (xb & Hxb & _).
    apply lks_lookup in Hxb as (pb & Hpb & _). eauto. }
  assert (Hm1 : exists m1, when (negb (hd NULL l2 =? NULL)) (update_proc (hd NULL l2) (with_yptr (List.last l1 NULL))) k1
      = Ret (tt, set_procs m1 k1) /\ body <$> m1 = body <$> procs k /\
      link <$> m1 = match l2 with [] => lks k | c :: _ => alter (l_set_yptr (List.last l1 NULL)) c (lks k) end).
  { destruct l2 as [|c l2]; cbn [hd].
    - exists (procs k). simpl. split; [|done]. unfold mret, M_ret. by destruct k.
    - assert (Hc0 : c <> NULL) by set_solver. replace (c =? NULL) with false by lia. cbn [negb when].
      exists (alter (with_yptr (List.last l1 NULL)) c (procs k)).
      rewrite update_proc_alter by (apply Hin; set_solver).
      split; [done|]. split; [by apply view_alter_id|by apply view_alter]. }
  destruct Hm1 as (m1 & Hr1 & Hb1 & Hl1). rewrite (bind_Ret _ _ _ _ _ Hr1).
  assert (Hpres : forall b, is_Some (procs k !! b) -> is_Some (m1 !! b)).
  { intros b [q Hq]. destruct (view_lookup body (procs k) m1 b q Hb1 Hq) as (q' & ? & _). eauto. }
  assert (Hm2 : exists m2, (if negb (List.last l1 NULL =? NULL) then update_proc (List.last l1 NULL) (with_optr (hd NULL l2))
       else update_proc (parent p) (with_cptr (hd NULL l2))) (set_procs m1 k1) = Ret (tt, set_procs m2 k1) /\
      body <$> m2 = body <$> m1 /\
      link <$> m2 = match l1 with [] => alter (l_set_cptr (hd NULL l2)) (parent p) (link <$> m1)
                    | _ => alter (l_set_optr (hd NULL l2)) (List.last l1 NULL) (link <$> m1) end).
  { destruct (decide (l1 = [])) as [->|Hl1'].
    - simpl. rewrite update_proc_alter by (apply Hpres; eauto). eexists. split; [done|].
      split; [by apply view_alter_id|by apply view_alter].
    - destruct (last_snoc_ne NULL l1 Hl1') as (l' & b & Hll & Hb).
      assert (Hbin : b ∈ l1 ++ a :: l2) by (rewrite Hll; set_solver).
      rewrite Hb. assert (Hb0 : b <> NULL) by (intros ->; done). replace (b =? NULL) with false by lia.
      cbn [negb]. rewrite update_proc_alter by (apply Hpres; by apply Hin). eexists. split; [done|].
      split; [by apply view_alter_id|]. destruct l1; [done|]. rewrite <- Hb. by apply view_alter. }
  destruct Hm2 as (m2 & Hr2 & Hb2 & Hl2). rewrite (bind_Ret _ _ _ _ _ Hr2).
  exists m2. split; [|split; [|by rewrite Hb2]].
  - unfold modify. simpl. do 2 f_equal. unfold set_table, set_procs. simpl. do 2 f_equal. lia.
  - rewrite Hl2, Hl1. unfold unlinked. by destruct l1, l2.
Qed.

Definition drop_child (fam : Z -> list Z) (par a : Z) : Z -> list Z := fun x =>
  if decide (x = par) then remove a (fam par) else fam x.

Lemma bucket_remove h a i : bucket (remove a <$> h) i = remove a (bucket h i).
Proof. unfold bucket. rewrite list_lookup_fmap. by destruct (h !! Z.to_nat i). Qed.

Lemma elem_of_remove a b l : b ∈ remove a l <-> b ∈ l /\ b <> a.
Proof. unfold remove. rewrite list_elem_of_filter. tauto. Qed.

(** The process [a] has been taken out. *)
Record reaped (k : ks) (fam : Z -> list Z) (par a : Z) (k' : ks) : Prop := {
  re_inv : proc_inv k' (drop_child fam par a);
  re_gone : procs k' !! a = None;
  re_others b p : b <> a -> procs k !! b = Some p -> exists p', procs k' !! b = Some p' /\ body p' = body p;
  re_list : proc_list (table k') = remove a (proc_list (table k));
  re_count : nr_process (table k') = nr_process (table k) - 1;
  re_current : current k' = current k /\ idleproc k' = idleproc k /\ initproc k' = initproc k
}.

Lemma table_inv_drop k k' a :
  table_inv k -> a ∈ proc_list (table k) ->
  idleproc k' = idleproc k ->
  (forall b, b ∈ proc_list (table k) -> b <> a -> is_Some (procs k' !! b) /\ pid_of k' b = pid_of k b) ->
  table k' = mk_pt (remove a (proc_list (table k))) (remove a <$> hash_list (table k))
    (nr_process (table k) - 1) (next_safe (table k)) (last_pid (table k)) ->
  table_inv k'.
Proof.
  intros [T1 T2 T3 T4 T5 T6 T7 T8 T9 T10] Ha Hid Hold Ht.
  assert (Hpids : pids k' = pid_of k <$> remove a (proc_list (table k))).
  { unfold pids. rewrite Ht. simpl. apply list_fmap_ext. intros j b Hb%list_elem_of_lookup_2.
    apply elem_of_remove in Hb as [Hb Hne]. by destruct (Hold b Hb Hne). }
  assert (Hsub : forall b, b ∈ remove a (proc_list (table k)) -> b ∈ proc_list (table k) /\ b <> a)
    by (intros b; apply elem_of_remove).
  split; rewrite ?Hpids, ?Ht, ?Hid; cbn [proc_list hash_list nr_process].
  - by apply NoDup_filter.
  - by intros [? _]%elem_of_remove.
  - by intros [? _]%elem_of_remove.
  - intros b Hb. destruct (Hsub b Hb). by apply Hold.
  - unfold pids in T5. clear -T5. induction (proc_list (table k)) as [|b l IH]; [constructor|].
    simpl in T5. apply NoDup_cons in T5 as [Hb Hl]. unfold remove. rewrite filter_cons.
    case_decide; [|by apply IH]. simpl. constructor; [|by apply IH].
    intros Hin. apply Hb. apply list_elem_of_fmap in Hin as (c & -> & Hc).
    apply list_elem_of_fmap. exists c. split; [done|]. by apply list_elem_of_filter in Hc as [_ ?].
  - intros b Hb. destruct (Hsub b Hb). destruct (Hold b) as [_ ->]; [done|done|]. by apply T6.
  - by rewrite length_fmap.
  - intros i b. rewrite bucket_remove, !elem_of_remove. intros [Hb Hne]. split; [|done]. by eapply T8.
  - intros b Hb. destruct (Hsub b Hb) as [Hb' Hne]. destruct (Hold b) as [_ ->]; [done|done|].
    rewrite bucket_remove, elem_of_remove. split; [by apply T9|done].
  - rewrite T10. apply list_elem_of_split in Ha as (l1 & l2 & Hl). rewrite Hl in T1 |- *.
    apply NoDup_app in T1 as (_ & Hd & [Ha' _]%NoDup_cons).
    unfold remove. rewrite filter_middle; [|set_solver|done]. rewrite !length_app. simpl. lia.
Qed.

(** The tree without the leaf [a]. *)
Lemma unlinked_tree m ps fam par a l1 l2 :
  tree m ps fam -> par ∈ ps -> a ∈ ps -> NoDup ps -> fam par = l1 ++ a :: l2 -> fam a = [] ->
  tree (delete a (unlinked m par l1 a l2)) (remove a ps) (drop_child fam par a).
Proof.
  intros [Hf Hc] Hp Ha Hnd Hl Hleaf.
  assert (Hfp := Hf par Hp). rewrite Hl in Hfp.
  assert (Hpa : par <> a) by (destruct Hfp as (_ & _ & _ & _ & Hn); set_solver).
  assert (Hrm : remove a (fam par) = l1 ++ l2).
  { rewrite Hl. destruct Hfp as (_ & _ & Hn & _). apply NoDup_app in Hn as (_ & Hd & [Ha' _]%NoDup_cons).
    unfold remove. apply filter_middle; [set_solver|done]. }
  assert (Hnot : forall q, q ∈ ps -> q <> par -> a ∉ fam q).
  { intros q Hq Hqp Hin. apply Hqp. eapply (family_disjoint m q par); [by apply Hf|exact Hfp|exact Hin|].
    rewrite elem_of_app, elem_of_cons. auto. }
  split.
  - intros q Hq. apply elem_of_remove in Hq as [Hq Hqa]. unfold drop_child.
    destruct (decide (q = par)) as [->|Hqp].
    + rewrite Hrm. apply (family_ext (unlinked m par l1 a l2)); [|by apply unlinked_family].
      intros c Hcin. rewrite lookup_delete_ne; [done|]. intros <-.
      assert (a ∈ remove a (fam par)) as Hx by (rewrite Hrm; set_solver). by apply elem_of_remove in Hx as [_ ?].
    + apply (family_ext (unlinked m par l1 a l2)).
      * intros c Hcin. rewrite lookup_delete_ne; [done|]. intros <-.
        apply elem_of_cons in Hcin as [->|Hcin]; [done|]. by apply (Hnot q).
      * apply unlinked_other; [done|by apply Hf|done].
  - intros q c Hq Hcin. apply elem_of_remove in Hq as [Hq Hqa]. apply elem_of_remove.
    unfold drop_child in Hcin. destruct (decide (q = par)) as [->|Hqp].
    + apply elem_of_remove in Hcin as [Hcin Hne]. split; [by apply (Hc par)|done].
    + split; [by apply (Hc q)|]. intros ->. by apply (Hnot q).
Qed.

Definition erase (a : Z) (k : ks) : ks := set_procs (delete a (procs k)) k.

Lemma take_out_eq k fam a p :
  proc_inv k fam -> a ∈ proc_list (table k) -> procs k !! a = Some p -> state p = PROC_ZOMBIE ->
  a <> current k ->
  exists k1, (unhash_proc a;; remove_links a) k = Ret (tt, k1) /\
    (exists p1, procs k1 !! a = Some p1 /\ kstack p1 = kstack p) /\
    reaped k fam (parent p) a (erase a k1).
Proof.
  intros Hi Ha Hp Hz Hac. destruct (parent_alive k fam a p Hi Ha Hp) as (Hpe & Hin & Hpa & _).
  destruct (pi_tree _ _ Hi) as [Hf Hc].
  apply list_elem_of_split in Hin as (l1 & l2 & Hl). assert (Hfp := Hf _ Hpe). rewrite Hl in Hfp.
  unfold unhash_proc. erewrite bind_Ret by done. set (k0 := set_table _ k).
  destruct (remove_links_eq k0 a p l1 l2 Hp Hfp) as (m & Hr & Hlm & Hbm). rewrite Hr.
  eexists. split; [done|].
  destruct (view_lookup body (procs k) m a p Hbm Hp) as (p1 & Hp1 & Hb1).
  split. { exists p1. split; [done|]. change (kstack (body p1) = kstack (body p)). by rewrite Hb1. }
  set (k1 := set_table _ (set_procs m k0)). set (k2 := erase a k1).
  assert (Hold : forall b q, b <> a -> procs k !! b = Some q -> exists q', procs k2 !! b = Some q' /\ body q' = body q).
  { intros b q Hb Hq. destruct (view_lookup body (procs k) m b q Hbm Hq) as (q' & Hq' & ?).
    exists q'. split; [|done]. simpl. by rewrite lookup_delete_ne. }
  assert (Hnew : forall b q, procs k2 !! b = Some q -> b <> a /\ exists q0, procs k !! b = Some q0 /\ body q = body q0).
  { intros b q Hq. simpl in Hq. apply lookup_delete_Some in Hq as [Hb Hq]. split; [done|].
    destruct (view_lookup body m (procs k) b q (eq_sym Hbm) Hq) as (q0 & ? & ?). by exists q0. }
  assert (Hrun : forall b, runnable k2 b <-> runnable k b).
  { intros b. split; intros (q & Hq & Hs).
    - destruct (Hnew b q Hq) as (_ & q0 & Hq0 & He). exists q0. split; [done|].
      change (state (body q0) = PROC_RUNNABLE). by rewrite <- He.
    - destruct (Hold b q) as (q' & Hq' & He); [congruence|done|]. exists q'. split; [done|].
      change (state (body q') = PROC_RUNNABLE). by rewrite He. }
  assert (Hai : a <> idleproc k) by (intros ->; by apply (ti_idle k (pi_table _ _ Hi))).
  assert (Hpid : forall b, b ∈ proc_list (table k) -> b <> a -> is_Some (procs k2 !! b) /\ pid_of k2 b = pid_of k b).
  { intros b Hb Hne. destruct (ti_present k (pi_table _ _ Hi) b Hb) as [q Hq].
    destruct (Hold b q Hne Hq) as (q' & Hq' & He). split; [eauto|]. unfold pid_of. rewrite Hq, Hq'. simpl.
    change (pid (body q') = pid (body q)). by rewrite He. }
  assert (Hev : everyone k2 = remove a (everyone k)).
  { unfold everyone, remove. rewrite filter_cons_True by done. done. }
  split; try done.
  - destruct (pi_sched _ _ Hi) as [S1 S2 S3 [c Hcur] S5]. split.
    + split; try done.
      * intros b. by rewrite Hrun.
      * destruct (Hold (current k) c) as (q & Hq & _); [done|done|]. by exists q.
      * by apply Hrun.
    + apply (table_inv_drop k k2 a); try done. apply Hi.
    + destruct (pi_window _ _ Hi) as [W1 W2 W3]. split; try done. simpl.
      intros b Hb. apply elem_of_remove in Hb as [Hb Hne]. destruct (Hpid b Hb Hne) as [_ ->]. by apply W3.
    + replace (lks k2) with (delete a (unlinked (lks k) (parent p) l1 a l2)).
      * rewrite Hev. apply unlinked_tree; [by split|done|apply elem_of_cons; by right| |done|by apply (pi_zombie _ _ Hi a p)].
        constructor; [apply (ti_idle k (pi_table _ _ Hi))|apply (ti_nodup k (pi_table _ _ Hi))].
      * unfold lks. simpl. rewrite fmap_delete. by rewrite Hlm.
    + simpl. intros b Hb. apply elem_of_remove in Hb as [Hb Hne].
      destruct (pi_born _ _ Hi b Hb) as (q & Hq & Hbq). exists q. rewrite Hev, elem_of_remove.
      split; [split; [done|]|].
      * intros ->. rewrite (pi_zombie _ _ Hi a p Hp Hz) in Hbq. set_solver.
      * unfold drop_child. case_decide; [subst; by apply elem_of_remove|done].
    + intros b. rewrite Hev, elem_of_remove, <- (pi_dom _ _ Hi). split.
      * intros [q Hq]. destruct (Hnew b q Hq) as (? & q0 & ? & _). split; [eauto|done].
      * intros [[q Hq] Hne]. destruct (Hold b q Hne Hq) as (q' & ? & _). eauto.
    + rewrite Hev. apply elem_of_remove. split; [apply (pi_current _ _ Hi)|done].
    + apply (pi_idle _ _ Hi).
    + intros b q Hq Hzb. destruct (Hnew b q Hq) as (Hne & q0 & Hq0 & He).
      assert (Hz0 : state q0 = PROC_ZOMBIE) by (change (state (body q0) = PROC_ZOMBIE); by rewrite <- He).
      assert (Hfb := pi_zombie _ _ Hi b q0 Hq0 Hz0). unfold drop_child. case_decide; [|done].
      subst b. rewrite Hl in Hfb. by destruct l1.
    + intros q Hq. rewrite Hev in Hq. apply elem_of_remove in Hq as [Hq _].
      change (idleproc k2) with (idleproc k). unfold drop_child. case_decide; [|by apply (pi_root _ _ Hi)].
      subst q. intros [Hin _]%elem_of_remove. by apply (pi_root _ _ Hi (parent p)).
  - simpl. apply lookup_delete_eq.
Qed.

(** ** Looking for a zombie *)

Definition zombie (k : ks) (a : Z) : Prop := exists p, procs k !! a = Some p /\ state p = PROC_ZOMBIE.

(** The outcome of a search among [l]: a zombie, or none and whether there was
    anybody. *)
Definition search_post (k : ks) (l : list Z) (haskid : bool) (o : option Z) (b : bool) : Prop :=
  match o with
  | Some a => a ∈ l /\ zombie k a
  | None => (forall a, a ∈ l -> ~ zombie k a) /\ b = haskid || negb (bool_decide (l = []))
  end.

Lemma find_zombie_eq l k par y fuel haskid :
  sibs (lks k) par y l NULL -> NULL ∉ l -> (length l < fuel)%nat ->
  exists o b, find_zombie fuel (hd NULL l) haskid k = Ret ((o, b), k) /\ search_post k l haskid o b.
Proof.
  revert y fuel haskid. induction l as [|a l IH]; intros y fuel haskid Hs Hn Hf;
    (destruct fuel as [|fuel]; [simpl in Hf; lia|]); cbn [find_zombie hd].
  - exists None, haskid. split; [done|]. split; [set_solver|]. simpl. by rewrite orb_false_r.
  - destruct Hs as [(x & Hx & _ & _ & Ho) Hs]. apply lks_lookup in Hx as (p & Hp & <-). simpl in Ho.
    assert (Ha0 : a <> NULL) by set_solver. replace (a =? NULL) with false by lia.
    erewrite bind_Ret by (by apply load_proc_eq). case_bool_decide as Hz.
    + exists (Some a), true. split; [done|]. split; [set_solver|]. by exists p.
    + rewrite Ho. destruct (IH a fuel true Hs) as (o & b & Hr & Hpost); [set_solver|simpl in Hf; lia|].
      exists o, b. split; [done|]. destruct o as [c|]; [destruct Hpost; split; [set_solver|done]|].
      destruct Hpost as [Hno ->]. split; [|simpl; by rewrite orb_true_r].
      intros c [->|Hc]%elem_of_cons; [intros (q & Hq & ?); congruence|by apply Hno].
Qed.

(** The children a wait is about. *)
Definition candidates (k : ks) (fam : Z -> list Z) (i : Z) : list Z :=
  if decide (i = 0) then fam (current k) else filter (fun a => pid_of k a = i) (fam (current k)).

Lemma look_for_child_eq k fam i :
  proc_inv k fam -> current k ∈ everyone k ->
  exists o b, look_for_child i k = Ret ((o, b), k) /\ search_post k (candidates k fam i) false o b.
Proof.
  intros Hi Hcur. unfold look_for_child, candidates. erewrite bind_Ret by done.
  destruct (pi_tree _ _ Hi) as [Hf Hc]. destruct (Hf _ Hcur) as ((x & Hx & Hcp) & Hs & _ & Hn & Hself).
  destruct (Z.eqb_spec i 0) as [->|Hi0]; cbn [negb].
  - apply lks_lookup in Hx as (c & Hcc & <-). simpl in Hcp.
    erewrite bind_Ret by (by apply load_proc_eq). rewrite Hcp. rewrite decide_True by done.
    eapply find_zombie_eq; [done|done|]. assert (Hlen := family_length k fam _ Hi Hcur). lia.
  - rewrite decide_False by done.
    assert (Hkid : forall a p, procs k !! a = Some p -> a ∈ proc_list (table k) -> parent p = current k -> a ∈ fam (current k)).
    { intros a p Hp Ha Hpar. destruct (parent_alive k fam a p Hi Ha Hp) as (_ & Hin & _). by rewrite <- Hpar. }
    assert (Hback : forall a, a ∈ filter (fun a => pid_of k a = i) (fam (current k)) ->
      exists p, procs k !! a = Some p /\ parent p = current k /\ pid_of k a = i).
    { intros a [Hpa Ha]%list_elem_of_filter. destruct (sibs_elem _ _ _ _ _ _ Hs Ha) as (xa & Hxa & Hpx).
      apply lks_lookup in Hxa as (p & Hp & <-). by exists p. }
    destruct (find_proc_eq k i (pi_table _ _ Hi)) as (r & Hr & Hcase). rewrite (bind_Ret _ _ _ _ _ Hr).
    assert (Hnone : forall l, l = [] -> search_post k l false None false).
    { intros l ->. split; [set_solver|done]. }
    assert (Hall : forall a, a ∈ filter (fun a => pid_of k a = i) (fam (current k)) -> a = r).
    { intros a Ha. destruct (Hback a Ha) as (p & Hp & Hpar & Hpid).
      apply list_elem_of_filter in Ha as [_ Ha].
      assert (Hae : a ∈ everyone k) by (by apply (Hc (current k))).
      apply elem_of_cons in Hae as [->|Hae].
      - by destruct (pi_root _ _ Hi _ Hcur).
      - destruct Hcase as [[-> Hnin]|Hnm].
        + destruct Hnin. unfold pids. apply list_elem_of_fmap. by exists a.
        + by eapply named_unique; [apply (pi_table _ _ Hi)|split|]. }
    destruct Hcase as [[-> Hnin]|[Hrl Hrp]].
    + exists None, false. split; [done|]. apply Hnone.
      destruct (filter _ (fam (current k))) as [|a l] eqn:E; [done|].
      assert (Ha : a ∈ a :: l) by apply list_elem_of_here. assert (Hnull := Hall a Ha).
      rewrite <- E in Ha. apply list_elem_of_filter in Ha as [_ Ha]. congruence.
    + assert (Hr0 : r <> NULL) by (intros ->; by apply (ti_null _ (pi_table _ _ Hi))).
      replace (r =? NULL) with false by lia.
      destruct (ti_present _ (pi_table _ _ Hi) r Hrl) as [p Hp]. erewrite bind_Ret by (by apply load_proc_eq).
      destruct (Z.eqb_spec (parent p) (current k)) as [Hpar|Hpar].
      * assert (Hin : r ∈ filter (fun a => pid_of k a = i) (fam (current k))).
        { apply list_elem_of_filter. split; [done|by eapply Hkid]. }
        case_bool_decide as Hz; eexists _, _; (split; [reflexivity|]); simpl.
        -- split; [done|by exists p].
        -- split; [intros a Ha; rewrite (Hall a Ha); intros (q & Hq & ?); congruence|].
           rewrite bool_decide_false; [done|]. intros E. rewrite E in Hin. set_solver.
      * exists None, false. split; [done|]. apply Hnone.
        destruct (filter _ (fam (current k))) as [|a l] eqn:E; [done|].
        assert (Ha : a ∈ a :: l) by apply list_elem_of_here.
        destruct (Hback a Ha) as (q & Hq & Hqp & _). rewrite (Hall a Ha) in Hq. congruence.
Qed.

(** The invariant only depends on links, identifiers, lists and zombies. *)
Lemma proc_inv_transfer k k' fam :
  proc_inv k fam -> sched_inv k' -> link <$> procs k' = link <$> procs k ->
  pid <$> procs k' = pid <$> procs k -> table k' = table k -> idleproc k' = idleproc k ->
  runnable k' (current k') -> (forall a, zombie k' a -> zombie k a) -> proc_inv k' fam.
Proof.
  intros Hi Hs Hl Hp Ht Hid Hc Hz.
  assert (Hev : everyone k' = everyone k) by (unfold everyone; by rewrite Ht, Hid).
  assert (Hdom : forall b, is_Some (procs k' !! b) <-> is_Some (procs k !! b)).
  { intros b. split; intros Hb; [by apply (present_view pid k' k)|by apply (present_view pid k k')]. }
  split; rewrite ?Hev; try done.
  - apply (table_inv_view k); [apply Hi|done..].
  - apply (pid_window_view k); [apply Hi|done..].
  - unfold lks. rewrite Hl. apply Hi.
  - intros a. rewrite Ht. apply (pi_born _ _ Hi).
  - intros a. rewrite Hdom. apply Hi.
  - apply (pi_dom _ _ Hi), Hdom. destruct Hc as (q & ? & _). eauto.
  - rewrite Hid. apply Hi.
  - intros a q Hq Hzq. destruct (Hz a) as (q0 & Hq0 & Hz0); [by exists q|]. by apply (pi_zombie _ _ Hi a q0).
  - intros q Hq. rewrite Hid. by apply (pi_root _ _ Hi).
Qed.

Definition fall_asleep (a ws : Z) : M ks unit :=
  update_proc a (with_state PROC_SLEEPING);;
  update_proc a (with_wait_state ws);;
  schedule.

Lemma fall_asleep_eq k fam ws :
  proc_inv k fam -> runnable k (current k) -> current k <> idleproc k ->
  exists k', fall_asleep (current k) ws k = Ret (tt, k') /\ proc_inv k' fam /\ current k' <> current k /\
    (exists c, procs k' !! current k = Some c /\ state c = PROC_SLEEPING /\ wait_state c = ws) /\
    everyone k' = everyone k.
Proof.
  intros Hi (c & Hc & Hst) Hci. unfold fall_asleep.
  set (c1 := with_wait_state ws (with_state PROC_SLEEPING c)).
  set (k1 := set_procs (<[current k := c1]> (procs k)) k).
  erewrite bind_Ret by (by apply update_proc_eq).
  erewrite bind_Ret by (apply update_proc_eq; simpl; apply lookup_insert_eq). simpl.
  rewrite insert_insert_eq. fold c1. change (set_procs _ (set_procs _ k)) with k1.
  destruct (sleep_inv k k1 c c1 (pi_sched _ _ Hi) Hc Hci) as [Hs1 Hr1]; try done.
  destruct (schedule_eq k1 Hs1) as (k' & Hk' & Hs' & Hr' & Hid' & Hc' & _ & Hcore). exists k'. split; [done|].
  assert (Hv1 : forall {B} (f : proc -> B), f c1 = f c -> f <$> procs k1 = f <$> procs k).
  { intros B f Hf. simpl. rewrite fmap_insert, Hf, <- fmap_insert. by rewrite insert_id. }
  assert (Hrun : runnable k1 (current k')).
  { rewrite Hc'. by apply served_runnable. }
  split; [|split; [|split]].
  - apply (proc_inv_transfer k k' fam Hi Hs').
    + rewrite (same_core_view link k1 k') by done. by apply Hv1.
    + rewrite (same_core_view pid k1 k') by done. by apply Hv1.
    + by rewrite (sc_table _ _ Hcore).
    + done.
    + by apply Hr'.
    + intros a (q & Hq & Hz). destruct (view_lookup core_of (procs k') (procs k1) a q) as (q1 & Hq1 & He);
        [symmetry; apply Hcore|done|].
      assert (Hz1 : state q1 = PROC_ZOMBIE) by (change (state (core_of q1) = PROC_ZOMBIE); by rewrite He).
      simpl in Hq1. apply lookup_insert_Some in Hq1 as [[<- <-]|[_ Hq1]]; [done|]. by exists q1.
  - intros He. rewrite He in Hrun. apply Hr1 in Hrun. by destruct Hrun.
  - destruct (view_lookup core_of (procs k1) (procs k') (current k) c1) as (c' & Hc'' & He);
      [apply Hcore|simpl; apply lookup_insert_eq|]. exists c'. split; [done|]. split.
    + change (state (core_of c') = PROC_SLEEPING). by rewrite He.
    + change (wait_state (core_of c') = ws). by rewrite He.
  - unfold everyone. by rewrite (sc_table _ _ Hcore), Hid'.
Qed.

Section WaitTheorem.
  Context {R : Type} `{Resources R} (owned : R -> Z -> Prop) `{!ResourceLaws owned}.

(** What reaping [p] at [a] asks of the resources, from [r] to [r']: the exit code
    is stored where the caller wants it, then the kernel stack and the block of
    the descriptor are freed. *)
Definition resources_reaped (a : Z) (p : proc) (code_store : Z) (r r' : R) : Prop := exists r1 r2,
  (if decide (code_store = NULL) then r1 = r else store_int code_store (exit_code p) r = Ret (tt, r1)) /\
  free_pages (kva2page (kstack p)) KSTACKPAGE r1 = Ret (tt, r2) /\
  kfree_proc a r2 = Ret (tt, r').

Lemma reap_wp k r fam a p code_store :
  proc_inv k fam -> a ∈ proc_list (table k) -> procs k !! a = Some p -> state p = PROC_ZOMBIE ->
  a <> current k -> a <> initproc k ->
  wp (reap a code_store) (fun v s' => v = 0 /\ reaped k fam (parent p) a (kst s') /\
      (forall x, x <> a -> owned r x -> owned (rst s') x) /\
      resources_reaped a p code_store r (rst s'))
     (mk_sys k r).
Proof.
  intros Hi Ha Hp Hz Hac Han. unfold reap.
  assert (Hai : a <> idleproc k) by (intros ->; by apply (ti_idle k (pi_table _ _ Hi))).
  apply wp_bind, wp_get. cbn [kst]. replace (a =? idleproc k) with false by lia.
  replace (a =? initproc k) with false by lia. apply wp_bind, wp_ret.
  apply wp_bind. eapply wp_inK; [by apply load_proc_eq|].
  apply wp_bind. eapply (wp_mono _ (fun _ s' => exists r1, s' = mk_sys k r1 /\ grows owned r r1 /\
    (if decide (code_store = NULL) then r1 = r else store_int code_store (exit_code p) r = Ret (tt, r1)))).
  { destruct (Z.eqb_spec code_store NULL) as [He|He]; cbn [negb when].
    - apply wp_ret. exists r. split; [done|]. split; [apply grows_refl|]. by rewrite decide_True.
    - destruct (law_store_int code_store (exit_code p) r) as ([] & r1 & Hr1 & Hg1).
      exists tt, (mk_sys k r1). unfold inR. simpl. rewrite Hr1. split; [done|]. exists r1.
      by rewrite decide_False. }
  intros _ s' (r1 & -> & Hg1 & Hst).
  destruct (take_out_eq k fam a p Hi Ha Hp Hz Hac) as (k1 & Hk1 & (p1 & Hp1 & Hks) & Hre).
  unfold mbind, M_bind in Hk1. destruct (unhash_proc a k) as [[[] k0]| | |] eqn:Hu; try done.
  apply wp_bind. eapply wp_inK; [exact Hu|]. apply wp_bind. eapply wp_inK; [exact Hk1|].
  apply wp_bind. unfold put_kstack. apply wp_bind. eapply wp_inK; [by apply load_proc_eq|].
  destruct (law_free_pages (kva2page (kstack p1)) KSTACKPAGE r1) as ([] & r2 & Hr2 & Hg2).
  exists tt, (mk_sys k1 r2). unfold inR at 1. simpl. rewrite Hr2. split; [done|].
  apply wp_bind. unfold free_proc. apply wp_bind. eapply wp_inK; [done|].
  destruct (law_kfree a r2) as (r3 & Hr3 & Hg3).
  exists tt, (mk_sys (erase a k1) r3). unfold inR. simpl. rewrite Hr3. split; [done|]. apply wp_ret.
  split; [done|]. split; [done|]. split; [intros x Hx Ho; simpl; by apply Hg3, Hg2, Hg1, Ho|].
  exists r1, r2. split; [done|]. by rewrite <- Hks.
Qed.

(** C15: one pass of [do_wait] (for any child, or for the child with a given
    identifier) ends in one of three ways, decided by the children it is about.
    A zombie among them is reaped: its exit code is stored for the caller, and
    after that its kernel stack and its descriptor are freed and nothing else is
    asked of memory; it disappears from the process table, the hash lists and the
    family tree, and the invariant holds again.  With children but no zombie the caller sleeps in
    the state that an exiting child wakes, and another process runs.  Without any
    such child it fails with -E_BAD_PROC and nothing changes. *)
Theorem do_wait_correct (s : sys R) (fam : Z -> list Z) (i code_store : Z) :
  let k := kst s in
  proc_inv k fam -> held owned s -> runnable k (current k) -> current k <> idleproc k ->
  alive k (initproc k) ->
  exists v s', do_wait_pass i code_store s = Ret (v, s') /\ held owned s' /\
    ((exists a p, a ∈ candidates k fam i /\ procs k !! a = Some p /\ state p = PROC_ZOMBIE /\
        v = Some 0 /\ reaped k fam (current k) a (kst s') /\
        resources_reaped a p code_store (rst s) (rst s')) \/
     (v = None /\ candidates k fam i <> [] /\ (forall a, a ∈ candidates k fam i -> ~ zombie k a) /\
        proc_inv (kst s') fam /\ current (kst s') <> current k /\
        (exists c, procs (kst s') !! current k = Some c /\ state c = PROC_SLEEPING /\ wait_state c = WT_CHILD)) \/
     (v = Some (- E_BAD_PROC) /\ candidates k fam i = [] /\ s' = s)).
Proof.
  destruct s as [k r]. cbn [kst rst]. intros Hi Hh Hrun Hci Hal.
  destruct (look_for_child_eq k fam i Hi (pi_current _ _ Hi)) as (o & b & Hl & Hpost).
  assert (Hlk : inK (R:=R) (look_for_child i) (mk_sys k r) = Ret ((o, b), mk_sys k r))
    by (unfold inK; simpl; by rewrite Hl).
  unfold do_wait_pass. rewrite (bind_Ret _ _ _ _ _ Hlk). destruct o as [a|]; simpl in Hpost.
  - destruct Hpost as [Hin (p & Hp & Hz)].
    assert (Hfa : a ∈ fam (current k)).
    { unfold candidates in Hin. case_decide; [done|]. by apply list_elem_of_filter in Hin as [_ ?]. }
    destruct (pi_tree _ _ Hi) as [Hf Hc]. destruct (Hf _ (pi_current _ _ Hi)) as (_ & Hs & _ & _ & Hself).
    destruct (sibs_elem _ _ _ _ _ _ Hs Hfa) as (x & Hx & Hpar). apply lks_lookup in Hx as (p' & Hp' & <-).
    assert (p' = p) as -> by congruence. simpl in Hpar.
    assert (Hal' : a ∈ proc_list (table k)).
    { assert (Hae := Hc _ _ (pi_current _ _ Hi) Hfa). apply elem_of_cons in Hae as [->|?]; [|done].
      by destruct (pi_root _ _ Hi _ (pi_current _ _ Hi)). }
    destruct (reap_wp k r fam a p code_store) as (v & s' & Hr & -> & Hre & Hg & Hst); try done.
    { intros ->. done. } { intros ->. destruct Hal as (q & ? & ?). congruence. }
    rewrite (bind_Ret _ _ _ _ _ Hr). exists (Some 0), s'. split; [done|]. rewrite Hpar in Hre. split.
    + intros c Hcs. assert (Hca : c <> a).
      { intros ->. rewrite (re_gone _ _ _ _ _ Hre) in Hcs. by destruct Hcs. }
      apply Hg; [done|]. apply Hh. cbn [kst]. apply (pi_dom _ _ Hi). apply (pi_dom _ _ (re_inv _ _ _ _ _ Hre)) in Hcs.
      unfold everyone in *. rewrite (re_list _ _ _ _ _ Hre) in Hcs.
      destruct (re_current _ _ _ _ _ Hre) as (_ & Hid & _). rewrite Hid in Hcs.
      apply elem_of_cons in Hcs as [->|Hcs]; [apply list_elem_of_here|].
      apply elem_of_remove in Hcs as [Hcs _]. by apply list_elem_of_further.
    + left. by exists a, p.
  - destruct Hpost as [Hno ->]. simpl. case_bool_decide as He; simpl.
    + eexists _, _. split; [done|]. split; [done|]. right. by right.
    + destruct (fall_asleep_eq k fam WT_CHILD Hi Hrun Hci) as (k' & Hk' & Hinv & Hne & Hc & Hev).
      unfold fall_asleep, mbind, M_bind in Hk'. unfold mbind, M_bind, get, inK. simpl.
      destruct (update_proc _ _ k) as [[[] k1]| | |]; try done. simpl.
      destruct (update_proc _ _ k1) as [[[] k2]| | |]; try done. simpl. rewrite Hk'.
      eexists _, _. split; [done|]. cbn [kst rst]. split.
      * intros c Hcs. apply Hh. cbn [kst] in *. apply (pi_dom _ _ Hi). apply (pi_dom _ _ Hinv) in Hcs.
        by rewrite <- Hev.
      * right. left. done.
Qed.

End WaitTheorem.

(** ** Witnesses *)

(** The init process (10, identifier 1) runs; its child 20 is a zombie with exit
    code 42, its child 30 sleeps.  [running] has 20 alive and current. *)
Definition tree_proc (st : proc_state) (i par c y o code : Z) : proc :=
  mk_proc st i 0 0x80010000 false par NULL (0, 0) NULL 7 0 [] code 0 c y o 0 0 77.

Definition tree_hash : list (list Z) :=
  <[Z.to_nat (pid_hashfn 3) := [30]]> (<[Z.to_nat (pid_hashfn 2) := [20]]>
    (<[Z.to_nat (pid_hashfn 1) := [10]]> empty_hash)).
Arguments tree_hash : simpl never.

Definition tree_ks (cur : Z) (st10 st20 : proc_state) (code : Z) : ks :=
  mk_ks {[ 1 := tree_proc PROC_RUNNABLE 0 NULL 10 NULL NULL 0;
           10 := tree_proc st10 1 1 30 NULL NULL 0;
           20 := tree_proc st20 2 10 NULL 30 NULL code;
           30 := tree_proc PROC_SLEEPING 3 10 NULL NULL 20 0 ]}
    cur 1 10 (mk_rq [] 0 20) ∅ []
    (mk_pt [30; 20; 10] tree_hash 4 MAX_PID 3) ∅ ∅ ∅ ∅ ∅ 0 7.

Definition tree_fam (x : Z) : list Z :=
  if decide (x = 1) then [10] else if decide (x = 10) then [30; 20] else [].

Lemma tree_bucket i a : a ∈ bucket tree_hash i -> a ∈ [30; 20; 10].
Proof.
  assert (Hl : forall n, n = pid_hashfn 1 \/ n = pid_hashfn 2 \/ n = pid_hashfn 3 ->
    (Z.to_nat n < length empty_hash)%nat).
  { intros n Hn. assert (Hr : 0 <= n < HASH_LIST_SIZE) by (destruct Hn as [->|[->| ->]]; apply hash_range).
    replace (length empty_hash) with (Z.to_nat HASH_LIST_SIZE) by (by vm_compute). lia. }
  assert (H1 := Hl _ (or_introl eq_refl)). assert (H2 := Hl _ (or_intror (or_introl eq_refl))).
  assert (H3 := Hl _ (or_intror (or_intror eq_refl))). clear Hl.
  unfold tree_hash. rewrite !bucket_insert by (by rewrite ?length_insert).
  clear H1 H2 H3. rewrite !elem_of_cons.
  do 3 (case_decide; [rewrite list_elem_of_singleton; tauto|]).
  change (bucket empty_hash i) with (bucket (hash_list (table boot_ks)) i). rewrite boot_bucket.
  by intros ?%elem_of_nil.
Qed.

Lemma tree_inv cur st10 st20 code :
  (cur = 10 /\ st10 = PROC_RUNNABLE /\ st20 = PROC_ZOMBIE) \/
  (cur = 20 /\ st10 = PROC_SLEEPING /\ st20 = PROC_RUNNABLE) ->
  proc_inv (tree_ks cur st10 st20 code) tree_fam.
Proof.
  intros Hcase. set (k := tree_ks cur st10 st20 code).
  assert (Hdom : forall a, is_Some (procs k !! a) <-> a ∈ everyone k).
  { intros a. unfold k, everyone. simpl. rewrite <- elem_of_dom.
    replace (dom _) with ({[1; 10; 20; 30]} : gset Z) by (vm_compute; reflexivity). set_solver. }
  assert (Hproc : forall a p, procs k !! a = Some p -> state p = PROC_RUNNABLE -> a = 1 \/ a = cur).
  { intros a p Hp Hs. assert (Ha : a ∈ everyone k) by (apply Hdom; eauto).
    unfold everyone in Ha. simpl in Ha. rewrite !elem_of_cons in Ha.
    destruct Ha as [->|[->|[->|[->|Ha]]]]; [by left|..|set_solver];
      vm_compute in Hp; injection Hp as <-; simpl in Hs; naive_solver. }
  assert (Hr1 : runnable k 1) by (by eexists).
  assert (Hrc : runnable k cur) by (destruct Hcase as [(-> & -> & ->)|(-> & -> & ->)]; by eexists).
  split.
  - split; simpl.
    + constructor.
    + intros a. split; [set_solver|]. intros ((p & Hp & Hs) & ? & ?). destruct (Hproc a p Hp Hs); congruence.
    + done.
    + destruct Hrc as (p & ? & _). by exists p.
    + done.
  - split; simpl.
    + by apply (bool_decide_unpack _).
    + by apply (bool_decide_unpack _).
    + by apply (bool_decide_unpack _).
    + intros a Ha. apply Hdom. unfold everyone. by apply list_elem_of_further.
    + by apply (bool_decide_unpack _).
    + intros a Ha. rewrite !elem_of_cons, elem_of_nil in Ha.
      destruct Ha as [->|[->|[->|[]]]]; by vm_compute.
    + by vm_compute.
    + intros i a. apply tree_bucket.
    + intros a Ha. rewrite !elem_of_cons, elem_of_nil in Ha.
      destruct Ha as [->|[->|[->|[]]]]; apply (bool_decide_unpack _); by vm_compute.
    + done.
  - split; simpl; [done|done|]. intros a Ha. left. rewrite !elem_of_cons, elem_of_nil in Ha.
    destruct Ha as [->|[->|[->|[]]]]; by vm_compute.
  - split.
    + intros p Hp. unfold everyone in Hp. simpl in Hp. rewrite !elem_of_cons, elem_of_nil in Hp.
      destruct Hp as [->|[->|[->|[->|[]]]]]; (split; [by eexists|]);
        (split; [simpl; repeat (split; [by eexists|]); exact I|]);
        (split; [by apply (bool_decide_unpack _)|split; by apply (bool_decide_unpack _)]).
    + intros p c _. unfold tree_fam, everyone. simpl. repeat case_decide; set_solver.
  - simpl. intros a Ha. rewrite !elem_of_cons, elem_of_nil in Ha.
    destruct Ha as [->|[->|[->|[]]]]; [exists 10|exists 10|exists 1]; split;
      by apply (bool_decide_unpack _).
  - exact Hdom.
  - destruct Hcase as [(-> & _)|(-> & _)]; by apply (bool_decide_unpack _).
  - done.
  - intros a p Hp Hz. unfold tree_fam. repeat case_decide; [subst a..|done];
      vm_compute in Hp; injection Hp as <-; simpl in Hz; [done|].
    destruct Hcase as [(_ & -> & _)|(_ & -> & _)]; done.
  - intros p Hp. unfold tree_fam. simpl. repeat case_decide; by apply (bool_decide_unpack _).
Qed.

Lemma tree_held cur st10 st20 code : held demo_owned (mk_sys (tree_ks cur st10 st20 code) 100).
Proof.
  intros a [p Hp]. unfold demo_owned. simpl in *. repeat rewrite lookup_insert_Some in Hp.
  rewrite lookup_singleton_Some in Hp. naive_solver lia.
Qed.

Lemma do_wait_correct_witness :
  exists s', do_wait_pass 0 0x1000 (mk_sys (tree_ks 10 PROC_RUNNABLE PROC_ZOMBIE 42) 100) = Ret (Some 0, s') /\
    procs (kst s') !! 20 = None /\ proc_list (table (kst s')) = [30; 10].
Proof.
  assert (Hi : proc_inv (tree_ks 10 PROC_RUNNABLE PROC_ZOMBIE 42) tree_fam) by (apply tree_inv; by left).
  destruct (do_wait_correct demo_owned (mk_sys (tree_ks 10 PROC_RUNNABLE PROC_ZOMBIE 42) 100) tree_fam 0 0x1000)
    as (v & s' & Hr & _ & Hc); [exact Hi|apply tree_held|by eexists|done|by eexists|].
  exists s'. destruct Hc as [(a & p & Ha & Hp & Hz & -> & Hre & _)|[(_ & _ & Hno & _)|(_ & He & _)]].
  - assert (a = 20) as ->.
    { change (a ∈ [30; 20]) in Ha. rewrite !elem_of_cons, elem_of_nil in Ha. destruct Ha as [->|[->|[]]]; [|done].
      vm_compute in Hp. injection Hp as <-. done. }
    split; [exact Hr|]. split; [apply Hre|]. by rewrite (re_list _ _ _ _ _ Hre).
  - destruct (Hno 20); [by apply (bool_decide_unpack _)|by eexists].
  - done.
Defined.

Lemma do_exit_correct_witness :
  exists s', do_exit demo_symbols 42 (mk_sys (tree_ks 20 PROC_SLEEPING PROC_RUNNABLE 0) 100) = Ret (tt, s') /\
    zombie (kst s') 20 /\ current (kst s') <> 20.
Proof.
  destruct (do_exit_correct demo_owned demo_symbols (mk_sys (tree_ks 20 PROC_SLEEPING PROC_RUNNABLE 0) 100) tree_fam
    (tree_proc PROC_RUNNABLE 2 10 NULL 30 NULL 0) 42) as (s' & Hr & _ & Hex).
  - apply tree_inv. by right.
  - apply tree_held.
  - done.
  - done.
  - done.
  - done.
  - by apply (bool_decide_unpack _).
  - by eexists.
  - exists s'. split; [exact Hr|]. destruct (ex_zombie _ _ _ _ Hex) as (p & ? & ? & _).
    split; [by exists p|apply (ex_gone _ _ _ _ Hex)].
Defined.

End WaitSpec.
