(* ===== verification/Paging.v ===== *)
(** Page tables and the software-managed TLB: the address macros of
    src/ucore_OS/kern/mm/mmu.h and pmm.h, the page table functions of
    kern/mm/pmm.c and the refill handler of kern/mm/tlb.c.  Page frames come from
    the allocator of [DefaultPmm]; a [struct Page *] is the number of its frame.
    The kernel sees physical memory at KERNBASE; [words] holds the words it
    reads and writes there. *)

From S2P Require Import Prelude DefaultPmm.

Module Paging.

(** ** Addresses (mmu.h, memlayout.h, defs.h) *)

Definition PGSIZE : Z := 4096.
Definition PTSIZE : Z := 0x400000.
Definition PDX (la : Z) : Z := Z.land (la ≫ 22) 0x3ff.
Definition PTX (la : Z) : Z := Z.land (la ≫ 12) 0x3ff.
Definition PPN (la : Z) : Z := la ≫ 12.
Definition PGOFF (la : Z) : Z := Z.land la 0xfff.
Definition PTE_ADDR (pte : Z) : Z := Z.land pte 0xfffff000.
Definition PTE_P : Z := 0x1.
Definition PTE_W : Z := 0x2.
Definition PTE_U : Z := 0x4.
Definition PTE_USER : Z := 0x7.
Definition KERNBASE : Z := 0x80000000.
Definition KMEMSIZE : Z := 0x800000.
Definition USERBASE : Z := 0x200000.
Definition USERTOP : Z := 0x80000000.
Definition VPT : Z := 0xfac00000.
Definition E_NO_MEM : Z := 4.
Definition USER_ACCESS (start end_ : Z) : bool :=
  (USERBASE <=? start) && (start <? end_) && (end_ <=? USERTOP).
Definition ROUNDDOWN (a n : Z) : Z := a - a `mod` n.
Definition ROUNDUP (a n : Z) : Z := ROUNDDOWN (u32 (a + n - 1)) n.

(** ** TLB fields (tlb.h) *)

Definition TLBN : Z := 0x10.
Definition TLBIDX (pte : Z) : Z := Z.land (pte ≫ 8) 0xf.
Definition TLB_P : Z := 0x80.
Definition TLBPAIR (la : Z) : Z := Z.lxor la 0x1000.
Definition TLBLO (la : Z) : Z := Z.land (PPN la) 1.
Definition ENTRYLO_AUX (pfn d : Z) : Z := Z.lor (Z.lor (Z.lor (u32 (pfn ≪ 6)) 0x10) (d ≪ 2)) 0x3.
Definition ENTRYLO (pte : Z) : Z := ENTRYLO_AUX (PPN pte) (Z.land (pte ≫ 1) 1).
Definition ENTRYLO_INVALID : Z := 0.
Definition ENTRYHI_INVALID : Z := 0x80000000.

(** ** State *)

(** The globals of pmm.c and tlb.c, kernel memory, and the processor's TLB as
    the emulator keeps it. *)
Record t := mk {
  words : gmap Z Z;
  npage : Z;
  pmm : Pmm.t;
  swap_init_ok : bool;
  cur_pgdir : Z;
  tlb_key : list Z; tlb_data0 : list Z; tlb_data1 : list Z;
  tlb_algo_empty : list Z; tlb_algo_n : Z; tlb_algo_hi : list Z; tlb_algo_ptr : Z
}.

Definition set_words w s := mk w (npage s) (pmm s) (swap_init_ok s) (cur_pgdir s)
  (tlb_key s) (tlb_data0 s) (tlb_data1 s) (tlb_algo_empty s) (tlb_algo_n s) (tlb_algo_hi s) (tlb_algo_ptr s).
Definition set_pmm p s := mk (words s) (npage s) p (swap_init_ok s) (cur_pgdir s)
  (tlb_key s) (tlb_data0 s) (tlb_data1 s) (tlb_algo_empty s) (tlb_algo_n s) (tlb_algo_hi s) (tlb_algo_ptr s).
Definition set_cur_pgdir g s := mk (words s) (npage s) (pmm s) (swap_init_ok s) g
  (tlb_key s) (tlb_data0 s) (tlb_data1 s) (tlb_algo_empty s) (tlb_algo_n s) (tlb_algo_hi s) (tlb_algo_ptr s).
Definition set_tlb a b c s := mk (words s) (npage s) (pmm s) (swap_init_ok s) (cur_pgdir s)
  a b c (tlb_algo_empty s) (tlb_algo_n s) (tlb_algo_hi s) (tlb_algo_ptr s).
Definition set_algo e n h p s := mk (words s) (npage s) (pmm s) (swap_init_ok s) (cur_pgdir s)
  (tlb_key s) (tlb_data0 s) (tlb_data1 s) e n h p.

(** A word at a kernel virtual address. *)
Definition ld (a : Z) : M t Z := fun s =>
  match words s !! a with Some v => Ret (v, s) | None => Fault end.
Definition st (a v : Z) : M t unit := fun s =>
  match words s !! a with
  | Some _ => Ret (tt, set_words (<[a := v]> (words s)) s)
  | None => Fault
  end.

Definition on_pmm {A} (m : M Pmm.t A) : M t A := fun s =>
  match m (pmm s) with
  | Ret (a, p) => Ret (a, set_pmm p s)
  | Panic => Panic | Fault => Fault | Diverge => Diverge
  end.

(** ** Frames (pmm.h, pmm.c) *)

Definition PADDR (kva : Z) : M t Z := assert_ (KERNBASE <=? kva);; mret (kva - KERNBASE).
Definition KADDR (pa : Z) : M t Z :=
  s ← get; assert_ (PPN pa <? npage s);; mret (u32 (pa + KERNBASE)).
Definition page2pa (page : Z) : Z := u32 (page ≪ 12).
Definition pa2page (pa : Z) : M t Z := s ← get; assert_ (PPN pa <? npage s);; mret (PPN pa).
Definition page2kva (page : Z) : M t Z := KADDR (page2pa page).
Definition kva2page (kva : Z) : M t Z := pa ← PADDR kva; pa2page pa.
Definition pte2page (pte : Z) : M t Z :=
  assert_ (negb (Z.land pte PTE_P =? 0));; pa2page (PTE_ADDR pte).
Definition pde2page (pde : Z) : M t Z := pa2page (PTE_ADDR pde).

Definition set_ref (page v : Z) : M t unit :=
  on_pmm (Pmm.update_page page (fun p => Pmm.mk_page v (Pmm.flags p) (Pmm.property p))).
Definition page_ref (page : Z) : M t Z := p ← on_pmm (Pmm.load_page page); mret (Pmm.ref p).
Definition page_ref_inc (page : Z) : M t Z :=
  r ← page_ref page; set_ref page (s32 (r + 1));; page_ref page.
Definition page_ref_dec (page : Z) : M t Z :=
  r ← page_ref page; set_ref page (s32 (r - 1));; page_ref page.

(** Once swapping is on and no frame is left, [alloc_page] asks [swap_out] of
    [check_mm_struct] for one, which is NULL except during the self tests: the
    victim list of a null address space is followed. *)
Definition alloc_pages (n : Z) : M t (option Z) :=
  r ← on_pmm (Pmm.default_alloc_pages n);
  s ← get;
  match r with
  | Some page => mret (Some page)
  | None => if (1 <? n) || negb (swap_init_ok s) then mret None else fault
  end.
Definition alloc_page : M t (option Z) := alloc_pages 1.
Definition free_pages (base n : Z) : M t unit := on_pmm (Pmm.default_free_pages base n).
Definition free_page (page : Z) : M t unit := free_pages page 1.
Definition nr_free_pages : M t Z := on_pmm Pmm.default_nr_free_pages.

(** [memset(kva, 0, PGSIZE)] and [memcpy(dst, src, PGSIZE)], word by word. *)
Fixpoint zero_words (n : nat) (a : Z) : M t unit :=
  match n with O => mret tt | S n => st a 0;; zero_words n (a + 4) end.
Fixpoint copy_words (n : nat) (d s : Z) : M t unit :=
  match n with O => mret tt | S n => v ← ld s; st d v;; copy_words n (d + 4) (s + 4) end.
Definition NPTEENTRY : nat := Z.to_nat 1024.

(** ** Page tables (pmm.c) *)

(** The address of the entry for [la], 0 when its table does not exist. *)
Definition get_pte (pgdir la : Z) (create : bool) : M t Z :=
  let pdep := pgdir + 4 * PDX la in
  e ← ld pdep;
  if (Z.land e PTE_P =? 0) && negb create then mret 0 else
  when (Z.land e PTE_P =? 0)
    (o ← alloc_page;
     page ← lift_opt o;
     set_ref page 1;;
     st pdep (Z.lor (page2pa page) PTE_USER);;
     a ← KADDR (page2pa page);
     zero_words NPTEENTRY a);;
  e ← ld pdep;
  base ← KADDR (Z.land e 0xfffff000);
  mret (base + 4 * (Z.land la 0x3ff000 ≫ 12)).

Definition get_page (pgdir la : Z) : M t (option Z) :=
  ptep ← get_pte pgdir la false;
  if ptep =? 0 then mret None else
  e ← ld ptep;
  if negb (Z.land e PTE_P =? 0) then p ← pa2page e; mret (Some p) else mret None.

(** ** The TLB (tlb.c) *)

(** The four [mtc0] and the [tlbwi]. *)
Definition tlb_write (idx hi lo0 lo1 : Z) : M t unit :=
  defined (idx <? TLBN);;
  modify (fun s => set_tlb (arr_set (tlb_key s) idx hi) (arr_set (tlb_data0 s) idx lo0)
                           (arr_set (tlb_data1 s) idx lo1) s).

Fixpoint tlb_clear (n : nat) (i : Z) : M t unit :=
  match n with
  | O => mret tt
  | S n => tlb_write i ENTRYHI_INVALID ENTRYLO_INVALID ENTRYLO_INVALID;; tlb_clear n (i + 1)
  end.

Definition tlb_init_callback : M t unit :=
  modify (fun s => set_algo (seqZ 0 TLBN) TLBN (tlb_algo_hi s) (tlb_algo_ptr s) s).

Definition tlb_init : M t unit := tlb_clear (Z.to_nat TLBN) 0;; tlb_init_callback.

Definition load_pgdir (pgdir : Z) : M t unit := modify (set_cur_pgdir pgdir);; tlb_init.

(** [if (ptep != NULL) *ptep &= ~TLB_P] for the entry of [la]. *)
Definition drop_tlb_p (la : Z) : M t unit :=
  s ← get;
  ptep ← get_pte (cur_pgdir s) la false;
  when (negb (ptep =? 0)) (e ← ld ptep; st ptep (Z.land e (u32 (Z.lnot TLB_P)))).

Definition tlb_get_empty (hi : Z) : M t Z :=
  s ← get;
  idx ← (if 0 <? tlb_algo_n s then
           let n := tlb_algo_n s - 1 in
           modify (set_algo (tlb_algo_empty s) n (tlb_algo_hi s) (tlb_algo_ptr s));;
           mret (arr_get (tlb_algo_empty s) n)
         else
           let idx := tlb_algo_ptr s in
           modify (set_algo (tlb_algo_empty s) (tlb_algo_n s) (tlb_algo_hi s) (u8 (idx + 1) `mod` TLBN));;
           let hi0 := arr_get (tlb_algo_hi s) idx in
           drop_tlb_p hi0;;
           drop_tlb_p (TLBPAIR hi0);;
           mret idx);
  modify (fun s => set_algo (tlb_algo_empty s) (tlb_algo_n s) (arr_set (tlb_algo_hi s) idx hi) (tlb_algo_ptr s) s);;
  mret idx.

Definition tlb_del_callback (idx : Z) : M t unit := modify (fun s =>
  set_algo (arr_set (tlb_algo_empty s) (tlb_algo_n s) idx) (u8 (tlb_algo_n s + 1))
    (tlb_algo_hi s) (tlb_algo_ptr s) s).

(** [lo[TLBLO(la)] = x], the other half [y]. *)
Definition halves (la x y : Z) : Z * Z := if TLBLO la =? 0 then (x, y) else (y, x).

(** The refill, once the entry of [la] is at [ptep] and present. *)
Definition tlb_refill (la ptep : Z) : M t Z :=
  s ← get;
  ptep2 ← get_pte (cur_pgdir s) (TLBPAIR la) false;
  e ← ld ptep;
  e2 ← (if ptep2 =? 0 then mret 0 else ld ptep2);
  let hi := Z.land la 0xffffe000 in
  r ← (if negb (ptep2 =? 0) && negb (Z.land e2 TLB_P =? 0)
       then mret (TLBIDX e2, ENTRYLO e2)
       else idx ← tlb_get_empty hi; mret (idx, ENTRYLO_INVALID));
  let lo := halves la (ENTRYLO e) r.2 in
  tlb_write r.1 hi lo.1 lo.2;;
  e ← ld ptep;
  st ptep (Z.lor (Z.lor (Z.land e 0xfffff0ff) (r.1 ≪ 8)) TLB_P);;
  mret 0.

(** [tlb_miss_handler] for the address space [mm] of the current process, whose
    directory is [mm_pgdir]; [pgfault] is do_pgfault and [in_kernel] the mode of
    the trap.  [None] when the process is killed. *)
Definition tlb_miss_handler (pgfault : Z -> Z -> M t Z) (mm mm_pgdir : Z) (in_kernel store : bool)
    (la : Z) : M t (option Z) :=
  s ← get;
  assert_ (negb (cur_pgdir s =? 0));;
  ptep ← get_pte (cur_pgdir s) la false;
  e ← (if ptep =? 0 then mret 0 else ld ptep);
  if (ptep =? 0) || (Z.land e PTE_P =? 0) then
    assert_ (negb (mm =? 0));;
    assert_ (mm_pgdir =? cur_pgdir s);;
    r ← pgfault (if store then 2 else 0) la;
    if negb (r =? 0) then assert_ (negb in_kernel);; mret None else
    ptep ← get_pte (cur_pgdir s) la false;
    defined (negb (ptep =? 0));;
    v ← tlb_refill la ptep; mret (Some v)
  else v ← tlb_refill la ptep; mret (Some v).

Definition tlb_invalidate (pgdir la : Z) : M t unit :=
  s ← get;
  if negb (pgdir =? cur_pgdir s) then mret tt else
  ptep ← get_pte pgdir la false;
  if ptep =? 0 then mret tt else
  e ← ld ptep;
  if Z.land e TLB_P =? 0 then mret tt else
  let idx := TLBIDX e in
  ptep2 ← get_pte pgdir (TLBPAIR la) false;
  e2 ← (if ptep2 =? 0 then mret 0 else ld ptep2);
  r ← (if negb (ptep2 =? 0) && negb (Z.land e2 TLB_P =? 0)
       then mret (Z.land la 0xffffe000, ENTRYLO e2)
       else tlb_del_callback idx;; mret (ENTRYHI_INVALID, ENTRYLO_INVALID));
  let lo := halves la ENTRYLO_INVALID r.2 in
  tlb_write idx r.1 lo.1 lo.2;;
  e ← ld ptep;
  st ptep (Z.land e (u32 (Z.lnot TLB_P))).

(** ** Mappings (pmm.c) *)

Definition page_remove_pte (pgdir la ptep : Z) : M t unit :=
  e ← ld ptep;
  when (0 <? Z.land e PTE_P)
    (page ← pte2page e;
     r ← page_ref_dec page;
     when (r =? 0) (free_page page);;
     tlb_invalidate pgdir la;;
     st ptep 0).

Definition page_remove (pgdir la : Z) : M t unit :=
  ptep ← get_pte pgdir la false;
  when (negb (ptep =? 0)) (page_remove_pte pgdir la ptep).

Definition page_insert (pgdir page la perm : Z) : M t Z :=
  ptep ← get_pte pgdir la true;
  if ptep =? 0 then mret (- E_NO_MEM) else
  page_ref_inc page;;
  e ← ld ptep;
  when (negb (Z.land e PTE_P =? 0))
    (p ← pte2page e;
     if p =? page then page_ref_dec page;; mret tt
     else page_remove_pte pgdir la ptep);;
  tlb_invalidate pgdir la;;
  st ptep (Z.lor (Z.lor (page2pa page) PTE_P) perm);;
  mret 0.

(** The list for page replacement is kept only for [check_mm_struct], which is
    NULL outside the self tests. *)
Definition pgdir_alloc_page (pgdir la perm : Z) : M t (option Z) :=
  o ← alloc_page;
  match o with
  | None => mret None
  | Some page =>
      r ← page_insert pgdir page la perm;
      if negb (r =? 0) then free_page page;; mret None else mret (Some page)
  end.

(** The loops over a user range; each pass moves [start] up by at least a page. *)
Definition range_fuel (start end_ : Z) : nat := S (Z.to_nat ((end_ - start) / PGSIZE)).

Fixpoint unmap_loop (fuel : nat) (pgdir start end_ : Z) : M t unit :=
  match fuel with
  | O => diverge
  | S fuel =>
      let again start := if negb (start =? 0) && (start <? end_) then unmap_loop fuel pgdir start end_ else mret tt in
      ptep ← get_pte pgdir start false;
      if ptep =? 0 then again (ROUNDDOWN (u32 (start + PTSIZE)) PTSIZE) else
      e ← ld ptep;
      when (negb (e =? 0)) (page_remove_pte pgdir start ptep);;
      again (u32 (start + PGSIZE))
  end.
Definition unmap_range (pgdir start end_ : Z) : M t unit :=
  assert_ ((start `mod` PGSIZE =? 0) && (end_ `mod` PGSIZE =? 0));;
  assert_ (USER_ACCESS start end_);;
  unmap_loop (range_fuel start end_) pgdir start end_.

Fixpoint exit_loop (fuel : nat) (pgdir start end_ : Z) : M t unit :=
  match fuel with
  | O => diverge
  | S fuel =>
      let a := pgdir + 4 * PDX start in
      e ← ld a;
      when (negb (Z.land e PTE_P =? 0)) (p ← pde2page e; free_page p;; st a 0);;
      let start := u32 (start + PTSIZE) in
      if negb (start =? 0) && (start <? end_) then exit_loop fuel pgdir start end_ else mret tt
  end.
Definition exit_range (pgdir start end_ : Z) : M t unit :=
  assert_ ((start `mod` PGSIZE =? 0) && (end_ `mod` PGSIZE =? 0));;
  assert_ (USER_ACCESS start end_);;
  exit_loop (range_fuel start end_) pgdir (ROUNDDOWN start PTSIZE) end_.

Fixpoint copy_loop (fuel : nat) (to from start end_ : Z) : M t Z :=
  match fuel with
  | O => diverge
  | S fuel =>
      let again start := if negb (start =? 0) && (start <? end_) then copy_loop fuel to from start end_ else mret 0 in
      ptep ← get_pte from start false;
      if ptep =? 0 then again (ROUNDDOWN (u32 (start + PTSIZE)) PTSIZE) else
      e ← ld ptep;
      if negb (Z.land e PTE_P =? 0) then
        nptep ← get_pte to start true;
        if nptep =? 0 then mret (- E_NO_MEM) else
        e ← ld ptep;
        page ← pte2page e;
        o ← alloc_page;
        npage ← match o with Some p => mret p | None => panic end;
        d ← page2kva npage;
        s ← page2kva page;
        copy_words NPTEENTRY d s;;
        page_insert to npage start (Z.land e PTE_USER);;
        again (u32 (start + PGSIZE))
      else again (u32 (start + PGSIZE))
  end.
Definition copy_range (to from start end_ : Z) : M t Z :=
  assert_ ((start `mod` PGSIZE =? 0) && (end_ `mod` PGSIZE =? 0));;
  assert_ (USER_ACCESS start end_);;
  copy_loop (range_fuel start end_) to from start end_.

(** ** Start (pmm.c) *)

Fixpoint map_loop (n : nat) (pgdir la pa perm : Z) : M t unit :=
  match n with
  | O => mret tt
  | S n =>
      ptep ← get_pte pgdir la true;
      assert_ (negb (ptep =? 0));;
      st ptep (Z.lor (Z.lor pa PTE_P) perm);;
      map_loop n pgdir (u32 (la + PGSIZE)) (u32 (pa + PGSIZE)) perm
  end.
Definition boot_map_segment (pgdir la size pa perm : Z) : M t unit :=
  assert_ (PGOFF la =? PGOFF pa);;
  map_loop (Z.to_nat (ROUNDUP (u32 (size + PGOFF la)) PGSIZE / PGSIZE)) pgdir
    (ROUNDDOWN la PGSIZE) (ROUNDDOWN pa PGSIZE) perm.

Definition boot_alloc_page : M t Z :=
  o ← alloc_page; match o with Some p => page2kva p | None => panic end.

Fixpoint reserve_pages (n : nat) (i : Z) : M t unit :=
  match n with
  | O => mret tt
  | S n =>
      on_pmm (Pmm.update_page i (fun p =>
        Pmm.mk_page (Pmm.ref p) (Pmm.set_bit Pmm.PG_reserved (Pmm.flags p)) (Pmm.property p)));;
      reserve_pages n (i + 1)
  end.

(** [end_] is the end of the kernel image; the array of 32-byte descriptors
    follows it. *)
Definition sizeof_Page : Z := 32.
Definition page_init (end_ : Z) : M t unit :=
  let n := KMEMSIZE / PGSIZE in
  modify (fun s => mk (words s) n (pmm s) (swap_init_ok s) (cur_pgdir s) (tlb_key s) (tlb_data0 s)
    (tlb_data1 s) (tlb_algo_empty s) (tlb_algo_n s) (tlb_algo_hi s) (tlb_algo_ptr s));;
  let pages := ROUNDUP end_ PGSIZE in
  reserve_pages (Z.to_nat n) 0;;
  freemem ← PADDR (u32 (pages + sizeof_Page * n));
  let begin := ROUNDUP freemem PGSIZE in
  let end_ := ROUNDDOWN KMEMSIZE PGSIZE in
  when (begin <? end_)
    (p ← pa2page begin; on_pmm (Pmm.default_init_memmap p ((end_ - begin) / PGSIZE))).

Definition enable_paging (boot_pgdir : Z) : M t unit := tlb_init;; load_pgdir boot_pgdir.

End Paging.
