(* ===== verification/PagingSpec.v ===== *)
(** The abstract page table behind a directory: from page numbers to entries.
    Lookups, loads and stores through [get_pte] (kern/mm/pmm.c) are operations
    on it; the fields of an entry (mmu.h, tlb.h) are read and written without
    disturbing one another. *)

From S2P Require Import Prelude DefaultPmm Paging.

Module PagingSpec.
Import Paging.

(** ** Fields of an entry *)

Definition present (e : Z) : bool := Z.testbit e 0.
Definition cached (e : Z) : bool := Z.testbit e 7.

(** What [tlb_miss_handler] and the eviction write back. *)
Definition tlb_fill (e idx : Z) : Z := Z.lor (Z.lor (Z.land e 0xfffff0ff) (idx ≪ 8)) TLB_P.
Definition tlb_drop (e : Z) : Z := Z.land e (u32 (Z.lnot TLB_P)).

Lemma present_test e : (Z.land e PTE_P =? 0) = negb (present e).
Proof. apply testbit_land1. Qed.

Lemma cached_test e : (Z.land e TLB_P =? 0) = negb (cached e).
Proof.
  unfold cached, TLB_P. change 0x80 with (2 ^ 7). rewrite land_pow2 by lia.
  by destruct (Z.testbit e 7).
Qed.

Lemma idx_shift_u32 idx : 0 <= idx < 16 -> is_u32 (idx ≪ 8).
Proof. intros. rewrite Z.shiftl_mul_pow2 by lia. change (2 ^ 8) with 256. width. Qed.

Lemma tlb_fill_u32 e idx : is_u32 e -> 0 <= idx < 16 -> is_u32 (tlb_fill e idx).
Proof.
  intros. unfold tlb_fill, TLB_P. apply is_u32_lor; [|width].
  apply is_u32_lor; [by apply is_u32_land | by apply idx_shift_u32].
Qed.

Lemma tlb_drop_u32 e : is_u32 e -> is_u32 (tlb_drop e).
Proof. apply is_u32_land. Qed.

Ltac fields := unfold present, cached, tlb_fill, tlb_drop, TLB_P;
  rewrite ?Z.lor_spec, ?Z.land_spec, ?Z.shiftl_spec by lia.

Lemma tlb_fill_cached e idx : cached (tlb_fill e idx) = true.
Proof. fields. by rewrite orb_true_r. Qed.
Lemma tlb_fill_present e idx : present (tlb_fill e idx) = present e.
Proof. fields. rewrite (Z.testbit_neg_r idx) by lia. simpl. by rewrite andb_true_r, !orb_false_r. Qed.
Lemma tlb_drop_cached e : cached (tlb_drop e) = false.
Proof. fields. by rewrite andb_false_r. Qed.
Lemma tlb_drop_present e : present (tlb_drop e) = present e.
Proof. fields. by rewrite andb_true_r. Qed.

Lemma TLBIDX_range e : 0 <= TLBIDX e < 16.
Proof.
  unfold TLBIDX. change 0xf with (2 ^ 4 - 1). rewrite land_low by lia.
  change (2 ^ 4) with 16. width.
Qed.

(** Bits 8-11 of an entry, as a number. *)
Lemma TLBIDX_fill e idx : 0 <= idx < 16 -> TLBIDX (tlb_fill e idx) = idx.
Proof.
  intros Hi. unfold TLBIDX, tlb_fill, TLB_P. apply Z.bits_inj'. intros i H0.
  rewrite Z.land_spec, Z.shiftr_spec, !Z.lor_spec, Z.land_spec, Z.shiftl_spec by lia.
  replace (i + 8 - 8) with i by lia.
  destruct (Z.lt_ge_cases i 4) as [Hl|Hg].
  - assert (H : i = 0 \/ i = 1 \/ i = 2 \/ i = 3) by lia.
    destruct H as [->|[->|[->| ->]]]; const_testbit; by rewrite andb_false_r, orb_false_r, andb_true_r.
  - rewrite (testbit_bound 15 4) by lia. rewrite andb_false_r.
    by rewrite (testbit_bound idx 4) by lia.
Qed.

Lemma TLBIDX_drop e : TLBIDX (tlb_drop e) = TLBIDX e.
Proof.
  unfold TLBIDX, tlb_drop, TLB_P. apply Z.bits_inj'. intros i H0.
  rewrite !Z.land_spec, !Z.shiftr_spec, Z.land_spec by lia.
  destruct (Z.lt_ge_cases i 4) as [Hl|Hg].
  - assert (H : i = 0 \/ i = 1 \/ i = 2 \/ i = 3) by lia.
    destruct H as [->|[->|[->| ->]]]; const_testbit; by rewrite !andb_true_r.
  - by rewrite (testbit_bound 15 4), !andb_false_r by lia.
Qed.

(** The word given to the TLB depends on the frame and the writable bit only. *)
Lemma ENTRYLO_AUX_same e e' :
  PPN e = PPN e' -> Z.testbit e 1 = Z.testbit e' 1 -> ENTRYLO e = ENTRYLO e'.
Proof.
  intros Hp Hw. unfold ENTRYLO. rewrite Hp. f_equal.
  apply Z.bits_inj'. intros i Hi. rewrite !Z.land_spec, !Z.shiftr_spec by lia.
  destruct (decide (i = 0)) as [->|]; [change (0 + 1) with 1; by rewrite Hw|].
  by rewrite (testbit_bound 1 1), !andb_false_r by lia.
Qed.

Lemma PPN_mask e m :
  is_u32 e -> (forall i, 12 <= i < 32 -> Z.testbit m i = true) -> PPN (Z.land e m) = PPN e.
Proof.
  intros He Hm. unfold PPN. apply Z.bits_inj'. intros i Hi.
  rewrite !Z.shiftr_spec, Z.land_spec by lia.
  destruct (Z.lt_ge_cases (i + 12) 32).
  - by rewrite Hm, andb_true_r by lia.
  - apply is_u32_bits in He as [_ He]. by rewrite He.
Qed.

Lemma high_ones m n : 0 <= n -> m `div` 4096 = 2 ^ n - 1 ->
  forall i, 12 <= i < 12 + n -> Z.testbit m i = true.
Proof.
  intros Hn Hm i Hi. replace i with ((i - 12) + 12) by lia.
  rewrite <- (Z.shiftr_spec m) by lia. rewrite Z.shiftr_div_pow2 by lia.
  change (2 ^ 12) with 4096. rewrite Hm. rewrite Z.sub_1_r, <- Z.ones_equiv.
  apply Z.ones_spec_low. lia.
Qed.

Lemma ENTRYLO_drop e : is_u32 e -> ENTRYLO (tlb_drop e) = ENTRYLO e.
Proof.
  intros He. apply ENTRYLO_AUX_same.
  - apply PPN_mask; [done|]. by apply (high_ones _ 20).
  - unfold tlb_drop, TLB_P. rewrite Z.land_spec. by rewrite andb_true_r.
Qed.

Lemma PPN_lor_low e x : 0 <= x < 4096 -> PPN (Z.lor e x) = PPN e.
Proof.
  intros Hx. unfold PPN. rewrite Z.shiftr_lor. rewrite (Z.shiftr_div_pow2 x) by lia.
  change (2 ^ 12) with 4096. rewrite (Z.div_small x) by lia. apply Z.lor_0_r.
Qed.

Lemma ENTRYLO_fill e idx : is_u32 e -> 0 <= idx < 16 -> ENTRYLO (tlb_fill e idx) = ENTRYLO e.
Proof.
  intros He Hi. apply ENTRYLO_AUX_same; unfold tlb_fill, TLB_P.
  - rewrite !PPN_lor_low; [apply PPN_mask; [done|by apply (high_ones _ 20)]| |lia].
    rewrite Z.shiftl_mul_pow2 by lia. change (2 ^ 8) with 256. lia.
  - rewrite !Z.lor_spec, Z.land_spec, Z.shiftl_spec by lia.
    rewrite (Z.testbit_neg_r idx) by lia. simpl. by rewrite andb_true_r, !orb_false_r.
Qed.

(** ** The abstract page table *)

(** A user address and its page number. *)
Definition user (la : Z) : Prop := 0 <= la < 0x80000000.
Definition vpn (la : Z) : Z := la `div` 4096.
Definition user_vpn (v : Z) : Prop := 0 <= v < 2 ^ 19.

Lemma user_vpn_of la : user la -> user_vpn (vpn la).
Proof. unfold user, user_vpn, vpn. change (2 ^ 19) with 524288. width. Qed.

(** [tab] gives the table of each directory slot of the user half. *)
Record pt (g : Z) (tab : gmap Z Z) (s : t) : Prop := {
  pt_align : g `mod` 4096 = 0;
  pt_pde d : 0 <= d < 512 -> exists e, words s !! (g + 4 * d) = Some e /\
    match tab !! d with
    | None => present e = false
    | Some b => present e = true /\ Z.land e 0xfffff000 + KERNBASE = b /\
                PPN (Z.land e 0xfffff000) < npage s
    end;
  pt_tab d b : tab !! d = Some b ->
    b `mod` 4096 = 0 /\ KERNBASE <= b < 0x100000000 /\ b <> g /\
    forall k, 0 <= k < 1024 -> exists e, words s !! (b + 4 * k) = Some e /\ is_u32 e;
  pt_inj d d' b : tab !! d = Some b -> tab !! d' = Some b -> d = d'
}.

Definition entry_addr (tab : gmap Z Z) (v : Z) : option Z :=
  b ← tab !! (v `div` 1024); Some (b + 4 * (v `mod` 1024)).

(** The entry of a page, 0 where there is no table. *)
Definition entry (tab : gmap Z Z) (s : t) (v : Z) : Z :=
  default 0 (a ← entry_addr tab v; words s !! a).

Lemma entry_addr_inv tab v a :
  entry_addr tab v = Some a ->
  exists b, tab !! (v `div` 1024) = Some b /\ a = b + 4 * (v `mod` 1024).
Proof. unfold entry_addr. destruct (tab !! _) as [b|]; [|done]. intros [= <-]. by exists b. Qed.

Section Table.
  Context (g : Z) (tab : gmap Z Z).

Lemma entry_addr_nonzero s v a : pt g tab s -> entry_addr tab v = Some a -> (a =? 0) = false.
Proof.
  intros Hpt (b & Hb & ->)%entry_addr_inv. destruct (pt_tab _ _ _ Hpt _ _ Hb) as (_ & Hr & _).
  unfold KERNBASE in Hr. apply Z.eqb_neq. width.
Qed.

Lemma entry_addr_inj s v v' a :
  pt g tab s -> entry_addr tab v = Some a -> entry_addr tab v' = Some a -> v = v'.
Proof.
  intros Hpt (b & Hb & ->)%entry_addr_inv (b' & Hb' & He)%entry_addr_inv.
  destruct (pt_tab _ _ _ Hpt _ _ Hb) as (Ha & _). destruct (pt_tab _ _ _ Hpt _ _ Hb') as (Ha' & _).
  assert (b = b') as <- by width. assert (Hd := pt_inj _ _ _ Hpt _ _ _ Hb Hb'). width.
Qed.

Lemma PDX_user la : user la -> PDX la = vpn la `div` 1024.
Proof.
  intros Hu. unfold PDX, vpn, user in *. change 0x3ff with (2 ^ 10 - 1).
  rewrite land_low, Z.shiftr_div_pow2 by lia. change (2 ^ 22) with 4194304. change (2 ^ 10) with 1024.
  width.
Qed.

Lemma index_user la : user la -> Z.land la 0x3ff000 ≫ 12 = vpn la `mod` 1024.
Proof.
  intros Hu. rewrite Z.shiftr_land. change (0x3ff000 ≫ 12) with (2 ^ 10 - 1).
  rewrite land_low, Z.shiftr_div_pow2 by lia. done.
Qed.

Lemma KADDR_eq s pa :
  PPN pa < npage s -> 0 <= pa -> pa + KERNBASE < 0x100000000 ->
  KADDR pa s = Ret (pa + KERNBASE, s).
Proof.
  intros Hn H0 Hb. unfold KADDR, get, mbind, M_bind. replace (PPN pa <? npage s) with true by lia.
  simpl. unfold mret, M_ret. rewrite u32_id; [done|]. unfold KERNBASE in *. width.
Qed.

(** [get_pte] without [create] is the lookup of the entry's address. *)
Lemma get_pte_eq s la :
  pt g tab s -> user la ->
  get_pte g la false s = Ret (default 0 (entry_addr tab (vpn la)), s).
Proof.
  intros Hpt Hu. unfold get_pte. rewrite (PDX_user la Hu), (index_user la Hu).
  assert (Hd : 0 <= vpn la `div` 1024 < 512) by (apply user_vpn_of in Hu; unfold user_vpn in Hu; change (2 ^ 19) with 524288 in Hu; width).
  destruct (pt_pde _ _ _ Hpt _ Hd) as (e & He & Hm).
  assert (Hld : ld (g + 4 * (vpn la `div` 1024)) s = Ret (e, s)) by (unfold ld; by rewrite He).
  rewrite (bind_Ret _ _ _ _ _ Hld). rewrite present_test. unfold entry_addr.
  destruct (tab !! _) as [b|] eqn:Hb.
  - destruct Hm as (-> & Hb' & Hn). cbn [negb andb when]. rewrite (bind_Ret _ _ s tt s) by done.
    rewrite (bind_Ret _ _ _ _ _ Hld).
    destruct (pt_tab _ _ _ Hpt _ _ Hb) as (_ & Hr & _). unfold KERNBASE in Hr.
    erewrite bind_Ret; [|apply KADDR_eq; [done| |]; unfold KERNBASE in *; lia].
    simpl. by rewrite <- Hb'.
  - rewrite Hm. done.
Qed.

Lemma entry_Some s v a :
  pt g tab s -> entry_addr tab v = Some a -> words s !! a = Some (entry tab s v) /\ is_u32 (entry tab s v).
Proof.
  intros Hpt Ha. unfold entry. rewrite Ha. simpl.
  apply entry_addr_inv in Ha as (b & Hb & ->).
  destruct (pt_tab _ _ _ Hpt _ _ Hb) as (_ & _ & _ & Hk).
  destruct (Hk (v `mod` 1024)) as (e & He & Hu); [width|]. rewrite He. done.
Qed.

Lemma entry_u32 s v : pt g tab s -> is_u32 (entry tab s v).
Proof.
  intros Hpt. destruct (entry_addr tab v) as [a|] eqn:Ha; [by eapply entry_Some|].
  unfold entry. rewrite Ha. simpl. width.
Qed.

Lemma entry_None s v : entry_addr tab v = None -> entry tab s v = 0.
Proof. unfold entry. by intros ->. Qed.

(** Only the words matter. *)
Lemma entry_words s s' v : words s' = words s -> entry tab s' v = entry tab s v.
Proof. unfold entry. by intros ->. Qed.

Lemma pt_words s s' : pt g tab s -> words s' = words s -> npage s' = npage s -> pt g tab s'.
Proof. intros [] Hw Hn. split; [done| | |done]; rewrite ?Hw, ?Hn; done. Qed.

Lemma ld_entry s v a : pt g tab s -> entry_addr tab v = Some a -> ld a s = Ret (entry tab s v, s).
Proof. intros Hpt Ha. unfold ld. by destruct (entry_Some s v a Hpt Ha) as [-> _]. Qed.

Lemma ld_entry0 s v :
  pt g tab s ->
  (if default 0 (entry_addr tab v) =? 0 then mret 0 else ld (default 0 (entry_addr tab v))) s
  = Ret (entry tab s v, s).
Proof.
  intros Hpt. destruct (entry_addr tab v) as [a|] eqn:Ha; simpl.
  - rewrite (entry_addr_nonzero s v a Hpt Ha). by apply ld_entry.
  - by rewrite entry_None.
Qed.

(** Storing an entry updates the abstract table at that page alone. *)
Definition stored (a x : Z) (s : t) : t := set_words (<[a := x]> (words s)) s.

Lemma st_entry s v a x :
  pt g tab s -> entry_addr tab v = Some a -> st a x s = Ret (tt, stored a x s).
Proof. intros Hpt Ha. unfold st. by destruct (entry_Some s v a Hpt Ha) as [-> _]. Qed.

Lemma stored_pt s v a x :
  pt g tab s -> entry_addr tab v = Some a -> is_u32 x -> pt g tab (stored a x s).
Proof.
  intros Hpt Ha Hx. destruct (entry_addr_inv _ _ _ Ha) as (b & Hb & Hab).
  destruct (pt_tab _ _ _ Hpt _ _ Hb) as (Hal & _ & Hne & _). split; simpl.
  - apply Hpt.
  - intros d Hd. destruct (pt_pde _ _ _ Hpt d Hd) as (e & He & Hm). exists e.
    split; [|done]. rewrite lookup_insert_ne; [done|]. assert (Hg := pt_align _ _ _ Hpt). width.
  - intros d b' Hb'. destruct (pt_tab _ _ _ Hpt _ _ Hb') as (? & ? & ? & Hk). split_and!; try lia.
    intros k Hk'. destruct (Hk k Hk') as (e & He & Hu).
    destruct (decide (a = b' + 4 * k)) as [<-|]; [rewrite lookup_insert_eq | rewrite lookup_insert_ne by done]; eauto.
  - apply Hpt.
Qed.

Lemma entry_stored s v a x w :
  pt g tab s -> entry_addr tab v = Some a ->
  entry tab (stored a x s) w = if decide (w = v) then x else entry tab s w.
Proof.
  intros Hpt Ha. unfold entry at 1. simpl. case_decide as Hw.
  - subst w. rewrite Ha. simpl. by rewrite lookup_insert_eq.
  - unfold entry. destruct (entry_addr tab w) as [c|] eqn:Hc; [|done]. simpl.
    rewrite lookup_insert_ne; [done|]. intros <-. apply Hw. by eapply entry_addr_inj.
Qed.

End Table.
End PagingSpec.
