(* ===== verification/TlbSpec.v ===== *)
(** The software-managed TLB (kern/mm/tlb.c) against the emulator's MMU
    (src/src/mmu.h): in a coherent state the TLB holds exactly the pages marked
    as cached in the page table, and the hardware translates them as the table
    says.  The refill handler and the invalidation keep the state coherent. *)

From S2P Require Import Prelude Cp0 Mmu MmuSpec DefaultPmm Paging PagingSpec.

Module TlbSpec.
Import Paging PagingSpec.

(** ** Coherence *)

Section Coherence.
  Context (E : Z -> Z) (s : t).

Definition key (i : Z) : Z := arr_get (tlb_key s) i.
Definition half (v i : Z) : Z :=
  arr_get (if decide (v `mod` 2 = 0) then tlb_data0 s else tlb_data1 s) i.

(** Page [v] is held in entry [i]. *)
Definition live (v i : Z) : Prop := cached (E v) = true /\ TLBIDX (E v) = i.
#[global] Instance live_dec v i : Decision (live v i).
Proof. unfold live. apply _. Defined.

(** The free list of the replacement algorithm. *)
Definition frees : list Z := take (Z.to_nat (tlb_algo_n s)) (tlb_algo_empty s).

(** Entry [i] holds its live pages and nothing else. *)
Record slot_ok (i : Z) : Prop := {
  slot_half v : user_vpn v -> key i = v `div` 2 * 8192 ->
    half v i = if decide (live v i) then ENTRYLO (E v) else ENTRYLO_INVALID;
  slot_used : key i = ENTRYHI_INVALID \/ exists v, user_vpn v /\ live v i
}.

Record algo_ok : Prop := {
  algo_empty_len : length (tlb_algo_empty s) = 16%nat;
  algo_hi_len : length (tlb_algo_hi s) = 16%nat;
  algo_n : 0 <= tlb_algo_n s <= 16;
  algo_ptr : 0 <= tlb_algo_ptr s < 16;
  algo_nodup : NoDup frees;
  algo_free i : i ∈ frees -> 0 <= i < 16 /\ key i = ENTRYHI_INVALID;
  algo_busy i : 0 <= i < 16 -> i ∉ frees ->
    key i <> ENTRYHI_INVALID /\ arr_get (tlb_algo_hi s) i = key i
}.

Record coh : Prop := {
  coh_len : length (tlb_key s) = 16%nat /\ length (tlb_data0 s) = 16%nat /\ length (tlb_data1 s) = 16%nat;
  coh_live v : user_vpn v -> cached (E v) = true ->
    present (E v) = true /\ key (TLBIDX (E v)) = v `div` 2 * 8192;
  coh_pair v w : user_vpn v -> user_vpn w -> v `div` 2 = w `div` 2 ->
    cached (E v) = true -> cached (E w) = true -> TLBIDX (E v) = TLBIDX (E w);
  coh_slot i : 0 <= i < 16 -> slot_ok i;
  coh_algo : algo_ok
}.

End Coherence.

(** The other page of a pair. *)
Definition mate (v : Z) : Z := if decide (v `mod` 2 = 0) then v + 1 else v - 1.

Lemma mate_pair v w : v `div` 2 = w `div` 2 -> w = v \/ w = mate v.
Proof. unfold mate. case_decide; width. Qed.

Lemma mate_div v : mate v `div` 2 = v `div` 2.
Proof. unfold mate. case_decide; width. Qed.

Lemma mate_ne v : mate v <> v.
Proof. unfold mate. case_decide; width. Qed.

Lemma mate_user v : user_vpn v -> user_vpn (mate v).
Proof. unfold mate, user_vpn. change (2 ^ 19) with 524288. case_decide; width. Qed.

Lemma user_key v : user_vpn v -> v `div` 2 * 8192 <> ENTRYHI_INVALID.
Proof. unfold user_vpn, ENTRYHI_INVALID. change (2 ^ 19) with 524288. width. Qed.

Lemma lxor_1 x : Z.lxor x 1 = mate x.
Proof.
  unfold mate. rewrite (Z.div_mod x 2) at 1 by lia.
  assert (He : forall q, Z.lxor (2 * q) 1 = 2 * q + 1).
  { intros q. rewrite <- Z.add_nocarry_lxor; [done|]. change 1 with (2 ^ 1 - 1).
    rewrite land_low by lia. change (2 ^ 1) with 2. width. }
  case_decide as Hm.
  - rewrite Hm, Z.add_0_r, He. width.
  - replace (x `mod` 2) with 1 by width.
    rewrite <- He, Z.lxor_assoc, Z.lxor_nilpotent, Z.lxor_0_r. width.
Qed.

Lemma vpn_pair la : user la -> vpn (TLBPAIR la) = mate (vpn la) /\ user (TLBPAIR la).
Proof.
  intros Hu. assert (Hv : vpn (TLBPAIR la) = mate (vpn la)).
  { unfold vpn, TLBPAIR. change 4096 with (2 ^ 12). rewrite <- !Z.shiftr_div_pow2 by lia.
    rewrite Z.shiftr_lxor. apply lxor_1. }
  split; [done|]. assert (Hm := mate_user _ (user_vpn_of _ Hu)). rewrite <- Hv in Hm.
  assert (H0 : 0 <= TLBPAIR la) by (apply Z.lxor_nonneg; unfold user in Hu; lia).
  unfold user_vpn, vpn in Hm. change (2 ^ 19) with 524288 in Hm. unfold user. width.
Qed.

(** The EntryHi of a page, and the half it uses. *)
Lemma hi_eq la : user la -> Z.land la 0xffffe000 = vpn la `div` 2 * 8192.
Proof.
  intros Hu. change 0xffffe000 with (2 ^ 32 - 2 ^ 13). unfold user in Hu.
  rewrite land_high by (change (2 ^ 32) with 0x100000000; lia).
  unfold vpn. change (2 ^ 13) with 8192. width.
Qed.

Lemma TLBLO_eq la : (TLBLO la =? 0) = bool_decide (vpn la `mod` 2 = 0).
Proof. unfold TLBLO, PPN. apply (MMUSpec.bit_test la 12). lia. Qed.

(** ** Changing one entry *)

(** A change that leaves the pages not in entry [idx] alone. *)
Definition only (idx : Z) (E E' : Z -> Z) : Prop := forall v, user_vpn v ->
  E' v = E v \/
  (cached (E v) = true -> TLBIDX (E v) = idx) /\ (cached (E' v) = true -> TLBIDX (E' v) = idx).

Lemma only_live idx E E' v i :
  only idx E E' -> user_vpn v -> i <> idx -> live E v i <-> live E' v i.
Proof.
  intros Ho Hv Hi. unfold live. destruct (Ho v Hv) as [->|[H1 H2]]; [done|].
  split; intros [Hc Ht]; [apply H1 in Hc|apply H2 in Hc]; congruence.
Qed.

Lemma only_live_eq idx E E' v i :
  only idx E E' -> user_vpn v -> i <> idx -> live E v i -> E' v = E v.
Proof.
  intros Ho Hv Hi [Hc Ht]. destruct (Ho v Hv) as [->|[H1 _]]; [done|].
  apply H1 in Hc. congruence.
Qed.

(** The TLB lists after writing entry [idx]. *)
Definition written (idx k x0 x1 : Z) (s s' : t) : Prop :=
  tlb_key s' = arr_set (tlb_key s) idx k /\
  tlb_data0 s' = arr_set (tlb_data0 s) idx x0 /\ tlb_data1 s' = arr_set (tlb_data1 s) idx x1.

Section Written.
  Context (idx k x0 x1 : Z) (s s' : t).
  Hypothesis Hidx : 0 <= idx < 16.
  Hypothesis Hlen : length (tlb_key s) = 16%nat /\ length (tlb_data0 s) = 16%nat /\ length (tlb_data1 s) = 16%nat.
  Hypothesis Hw : written idx k x0 x1 s s'.

Lemma written_len :
  length (tlb_key s') = 16%nat /\ length (tlb_data0 s') = 16%nat /\ length (tlb_data1 s') = 16%nat.
Proof. destruct Hw as (-> & -> & ->). by rewrite !arr_set_length. Qed.

Lemma written_key i : 0 <= i -> key s' i = if decide (i = idx) then k else key s i.
Proof.
  intros Hi. unfold key. destruct Hw as (-> & _). case_decide as Hd.
  - subst. apply arr_get_set_eq. lia.
  - apply arr_get_set_ne; lia.
Qed.

Lemma written_half v i : 0 <= i ->
  half s' v i = if decide (i = idx) then (if decide (v `mod` 2 = 0) then x0 else x1) else half s v i.
Proof.
  intros Hi. unfold half. destruct Hw as (_ & -> & ->). destruct (decide (i = idx)) as [->|Hd].
  - destruct (decide (_ = 0)); apply arr_get_set_eq; lia.
  - destruct (decide (_ = 0)); apply arr_get_set_ne; lia.
Qed.

(** The other entries stay as they are. *)
Lemma slot_frame E E' i :
  0 <= i -> i <> idx -> only idx E E' -> slot_ok E s i -> slot_ok E' s' i.
Proof.
  intros Hi Hne Ho [Hh Hu]. split.
  - intros v Hv. rewrite written_key, written_half by done. rewrite !decide_False by done.
    intros Hk. rewrite (Hh v Hv Hk). destruct (decide (live E v i)) as [Hl|Hl].
    + rewrite decide_True by (by rewrite <- (only_live idx E E')).
      by rewrite (only_live_eq idx E E' v i).
    + rewrite decide_False; [done|]. by rewrite <- (only_live idx E E').
  - rewrite written_key, decide_False by done. destruct Hu as [Hu|(v & Hv & Hl)]; [by left|].
    right. exists v. split; [done|]. by rewrite <- (only_live idx E E').
Qed.

(** Coherence after the write, from what holds of entry [idx] alone. *)
Lemma written_coh E E' :
  coh E s -> only idx E E' -> slot_ok E' s' idx -> algo_ok s' ->
  (forall v, user_vpn v -> cached (E' v) = true -> TLBIDX (E' v) = idx ->
     present (E' v) = true /\ k = v `div` 2 * 8192) ->
  (forall v w, user_vpn v -> user_vpn w -> v `div` 2 = w `div` 2 ->
     cached (E' v) = true -> cached (E' w) = true -> TLBIDX (E' v) = TLBIDX (E' w)) ->
  coh E' s'.
Proof.
  intros Hc Ho Hs Ha Hl Hp. split; [apply written_len| |done| |done].
  - intros v Hv Hcv. destruct (decide (TLBIDX (E' v) = idx)) as [Hi|Hi].
    + rewrite Hi, written_key, decide_True by lia. by destruct (Hl v Hv Hcv Hi) as [? <-].
    + rewrite written_key, decide_False by (try apply TLBIDX_range; done).
      assert (Hlv : live E' v (TLBIDX (E' v))) by done.
      rewrite <- (only_live idx E E') in Hlv by done.
      assert (He := only_live_eq idx E E' v _ Ho Hv Hi Hlv). rewrite He in *. by apply Hc.
  - intros i Hi. destruct (decide (i = idx)) as [->|Hne]; [done|].
    apply (slot_frame E E'); [lia|done..|]. by apply Hc.
Qed.

End Written.

(** ** The transitions *)

Lemma key_owner E s w i :
  coh E s -> user_vpn w -> 0 <= i < 16 -> key s i = w `div` 2 * 8192 -> cached (E w) = true ->
  TLBIDX (E w) = i.
Proof.
  intros Hc Hw Hi Hk Hcw. destruct (slot_used _ _ _ (coh_slot _ _ Hc i Hi)) as [Hinv|(u & Hu & Hcu & <-)].
  - rewrite Hinv in Hk. by destruct (user_key w Hw).
  - destruct (coh_live _ _ Hc u Hu Hcu) as [_ Hku]. apply (coh_pair _ _ Hc); [done..| |done|done]. lia.
Qed.

(** The page table once entry [idx] is free, and once [v] is in it. *)
Definition evict (E : Z -> Z) (s : t) (idx w : Z) : Z :=
  if decide (key s idx = w `div` 2 * 8192) then tlb_drop (E w) else E w.
Definition filled (E : Z -> Z) (v idx w : Z) : Z :=
  if decide (w = v) then tlb_fill (E v) idx else E w.
Definition dropped (E : Z -> Z) (v w : Z) : Z := if decide (w = v) then tlb_drop (E v) else E w.

Section Transitions.
  Context (E E' : Z -> Z) (s s' : t) (v idx : Z).
  Hypothesis Hcoh : coh E s.
  Hypothesis Hidx : 0 <= idx < 16.
  Hypothesis Hv : user_vpn v.
  Hypothesis Hu32 : forall w, is_u32 (E w).
  Hypothesis Halgo : algo_ok s'.

Definition pick (x y : Z) : Z * Z := if decide (v `mod` 2 = 0) then (x, y) else (y, x).

Lemma pick_half k x y :
  written idx k (pick x y).1 (pick x y).2 s s' -> half s' v idx = x /\ half s' (mate v) idx = y.
Proof.
  intros Hw. unfold pick in Hw.
  rewrite !(written_half _ _ _ _ _ _ Hidx (coh_len _ _ Hcoh) Hw) by lia.
  destruct (decide (idx = idx)) as [_|]; [|done].
  unfold mate. destruct (decide (v `mod` 2 = 0)) as [H|H]; simpl; (split; [done|]).
  - assert ((v + 1) `mod` 2 <> 0) by width. by rewrite decide_False.
  - assert ((v - 1) `mod` 2 = 0) by width. by rewrite decide_True.
Qed.

(** Taking a new entry, after evicting what it held. *)
Lemma fill_coh :
  present (E v) = true -> cached (E v) = false -> cached (E (mate v)) = false ->
  written idx (v `div` 2 * 8192) (pick (ENTRYLO (E v)) 0).1 (pick (ENTRYLO (E v)) 0).2 s s' ->
  (forall w, user_vpn w -> E' w = filled (evict E s idx) v idx w) ->
  coh E' s'.
Proof.
  intros Hp Hc Hcm Hw HE.
  assert (Hev : evict E s idx v = E v \/ evict E s idx v = tlb_drop (E v)) by (unfold evict; case_decide; auto).
  assert (HEv : present (E' v) = true /\ cached (E' v) = true /\ TLBIDX (E' v) = idx /\ ENTRYLO (E' v) = ENTRYLO (E v)).
  { rewrite HE by done. unfold filled. rewrite decide_True by done.
    rewrite tlb_fill_present, tlb_fill_cached, TLBIDX_fill by done.
    destruct Hev as [-> | ->]; rewrite ?ENTRYLO_fill, ?tlb_drop_present by auto using tlb_drop_u32; auto using ENTRYLO_drop. }
  destruct HEv as (Hpv & Hcv & Hiv & Hlv).
  assert (Hother : forall w, user_vpn w -> w <> v -> cached (E' w) = true ->
            E' w = E w /\ key s idx <> w `div` 2 * 8192).
  { intros w Hwu Hne. rewrite HE by done. unfold filled, evict. rewrite decide_False by done.
    case_decide; [by rewrite tlb_drop_cached|done]. }
  assert (Hm : cached (E' (mate v)) = false).
  { apply not_true_is_false. intros Hx. destruct (Hother (mate v)) as [He _]; auto using mate_user, mate_ne.
    congruence. }
  apply (written_coh idx _ _ _ s s' Hidx (coh_len _ _ Hcoh) Hw E E'); [done| | |done| |].
  - intros w Hwu. destruct (decide (w = v)) as [->|Hne]; [right; by rewrite Hc|].
    rewrite HE by done. unfold filled, evict. rewrite decide_False by done. case_decide as Hk; [|by left].
    right. rewrite tlb_drop_cached. split; [|done]. by apply key_owner with (s := s).
  - destruct (pick_half _ _ _ Hw) as [Hh1 Hh2]. split.
    + intros u Hu. rewrite (written_key _ _ _ _ _ _ Hidx (coh_len _ _ Hcoh) Hw), decide_True by lia.
      intros Hk. destruct (mate_pair v u) as [->| ->]; [lia| |].
      * by rewrite Hh1, decide_True, Hlv by done.
      * rewrite Hh2, decide_False; [done|]. intros [Hx _]. congruence.
    + right. exists v. done.
  - intros u Hu Hcu Hiu. destruct (decide (u = v)) as [->|Hne]; [done|].
    destruct (Hother u Hu Hne Hcu) as [He Hk]. rewrite He in *.
    destruct (coh_live _ _ Hcoh u Hu Hcu) as [_ Hku]. congruence.
  - intros u w Hu Hwu Hd Hcu Hcw.
    destruct (decide (u = v)) as [->|Hne].
    { destruct (mate_pair v w) as [->| ->]; [lia|done|congruence]. }
    destruct (decide (w = v)) as [->|Hne'].
    { destruct (mate_pair v u) as [->| ->]; [lia|done|congruence]. }
    destruct (Hother u Hu Hne Hcu) as [He _]. destruct (Hother w Hwu Hne' Hcw) as [He' _].
    rewrite He, He' in *. by apply Hcoh.
Qed.

(** Using the second half of the entry of the other page of the pair. *)
Lemma fill_half_coh :
  present (E v) = true -> cached (E v) = false ->
  cached (E (mate v)) = true -> idx = TLBIDX (E (mate v)) ->
  written idx (v `div` 2 * 8192) (pick (ENTRYLO (E v)) (ENTRYLO (E (mate v)))).1
    (pick (ENTRYLO (E v)) (ENTRYLO (E (mate v)))).2 s s' ->
  (forall w, user_vpn w -> E' w = filled E v idx w) ->
  coh E' s'.
Proof.
  intros Hp Hc Hcm Hi Hw HE.
  assert (Hsame : forall w, user_vpn w -> w <> v -> E' w = E w).
  { intros w Hwu Hne. rewrite HE by done. unfold filled. by rewrite decide_False. }
  assert (HEv : E' v = tlb_fill (E v) idx) by (rewrite HE by done; unfold filled; by rewrite decide_True).
  assert (Hm := mate_user v Hv). assert (Hmn := mate_ne v).
  apply (written_coh idx _ _ _ s s' Hidx (coh_len _ _ Hcoh) Hw E E'); [done| | |done| |].
  - intros w Hwu. destruct (decide (w = v)) as [->|Hne]; [right|left; auto].
    rewrite Hc, HEv, TLBIDX_fill by done. done.
  - destruct (pick_half _ _ _ Hw) as [Hh1 Hh2]. split.
    + intros u Hu. rewrite (written_key _ _ _ _ _ _ Hidx (coh_len _ _ Hcoh) Hw), decide_True by lia.
      intros Hk. destruct (mate_pair v u) as [->| ->]; [lia| |].
      * rewrite Hh1, HEv, ENTRYLO_fill by done. rewrite decide_True; [done|].
        split; rewrite HEv; [apply tlb_fill_cached|by apply TLBIDX_fill].
      * rewrite Hh2, decide_True; rewrite ?Hsame by done; [done|]. split; rewrite Hsame by done; auto.
    + right. exists (mate v). split; [done|]. split; rewrite Hsame by done; auto.
  - intros u Hu Hcu Hiu. destruct (decide (u = v)) as [->|Hne].
    { by rewrite HEv, tlb_fill_present. }
    rewrite Hsame in * by done. destruct (coh_live _ _ Hcoh u Hu Hcu) as [Hpu Hku].
    destruct (coh_live _ _ Hcoh (mate v) Hm Hcm) as [_ Hkm]. rewrite mate_div in Hkm. split; [done|congruence].
  - intros u w Hu Hwu Hd Hcu Hcw.
    destruct (mate_pair u w Hd) as [->| ->]; [done|].
    destruct (decide (u = v)) as [->|Hne].
    { rewrite HEv, TLBIDX_fill, Hsame by done. done. }
    rewrite (Hsame u) in * by done. destruct (decide (mate u = v)) as [He|Hne'].
    { rewrite He, HEv, TLBIDX_fill by done. rewrite Hi. f_equal. f_equal.
      rewrite <- He. unfold mate. repeat case_decide; width. }
    rewrite (Hsame (mate u)) in * by done. by apply Hcoh.
Qed.

(** Dropping one half, or the whole entry when the other half is not used. *)
Lemma drop_coh k y :
  cached (E v) = true -> idx = TLBIDX (E v) ->
  (if cached (E (mate v)) then k = v `div` 2 * 8192 /\ y = ENTRYLO (E (mate v))
   else k = ENTRYHI_INVALID /\ y = 0) ->
  written idx k (pick 0 y).1 (pick 0 y).2 s s' ->
  (forall w, user_vpn w -> E' w = dropped E v w) ->
  coh E' s'.
Proof.
  intros Hc Hi Hy Hw HE. assert (Hm := mate_user v Hv). assert (Hmn := mate_ne v).
  assert (Hsame : forall w, user_vpn w -> w <> v -> E' w = E w).
  { intros w Hwu Hne. rewrite HE by done. unfold dropped. by rewrite decide_False. }
  assert (HEv : cached (E' v) = false).
  { rewrite HE by done. unfold dropped. rewrite decide_True by done. apply tlb_drop_cached. }
  destruct (coh_live _ _ Hcoh v Hv Hc) as [_ Hkv].
  apply (written_coh idx _ _ _ s s' Hidx (coh_len _ _ Hcoh) Hw E E'); [done| | |done| |].
  - intros w Hwu. destruct (decide (w = v)) as [->|Hne]; [right|left; auto]. by rewrite HEv.
  - destruct (pick_half _ _ _ Hw) as [Hh1 Hh2].
    assert (Hk : key s' idx = k) by (rewrite (written_key _ _ _ _ _ _ Hidx (coh_len _ _ Hcoh) Hw), decide_True by lia; done).
    destruct (cached (E (mate v))) eqn:Hcm; destruct Hy as [-> ->].
    + assert (Him : TLBIDX (E (mate v)) = idx).
      { rewrite Hi. apply (coh_pair _ _ Hcoh); auto using mate_div. }
      split; [|right; exists (mate v); split; [done|]; split; by rewrite Hsame].
      intros u Hu. rewrite Hk. intros Hd. destruct (mate_pair v u) as [->| ->]; [lia| |].
      * rewrite Hh1, decide_False; [done|]. intros [Hx _]. congruence.
      * rewrite Hh2, decide_True; [by rewrite Hsame|]. split; by rewrite Hsame.
    + split; [|by left]. intros u Hu. rewrite Hk. intros Hd. by destruct (user_key u Hu).
  - intros u Hu Hcu Hiu. destruct (decide (u = v)) as [->|Hne]; [congruence|].
    rewrite Hsame in * by done. destruct (coh_live _ _ Hcoh u Hu Hcu) as [Hpu Hku]. split; [done|].
    rewrite Hiu, Hi, Hkv in Hku. destruct (mate_pair v u) as [->| ->]; [lia|congruence|].
    rewrite Hcu in Hy. destruct Hy as [-> _]. by rewrite mate_div.
  - intros u w Hu Hwu Hd Hcu Hcw.
    assert (u <> v) by (intros ->; congruence). assert (w <> v) by (intros ->; congruence).
    rewrite !Hsame in * by done. by apply Hcoh.
Qed.

End Transitions.

(** ** The operations on a page table *)

Lemma algo_ext s s' :
  algo_ok s -> (forall i, 0 <= i < 16 -> key s' i = key s i) ->
  tlb_algo_empty s' = tlb_algo_empty s /\ tlb_algo_n s' = tlb_algo_n s /\
  tlb_algo_hi s' = tlb_algo_hi s /\ tlb_algo_ptr s' = tlb_algo_ptr s -> algo_ok s'.
Proof.
  intros [] Hk (He & Hn & Hh & Hp). split; unfold frees in *; rewrite ?He, ?Hn, ?Hh, ?Hp; try done.
  - intros i Hi. destruct (algo_free0 i Hi). by rewrite Hk.
  - intros i Hi Hf. rewrite Hk by done. by apply algo_busy0.
Qed.

(** A function of the TLB replacement algorithm after giving out entry [idx]
    for [hi]: it is coherent once the entry is written. *)
Definition taken (s : t) (idx hi : Z) (s1 : t) : Prop :=
  forall d0 d1, algo_ok (set_tlb (arr_set (tlb_key s) idx hi) d0 d1 s1).

Section Algo.
  Context (s : t) (hi : Z).
  Hypothesis Halgo : algo_ok s.
  Hypothesis Hlen : length (tlb_key s) = 16%nat.
  Hypothesis Hhi : hi <> ENTRYHI_INVALID.

Lemma key_set w e n h p d0 d1 idx i :
  0 <= idx < 16 -> 0 <= i ->
  key (set_tlb (arr_set (tlb_key s) idx hi) d0 d1 (set_algo e n h p (set_words w s))) i
  = if decide (i = idx) then hi else key s i.
Proof.
  intros Hidx Hi. unfold key. simpl. case_decide as Hd; [subst; apply arr_get_set_eq; lia|].
  apply arr_get_set_ne; lia.
Qed.

(** From the free list. *)
Lemma taken_free w :
  0 < tlb_algo_n s ->
  let n := tlb_algo_n s - 1 in
  let idx := arr_get (tlb_algo_empty s) n in
  0 <= idx < 16 /\ key s idx = ENTRYHI_INVALID /\
  taken s idx hi (set_algo (tlb_algo_empty s) n (arr_set (tlb_algo_hi s) idx hi) (tlb_algo_ptr s) (set_words w s)).
Proof.
  intros Hn n idx. destruct Halgo as [Hel Hhl Hnr Hptr Hnd Hfree Hbusy].
  assert (Hsplit : frees s = take (Z.to_nat n) (tlb_algo_empty s) ++ [idx]).
  { unfold frees. replace (Z.to_nat (tlb_algo_n s)) with (S (Z.to_nat n)) by lia.
    apply take_S_r. unfold idx, arr_get.
    destruct (lookup_lt_is_Some_2 (tlb_algo_empty s) (Z.to_nat n)) as [x ->]; [lia|done]. }
  rewrite Hsplit in *. apply NoDup_app in Hnd as (Hnd & Hdis & _).
  destruct (Hfree idx) as [Hi Hk]; [set_solver|]. split; [done|]. split; [done|].
  intros d0 d1. split; simpl; try done; try lia.
  - by rewrite arr_set_length.
  - intros i Hin. unfold frees in Hin. simpl in Hin. destruct (Hfree i) as [Hi' Hk']; [set_solver|].
    split; [done|]. rewrite key_set, decide_False; [done| |done|lia]. intros ->. set_solver.
  - intros i Hir Hin. unfold frees in Hin. simpl in Hin. rewrite key_set by lia. case_decide as Hd.
    + subst i. split; [done|]. apply arr_get_set_eq. lia.
    + rewrite arr_get_set_ne by lia. apply Hbusy; [done|]. set_solver.
Qed.

(** By replacement. *)
Lemma taken_evict w :
  tlb_algo_n s = 0 ->
  let idx := tlb_algo_ptr s in
  taken s idx hi (set_algo (tlb_algo_empty s) (tlb_algo_n s) (arr_set (tlb_algo_hi s) idx hi)
    (u8 (idx + 1) `mod` TLBN) (set_words w s)).
Proof.
  intros Hn idx d0 d1. destruct Halgo as [Hel Hhl Hnr Hptr Hnd Hfree Hbusy].
  assert (Hf : frees s = []) by (unfold frees; by rewrite Hn).
  split; simpl; try done; try lia.
  - by rewrite arr_set_length.
  - unfold TLBN. width.
  - unfold frees. simpl. intros i. rewrite Hn. simpl. intros Hin. by apply elem_of_nil in Hin.
  - intros i Hir _. rewrite key_set by (unfold idx; lia). case_decide as Hd.
    + subst i. split; [done|]. apply arr_get_set_eq. lia.
    + rewrite arr_get_set_ne by (unfold idx; lia). apply Hbusy; [done|]. rewrite Hf. by apply not_elem_of_nil.
Qed.

(** Giving an entry back. *)
Lemma given_back idx d0 d1 :
  0 <= idx < 16 -> key s idx <> ENTRYHI_INVALID ->
  algo_ok (set_tlb (arr_set (tlb_key s) idx ENTRYHI_INVALID) d0 d1
    (set_algo (arr_set (tlb_algo_empty s) (tlb_algo_n s) idx) (u8 (tlb_algo_n s + 1))
       (tlb_algo_hi s) (tlb_algo_ptr s) s)).
Proof using Halgo Hlen.
  clear Hhi.
  intros Hidx Hk. destruct Halgo as [Hel Hhl Hnr Hptr Hnd Hfree Hbusy].
  assert (Hni : idx ∉ frees s) by (intros Hin; by apply Hfree in Hin as [_ ?]).
  assert (Hroom : tlb_algo_n s < 16).
  { assert (Hs : (idx :: frees s) ⊆+ seqZ 0 16).
    { apply NoDup_submseteq; [by constructor|]. intros x Hx. apply elem_of_seqZ.
      apply elem_of_cons in Hx as [->|Hx]; [lia|]. apply Hfree in Hx. lia. }
    apply submseteq_length in Hs. simpl in Hs. unfold frees in Hs.
    rewrite length_take, Hel in Hs. lia. }
  assert (Hf : forall x, take (Z.to_nat (u8 (tlb_algo_n s + 1))) (arr_set (tlb_algo_empty s) (tlb_algo_n s) x)
               = frees s ++ [x]).
  { intros x. unfold frees, arr_set. rewrite u8_id by width.
    replace (Z.to_nat (tlb_algo_n s + 1)) with (S (Z.to_nat (tlb_algo_n s))) by lia.
    erewrite take_S_r by (apply list_lookup_insert_eq; lia). by rewrite take_insert_ge by lia. }
  assert (Hkey : forall i, 0 <= i -> key (set_tlb (arr_set (tlb_key s) idx ENTRYHI_INVALID) d0 d1
    (set_algo (arr_set (tlb_algo_empty s) (tlb_algo_n s) idx) (u8 (tlb_algo_n s + 1))
       (tlb_algo_hi s) (tlb_algo_ptr s) s)) i = if decide (i = idx) then ENTRYHI_INVALID else key s i).
  { intros i Hi. unfold key. simpl. case_decide as Hd; [subst; apply arr_get_set_eq; lia|].
    apply arr_get_set_ne; lia. }
  split; unfold frees; simpl; rewrite ?Hf; try done.
  - by rewrite arr_set_length.
  - width.
  - apply NoDup_app. split_and!; [done|set_solver|apply NoDup_singleton].
  - intros i Hin. apply elem_of_app in Hin as [Hin|Hin%list_elem_of_singleton].
    + destruct (Hfree i Hin) as [Hi Hki]. split; [done|]. rewrite Hkey by lia. by case_decide.
    + subst i. split; [done|]. rewrite Hkey by lia. by rewrite decide_True.
  - intros i Hi Hin. apply not_elem_of_app in Hin as [Hin Hne]. rewrite Hkey by lia.
    rewrite decide_False by (intros ->; apply Hne; by apply list_elem_of_singleton). by apply Hbusy.
Qed.

End Algo.

Section Ops.
  Context (g : Z) (tab : gmap Z Z).

(** [s'] is [s] with another page table content [w] and other words. *)
Definition table_now (s : t) (F : Z -> Z) : Prop :=
  pt g tab s /\ cur_pgdir s = g /\ forall v, user_vpn v -> entry tab s v = F v.

Lemma drop_tlb_p_spec s la :
  pt g tab s -> cur_pgdir s = g -> user la ->
  exists w, drop_tlb_p la s = Ret (tt, set_words w s) /\ pt g tab (set_words w s) /\
    forall u, entry tab (set_words w s) u = dropped (entry tab s) (vpn la) u.
Proof.
  intros Hpt Hg Hu. unfold drop_tlb_p. rewrite (bind_Ret _ _ s s s), Hg by done.
  erewrite bind_Ret by (by apply get_pte_eq). destruct (entry_addr tab (vpn la)) as [a|] eqn:Ha; simpl.
  - rewrite (entry_addr_nonzero g tab s _ a Hpt Ha). cbn [negb when].
    erewrite bind_Ret by (by apply (ld_entry g)). fold (tlb_drop (entry tab s (vpn la))).
    exists (<[a := tlb_drop (entry tab s (vpn la))]> (words s)).
    split; [by apply (st_entry g tab s (vpn la))|]. split.
    + apply (stored_pt g tab s (vpn la)); [done..|]. apply tlb_drop_u32. by apply (entry_u32 g).
    + intros u. by apply (entry_stored g tab s (vpn la) a).
  - exists (words s). split; [by destruct s|]. split; [by eapply pt_words|].
    intros u. unfold dropped. case_decide as Hd; [|done].
    subst. rewrite (entry_None tab s _ Ha). by apply entry_None.
Qed.

(** Clearing the flag of both pages of a pair. *)
Lemma dropped_pair E s v idx w :
  key s idx = v `div` 2 * 8192 -> dropped (dropped E v) (mate v) w = evict E s idx w.
Proof.
  intros Hk. unfold dropped, evict. rewrite Hk. assert (Hmn := mate_ne v). assert (Hmd := mate_div v).
  destruct (decide (w = mate v)) as [->|Hm].
  - rewrite decide_False by done. by rewrite decide_True by lia.
  - destruct (decide (w = v)) as [->|Hv]; [by rewrite decide_True|].
    rewrite decide_False; [done|]. intros Hd. destruct (mate_pair v w); [lia|done..].
Qed.

Lemma tlb_get_empty_spec s hi :
  pt g tab s -> cur_pgdir s = g -> coh (entry tab s) s -> hi <> ENTRYHI_INVALID ->
  exists idx w e n h p, let s1 := set_algo e n h p (set_words w s) in
    tlb_get_empty hi s = Ret (idx, s1) /\ 0 <= idx < 16 /\ pt g tab s1 /\
    (forall v, user_vpn v -> entry tab s1 v = evict (entry tab s) s idx v) /\ taken s idx hi s1.
Proof.
  intros Hpt Hg Hc Hhi. assert (Ha := coh_algo _ _ Hc). assert (Hlen := proj1 (coh_len _ _ Hc)).
  unfold tlb_get_empty. rewrite (bind_Ret _ _ s s s) by done.
  destruct (Z.ltb_spec 0 (tlb_algo_n s)) as [Hn|Hn].
  - destruct (taken_free s hi Ha Hlen Hhi (words s) Hn) as (Hidx & Hk & Ht).
    do 6 eexists. split; [reflexivity|]. split; [exact Hidx|]. split; [by eapply pt_words|].
    split; [|exact Ht]. intros v Hv. unfold evict. rewrite decide_False; [done|].
    rewrite Hk. intros He. by destruct (user_key v Hv).
  - assert (Hn0 : tlb_algo_n s = 0) by (destruct (algo_n _ Ha); lia).
    assert (Hp := algo_ptr _ Ha).
    destruct (algo_busy _ Ha (tlb_algo_ptr s) Hp) as [Hki Hkh].
    { unfold frees. rewrite Hn0. simpl. by apply not_elem_of_nil. }
    destruct (slot_used _ _ _ (coh_slot _ _ Hc _ Hp)) as [Hx|(v & Hv & Hl)]; [done|].
    assert (Hk : key s (tlb_algo_ptr s) = v `div` 2 * 8192).
    { destruct Hl as [Hl <-]. by apply (coh_live _ _ Hc). }
    set (hi0 := arr_get (tlb_algo_hi s) (tlb_algo_ptr s)) in *.
    assert (Hu0 : user hi0).
    { rewrite Hkh, Hk. unfold user, user_vpn in *. change (2 ^ 19) with 524288 in Hv. width. }
    destruct (vpn_pair hi0 Hu0) as [Hvm Hum].
    set (sa := set_algo (tlb_algo_empty s) (tlb_algo_n s) (tlb_algo_hi s) (u8 (tlb_algo_ptr s + 1) `mod` TLBN) s).
    destruct (drop_tlb_p_spec sa hi0) as (w1 & Hd1 & Hp1 & He1); [by eapply pt_words|done..|].
    destruct (drop_tlb_p_spec (set_words w1 sa) (TLBPAIR hi0)) as (w2 & Hd2 & Hp2 & He2); [done..|].
    exists (tlb_algo_ptr s), w2. exists (tlb_algo_empty s), (tlb_algo_n s), (arr_set (tlb_algo_hi s) (tlb_algo_ptr s) hi),
      (u8 (tlb_algo_ptr s + 1) `mod` TLBN). split_and!; [|lia|lia| | |].
    + rewrite (bind_Ret _ _ s (tlb_algo_ptr s) (set_words w2 (set_words w1 sa))); [reflexivity|].
      rewrite (bind_Ret _ _ s tt sa) by done.
      by rewrite (bind_Ret _ _ _ _ _ Hd1), (bind_Ret _ _ _ _ _ Hd2).
    + by eapply pt_words.
    + intros u Hu. etrans; [apply He2|]. rewrite Hvm.
      assert (Hv0 : vpn hi0 `div` 2 * 8192 = v `div` 2 * 8192) by (rewrite Hkh, Hk; unfold vpn; width).
      rewrite <- (dropped_pair (entry tab s) s (vpn hi0)) by congruence.
      unfold dropped at 1 3. by rewrite !He1.
    + exact (taken_evict s hi Ha Hlen Hhi w2 Hn0).
Qed.

Lemma tlb_write_eq s idx hi lo0 lo1 :
  0 <= idx < 16 ->
  tlb_write idx hi lo0 lo1 s
  = Ret (tt, set_tlb (arr_set (tlb_key s) idx hi) (arr_set (tlb_data0 s) idx lo0)
               (arr_set (tlb_data1 s) idx lo1) s).
Proof. intros Hi. unfold tlb_write, TLBN. by replace (idx <? 0x10) with true by lia. Qed.

Lemma halves_eq la x y : halves la x y = pick (vpn la) x y.
Proof.
  unfold halves, pick. rewrite TLBLO_eq. case_decide; [by rewrite bool_decide_true|by rewrite bool_decide_false].
Qed.

(** The entry of the other page of the pair, as both functions read it. *)
Lemma cached_mate s v :
  pt g tab s ->
  negb (default 0 (entry_addr tab v) =? 0) && negb (Z.land (entry tab s v) TLB_P =? 0) = cached (entry tab s v).
Proof.
  intros Hpt. rewrite cached_test, negb_involutive. destruct (entry_addr tab v) as [a|] eqn:Ha; simpl.
  - by rewrite (entry_addr_nonzero g tab s v a Hpt Ha).
  - by rewrite (entry_None tab s v Ha).
Qed.

(** What a page is mapped to: its frame and permissions, without the bookkeeping
    of the TLB. *)
Definition mapping (e : Z) : Z := Z.land e 0xfffff007.

Lemma mapping_drop e : mapping (tlb_drop e) = mapping e.
Proof. unfold mapping, tlb_drop, TLB_P. by rewrite <- Z.land_assoc. Qed.

Lemma mapping_fill e idx : 0 <= idx < 16 -> mapping (tlb_fill e idx) = mapping e.
Proof.
  intros Hi. unfold mapping, tlb_fill, TLB_P. rewrite !Z.land_lor_distr_l, <- Z.land_assoc.
  change (Z.land 128 _) with 0. rewrite Z.lor_0_r.
  assert (Hz : Z.land (idx ≪ 8) 0xfffff007 = 0).
  { apply Z.bits_inj'. intros i H0. rewrite Z.land_spec, Z.shiftl_spec, Z.bits_0 by lia.
    destruct (Z.lt_ge_cases i 8); [by rewrite Z.testbit_neg_r by lia|].
    destruct (Z.lt_ge_cases i 12); [|by rewrite (testbit_bound idx 4) by lia].
    assert (H' : i = 8 \/ i = 9 \/ i = 10 \/ i = 11) by lia.
    destruct H' as [->|[->|[->| ->]]]; by rewrite andb_false_r. }
  by rewrite Hz, Z.lor_0_r.
Qed.

Record refilled (s s' : t) (v : Z) : Prop := {
  refilled_pt : pt g tab s';
  refilled_cur : cur_pgdir s' = g;
  refilled_coh : coh (entry tab s') s';
  refilled_cached : cached (entry tab s' v) = true;
  refilled_mapping w : user_vpn w -> mapping (entry tab s' w) = mapping (entry tab s w);
  refilled_rest : pmm s' = pmm s /\ npage s' = npage s /\ swap_init_ok s' = swap_init_ok s
}.

(** The last steps of the refill: the entry is written and the page marked. *)
Lemma refill_tail s s1 la a idx F lo :
  pt g tab s1 -> cur_pgdir s1 = g -> entry_addr tab (vpn la) = Some a -> 0 <= idx < 16 ->
  user_vpn (vpn la) ->
  (forall v, user_vpn v -> entry tab s1 v = F v) ->
  (forall v, user_vpn v -> mapping (F v) = mapping (entry tab s v)) ->
  pmm s1 = pmm s /\ npage s1 = npage s /\ swap_init_ok s1 = swap_init_ok s ->
  let hi := vpn la `div` 2 * 8192 in
  (forall s', written idx hi lo.1 lo.2 s1 s' ->
     tlb_algo_empty s' = tlb_algo_empty s1 /\ tlb_algo_n s' = tlb_algo_n s1 /\
     tlb_algo_hi s' = tlb_algo_hi s1 /\ tlb_algo_ptr s' = tlb_algo_ptr s1 ->
     (forall v, user_vpn v -> entry tab s' v = filled F (vpn la) idx v) -> coh (entry tab s') s') ->
  exists s', (tlb_write idx hi lo.1 lo.2;;
              e ← ld a;
              st a (Z.lor (Z.lor (Z.land e 0xfffff0ff) (idx ≪ 8)) TLB_P);;
              mret 0) s1 = Ret (0, s') /\ refilled s s' (vpn la).
Proof.
  intros Hpt Hg Ha Hidx Hv HF Hmap Hrest hi Hcoh.
  rewrite (bind_Ret _ _ _ _ _ (tlb_write_eq s1 idx hi _ _ Hidx)).
  set (s2 := set_tlb _ _ _ s1). assert (Hpt2 : pt g tab s2) by (by eapply pt_words).
  erewrite bind_Ret by (by apply (ld_entry g)). fold (tlb_fill (entry tab s2 (vpn la)) idx).
  rewrite (bind_Ret _ _ _ _ _ (st_entry g tab s2 (vpn la) a _ Hpt2 Ha)).
  assert (He2 : entry tab s2 (vpn la) = F (vpn la)) by (rewrite <- HF by done; done).
  set (s3 := stored a _ s2).
  assert (He : forall v, user_vpn v -> entry tab s3 v = filled F (vpn la) idx v).
  { intros v Hu. unfold s3. rewrite (entry_stored g tab s2 (vpn la)) by done. unfold filled.
    rewrite He2. destruct (decide (v = vpn la)); [done|]. by apply HF. }
  exists s3. split; [done|]. split.
  - apply (stored_pt g tab s2 (vpn la)); [done..|]. apply tlb_fill_u32; [|done]. by apply (entry_u32 g).
  - done.
  - apply Hcoh; [done..|exact He].
  - rewrite He by done. unfold filled. rewrite decide_True by done. apply tlb_fill_cached.
  - intros w Hw. rewrite He by done. unfold filled.
    destruct (decide (w = vpn la)) as [->|]; rewrite ?mapping_fill by done; by apply Hmap.
  - done.
Qed.

Lemma evict_mapping E s idx w : mapping (evict E s idx w) = mapping (E w).
Proof. unfold evict. case_decide; [apply mapping_drop|done]. Qed.

Lemma tlb_refill_spec s la a :
  pt g tab s -> cur_pgdir s = g -> coh (entry tab s) s -> user la ->
  entry_addr tab (vpn la) = Some a ->
  present (entry tab s (vpn la)) = true -> cached (entry tab s (vpn la)) = false ->
  exists s', tlb_refill la a s = Ret (0, s') /\ refilled s s' (vpn la).
Proof.
  intros Hpt Hg Hc Hu Ha Hp Hnc. destruct (vpn_pair la Hu) as [Hvp Hup].
  assert (Hv := user_vpn_of la Hu). assert (HE := fun v => entry_u32 g tab s v Hpt).
  unfold tlb_refill. rewrite (bind_Ret _ _ s s s), Hg by done.
  erewrite bind_Ret by (by apply get_pte_eq). rewrite Hvp.
  erewrite bind_Ret by (by apply (ld_entry g)). rewrite (bind_Ret _ _ _ _ _ (ld_entry0 g tab s _ Hpt)).
  rewrite (hi_eq la Hu). cbv zeta. rewrite (cached_mate s _ Hpt).
  destruct (cached (entry tab s (mate (vpn la)))) eqn:Hm.
  - erewrite bind_Ret by done. cbn [fst snd]. rewrite halves_eq.
    apply (refill_tail s s la a _ (entry tab s)); try done; [apply TLBIDX_range|].
    intros s' Hw (Hae & Han & Hah & Hap) He.
    refine (fill_half_coh _ _ s s' _ _ Hc (TLBIDX_range _) Hv HE _ Hp Hnc Hm eq_refl Hw He).
    apply (algo_ext s s' (coh_algo _ _ Hc)); [|done]. intros i Hi.
    rewrite (written_key _ _ _ _ _ _ (TLBIDX_range _) (coh_len _ _ Hc) Hw) by lia. case_decide as Hd; [|done].
    subst i. destruct (coh_live _ _ Hc (mate (vpn la))) as [_ Hk]; [by apply mate_user|done|].
    by rewrite Hk, mate_div.
  - destruct (tlb_get_empty_spec s (vpn la `div` 2 * 8192)) as (idx & w & e & n & h & p & Hge & Hidx & Hp1 & He1 & Ht);
      [done..|by apply user_key|].
    rewrite (bind_Ret _ _ s (idx, 0) (set_algo e n h p (set_words w s))) by (by rewrite (bind_Ret _ _ _ _ _ Hge)).
    cbn [fst snd]. rewrite halves_eq.
    apply (refill_tail s _ la a _ (evict (entry tab s) s idx)); try done.
    { intros v _. apply evict_mapping. }
    intros s' Hw (Hae & Han & Hah & Hap) He.
    refine (fill_coh _ _ s s' _ idx Hc Hidx Hv HE _ Hp Hnc Hm Hw He).
    apply (algo_ext _ s' (Ht (tlb_data0 s) (tlb_data1 s))); [|done]. intros i Hi.
    unfold key. by rewrite (proj1 Hw).
Qed.


Record invalidated (s s' : t) (v : Z) : Prop := {
  invalidated_pt : pt g tab s';
  invalidated_cur : cur_pgdir s' = g;
  invalidated_coh : coh (entry tab s') s';
  invalidated_entry w : user_vpn w -> entry tab s' w = dropped (entry tab s) v w;
  invalidated_rest : pmm s' = pmm s /\ npage s' = npage s /\ swap_init_ok s' = swap_init_ok s
}.

(** Nothing to do for a page that is not cached. *)
Lemma dropped_same E v w : is_u32 (E v) -> cached (E v) = false -> dropped E v w = E w.
Proof.
  intros Hu Hc. unfold dropped. case_decide as Hd; [|done]. subst.
  assert (Hb := cached_test (E v)). rewrite Hc in Hb. unfold tlb_drop, TLB_P in *. apply Z.eqb_eq in Hb.
  assert (Hs : E v = Z.lor (Z.land (E v) (u32 (Z.lnot 0x80))) (Z.land (E v) 0x80)).
  { rewrite <- Z.land_lor_distr_r. change (Z.lor _ 0x80) with (2 ^ 32 - 1). rewrite land_low by lia.
    symmetry. apply Z.mod_small. by change (2 ^ 32) with 0x100000000. }
  rewrite Hb, Z.lor_0_r in Hs. by symmetry.
Qed.

(** The last steps of the invalidation. *)
Lemma invalidate_tail s s1 la a k y :
  pt g tab s -> coh (entry tab s) s -> user la -> entry_addr tab (vpn la) = Some a ->
  cached (entry tab s (vpn la)) = true ->
  let idx := TLBIDX (entry tab s (vpn la)) in
  pt g tab s1 -> cur_pgdir s1 = g -> words s1 = words s ->
  tlb_key s1 = tlb_key s /\ tlb_data0 s1 = tlb_data0 s /\ tlb_data1 s1 = tlb_data1 s ->
  pmm s1 = pmm s /\ npage s1 = npage s /\ swap_init_ok s1 = swap_init_ok s ->
  (if cached (entry tab s (mate (vpn la))) then k = vpn la `div` 2 * 8192 /\ y = ENTRYLO (entry tab s (mate (vpn la)))
   else k = ENTRYHI_INVALID /\ y = 0) ->
  (forall d0 d1, algo_ok (set_tlb (arr_set (tlb_key s) idx k) d0 d1 s1)) ->
  exists s', (tlb_write idx k (halves la ENTRYLO_INVALID y).1 (halves la ENTRYLO_INVALID y).2;;
              e ← ld a; st a (Z.land e (u32 (Z.lnot TLB_P)))) s1 = Ret (tt, s') /\ invalidated s s' (vpn la).
Proof.
  intros Hpt Hc Hu Ha Hca idx Hp1 Hg1 Hw1 (Hk1 & H01 & H11) Hr1 Hy Hal.
  assert (Hidx : 0 <= idx < 16) by apply TLBIDX_range. assert (Hv := user_vpn_of la Hu).
  rewrite (bind_Ret _ _ _ _ _ (tlb_write_eq s1 idx k _ _ Hidx)). set (s2 := set_tlb _ _ _ s1).
  assert (Hpt2 : pt g tab s2) by (by eapply pt_words).
  erewrite bind_Ret by (by apply (ld_entry g)). fold (tlb_drop (entry tab s2 (vpn la))).
  eexists. split; [by apply (st_entry g tab s2 (vpn la))|].
  assert (He : forall w, user_vpn w -> entry tab (stored a (tlb_drop (entry tab s2 (vpn la))) s2) w
               = dropped (entry tab s) (vpn la) w).
  { intros w Hw. rewrite (entry_stored g tab s2 (vpn la)) by done.
    unfold dropped. by rewrite !(entry_words tab s s2). }
  split; [|done| |exact He|done].
  - apply (stored_pt g tab s2 (vpn la)); [done..|]. apply tlb_drop_u32. by apply (entry_u32 g).
  - refine (drop_coh _ _ s _ _ idx Hc Hidx Hv _ k y Hca eq_refl Hy _ He).
    + apply (algo_ext _ _ (Hal (tlb_data0 s) (tlb_data1 s))); [|done].
      intros i _. unfold key, stored, s2. simpl. by rewrite Hk1.
    + unfold written, stored, s2. simpl. by rewrite halves_eq, Hk1, H01, H11.
Qed.

Lemma tlb_invalidate_spec s la :
  pt g tab s -> cur_pgdir s = g -> coh (entry tab s) s -> user la ->
  exists s', tlb_invalidate g la s = Ret (tt, s') /\ invalidated s s' (vpn la).
Proof.
  intros Hpt Hg Hc Hu. destruct (vpn_pair la Hu) as [Hvp Hup].
  assert (Hv := user_vpn_of la Hu). assert (HE := fun v => entry_u32 g tab s v Hpt).
  assert (Hsame : cached (entry tab s (vpn la)) = false -> invalidated s s (vpn la)).
  { intros Hnc. split; try done. intros w Hw. by rewrite dropped_same. }
  unfold tlb_invalidate. rewrite (bind_Ret _ _ s s s), Hg, Z.eqb_refl by done. cbn [negb].
  erewrite bind_Ret by (by apply get_pte_eq).
  destruct (entry_addr tab (vpn la)) as [a|] eqn:Ha; cbn [default from_option id];
    [rewrite (entry_addr_nonzero g tab s _ a Hpt Ha)|].
  2: { exists s. split; [done|]. apply Hsame. by rewrite (entry_None tab s _ Ha). }
  erewrite bind_Ret by (by apply (ld_entry g)). rewrite cached_test.
  destruct (cached (entry tab s (vpn la))) eqn:Hca; cbn [negb]; [|exists s; split; [done|by apply Hsame]].
  erewrite bind_Ret by (by apply get_pte_eq). rewrite Hvp.
  rewrite (bind_Ret _ _ _ _ _ (ld_entry0 g tab s _ Hpt)), (cached_mate s _ Hpt).
  destruct (coh_live _ _ Hc (vpn la) Hv Hca) as [_ Hk].
  assert (Hidx := TLBIDX_range (entry tab s (vpn la))).
  destruct (cached (entry tab s (mate (vpn la)))) eqn:Hm; erewrite bind_Ret by done; cbn [fst snd].
  - rewrite (hi_eq la Hu). apply invalidate_tail; rewrite ?Hm; try done.
    intros d0 d1. apply (algo_ext s _ (coh_algo _ _ Hc)); [|done]. intros i Hi. unfold key. simpl.
    destruct (decide (i = TLBIDX (entry tab s (vpn la)))) as [->|]; [|apply arr_get_set_ne; lia].
    rewrite arr_get_set_eq by (destruct (coh_len _ _ Hc); lia). by rewrite <- Hk.
  - apply invalidate_tail; rewrite ?Hm; try done; [by eapply pt_words|].
    intros d0 d1. apply given_back; [by apply Hc|by destruct (coh_len _ _ Hc)|done|].
    rewrite Hk. by apply user_key.
Qed.

End Ops.

(** ** The hardware *)

Lemma ENTRYLO_num e :
  is_u32 e -> ENTRYLO e = PPN e * 64 + 16 + (e `div` 2) `mod` 2 * 4 + 3.
Proof.
  intros He. unfold ENTRYLO, ENTRYLO_AUX. change 1 with (2 ^ 1 - 1) at 2.
  rewrite land_low, (Z.shiftr_div_pow2 e 1), (Z.shiftl_mul_pow2 _ 6) by lia.
  change (2 ^ 1) with 2. change (2 ^ 6) with 64.
  assert (Hp : 0 <= PPN e < 1048576) by (unfold PPN; rewrite Z.shiftr_div_pow2 by lia; change (2 ^ 12) with 4096; width).
  rewrite u32_id by width. rewrite <- !Z.lor_assoc.
  assert (Hd : (e `div` 2) `mod` 2 = 0 \/ (e `div` 2) `mod` 2 = 1) by width.
  change 64 with (2 ^ 6). destruct Hd as [-> | ->].
  - change (Z.lor 16 _) with 19. rewrite lor_add by lia. lia.
  - change (Z.lor 16 _) with 23. rewrite lor_add by lia. lia.
Qed.

Definition writable (e : Z) : bool := Z.testbit e 1.

Lemma writable_num e : (e `div` 2) `mod` 2 = Z.b2z (writable e).
Proof. unfold writable. symmetry. apply (Z.testbit_spec' e 1). lia. Qed.

(** How the table says a page is accessed. *)
Definition table_xlate (e la : Z) (write : bool) : MMUSpec.xlate :=
  if write && negb (writable e) then MMUSpec.Fail CP0.Exc_Mod
  else MMUSpec.Phys (PTE_ADDR e + la `mod` 4096).

Lemma PTE_ADDR_num e : is_u32 e -> PTE_ADDR e = PPN e * 4096.
Proof.
  intros He. unfold PTE_ADDR, PPN. change 0xfffff000 with (2 ^ 32 - 2 ^ 12).
  rewrite land_high by (change (2 ^ 32) with 0x100000000; unfold is_u32 in He; lia).
  by rewrite Z.shiftr_div_pow2 by lia.
Qed.

Lemma entry_xlate_eq e la w : is_u32 e -> MMUSpec.entry_xlate (ENTRYLO e) la w = table_xlate e la w.
Proof.
  intros He. assert (Hw := writable_num e).
  assert (Hp : 0 <= PPN e < 1048576) by (unfold PPN; rewrite Z.shiftr_div_pow2 by lia; change (2 ^ 12) with 4096; width).
  unfold MMUSpec.entry_xlate, table_xlate. rewrite ENTRYLO_num, PTE_ADDR_num by done. rewrite Hw.
  change (2 ^ 20) with 1048576.
  rewrite decide_False by (destruct (writable e); simpl Z.b2z; width).
  destruct (writable e); simpl Z.b2z; rewrite ?andb_false_r, ?andb_true_r; simpl negb.
  - rewrite decide_False; [|intros [H _]; revert H; width]. do 2 f_equal. width.
  - destruct w; simpl.
    + rewrite decide_True; [done|]. split; [width|done].
    + rewrite decide_False by naive_solver. do 2 f_equal. width.
Qed.

Lemma coh_key E s la i :
  coh E s -> user la -> 0 <= i < 16 -> key s i `div` 8192 = la `div` 8192 -> key s i = vpn la `div` 2 * 8192.
Proof.
  intros Hc Hu Hi Hk. unfold user, vpn in *.
  destruct (slot_used _ _ _ (coh_slot _ _ Hc i Hi)) as [Hx|(v & Hv & Hcv & Hiv)].
  - rewrite Hx in Hk. unfold ENTRYHI_INVALID in Hk. width.
  - destruct (coh_live _ _ Hc v Hv Hcv) as [_ Hkv]. rewrite Hiv in Hkv. rewrite Hkv in *. width.
Qed.

(** An MMU with the TLB contents of [s]. *)
Definition same_tlb (s : t) (m : MMU.t) : Prop :=
  MMU.tlb_key_ m = tlb_key s /\ MMU.tlb_data0 m = tlb_data0 s /\ MMU.tlb_data1 m = tlb_data1 s.

Lemma coh_xlate E s m la w :
  (forall v, is_u32 (E v)) -> coh E s -> same_tlb s m -> user la ->
  MMUSpec.xlate_spec m la w =
    if cached (E (vpn la)) then table_xlate (E (vpn la)) la w else MMUSpec.Fail (MMUSpec.miss_code w).
Proof.
  intros HE Hc (Hk & H0 & H1) Hu. assert (Hv := user_vpn_of la Hu). unfold MMUSpec.xlate_spec.
  rewrite decide_False by (unfold user in Hu; lia). rewrite Hk, H0, H1.
  destruct (coh_len _ _ Hc) as [Hlen _].
  assert (Hget : forall i x, tlb_key s !! i = Some x -> 0 <= Z.of_nat i < 16 /\ key s (Z.of_nat i) = x).
  { intros i x Hi. split; [apply lookup_lt_Some in Hi; lia|]. unfold key, arr_get. by rewrite Nat2Z.id, Hi. }
  destruct (list_find _ (tlb_key s)) as [[i x]|] eqn:Hf.
  - apply list_find_Some in Hf as (Hi & Hx & _). destruct (Hget i x Hi) as [Hir Hki].
    rewrite <- Hki in Hx. apply (coh_key E s la) in Hx; [|done..].
    assert (Hh := slot_half _ _ _ (coh_slot _ _ Hc _ Hir) (vpn la) Hv Hx).
    unfold half in Hh. fold (vpn la). rewrite Hh. destruct (cached (E (vpn la))) eqn:Hca.
    + rewrite decide_True; [by apply entry_xlate_eq|]. split; [done|]. by apply (key_owner E s).
    + rewrite decide_False; [done|]. intros [Hx' _]. congruence.
  - apply list_find_None in Hf. rewrite Forall_forall in Hf. destruct (cached (E (vpn la))) eqn:Hca; [|done].
    destruct (coh_live _ _ Hc (vpn la) Hv Hca) as [_ Hkl]. exfalso.
    assert (Hr := TLBIDX_range (E (vpn la))).
    destruct (lookup_lt_is_Some_2 (tlb_key s) (Z.to_nat (TLBIDX (E (vpn la))))) as [x Hx]; [lia|].
    apply (Hf x); [by eapply list_elem_of_lookup_2|].
    unfold key, arr_get in Hkl. rewrite Hx in Hkl. simpl in Hkl. rewrite Hkl. unfold vpn, user in *. width.
Qed.

(** ** Loading a directory *)

Lemma tlb_clear_eq n s :
  (n <= 16)%nat -> length (tlb_key s) = 16%nat -> length (tlb_data0 s) = 16%nat -> length (tlb_data1 s) = 16%nat ->
  exists k d0 d1, tlb_clear n (16 - Z.of_nat n) s = Ret (tt, set_tlb k d0 d1 s) /\
    length k = 16%nat /\ length d0 = 16%nat /\ length d1 = 16%nat /\
    (forall i, 16 - Z.of_nat n <= i < 16 -> arr_get k i = ENTRYHI_INVALID) /\
    (forall i, 0 <= i < 16 - Z.of_nat n -> arr_get k i = arr_get (tlb_key s) i).
Proof.
  revert s. induction n as [|n IH]; intros s Hn Hk H0 H1.
  - exists (tlb_key s), (tlb_data0 s), (tlb_data1 s). split; [by destruct s|]. split_and!; try done; lia.
  - cbn [tlb_clear]. erewrite bind_Ret by (apply tlb_write_eq; lia). set (s1 := set_tlb _ _ _ s).
    replace (16 - Z.of_nat (S n) + 1) with (16 - Z.of_nat n) by lia.
    destruct (IH s1) as (k & d0 & d1 & He & Hkl & H0l & H1l & Hin & Hout);
      [lia|simpl; by rewrite arr_set_length..|].
    exists k, d0, d1. split; [exact He|]. split_and!; [done..| |].
    + intros i Hi. destruct (decide (i = 16 - Z.of_nat (S n))) as [->|]; [|apply Hin; lia].
      rewrite Hout by lia. simpl. apply arr_get_set_eq. lia.
    + intros i Hi. rewrite Hout by lia. simpl. apply arr_get_set_ne; lia.
Qed.

(** A directory whose entries carry no TLB mark starts coherent. *)
Lemma load_pgdir_coh g tab s :
  pt g tab s -> length (tlb_key s) = 16%nat -> length (tlb_data0 s) = 16%nat -> length (tlb_data1 s) = 16%nat ->
  length (tlb_algo_hi s) = 16%nat -> 0 <= tlb_algo_ptr s < 16 ->
  (forall v, user_vpn v -> cached (entry tab s v) = false) ->
  exists s', load_pgdir g s = Ret (tt, s') /\ pt g tab s' /\ cur_pgdir s' = g /\
    words s' = words s /\ coh (entry tab s') s'.
Proof.
  intros Hpt Hk H0 H1 Hh Hp Hc. unfold load_pgdir, tlb_init.
  rewrite (bind_Ret _ _ s tt (set_cur_pgdir g s)) by done.
  destruct (tlb_clear_eq 16 (set_cur_pgdir g s)) as (k & d0 & d1 & He & Hkl & H0l & H1l & Hin & _); [lia|done..|].
  change (16 - Z.of_nat 16) with 0 in *. change (Z.to_nat TLBN) with 16%nat. rewrite (bind_Ret _ _ _ _ _ He).
  eexists. split; [reflexivity|]. split; [by eapply pt_words|]. split; [done|]. split; [done|].
  assert (Hnc : forall v, user_vpn v -> cached (entry tab s v) <> true) by (intros v Hv; by rewrite Hc).
  split; simpl; [done| | | |].
  - intros v Hv Hx. by destruct (Hnc v Hv).
  - intros v w Hv _ _ Hx. by destruct (Hnc v Hv).
  - intros i Hi. split; [|left; by apply Hin].
    intros v Hv Hx. destruct (user_key v Hv). rewrite <- Hx. by apply Hin.
  - split; simpl; try done.
    + change (NoDup (seqZ 0 16)). apply NoDup_seqZ.
    + intros i Hi. unfold frees in Hi. change (i ∈ seqZ 0 16) in Hi. apply elem_of_seqZ in Hi. split; [lia|].
      apply Hin. lia.
    + intros i Hi Hn. destruct Hn. unfold frees. change (i ∈ seqZ 0 16). apply elem_of_seqZ. lia.
Qed.

(** ** Properties *)

Lemma mapping_frame e e' :
  mapping e = mapping e' -> PTE_ADDR e = PTE_ADDR e' /\ writable e = writable e' /\ present e = present e'.
Proof.
  intros Hm.
  assert (Hx : forall e, PTE_ADDR e = Z.land (mapping e) 0xfffff000 /\
    writable e = Z.testbit (mapping e) 1 /\ present e = Z.testbit (mapping e) 0).
  { intros x. unfold PTE_ADDR, writable, present, mapping. rewrite <- Z.land_assoc, !Z.land_spec, !andb_true_r. done. }
  destruct (Hx e) as (-> & -> & ->). destruct (Hx e') as (-> & -> & ->). by rewrite Hm.
Qed.

Lemma table_xlate_mapping e e' la w : mapping e = mapping e' -> table_xlate e la w = table_xlate e' la w.
Proof. intros (Ha & Hw & _)%mapping_frame. unfold table_xlate. by rewrite Ha, Hw. Qed.

Lemma table_xlate_hit e la w : table_xlate e la w <> MMUSpec.Fail (MMUSpec.miss_code w).
Proof. unfold table_xlate. destruct w, (writable e); done. Qed.

(** C17: The TLB refill is correct against the hardware.  In a coherent state,
    when the MMU misses on a user address whose page is present,
    [tlb_miss_handler] returns 0 in a state that is coherent again and maps every
    page as before; the MMU with the new TLB translates the address that missed
    to the frame of its page table entry plus the offset (refusing a store to a
    read-only page), and every user address it translates at all, it translates
    as the page table says. *)
Theorem tlb_miss_handler_correct pgfault mm mm_pgdir in_kernel store g tab s m la w :
  pt g tab s -> cur_pgdir s = g -> g <> 0 -> coh (entry tab s) s -> same_tlb s m -> user la ->
  present (entry tab s (vpn la)) = true ->
  MMUSpec.xlate_spec m la w = MMUSpec.Fail (MMUSpec.miss_code w) ->
  exists s', tlb_miss_handler pgfault mm mm_pgdir in_kernel store la s = Ret (Some 0, s') /\
    pt g tab s' /\ cur_pgdir s' = g /\ coh (entry tab s') s' /\ pmm s' = pmm s /\
    (forall v, user_vpn v -> mapping (entry tab s' v) = mapping (entry tab s v)) /\
    forall m', same_tlb s' m' ->
      (forall w, MMUSpec.xlate_spec m' la w = table_xlate (entry tab s (vpn la)) la w) /\
      (forall la' w pa, user la' -> MMUSpec.xlate_spec m' la' w = MMUSpec.Phys pa ->
         table_xlate (entry tab s (vpn la')) la' w = MMUSpec.Phys pa).
Proof.
  intros Hpt Hg Hg0 Hc Hm Hu Hp Hmiss.
  assert (HE := fun v => entry_u32 g tab s v Hpt).
  assert (Hnc : cached (entry tab s (vpn la)) = false).
  { rewrite (coh_xlate (entry tab s) s m la w HE Hc Hm Hu) in Hmiss. destruct (cached _); [|done].
    by apply table_xlate_hit in Hmiss. }
  destruct (entry_addr tab (vpn la)) as [a|] eqn:Ha; [|by rewrite (entry_None tab s _ Ha) in Hp].
  destruct (tlb_refill_spec g tab s la a) as (s' & Hr & [Hpt' Hg' Hc' Hca Hmap (Hpm & _)]); [done..|].
  exists s'. split_and!; try done.
  - unfold tlb_miss_handler. rewrite (bind_Ret _ _ s s s) by done.
    rewrite Hg, (proj2 (Z.eqb_neq g 0) Hg0). rewrite (bind_Ret _ _ s tt s) by done.
    erewrite bind_Ret by (by apply get_pte_eq). rewrite (bind_Ret _ _ _ _ _ (ld_entry0 g tab s _ Hpt)).
    rewrite Ha, present_test, Hp. cbn [default from_option id negb].
    rewrite (entry_addr_nonzero g tab s _ a Hpt Ha). cbn [orb]. by rewrite (bind_Ret _ _ _ _ _ Hr).
  - intros m' Hm'. assert (HE' := fun v => entry_u32 g tab s' v Hpt'). split.
    + intros w'. rewrite (coh_xlate (entry tab s') s' m' la w' HE' Hc' Hm' Hu), Hca.
      apply table_xlate_mapping, Hmap. by apply user_vpn_of.
    + intros la' w' pa Hu'. rewrite (coh_xlate (entry tab s') s' m' la' w' HE' Hc' Hm' Hu').
      destruct (cached (entry tab s' (vpn la'))); [|discriminate]. intros <-. symmetry. apply table_xlate_mapping, Hmap. by apply user_vpn_of.
Qed.

(** C18: Invalidation is safe.  In a coherent state [tlb_invalidate] of the
    current directory keeps the state coherent and leaves every other entry of
    the page table as it is; afterwards the MMU misses on the page, so that no
    access goes through the old translation, and translates every other user
    page exactly as before.  Both conditions matter: [load_pgdir_stale] shows how
    a state that is not coherent comes about, with the MMU still translating the
    invalidated page. *)
Theorem tlb_invalidate_safe g tab s la :
  pt g tab s -> cur_pgdir s = g -> coh (entry tab s) s -> user la ->
  exists s', tlb_invalidate g la s = Ret (tt, s') /\
    pt g tab s' /\ coh (entry tab s') s' /\ pmm s' = pmm s /\
    (forall v, user_vpn v -> v <> vpn la -> entry tab s' v = entry tab s v) /\
    forall m m', same_tlb s m -> same_tlb s' m' ->
      (forall la' w, user la' -> vpn la' = vpn la ->
         MMUSpec.xlate_spec m' la' w = MMUSpec.Fail (MMUSpec.miss_code w)) /\
      (forall la' w, user la' -> vpn la' <> vpn la ->
         MMUSpec.xlate_spec m' la' w = MMUSpec.xlate_spec m la' w).
Proof.
  intros Hpt Hg Hc Hu. destruct (tlb_invalidate_spec g tab s la) as (s' & Hi & [Hpt' Hg' Hc' He (Hpm & _)]); [done..|].
  assert (HE := fun v => entry_u32 g tab s v Hpt). assert (HE' := fun v => entry_u32 g tab s' v Hpt').
  assert (Hne : forall v, user_vpn v -> v <> vpn la -> entry tab s' v = entry tab s v).
  { intros v Hv Hn. rewrite He by done. unfold dropped. by rewrite decide_False. }
  exists s'. split_and!; try done. intros m m' Hm Hm'. split; intros la' w Hu' Hv'.
  - rewrite (coh_xlate (entry tab s') s' m' la' w HE' Hc' Hm' Hu'), Hv', He by (by apply user_vpn_of).
    unfold dropped. by rewrite decide_True, tlb_drop_cached.
  - rewrite (coh_xlate (entry tab s') s' m' la' w HE' Hc' Hm' Hu'), (coh_xlate (entry tab s) s m la' w HE Hc Hm Hu').
    by rewrite Hne by (auto using user_vpn_of).
Qed.

(** ** A concrete table *)

(** A directory with one table, whose first 80 pages are present (page 1 is
    read-only). *)
Definition demo_dir : Z := 0x80001000.
Definition demo_tab : gmap Z Z := {[1 := 0x80002000]}.
Definition demo_words : gmap Z Z :=
  list_to_map (((fun d => (demo_dir + 4 * d, if d =? 1 then 0x2007 else 0)) <$> seqZ 0 512)
    ++ ((fun k => (0x80002000 + 4 * k,
           if k <? 80 then 0x100000 + k * 4096 + (if k =? 1 then 5 else 7) else 0)) <$> seqZ 0 1024)).
Definition demo : t :=
  mk demo_words 2048 (Pmm.mk ∅ [] 0) false 0 (replicate 16 0) (replicate 16 0) (replicate 16 0)
    (replicate 16 0) 0 (replicate 16 0) 0.

Lemma seqZ_forallb (f : Z -> bool) n :
  forallb f (seqZ 0 n) = true -> forall i, 0 <= i < n -> f i = true.
Proof.
  intros Hf i Hi. rewrite forallb_forall in Hf. apply Hf. rewrite <- list_elem_of_In. apply elem_of_seqZ. lia.
Qed.

Lemma demo_pt : pt demo_dir demo_tab demo.
Proof.
  split.
  - done.
  - assert (H : forallb (fun d => match words demo !! (demo_dir + 4 * d), demo_tab !! d with
        | Some e, None => negb (present e)
        | Some e, Some b => present e && (Z.land e 0xfffff000 + KERNBASE =? b)
                            && (PPN (Z.land e 0xfffff000) <? npage demo)
        | None, _ => false end) (seqZ 0 512) = true) by (by vm_compute).
    intros d Hd. assert (Hx := seqZ_forallb _ _ H d Hd). cbv beta in Hx.
    destruct (words demo !! (demo_dir + 4 * d)) as [e|]; [|done]. exists e. split; [done|].
    destruct (demo_tab !! d) as [b|]; [|by destruct (present e)].
    destruct (present e); [|done]. cbn [andb] in Hx. split; [done|]. split; lia.
  - intros d b Hb. unfold demo_tab in *. apply lookup_singleton_Some in Hb as [<- <-]. split_and!; [done|done|done|done|].
    assert (H : forallb (fun k => match words demo !! (0x80002000 + 4 * k) with
      | Some e => (0 <=? e) && (e <? 0x100000000) | None => false end) (seqZ 0 1024) = true) by (by vm_compute).
    intros k Hk. assert (Hx := seqZ_forallb _ _ H k Hk). cbv beta in Hx.
    destruct (words demo !! _) as [e|]; [|done]. exists e. split; [done|]. unfold is_u32. lia.
  - intros d d' b Hb Hb'. unfold demo_tab in *. apply lookup_singleton_Some in Hb as [<- _]. by apply lookup_singleton_Some in Hb' as [<- _].
Qed.

Lemma demo_uncached v : user_vpn v -> cached (entry demo_tab demo v) = false.
Proof.
  intros Hv. unfold entry. destruct (entry_addr demo_tab v) as [a|] eqn:Ha; [|done].
  apply entry_addr_inv in Ha as (b & Hb & ->). unfold demo_tab in Hb. apply lookup_singleton_Some in Hb as [Hd <-].
  change (cached (default 0 (demo_words !! (0x80002000 + 4 * (v `mod` 1024)))) = false).
  assert (H : forallb (fun k => match demo_words !! (0x80002000 + 4 * k) with
      | Some e => negb (cached e) | None => false end) (seqZ 0 1024) = true) by (by vm_compute).
  assert (Hx := seqZ_forallb _ _ H (v `mod` 1024) ltac:(width)). cbv beta in Hx.
  destruct (demo_words !! _) as [e|]; [|done]. cbn [default from_option id]. by destruct (cached e).
Qed.

(** An MMU with the TLB of [s]. *)
Definition mmu_of (s : t) : MMU.t := MMU.mk CP0.init ∅ [] [] (tlb_key s) (tlb_data0 s) (tlb_data1 s) [] false.

Lemma tlb_miss_handler_correct_witness :
  exists s s', load_pgdir demo_dir demo = Ret (tt, s) /\
    tlb_miss_handler (fun _ _ => panic) 0 0 false false 0x400abc s = Ret (Some 0, s') /\
    MMUSpec.xlate_spec (mmu_of s') 0x400abc true = MMUSpec.Phys 0x100abc.
Proof.
  destruct (load_pgdir_coh demo_dir demo_tab demo demo_pt) as (s & Hl & Hpt & Hg & Hw & Hc);
    [done..|by split|apply demo_uncached|].
  assert (He : entry demo_tab s 0x400 = 0x100007).
  { rewrite (entry_words demo_tab demo s) by done. by vm_compute. }
  destruct (tlb_miss_handler_correct (fun _ _ => panic) 0 0 false false demo_dir demo_tab s (mmu_of s) 0x400abc false)
    as (s' & Hh & _ & _ & _ & _ & _ & Hx);
    [done|done|done|done|done|done|change (vpn 0x400abc) with 0x400; by rewrite He| |].
  - rewrite (coh_xlate _ s (mmu_of s) _ _ (fun v => entry_u32 _ _ s v Hpt) Hc) by done.
    change (vpn 0x400abc) with 0x400. by rewrite He.
  - exists s, s'. split; [done|]. split; [done|]. destruct (Hx (mmu_of s')) as [Hx' _]; [done|].
    rewrite Hx'. change (vpn 0x400abc) with 0x400. by rewrite He.
Defined.

Lemma tlb_invalidate_safe_witness :
  exists s s', load_pgdir demo_dir demo = Ret (tt, s) /\ tlb_invalidate demo_dir 0x400000 s = Ret (tt, s') /\
    MMUSpec.xlate_spec (mmu_of s') 0x400abc false = MMUSpec.Fail CP0.Exc_TLBL.
Proof.
  destruct (load_pgdir_coh demo_dir demo_tab demo demo_pt) as (s & Hl & Hpt & Hg & _ & Hc);
    [done..|by split|apply demo_uncached|].
  destruct (tlb_invalidate_safe demo_dir demo_tab s 0x400000) as (s' & Hi & _ & _ & _ & _ & Hx); [done..|].
  exists s, s'. split; [done|]. split; [done|].
  destruct (Hx (mmu_of s) (mmu_of s')) as [Hx' _]; [done..|]. by apply (Hx' 0x400abc false).
Defined.

(** ** Marks that outlive a switch of directory

    [load_pgdir] empties the TLB and the free list but leaves TLB_P and the
    index in the entries of the directory it loads.  A process that is
    scheduled again therefore starts with marks of its previous run. *)

Inductive event := Access (la : Z) | Unmap (la : Z) | Load (pgdir : Z).

(** A user access refills on a miss; unmapping invalidates. *)
Definition step (e : event) : M t unit :=
  match e with
  | Access la =>
      s ← get;
      match MMUSpec.xlate_spec (mmu_of s) la false with
      | MMUSpec.Phys _ => mret tt
      | MMUSpec.Fail _ => tlb_miss_handler (fun _ _ => panic) 0 0 false false la;; mret tt
      end
  | Unmap la => s ← get; tlb_invalidate (cur_pgdir s) la
  | Load pgdir => load_pgdir pgdir
  end.
Fixpoint steps (l : list event) : M t unit :=
  match l with [] => mret tt | e :: l => step e;; steps l end.

(** The first page is cached, another directory runs, and the process comes
    back: its pages are then refilled into an entry that is also free. *)
Definition stale_run : list event :=
  let page k := 0x400000 + k * 4096 in
  [Load demo_dir; Access (page 0); Load 0x80100000; Load demo_dir;
   Access (page 1); Access (page 2); Access (page 0); Access (page 2)]
  ++ ((fun k => Access (page (2 * k))) <$> seqZ 2 29)
  ++ [Unmap (page 50); Access (page 2); Access (page 70); Unmap (page 2)].

(** Each access of the run is a hit or a refill, and page 2 is unmapped last;
    the TLB still translates it. *)
Lemma load_pgdir_stale :
  match steps stale_run demo with
  | Ret (_, s) => MMUSpec.xlate_spec (mmu_of s) 0x402000 false = MMUSpec.Phys 0x102000
  | _ => False
  end.
Proof. by vm_compute. Qed.
End TlbSpec.
