(* ===== verification/Heap.v ===== *)
(** The kernel heap as its clients see it: [kmalloc] and [kfree]
    (kern/mm/kmalloc.h).  A block is known by its address; 0 is NULL. *)

From S2P Require Import Prelude.

Class Heap (H : Type) := {
  kmalloc : Z -> M H Z;
  kfree : Z -> M H unit
}.

(** What the clients rely on: an allocation gives an address that is not in
    use, or NULL; releasing a block in use succeeds. *)
Class HeapLaws (H : Type) `{Heap H} := {
  blocks : H -> gset Z;
  kmalloc_spec n h : 0 < n < 4080 -> exists p h', kmalloc n h = Ret (p, h') /\
    if decide (p = 0) then blocks h' = blocks h
    else p ∉ blocks h /\ blocks h' = {[p]} ∪ blocks h;
  kfree_spec p h : p ∈ blocks h -> exists h', kfree p h = Ret (tt, h') /\
    blocks h' = blocks h ∖ {[p]};
  blocks_null h : 0 ∉ blocks h
}.

(** A heap that gives out the next address above those in use, [left] times. *)
Module Bump.

Record t := mk { left : nat; used : list Z }.

Definition next (h : t) : Z := 1 + foldr Z.max 0 (used h).

#[global] Instance bump_heap : Heap t := {
  kmalloc n := fun h =>
    match left h with
    | O => Ret (0, h)
    | S k => Ret (next h, mk k (next h :: used h))
    end;
  kfree p := fun h => Ret (tt, mk (left h) (filter (fun q => q <> p) (used h)))
}.

Lemma foldr_max l x : x ∈ l -> x <= foldr Z.max 0 l.
Proof.
  induction l as [|y l IH]; [by intros ?%elem_of_nil|]. simpl.
  intros [->|Hx]%elem_of_cons; [lia|]. apply IH in Hx. lia.
Qed.

Lemma next_pos h : 0 < next h.
Proof. unfold next. induction (used h) as [|y l IH]; simpl; lia. Qed.

#[global] Instance bump_laws : HeapLaws t.
Proof.
  refine {| blocks h := list_to_set (filter (fun p => 0 < p) (used h)) |}.
  - intros n h _. unfold kmalloc, bump_heap. destruct (left h) as [|k].
    + exists 0, h. by rewrite decide_True.
    + exists (next h), (mk k (next h :: used h)). split; [done|].
      assert (Hp := next_pos h). rewrite decide_False by lia. split.
      * rewrite elem_of_list_to_set, list_elem_of_filter. intros [_ Hin%foldr_max]. unfold next in Hin. lia.
      * cbn [used]. rewrite filter_cons_True by done. by rewrite list_to_set_cons.
  - intros p h _. eexists. split; [done|]. cbn [used]. apply set_eq. intros x.
    rewrite elem_of_difference, !elem_of_list_to_set, elem_of_singleton, !list_elem_of_filter. tauto.
  - intros h. rewrite elem_of_list_to_set, list_elem_of_filter. lia.
Defined.

End Bump.
