(* ===== verification/Kmalloc.v ===== *)
(** The kernel heap: the SLOB allocator of src/ucore_OS/kern/mm/kmalloc.c on the
    word memory and the page allocator of [Paging].  A [slob_t] is its address:
    [units] is the word there and [next] the word after it; a [bigblock_t] has
    its three fields in three words.  [arena] is the address of the static block
    that starts the ring.  The spin locks only switch interrupts off and on. *)

From S2P Require Import Prelude DefaultPmm Paging.

Module Kmalloc.

Definition PAGE_SIZE : Z := 4096.
Definition SLOB_UNIT : Z := 8.
Definition SLOB_UNITS (size : Z) : Z := u32 (size + SLOB_UNIT - 1) `div` SLOB_UNIT.
Definition ALIGN (addr size : Z) : Z := Z.land (u32 (addr + size - 1)) (Z.lnot (size - 1)).
Definition sizeof_bigblock : Z := 12.

Record t := mk { kmem : Paging.t; slobfree : Z; bigblocks : Z }.

Definition set_kmem m s := mk m (slobfree s) (bigblocks s).
Definition set_slobfree p s := mk (kmem s) p (bigblocks s).
Definition set_bigblocks p s := mk (kmem s) (slobfree s) p.

Definition on_mem {A} (m : M Paging.t A) : M t A := fun s =>
  match m (kmem s) with
  | Ret (a, p) => Ret (a, set_kmem p s)
  | Panic => Panic | Fault => Fault | Diverge => Diverge
  end.

Definition ld (a : Z) : M t Z := on_mem (Paging.ld a).
Definition st (a v : Z) : M t unit := on_mem (Paging.st a v).

(** [b->units], an [int], and [b->next]. *)
Definition units (b : Z) : M t Z := v ← ld b; mret (s32 v).
Definition set_units (b v : Z) : M t unit := st b (u32 v).
Definition next (b : Z) : M t Z := ld (b + 4).
Definition set_next (b n : Z) : M t unit := st (b + 4) n.

(** The address of the first of 2^order pages, 0 when there are none. *)
Definition __slob_get_free_pages (order : Z) : M t Z :=
  p ← on_mem (Paging.alloc_pages (1 ≪ order));
  match p with None => mret 0 | Some p => on_mem (Paging.page2kva p) end.

Definition __slob_free_pages (kva order : Z) : M t unit :=
  p ← on_mem (Paging.kva2page kva); on_mem (Paging.free_pages p (1 ≪ order)).

(** The steps a walk along [next] can take before it meets a block again. *)
Definition ring_fuel (s : t) : nat := S (size (Paging.words (kmem s))).

(** The reinsertion point of [b]: the last block below it. *)
Fixpoint slob_find (fuel : nat) (cur b : Z) : M t Z :=
  match fuel with
  | O => diverge
  | S fuel =>
      n ← next cur;
      if (cur <? b) && (b <? n) then mret cur
      else if (n <=? cur) && ((cur <? b) || (b <? n)) then mret cur
      else slob_find fuel n b
  end.

(** [b] takes its place between [cur] and [cur->next] and merges with them. *)
Definition slob_link (cur b : Z) : M t unit :=
  bu ← units b;
  n ← next cur;
  (if b + SLOB_UNIT * bu =? n then
     nu ← units n;
     set_units b (bu + nu);;
     nn ← next n;
     set_next b nn
   else set_next b n);;
  cu ← units cur;
  if cur + SLOB_UNIT * cu =? b then
    bu ← units b;
    set_units cur (cu + bu);;
    bn ← next b;
    set_next cur bn
  else set_next cur b.

Definition slob_free (block size : Z) : M t unit :=
  if block =? 0 then mret tt else
  when (negb (size =? 0)) (set_units block (SLOB_UNITS size));;
  s ← get;
  cur ← slob_find (ring_fuel s) (slobfree s) block;
  slob_link cur block;;
  modify (set_slobfree cur).

(** The first [n] units of [cur] leave the ring; [prev] is the block before. *)
Definition slob_take (prev cur n : Z) : M t Z :=
  cu ← units cur;
  (if cu =? n then nx ← next cur; set_next prev nx
   else
     set_next prev (cur + SLOB_UNIT * n);;
     r ← next prev;
     set_units r (cu - n);;
     r ← next prev;
     nx ← next cur;
     set_next r nx;;
     set_units cur n);;
  modify (set_slobfree prev);;
  mret cur.

(** The search; [aligned] and [delta] stay 0 when no alignment is asked for. *)
Fixpoint slob_loop (fuel : nat) (size n align prev cur : Z) : M t Z :=
  match fuel with
  | O => diverge
  | S fuel =>
      let aligned := if align =? 0 then 0 else ALIGN cur align in
      let delta := if align =? 0 then 0 else (aligned - cur) `div` SLOB_UNIT in
      cu ← units cur;
      if n + delta <=? cu then
        if delta =? 0 then slob_take prev cur n else
        set_units aligned (cu - delta);;
        nx ← next cur;
        set_next aligned nx;;
        set_next cur aligned;;
        set_units cur delta;;
        slob_take cur aligned n
      else
        s ← get;
        if cur =? slobfree s then
          if size =? PAGE_SIZE then mret 0 else
          c ← __slob_get_free_pages 0;
          if c =? 0 then mret 0 else
          slob_free c PAGE_SIZE;;
          c ← gets slobfree;
          nx ← next c;
          slob_loop fuel size n align c nx
        else nx ← next cur; slob_loop fuel size n align cur nx
  end.

Definition slob_alloc (size align : Z) : M t Z :=
  assert_ (u32 (size + SLOB_UNIT) <? PAGE_SIZE);;
  s ← get;
  c ← next (slobfree s);
  slob_loop (ring_fuel s + ring_fuel s) size (SLOB_UNITS size) align (slobfree s) c.

(** [for ( ; size > 4096 ; size >>=1) order++] on an [int]. *)
Fixpoint order_loop (fuel : nat) (size order : Z) : Z :=
  match fuel with
  | O => order
  | S fuel => if 4096 <? size then order_loop fuel (size ≫ 1) (order + 1) else order
  end.
Definition find_order (size : Z) : Z := order_loop 32 size 0.

Definition __kmalloc (size : Z) : M t Z :=
  if size <? PAGE_SIZE - SLOB_UNIT then
    m ← slob_alloc (size + SLOB_UNIT) 0;
    mret (if m =? 0 then 0 else m + SLOB_UNIT)
  else
    bb ← slob_alloc sizeof_bigblock 0;
    if bb =? 0 then mret 0 else
    st bb (find_order (s32 size));;
    order ← ld bb;
    pages ← __slob_get_free_pages order;
    st (bb + 4) pages;;
    if negb (pages =? 0) then
      s ← get;
      st (bb + 8) (bigblocks s);;
      modify (set_bigblocks bb);;
      mret pages
    else slob_free bb sizeof_bigblock;; mret 0.

Definition kmalloc (size : Z) : M t Z := __kmalloc size.

(** The walk along the big blocks for the one of the pages at [block]: the
    block found and where the pointer to it is kept, [None] for [bigblocks]. *)
Fixpoint find_big (fuel : nat) (last : option Z) (bb block : Z) : M t (option (option Z * Z)) :=
  match fuel with
  | O => diverge
  | S fuel =>
      if bb =? 0 then mret None else
      pages ← ld (bb + 4);
      if pages =? block then mret (Some (last, bb))
      else n ← ld (bb + 8); find_big fuel (Some bb) n block
  end.

Definition kfree (block : Z) : M t unit :=
  if block =? 0 then mret tt else
  s ← get;
  r ← (if Z.land block (PAGE_SIZE - 1) =? 0
       then find_big (ring_fuel s) None (bigblocks s) block else mret None);
  match r with
  | Some (last, bb) =>
      n ← ld (bb + 8);
      match last with None => modify (set_bigblocks n) | Some a => st (a + 8) n end;;
      order ← ld bb;
      __slob_free_pages block order;;
      slob_free bb sizeof_bigblock
  | None => slob_free (block - SLOB_UNIT) 0
  end.

Definition ksize (block : Z) : M t Z :=
  if block =? 0 then mret 0 else
  s ← get;
  r ← (if Z.land block (PAGE_SIZE - 1) =? 0
       then find_big (ring_fuel s) None (bigblocks s) block else mret None);
  match r with
  | Some (_, bb) => order ← ld bb; mret (u32 (PAGE_SIZE ≪ order))
  | None => n ← units (block - SLOB_UNIT); mret (u32 (n * SLOB_UNIT))
  end.

Definition slob_allocated : Z := 0.
Definition kallocated : Z := slob_allocated.

End Kmalloc.
