(* ===== verification/SlobSpec.v ===== *)
(** The SLOB allocator as a set of free bytes (kern/mm/kmalloc.c): the ring of
    free blocks is sorted, disjoint and coalesced, and starts at [arena];
    allocation takes bytes from it, release gives them back, and no byte of a
    block in use is written. *)

From S2P Require Import Prelude DefaultPmm DefaultPmmSpec Paging Kmalloc.

Module SlobSpec.
Import Kmalloc.

(** ** Words *)

Definition W (s : t) : gmap Z Z := Paging.words (kmem s).
Definition with_words (w : gmap Z Z) (s : t) : t := set_kmem (Paging.set_words w (kmem s)) s.

Lemma with_words_twice w w' s : with_words w' (with_words w s) = with_words w' s.
Proof. done. Qed.
Lemma with_words_id s : with_words (W s) s = s.
Proof. by destruct s as [[] ? ?]. Qed.

Lemma ld_eq s a v : W s !! a = Some v -> ld a s = Ret (v, s).
Proof. intros Ha. unfold ld, on_mem, Paging.ld. unfold W in Ha. rewrite Ha. by destruct s. Qed.
Lemma st_eq s a v : is_Some (W s !! a) -> st a v s = Ret (tt, with_words (<[a := v]> (W s)) s).
Proof. intros [x Ha]. unfold st, on_mem, Paging.st. unfold W in Ha. by rewrite Ha. Qed.

Definition is_units (u : Z) : Prop := 0 <= u < 2 ^ 30.

Lemma units_eq s b u : W s !! b = Some u -> is_units u -> units b s = Ret (u, s).
Proof.
  intros Hb Hu. unfold units. rewrite (bind_Ret _ _ _ _ _ (ld_eq _ _ _ Hb)).
  unfold mret, M_ret. unfold is_units in Hu. do 2 f_equal. apply s32_id. width.
Qed.
Lemma set_units_eq s b u :
  is_Some (W s !! b) -> is_units u -> set_units b u s = Ret (tt, with_words (<[b := u]> (W s)) s).
Proof.
  intros Hb Hu. unfold set_units. unfold is_units in Hu. rewrite u32_id by width. by apply st_eq.
Qed.
Lemma next_eq s b n : W s !! (b + 4) = Some n -> next b s = Ret (n, s).
Proof. apply ld_eq. Qed.
Lemma set_next_eq s b n :
  is_Some (W s !! (b + 4)) -> set_next b n s = Ret (tt, with_words (<[b + 4 := n]> (W s)) s).
Proof. apply st_eq. Qed.

(** ** Paths along [next] *)

(** From [x] through [l] to [y]. *)
Fixpoint chain (w : gmap Z Z) (x : Z) (l : list Z) (y : Z) : Prop :=
  match l with
  | [] => w !! (x + 4) = Some y
  | z :: l => w !! (x + 4) = Some z /\ chain w z l y
  end.

Definition closed (w : gmap Z Z) (l : list Z) : Prop :=
  match l with [] => False | x :: l => chain w x l x end.

Lemma chain_app w x l1 z l2 y : chain w x (l1 ++ z :: l2) y <-> chain w x l1 z /\ chain w z l2 y.
Proof. revert x. induction l1 as [|a l1 IH]; intros x; simpl; [done|]. rewrite IH. tauto. Qed.

(** The first block can be exchanged for one with the same successor. *)
Lemma chain_start w w' x x' l y :
  chain w x l y -> w' !! (x' + 4) = w !! (x + 4) ->
  (forall z, z ∈ l -> w' !! (z + 4) = w !! (z + 4)) -> chain w' x' l y.
Proof.
  revert x x'. induction l as [|z l IH]; intros x x'; simpl.
  - by intros Hx ->.
  - intros [Hx Hl] -> Hf. split; [done|]. apply (IH z); [done|apply Hf; set_solver|set_solver].
Qed.

Lemma closed_rotate w l1 l2 : closed w (l1 ++ l2) -> closed w (l2 ++ l1).
Proof.
  destruct l1 as [|x l1], l2 as [|y l2]; rewrite ?app_nil_r; try done.
  cbn [closed app]. rewrite !chain_app. tauto.
Qed.

(** Where the path to [y] ends. *)
Lemma chain_last w x l y p :
  chain w x l y -> y ∉ l -> p ∈ x :: l -> w !! (p + 4) = Some y -> exists l', x :: l = l' ++ [p].
Proof.
  revert x. induction l as [|z l IH]; intros x; cbn [chain].
  - intros _ _ ->%list_elem_of_singleton _. by exists [].
  - intros [Hx Hl] Hy [->|Hp]%elem_of_cons Hn.
    + rewrite Hx in Hn. injection Hn as ->. set_solver.
    + destruct (IH z) as [l' ->]; [done|set_solver|done|done|]. by exists (x :: l').
Qed.

Lemma chain_next w x l y z : chain w x l y -> z ∈ x :: l -> exists n, w !! (z + 4) = Some n /\ n ∈ l ++ [y].
Proof.
  revert x. induction l as [|a l IH]; intros x; cbn [chain].
  - intros Hx ->%list_elem_of_singleton. exists y. set_solver.
  - intros [Hx Hl] [->|Hz]%elem_of_cons; [exists a; set_solver|].
    destruct (IH a Hl Hz) as (n & ? & ?). exists n. set_solver.
Qed.

Lemma closed_next w l z : closed w l -> z ∈ l -> exists n, w !! (z + 4) = Some n /\ n ∈ l.
Proof.
  destruct l as [|x l]; [done|]. cbn [closed]. intros Hc Hz.
  destruct (chain_next _ _ _ _ _ Hc Hz) as (n & ? & ?). exists n. set_solver.
Qed.

(** ** Rings of free blocks *)

(** A block is its address and its number of units; its bytes. *)
Definition span (x : Z * Z) : Z * Z := (x.1, SLOB_UNIT * x.2).
Definition spans (F : list (Z * Z)) : list (Z * Z) := span <$> F.
Definition bytes (F : list (Z * Z)) (q : Z) : Prop := PmmSpec.free (spans F) q.

(** Every word of the block is memory, below the top. *)
Definition placed (w : gmap Z Z) (x : Z * Z) : Prop :=
  0 < x.1 /\ x.1 + SLOB_UNIT * x.2 <= 2 ^ 32 /\
  forall k, 0 <= k < x.2 ->
    is_Some (w !! (x.1 + SLOB_UNIT * k)) /\ is_Some (w !! (x.1 + SLOB_UNIT * k + 4)).

Record ring (w : gmap Z Z) (F : list (Z * Z)) : Prop := {
  ring_closed : closed w F.*1;
  ring_units : Forall (fun x => w !! x.1 = Some x.2) F;
  ring_sep : PmmSpec.sep 1 (spans F);
  ring_placed : Forall (placed w) F
}.

(** Memory grows nowhere and loses nothing. *)
Definition keeps_dom (w w' : gmap Z Z) : Prop := forall a, is_Some (w !! a) <-> is_Some (w' !! a).

Lemma keeps_dom_refl w : keeps_dom w w.
Proof. done. Qed.
Lemma keeps_dom_insert w w' a v : keeps_dom w w' -> is_Some (w !! a) -> keeps_dom w (<[a := v]> w').
Proof.
  intros Hd Ha b. destruct (decide (a = b)) as [->|].
  - rewrite lookup_insert_eq. split; [by eexists|done].
  - by rewrite lookup_insert_ne.
Qed.
Lemma keeps_dom_size w w' : keeps_dom w w' -> size w = size w'.
Proof.
  intros Hd. rewrite <- !size_dom. f_equal. apply set_eq. intros a. rewrite !elem_of_dom. apply Hd.
Qed.

Lemma placed_keeps w w' x : keeps_dom w w' -> placed w x -> placed w' x.
Proof.
  intros Hd (H1 & H2 & H3). split_and!; [done..|]. intros k Hk. destruct (H3 k Hk).
  split; by apply Hd.
Qed.
Lemma placed_all w w' F : keeps_dom w w' -> Forall (placed w) F -> Forall (placed w') F.
Proof. intros Hd HF. eapply Forall_impl; [exact HF|]. intros x. by apply placed_keeps. Qed.
Lemma placed_head w x : placed w x -> 0 < x.2 -> is_Some (w !! x.1) /\ is_Some (w !! (x.1 + 4)).
Proof.
  intros (_ & _ & H) Hx. destruct (H 0 ltac:(lia)) as [H1 H2]. by rewrite Z.mul_0_r, Z.add_0_r in H1, H2.
Qed.
Lemma placed_units w x : placed w x -> 0 <= x.2 -> is_units x.2.
Proof. intros (? & H & _) ?. unfold SLOB_UNIT, is_units in *. lia. Qed.

(** The blocks of [F] have the same first two words in both memories. *)
Definition agree (w w' : gmap Z Z) (F : list (Z * Z)) : Prop :=
  Forall (fun y => w' !! y.1 = w !! y.1 /\ w' !! (y.1 + 4) = w !! (y.1 + 4)) F.

Lemma agree_units w w' F :
  agree w w' F -> Forall (fun x => w !! x.1 = Some x.2) F -> Forall (fun x => w' !! x.1 = Some x.2) F.
Proof.
  intros Ha Hu. rewrite Forall_forall in *. intros x Hx. unfold agree in Ha. rewrite Forall_forall in Ha.
  destruct (Ha x Hx) as [-> _]. by apply Hu.
Qed.
Lemma agree_next w w' F z : agree w w' F -> z ∈ F.*1 -> w' !! (z + 4) = w !! (z + 4).
Proof.
  intros Ha [x [-> Hx]]%list_elem_of_fmap. unfold agree in Ha. rewrite Forall_forall in Ha.
  by destruct (Ha x Hx).
Qed.

(** Writing the words of a block apart from [F]. *)
Definition clear_of (b : Z) (F : list (Z * Z)) : Prop := Forall (fun y => y.1 + 8 <= b \/ b + 8 <= y.1) F.

Lemma agree_insert w w' F b a v :
  agree w w' F -> clear_of b F -> a = b \/ a = b + 4 -> agree w (<[a := v]> w') F.
Proof.
  unfold agree, clear_of. rewrite !Forall_forall. intros Ha Hc Hab y Hy.
  destruct (Ha y Hy) as [H1 H2]. specialize (Hc y Hy). split; by rewrite lookup_insert_ne by lia.
Qed.

Lemma spans_app F1 F2 : spans (F1 ++ F2) = spans F1 ++ spans F2.
Proof. apply fmap_app. Qed.

(** What separation says of one block and the others. *)
Lemma sep_around g F1 x F2 :
  PmmSpec.sep g (spans (F1 ++ x :: F2)) ->
  0 < x.2 /\ PmmSpec.sep g (spans F1) /\ PmmSpec.sep g (spans F2) /\
  Forall (fun y => 0 < y.2 /\ y.1 + 8 * y.2 + g <= x.1) F1 /\
  Forall (fun y => 0 < y.2 /\ x.1 + 8 * x.2 + g <= y.1) F2 /\
  Forall (fun y => Forall (fun z => y.1 + 8 * y.2 + g <= z.1) F2) F1.
Proof.
  rewrite spans_app, PmmSpec.sep_app. cbn [spans fmap list_fmap PmmSpec.sep].
  intros (H1 & (Hx & Hx2 & H2) & H12). cbn [span fst snd] in *. unfold SLOB_UNIT in *.
  assert (P1 := PmmSpec.sep_pos _ _ H1). assert (P2 := PmmSpec.sep_pos _ _ H2).
  unfold spans in *. rewrite !Forall_fmap in *. rewrite !Forall_forall in *.
  split; [lia|]. split; [done|]. split; [done|]. split_and!; intros y Hy.
  - specialize (H12 y Hy). specialize (P1 y Hy). cbn in *. rewrite Forall_cons in H12. cbn in *. unfold SLOB_UNIT in *. lia.
  - specialize (Hx2 y Hy). specialize (P2 y Hy). cbn in *. unfold SLOB_UNIT in *. lia.
  - specialize (H12 y Hy). cbn in *. rewrite Forall_cons, Forall_fmap, Forall_forall in H12.
    apply Forall_forall. intros z Hz. destruct H12 as [_ H12]. apply H12 in Hz. by cbn in *.
Qed.

Lemma sep_make g F1 x F2 :
  PmmSpec.sep g (spans F1) -> PmmSpec.sep g (spans F2) -> 0 < x.2 ->
  Forall (fun y => y.1 + 8 * y.2 + g <= x.1) F1 ->
  Forall (fun y => x.1 + 8 * x.2 + g <= y.1) F2 ->
  Forall (fun y => Forall (fun z => y.1 + 8 * y.2 + g <= z.1) F2) F1 ->
  PmmSpec.sep g (spans (F1 ++ x :: F2)).
Proof.
  intros H1 H2 Hx HF1 HF2 H12. rewrite spans_app, PmmSpec.sep_app. cbn [spans fmap list_fmap PmmSpec.sep].
  unfold spans in *. rewrite !Forall_fmap. unfold SLOB_UNIT in *. cbn [span fst snd].
  split_and!; [done|unfold SLOB_UNIT; lia|done|done|]. rewrite Forall_forall in *.
  intros y Hy. cbn. rewrite Forall_cons, Forall_fmap. split; [by apply HF1|by apply H12].
Qed.

Lemma sep_drop_block g F1 x y F2 :
  PmmSpec.sep g (spans ((F1 ++ [x]) ++ y :: F2)) -> PmmSpec.sep g (spans (F1 ++ x :: F2)).
Proof.
  rewrite !spans_app. intros H%PmmSpec.sep_drop. by rewrite <- app_assoc in H.
Qed.

Lemma span_bytes_app F1 F2 q : bytes (F1 ++ F2) q <-> bytes F1 q \/ bytes F2 q.
Proof. unfold bytes. by rewrite spans_app, PmmSpec.free_app. Qed.
Lemma bytes_cons x F q : bytes (x :: F) q <-> x.1 <= q < x.1 + 8 * x.2 \/ bytes F q.
Proof. unfold bytes. cbn [spans fmap list_fmap]. rewrite PmmSpec.free_cons. done. Qed.
Lemma bytes_nil q : bytes [] q <-> False.
Proof. apply PmmSpec.free_nil. Qed.

Lemma placed_join w x y :
  placed w x -> placed w y -> 0 <= x.2 -> x.1 + SLOB_UNIT * x.2 = y.1 -> placed w (x.1, x.2 + y.2).
Proof.
  unfold placed, SLOB_UNIT. cbn [fst snd]. intros (Hx & _ & Hxk) (_ & Hy & Hyk) Hp He. split_and!; [done|lia|].
  intros k Hk. destruct (Z.lt_ge_cases k x.2); [apply Hxk; lia|].
  replace (x.1 + 8 * k) with (y.1 + 8 * (k - x.2)) by lia. apply Hyk. lia.
Qed.

Lemma bytes_join x y F q :
  0 < x.2 -> 0 < y.2 -> x.1 + 8 * x.2 = y.1 -> bytes ((x.1, x.2 + y.2) :: F) q <-> bytes (x :: y :: F) q.
Proof.
  intros Hx Hy He. rewrite !bytes_cons. cbn [fst snd].
  assert (x.1 <= q < x.1 + 8 * (x.2 + y.2) <-> x.1 <= q < x.1 + 8 * x.2 \/ y.1 <= q < y.1 + 8 * y.2) by lia. tauto.
Qed.

(** ** Linking a block in *)

(** [b] has its successor, and waits for its predecessor [x]. *)
Record pre (w : gmap Z Z) (L1 : list (Z * Z)) (x b : Z * Z) (L2 : list (Z * Z)) : Prop := {
  pre_chain : chain w b.1 (L2 ++ L1).*1 x.1;
  pre_units : Forall (fun y => w !! y.1 = Some y.2) (b :: L1 ++ x :: L2);
  pre_placed : Forall (placed w) (b :: L1 ++ x :: L2);
  pre_sep : PmmSpec.sep 1 (spans (L1 ++ x :: L2));
  pre_b : 0 < b.2 /\ x.1 + 8 * x.2 <= b.1;
  pre_above : Forall (fun y => b.1 + 8 * b.2 + 1 <= y.1) L2
}.

Section Link.
  Context (s : t) (L1 : list (Z * Z)) (x b : Z * Z) (L2 : list (Z * Z)).
  Context (Hring : ring (W s) (L1 ++ x :: L2)) (Hb : placed (W s) b) (Hbu : W s !! b.1 = Some b.2).
  Context (Hpos : 0 < b.2) (Hlow : x.1 + 8 * x.2 <= b.1) (Hhigh : Forall (fun y => b.1 + 8 * b.2 <= y.1) L2).

Lemma link_chain : chain (W s) x.1 (L2 ++ L1).*1 x.1.
Proof.
  assert (Hc := ring_closed _ _ Hring). rewrite fmap_app in Hc. apply closed_rotate in Hc.
  by rewrite fmap_cons, <- app_comm_cons, <- fmap_app in Hc.
Qed.

Lemma link_clear_b : clear_of b.1 (L1 ++ x :: L2).
Proof.
  destruct (sep_around _ _ _ _ (ring_sep _ _ Hring)) as (Hx & _ & _ & H1 & H2 & _).
  unfold clear_of. rewrite Forall_app, Forall_cons. rewrite !Forall_forall in *. split_and!.
  - intros y Hy. specialize (H1 y Hy). lia.
  - lia.
  - intros y Hy. specialize (Hhigh y Hy). lia.
Qed.

(** [if (b + b->units == cur->next)] and its branches, [n] being [cur->next]. *)
Definition link_up (n : Z) : M t unit :=
  if b.1 + SLOB_UNIT * b.2 =? n then
    nu ← units n;
    set_units b.1 (b.2 + nu);;
    nn ← next n;
    set_next b.1 nn
  else set_next b.1 n.

Definition outside (w w' : gmap Z Z) (l : list Z) : Prop :=
  keeps_dom w w' /\ forall a, Forall (fun c => a <> c /\ a <> c + 4) l -> w' !! a = w !! a.

Lemma link_up_apart n :
  W s !! (x.1 + 4) = Some n -> b.1 + SLOB_UNIT * b.2 <> n -> Forall (fun y => b.1 + 8 * b.2 + 1 <= y.1) L2 ->
  exists w', link_up n s = Ret (tt, with_words w' s) /\ pre w' L1 x b L2 /\ outside (W s) w' [b.1].
Proof using Hring Hb Hbu Hpos Hlow Hhigh.
  intros Hn Hne Habove. destruct (placed_head _ _ Hb Hpos) as [Hb0 Hb4].
  exists (<[b.1 + 4 := n]> (W s)). unfold link_up. apply Z.eqb_neq in Hne. rewrite Hne.
  split; [by apply set_next_eq|].
  assert (Hag : agree (W s) (<[b.1 + 4 := n]> (W s)) (L1 ++ x :: L2)).
  { apply (agree_insert _ _ _ b.1); [apply Forall_forall; done|apply link_clear_b|by right]. }
  assert (Hd : keeps_dom (W s) (<[b.1 + 4 := n]> (W s))) by by apply keeps_dom_insert.
  split; [|split; [done|]; intros a [Ha _]%Forall_cons; by rewrite lookup_insert_ne by lia].
  split; [| | |by apply ring_sep in Hring|done|done].
  - apply (chain_start (W s) _ x.1); [apply link_chain|by rewrite lookup_insert_eq|].
    intros z Hz. apply (agree_next _ _ _ _ Hag). rewrite fmap_app, fmap_cons. rewrite fmap_app in Hz. set_solver.
  - apply Forall_cons. split; [by rewrite lookup_insert_ne by lia|].
    by apply (agree_units _ _ _ Hag), ring_units.
  - apply Forall_cons. split; [by apply (placed_keeps _ _ _ Hd)|].
    by apply (placed_all _ _ _ Hd), ring_placed.
Qed.

Lemma link_up_join n L2' :
  L2 = n :: L2' -> b.1 + SLOB_UNIT * b.2 = n.1 ->
  exists w', link_up n.1 s = Ret (tt, with_words w' s) /\ pre w' L1 x (b.1, b.2 + n.2) L2' /\
    outside (W s) w' [b.1].
Proof using Hring Hb Hbu Hpos Hlow Hhigh.
  intros HL Hjoin. assert (Hcl := link_clear_b). assert (Hch := link_chain).
  assert (Hs := ring_sep _ _ Hring). rewrite HL in Hcl, Hch, Hs.
  assert (Hn2 : Forall (placed (W s)) (L1 ++ x :: n :: L2') /\
                Forall (fun y => W s !! y.1 = Some y.2) (L1 ++ x :: n :: L2')).
  { rewrite <- HL. split; apply Hring. }
  destruct Hn2 as [Hp Hu]. rewrite Forall_app, !Forall_cons in Hp, Hu.
  destruct Hp as (Hp1 & Hpx & Hpn & Hp2), Hu as (Hu1 & Hux & Hun & Hu2).
  destruct (placed_head _ _ Hb Hpos) as [Hb0 Hb4].
  replace (L1 ++ x :: n :: L2') with ((L1 ++ [x]) ++ n :: L2') in Hs by by rewrite <- app_assoc.
  destruct (sep_around _ _ _ _ Hs) as (Hnpos & _ & _ & _ & Hh & _).
  cbn [app fmap list_fmap chain] in Hch. destruct Hch as [_ Hch].
  destruct (chain_next _ _ _ _ n.1 Hch) as (nn & Hnn & _); [set_solver|].
  set (w1 := <[b.1 := b.2 + n.2]> (W s)). set (w2 := <[b.1 + 4 := nn]> w1).
  assert (Hd : keeps_dom (W s) w2) by (by apply keeps_dom_insert; [apply keeps_dom_insert|]).
  assert (Hag : agree (W s) w2 (L1 ++ x :: n :: L2')).
  { apply (agree_insert _ _ _ b.1); [apply (agree_insert _ _ _ b.1)| |]; auto. by apply Forall_forall. }
  assert (Hjp : placed w2 (b.1, b.2 + n.2)).
  { apply (placed_keeps _ _ _ Hd), placed_join; [done..|lia|done]. }
  assert (Hun' : is_units (b.2 + n.2)).
  { apply (placed_units w2 (b.1, b.2 + n.2)); [done|cbn; lia]. }
  exists w2. unfold link_up. rewrite (proj2 (Z.eqb_eq _ _) Hjoin).
  rewrite (bind_Ret _ _ _ _ _ (units_eq _ _ _ Hun ltac:(by apply (placed_units (W s)); [|lia]))).
  rewrite (bind_Ret _ _ _ _ _ (set_units_eq _ _ _ Hb0 Hun')). fold w1.
  assert (Hnn1 : w1 !! (n.1 + 4) = Some nn) by (unfold w1; unfold SLOB_UNIT in *; by rewrite lookup_insert_ne by lia).
  rewrite (bind_Ret _ _ (with_words w1 s) _ _ (next_eq (with_words w1 s) _ _ Hnn1)).
  split; [apply (set_next_eq (with_words w1 s))|].
  { unfold W, with_words, w1. cbn. by rewrite lookup_insert_ne by lia. }
  split; [|split; [done|]; intros a [Ha _]%Forall_cons; unfold w2, w1; by rewrite !lookup_insert_ne by lia].
  split; cbn [fst snd].
  - apply (chain_start (W s) _ n.1); [done|unfold w2; by rewrite lookup_insert_eq|].
    intros z Hz. apply (agree_next _ _ _ _ Hag). rewrite fmap_app, !fmap_cons. rewrite fmap_app in Hz. set_solver.
  - apply Forall_cons. split; [cbn; unfold w2, w1; by rewrite lookup_insert_ne, lookup_insert_eq by lia|].
    assert (H := agree_units _ _ _ Hag). rewrite !Forall_app, !Forall_cons in H. rewrite Forall_app, Forall_cons.
    destruct H as (? & ? & ? & ?); split_and!; done.
  - apply Forall_cons. split; [done|]. apply (placed_all _ _ _ Hd). by rewrite Forall_app, Forall_cons.
  - by apply sep_drop_block in Hs.
  - lia.
  - eapply Forall_impl; [exact Hh|]. cbn. unfold SLOB_UNIT in *. lia.
Qed.

End Link.

(** [if (cur + cur->units == b)] and its branches. *)
Definition link_down (cur b : Z) : M t unit :=
  cu ← units cur;
  if cur + SLOB_UNIT * cu =? b then
    bu ← units b;
    set_units cur (cu + bu);;
    bn ← next b;
    set_next cur bn
  else set_next cur b.

Section Down.
  Context (s : t) (L1 : list (Z * Z)) (x b : Z * Z) (L2 : list (Z * Z)).
  Context (Hpre : pre (W s) L1 x b L2).

Lemma down_facts :
  (placed (W s) b /\ Forall (placed (W s)) (L1 ++ L2) /\ placed (W s) x) /\
  (W s !! b.1 = Some b.2 /\ Forall (fun y => W s !! y.1 = Some y.2) (L1 ++ L2) /\ W s !! x.1 = Some x.2) /\
  (0 < x.2 /\ clear_of x.1 (b :: L2 ++ L1) /\ Forall (fun y => y.1 + 8 * y.2 + 1 <= x.1) L1 /\
   Forall (fun y => 0 < y.2 /\ b.1 + 8 * b.2 + 1 <= y.1) L2).
Proof.
  destruct Hpre as [_ Hu Hp Hs [Hb Hx] Ha]. rewrite Forall_cons, Forall_app, Forall_cons in Hu, Hp.
  destruct (sep_around _ _ _ _ Hs) as (Hxp & _ & _ & H1 & H2 & _).
  split; [rewrite Forall_app; tauto|]. split; [rewrite Forall_app; tauto|]. split; [done|].
  unfold clear_of. rewrite Forall_cons, Forall_app. rewrite !Forall_forall in *.
  split_and!; [lia| | | |]; intros y Hy.
  - specialize (H2 y Hy). lia.
  - specialize (H1 y Hy). lia.
  - specialize (H1 y Hy). lia.
  - split; [|by apply Ha]. by destruct (H2 y Hy).
Qed.

(** The ring is in order once the path from [x] back to [x] is. *)
Lemma down_ring w x' M :
  keeps_dom (W s) w -> agree (W s) w (L1 ++ L2) ->
  Forall (fun y => w !! y.1 = Some y.2 /\ placed w y) (x' :: M) -> chain w x'.1 (M ++ L2 ++ L1).*1 x'.1 ->
  PmmSpec.sep 1 (spans (L1 ++ x' :: M ++ L2)) -> ring w (L1 ++ x' :: M ++ L2).
Proof.
  intros Hd Hag Hnew Hch Hs. destruct down_facts as ((_ & Hp & _) & (_ & Hu & _) & _).
  assert (Hag' := agree_units _ _ _ Hag Hu). assert (Hp' := placed_all _ _ _ Hd Hp).
  assert (Hpart : forall P : Z * Z -> Prop, Forall P (x' :: M) -> Forall P (L1 ++ L2) -> Forall P (L1 ++ x' :: M ++ L2)).
  { intros P. rewrite !Forall_app, !Forall_cons, Forall_app. tauto. }
  split; [|apply Hpart; [|done]|done|apply Hpart; [|done]].
  - rewrite fmap_app. apply closed_rotate. cbn [fmap list_fmap app closed].
    change (chain w x'.1 ((M ++ L2).*1 ++ L1.*1) x'.1). by rewrite <- fmap_app, <- app_assoc.
  - eapply Forall_impl; [exact Hnew|]. by intros y [].
  - eapply Forall_impl; [exact Hnew|]. by intros y [].
Qed.

Lemma link_down_apart :
  x.1 + SLOB_UNIT * x.2 <> b.1 ->
  exists w', link_down x.1 b.1 s = Ret (tt, with_words w' s) /\ ring w' (L1 ++ x :: b :: L2) /\
    outside (W s) w' [x.1].
Proof.
  intros Hne. destruct down_facts as ((Hpb & Hp & Hpx) & (Hub & Hu & Hux) & Hx & Hcl & H1 & H2).
  destruct Hpre as [Hch _ _ Hs [Hb Hxb] Ha]. destruct (placed_head _ _ Hpx Hx) as [Hx0 Hx4].
  set (w' := <[x.1 + 4 := b.1]> (W s)). exists w'. unfold link_down.
  rewrite (bind_Ret _ _ _ _ _ (units_eq _ _ _ Hux ltac:(by apply (placed_units (W s)); [|lia]))).
  rewrite (proj2 (Z.eqb_neq _ _) Hne). split; [by apply set_next_eq|].
  assert (Hd : keeps_dom (W s) w') by by apply keeps_dom_insert.
  assert (Hag : agree (W s) w' (b :: L2 ++ L1)).
  { apply (agree_insert _ _ _ x.1); [by apply Forall_forall|done|by right]. }
  split; [|split; [done|]; intros a [Hna _]%Forall_cons; unfold w'; by rewrite lookup_insert_ne by lia].
  apply (down_ring w' x [b]); [done| | | |].
  - unfold agree in *. rewrite Forall_cons, Forall_app in Hag. rewrite Forall_app. tauto.
  - rewrite !Forall_cons. apply Forall_cons in Hag as [[Hb0 _] _]. rewrite Hb0. unfold w'.
    rewrite lookup_insert_ne by lia. split_and!; try done; by apply (placed_keeps (W s)).
  - split; [unfold w'; by rewrite lookup_insert_eq|]. apply (chain_start (W s) _ b.1); [done| |].
    + by apply Forall_cons in Hag as [[_ ?] _].
    + intros z Hz. apply (agree_next _ _ _ _ Hag). cbn. set_solver.
  - destruct (sep_around _ _ _ _ Hs) as (_ & Hs1 & Hs2 & _ & _ & H12).
    apply sep_make; [done| |done|done| |].
    + apply (sep_make 1 [] b L2); [done|done|done|constructor|by eapply Forall_impl; [exact H2|]; cbn; lia|constructor].
    + cbn [app]. rewrite Forall_cons. unfold SLOB_UNIT in *. split; [lia|].
      eapply Forall_impl; [exact H2|]. cbn. lia.
    + eapply Forall_impl; [apply (List.Forall_and H1 H12)|]. cbn. intros y [Hy1 Hy2]. apply Forall_cons. split; [lia|done].
Qed.

Lemma link_down_join :
  x.1 + SLOB_UNIT * x.2 = b.1 ->
  exists w', link_down x.1 b.1 s = Ret (tt, with_words w' s) /\ ring w' (L1 ++ (x.1, x.2 + b.2) :: L2) /\
    outside (W s) w' [x.1].
Proof.
  intros Heq. destruct down_facts as ((Hpb & Hp & Hpx) & (Hub & Hu & Hux) & Hx & Hcl & H1 & H2).
  destruct Hpre as [Hch _ _ Hs [Hb Hxb] Ha]. destruct (placed_head _ _ Hpx Hx) as [Hx0 Hx4].
  destruct (chain_next _ _ _ _ b.1 Hch) as (bn & Hbn & _); [set_solver|].
  set (w1 := <[x.1 := x.2 + b.2]> (W s)). set (w2 := <[x.1 + 4 := bn]> w1).
  assert (Hd : keeps_dom (W s) w2) by (by apply keeps_dom_insert; [apply keeps_dom_insert|]).
  assert (Hag : agree (W s) w2 (b :: L2 ++ L1)).
  { apply (agree_insert _ _ _ x.1); [apply (agree_insert _ _ _ x.1)| |]; auto. by apply Forall_forall. }
  assert (Hjp : placed w2 (x.1, x.2 + b.2)).
  { apply (placed_keeps _ _ _ Hd), placed_join; [done..|lia|done]. }
  exists w2. unfold link_down.
  rewrite (bind_Ret _ _ _ _ _ (units_eq _ _ _ Hux ltac:(by apply (placed_units (W s)); [|lia]))).
  rewrite (proj2 (Z.eqb_eq _ _) Heq).
  rewrite (bind_Ret _ _ _ _ _ (units_eq _ _ _ Hub ltac:(by apply (placed_units (W s)); [|lia]))).
  rewrite (bind_Ret _ _ _ _ _ (set_units_eq _ _ _ Hx0 ltac:(by apply (placed_units w2 (x.1, x.2 + b.2)); [|cbn; lia]))).
  fold w1. unfold SLOB_UNIT in *.
  assert (Hbn1 : w1 !! (b.1 + 4) = Some bn) by (unfold w1; by rewrite lookup_insert_ne by lia).
  rewrite (bind_Ret _ _ (with_words w1 s) _ _ (next_eq (with_words w1 s) _ _ Hbn1)).
  split; [apply (set_next_eq (with_words w1 s))|].
  { unfold W, with_words, w1. cbn. by rewrite lookup_insert_ne by lia. }
  split; [|split; [done|]; intros a [Hna _]%Forall_cons; unfold w2, w1; by rewrite !lookup_insert_ne by lia].
  apply (down_ring w2 (x.1, x.2 + b.2) []); [done| | | |].
  - unfold agree in *. rewrite Forall_cons, Forall_app in Hag. rewrite Forall_app. tauto.
  - apply Forall_cons. split; [|done]. cbn [fst snd]. unfold w2, w1.
    by rewrite lookup_insert_ne, lookup_insert_eq by lia.
  - apply (chain_start (W s) _ b.1); [done|unfold w2; by rewrite lookup_insert_eq|].
    intros z Hz. apply (agree_next _ _ _ _ Hag). cbn. set_solver.
  - destruct (sep_around _ _ _ _ Hs) as (_ & Hs1 & Hs2 & _ & _ & H12). apply sep_make; cbn [fst snd]; [done|done|lia|done| |done].
    eapply Forall_impl; [exact H2|]. cbn. lia.
Qed.

End Down.

(** Both branches of the first test. *)
Lemma link_up_eq s L1 x b L2 :
  ring (W s) (L1 ++ x :: L2) -> placed (W s) b -> W s !! b.1 = Some b.2 ->
  0 < b.2 -> x.1 + 8 * x.2 <= b.1 -> Forall (fun y => b.1 + 8 * b.2 <= y.1) L2 ->
  exists n w1 b' L2', W s !! (x.1 + 4) = Some n /\ link_up b n s = Ret (tt, with_words w1 s) /\
    pre w1 L1 x b' L2' /\ outside (W s) w1 [b.1] /\ b'.1 = b.1 /\ b.2 <= b'.2 /\
    (forall q, bytes (b' :: L2') q <-> b.1 <= q < b.1 + 8 * b.2 \/ bytes L2 q).
Proof.
  intros Hr Hpb Hub Hb Hlow Hhigh. assert (Hch := link_chain _ _ _ _ Hr).
  destruct (sep_around _ _ _ _ (ring_sep _ _ Hr)) as (Hx & _ & Hs2 & H1 & _ & _).
  assert (Hap : forall n, W s !! (x.1 + 4) = Some n -> b.1 + SLOB_UNIT * b.2 <> n ->
    Forall (fun y => b.1 + 8 * b.2 + 1 <= y.1) L2 -> exists w1, link_up b n s = Ret (tt, with_words w1 s) /\
    pre w1 L1 x b L2 /\ outside (W s) w1 [b.1]).
  { intros n. by apply link_up_apart. }
  destruct L2 as [|n L2].
  - destruct (chain_next _ _ _ _ x.1 Hch) as (n & Hn & Hin); [set_solver|].
    assert (n <= x.1).
    { cbn [app] in Hin. apply elem_of_app in Hin as [[y [-> Hy]]%list_elem_of_fmap| ->%list_elem_of_singleton]; [|lia].
      rewrite Forall_forall in H1. specialize (H1 y Hy). lia. }
    destruct (Hap n) as (w1 & ? & ? & ?); [done|unfold SLOB_UNIT; lia|constructor|].
    exists n, w1, b, []. split_and!; try done. intros q. by rewrite bytes_cons.
  - cbn [app fmap list_fmap chain] in Hch. destruct Hch as [Hn _]. exists n.1.
    apply Forall_cons in Hhigh as [Hbn Hhigh].
    destruct (sep_around 1 [] n L2 Hs2) as (_ & _ & _ & _ & Hn2 & _).
    destruct (decide (b.1 + SLOB_UNIT * b.2 = n.1)) as [Hj|Hj]; unfold SLOB_UNIT in Hj.
    + destruct (link_up_join s L1 x b (n :: L2)) with (n := n) (L2' := L2) as (w1 & ? & ? & ?); try done.
      { by apply Forall_cons. }
      exists w1, (b.1, b.2 + n.2), L2. destruct (sep_around 1 [] n L2 Hs2) as (? & _). split_and!; try done; [cbn; lia|].
      intros q. by rewrite bytes_join, !bytes_cons by (done || lia).
    + destruct (Hap n.1) as (w1 & ? & ? & ?); [done|done| |].
      { apply Forall_cons. split; [unfold SLOB_UNIT in *; lia|]. eapply Forall_impl; [exact Hn2|].
        destruct (sep_around 1 [] n L2 Hs2) as (? & _). cbn. lia. }
      exists w1, b, (n :: L2). split_and!; try done. intros q. by rewrite bytes_cons.
Qed.

(** Linking [b] in after [x] gives a ring of the old bytes and those of [b], in
    which one block holds all of [b]. *)
Lemma slob_link_eq s L1 x b L2 :
  ring (W s) (L1 ++ x :: L2) -> placed (W s) b -> W s !! b.1 = Some b.2 ->
  0 < b.2 -> x.1 + 8 * x.2 <= b.1 -> Forall (fun y => b.1 + 8 * b.2 <= y.1) L2 ->
  exists w' x' M, slob_link x.1 b.1 s = Ret (tt, with_words w' s) /\ ring w' (L1 ++ x' :: M) /\
    outside (W s) w' [x.1; b.1] /\ x'.1 = x.1 /\ (x.1 + 8 * x.2 < b.1 -> x' = x) /\
    (forall q, bytes (x' :: M) q <-> b.1 <= q < b.1 + 8 * b.2 \/ bytes (x :: L2) q) /\
    (exists y, y ∈ x' :: M /\ b.2 <= y.2).
Proof.
  intros Hr Hpb Hub Hb Hlow Hhigh.
  destruct (link_up_eq s L1 x b L2) as (n & w1 & b' & L2' & Hn & Hup & Hpre & [Hd1 Ho1] & Hb1 & Hb2 & Hq); [done..|].
  assert (Hdown : exists w' x' M, link_down x.1 b'.1 (with_words w1 s) = Ret (tt, with_words w' s) /\
    ring w' (L1 ++ x' :: M) /\ outside w1 w' [x.1] /\ x'.1 = x.1 /\ (x.1 + 8 * x.2 < b'.1 -> x' = x) /\
    (forall q, bytes (x' :: M) q <-> bytes (x :: b' :: L2') q) /\ exists y, y ∈ x' :: M /\ b'.2 <= y.2).
  { destruct (pre_b _ _ _ _ _ Hpre) as [Hpos _].
    destruct (sep_around _ _ _ _ (pre_sep _ _ _ _ _ Hpre)) as (Hx & _).
    destruct (decide (x.1 + SLOB_UNIT * x.2 = b'.1)) as [Hj|Hj].
    - destruct (link_down_join (with_words w1 s) L1 x b' L2' Hpre Hj) as (w' & ? & ? & ?).
      exists w', (x.1, x.2 + b'.2), L2'. unfold SLOB_UNIT in Hj. split_and!; try done; [lia| |].
      + intros q. by apply bytes_join; lia.
      + exists (x.1, x.2 + b'.2). split; [left|cbn; lia].
    - destruct (link_down_apart (with_words w1 s) L1 x b' L2' Hpre Hj) as (w' & ? & ? & ?).
      exists w', x, (b' :: L2'). split_and!; try done. exists b'. split; [set_solver|lia]. }
  destruct Hdown as (w' & x' & M & Hdown & Hr' & [Hd2 Ho2] & Hx1 & Hxe & Hq' & y & Hy & Hyb).
  exists w', x', M. split.
  { unfold slob_link. rewrite (bind_Ret _ _ _ _ _ (units_eq _ _ _ Hub ltac:(by apply (placed_units (W s)); [|lia]))).
    rewrite (bind_Ret _ _ _ _ _ (next_eq _ _ _ Hn)). etransitivity; [exact (bind_Ret _ _ _ _ _ Hup)|].
    rewrite <- Hb1. exact Hdown. }
  split; [done|]. split; [split|].
  - intros a. by rewrite (Hd1 a).
  - intros a [Ha1 [Ha2 _]%Forall_cons]%Forall_cons. rewrite Ho2, Ho1; [done|by constructor..].
  - split; [done|]. split; [intros ?; apply Hxe; lia|]. split.
    + intros q. rewrite Hq', bytes_cons, Hq, bytes_cons. tauto.
    + exists y. split; [done|lia].
Qed.

(** ** Finding the place *)

Lemma sep_ascending F : PmmSpec.sep 1 (spans F) -> StronglySorted Z.lt F.*1.
Proof.
  induction F as [|x F IH]; intros Hs; [constructor|]. cbn [spans fmap list_fmap PmmSpec.sep] in Hs.
  destruct Hs as (Hx & Hall & Hs). cbn [fmap list_fmap]. constructor; [by apply IH|].
  rewrite Forall_forall in Hall. apply Forall_forall. intros z [y [-> Hy]]%list_elem_of_fmap.
  specialize (Hall (span y) (list_elem_of_fmap_2 span _ _ Hy)). cbn in *. unfold SLOB_UNIT in *. lia.
Qed.

Lemma find_step s fuel cur n b :
  W s !! (cur + 4) = Some n -> ~ (cur < b < n) -> ~ (n <= cur /\ (cur < b \/ b < n)) ->
  slob_find (S fuel) cur b s = slob_find fuel n b s.
Proof.
  intros Hn H1 H2. cbn [slob_find]. rewrite (bind_Ret _ _ _ _ _ (next_eq _ _ _ Hn)).
  replace ((cur <? b) && (b <? n)) with false by lia. by replace ((n <=? cur) && _) with false by lia.
Qed.

Lemma find_stop s fuel cur n b :
  W s !! (cur + 4) = Some n -> cur < b -> b < n \/ n <= cur -> slob_find (S fuel) cur b s = Ret (cur, s).
Proof.
  intros Hn H1 H2. cbn [slob_find]. rewrite (bind_Ret _ _ _ _ _ (next_eq _ _ _ Hn)).
  destruct ((cur <? b) && (b <? n)) eqn:?; [done|]. by replace ((n <=? cur) && _) with true by lia.
Qed.

(** Below the place the walk goes up to it; above, it goes round to the start. *)
Lemma find_low s b k z C : forall a, chain (W s) a C z -> StronglySorted Z.lt (a :: C ++ [z]) -> z < b ->
  slob_find (S (length C) + k) a b s = slob_find k z b s.
Proof.
  induction C as [|c C IH]; intros a Hc Hs Hz; apply StronglySorted_inv in Hs as [Hs Ha].
  - apply Forall_cons in Ha as [Ha _]. apply find_step; [done|lia..].
  - destruct Hc as [Hn Hc]. cbn [app] in *. assert (c < b).
    { apply StronglySorted_inv in Hs as [_ Hs]. apply Forall_app in Hs as [_ [Hs _]%Forall_cons]. lia. }
    apply Forall_cons in Ha as [Ha _]. cbn [length Nat.add]. rewrite (find_step _ _ _ c) by (done || lia). by apply IH.
Qed.

Lemma find_high s b k z C : forall a, chain (W s) a C z -> StronglySorted Z.lt (a :: C) -> b < a -> z < b ->
  slob_find (S (length C) + k) a b s = slob_find k z b s.
Proof.
  induction C as [|c C IH]; intros a Hc Hs Hab Hz; apply StronglySorted_inv in Hs as [Hs Ha].
  - apply find_step; [done|lia..].
  - destruct Hc as [Hn Hc]. apply Forall_cons in Ha as [Ha _]. cbn [length Nat.add].
    rewrite (find_step _ _ _ c) by (done || lia). apply IH; [done..|lia|done].
Qed.

Lemma sorted_app (l1 l2 : list Z) :
  StronglySorted Z.lt (l1 ++ l2) ->
  StronglySorted Z.lt l1 /\ StronglySorted Z.lt l2 /\ forall x y, x ∈ l1 -> y ∈ l2 -> x < y.
Proof.
  intros Hs. split; [by eapply StronglySorted_app_1_l|]. split; [by eapply StronglySorted_app_1_r|].
  intros x y Hx Hy. by eapply StronglySorted_app_1_elem_of.
Qed.

Section Find.
  Context (s : t) (P : list Z) (x : Z) (Q : list Z) (b : Z).
  Context (Hc : closed (W s) (P ++ x :: Q)) (Hs : StronglySorted Z.lt (P ++ x :: Q)).
  Context (Hx : x < b) (HQ : Forall (fun y => b < y) Q).

Lemma find_at k : slob_find (S k) x b s = Ret (x, s).
Proof using Hc Hs Hx HQ.
  assert (Hr := closed_rotate _ _ _ Hc). cbn [app closed] in Hr.
  destruct (sorted_app _ _ Hs) as (_ & _ & Hlt). clear Hc Hs. destruct Q as [|z Q'].
  - destruct (chain_next _ _ _ _ x Hr) as (n & Hn & Hin); [left|]. apply (find_stop _ _ _ n); [done..|right].
    cbn [app] in Hin. apply elem_of_app in Hin as [Hin| ->%list_elem_of_singleton]; [|lia].
    specialize (Hlt n x Hin ltac:(left)). lia.
  - destruct Hr as [Hn _]. apply Forall_cons in HQ as [? _]. apply (find_stop _ _ _ z); auto.
Qed.

Lemma find_below A y C k : P = A ++ y :: C -> (length P <= k)%nat -> slob_find (S k) y b s = Ret (x, s).
Proof using Hc Hs Hx HQ.
  intros HP Hk. assert (Hc' := Hc). assert (Hs' := Hs). rewrite HP, length_app in Hk. cbn [length] in Hk.
  replace (S k) with (S (length C) + S (k - S (length C)))%nat by lia.
  rewrite HP, <- app_assoc in Hc', Hs'. cbn [app] in Hc', Hs'.
  rewrite (find_low s b _ x C); [apply find_at| | |done].
  - apply closed_rotate in Hc'. cbn [app closed] in Hc'. rewrite <- app_assoc in Hc'.
    by apply chain_app in Hc' as [Hr _].
  - apply sorted_app in Hs' as (_ & Hs' & _).
    replace (y :: C ++ x :: Q) with ((y :: C ++ [x]) ++ Q) in Hs' by (cbn [app]; by rewrite <- app_assoc).
    by destruct (sorted_app _ _ Hs') as (? & _).
Qed.

Lemma find_above A y C k :
  Q = A ++ y :: C -> (length P + length Q <= k)%nat -> slob_find (S k) y b s = Ret (x, s).
Proof using Hc Hs Hx HQ.
  intros HQe Hk. assert (Hlq : length Q = (length A + S (length C))%nat) by (rewrite HQe; apply length_app).
  assert (Hhead : exists h T, P ++ x :: A = h :: T /\ h < b /\
    forall k, (length P <= k)%nat -> slob_find (S k) h b s = Ret (x, s)).
  { assert (HP : P = [] \/ exists h T, P = h :: T) by (destruct P; eauto). destruct HP as [HP|(h & T & HP)].
    - exists x, A. rewrite HP. split_and!; [done..|]. intros. apply find_at.
    - exists h, (T ++ x :: A). split; [by rewrite HP|]. split.
      + destruct (sorted_app _ _ Hs) as (_ & _ & Hlt). specialize (Hlt h x). rewrite HP in Hlt.
        specialize (Hlt ltac:(left) ltac:(left)). lia.
      + intros k' Hk'. by apply (find_below [] h T). }
  destruct Hhead as (h & T & HhT & Hh & Hrun).
  assert (Hsplit : P ++ x :: Q = (h :: T) ++ y :: C) by (rewrite HQe, <- HhT, <- app_assoc; done).
  replace (S k) with (S (length C) + (k - length C))%nat by lia.
  rewrite (find_high s b _ h C).
  - replace (k - length C)%nat with (S (k - S (length C))) by lia. apply Hrun. lia.
  - assert (Hc' := Hc). rewrite Hsplit in Hc'. apply closed_rotate in Hc'. cbn [app closed] in Hc'.
    by apply chain_app in Hc' as [? _].
  - assert (Hs' := Hs). rewrite Hsplit in Hs'. by destruct (sorted_app _ _ Hs') as (_ & ? & _).
  - assert (HQ' := HQ). rewrite HQe, Forall_app, Forall_cons in HQ'. tauto.
  - done.
Qed.

Lemma find_eq y k : y ∈ P ++ x :: Q -> (length (P ++ x :: Q) <= S k)%nat -> slob_find (S k) y b s = Ret (x, s).
Proof using Hc Hs Hx HQ.
  rewrite length_app. cbn [length]. intros [Hy|[->|Hy]%elem_of_cons]%elem_of_app Hk.
  - apply list_elem_of_split in Hy as (A & C & HP). apply (find_below A _ C); [done|lia].
  - apply find_at.
  - apply list_elem_of_split in Hy as (A & C & HQe). apply (find_above A _ C); [done|lia].
Qed.

End Find.

(** ** Releasing a block *)

Lemma ascending_nodup (l : list Z) : StronglySorted Z.lt l -> NoDup l.
Proof.
  induction 1 as [|x l _ IH Hx]; constructor; [|done]. intros Hin. rewrite Forall_forall in Hx.
  specialize (Hx x Hin). lia.
Qed.

Lemma ring_pos w F z : ring w F -> z ∈ F -> 0 < z.2.
Proof.
  intros Hr Hz. apply list_elem_of_split in Hz as (F1 & F2 & ->).
  by destruct (sep_around _ _ _ _ (ring_sep _ _ Hr)) as (? & _).
Qed.

Lemma ring_nodup w F : ring w F -> NoDup F.*1.
Proof. intros Hr. by apply ascending_nodup, sep_ascending, ring_sep with w. Qed.

Lemma ring_length w F : ring w F -> (length F <= size w)%nat.
Proof.
  intros Hr. assert (Hn := ring_nodup _ _ Hr). rewrite <- (length_fmap (@fst Z Z) F), <- size_dom.
  rewrite <- (size_list_to_set (C := gset Z) _ Hn). apply subseteq_size.
  intros a [x [-> Hx]]%elem_of_list_to_set%list_elem_of_fmap. apply elem_of_dom.
  assert (Hu := ring_units _ _ Hr). rewrite Forall_forall in Hu. rewrite (Hu x Hx). by eexists.
Qed.

Lemma ring_agree w w' F : keeps_dom w w' -> agree w w' F -> ring w F -> ring w' F.
Proof.
  intros Hd Ha [Hc Hu Hs Hp]. split; [|by apply (agree_units w)|done|by apply (placed_all w)].
  destruct F as [|x F]; [done|]. cbn [fmap list_fmap closed] in *.
  apply (chain_start w _ x.1); [done|by apply Forall_cons in Ha as [[_ ?] _]|].
  intros z Hz. apply (agree_next _ _ _ _ Ha). cbn. set_solver.
Qed.

(** The last block below [b]. *)
Lemma split_below (F : list (Z * Z)) b :
  StronglySorted Z.lt F.*1 -> Exists (fun y => y.1 < b) F -> b ∉ F.*1 ->
  exists L1 x L2, F = L1 ++ x :: L2 /\ x.1 < b /\ Forall (fun y => b < y.1) L2.
Proof.
  induction F as [|y F IH]; intros Hs He Hb; [by apply Exists_nil in He|].
  destruct (decide (Exists (fun z => z.1 < b) F)) as [HF|HF].
  - cbn in Hs. apply StronglySorted_inv in Hs as [Hs _]. destruct IH as (L1 & x & L2 & -> & ? & ?); [done..|set_solver|].
    by exists (y :: L1), x, L2.
  - exists [], y, F. apply Exists_cons in He as [He|]; [|done]. split_and!; [done..|].
    apply Forall_forall. intros z Hz. assert (b <> z.1).
    { intros ->. apply Hb. cbn. right. by apply list_elem_of_fmap_2. }
    assert (~ z.1 < b); [|lia]. intros Hlt. apply HF, Exists_exists. by exists z.
Qed.

(** Bytes of [b] that are not free. *)
Definition apart_from (b : Z * Z) (F : list (Z * Z)) : Prop :=
  Forall (fun y => y.1 + 8 * y.2 <= b.1 \/ b.1 + 8 * b.2 <= y.1) F.

Lemma apart_clear w b F : ring w F -> apart_from b F -> 0 < b.2 -> clear_of b.1 F.
Proof.
  intros Hr Ha Hb. unfold apart_from, clear_of in *. rewrite Forall_forall in *. intros y Hy. specialize (Ha y Hy).
  apply list_elem_of_split in Hy as (F1 & F2 & ->).
  destruct (sep_around _ _ _ _ (ring_sep _ _ Hr)) as (? & _). lia.
Qed.

(** A write to the header of a block apart from the ring. *)
Lemma ring_insert w b F a v :
  ring w F -> clear_of b F -> a = b \/ a = b + 4 -> is_Some (w !! a) -> ring (<[a := v]> w) F.
Proof.
  intros Hr Hc Ha Hs. apply (ring_agree w); [by apply keeps_dom_insert| |done].
  apply (agree_insert _ _ _ b); [by apply Forall_forall|done..].
Qed.

(** The bytes that are not free keep their contents. *)
Definition frame (w w' : gmap Z Z) (F : list (Z * Z)) : Prop :=
  keeps_dom w w' /\ forall a, ~ bytes F a -> w' !! a = w !! a.

(** What releasing a block [b] makes of a ring that starts at [x0]. *)
Definition released (s s' : t) (x0 : Z * Z) (F : list (Z * Z)) (b : Z * Z) : Prop :=
  exists w' p F', s' = set_slobfree p (with_words w' s) /\ ring w' (x0 :: F') /\ p ∈ (x0 :: F').*1 /\
    (forall q, bytes (x0 :: F') q <-> b.1 <= q < b.1 + 8 * b.2 \/ bytes (x0 :: F) q) /\
    frame (W s) w' (x0 :: F') /\ exists y, y ∈ x0 :: F' /\ b.2 <= y.2.

Section Free.
  Context (s : t) (x0 : Z * Z) (F : list (Z * Z)) (b : Z * Z).
  Context (Hring : ring (W s) (x0 :: F)) (Hcur : slobfree s ∈ (x0 :: F).*1).
  Context (Hb : placed (W s) b) (Hpos : 0 < b.2) (Hap : apart_from b (x0 :: F)) (Hlow : x0.1 + 8 * x0.2 < b.1).

Lemma insert_place : exists L1 x L2,
  x0 :: F = L1 ++ x :: L2 /\ x.1 + 8 * x.2 <= b.1 /\ Forall (fun y => b.1 + 8 * b.2 <= y.1) L2 /\
  forall k, (length (x0 :: F) <= S k)%nat -> slob_find (S k) (slobfree s) b.1 s = Ret (x.1, s).
Proof using Hring Hcur Hpos Hap Hlow.
  assert (Hs := sep_ascending _ (ring_sep _ _ Hring)). assert (Hcl := apart_clear _ _ _ Hring Hap Hpos).
  destruct (sep_around _ [] x0 F (ring_sep _ _ Hring)) as (Hx0 & _).
  destruct (split_below (x0 :: F) b.1) as (L1 & x & L2 & HF & Hx & HL2); [done|left; lia| |].
  { intros [y [Heq Hy]]%list_elem_of_fmap. unfold clear_of in Hcl. rewrite Forall_forall in Hcl. specialize (Hcl y Hy). lia. }
  exists L1, x, L2. split; [done|]. assert (Hap' := Hap). unfold apart_from in Hap'. rewrite HF, Forall_app, Forall_cons in Hap'.
  destruct Hap' as (_ & Hapx & Hap2).
  split; [lia|]. split.
  { rewrite Forall_forall in *. intros y Hy. specialize (Hap2 y Hy). specialize (HL2 y Hy).
    assert (Hsep := ring_sep _ _ Hring). rewrite HF in Hsep. destruct (sep_around _ _ _ _ Hsep) as (_ & _ & _ & _ & H2 & _).
    rewrite Forall_forall in H2. specialize (H2 y Hy). lia. }
  intros k Hk. assert (Hc := ring_closed _ _ Hring). assert (Hcur' := Hcur).
  rewrite HF, fmap_app, fmap_cons in Hs, Hc, Hcur'. apply (find_eq s L1.*1 x.1 L2.*1); try done.
  - rewrite Forall_fmap. exact HL2.
  - rewrite HF in Hk. rewrite length_app in *. cbn [length] in *. by rewrite !length_fmap.
Qed.

Lemma slob_insert_eq :
  W s !! b.1 = Some b.2 ->
  exists s', (s1 ← get; cur ← slob_find (ring_fuel s1) (slobfree s1) b.1; slob_link cur b.1;;
              modify (set_slobfree cur)) s = Ret (tt, s') /\ released s s' x0 F b.
Proof using Hring Hcur Hb Hpos Hap Hlow.
  intros Hu. destruct insert_place as (L1 & x & L2 & HF & Hx & HL2 & Hfind).
  assert (Hr := Hring). rewrite HF in Hr.
  destruct (slob_link_eq s L1 x b L2) as (w' & x' & N & Hlink & Hr' & [Hd Ho] & Hx' & Hxe & Hq & y & Hy & Hyb); [done..|].
  exists (set_slobfree x.1 (with_words w' s)). split.
  { rewrite (bind_Ret _ _ s s s) by done. unfold ring_fuel. fold (W s).
    rewrite (bind_Ret _ _ _ _ _ (Hfind _ ltac:(by apply le_S, ring_length))).
    by rewrite (bind_Ret _ _ _ _ _ Hlink). }
  assert (Hhd : exists F', x0 :: F' = L1 ++ x' :: N).
  { destruct L1 as [|z L1]; injection HF as -> ->; [|by eexists]. rewrite Hxe by lia. by eexists. }
  destruct Hhd as [F' HF']. exists w', x.1, F'. rewrite HF'. split; [done|]. split; [done|].
  assert (Hbytes : forall q, bytes (L1 ++ x' :: N) q <-> b.1 <= q < b.1 + 8 * b.2 \/ bytes (x0 :: F) q).
  { intros q. rewrite HF, !span_bytes_app, Hq. tauto. }
  split; [rewrite fmap_app, fmap_cons, Hx'; set_solver|]. split; [done|]. split.
  - split; [done|]. intros a Ha. rewrite Hbytes in Ha.
    destruct (sep_around _ _ _ _ (ring_sep _ _ Hr)) as (Hxp & _).
    apply Ho. rewrite HF, span_bytes_app, bytes_cons in Ha. rewrite !Forall_cons. split_and!; try done; lia.
  - exists y. split; [set_solver|done].
Qed.

End Free.

Lemma slob_free_eq s x0 F b size :
  ring (W s) (x0 :: F) -> slobfree s ∈ (x0 :: F).*1 -> placed (W s) b -> 0 < b.2 ->
  apart_from b (x0 :: F) -> x0.1 + 8 * x0.2 < b.1 ->
  (if decide (size = 0) then W s !! b.1 = Some b.2 else SLOB_UNITS size = b.2) ->
  exists s', slob_free b.1 size s = Ret (tt, s') /\ released s s' x0 F b.
Proof.
  intros Hr Hcur Hb Hpos Hap Hlow Hu. destruct (placed_head _ _ Hb Hpos) as [Hb0 _].
  unfold slob_free. replace (b.1 =? 0) with false by (destruct Hb as [? _]; lia).
  destruct (decide (size = 0)) as [->|Hs].
  { rewrite (bind_Ret _ _ s tt s) by done. by apply slob_insert_eq. }
  rewrite Hu. replace (size =? 0) with false by lia. cbn [negb when].
  rewrite (bind_Ret _ _ _ _ _ (set_units_eq s b.1 b.2 Hb0 ltac:(by apply (placed_units (W s)); [|lia]))).
  set (s1 := with_words (<[b.1 := b.2]> (W s)) s).
  assert (Hd : keeps_dom (W s) (W s1)) by by apply keeps_dom_insert.
  destruct (slob_insert_eq s1 x0 F b) as (s' & Hrun & w' & p & F' & Hs' & H1 & H2 & H3 & [Hd' Hf] & H4); try done.
  - by apply (ring_insert _ b.1); [|apply (apart_clear (W s))|left|].
  - by apply (placed_keeps (W s)).
  - apply lookup_insert_eq.
  - exists s'. split; [done|]. exists w', p, F'. split_and!; try done. split; [intros a; by rewrite (Hd a)|].
    intros a Ha. rewrite Hf by done. apply lookup_insert_ne. intros <-. apply Ha, H3. lia.
Qed.

(** ** Taking a block *)

Definition rest (y : Z * Z) (n : Z) : list (Z * Z) :=
  if y.2 =? n then [] else [(y.1 + 8 * n, y.2 - n)].

Section Take.
  Context (s : t) (F1 : list (Z * Z)) (y : Z * Z) (F2 : list (Z * Z)) (p n : Z).
  Context (Hring : ring (W s) (F1 ++ y :: F2)) (Hp : p ∈ (F1 ++ F2).*1) (Hpn : W s !! (p + 4) = Some y.1).
  Context (Hn : 0 < n <= y.2).

(** The path from [y] through the others to [p]. *)
Lemma take_path : exists A, (F2 ++ F1).*1 = A ++ [p] /\ chain (W s) y.1 A p /\ p ∉ A /\ y.1 ∉ A.
Proof using Hring Hp Hpn Hn.
  assert (Hnd := ring_nodup _ _ Hring). assert (Hc := ring_closed _ _ Hring).
  rewrite fmap_app in Hc, Hnd. apply closed_rotate in Hc. rewrite fmap_cons in Hc, Hnd. cbn [app closed] in Hc.
  rewrite <- fmap_app in Hc. apply NoDup_app in Hnd as (Hn1 & Hn12 & [Hy Hn2]%NoDup_cons).
  assert (Hyl : y.1 ∉ (F2 ++ F1).*1) by (rewrite fmap_app; set_solver).
  destruct (chain_last _ _ _ _ p Hc) as [A HA]; [done| |done|].
  { right. rewrite fmap_app in *. set_solver. }
  destruct A as [|z A].
  - injection HA as Hyp _. rewrite fmap_app in *. set_solver.
  - injection HA as <- HA. exists A. split; [done|]. rewrite HA in Hc. apply chain_app in Hc as [Hc _]. split; [done|].
    assert (Hnd : NoDup ((F2 ++ F1).*1)) by (rewrite fmap_app; apply NoDup_app; set_solver).
    rewrite HA in Hnd, Hyl. apply NoDup_app in Hnd as (_ & Hnd & _). set_solver.
Qed.

Lemma take_clear : clear_of y.1 (F1 ++ F2) /\ Forall (fun z => 0 < z.2 /\ (z.1 + 8 * z.2 + 1 <= y.1 \/ y.1 + 8 * y.2 + 1 <= z.1)) (F1 ++ F2).
Proof using Hring Hn.
  destruct (sep_around _ _ _ _ (ring_sep _ _ Hring)) as (_ & _ & _ & H1 & H2 & _).
  assert (H : Forall (fun z => 0 < z.2 /\ (z.1 + 8 * z.2 + 1 <= y.1 \/ y.1 + 8 * y.2 + 1 <= z.1)) (F1 ++ F2)).
  { apply Forall_app. split; (eapply Forall_impl; [eassumption|]); cbn; lia. }
  split; [|done]. unfold clear_of. eapply Forall_impl; [exact H|]. cbn. lia.
Qed.

Lemma take_heads z : z ∈ F1 ++ F2 -> z.1 <> p + 4.
Proof using Hring Hp Hpn Hn.
  intros Hz. apply list_elem_of_fmap in Hp as [x [-> Hx]].
  assert (Hs := PmmSpec.sep_drop 1 (spans F1) (span y) (spans F2)).
  rewrite <- !spans_app in Hs. specialize (Hs ltac:(pose proof (ring_sep _ _ Hring) as H; by rewrite spans_app in H)).
  apply list_elem_of_split in Hx as (G1 & G2 & HG). rewrite HG in Hz, Hs.
  destruct (sep_around _ _ _ _ Hs) as (? & _ & _ & H1 & H2 & _). rewrite Forall_forall in H1, H2.
  apply elem_of_app in Hz as [Hz|[->|Hz]%elem_of_cons]; [specialize (H1 z Hz)|..|specialize (H2 z Hz)]; lia.
Qed.

(** The words of [y] and the link of [p] may change; the rest of the ring is then
    a ring of [M] in place of [y]. *)
Lemma take_ring w' N A :
  keeps_dom (W s) w' -> (F2 ++ F1).*1 = A ++ [p] ->
  (forall a, a <> p + 4 -> ~ (y.1 <= a < y.1 + 8 * y.2) -> w' !! a = W s !! a) ->
  closed w' (N.*1 ++ A ++ [p]) -> Forall (fun z => w' !! z.1 = Some z.2 /\ placed w' z) N ->
  PmmSpec.sep 1 (spans (F1 ++ N ++ F2)) -> ring w' (F1 ++ N ++ F2).
Proof using Hring Hp Hpn Hn.
  intros Hd HA Hf Hc HN Hs. destruct take_clear as [_ Hcl].
  assert (Hpart : forall P : Z * Z -> Prop, Forall P N -> Forall P (F1 ++ F2) -> Forall P (F1 ++ N ++ F2)).
  { intros P. rewrite !Forall_app. tauto. }
  assert (Hold : forall P : Z * Z -> Prop, Forall P (F1 ++ y :: F2) -> Forall P (F1 ++ F2)).
  { intros P. rewrite !Forall_app, Forall_cons. tauto. }
  split; [|apply Hpart|done|apply Hpart].
  - rewrite !fmap_app. rewrite <- HA, fmap_app, app_assoc in Hc. by apply closed_rotate.
  - eapply Forall_impl; [exact HN|]. by intros z [].
  - assert (Hu := Hold _ (ring_units _ _ Hring)). rewrite Forall_forall in *. intros z Hz.
    rewrite Hf; [by apply Hu|by apply take_heads|]. specialize (Hcl z Hz). lia.
  - eapply Forall_impl; [exact HN|]. by intros z [].
  - apply (placed_all _ _ _ Hd), Hold, Hring.
Qed.

(** The link of [p] is not a word of [y]. *)
Lemma take_p_apart : p + 4 < y.1 \/ y.1 + 8 * y.2 <= p.
Proof using Hring Hp Hpn Hn.
  destruct take_clear as [_ Hcl]. apply list_elem_of_fmap in Hp as [z [-> Hz]].
  rewrite Forall_forall in Hcl. specialize (Hcl z Hz). lia.
Qed.

Lemma take_y : W s !! y.1 = Some y.2 /\ placed (W s) y.
Proof using Hring Hn.
  destruct Hring as [_ Hu _ Hpl]. rewrite Forall_app, Forall_cons in Hu, Hpl. tauto.
Qed.

Lemma slob_take_exact :
  y.2 = n -> exists w', slob_take p y.1 n s = Ret (y.1, set_slobfree p (with_words w' s)) /\
    ring w' (F1 ++ F2) /\ keeps_dom (W s) w' /\ w' !! y.1 = Some n /\
    forall a, a <> p + 4 -> ~ (y.1 <= a < y.1 + 8 * y.2) -> w' !! a = W s !! a.
Proof using Hring Hp Hpn Hn.
  intros He. destruct take_path as (A & HA & Hch & HpA & _).
  destruct take_y as [Hyu Hyp]. assert (Hpy := take_p_apart). destruct (chain_next _ _ _ _ y.1 Hch) as (nx & Hnx & _); [left|].
  assert (Hd : keeps_dom (W s) (<[p + 4 := nx]> (W s))) by (apply keeps_dom_insert; [done|by eexists]).
  exists (<[p + 4 := nx]> (W s)). split_and!; [| |done|by rewrite lookup_insert_ne, <- He by lia|].
  - unfold slob_take. rewrite (bind_Ret _ _ _ _ _ (units_eq _ _ _ Hyu ltac:(by apply (placed_units (W s)); [|lia]))).
    rewrite (proj2 (Z.eqb_eq _ _) He). unfold mbind at 1, M_bind at 1. rewrite (bind_Ret _ _ _ _ _ (next_eq _ _ _ Hnx)).
    rewrite set_next_eq by by eexists. done.
  - apply (take_ring _ [] A); try done.
    + intros a Ha _. by apply lookup_insert_ne.
    + cbn [fmap list_fmap app]. apply (closed_rotate _ [p]). cbn [app closed].
      apply (chain_start (W s) _ y.1); [done|by rewrite lookup_insert_eq|].
      intros z Hz. apply lookup_insert_ne. intros ?. apply HpA. by replace p with z by lia.
    + cbn [app]. rewrite spans_app. apply (PmmSpec.sep_drop _ _ (span y)).
      assert (Hs := ring_sep _ _ Hring). by rewrite spans_app in Hs.
  - intros a Ha _. by apply lookup_insert_ne.
Qed.

Lemma split_run nx :
  n < y.2 -> W s !! (y.1 + 4) = Some nx ->
  let r := y.1 + 8 * n in
  slob_take p y.1 n s = Ret (y.1, set_slobfree p (with_words
    (<[y.1 := n]> (<[r + 4 := nx]> (<[r := y.2 - n]> (<[p + 4 := r]> (W s))))) s)).
Proof using Hring Hp Hpn Hn.
  intros Hlt Hnx r. destruct take_y as [Hyu Hyp]. assert (Hpy := take_p_apart).
  destruct Hyp as (? & ? & Hmap). unfold SLOB_UNIT in *. destruct (Hmap n ltac:(lia)) as [Hr0 Hr4]. fold r in Hr0, Hr4. assert (Hr : r = y.1 + 8 * n) by done.
  assert (Hun : forall k, 0 <= k <= y.2 -> is_units k) by (intros; unfold is_units; lia).
  unfold slob_take. rewrite (bind_Ret _ _ _ _ _ (units_eq _ _ _ Hyu ltac:(apply Hun; lia))).
  replace (y.2 =? n) with false by lia. unfold mbind at 1, M_bind at 1.
  rewrite (bind_Ret _ _ _ _ _ (set_next_eq s p _ ltac:(by eexists))).
  unfold SLOB_UNIT. fold r. set (w1 := <[p + 4 := r]> (W s)).
  rewrite (bind_Ret _ _ (with_words w1 s) r _ (next_eq (with_words w1 s) _ _ ltac:(apply lookup_insert_eq))).
  assert (H1 : is_Some (w1 !! r)) by (unfold w1; by rewrite lookup_insert_ne by lia).
  rewrite (bind_Ret _ _ _ _ _ (set_units_eq (with_words w1 s) r (y.2 - n) H1 ltac:(apply Hun; lia))).
  rewrite with_words_twice. change (W (with_words w1 s)) with w1. set (w2 := <[r := y.2 - n]> w1).
  assert (H2 : w2 !! (p + 4) = Some r) by (unfold w2, w1; by rewrite lookup_insert_ne, lookup_insert_eq by lia).
  rewrite (bind_Ret _ _ (with_words w2 s) r _ (next_eq (with_words w2 s) _ _ H2)).
  assert (H3 : w2 !! (y.1 + 4) = Some nx) by (unfold w2, w1; by rewrite !lookup_insert_ne by lia).
  rewrite (bind_Ret _ _ (with_words w2 s) nx _ (next_eq (with_words w2 s) _ _ H3)).
  assert (H4 : is_Some (w2 !! (r + 4))) by (unfold w2, w1; by rewrite !lookup_insert_ne by lia).
  rewrite (bind_Ret _ _ (with_words w2 s) tt _ (set_next_eq (with_words w2 s) _ _ H4)).
  rewrite with_words_twice. change (W (with_words w2 s)) with w2. set (w3 := <[r + 4 := nx]> w2).
  rewrite (set_units_eq (with_words w3 s)); [done| |apply Hun; lia].
  change (W (with_words w3 s)) with w3. unfold w3, w2, w1. rewrite !lookup_insert_ne by lia. by eexists.
Qed.

Lemma split_sep r : n < y.2 -> r = (y.1 + 8 * n, y.2 - n) -> PmmSpec.sep 1 (spans (F1 ++ [r] ++ F2)).
Proof using Hring Hn.
  intros Hlt ->. destruct (sep_around _ _ _ _ (ring_sep _ _ Hring)) as (Hy & Hs1 & Hs2 & H1 & H2 & H12).
  apply sep_make; cbn [fst snd]; [done|done|lia| | |done].
  - eapply Forall_impl; [exact H1|]. cbn. lia.
  - eapply Forall_impl; [exact H2|]. cbn. lia.
Qed.

Lemma slob_take_split :
  n < y.2 -> exists w', slob_take p y.1 n s = Ret (y.1, set_slobfree p (with_words w' s)) /\
    ring w' (F1 ++ [(y.1 + 8 * n, y.2 - n)] ++ F2) /\ keeps_dom (W s) w' /\ w' !! y.1 = Some n /\
    forall a, a <> p + 4 -> ~ (y.1 <= a < y.1 + 8 * y.2) -> w' !! a = W s !! a.
Proof using Hring Hp Hpn Hn.
  intros Hlt. destruct take_path as (A & HA & Hch & HpA & HyA). destruct take_y as [Hyu Hyp].
  assert (Hpy := take_p_apart). destruct (chain_next _ _ _ _ y.1 Hch) as (nx & Hnx & _); [left|].
  assert (Hrun := split_run nx Hlt Hnx). cbv zeta in Hrun. set (r := y.1 + 8 * n) in *.
  assert (Hr : r = y.1 + 8 * n) by done. clearbody r.
  assert (Hmap := Hyp). destruct Hmap as (Hy0 & Hy1 & Hmap). unfold SLOB_UNIT in *.
  destruct (Hmap n ltac:(lia)) as [Hr0 Hr4]. rewrite <- Hr in Hr0, Hr4.
  set (w' := <[y.1 := n]> _) in Hrun. exists w'. split; [done|].
  assert (Hd : keeps_dom (W s) w') by (repeat apply keeps_dom_insert; try done; by eexists).
  assert (Hf : forall a, a <> p + 4 -> ~ (y.1 <= a < y.1 + 8 * y.2) -> w' !! a = W s !! a).
  { intros a Ha Hay. unfold w'. by rewrite !lookup_insert_ne by lia. }
  split_and!; [|done|apply lookup_insert_eq|done].
  apply (take_ring _ _ A); [done..| | |by apply split_sep; [|f_equal]].
  - cbn [fmap list_fmap app closed fst]. apply chain_app. split.
    + apply (chain_start (W s) _ y.1); [done| |].
      * unfold w'. rewrite Hnx, lookup_insert_ne, lookup_insert_eq by lia. done.
      * intros z Hz. apply Hf; [intros ?; apply HpA; by replace p with z by lia|].
        assert (Hzin : z ∈ (F1 ++ F2).*1).
        { assert (Hzin : z ∈ (F2 ++ F1).*1) by (rewrite HA; set_solver). rewrite fmap_app in *. set_solver. }
        apply list_elem_of_fmap in Hzin as [x [-> Hx]]. destruct take_clear as [_ Hcl].
        rewrite Forall_forall in Hcl. specialize (Hcl x Hx). lia.
    + cbn [chain]. unfold w'. by rewrite !lookup_insert_ne, lookup_insert_eq by lia.
  - apply Forall_cons. split; [|done]. cbn [fst snd]. split.
    + unfold w'. by rewrite !lookup_insert_ne, lookup_insert_eq by lia.
    + apply (placed_keeps _ _ _ Hd). unfold placed, SLOB_UNIT. cbn [fst snd]. split_and!; [lia..|].
      intros k Hk. replace (r + 8 * k) with (y.1 + 8 * (n + k)) by lia. apply Hmap. lia.
Qed.

Lemma slob_take_eq :
  exists w', slob_take p y.1 n s = Ret (y.1, set_slobfree p (with_words w' s)) /\
    ring w' (F1 ++ rest y n ++ F2) /\ keeps_dom (W s) w' /\ w' !! y.1 = Some n /\
    forall a, a <> p + 4 -> ~ (y.1 <= a < y.1 + 8 * y.2) -> w' !! a = W s !! a.
Proof using Hring Hp Hpn Hn.
  unfold rest. destruct (decide (y.2 = n)) as [He|He].
  - rewrite (proj2 (Z.eqb_eq _ _) He). by apply slob_take_exact.
  - rewrite (proj2 (Z.eqb_neq _ _) He). apply slob_take_split. lia.
Qed.

End Take.

(** ** The search *)

Lemma split_first {A} (P : A -> Prop) `{forall x, Decision (P x)} l :
  Exists P l -> exists l1 y l2, l = l1 ++ y :: l2 /\ P y /\ Forall (fun x => ~ P x) l1.
Proof.
  induction l as [|x l IH]; intros He; [by apply Exists_nil in He|]. destruct (decide (P x)).
  - by exists [], x, l.
  - apply Exists_cons in He as [|He]; [done|]. destruct (IH He) as (l1 & y & l2 & -> & Hy & Hl).
    exists (x :: l1), y, l2. by rewrite Forall_cons.
Qed.

(** [if (cur == slobfree)] and what follows, [fuel] steps left. *)
Definition more_core (fuel : nat) (size n : Z) : M t Z :=
  if size =? PAGE_SIZE then mret 0 else
  c ← __slob_get_free_pages 0;
  if c =? 0 then mret 0 else
  slob_free c PAGE_SIZE;;
  c ← gets slobfree;
  nx ← next c;
  slob_loop fuel size n 0 c nx.

Section Loop.
  Context (s : t) (size n : Z).

Lemma loop_take fuel prev cur u :
  W s !! cur = Some u -> is_units u -> n <= u ->
  slob_loop (S fuel) size n 0 prev cur s = slob_take prev cur n s.
Proof.
  intros Hu Hi Hle. cbn [slob_loop]. cbv zeta. change (0 =? 0) with true. cbv iota.
  rewrite (bind_Ret _ _ _ _ _ (units_eq _ _ _ Hu Hi)). by replace (n + 0 <=? u) with true by lia.
Qed.

Lemma loop_skip fuel prev cur u nx :
  W s !! cur = Some u -> is_units u -> u < n -> cur <> slobfree s -> W s !! (cur + 4) = Some nx ->
  slob_loop (S fuel) size n 0 prev cur s = slob_loop fuel size n 0 cur nx s.
Proof.
  intros Hu Hi Hlt Hc Hn. cbn [slob_loop]. cbv zeta. change (0 =? 0) with true. cbv iota.
  rewrite (bind_Ret _ _ _ _ _ (units_eq _ _ _ Hu Hi)). replace (n + 0 <=? u) with false by lia.
  rewrite (bind_Ret _ _ s s s) by done. replace (cur =? slobfree s) with false by lia.
  by rewrite (bind_Ret _ _ _ _ _ (next_eq _ _ _ Hn)).
Qed.

Lemma loop_grow fuel prev cur u :
  W s !! cur = Some u -> is_units u -> u < n -> cur = slobfree s ->
  slob_loop (S fuel) size n 0 prev cur s = more_core fuel size n s.
Proof.
  intros Hu Hi Hlt Hc. cbn [slob_loop]. cbv zeta. change (0 =? 0) with true. cbv iota.
  rewrite (bind_Ret _ _ _ _ _ (units_eq _ _ _ Hu Hi)). replace (n + 0 <=? u) with false by lia.
  rewrite (bind_Ret _ _ s s s) by done. by replace (cur =? slobfree s) with true by lia.
Qed.

(** Past blocks that are too small. *)
Lemma loop_scan y k (A : list (Z * Z)) : forall prev c,
  chain (W s) prev A.*1 y -> W s !! (prev + 4) = Some c ->
  Forall (fun z => W s !! z.1 = Some z.2 /\ is_units z.2 /\ z.2 < n /\ z.1 <> slobfree s) A ->
  exists p, W s !! (p + 4) = Some y /\ p ∈ match A with [] => [prev] | _ => A.*1 end /\
    slob_loop (length A + k) size n 0 prev c s = slob_loop k size n 0 p y s.
Proof.
  induction A as [|z A IH]; intros prev c Hch Hc HA.
  - cbn [fmap list_fmap chain] in Hch. exists prev. rewrite Hch in Hc. injection Hc as <-. split_and!; [done|left|done].
  - cbn [fmap list_fmap chain] in Hch. destruct Hch as [Hz Hch]. rewrite Hz in Hc. injection Hc as <-.
    apply Forall_cons in HA as [(Hu & Hi & Hlt & Hne) HA].
    destruct (chain_next _ _ _ _ z.1 Hch) as (nx & Hnx & _); [left|].
    destruct (IH z.1 nx) as (p & Hp & Hin & Hrun); [done..|]. exists p. split; [done|]. split.
    + destruct A; cbn in *; set_solver.
    + cbn [length Nat.add]. by rewrite (loop_skip _ _ _ z.2 nx).
Qed.

(** Once around the ring, from [x] on: [K1] is before it and [K2] after. *)
Section Round.
  Context (F K1 K2 : list (Z * Z)) (x : Z * Z) (c : Z).
  Context (Hr : ring (W s) F) (Hx : slobfree s = x.1) (HF : F = K1 ++ x :: K2).
  Context (Hc : W s !! (x.1 + 4) = Some c).

Lemma round_ok z : z ∈ F -> W s !! z.1 = Some z.2 /\ is_units z.2.
Proof using Hr.
  intros Hz. assert (Hu := ring_units _ _ Hr). assert (Hp := ring_placed _ _ Hr). rewrite Forall_forall in Hu, Hp. split; [by apply Hu|].
  apply (placed_units (W s)); [by apply Hp|]. apply Z.lt_le_incl, (ring_pos _ _ _ Hr Hz).
Qed.

Lemma round_mem z : z ∈ (K2 ++ K1) ++ [x] <-> z ∈ F.
Proof using HF. clear Hr Hx Hc. rewrite HF. set_solver. Qed.

Lemma round_fresh : x.1 ∉ (K2 ++ K1).*1.
Proof using Hr HF.
  assert (Hnd := ring_nodup _ _ Hr). clear Hx Hc. rewrite HF, fmap_app, fmap_cons in Hnd.
  apply NoDup_app in Hnd as (_ & H1 & [H2 _]%NoDup_cons). rewrite fmap_app. set_solver.
Qed.

Lemma round_scan A y B k :
  (K2 ++ K1) ++ [x] = A ++ y :: B -> Forall (fun z => ~ n <= z.2) A ->
  exists p, W s !! (p + 4) = Some y.1 /\ p ∈ match A with [] => [x.1] | _ => A.*1 end /\
    slob_loop (length A + k) size n 0 x.1 c s = slob_loop k size n 0 p y.1 s.
Proof using Hr Hx HF Hc.
  intros HA Hno.
  assert (Hch : chain (W s) x.1 (K2 ++ K1).*1 x.1) by (rewrite HF in Hr; by apply link_chain in Hr).
  assert (Hxk := round_fresh). assert (Hpath : chain (W s) x.1 A.*1 y.1 /\ forall z, z ∈ A -> z ∈ K2 ++ K1).
  { destruct B as [|b B _] using rev_ind.
    - apply app_inj_tail in HA as [<- <-]. done.
    - rewrite app_comm_cons, app_assoc in HA. apply app_inj_tail in HA as [HA _]. rewrite HA in *.
      rewrite fmap_app, fmap_cons in Hch. apply chain_app in Hch as [Hch _]. split; [done|set_solver]. }
  destruct Hpath as [Hpath Hsub]. apply loop_scan; [done|done|].
  rewrite Forall_forall in *. intros z Hz. destruct (round_ok z) as [Hzu Hzi].
  { apply round_mem, elem_of_app. left. by apply Hsub. }
  split_and!; [done..|specialize (Hno z Hz); lia|]. rewrite Hx. intros Hzx. apply Hxk. rewrite <- Hzx.
  by apply list_elem_of_fmap_2, Hsub.
Qed.

(** The block before the one found is another one. *)
Lemma round_prev A y B p x0 :
  (K2 ++ K1) ++ [x] = A ++ y :: B -> Forall (fun z => ~ n <= z.2) A -> n <= y.2 -> x0 ∈ F -> x0.2 < n ->
  p ∈ match A with [] => [x.1] | _ => A.*1 end -> exists z, p = z.1 /\ z ∈ F /\ z <> y.
Proof using Hr HF.
  intros HA Hno Hy Hx0 Hn0 Hp. assert (Hxk := round_fresh). clear Hx Hc. destruct A as [|a A].
  - apply list_elem_of_singleton in Hp as ->. exists x. split; [done|]. split; [apply round_mem; set_solver|]. intros <-.
    apply round_mem in Hx0. destruct (K2 ++ K1) eqn:HK.
    + apply list_elem_of_singleton in Hx0 as ->. lia.
    + injection HA as -> _. rewrite fmap_cons in Hxk. set_solver.
  - apply list_elem_of_fmap in Hp as [z [-> Hz]]. exists z. split; [done|]. split.
    + apply round_mem. rewrite HA. set_solver.
    + intros ->. rewrite Forall_forall in Hno. by apply (Hno y).
Qed.

End Round.

Lemma loop_round F x0 k c :
  ring (W s) F -> slobfree s ∈ F.*1 -> x0 ∈ F -> x0.2 < n -> W s !! (slobfree s + 4) = Some c ->
  (exists F1 y F2 p, F = F1 ++ y :: F2 /\ n <= y.2 /\ p ∈ (F1 ++ F2).*1 /\ W s !! (p + 4) = Some y.1 /\
     slob_loop (length F + k) size n 0 (slobfree s) c s = slob_take p y.1 n s) \/
  (Forall (fun z => z.2 < n) F /\
     slob_loop (length F + k) size n 0 (slobfree s) c s = more_core k size n s).
Proof.
  intros Hr Hcur Hx0 Hn0 Hc.
  apply list_elem_of_fmap in Hcur as [x [Hx Hxin]]. apply list_elem_of_split in Hxin as (K1 & K2 & HF).
  assert (Hmem := round_mem F K1 K2 x HF). rewrite Hx in *.
  assert (Hlen : length F = length ((K2 ++ K1) ++ [x])) by (rewrite HF, !length_app; cbn; lia).
  destruct (decide (Exists (fun z => n <= z.2) ((K2 ++ K1) ++ [x]))) as [He|He].
  - left. apply split_first in He as (A & y & B & HA & Hy & Hno); [|solve_decision].
    destruct (round_scan F K1 K2 x c) with (A := A) (y := y) (B := B) (k := S (length B + k)) as (p & Hp & Hpin & Hrun); [done..|].
    assert (HyF : y ∈ F) by (apply Hmem; rewrite HA; set_solver).
    destruct (list_elem_of_split _ _ HyF) as (F1 & F2 & HyF'). exists F1, y, F2, p. split_and!; [done..| |done|].
    + destruct (round_prev F K1 K2 x) with (A := A) (y := y) (B := B) (p := p) (x0 := x0) as (z & -> & Hz & Hzy); [done..|].
      apply list_elem_of_fmap_2. rewrite HyF' in Hz. set_solver.
    + rewrite Hlen, HA, length_app. cbn [length].
      replace (length A + S (length B) + k)%nat with (length A + S (length B + k))%nat by lia.
      rewrite Hrun. destruct (round_ok F Hr y HyF). by apply (loop_take _ _ _ y.2).
  - right. assert (Hall : Forall (fun z => ~ n <= z.2) ((K2 ++ K1) ++ [x])) by (by apply Forall_Exists_neg in He).
    split; [rewrite Forall_forall in *; intros z Hz; apply Hmem, Hall in Hz; lia|].
    apply Forall_app in Hall as [Hall [Hxn _]%Forall_cons].
    destruct (round_scan F K1 K2 x c) with (A := K2 ++ K1) (y := x) (B := @nil (Z * Z)) (k := S k) as (p & _ & _ & Hrun); [done..|].
    rewrite Hlen, length_app. cbn [length].
    replace (length (K2 ++ K1) + 1 + k)%nat with (length (K2 ++ K1) + S k)%nat by lia.
    rewrite Hrun. destruct (round_ok F Hr x ltac:(by apply Hmem; set_solver)). apply (loop_grow _ _ _ x.2); [done..|lia|done].
Qed.

End Loop.

(** ** Pages for the ring *)

Definition kva (q : Z) : Z := Paging.KERNBASE + 4096 * q.
Definition frame_of (a : Z) : Z := (a - Paging.KERNBASE) `div` 4096.

Lemma frame_of_kva a q : frame_of a = q <-> kva q <= a < kva q + 4096.
Proof. unfold frame_of, kva. width. Qed.

(** The bytes the heap can still give out: those of the free blocks and those of
    the free frames. *)
Definition avail (bl l : list (Z * Z)) (a : Z) : Prop := bytes l a \/ PmmSpec.free bl (frame_of a).

Definition set_pmm (pm : Pmm.t) (s : t) : t := set_kmem (Paging.set_pmm pm (kmem s)) s.

(** A free frame is memory above [arena]. *)
Definition frame_ok (arena : Z) (s : t) (q : Z) : Prop :=
  0 <= q < Paging.npage (kmem s) /\ arena + 8 < kva q /\ placed (W s) (kva q, 512).

Record heap_ok (arena : Z) (s : t) (bl l : list (Z * Z)) : Prop := {
  hk_pmm : PmmSpec.rep 1 (Paging.pmm (kmem s)) bl;
  hk_ring : ring (W s) ((arena, 1) :: l);
  hk_cur : slobfree s ∈ ((arena, 1) :: l).*1;
  hk_frames : forall q, PmmSpec.free bl q -> frame_ok arena s q;
  hk_apart : forall a, bytes l a -> ~ PmmSpec.free bl (frame_of a);
  hk_swap : Paging.swap_init_ok (kmem s) = false
}.

Lemma page2kva_eq s q :
  0 <= q < Paging.npage (kmem s) -> kva q + 4096 <= 2 ^ 32 -> on_mem (Paging.page2kva q) s = Ret (kva q, s).
Proof.
  unfold kva, Paging.KERNBASE. intros Hq Hk. unfold on_mem, Paging.page2kva, Paging.KADDR, Paging.page2pa, Paging.KERNBASE.
  assert (Hpa : u32 (q ≪ 12) = 4096 * q) by (rewrite Z.shiftl_mul_pow2 by lia; width).
  rewrite Hpa, (bind_Ret _ _ (kmem s) (kmem s) (kmem s)) by done.
  unfold Paging.PPN. rewrite Z.shiftr_div_pow2 by lia. replace ((4096 * q) `div` 2 ^ 12) with q by (change (2 ^ 12) with 4096; width).
  replace (q <? Paging.npage (kmem s)) with true by lia. cbn. rewrite u32_id by width. do 2 f_equal; [lia|by destruct s].
Qed.

(** Pages, when enough consecutive frames are left. *)
Lemma get_pages_eq arena s bl l o :
  heap_ok arena s bl l -> 0 <= o ->
  (Forall (fun x => x.2 < 2 ^ o) bl /\ __slob_get_free_pages o s = Ret (0, s)) \/
  exists q pm bl', __slob_get_free_pages o s = Ret (kva q, set_pmm pm s) /\
    (forall r, q <= r < q + 2 ^ o -> PmmSpec.free bl r /\ PmmSpec.in_use (Pmm.pages pm) r) /\
    PmmSpec.rep 1 pm bl' /\ (forall r, PmmSpec.free bl' r <-> PmmSpec.free bl r /\ ~ (q <= r < q + 2 ^ o)) /\
    forall r, ~ PmmSpec.free bl r -> Pmm.pages pm !! r = Pmm.pages (Paging.pmm (kmem s)) !! r.
Proof.
  intros [Hrep _ _ Hfr _ Hsw] Ho. assert (H2o : 0 < 2 ^ o) by (apply Z.pow_pos_nonneg; lia).
  assert (Ha := PmmSpec.alloc_spec 1 _ bl (2 ^ o) ltac:(lia) Hrep H2o).
  unfold __slob_get_free_pages. replace (1 ≪ o) with (2 ^ o) by (rewrite Z.shiftl_mul_pow2; lia).
  destruct (list_find _ bl) as [[i [q k]]|] eqn:Hf.
  - destruct Ha as (pm & bl' & Ha & Hrep' & _ & Hin & Hfree). right. exists q, pm, bl'. cbn [fst] in *.
    destruct (Hin q ltac:(lia)) as [Hq _]. destruct (Hfr q Hq) as (H1 & _ & (_ & H2 & _)).
    assert (Hal : on_mem (Paging.alloc_pages (2 ^ o)) s = Ret (Some q, set_pmm pm s)).
    { unfold on_mem, Paging.alloc_pages, Paging.on_pmm. unfold mbind at 1, M_bind at 1. by rewrite Ha. }
    split; [|split_and!; [done..|]].
    + rewrite (bind_Ret _ _ _ _ _ Hal). apply page2kva_eq; [done|]. unfold SLOB_UNIT in H2. cbn in H2. lia.
    + intros r Hr. by apply (PmmSpec.alloc_pages_keeps 1 _ bl (2 ^ o) (Some q)).
  - left. split.
    { apply list_find_None in Hf. eapply Forall_impl; [exact Hf|]. cbn. lia. }
    rewrite (bind_Ret _ _ s None s); [done|]. unfold on_mem, Paging.alloc_pages, Paging.on_pmm.
    unfold mbind at 1, M_bind at 1. rewrite Ha. destruct s as [[] sf big]. cbn in Hsw |- *. rewrite Hsw. by destruct (1 <? 2 ^ o).
Qed.

(** The ring does not mind frames being taken. *)
Lemma heap_ok_frames arena s bl l pm bl' :
  heap_ok arena s bl l -> PmmSpec.rep 1 pm bl' -> (forall r, PmmSpec.free bl' r -> PmmSpec.free bl r) ->
  heap_ok arena (set_pmm pm s) bl' l.
Proof.
  intros [Hrep Hring Hcur Hfr Hap Hsw] Hrep' Hsub.
  split; try done; [intros r Hr%Hsub; by apply Hfr|intros a Ha Hr%Hsub; by apply (Hap a)].
Qed.

(** ** What allocation does to the heap *)

(** Nothing but memory, the page allocator and the ring changes. *)
Definition touches (s s' : t) : Prop :=
  kmem s' = Paging.set_words (W s') (Paging.set_pmm (Paging.pmm (kmem s')) (kmem s)) /\
  bigblocks s' = bigblocks s.

(** [n] units at [p] leave the available bytes; no byte in use is written. *)
Record taken (arena : Z) (s : t) (bl l : list (Z * Z)) (s' : t) (bl' l' : list (Z * Z)) (p n : Z) : Prop := {
  tk_ok : heap_ok arena s' bl' l';
  tk_rest : touches s s';
  tk_used : forall q, ~ PmmSpec.free bl q ->
    Pmm.pages (Paging.pmm (kmem s')) !! q = Pmm.pages (Paging.pmm (kmem s)) !! q;
  tk_dom : keeps_dom (W s) (W s');
  tk_head : W s' !! p = Some n;
  tk_placed : placed (W s') (p, n);
  tk_above : arena + 8 < p;
  tk_was : forall a, p <= a < p + 8 * n -> avail bl l a;
  tk_avail : forall a, avail bl' l' a <-> avail bl l a /\ ~ (p <= a < p + 8 * n);
  tk_frame : forall a, ~ avail bl l a -> ~ (arena <= a < arena + 8) -> W s' !! a = W s !! a
}.

Lemma frame_ok_keeps arena s s' q :
  touches s s' -> keeps_dom (W s) (W s') -> frame_ok arena s q -> frame_ok arena s' q.
Proof.
  intros [Hm _] Hd (H1 & H2 & H3). split; [by rewrite Hm|]. split; [done|by apply (placed_keeps (W s))].
Qed.

Lemma placed_prefix w y n : placed w y -> 0 <= n <= y.2 -> placed w (y.1, n).
Proof.
  unfold placed, SLOB_UNIT. cbn [fst snd]. intros (H1 & H2 & H3) Hn. split_and!; [done|lia|]. intros k Hk. apply H3. lia.
Qed.

Lemma bytes_rest y n a : 0 < n <= y.2 ->
  bytes (rest y n) a <-> y.1 <= a < y.1 + 8 * y.2 /\ ~ (y.1 <= a < y.1 + 8 * n).
Proof.
  intros Hn. unfold rest. destruct (y.2 =? n) eqn:He; [rewrite bytes_nil|rewrite bytes_cons, bytes_nil; cbn]; lia.
Qed.

(** The bytes of the other blocks are apart from those of [y]. *)
Lemma bytes_others F1 y F2 a :
  PmmSpec.sep 1 (spans (F1 ++ y :: F2)) -> bytes (F1 ++ F2) a -> ~ (y.1 <= a < y.1 + 8 * y.2).
Proof.
  intros Hs. destruct (sep_around _ _ _ _ Hs) as (_ & _ & _ & H1 & H2 & _). rewrite Forall_forall in H1, H2.
  rewrite span_bytes_app. unfold bytes, PmmSpec.free, spans.
  intros [(z & [x [-> Hx]]%list_elem_of_fmap & Hc)|(z & [x [-> Hx]]%list_elem_of_fmap & Hc)];
    [specialize (H1 x Hx)|specialize (H2 x Hx)]; unfold PmmSpec.covers, span, SLOB_UNIT in Hc; cbn in Hc; lia.
Qed.

Lemma bytes_elem F x a : x ∈ F -> x.1 <= a < x.1 + 8 * x.2 -> bytes F a.
Proof. intros Hx Ha. exists (span x). split; [by apply list_elem_of_fmap_2|done]. Qed.

Lemma take_heap arena s bl F1 y F2 p n :
  heap_ok arena s bl (F1 ++ y :: F2) -> 2 <= n <= y.2 -> p ∈ (((arena, 1) :: F1) ++ F2).*1 ->
  W s !! (p + 4) = Some y.1 ->
  exists s', slob_take p y.1 n s = Ret (y.1, s') /\
    taken arena s bl (F1 ++ y :: F2) s' bl (F1 ++ rest y n ++ F2) y.1 n.
Proof.
  intros Hok Hn Hp Hpn. destruct Hok as [Hrep Hring Hcur Hfr Hap Hsw].
  change ((arena, 1) :: F1 ++ y :: F2) with (((arena, 1) :: F1) ++ y :: F2) in Hring.
  destruct (slob_take_eq s _ y F2 p n Hring Hp Hpn ltac:(lia)) as (w' & Hrun & Hr' & Hd & Hhd & Hf).
  exists (set_slobfree p (with_words w' s)). split; [done|].
  assert (Hpl : placed (W s) y) by (apply ring_placed, Forall_app in Hring as [_ [Hpl _]%Forall_cons]; done).
  assert (Hlow : arena + 8 < y.1).
  { destruct (sep_around _ _ _ _ (ring_sep _ _ Hring)) as (_ & _ & _ & H1 & _). apply Forall_cons in H1 as [H1 _]. cbn in H1. lia. }
  assert (Hb : forall a, bytes (F1 ++ rest y n ++ F2) a <-> bytes (F1 ++ y :: F2) a /\ ~ (y.1 <= a < y.1 + 8 * n)).
  { intros a. assert (Ho := bytes_others F1 y F2 a). destruct (sep_around _ [] _ _ (ring_sep _ _ Hring)) as (_ & _ & Hs & _).
    specialize (Ho Hs). rewrite !span_bytes_app, bytes_rest, bytes_cons by lia. rewrite span_bytes_app in Ho.
    assert (y.1 + 8 * n <= y.1 + 8 * y.2) by lia. destruct (decide (y.1 <= a < y.1 + 8 * n)); intuition lia. }
  split.
  - split; try done.
    + change (p ∈ (((arena, 1) :: F1) ++ rest y n ++ F2).*1). rewrite !fmap_app in *. set_solver.
    + intros q Hq. apply (frame_ok_keeps _ s); [by destruct s as [[] ? ?]|done|by apply Hfr].
    + intros a Ha. apply Hb in Ha as [Ha _]. by apply Hap.
  - by destruct s as [[] ? ?].
  - done.
  - done.
  - done.
  - apply (placed_prefix w'); [by apply (placed_keeps (W s))|lia].
  - done.
  - intros a Ha. left. apply (bytes_elem _ y); [set_solver|lia].
  - intros a. unfold avail. rewrite Hb. assert (bytes (F1 ++ y :: F2) a -> ~ PmmSpec.free bl (frame_of a)) by apply Hap.
    assert (y.1 <= a < y.1 + 8 * n -> bytes (F1 ++ y :: F2) a).
    { intros Ha. apply (bytes_elem _ y); [set_solver|lia]. }
    tauto.
  - intros a Ha Har. apply Hf.
    + intros ->. apply list_elem_of_fmap in Hp as [z [-> Hz]].
      assert (0 < z.2) by (apply (ring_pos _ _ _ Hring); set_solver).
      cbn [app] in Hz. apply elem_of_cons in Hz as [->|Hz]; [cbn in Har; lia|].
      apply Ha. left. apply (bytes_elem _ z); [set_solver|lia].
    + intros Hy. apply Ha. left. apply (bytes_elem _ y); [set_solver|lia].
Qed.

(** [n] units at [p] join the available bytes. *)
Record given (arena : Z) (s : t) (bl l : list (Z * Z)) (s' : t) (bl' l' : list (Z * Z)) (p n : Z) : Prop := {
  gv_ok : heap_ok arena s' bl' l';
  gv_rest : touches s s';
  gv_pmm : Paging.pmm (kmem s') = Paging.pmm (kmem s);
  gv_dom : keeps_dom (W s) (W s');
  gv_avail : forall a, avail bl' l' a <-> avail bl l a \/ p <= a < p + 8 * n;
  gv_frame : forall a, ~ avail bl' l' a -> ~ (arena <= a < arena + 8) -> W s' !! a = W s !! a
}.

Lemma apart_bytes w b F :
  ring w F -> 0 < b.2 -> (forall a, b.1 <= a < b.1 + 8 * b.2 -> ~ bytes F a) -> apart_from b F.
Proof.
  intros Hr Hb Ha. apply Forall_forall. intros y Hy. assert (Hp := ring_pos _ _ _ Hr Hy).
  destruct (decide (y.1 + 8 * y.2 <= b.1 \/ b.1 + 8 * b.2 <= y.1)); [done|].
  destruct (Ha (Z.max y.1 b.1)); [lia|]. apply (bytes_elem _ y); [done|lia].
Qed.

Lemma free_heap arena s bl l b size :
  heap_ok arena s bl l -> placed (W s) b -> 0 < b.2 -> arena + 8 < b.1 ->
  (forall a, b.1 <= a < b.1 + 8 * b.2 -> ~ avail bl l a) ->
  (if decide (size = 0) then W s !! b.1 = Some b.2 else SLOB_UNITS size = b.2) ->
  exists s' l', slob_free b.1 size s = Ret (tt, s') /\ given arena s bl l s' bl l' b.1 b.2 /\
    exists y, y ∈ (arena, 1) :: l' /\ b.2 <= y.2.
Proof.
  intros [Hrep Hring Hcur Hfr Hap Hsw] Hpl Hb Hlow Hna Hu.
  assert (Hapart : apart_from b ((arena, 1) :: l)).
  { apply (apart_bytes _ _ _ Hring Hb). intros a Ha. rewrite bytes_cons. cbn. intros [?|Hl]; [lia|].
    apply (Hna a Ha). by left. }
  destruct (slob_free_eq s (arena, 1) l b size Hring Hcur Hpl Hb Hapart Hlow Hu)
    as (s' & Hrun & w' & p & l' & -> & Hr' & Hp & Hq & [Hd Hf] & Hy).
  exists (set_slobfree p (with_words w' s)), l'. split; [done|]. split; [|done].
  assert (Hbl : forall a, bytes l' a <-> bytes l a \/ b.1 <= a < b.1 + 8 * b.2).
  { intros a. specialize (Hq a). rewrite !bytes_cons in Hq. cbn in Hq.
    assert (Ho := bytes_others [] (arena, 1) l' a (ring_sep _ _ Hr')).
    assert (Ho' := bytes_others [] (arena, 1) l a (ring_sep _ _ Hring)). cbn in Ho, Ho'.
    assert (b.1 <= a -> ~ (arena <= a < arena + 8)) by lia. tauto. }
  assert (Ht : touches s (set_slobfree p (with_words w' s))) by by destruct s as [[] ? ?].
  split; [|done|done|done|..].
  - split; try done.
    + intros q Hfq. by apply (frame_ok_keeps _ s); [..|apply Hfr].
    + intros a [Ha|Ha]%Hbl; [by apply Hap|]. intros Hfa. apply (Hna a Ha). by right.
  - intros a. unfold avail. rewrite Hbl. tauto.
  - intros a Ha Har. apply Hf. rewrite bytes_cons. cbn. intros [?|?]; [done|]. apply Ha. by left.
Qed.

Section Alloc.
  Context (arena : Z).

(** A page moves from the free frames to the ring. *)
Lemma grow_heap s bl l :
  heap_ok arena s bl l ->
  (bl = [] /\ __slob_get_free_pages 0 s = Ret (0, s)) \/
  exists c s1 s2 bl' l', __slob_get_free_pages 0 s = Ret (c, s1) /\ c <> 0 /\
    slob_free c PAGE_SIZE s1 = Ret (tt, s2) /\ heap_ok arena s2 bl' l' /\ touches s s2 /\
    (forall q, ~ PmmSpec.free bl q -> ~ PmmSpec.free bl' q /\
       Pmm.pages (Paging.pmm (kmem s2)) !! q = Pmm.pages (Paging.pmm (kmem s)) !! q) /\
    keeps_dom (W s) (W s2) /\
    (forall a, avail bl' l' a <-> avail bl l a) /\
    (forall a, ~ avail bl l a -> ~ (arena <= a < arena + 8) -> W s2 !! a = W s !! a) /\
    exists y, y ∈ (arena, 1) :: l' /\ 512 <= y.2.
Proof.
  intros Hok. destruct (get_pages_eq _ _ _ _ 0 Hok) as [[Hno Hget]|(q & pm & bl' & Hget & Hin & Hrep' & Hfree & Hkeep)]; [done|left|right].
  { split; [|done]. destruct bl as [|x bl]; [done|]. apply Forall_cons in Hno as [Hno _].
    destruct (PmmSpec.rep_sep _ _ _ (hk_pmm _ _ _ _ Hok)) as [? _]. change (2 ^ 0) with 1 in Hno. lia. }
  change (2 ^ 0) with 1 in *. destruct (Hin q ltac:(lia)) as [Hq _].
  assert (Hok1 := heap_ok_frames _ _ _ _ _ _ Hok Hrep' ltac:(by intros r [? _]%Hfree)).
  destruct Hok as [Hrep Hring Hcur Hfr Hap Hsw]. destruct (Hfr q Hq) as (Hqn & Hqa & Hqp).
  destruct (free_heap arena (set_pmm pm s) bl' l (kva q, 512) PAGE_SIZE Hok1 Hqp) as (s2 & l' & Hrun & [Hok2 Ht Hpm Hd Hav Hf] & Hy);
    [done|done| |done|].
  { intros a Ha%frame_of_kva. intros [Hl|[_ Hne]%Hfree]; [|lia]. apply (Hap a Hl). by rewrite Ha. }
  assert (Heq : forall a, avail bl' l' a <-> avail bl l a).
  { intros a. rewrite Hav. unfold avail. cbn [fst snd]. assert (Hk := frame_of_kva a q). rewrite Hfree.
    change (8 * 512) with 4096. rewrite <- Hk. assert (q <= frame_of a < q + 1 <-> frame_of a = q) by lia.
    destruct (decide (frame_of a = q)) as [->|]; tauto. }
  exists (kva q), (set_pmm pm s), s2, bl', l'. split_and!; try done.
  - destruct Hqp as [? _]. cbn in *. lia.
  - intros r Hr. split; [by intros [? _]%Hfree|]. rewrite Hpm. by apply Hkeep.
  - intros a Ha Har. apply Hf; [by rewrite Heq|done].
Qed.

Lemma taken_after s bl l s1 bl1 l1 s2 bl2 l2 p n :
  touches s s1 -> keeps_dom (W s) (W s1) -> (forall a, avail bl1 l1 a <-> avail bl l a) ->
  (forall q, ~ PmmSpec.free bl q -> ~ PmmSpec.free bl1 q /\
     Pmm.pages (Paging.pmm (kmem s1)) !! q = Pmm.pages (Paging.pmm (kmem s)) !! q) ->
  (forall a, ~ avail bl l a -> ~ (arena <= a < arena + 8) -> W s1 !! a = W s !! a) ->
  taken arena s1 bl1 l1 s2 bl2 l2 p n -> taken arena s bl l s2 bl2 l2 p n.
Proof.
  intros [Ht1 Ht2] Hd Hav Hpm Hf [Hok [Hr1 Hr2] Hpm2 Hd2 Hh Hp Ha Hw Hav2 Hf2]. split; try done.
  - split; [|by rewrite Hr2]. rewrite Hr1 at 1. rewrite Ht1. done.
  - intros q Hq. destruct (Hpm q Hq). by rewrite Hpm2.
  - intros a. by rewrite (Hd a).
  - intros a Har. by apply Hav, Hw.
  - intros a. by rewrite Hav2, Hav.
  - intros a Ha1 Ha2. rewrite Hf2, Hf; [done..|by rewrite Hav|done].
Qed.

(** The search finds a block that fits when there is one. *)
Lemma round_take s bl l size n k c :
  heap_ok arena s bl l -> 2 <= n -> W s !! (slobfree s + 4) = Some c ->
  (exists p s' l', slob_loop (length ((arena, 1) :: l) + k) size n 0 (slobfree s) c s = Ret (p, s') /\
     taken arena s bl l s' bl l' p n) \/
  (Forall (fun z => z.2 < n) ((arena, 1) :: l) /\
   slob_loop (length ((arena, 1) :: l) + k) size n 0 (slobfree s) c s = more_core k size n s).
Proof.
  intros Hok Hn Hc. destruct (loop_round s size n ((arena, 1) :: l) (arena, 1) k c) as [Hfit|]; [apply Hok|apply Hok|left|cbn; lia|done| |by right].
  left. destruct Hfit as (F1 & y & F2 & p & HF & Hy & Hp & Hpn & Hrun). destruct F1 as [|x F1]; injection HF as <- ->; [cbn in Hy; lia|].
  destruct (take_heap arena s bl F1 y F2 p n Hok) as (s' & Htake & Htk); [lia|done..|].
  exists y.1, s', (F1 ++ rest y n ++ F2). by rewrite Hrun.
Qed.

Lemma cur_next s bl l : heap_ok arena s bl l -> exists c, W s !! (slobfree s + 4) = Some c.
Proof.
  intros [_ Hr Hcur _ _ _]. destruct (closed_next _ _ _ (ring_closed _ _ Hr) Hcur) as (c & ? & _). by exists c.
Qed.

Lemma more_core_eq s bl l size n k :
  heap_ok arena s bl l -> size <> PAGE_SIZE -> 2 <= n <= 512 -> (ring_fuel s <= k)%nat ->
  (more_core k size n s = Ret (0, s) /\ bl = []) \/
  exists p s' bl' l', more_core k size n s = Ret (p, s') /\ taken arena s bl l s' bl' l' p n.
Proof.
  intros Hok Hsz Hn Hk. unfold more_core. apply Z.eqb_neq in Hsz. rewrite Hsz.
  destruct (grow_heap s bl l Hok) as [[Hbl Hget]|(c & s1 & s2 & bl' & l' & Hget & Hc & Hfree & Hok2 & Ht & Hpm & Hd & Hav & Hf & y & Hy & Hy2)].
  { left. by rewrite (bind_Ret _ _ _ _ _ Hget). }
  right. rewrite (bind_Ret _ _ _ _ _ Hget). apply Z.eqb_neq in Hc. rewrite Hc, (bind_Ret _ _ _ _ _ Hfree).
  rewrite (bind_Ret _ _ s2 (slobfree s2) s2) by done.
  destruct (cur_next _ _ _ Hok2) as [nx Hnx]. rewrite (bind_Ret _ _ _ _ _ (next_eq _ _ _ Hnx)).
  assert (Hlen := ring_length _ _ (hk_ring _ _ _ _ Hok2)). rewrite <- (keeps_dom_size _ _ Hd) in Hlen.
  unfold ring_fuel in Hk. fold (W s) in Hk.
  replace k with (length ((arena, 1%Z) :: l') + (k - length ((arena, 1%Z) :: l')))%nat by lia.
  destruct (round_take s2 bl' l' size n (k - length ((arena, 1%Z) :: l')) nx Hok2) as [(p & s' & l2 & Hrun & Htk)|[Hno _]]; [lia|done|..].
  - exists p, s', bl', l2. split; [done|]. by apply (taken_after s bl l s2 bl' l').
  - rewrite Forall_forall in Hno. specialize (Hno y Hy). lia.
Qed.

(** Allocation takes the units asked for from the available bytes, or finds
    neither a block that fits nor a free frame. *)
Lemma slob_alloc_eq s bl l size :
  heap_ok arena s bl l -> 8 < size < 4088 ->
  (slob_alloc size 0 s = Ret (0, s) /\ bl = [] /\ Forall (fun z => z.2 < SLOB_UNITS size) l) \/
  exists p s' bl' l', slob_alloc size 0 s = Ret (p, s') /\ taken arena s bl l s' bl' l' p (SLOB_UNITS size).
Proof.
  intros Hok Hsz. assert (Hn : 2 <= SLOB_UNITS size <= 511) by (unfold SLOB_UNITS, SLOB_UNIT; width).
  destruct (cur_next _ _ _ Hok) as [c Hc]. unfold slob_alloc, SLOB_UNIT, PAGE_SIZE.
  replace (u32 (size + 8) <? 4096) with true by width.
  rewrite (bind_Ret _ _ s tt s), (bind_Ret _ _ s s s) by done. rewrite (bind_Ret _ _ _ _ _ (next_eq _ _ _ Hc)).
  assert (Hlen := ring_length _ _ (hk_ring _ _ _ _ Hok)).
  set (k := (ring_fuel s + ring_fuel s - length ((arena, 1%Z) :: l))%nat).
  assert (Hk : (ring_fuel s <= k)%nat) by (unfold k, ring_fuel; fold (W s); lia).
  replace (ring_fuel s + ring_fuel s)%nat with (length ((arena, 1%Z) :: l) + k)%nat by (unfold k, ring_fuel; fold (W s); lia).
  destruct (round_take s bl l size (SLOB_UNITS size) k c Hok) as [(p & s' & l' & Hrun & Htk)|[Hno Hrun]]; [lia|done|..].
  { right. by exists p, s', bl, l'. }
  rewrite Hrun. destruct (more_core_eq s bl l size (SLOB_UNITS size) k Hok) as [[-> ->]|(p & s' & bl' & l' & -> & Htk)];
    [unfold PAGE_SIZE; lia|lia|done|left|right].
  - split_and!; [done..|]. by apply Forall_cons in Hno as [_ ?].
  - by exists p, s', bl', l'.
Qed.

End Alloc.

End SlobSpec.
