(* ===== verification/KmallocSpec.v ===== *)
(** The kernel heap as a set of blocks in use (kern/mm/kmalloc.c): allocation
    gives a block apart from every other one and release returns it; the contents
    of the other blocks stay.  The heap so proved implements the interface [Heap]
    of its clients. *)

From S2P Require Import Prelude DefaultPmm DefaultPmmSpec Paging Heap Kmalloc SlobSpec.

Module KmallocSpec.
Import Kmalloc SlobSpec.

(** ** Regions *)

(** A region is its first address and its number of bytes. *)
Definition inside (r : Z * Z) (a : Z) : Prop := r.1 <= a < r.1 + r.2.
Definition apart (r r' : Z * Z) : Prop := r.1 + r.2 <= r'.1 \/ r'.1 + r'.2 <= r.1.

Fixpoint disjoint (R : list (Z * Z)) : Prop :=
  match R with [] => True | r :: R => Forall (apart r) R /\ disjoint R end.

Lemma disjoint_perm R R' : Permutation R R' -> disjoint R -> disjoint R'.
Proof.
  assert (Hsym : forall r r', apart r r' -> apart r' r) by (unfold apart; lia).
  induction 1 as [|r R R' HR IH|r r' R|]; cbn [disjoint]; [done| | |naive_solver].
  - intros [Ha Hd]. split; [by rewrite <- HR|auto].
  - rewrite !Forall_cons. naive_solver.
Qed.

Lemma apart_excl r r' a : apart r r' -> inside r a -> ~ inside r' a.
Proof. unfold apart, inside. lia. Qed.

(** ** Blocks in use *)

(** A big block: its descriptor, the order and the address of its pages. *)
Record big := mk_big { bb : Z; order : Z; pages : Z }.

Definition big_regions (g : big) : list (Z * Z) := [(bb g, 16); (pages g, 4096 * 2 ^ order g)].
Definition regions (used : list (Z * Z)) (G : list big) : list (Z * Z) := spans used ++ (G ≫= big_regions).

(** The list from [p] on. *)
Fixpoint big_list (w : gmap Z Z) (p : Z) (G : list big) : Prop :=
  match G with
  | [] => p = 0
  | g :: G => p = bb g /\ w !! p = Some (order g) /\ w !! (p + 4) = Some (pages g) /\
      exists n, w !! (p + 8) = Some n /\ big_list w n G
  end.

(** Its descriptor and its pages are memory, and the pages are allocated. *)
Record big_ok (arena : Z) (s : t) (g : big) : Prop := {
  big_order : 0 <= order g < 31;
  big_placed : placed (W s) (bb g, 2);
  big_aligned : pages g = kva (frame_of (pages g));
  big_frames : forall q, frame_of (pages g) <= q < frame_of (pages g) + 2 ^ order g ->
    frame_ok arena s q /\ PmmSpec.in_use (Pmm.pages (Paging.pmm (kmem s))) q
}.

Record heap (arena : Z) (s : t) (bl l used : list (Z * Z)) (G : list big) : Prop := {
  hp_ok : heap_ok arena s bl l;
  hp_arena : 0 < arena;
  hp_used : Forall (fun x => 2 <= x.2 /\ W s !! x.1 = Some x.2 /\ placed (W s) x) used;
  hp_bigs : big_list (W s) (bigblocks s) G;
  hp_big : Forall (big_ok arena s) G;
  hp_apart : disjoint (regions used G);
  hp_owned : Forall (fun r => arena + 8 < r.1 /\ forall a, inside r a -> ~ avail bl l a) (regions used G)
}.

Lemma big_list_frame w w' p G :
  (forall g, g ∈ G -> forall a, inside (bb g, 16) a -> w' !! a = w !! a) -> big_list w p G -> big_list w' p G.
Proof.
  revert p. induction G as [|g G IH]; intros p Hf; cbn [big_list]; [done|].
  intros (-> & H0 & H4 & n & H8 & Hl).
  assert (Hg : forall k, 0 <= k < 16 -> w' !! (bb g + k) = w !! (bb g + k)).
  { intros k Hk. apply (Hf g); [left|]. unfold inside. cbn. lia. }
  split; [done|]. rewrite !Hg, <- (Z.add_0_r (bb g)), Hg, Z.add_0_r by lia. split_and!; [done..|].
  exists n. split; [done|]. apply IH; [|done]. intros g' Hg'. apply Hf. by right.
Qed.

Lemma regions_big g used G r : g ∈ G -> r ∈ big_regions g -> r ∈ regions used G.
Proof. intros Hg Hr. apply elem_of_app. right. apply list_elem_of_bind. by exists g. Qed.

Lemma regions_used x used G : x ∈ used -> span x ∈ regions used G.
Proof. intros Hx. apply elem_of_app. left. by apply list_elem_of_fmap_2. Qed.

Lemma apart_inside r r' : 0 < r.2 -> 0 < r'.2 -> (forall a, inside r a -> ~ inside r' a) -> apart r r'.
Proof.
  intros H1 H2 H. unfold inside, apart in *. specialize (H (Z.max r.1 r'.1)). lia.
Qed.

(** ** Steps of the heap *)

Section Frame.
  Context (arena : Z) (s : t) (bl l used : list (Z * Z)) (G : list big).
  Context (Hh : heap arena s bl l used G).

Lemma owned_not_avail r a : r ∈ regions used G -> inside r a -> ~ avail bl l a /\ ~ (arena <= a < arena + 8).
Proof using Hh.
  intros Hr Ha. assert (Ho := hp_owned _ _ _ _ _ _ Hh). rewrite Forall_forall in Ho.
  destruct (Ho r Hr) as [H1 H2]. split; [by apply H2|]. unfold inside in Ha. lia.
Qed.

Lemma regions_pos r : r ∈ regions used G -> 0 < r.2.
Proof using Hh.
  intros [[x [-> Hx]]%list_elem_of_fmap|(g & Hr & Hg)%list_elem_of_bind]%elem_of_app.
  - assert (Hu := hp_used _ _ _ _ _ _ Hh). rewrite Forall_forall in Hu. destruct (Hu x Hx) as [? _].
    unfold span, SLOB_UNIT. cbn. lia.
  - assert (Ho := hp_big _ _ _ _ _ _ Hh). rewrite Forall_forall in Ho. destruct (big_order _ _ _ (Ho g Hg)) as [Hog _].
    apply elem_of_cons in Hr as [->|[->|[]%elem_of_nil]%elem_of_cons]; cbn; [lia|].
    assert (0 < 2 ^ order g) by (apply Z.pow_pos_nonneg; lia). lia.
Qed.

Lemma frame_of_kva_eq q : frame_of (kva q) = q.
Proof. apply frame_of_kva. unfold kva. lia. Qed.

(** The frames of a big block are not free. *)
Lemma big_not_free g q : g ∈ G -> frame_of (pages g) <= q < frame_of (pages g) + 2 ^ order g -> ~ PmmSpec.free bl q.
Proof using Hh.
  intros Hg Hq Hf. assert (Hb := hp_big _ _ _ _ _ _ Hh). rewrite Forall_forall in Hb. specialize (Hb g Hg).
  destruct (owned_not_avail (pages g, 4096 * 2 ^ order g) (kva q)) as [Hn _].
  - apply (regions_big g); [done|right; left].
  - unfold inside. cbn. rewrite (big_aligned _ _ _ Hb). unfold kva. lia.
  - apply Hn. right. by rewrite frame_of_kva_eq.
Qed.

Lemma big_ok_keeps s' g :
  touches s s' -> keeps_dom (W s) (W s') ->
  (forall q, ~ PmmSpec.free bl q ->
     Pmm.pages (Paging.pmm (kmem s')) !! q = Pmm.pages (Paging.pmm (kmem s)) !! q) ->
  g ∈ G -> big_ok arena s' g.
Proof using Hh.
  intros Ht Hd Hpm Hg. assert (Hb := hp_big _ _ _ _ _ _ Hh). rewrite Forall_forall in Hb.
  destruct (Hb g Hg) as [H1 H2 H3 H4]. split; [done|by apply (placed_keeps (W s))|done|].
  intros q Hq. destruct (H4 q Hq) as [H5 H6]. split; [by apply (frame_ok_keeps _ s)|].
  unfold PmmSpec.in_use. rewrite Hpm; [done|by apply (big_not_free g)].
Qed.

(** The invariants of the blocks in use, once their bytes are known to stay. *)
Lemma heap_step s' bl' l' used' :
  heap_ok arena s' bl' l' -> touches s s' -> keeps_dom (W s) (W s') ->
  (forall q, ~ PmmSpec.free bl q ->
     Pmm.pages (Paging.pmm (kmem s')) !! q = Pmm.pages (Paging.pmm (kmem s)) !! q) ->
  (forall r a, r ∈ regions used G -> inside r a -> r ∈ regions used' G -> W s' !! a = W s !! a) ->
  Forall (fun x => 2 <= x.2 /\ W s' !! x.1 = Some x.2 /\ placed (W s') x) used' ->
  disjoint (regions used' G) ->
  Forall (fun r => arena + 8 < r.1 /\ forall a, inside r a -> ~ avail bl' l' a) (regions used' G) ->
  heap arena s' bl' l' used' G.
Proof using Hh.
  intros Hok Ht Hd Hpm Hf Hu Hap Hown. assert (Hb := hp_big _ _ _ _ _ _ Hh). rewrite Forall_forall in Hb.
  split; [done|by apply Hh|done| | |done|done].
  - destruct Ht as [_ ->]. apply (big_list_frame (W s)); [|by apply Hh]. intros g Hg a Ha.
    apply (Hf (bb g, 16)); [|done|]; (by apply (regions_big g); [|left]).
  - apply Forall_forall. intros g Hg. by apply big_ok_keeps.
Qed.

Lemma used_keeps s' x :
  x ∈ used -> keeps_dom (W s) (W s') -> (forall a, inside (span x) a -> W s' !! a = W s !! a) ->
  2 <= x.2 /\ W s' !! x.1 = Some x.2 /\ placed (W s') x.
Proof using Hh.
  intros Hx Hd Hf. assert (Hu := hp_used _ _ _ _ _ _ Hh). rewrite Forall_forall in Hu.
  destruct (Hu x Hx) as (H1 & H2 & H3). split; [done|]. split; [|by apply (placed_keeps (W s))].
  rewrite Hf; [done|]. unfold inside, span, SLOB_UNIT. cbn. lia.
Qed.

(** A block was taken from the available bytes. *)
Lemma heap_taken s' bl' l' m u :
  taken arena s bl l s' bl' l' m u -> 2 <= u ->
  heap arena s' bl' l' ((m, u) :: used) G /\
  (forall r a, r ∈ regions used G -> inside r a -> W s' !! a = W s !! a).
Proof using Hh.
  intros [Hok Ht Hpm Hd Hhd Hpl Hab Hwas Hav Hf] Hu.
  assert (Hfr : forall r a, r ∈ regions used G -> inside r a -> W s' !! a = W s !! a).
  { intros r a Hr Ha. destruct (owned_not_avail r a Hr Ha). by apply Hf. }
  split; [|done]. assert (Hown := hp_owned _ _ _ _ _ _ Hh). rewrite Forall_forall in Hown.
  apply heap_step; [done..| | | |].
  - intros r a Hr Ha _. by apply (Hfr r).
  - apply Forall_cons. split; [done|]. apply Forall_forall. intros x Hx. apply used_keeps; [done..|].
    intros a. by apply Hfr, regions_used.
  - split; [|by apply Hh]. apply Forall_forall. intros r Hr.
    apply apart_inside; [unfold span, SLOB_UNIT; cbn; lia|by apply regions_pos|].
    intros a Ha Hra. destruct (Hown r Hr) as [_ Hr']. by apply (Hr' a Hra), Hwas.
  - apply Forall_cons. split.
    + split; [done|]. intros a Ha [_ Hn]%Hav. by apply Hn.
    + apply Forall_forall. intros r Hr. destruct (Hown r Hr) as [H1 H2]. split; [done|]. intros a Ha [Hav' _]%Hav.
      by apply (H2 a).
Qed.

End Frame.

(** A block is given back. *)
Lemma heap_given arena s bl l U1 m u U2 G s' l' :
  heap arena s bl l (U1 ++ (m, u) :: U2) G -> given arena s bl l s' bl l' m u ->
  heap arena s' bl l' (U1 ++ U2) G /\
  (forall r a, r ∈ regions (U1 ++ U2) G -> inside r a -> W s' !! a = W s !! a).
Proof.
  intros Hh [Hok Ht Hpm Hd Hav Hf].
  assert (Hperm : Permutation (regions (U1 ++ (m, u) :: U2) G) (span (m, u) :: regions (U1 ++ U2) G)).
  { unfold regions. rewrite !spans_app. cbn [spans fmap list_fmap]. rewrite <- Permutation_middle. done. }
  assert (Hin : forall r, r ∈ regions (U1 ++ U2) G -> r ∈ regions (U1 ++ (m, u) :: U2) G).
  { intros r Hr. rewrite Hperm. by right. }
  destruct (disjoint_perm _ _ Hperm (hp_apart _ _ _ _ _ _ Hh)) as [Hdm Hdis]. rewrite Forall_forall in Hdm.
  assert (Hown : forall r a, r ∈ regions (U1 ++ U2) G -> inside r a -> ~ avail bl l' a /\ ~ (arena <= a < arena + 8)).
  { intros r a Hr Ha. destruct (owned_not_avail _ _ _ _ _ _ Hh r a (Hin r Hr) Ha) as [H1 H2]. split; [|done].
    intros [?|Hm]%Hav; [done|]. specialize (Hdm r Hr). unfold apart, inside, span, SLOB_UNIT in *. cbn in *. lia. }
  assert (Hfr : forall r a, r ∈ regions (U1 ++ U2) G -> inside r a -> W s' !! a = W s !! a).
  { intros r a Hr Ha. destruct (Hown r a Hr Ha). by apply Hf. }
  split; [|done]. apply (heap_step arena s bl l (U1 ++ (m, u) :: U2) G Hh); [done|done|done|by rewrite Hpm| | |done|].
  - intros r a _ Ha Hr. by apply (Hfr r).
  - apply Forall_forall. intros x Hx. apply (used_keeps arena s bl l (U1 ++ (m, u) :: U2) G Hh); [set_solver|done|].
    intros a. by apply Hfr, regions_used.
  - apply Forall_forall. intros r Hr. assert (Ho := hp_owned _ _ _ _ _ _ Hh). rewrite Forall_forall in Ho.
    split; [by destruct (Ho r (Hin r Hr))|]. intros a Ha. by destruct (Hown r a Hr Ha).
Qed.

(** ** The list of big blocks *)

Lemma disjoint_app R1 R2 : disjoint (R1 ++ R2) -> disjoint R1 /\ disjoint R2.
Proof. induction R1 as [|r R1 IH]; cbn; [done|]. rewrite Forall_app. tauto. Qed.

Lemma bigs_nodup G : disjoint (G ≫= big_regions) -> NoDup (bb <$> G).
Proof.
  induction G as [|g G IH]; cbn; [constructor|]. rewrite !Forall_cons. intros ([_ Ha] & _ & Hd). constructor; [|by apply IH].
  intros [g' [Hbb Hg']]%list_elem_of_fmap. rewrite Forall_forall in Ha. specialize (Ha (bb g', 16)).
  destruct Ha; [apply list_elem_of_bind; exists g'; split; [left|done]|cbn in *; lia..].
Qed.

Lemma bigs_length arena s bl l used G : heap arena s bl l used G -> (length G <= size (W s))%nat.
Proof.
  intros Hh. assert (Hd := hp_apart _ _ _ _ _ _ Hh). apply disjoint_app in Hd as [_ Hd%bigs_nodup].
  rewrite <- (length_fmap bb G), <- size_dom, <- (size_list_to_set (C := gset Z) _ Hd). apply subseteq_size.
  intros a [g [-> Hg]]%elem_of_list_to_set%list_elem_of_fmap. apply elem_of_dom.
  assert (Hb := hp_big _ _ _ _ _ _ Hh). rewrite Forall_forall in Hb.
  by destruct (placed_head _ _ (big_placed _ _ _ (Hb g Hg))).
Qed.

Lemma find_big_none s G block : forall k last p,
  big_list (W s) p G -> Forall (fun g => 0 < bb g /\ pages g <> block) G -> (length G < k)%nat ->
  find_big k last p block s = Ret (None, s).
Proof.
  induction G as [|g G IH]; intros [|k] last p Hl Hno Hk; cbn [length] in Hk; try lia; cbn [find_big].
  - cbn in Hl. by subst p.
  - destruct Hl as (-> & _ & H4 & n & H8 & Hl). apply Forall_cons in Hno as [[Hpos Hne] Hno].
    replace (bb g =? 0) with false by lia. rewrite (bind_Ret _ _ _ _ _ (ld_eq _ _ _ H4)).
    replace (pages g =? block) with false by lia. rewrite (bind_Ret _ _ _ _ _ (ld_eq _ _ _ H8)).
    apply IH; [done..|lia].
Qed.

(** Where the pointer to the block after [G1] is kept. *)
Definition holder (from : option Z) (G1 : list big) : option Z :=
  match last G1 with None => from | Some g => Some (bb g) end.

Lemma find_big_some s G1 g G2 : forall k last p,
  big_list (W s) p (G1 ++ g :: G2) -> Forall (fun h => 0 < bb h) (G1 ++ [g]) ->
  Forall (fun h => pages h <> pages g) G1 -> (length G1 < k)%nat ->
  find_big k last p (pages g) s = Ret (Some (holder last G1, bb g), s).
Proof.
  induction G1 as [|h G1 IH]; intros [|k] last p Hl Hpos Hno Hk; cbn [length] in Hk; try lia; cbn [find_big app] in *;
    destruct Hl as (-> & _ & H4 & n & H8 & Hl); apply Forall_cons in Hpos as [Hp0 Hpos].
  - replace (bb g =? 0) with false by lia. rewrite (bind_Ret _ _ _ _ _ (ld_eq _ _ _ H4)).
    by rewrite Z.eqb_refl.
  - apply Forall_cons in Hno as [Hne Hno]. replace (bb h =? 0) with false by lia.
    rewrite (bind_Ret _ _ _ _ _ (ld_eq _ _ _ H4)). replace (pages h =? pages g) with false by lia.
    rewrite (bind_Ret _ _ _ _ _ (ld_eq _ _ _ H8)). rewrite (IH k (Some (bb h)) n); [|done..|lia].
    unfold holder. destruct G1 as [|h' G1]; [done|]. rewrite last_cons_cons.
    destruct (list.last (h' :: G1)) eqn:Hlast; [done|by apply last_None in Hlast].
Qed.

(** ** The blocks of the clients *)

Definition blocks_of (used : list (Z * Z)) (G : list big) : list (Z * Z) :=
  ((fun x => (x.1 + 8, 8 * x.2 - 8)) <$> used) ++ ((fun g => (pages g, 4096 * 2 ^ order g)) <$> G).

(** Every block of a client lies in a region. *)
Lemma blocks_regions used G b a :
  b ∈ blocks_of used G -> inside b a -> exists r, r ∈ regions used G /\ inside r a.
Proof.
  intros [[x [-> Hx]]%list_elem_of_fmap|[g [-> Hg]]%list_elem_of_fmap]%elem_of_app Ha.
  - exists (span x). split; [by apply regions_used|]. unfold inside, span, SLOB_UNIT in *. cbn in *. lia.
  - exists (pages g, 4096 * 2 ^ order g). split; [|done]. apply (regions_big g); [done|right; left].
Qed.

(** The words of the blocks of the clients are the same. *)
Definition contents (used : list (Z * Z)) (G : list big) (s s' : t) : Prop :=
  forall b a, b ∈ blocks_of used G -> inside b a -> W s' !! a = W s !! a.

Lemma contents_regions used G s s' :
  (forall r a, r ∈ regions used G -> inside r a -> W s' !! a = W s !! a) -> contents used G s s'.
Proof. intros Hr b a Hb Ha. destruct (blocks_regions _ _ _ _ Hb Ha) as (r & H1 & H2). by apply (Hr r). Qed.

Lemma disjoint_cross R1 R2 r1 r2 : disjoint (R1 ++ R2) -> r1 ∈ R1 -> r2 ∈ R2 -> apart r1 r2.
Proof.
  induction R1 as [|r R1 IH]; cbn; [set_solver|]. rewrite Forall_app, !Forall_forall.
  intros [[_ Ha] Hd] [->|Hr1]%elem_of_cons Hr2; auto.
Qed.

(** The bytes of the heap: those it can give out and those in use. *)
Definition held (bl l used : list (Z * Z)) (G : list big) (a : Z) : Prop :=
  avail bl l a \/ exists r, r ∈ regions used G /\ inside r a.

(** The regions [R] are no longer in use, and their bytes are available. *)
Lemma held_given bl l used G bl' l' used' G' R :
  Permutation (regions used G) (R ++ regions used' G') ->
  (forall a, avail bl' l' a <-> avail bl l a \/ exists r, r ∈ R /\ inside r a) ->
  forall a, held bl' l' used' G' a <-> held bl l used G a.
Proof.
  intros HR Hav a. unfold held. rewrite Hav.
  assert (Hin : forall r, r ∈ regions used G <-> r ∈ R \/ r ∈ regions used' G') by (intros r; by rewrite HR, elem_of_app).
  setoid_rewrite Hin. split.
  - intros [[Ha|(r & Hr & Ha)]|(r & Hr & Ha)]; eauto 6.
  - intros [Ha|(r & [Hr|Hr] & Ha)]; eauto 6.
Qed.

(** Bytes that were available are those of the regions [R] in use now. *)
Lemma held_taken bl l used G bl' l' used' G' R :
  Permutation (regions used' G') (R ++ regions used G) ->
  (forall a, avail bl l a <-> avail bl' l' a \/ exists r, r ∈ R /\ inside r a) ->
  forall a, held bl' l' used' G' a <-> held bl l used G a.
Proof. intros HR Hav a. symmetry. by apply (held_given _ _ _ _ _ _ _ _ R). Qed.

Lemma in_one (r : Z * Z) a : (exists r', r' ∈ [r] /\ inside r' a) <-> inside r a.
Proof.
  split; [by intros (r' & ->%list_elem_of_singleton & Ha)|]. intros Ha. exists r. by split; [left|].
Qed.
Lemma in_two (r1 r2 : Z * Z) a : (exists r', r' ∈ [r1; r2] /\ inside r' a) <-> inside r1 a \/ inside r2 a.
Proof.
  split.
  - intros (r' & [->| ->%list_elem_of_singleton]%elem_of_cons & Ha); auto.
  - intros [Ha|Ha]; [exists r1|exists r2]; (split; [|done]); set_solver.
Qed.

Lemma taken_held arena s bl l used G s' bl' l' m u :
  taken arena s bl l s' bl' l' m u -> forall a, held bl' l' ((m, u) :: used) G a <-> held bl l used G a.
Proof.
  intros Ht. apply (held_taken _ _ _ _ _ _ _ _ [span (m, u)]); [done|]. intros a. rewrite in_one, (tk_avail _ _ _ _ _ _ _ _ _ Ht).
  assert (Hw := tk_was _ _ _ _ _ _ _ _ _ Ht a). unfold inside, span, SLOB_UNIT. cbn [fst snd].
  destruct (decide (m <= a < m + 8 * u)); naive_solver.
Qed.

Lemma given_held arena s bl l U1 m u U2 G s' l' :
  given arena s bl l s' bl l' m u -> forall a, held bl l' (U1 ++ U2) G a <-> held bl l (U1 ++ (m, u) :: U2) G a.
Proof.
  intros Hg. apply (held_given _ _ _ _ _ _ _ _ [span (m, u)]).
  - unfold regions. rewrite !spans_app. cbn [spans fmap list_fmap]. by rewrite <- Permutation_middle.
  - intros a. by rewrite in_one, (gv_avail _ _ _ _ _ _ _ _ _ Hg).
Qed.

(** The room of a block of [n] bytes: of a big one, what [find_order] says. *)
Definition room (n sz : Z) : Prop := if n <? 4088 then n <= sz else sz = 4096 * 2 ^ find_order n.

(** What an allocation may return. *)
Definition allocated (arena : Z) (s : t) (bl l used : list (Z * Z)) (G : list big) (n p : Z) (s' : t) : Prop :=
  contents used G s s' /\
  if decide (p = 0) then exists bl' l', heap arena s' bl' l' used G /\
    forall a, held bl' l' used G a <-> held bl l used G a
  else exists bl' l' used' G' sz, heap arena s' bl' l' used' G' /\ room n sz /\
    Permutation (blocks_of used' G') ((p, sz) :: blocks_of used G) /\
    forall a, held bl' l' used' G' a <-> held bl l used G a.

Section Small.
  Context (arena : Z) (s : t) (bl l used : list (Z * Z)) (G : list big).
  Context (Hh : heap arena s bl l used G).

Lemma kmalloc_small n : 0 < n < 4080 -> exists p s', kmalloc n s = Ret (p, s') /\ allocated arena s bl l used G n p s'.
Proof using Hh.
  intros Hn. unfold kmalloc, __kmalloc, PAGE_SIZE, SLOB_UNIT. replace (n <? 4096 - 8) with true by lia.
  destruct (slob_alloc_eq arena s bl l (n + 8)) as [(Hrun & _)|(m & s' & bl' & l' & Hrun & Htk)]; [apply Hh|lia|..];
    rewrite (bind_Ret _ _ _ _ _ Hrun).
  - exists 0, s. split; [done|]. split; [done|]. rewrite decide_True by done. by exists bl, l.
  - assert (Hm : arena + 8 < m) by apply Htk. assert (Har := hp_arena _ _ _ _ _ _ Hh).
    replace (m =? 0) with false by lia. exists (m + 8), s'. split; [done|].
    assert (Hu : 2 <= SLOB_UNITS (n + 8) /\ n + 8 <= 8 * SLOB_UNITS (n + 8)) by (unfold SLOB_UNITS, SLOB_UNIT; width).
    destruct (heap_taken _ _ _ _ _ _ Hh _ _ _ _ _ Htk (proj1 Hu)) as [Hh' Hf]. split; [by apply contents_regions|].
    rewrite decide_False by lia. exists bl', l', ((m, SLOB_UNITS (n + 8)) :: used), G, (8 * SLOB_UNITS (n + 8) - 8).
    split; [done|]. split; [|split; [done|by apply (taken_held _ _ _ _ _ _ _ _ _ _ _ Htk)]].
    unfold room. replace (n <? 4088) with true by lia. lia.
Qed.

Lemma used_not_big x g : x ∈ used -> g ∈ G -> pages g <> x.1 + 8.
Proof using Hh.
  intros Hx Hg He. assert (Hu := hp_used _ _ _ _ _ _ Hh). rewrite Forall_forall in Hu. destruct (Hu x Hx) as [Hx2 _].
  assert (Ha := disjoint_cross _ _ (span x) (pages g, 4096 * 2 ^ order g) (hp_apart _ _ _ _ _ _ Hh)).
  destruct Ha as [Ha|Ha].
  - by apply list_elem_of_fmap_2.
  - apply list_elem_of_bind. exists g. split; [right; left|done].
  - unfold span, SLOB_UNIT in Ha. cbn in Ha. lia.
  - unfold span in Ha. cbn in Ha. assert (Hb := hp_big _ _ _ _ _ _ Hh). rewrite Forall_forall in Hb.
    destruct (big_order _ _ _ (Hb g Hg)). assert (0 < 2 ^ order g) by (apply Z.pow_pos_nonneg; lia). lia.
Qed.

Lemma bigs_pos : Forall (fun g => 0 < bb g) G.
Proof using Hh.
  eapply Forall_impl; [apply (hp_big _ _ _ _ _ _ Hh)|]. intros g Hg. by destruct (big_placed _ _ _ Hg) as [? _].
Qed.

Lemma kfree_small U1 x U2 :
  used = U1 ++ x :: U2 ->
  exists s' l', kfree (x.1 + 8) s = Ret (tt, s') /\ heap arena s' bl l' (U1 ++ U2) G /\ contents (U1 ++ U2) G s s' /\
    (forall a, inside (span x) a -> avail bl l' a) /\ forall a, held bl l' (U1 ++ U2) G a <-> held bl l used G a.
Proof using Hh.
  intros HU. assert (Hx : x ∈ used) by (rewrite HU; set_solver).
  assert (Hu := hp_used _ _ _ _ _ _ Hh). rewrite Forall_forall in Hu. destruct (Hu x Hx) as (Hx2 & Hhd & Hpl).
  assert (Hr := regions_used x used G Hx).
  assert (Ho := hp_owned _ _ _ _ _ _ Hh). rewrite Forall_forall in Ho. destruct (Ho _ Hr) as [Hlow Hna].
  assert (Har := hp_arena _ _ _ _ _ _ Hh). cbn in Hlow.
  destruct (free_heap arena s bl l x 0) as (s' & l' & Hrun & Hgv & _); [apply Hh|done|lia|done|by intros a; apply (Hna a)|done|].
  assert (Hh' := Hh). rewrite HU in Hh'. destruct x as [m u]. cbn [fst snd] in *.
  destruct (heap_given _ _ _ _ _ _ _ _ _ _ _ Hh' Hgv) as [Hnew Hf]. exists s', l'.
  split; [|split; [done|split; [by apply contents_regions|split]]].
  2: { intros a Ha. apply (gv_avail _ _ _ _ _ _ _ _ _ Hgv). by right. }
  2: { rewrite HU. by apply (given_held _ _ _ _ _ _ _ _ _ _ _ Hgv). }
  unfold kfree. replace (m + 8 =? 0) with false by lia. rewrite (bind_Ret _ _ s s s) by done.
  assert (Hnone : (if Z.land (m + 8) (PAGE_SIZE - 1) =? 0 then find_big (ring_fuel s) None (bigblocks s) (m + 8)
                   else mret None) s = Ret (None, s)).
  { destruct (_ =? 0); [|done]. apply (find_big_none s G); [apply Hh| |].
    - assert (Hp := bigs_pos). rewrite Forall_forall in *. intros g Hg. split; [by apply Hp|by apply (used_not_big (m, u))].
    - unfold ring_fuel. fold (W s). apply Nat.lt_succ_r, (bigs_length _ _ _ _ _ _ Hh). }
  rewrite (bind_Ret _ _ _ _ _ Hnone). unfold SLOB_UNIT. by replace (m + 8 - 8) with m by lia.
Qed.

End Small.

(** ** Big blocks *)

Lemma order_loop_range j k : forall n o,
  n < 2 ^ (12 + Z.of_nat k) -> o <= order_loop (S k + j) n o <= o + Z.of_nat k.
Proof.
  induction k as [|k IH]; intros n o Hn.
  - cbn [Nat.add order_loop]. change (2 ^ (12 + Z.of_nat 0)) with 4096 in Hn. replace (4096 <? n) with false by lia. lia.
  - change (order_loop (S (S k) + j) n o) with (if 4096 <? n then order_loop (S k + j) (n ≫ 1) (o + 1) else o).
    destruct (4096 <? n); [|lia]. specialize (IH (n ≫ 1) (o + 1)).
    rewrite Z.shiftr_div_pow2 in * by lia. change (2 ^ 1) with 2 in *.
    replace (12 + Z.of_nat (S k)) with (Z.succ (12 + Z.of_nat k)) in Hn by lia. rewrite Z.pow_succ_r in Hn by lia.
    assert (n `div` 2 < 2 ^ (12 + Z.of_nat k)) by (apply Z.div_lt_upper_bound; lia). lia.
Qed.

Lemma find_order_range n : n < 2 ^ 31 -> 0 <= find_order n < 31.
Proof. intros Hn. assert (H := order_loop_range 12 19 n 0 Hn). unfold find_order. cbn [Nat.add] in H. lia. Qed.

(** Writes outside the ring do not matter to it. *)
Lemma heap_ok_words arena s bl l w' :
  heap_ok arena s bl l -> keeps_dom (W s) w' -> (forall a, bytes ((arena, 1) :: l) a -> w' !! a = W s !! a) ->
  heap_ok arena (with_words w' s) bl l.
Proof.
  intros [Hrep Hring Hcur Hfr Hap Hsw] Hd Hf. split; try done.
  - apply (ring_agree (W s)); [done| |done]. apply Forall_forall. intros x Hx. assert (Hp := ring_pos _ _ _ Hring Hx).
    split; apply Hf, (bytes_elem _ x); (done || lia).
  - intros q Hq. apply (frame_ok_keeps _ s); [by destruct s as [[] ? ?]|done|by apply Hfr].
Qed.

Section Big.
  Context (arena : Z) (s : t) (bl l used : list (Z * Z)) (G : list big) (m o : Z).
  Context (Hh : heap arena s bl l ((m, 2) :: used) G) (Ho : 0 <= o < 31).

(** The words of the descriptor, once it is filled in. *)
Definition described (pg nx : Z) : gmap Z Z := <[m + 8 := nx]> (<[m + 4 := pg]> (<[m := o]> (W s))).

Lemma desc_region : (m, 16) ∈ regions ((m, 2) :: used) G.
Proof. apply (regions_used (m, 2)). left. Qed.

Lemma desc_placed : placed (W s) (m, 2).
Proof using Hh. assert (Hu := hp_used _ _ _ _ _ _ Hh). by apply Forall_cons in Hu as [(_ & _ & ?) _]. Qed.

Lemma desc_mapped : is_Some (W s !! m) /\ is_Some (W s !! (m + 4)) /\ is_Some (W s !! (m + 8)).
Proof using Hh.
  destruct desc_placed as (_ & _ & Hk). unfold SLOB_UNIT in Hk. cbn in Hk. destruct (Hk 0 ltac:(lia)) as [H0 H4].
  destruct (Hk 1 ltac:(lia)) as [H8 _]. by rewrite Z.mul_0_r, Z.add_0_r in H0, H4.
Qed.

Lemma described_dom pg nx : keeps_dom (W s) (described pg nx).
Proof using Hh. destruct desc_mapped as (? & ? & ?). by repeat apply keeps_dom_insert. Qed.

Lemma described_frame pg nx a : ~ inside (m, 16) a -> described pg nx !! a = W s !! a.
Proof. unfold inside, described. cbn. intros Ha. by rewrite !lookup_insert_ne by lia. Qed.

Lemma desc_not_ring a : bytes ((arena, 1) :: l) a -> ~ inside (m, 16) a.
Proof using Hh.
  intros Hb Ha. destruct (owned_not_avail _ _ _ _ _ _ Hh _ _ desc_region Ha) as [Hn Hna].
  apply bytes_cons in Hb as [Hb|Hb]; [cbn in Hb; lia|]. apply Hn. by left.
Qed.

Lemma described_ok pg nx : heap_ok arena (with_words (described pg nx) s) bl l.
Proof using Hh.
  apply heap_ok_words; [apply Hh|apply described_dom|]. intros a Ha. by apply described_frame, desc_not_ring.
Qed.

Context (q : Z) (pm : Pmm.t) (bl' : list (Z * Z)).
Context (Hin : forall r, q <= r < q + 2 ^ o -> PmmSpec.free bl r /\ PmmSpec.in_use (Pmm.pages pm) r).
Context (Hrep : PmmSpec.rep 1 pm bl').
Context (Hfree : forall r, PmmSpec.free bl' r <-> PmmSpec.free bl r /\ ~ (q <= r < q + 2 ^ o)).
Context (Hkeep : forall r, ~ PmmSpec.free bl r -> Pmm.pages pm !! r = Pmm.pages (Paging.pmm (kmem s)) !! r).

Definition big_state : t :=
  set_bigblocks m (set_pmm pm (with_words (described (kva q) (bigblocks s)) s)).
Definition new_big : big := mk_big m o (kva q).

Lemma big_page a : inside (kva q, 4096 * 2 ^ o) a <-> q <= frame_of a < q + 2 ^ o.
Proof. unfold inside, kva, frame_of, Paging.KERNBASE. cbn. width. Qed.

Lemma big_regions_perm :
  Permutation (regions used (new_big :: G)) ((kva q, 4096 * 2 ^ o) :: regions ((m, 2) :: used) G).
Proof.
  unfold regions. cbn [spans fmap list_fmap mbind list_bind big_regions new_big bb order pages app].
  change (span (m, 2)) with (m, 16). fold (spans used).
  rewrite <- Permutation_middle. rewrite perm_swap. constructor. by rewrite <- Permutation_middle.
Qed.

Lemma big_disjoint : disjoint (regions used (new_big :: G)).
Proof using Hh Ho Hin.
  eapply disjoint_perm; [symmetry; apply big_regions_perm|]. split; [|apply Hh].
  apply Forall_forall. intros r Hr. assert (0 < 2 ^ o) by (apply Z.pow_pos_nonneg; lia).
  apply apart_inside; [cbn; lia|by apply (regions_pos _ _ _ _ _ _ Hh)|]. intros a Ha%big_page Hra.
  destruct (owned_not_avail _ _ _ _ _ _ Hh r a Hr Hra) as [Hn _]. apply Hn. right. by apply Hin.
Qed.

Lemma big_owned :
  Forall (fun r => arena + 8 < r.1 /\ forall a, inside r a -> ~ avail bl' l a) (regions used (new_big :: G)).
Proof using Hh Ho Hin Hfree.
  rewrite big_regions_perm. apply Forall_cons. assert (H2 : 0 < 2 ^ o) by (apply Z.pow_pos_nonneg; lia).
  destruct (hp_ok _ _ _ _ _ _ Hh) as [_ _ _ Hfr Hap _]. split.
  - split; [by destruct (Hfr q (proj1 (Hin q ltac:(lia)))) as (_ & ? & _)|].
    intros a Ha%big_page [Hl|[_ Hn]%Hfree]; [|done]. apply (Hap a Hl). by apply Hin.
  - eapply Forall_impl; [apply (hp_owned _ _ _ _ _ _ Hh)|]. intros r [H1 Hr]. split; [done|].
    intros a Ha [Hl|[Hf _]%Hfree]; apply (Hr a Ha); [by left|by right].
Qed.

Lemma desc_apart r a : r ∈ regions used G -> inside r a -> ~ inside (m, 16) a.
Proof using Hh.
  intros Hr Ha Hm. assert (Hd := hp_apart _ _ _ _ _ _ Hh). destruct Hd as [Hd _]. rewrite Forall_forall in Hd.
  specialize (Hd r Hr). unfold apart, inside, span, SLOB_UNIT in *. cbn in *. lia.
Qed.

Lemma big_touches : touches s (set_pmm pm (with_words (described (kva q) (bigblocks s)) s)).
Proof. by split. Qed.

Lemma big_new_ok : big_ok arena big_state new_big.
Proof using Hh Ho Hin.
  assert (Hd := described_dom (kva q) (bigblocks s)).
  split; [done|by apply (placed_keeps (W s)), desc_placed|cbn; by rewrite frame_of_kva_eq|].
  cbn [pages order new_big]. rewrite frame_of_kva_eq. intros r Hr. destruct (Hin r Hr) as [Hf Hu]. split; [|done].
  exact (frame_ok_keeps arena s _ r big_touches Hd (hk_frames _ _ _ _ (hp_ok _ _ _ _ _ _ Hh) r Hf)).
Qed.

Lemma big_heap :
  heap arena big_state bl' l used (new_big :: G) /\
  (forall r a, r ∈ regions used G -> inside r a -> W big_state !! a = W s !! a).
Proof using Hh Ho Hin Hrep Hfree Hkeep.
  assert (Hd := described_dom (kva q) (bigblocks s)).
  assert (Hf : forall r a, r ∈ regions used G -> inside r a -> W big_state !! a = W s !! a).
  { intros r a Hr Ha. by apply described_frame, (desc_apart r). }
  split; [|done]. split; [|apply Hh| | | |apply big_disjoint|apply big_owned].
  - assert (Hok := heap_ok_frames _ _ _ _ _ _ (described_ok (kva q) (bigblocks s)) Hrep ltac:(by intros r [? _]%Hfree)).
    by destruct Hok as [H1 H2 H3 H4 H5 H6].
  - apply Forall_forall. intros x Hx. apply (used_keeps _ _ _ _ _ _ Hh); [by right|done|].
    intros a. by apply Hf, regions_used.
  - cbn [big_list new_big bb order pages]. assert (Hw : W big_state = described (kva q) (bigblocks s)) by done.
    rewrite Hw. unfold described at 1 2 3. change (bigblocks big_state) with m. split; [done|].
    split; [by rewrite lookup_insert_ne, lookup_insert_ne, lookup_insert_eq by lia|].
    split; [by rewrite lookup_insert_ne, lookup_insert_eq by lia|]. exists (bigblocks s). split; [by rewrite lookup_insert_eq|].
    apply (big_list_frame (W s)); [|apply Hh]. intros g Hg a Ha. rewrite <- Hw. apply (Hf (bb g, 16)); [|done].
    by apply (regions_big g); [|left].
  - apply Forall_cons. split; [apply big_new_ok|]. apply Forall_forall. intros g Hg.
    assert (Hb := big_ok_keeps _ _ _ _ _ _ Hh _ g big_touches Hd Hkeep Hg). by destruct Hb as [H1 H2 H3 H4].
Qed.

End Big.

(** The descriptor goes back when there are no pages. *)
Lemma given_from arena s s1 bl l s' l' m w' :
  given arena s1 bl l s' bl l' m 2 -> s1 = with_words w' s -> keeps_dom (W s) w' ->
  (forall a, ~ inside (m, 16) a -> w' !! a = W s !! a) -> given arena s bl l s' bl l' m 2.
Proof.
  intros [Hok Ht Hpm Hd Hav Hf] -> Hd' Hf'. split; try done.
  - intros a. by rewrite (Hd' a).
  - intros a Ha Har. rewrite Hf by done. apply Hf'. intros Hm. apply Ha, Hav. right. unfold inside in Hm. cbn in Hm. lia.
Qed.

(** After the call for pages: [pg] is what it returned. *)
Definition big_finish (m pg : Z) : M t Z :=
  st (m + 4) pg;;
  if negb (pg =? 0) then
    s ← get;
    st (m + 8) (bigblocks s);;
    modify (set_bigblocks m);;
    mret pg
  else slob_free m sizeof_bigblock;; mret 0.

Section Finish.
  Context (arena : Z) (s : t) (bl l used : list (Z * Z)) (G : list big) (m o : Z).
  Context (Hh : heap arena s bl l ((m, 2) :: used) G).
Let w2 := <[m := o]> (W s).

Lemma finish_mapped k : k = 4 \/ k = 8 -> is_Some (w2 !! (m + k)).
Proof using Hh.
  intros Hk. destruct (desc_mapped _ _ _ _ _ _ _ Hh) as (_ & H4 & H8). unfold w2. rewrite lookup_insert_ne by lia.
  by destruct Hk as [-> | ->].
Qed.

Lemma finish_fail : exists s' l', big_finish m 0 (with_words w2 s) = Ret (0, s') /\
  heap arena s' bl l' used G /\ (forall r a, r ∈ regions used G -> inside r a -> W s' !! a = W s !! a) /\
  forall a, held bl l' used G a <-> held bl l ((m, 2) :: used) G a.
Proof using Hh.
  destruct (desc_mapped _ _ _ _ _ _ _ Hh) as (Hm0 & Hm4 & _).
  set (w3 := <[m + 4 := 0]> w2). unfold big_finish. rewrite (bind_Ret _ _ _ _ _ (st_eq (with_words w2 s) _ 0 (finish_mapped 4 ltac:(auto)))).
  rewrite with_words_twice. change (W (with_words w2 s)) with w2. fold w3. cbn [Z.eqb negb].
  assert (Hd : keeps_dom (W s) w3) by (by repeat apply keeps_dom_insert).
  assert (Hf3 : forall a, ~ inside (m, 16) a -> w3 !! a = W s !! a).
  { unfold inside, w3, w2. cbn. intros a Ha. by rewrite !lookup_insert_ne by lia. }
  destruct (free_heap arena (with_words w3 s) bl l (m, 2) sizeof_bigblock) as (s' & l' & Hrun & Hgv & _); try done.
  - apply heap_ok_words; [apply Hh|done|]. intros a Ha. by apply Hf3, (desc_not_ring _ _ _ _ _ _ _ Hh).
  - by apply (placed_keeps (W s)), (desc_placed _ _ _ _ _ _ _ Hh).
  - assert (Ho := hp_owned _ _ _ _ _ _ Hh). by apply Forall_cons in Ho as [[? _] _].
  - intros a Ha. by destruct (owned_not_avail _ _ _ _ _ _ Hh (m, 16) a (desc_region used G m) Ha).
  - apply (given_from _ s _ _ _ _ _ _ w3) in Hgv; [|done..].
    destruct (heap_given arena s bl l [] m 2 used G s' l' Hh Hgv) as [Hh' Hf].
    exists s', l'. rewrite (bind_Ret _ _ _ _ _ Hrun). split_and!; [done..|].
    by apply (given_held _ _ _ _ [] _ _ _ _ _ _ Hgv).
Qed.

Lemma finish_done pm pg :
  pg <> 0 -> big_finish m pg (set_pmm pm (with_words w2 s)) =
    Ret (pg, set_bigblocks m (set_pmm pm (with_words (described s m o pg (bigblocks s)) s))).
Proof using Hh.
  intros Hpg. unfold big_finish. set (s2 := set_pmm pm (with_words w2 s)).
  rewrite (bind_Ret _ _ _ _ _ (st_eq s2 _ pg (finish_mapped 4 ltac:(auto)))). change (W s2) with w2.
  apply Z.eqb_neq in Hpg. rewrite Hpg. cbn [negb]. set (s3 := with_words _ s2). rewrite (bind_Ret _ _ s3 s3 s3) by done.
  assert (H8 : is_Some (W s3 !! (m + 8))).
  { change (W s3) with (<[m + 4 := pg]> w2). rewrite lookup_insert_ne by lia. apply finish_mapped. auto. }
  by rewrite (bind_Ret _ _ _ _ _ (st_eq s3 _ _ H8)).
Qed.

End Finish.

Lemma kmalloc_big arena s bl l used G n :
  heap arena s bl l used G -> 4088 <= n < 2 ^ 31 ->
  exists p s', kmalloc n s = Ret (p, s') /\ allocated arena s bl l used G n p s'.
Proof.
  intros Hh Hn. unfold kmalloc, __kmalloc, PAGE_SIZE, SLOB_UNIT. replace (n <? 4096 - 8) with false by lia.
  rewrite s32_id by width. assert (Ho := find_order_range n ltac:(lia)). set (o := find_order n) in *.
  destruct (slob_alloc_eq arena s bl l sizeof_bigblock) as [(Hrun & _)|(m & s1 & bl1 & l1 & Hrun & Htk)]; [apply Hh|done|..];
    rewrite (bind_Ret _ _ _ _ _ Hrun).
  { exists 0, s. split; [done|]. split; [done|]. rewrite decide_True by done. by exists bl, l. }
  change (SLOB_UNITS sizeof_bigblock) with 2 in Htk.
  destruct (heap_taken _ _ _ _ _ _ Hh _ _ _ _ _ Htk ltac:(lia)) as [Hh1 Hf1].
  assert (Hm : arena + 8 < m) by apply Htk. assert (Har := hp_arena _ _ _ _ _ _ Hh).
  destruct (desc_mapped _ _ _ _ _ _ _ Hh1) as (Hm0 & _).
  replace (m =? 0) with false by lia. rewrite (bind_Ret _ _ _ _ _ (st_eq s1 m o Hm0)).
  set (w2 := <[m := o]> (W s1)). set (s2 := with_words w2 s1).
  rewrite (bind_Ret _ _ s2 o s2 (ld_eq s2 m o ltac:(apply lookup_insert_eq))).
  assert (Hok2 : heap_ok arena s2 bl1 l1).
  { apply heap_ok_words; [apply Hh1|by apply keeps_dom_insert|]. intros a Ha. apply lookup_insert_ne. intros <-.
    apply (desc_not_ring _ _ _ _ _ _ _ Hh1 _ Ha). unfold inside. cbn. lia. }
  destruct (get_pages_eq _ _ _ _ o Hok2) as [[_ Hget]|(q & pm & bl' & Hget & Hin & Hrep & Hfree & Hkeep)]; [lia|..];
    rewrite (bind_Ret _ _ _ _ _ Hget).
  - destruct (finish_fail _ _ _ _ _ _ _ o Hh1) as (s' & l' & Hfin & Hh' & Hf & Hheld). exists 0, s'. split; [exact Hfin|].
    split; [apply contents_regions; intros r a Hr Ha; by rewrite (Hf r), (Hf1 r)|].
    rewrite decide_True by done. exists bl1, l'. split; [done|]. intros a. by rewrite Hheld, (taken_held _ _ _ _ _ _ _ _ _ _ _ Htk).
  - assert (Hq : kva q <> 0).
    { assert (0 < 2 ^ o) by (apply Z.pow_pos_nonneg; lia). destruct (Hin q ltac:(lia)) as [Hq _].
      destruct (hk_frames _ _ _ _ Hok2 q Hq) as (_ & _ & [? _]). cbn in *. lia. }
    destruct (big_heap _ _ _ _ _ _ _ o Hh1 Ho q pm bl' Hin Hrep Hfree Hkeep) as [Hh' Hf].
    exists (kva q), (big_state s1 m o q pm). split; [by apply (finish_done _ _ _ _ _ _ _ _ Hh1)|].
    split; [apply contents_regions; intros r a Hr Ha; by rewrite (Hf r), (Hf1 r)|]. rewrite decide_False by done.
    exists bl', l1, used, (new_big m o q :: G), (4096 * 2 ^ o). split; [done|].
    unfold room. replace (n <? 4088) with false by lia. split; [done|]. split.
    { unfold blocks_of. cbn [fmap list_fmap]. by rewrite <- Permutation_middle. }
    intros a. rewrite <- (taken_held _ _ _ _ used G _ _ _ _ _ Htk). revert a.
    apply (held_taken _ _ _ _ _ _ _ _ [(kva q, 4096 * 2 ^ o)]); [apply big_regions_perm|]. intros a.
    rewrite in_one, (big_page o Ho). unfold avail. rewrite Hfree. assert (Hq1 := fun H => proj1 (Hin (frame_of a) H)).
    destruct (decide (q <= frame_of a < q + 2 ^ o)); naive_solver.
Qed.

(** ** Releasing a big block *)

(** The list from [p] to [q]. *)
Fixpoint big_seg (w : gmap Z Z) (p : Z) (G : list big) (q : Z) : Prop :=
  match G with
  | [] => p = q
  | g :: G => p = bb g /\ w !! p = Some (order g) /\ w !! (p + 4) = Some (pages g) /\
      exists n, w !! (p + 8) = Some n /\ big_seg w n G q
  end.

Lemma big_list_app w p G1 G2 : big_list w p (G1 ++ G2) <-> exists q, big_seg w p G1 q /\ big_list w q G2.
Proof.
  revert p. induction G1 as [|g G1 IH]; intros p; cbn [big_list big_seg app]; [naive_solver|].
  setoid_rewrite IH. naive_solver.
Qed.

(** The link of the last block of a segment can be turned elsewhere. *)
Lemma big_seg_turn w p G1 h q q' :
  NoDup (bb <$> (G1 ++ [h])) -> disjoint ((G1 ++ [h]) ≫= big_regions) ->
  big_seg w p (G1 ++ [h]) q -> big_seg (<[bb h + 8 := q']> w) p (G1 ++ [h]) q'.
Proof.
  intros Hn Hd. revert p Hn Hd. induction G1 as [|g G1 IH]; intros p Hn Hd; cbn [app big_seg].
  - intros (-> & H0 & H4 & n & H8 & <-). rewrite !lookup_insert_ne, lookup_insert_eq by lia. naive_solver.
  - intros (-> & H0 & H4 & n & H8 & Hs). cbn in Hd. destruct Hd as (Ha & _ & Hd). apply Forall_cons in Ha as [_ Ha].
    assert (Hgh : apart (bb g, 16) (bb h, 16)).
    { rewrite Forall_forall in Ha. apply Ha, list_elem_of_bind. exists h. split; [left|set_solver]. }
    unfold apart in Hgh. cbn in Hgh, Hn. apply NoDup_cons in Hn as [_ Hn].
    rewrite !lookup_insert_ne by lia. split_and!; [done..|]. exists n. split; [done|]. by apply IH.
Qed.

(** Pages and descriptors of big blocks are apart. *)
Lemma big_desc_apart G g h :
  disjoint (G ≫= big_regions) -> g ∈ G -> h ∈ G -> apart (bb h, 16) (pages g, 4096 * 2 ^ order g).
Proof.
  assert (Hsym : forall r r', apart r r' -> apart r' r) by (unfold apart; lia).
  assert (Hin : forall g G r, g ∈ G -> r ∈ big_regions g -> r ∈ G ≫= big_regions) by (intros; apply list_elem_of_bind; eauto).
  induction G as [|k G IH]; cbn [mbind list_bind]; [set_solver|].
  cbn [big_regions app disjoint]. rewrite Forall_cons, !Forall_forall. intros ([H12 H1] & H2 & Hd).
  intros [->|Hg]%elem_of_cons [->|Hh]%elem_of_cons; [done|..|by apply IH].
  - apply Hsym, H2, (Hin h); [done|left].
  - apply H1, (Hin g); [done|right; left].
Qed.

(** The clients' bytes are not those of a descriptor. *)
Lemma span_desc used G x h a :
  disjoint (regions used G) -> x ∈ used -> h ∈ G -> inside (span x) a -> ~ inside (bb h, 16) a.
Proof.
  intros Hd Hx Hh. apply apart_excl, (disjoint_cross _ _ _ _ Hd); [by apply list_elem_of_fmap_2|].
  apply list_elem_of_bind. exists h. split; [left|done].
Qed.

Lemma blocks_desc used G b h a :
  disjoint (regions used G) -> b ∈ blocks_of used G -> h ∈ G -> inside b a -> ~ inside (bb h, 16) a.
Proof.
  intros Hd [[x [-> Hx]]%list_elem_of_fmap|[k [-> Hk]]%list_elem_of_fmap]%elem_of_app Hh Ha.
  - apply (span_desc used G x); [done..|]. unfold inside, span, SLOB_UNIT in *. cbn in *. lia.
  - apply disjoint_app in Hd as [_ Hd]. intros Hi. by apply (apart_excl _ _ a (big_desc_apart G k h Hd Hk Hh)).
Qed.

(** A set of frames below [hi] has at most so many. *)
Lemma sep_total g bl lo hi :
  0 <= g -> PmmSpec.sep g bl -> lo <= hi -> (forall q, PmmSpec.free bl q -> lo <= q < hi) -> PmmSpec.total bl <= hi - lo.
Proof.
  intros Hg. revert lo. induction bl as [|x bl IH]; intros lo Hs Hlh Hf; cbn; [lia|].
  destruct Hs as (Hx & Ha & Hs). assert (Hxl : lo <= x.1 < hi).
  { apply Hf, PmmSpec.free_cons. left. unfold PmmSpec.covers. lia. }
  assert (Hxh : lo <= x.1 + x.2 - 1 < hi).
  { apply Hf, PmmSpec.free_cons. left. unfold PmmSpec.covers. lia. }
  specialize (IH (x.1 + x.2) Hs ltac:(lia)). enough (PmmSpec.total bl <= hi - (x.1 + x.2)) by (unfold PmmSpec.total in *; lia).
  apply IH. intros q (y & Hy & Hc). rewrite Forall_forall in Ha. specialize (Ha y Hy).
  assert (PmmSpec.free (x :: bl) q) by (apply PmmSpec.free_cons; right; by exists y).
  apply Hf in H. unfold PmmSpec.covers in Hc. lia.
Qed.

Section BigFree.
  Context (arena : Z) (s : t) (bl l used : list (Z * Z)) (G1 : list big) (g : big) (G2 : list big).
  Context (Hh : heap arena s bl l used (G1 ++ g :: G2)).

Lemma bf_big h : h ∈ G1 ++ g :: G2 -> big_ok arena s h.
Proof using Hh. intros Hg. assert (Hb := hp_big _ _ _ _ _ _ Hh). rewrite Forall_forall in Hb. by apply Hb. Qed.

Lemma bf_perm :
  Permutation (regions used (G1 ++ g :: G2)) ((bb g, 16) :: (pages g, 4096 * 2 ^ order g) :: regions used (G1 ++ G2)).
Proof.
  unfold regions. rewrite !bind_app. cbn [mbind list_bind big_regions app]. rewrite !app_assoc.
  rewrite <- Permutation_middle. constructor. by rewrite <- Permutation_middle.
Qed.

Lemma bf_apart :
  apart (bb g, 16) (pages g, 4096 * 2 ^ order g) /\
  (forall r, r ∈ regions used (G1 ++ G2) -> apart (bb g, 16) r /\ apart (pages g, 4096 * 2 ^ order g) r) /\
  disjoint (regions used (G1 ++ G2)).
Proof using Hh.
  destruct (disjoint_perm _ _ bf_perm (hp_apart _ _ _ _ _ _ Hh)) as ([H12 H1]%Forall_cons & H2 & Hd).
  rewrite Forall_forall in H1, H2. split_and!; [done| |done]. intros r Hr. split; [by apply H1|by apply H2].
Qed.

Lemma bf_other_pages h : h ∈ G1 -> pages h <> pages g.
Proof using Hh.
  intros Hin He. destruct bf_apart as (_ & Ha & _).
  destruct (Ha (pages h, 4096 * 2 ^ order h)) as [_ Hp].
  { apply (regions_big h); [set_solver|right; left]. }
  destruct (big_order _ _ _ (bf_big h ltac:(set_solver))), (big_order _ _ _ (bf_big g ltac:(set_solver))).
  assert (0 < 2 ^ order h /\ 0 < 2 ^ order g) by (split; apply Z.pow_pos_nonneg; lia).
  unfold apart in Hp. cbn in Hp. lia.
Qed.

Lemma bf_find : find_big (ring_fuel s) None (bigblocks s) (pages g) s = Ret (Some (holder None G1, bb g), s).
Proof using Hh.
  apply (find_big_some s G1 g G2).
  - apply Hh.
  - assert (Hp := bigs_pos _ _ _ _ _ _ Hh). rewrite Forall_app, Forall_cons in Hp.
    rewrite Forall_app, Forall_singleton. tauto.
  - apply Forall_forall. apply bf_other_pages.
  - assert (Hl := bigs_length _ _ _ _ _ _ Hh). rewrite length_app in Hl. cbn in Hl. unfold ring_fuel. fold (W s). lia.
Qed.

(** Taking the block off the list. *)
Lemma bf_unlink : exists nx w1 b1,
  ld (bb g + 8) s = Ret (nx, s) /\
  (match holder None G1 with None => modify (set_bigblocks nx) | Some a => st (a + 8) nx end) s =
    Ret (tt, set_bigblocks b1 (with_words w1 s)) /\
  big_list w1 b1 (G1 ++ G2) /\ keeps_dom (W s) w1 /\
  forall a, (forall h, h ∈ G1 -> ~ inside (bb h, 16) a) -> w1 !! a = W s !! a.
Proof using Hh.
  assert (Hbig := bf_big). assert (Hl := hp_bigs _ _ _ _ _ _ Hh). apply big_list_app in Hl as (p & Hseg & Hp & _ & _ & nx & H8 & Hl).
  assert (Hd := hp_apart _ _ _ _ _ _ Hh). apply disjoint_app in Hd as [_ Hd]. assert (Hnd := bigs_nodup _ Hd).
  exists nx. unfold holder. destruct G1 as [|h G1' _] using rev_ind.
  - exists (W s), nx. split; [apply ld_eq; by rewrite <- Hp|]. rewrite with_words_id. by split_and!.
  - rewrite last_snoc. exists (<[bb h + 8 := nx]> (W s)), (bigblocks s). split; [apply ld_eq; by rewrite <- Hp|].
    assert (Hm : is_Some (W s !! (bb h + 8))).
    { destruct (big_placed _ _ _ (Hbig h ltac:(set_solver))) as (_ & _ & Hk). unfold SLOB_UNIT in Hk. cbn in Hk.
      by destruct (Hk 1 ltac:(lia)) as [H _]. }
    split; [by apply st_eq|]. split; [|split; [by apply keeps_dom_insert|]].
    + apply big_list_app. exists nx. rewrite <- !app_assoc in Hd, Hnd. cbn [app] in Hd, Hnd.
      replace (G1' ++ h :: g :: G2) with ((G1' ++ [h]) ++ g :: G2) in Hd, Hnd by (by rewrite <- app_assoc).
      split; [apply (big_seg_turn _ _ _ _ p)|].
      * rewrite fmap_app in Hnd. by apply NoDup_app in Hnd as [? _].
      * rewrite bind_app in Hd. by apply disjoint_app in Hd as [? _].
      * done.
      * apply (big_list_frame (W s)); [|done]. intros k Hk a Ha. apply lookup_insert_ne. intros <-.
        rewrite bind_app in Hd.
        assert (Hx := disjoint_cross _ _ (bb h, 16) (bb k, 16) Hd). destruct Hx as [Hx|Hx].
        -- apply list_elem_of_bind. exists h. split; [left|set_solver].
        -- apply list_elem_of_bind. exists k. split; [left|set_solver].
        -- unfold inside in Ha. cbn in Ha, Hx. lia.
        -- unfold inside in Ha. cbn in Ha, Hx. lia.
    + intros a Ha. apply lookup_insert_ne. intros <-. apply (Ha h); [set_solver|]. unfold inside. cbn. lia.
Qed.

(** The frames of the block. *)
Definition big_range (r : Z) : Prop := frame_of (pages g) <= r < frame_of (pages g) + 2 ^ order g.

Lemma bf_range a : inside (pages g, 4096 * 2 ^ order g) a <-> big_range (frame_of a).
Proof using Hh.
  assert (Hal := big_aligned _ _ _ (bf_big g ltac:(set_solver))). unfold big_range. rewrite Hal at 1.
  unfold inside, kva, frame_of, Paging.KERNBASE. cbn. width.
Qed.

Lemma kva2page_eq s1 f :
  0 <= f < Paging.npage (kmem s1) -> on_mem (Paging.kva2page (kva f)) s1 = Ret (f, s1).
Proof.
  intros Hf. unfold on_mem, Paging.kva2page, Paging.PADDR, Paging.pa2page, kva, Paging.KERNBASE.
  replace (0x80000000 <=? 0x80000000 + 4096 * f) with true by lia. cbn [assert_].
  rewrite (bind_Ret _ _ (kmem s1) (0x80000000 + 4096 * f - 0x80000000) (kmem s1)) by done.
  rewrite (bind_Ret _ _ (kmem s1) (kmem s1) (kmem s1)) by done.
  unfold Paging.PPN. rewrite Z.shiftr_div_pow2 by lia.
  replace ((0x80000000 + 4096 * f - 0x80000000) `div` 2 ^ 12) with f by (change (2 ^ 12) with 4096; width).
  replace (f <? Paging.npage (kmem s1)) with true by lia. by destruct s1.
Qed.

Lemma bf_pages s1 :
  Paging.npage (kmem s1) = Paging.npage (kmem s) -> Paging.pmm (kmem s1) = Paging.pmm (kmem s) ->
  exists pm bl', __slob_free_pages (pages g) (order g) s1 = Ret (tt, set_pmm pm s1) /\ PmmSpec.rep 1 pm bl' /\
    (forall r, PmmSpec.free bl' r <-> big_range r \/ PmmSpec.free bl r) /\
    forall r, ~ big_range r -> ~ PmmSpec.free bl r -> Pmm.pages pm !! r = Pmm.pages (Paging.pmm (kmem s)) !! r.
Proof using Hh.
  intros Hnp Hpm. destruct (bf_big g ltac:(set_solver)) as [Ho _ Hal Hfr].
  destruct (hp_ok _ _ _ _ _ _ Hh) as [Hrep _ _ Hframes _ _]. set (f := frame_of (pages g)) in *.
  assert (H2 : 0 < 2 ^ order g) by (apply Z.pow_pos_nonneg; lia).
  assert (H3 : 2 ^ order g < 2 ^ 31) by (apply Z.pow_lt_mono_r; lia).
  assert (Htot : PmmSpec.total bl <= 2 ^ 20 - 0).
  { apply (sep_total 1); [lia|by apply Hrep|lia|]. intros q Hq. destruct (Hframes q Hq) as (? & _ & (_ & H4 & _)).
    unfold kva, Paging.KERNBASE, SLOB_UNIT in H4. cbn in H4. lia. }
  destruct (PmmSpec.free_pages_eq 1 (Paging.pmm (kmem s)) bl f (2 ^ order g)) as (pm & Hrun & Hrep'); [lia|done|lia|lia| |].
  { intros q Hq. destruct (Hfr q Hq) as [_ Hu]. split; [done|]. apply (big_not_free _ _ _ _ _ _ Hh g); [set_solver|done]. }
  exists pm, (PmmSpec.freed_bl f (2 ^ order g) bl). split_and!.
  - unfold __slob_free_pages. rewrite Hal. destruct (Hfr f ltac:(lia)) as [(? & _ & _) _].
    rewrite (bind_Ret _ _ _ _ _ (kva2page_eq s1 f ltac:(lia))).
    replace (1 ≪ order g) with (2 ^ order g) by (rewrite Z.shiftl_mul_pow2; lia).
    unfold on_mem, Paging.free_pages, Paging.on_pmm. by rewrite Hpm, Hrun.
  - done.
  - intros r. apply (PmmSpec.freed_free 1); [by apply Hrep|done].
  - intros r Hr Hfree. by apply (PmmSpec.free_pages_keeps 1 _ bl f (2 ^ order g)).
Qed.

(** The state after the pages went back: the list of big blocks is [b1] in [w1]. *)
Section Pages.
  Context (w1 : gmap Z Z) (b1 : Z) (pm : Pmm.t) (bl' : list (Z * Z)).
  Context (Hlist : big_list w1 b1 (G1 ++ G2)) (Hd1 : keeps_dom (W s) w1).
  Context (Hw1 : forall a, (forall h, h ∈ G1 -> ~ inside (bb h, 16) a) -> w1 !! a = W s !! a).
  Context (Hrep : PmmSpec.rep 1 pm bl').
  Context (Hfree : forall r, PmmSpec.free bl' r <-> big_range r \/ PmmSpec.free bl r).
  Context (Hkeep : forall r, ~ big_range r -> ~ PmmSpec.free bl r ->
    Pmm.pages pm !! r = Pmm.pages (Paging.pmm (kmem s)) !! r).
Let s2 := set_pmm pm (set_bigblocks b1 (with_words w1 s)).

Lemma bf_avail a : avail bl' l a <-> avail bl l a \/ inside (pages g, 4096 * 2 ^ order g) a.
Proof using Hh Hlist Hd1 Hw1 Hrep Hfree Hkeep. unfold avail. rewrite Hfree, bf_range. tauto. Qed.

Lemma bf_frame_ok q : frame_ok arena s q -> frame_ok arena s2 q.
Proof using Hh Hlist Hd1 Hw1 Hrep Hfree Hkeep. intros (H1 & H2 & H3). split; [done|]. split; [done|]. by apply (placed_keeps (W s)). Qed.

Lemma bf_owned r a : r ∈ regions used (G1 ++ g :: G2) -> inside r a -> ~ avail bl l a /\ ~ (arena <= a < arena + 8).
Proof using Hh Hlist Hd1 Hw1 Hrep Hfree Hkeep. apply (owned_not_avail _ _ _ _ _ _ Hh). Qed.

Lemma bf_ok : heap_ok arena s2 bl' l.
Proof using Hh Hlist Hd1 Hw1 Hrep Hfree Hkeep.
  assert (Hok : heap_ok arena (with_words w1 s) bl l).
  { apply heap_ok_words; [apply Hh|done|]. intros a Ha. apply Hw1. intros h Hin Hb.
    destruct (bf_owned (bb h, 16) a) as [H1 H2]; [apply (regions_big h); [set_solver|left]|done|].
    apply bytes_cons in Ha as [Ha|Ha]; [cbn in Ha; lia|]. apply H1. by left. }
  destruct Hok as [_ Hring Hcur Hfr Hap Hsw]. split; try done.
  - intros q [Hq|Hq]%Hfree; [|by apply Hfr]. apply bf_frame_ok. by apply (big_frames _ _ _ (bf_big g ltac:(set_solver))).
  - intros a Ha [Hq|Hq]%Hfree; [|by apply (Hap a)]. apply bf_range in Hq.
    destruct (bf_owned (pages g, 4096 * 2 ^ order g) a) as [H1 _]; [|done|].
    { apply (regions_big g); [set_solver|right; left]. }
    apply H1. by left.
Qed.

Lemma bf_other r a : r ∈ regions used (G1 ++ G2) -> inside r a ->
  ~ avail bl' l a /\ ~ inside (bb g, 16) a /\ ~ (arena <= a < arena + 8).
Proof using Hh Hlist Hd1 Hw1 Hrep Hfree Hkeep.
  intros Hr Ha. destruct bf_apart as (_ & Hap & _). destruct (Hap r Hr) as [H1 H2].
  destruct (bf_owned r a) as [H3 H4]; [rewrite bf_perm; do 2 right; done|done|].
  split; [|split; [|done]].
  - intros [?|Hp]%bf_avail; [done|]. by apply (apart_excl _ _ _ H2 Hp).
  - intros Hb. by apply (apart_excl _ _ _ H1 Hb).
Qed.

Lemma bf_slob : exists s3 l', slob_free (bb g) sizeof_bigblock s2 = Ret (tt, s3) /\
  given arena s2 bl' l s3 bl' l' (bb g) 2.
Proof using Hh Hlist Hd1 Hw1 Hrep Hfree Hkeep.
  assert (Hin : (bb g, 16) ∈ regions used (G1 ++ g :: G2)) by (apply (regions_big g); [set_solver|left]).
  destruct (free_heap arena s2 bl' l (bb g, 2) sizeof_bigblock) as (s3 & l' & Hrun & Hgv & _); try done.
  - apply bf_ok.
  - by apply (placed_keeps (W s)), (big_placed _ _ _ (bf_big g ltac:(set_solver))).
  - assert (Ho := hp_owned _ _ _ _ _ _ Hh). rewrite Forall_forall in Ho. by destruct (Ho _ Hin).
  - intros a Ha [Hav|Hp]%bf_avail; [by destruct (bf_owned _ a Hin Ha)|].
    destruct bf_apart as (H12 & _). by apply (apart_excl _ _ a H12).
  - by exists s3, l'.
Qed.

Lemma bf_contents s3 :
  (forall r a, r ∈ regions used (G1 ++ G2) -> inside r a -> W s3 !! a = w1 !! a) -> contents used (G1 ++ G2) s s3.
Proof using Hh Hlist Hd1 Hw1 Hrep Hfree Hkeep.
  intros Hown b a Hbl Ha. destruct (blocks_regions _ _ _ _ Hbl Ha) as (r & Hr & Hra). rewrite (Hown r a Hr Hra).
  destruct bf_apart as (_ & _ & Hdis). apply Hw1. intros h Hin Hi.
  by apply (blocks_desc _ _ b h a Hdis Hbl ltac:(set_solver) Ha).
Qed.

Lemma bf_big_keeps s3 h :
  kmem s3 = Paging.set_words (W s3) (Paging.set_pmm pm (kmem s)) -> keeps_dom (W s) (W s3) -> h ∈ G1 ++ G2 ->
  big_ok arena s3 h.
Proof using Hh Hlist Hd1 Hw1 Hrep Hfree Hkeep.
  intros Ht Hdom Hin. destruct (bf_big h ltac:(set_solver)) as [H1 H2 H3 H4].
  split; [done|by apply (placed_keeps (W s))|done|]. intros q Hq. destruct (H4 q Hq) as [(H5 & H6 & H7) Hu]. split.
  - split; [by rewrite Ht|]. split; [done|by apply (placed_keeps (W s))].
  - rewrite Ht. cbn. unfold PmmSpec.in_use. rewrite Hkeep; [done| |].
    + intros Hr. destruct bf_apart as (_ & Hap & _).
      destruct (Hap (pages h, 4096 * 2 ^ order h)) as [_ Ha]; [apply (regions_big h); [done|right; left]|].
      apply (apart_excl _ _ (kva q) Ha); [apply bf_range; by rewrite frame_of_kva_eq|].
      unfold inside. cbn. rewrite H3. unfold kva. lia.
    + apply (big_not_free _ _ _ _ _ _ Hh h); [set_solver|done].
Qed.

(** The heap without the block. *)
Lemma bf_heap s3 l' :
  given arena s2 bl' l s3 bl' l' (bb g) 2 ->
  heap arena s3 bl' l' used (G1 ++ G2) /\ contents used (G1 ++ G2) s s3.
Proof using Hh Hlist Hd1 Hw1 Hrep Hfree Hkeep.
  intros [Hok [Ht Hb] Hpm Hd Hav Hf]. destruct bf_apart as (_ & _ & Hdis).
  assert (Hdom : keeps_dom (W s) (W s3)) by (intros a; rewrite (Hd1 a); apply Hd).
  assert (Hown : forall r a, r ∈ regions used (G1 ++ G2) -> inside r a -> ~ avail bl' l' a /\ W s3 !! a = w1 !! a).
  { intros r a Hr Ha. destruct (bf_other r a Hr Ha) as (H1 & H2 & H3).
    assert (~ avail bl' l' a) by (intros [?|?]%Hav; [done|]; by apply H2). split; [done|]. by apply Hf. }
  assert (Hspan : forall x a, x ∈ used -> inside (span x) a -> W s3 !! a = W s !! a).
  { intros x a Hx Ha. destruct (Hown (span x) a (regions_used x used _ Hx) Ha) as [_ ->]. apply Hw1. intros h Hin Hi.
    by apply (span_desc _ _ x h a Hdis Hx ltac:(set_solver) Ha). }
  split; [|apply bf_contents; intros r a Hr Ha; by destruct (Hown r a Hr Ha)]. split; [done|apply Hh| | | |done|].
  - apply Forall_forall. intros x Hx. apply (used_keeps _ _ _ _ _ _ Hh); [done..|]. intros a. by apply Hspan.
  - rewrite Hb. apply (big_list_frame w1); [|done]. intros h Hin a Ha.
    destruct (Hown (bb h, 16) a) as [_ ?]; [by apply (regions_big h); [|left]|done..].
  - apply Forall_forall. intros h Hin. apply bf_big_keeps; [|done..]. rewrite Ht at 1. by rewrite Hpm.
  - apply Forall_forall. intros r Hr. assert (Ho := hp_owned _ _ _ _ _ _ Hh). rewrite Forall_forall in Ho.
    split; [apply (Ho r); rewrite bf_perm; do 2 right; done|]. intros a Ha. by destruct (Hown r a Hr Ha).
Qed.

End Pages.

End BigFree.

Lemma kfree_big arena s bl l used G1 g G2 :
  heap arena s bl l used (G1 ++ g :: G2) ->
  exists s' bl' l', kfree (pages g) s = Ret (tt, s') /\ heap arena s' bl' l' used (G1 ++ G2) /\
    contents used (G1 ++ G2) s s' /\ (forall a, inside (pages g, 4096 * 2 ^ order g) a -> avail bl' l' a) /\
    forall a, held bl' l' used (G1 ++ G2) a <-> held bl l used (G1 ++ g :: G2) a.
Proof.
  intros Hh. destruct (bf_unlink _ _ _ _ _ _ _ _ Hh) as (nx & w1 & b1 & Hld & Hun & Hlist & Hd1 & Hw1).
  set (s1 := set_bigblocks b1 (with_words w1 s)) in Hun.
  destruct (bf_pages _ _ _ _ _ _ _ _ Hh s1) as (pm & bl' & Hpg & Hrep & Hfree & Hkeep); [done..|].
  destruct (bf_slob _ _ _ _ _ _ _ _ Hh w1 b1 pm bl' Hlist Hd1 Hw1 Hrep Hfree Hkeep) as (s3 & l' & Hslob & Hgv).
  destruct (bf_heap _ _ _ _ _ _ _ _ Hh w1 b1 pm bl' Hlist Hd1 Hw1 Hrep Hfree Hkeep s3 l' Hgv) as [Hnew Hcon].
  assert (Hav := bf_avail _ _ _ _ _ _ _ _ Hh w1 b1 pm bl' Hlist Hd1 Hw1 Hrep Hfree Hkeep).
  assert (Hav' := gv_avail _ _ _ _ _ _ _ _ _ Hgv).
  exists s3, bl', l'. split; [|split; [done|split; [done|split]]].
  2: { intros a Ha. apply Hav'. left. apply Hav. by right. }
  2: { apply (held_given _ _ _ _ _ _ _ _ [(bb g, 16); (pages g, 4096 * 2 ^ order g)]); [apply bf_perm|].
       intros a. rewrite Hav', Hav, in_two. change (8 * 2) with 16.
       change (bb g <= a < bb g + 16) with (inside (bb g, 16) a). tauto. }
  assert (Hg := bf_big _ _ _ _ _ _ _ _ Hh g ltac:(set_solver)).
  assert (Hord : ld (bb g) s1 = Ret (order g, s1)).
  { apply ld_eq. change (W s1) with w1. rewrite Hw1.
    - assert (Hl := hp_bigs _ _ _ _ _ _ Hh). by apply big_list_app in Hl as (p & _ & <- & ? & _).
    - intros h Hin Hi. destruct (bf_apart _ _ _ _ _ _ _ _ Hh) as (_ & Hap & _).
      destruct (Hap (bb h, 16)) as [Ha _]; [apply (regions_big h); [set_solver|left]|].
      apply (apart_excl _ _ (bb g) Ha); [unfold inside; cbn; lia|done]. }
  unfold kfree. assert (Hal := big_aligned _ _ _ Hg).
  assert (Hp : pages g <> 0 /\ Z.land (pages g) (PAGE_SIZE - 1) = 0).
  { destruct (big_order _ _ _ Hg). assert (0 < 2 ^ order g) by (apply Z.pow_pos_nonneg; lia).
    destruct (big_frames _ _ _ Hg (frame_of (pages g)) ltac:(lia)) as [(_ & _ & [? _]) _]. cbn in *.
    split; [lia|]. change (PAGE_SIZE - 1) with (2 ^ 12 - 1). rewrite land_low by lia. rewrite Hal.
    unfold kva, Paging.KERNBASE. change (2 ^ 12) with 4096. width. }
  destruct Hp as [Hp0 Hpa]. apply Z.eqb_neq in Hp0. rewrite Hp0, (bind_Ret _ _ s s s) by done. rewrite Hpa. cbn [Z.eqb].
  rewrite (bind_Ret _ _ _ _ _ (bf_find _ _ _ _ _ _ _ _ Hh)), (bind_Ret _ _ _ _ _ Hld), (bind_Ret _ _ _ _ _ Hun).
  by rewrite (bind_Ret _ _ _ _ _ Hord), (bind_Ret _ _ _ _ _ Hpg).
Qed.

(** The clients' blocks are apart from one another. *)
Lemma blocks_disjoint arena s bl l used G : heap arena s bl l used G -> disjoint (blocks_of used G).
Proof.
  intros Hh. assert (Hd := hp_apart _ _ _ _ _ _ Hh). clear Hh. unfold blocks_of, regions in *.
  induction used as [|x used IH]; cbn [fmap list_fmap app spans disjoint] in *.
  - induction G as [|g G IH]; cbn in *; [done|]. destruct Hd as (_ & H2 & Hd). split; [|by apply IH].
    rewrite Forall_forall in *. intros r [h [-> Hin]]%list_elem_of_fmap. apply H2, list_elem_of_bind. exists h.
    split; [right; left|done].
  - destruct Hd as [H1 Hd]. split; [|by apply IH]. fold (spans used) in *. rewrite Forall_forall in *.
    unfold apart, span, SLOB_UNIT in H1.
    intros r [[y [-> Hy]]%list_elem_of_fmap|[g [-> Hg]]%list_elem_of_fmap]%elem_of_app; unfold apart; cbn.
    + specialize (H1 (y.1, 8 * y.2)). cbn in H1. enough (x.1 + 8 * x.2 <= y.1 \/ y.1 + 8 * y.2 <= x.1) by lia.
      apply H1, elem_of_app. left. by apply (list_elem_of_fmap_2 span).
    + specialize (H1 (pages g, 4096 * 2 ^ order g)). cbn in H1.
      enough (x.1 + 8 * x.2 <= pages g \/ pages g + 4096 * 2 ^ order g <= x.1) by lia.
      apply H1, elem_of_app. right. apply list_elem_of_bind. exists g. split; [right; left|done].
Qed.

(** Both kinds of block. *)
Lemma kfree_any arena s bl l used G p sz :
  heap arena s bl l used G -> (p, sz) ∈ blocks_of used G ->
  exists s' bl' l' used' G', kfree p s = Ret (tt, s') /\ heap arena s' bl' l' used' G' /\
    Permutation (blocks_of used G) ((p, sz) :: blocks_of used' G') /\ contents used' G' s s' /\
    (forall a, inside (p, sz) a -> avail bl' l' a) /\ forall a, held bl' l' used' G' a <-> held bl l used G a.
Proof.
  intros Hh [[x [[= -> ->] (U1 & U2 & ->)%list_elem_of_split]]%list_elem_of_fmap
            |[g [[= -> ->] (G1 & G2 & ->)%list_elem_of_split]]%list_elem_of_fmap]%elem_of_app.
  - destruct (kfree_small _ _ _ _ _ _ Hh U1 x U2 eq_refl) as (s' & l' & Hrun & Hh' & Hcon & Hav & Hheld).
    exists s', bl, l', (U1 ++ U2), G. split_and!; [done..| |done| |done].
    2: { intros a Ha. apply Hav. unfold inside, span, SLOB_UNIT in *. cbn in *. lia. }
    unfold blocks_of. rewrite !fmap_app, fmap_cons.
    by rewrite <- !app_assoc, <- app_comm_cons, <- Permutation_middle.
  - destruct (kfree_big _ _ _ _ _ _ _ _ Hh) as (s' & bl' & l' & Hrun & Hh' & Hcon & Hav & Hheld).
    exists s', bl', l', used, (G1 ++ G2). split_and!; [done..| |done|done|done]. unfold blocks_of. rewrite !fmap_app, fmap_cons.
    by rewrite !app_assoc, <- Permutation_middle.
Qed.

Lemma kmalloc_any arena s bl l used G n :
  heap arena s bl l used G -> 0 < n < 4080 \/ 4088 <= n < 2 ^ 31 ->
  exists p s', kmalloc n s = Ret (p, s') /\ allocated arena s bl l used G n p s'.
Proof.
  intros Hh [Hn|Hn]; [by apply (kmalloc_small _ _ _ _ _ _ Hh)|by apply (kmalloc_big _ _ _ _ _ _ _ Hh)].
Qed.

(** ** Properties *)


(** C25: Releasing a block in use, small or big, succeeds: exactly that block
    leaves the blocks in use, all its bytes are available again (those of a small
    block in the ring, the pages of a big one with the page allocator), no other
    byte of the heap is lost, its descriptor included, the contents of the other
    blocks stay, and the invariant of the heap holds again. *)
Theorem kfree_correct arena s bl l used G p sz :
  heap arena s bl l used G -> (p, sz) ∈ blocks_of used G ->
  exists s' bl' l' used' G', kfree p s = Ret (tt, s') /\ heap arena s' bl' l' used' G' /\
    Permutation (blocks_of used G) ((p, sz) :: blocks_of used' G') /\ contents used' G' s s' /\
    (forall a, inside (p, sz) a -> avail bl' l' a) /\ forall a, held bl' l' used' G' a <-> held bl l used G a.
Proof.
  apply kfree_any.
Qed.

(** ** The interface of the clients *)

Lemma blocks_pos arena s bl l used G b : heap arena s bl l used G -> b ∈ blocks_of used G -> 0 < b.1 /\ 0 < b.2.
Proof.
  intros Hh [[x [-> Hx]]%list_elem_of_fmap|[g [-> Hg]]%list_elem_of_fmap]%elem_of_app; cbn.
  - assert (Hu := hp_used _ _ _ _ _ _ Hh). rewrite Forall_forall in Hu. destruct (Hu x Hx) as (? & _ & [? _]). lia.
  - assert (Hb := hp_big _ _ _ _ _ _ Hh). rewrite Forall_forall in Hb. destruct (Hb g Hg) as [? _ _ Hfr].
    assert (0 < 2 ^ order g) by (apply Z.pow_pos_nonneg; lia). split; [|lia].
    assert (Ho := hp_owned _ _ _ _ _ _ Hh). rewrite Forall_forall in Ho. assert (Har := hp_arena _ _ _ _ _ _ Hh).
    destruct (Ho (pages g, 4096 * 2 ^ order g)) as [? _]; [apply (regions_big g); [done|right; left]|]. cbn in *. lia.
Qed.

Section Client.
  Context (arena : Z).

(** A state of the heap with the addresses of the blocks in use. *)
Definition valid (x : t * gset Z) : Prop :=
  exists bl l used G, heap arena x.1 bl l used G /\ x.2 = list_to_set (blocks_of used G).*1.
Definition kheap : Type := { x : t * gset Z | valid x }.

(** The sizes the allocator accepts. *)
Definition size_ok (n : Z) : Prop := 0 < n < 4080 \/ 4088 <= n < 2 ^ 31.
#[global] Instance size_ok_dec n : Decision (size_ok n).
Proof. unfold size_ok. apply _. Defined.

Definition after_malloc (p : Z) (B : gset Z) : gset Z := if decide (p = 0) then B else {[p]} ∪ B.

Lemma kmalloc_valid n s B :
  valid (s, B) -> size_ok n -> exists p s', Kmalloc.kmalloc n s = Ret (p, s') /\ valid (s', after_malloc p B) /\ (p <> 0 -> p ∉ B).
Proof.
  intros (bl & l & used & G & Hh & HB) Hn. cbn [fst snd] in *.
  destruct (kmalloc_any _ _ _ _ _ _ n Hh Hn) as (p & s' & Hrun & _ & Ha). exists p, s'. split; [done|]. unfold after_malloc.
  destruct (decide (p = 0)) as [->|Hp].
  - destruct Ha as (bl' & l' & Hh' & _). split; [by exists bl', l', used, G|done].
  - destruct Ha as (bl' & l' & used' & G' & sz & Hh' & _ & Hperm & _). split.
    + exists bl', l', used', G'. split; [done|]. cbn. rewrite Hperm, HB. done.
    + intros _. rewrite HB, elem_of_list_to_set. intros [b [-> Hb]]%list_elem_of_fmap.
      assert (Hd := disjoint_perm _ _ Hperm (blocks_disjoint _ _ _ _ _ _ Hh')). destruct Hd as [Hd _].
      rewrite Forall_forall in Hd. specialize (Hd b Hb). destruct (blocks_pos _ _ _ _ _ _ b Hh Hb).
      destruct (blocks_pos _ _ _ _ _ _ (b.1, sz) Hh') as [_ ?]; [rewrite Hperm; left|]. unfold apart in Hd. cbn in *. lia.
Qed.

Lemma kfree_valid p s B :
  valid (s, B) -> p ∈ B -> exists s', Kmalloc.kfree p s = Ret (tt, s') /\ valid (s', B ∖ {[p]}).
Proof.
  intros (bl & l & used & G & Hh & HB) Hp. cbn [fst snd] in *. rewrite HB in Hp.
  apply elem_of_list_to_set, list_elem_of_fmap in Hp as [[q sz] [-> Hq]].
  destruct (kfree_any _ _ _ _ _ _ q sz Hh Hq) as (s' & bl' & l' & used' & G' & Hrun & Hh' & Hperm & _).
  exists s'. split; [done|]. exists bl', l', used', G'. split; [done|]. cbn [fst snd]. rewrite HB.
  assert (Hd := disjoint_perm _ _ Hperm (blocks_disjoint _ _ _ _ _ _ Hh)). destruct Hd as [Hd _].
  apply set_eq. intros a. rewrite elem_of_difference, elem_of_singleton, !elem_of_list_to_set, Hperm. cbn [fmap list_fmap fst].
  rewrite elem_of_cons. split; [tauto|]. intros Ha. split; [by right|]. intros ->.
  apply list_elem_of_fmap in Ha as [b [-> Hb]]. rewrite Forall_forall in Hd. specialize (Hd b Hb).
  destruct (blocks_pos _ _ _ _ _ _ b Hh' Hb). destruct (blocks_pos _ _ _ _ _ _ (b.1, sz) Hh) as [_ ?]; [done|].
  unfold apart in Hd. cbn in *. lia.
Qed.

Lemma malloc_next n (h : kheap) p s' :
  size_ok n -> Kmalloc.kmalloc n (proj1_sig h).1 = Ret (p, s') -> valid (s', after_malloc p (proj1_sig h).2).
Proof.
  destruct h as [[s B] Hv]. cbn. intros Hn Hrun. destruct (kmalloc_valid n s B Hv Hn) as (q & s1 & Hrun' & Hv' & _). congruence.
Qed.

Lemma free_next p (h : kheap) s' :
  p ∈ (proj1_sig h).2 -> Kmalloc.kfree p (proj1_sig h).1 = Ret (tt, s') -> valid (s', (proj1_sig h).2 ∖ {[p]}).
Proof.
  destruct h as [[s B] Hv]. cbn. intros Hp Hrun. destruct (kfree_valid p s B Hv Hp) as (s1 & Hrun' & Hv'). congruence.
Qed.

(** A result with the validity of its state. *)
Definition wrap {A} (r : res (A * t)) (B : A -> gset Z) :
    (forall a s', r = Ret (a, s') -> valid (s', B a)) -> res (A * kheap) :=
  match r with
  | Ret (a, s') => fun H => Ret (a, exist _ (s', B a) (H a s' eq_refl))
  | Panic => fun _ => Panic
  | Fault => fun _ => Fault
  | Diverge => fun _ => Diverge
  end.

Lemma wrap_Ret {A} (r : res (A * t)) B H a s' :
  r = Ret (a, s') -> exists h, wrap r B H = Ret (a, h) /\ (proj1_sig h).2 = B a.
Proof. revert H. intros H ->. by eexists. Qed.

(** The heap as an implementation of [Heap]: a call outside the contract (a size
    the allocator refuses, an address that is not a block in use) is undefined. *)
Definition client_malloc (n : Z) : M kheap Z := fun h =>
  match decide (size_ok n) with
  | left Hn => wrap (Kmalloc.kmalloc n (proj1_sig h).1) (fun p => after_malloc p (proj1_sig h).2)
                 (fun p s' => malloc_next n h p s' Hn)
  | right _ => Fault
  end.

Definition client_free (p : Z) : M kheap unit := fun h =>
  match decide (p ∈ (proj1_sig h).2) with
  | left Hp => wrap (Kmalloc.kfree p (proj1_sig h).1) (fun _ => (proj1_sig h).2 ∖ {[p]})
                 (fun u s' H => free_next p h s' Hp (match u return _ = Ret (u, s') -> _ with tt => id end H))
  | right _ => Fault
  end.

#[global] Instance kheap_heap : Heap kheap := { Heap.kmalloc := client_malloc; Heap.kfree := client_free }.

Lemma client_malloc_eq n (h : kheap) : size_ok n ->
  exists p h', client_malloc n h = Ret (p, h') /\ (proj1_sig h').2 = after_malloc p (proj1_sig h).2 /\
    (p <> 0 -> p ∉ (proj1_sig h).2).
Proof.
  intros Hn. destruct (kmalloc_valid n (proj1_sig h).1 (proj1_sig h).2) as (p & s' & Hrun & _ & Hp); [|done|].
  { destruct h as [[s B] Hv]. exact Hv. }
  unfold client_malloc. destruct (decide (size_ok n)) as [Hn'|]; [|done].
  match goal with |- context [wrap ?r ?B ?H] => destruct (wrap_Ret r B H p s' Hrun) as (h' & Hw & HB) end.
  exists p, h'. rewrite Hw. done.
Qed.

Lemma client_free_eq p (h : kheap) : p ∈ (proj1_sig h).2 ->
  exists h', client_free p h = Ret (tt, h') /\ (proj1_sig h').2 = (proj1_sig h).2 ∖ {[p]}.
Proof.
  intros Hp. destruct (kfree_valid p (proj1_sig h).1 (proj1_sig h).2) as (s' & Hrun & _); [|done|].
  { destruct h as [[s B] Hv]. exact Hv. }
  unfold client_free. destruct (decide (p ∈ _)) as [Hp'|]; [|done].
  match goal with |- context [wrap ?r ?B ?H] => destruct (wrap_Ret r B H tt s' Hrun) as (h' & Hw & HB) end.
  exists h'. rewrite Hw. done.
Qed.

#[global] Instance kheap_laws : HeapLaws kheap.
Proof.
  refine {| blocks h := (proj1_sig h).2 |}.
  - intros n h Hn. destruct (client_malloc_eq n h) as (p & h' & Hrun & HB & Hp); [by left|].
    exists p, h'. split; [done|]. rewrite HB. unfold after_malloc. destruct (decide (p = 0)); auto.
  - intros p h Hp. apply (client_free_eq p h Hp).
  - intros [[s B] (bl & l & used & G & Hh & HB)]. cbn in *. rewrite HB, elem_of_list_to_set.
    intros [b [Hb0 Hb]]%list_elem_of_fmap. destruct (blocks_pos _ _ _ _ _ _ b Hh Hb). lia.
Defined.

End Client.

(** ** A heap of eight frames *)

Definition demo_arena : Z := 0x80000ff0.

Definition demo_words : gmap Z Z :=
  <[demo_arena := 1]> (<[demo_arena + 4 := demo_arena]>
    (list_to_map ((fun i => (0x80002000 + 4 * i, 0)) <$> seqZ 0 8192))).

Definition demo_heap : t :=
  mk (Paging.mk demo_words 10 PmmSpec.demo_pmm false 0 [] [] [] [] 0 [] 0) demo_arena 0.

Lemma demo_mapped a : 0x80002000 <= a < 0x8000a000 -> a `mod` 4 = 0 -> is_Some (demo_words !! a).
Proof.
  intros Ha Hm. unfold demo_words, demo_arena. rewrite !lookup_insert_ne by lia. exists 0.
  apply elem_of_list_to_map_1.
  - rewrite <- list_fmap_compose. apply NoDup_fmap_2_strong; [|apply NoDup_seqZ]. intros x y _ _. cbn. lia.
  - apply list_elem_of_fmap. exists ((a - 0x80002000) `div` 4). rewrite elem_of_seqZ. split; [f_equal; width|width].
Qed.

Lemma demo_frames q : PmmSpec.free [(2, 8)] q <-> 2 <= q < 10.
Proof. rewrite PmmSpec.free_cons, PmmSpec.free_nil. unfold PmmSpec.covers. cbn. lia. Qed.

(** The heap as the static initialisers leave it, over any memory that has the
    frames and the arena. *)
Lemma fresh_heap_ok w :
  w !! demo_arena = Some 1 -> w !! (demo_arena + 4) = Some demo_arena ->
  (forall a, 0x80002000 <= a < 0x8000a000 -> a `mod` 4 = 0 -> is_Some (w !! a)) ->
  heap demo_arena (mk (Paging.mk w 10 PmmSpec.demo_pmm false 0 [] [] [] [] 0 [] 0) demo_arena 0) [(2, 8)] [] [] [].
Proof.
  intros H0 H4 Hmap. split; [|done|constructor|done|constructor|done|constructor]. split.
  - exact PmmSpec.demo_pmm_rep.
  - split; [done|by apply Forall_singleton|done|]. apply Forall_singleton. unfold placed, SLOB_UNIT. cbn [fst snd].
    split; [done|]. split; [done|]. intros k Hk. replace k with 0 by lia. rewrite Z.mul_0_r, Z.add_0_r.
    unfold W. cbn. rewrite H0, H4. done.
  - left.
  - intros q Hq%demo_frames. split; [cbn; lia|]. split; [unfold kva, demo_arena, Paging.KERNBASE; lia|].
    unfold placed, kva, SLOB_UNIT, Paging.KERNBASE, W. cbn [fst snd kmem Paging.words]. split_and!; [lia..|].
    intros k Hk. split; apply Hmap; (lia || width).
  - intros a Ha. by apply bytes_nil in Ha.
  - done.
Qed.

Lemma demo_heap_ok : heap demo_arena demo_heap [(2, 8)] [] [] [].
Proof.
  apply fresh_heap_ok; [apply lookup_insert_eq| |apply demo_mapped].
  unfold demo_words. rewrite lookup_insert_ne by lia. apply lookup_insert_eq.
Qed.

(** A computation that is seen to return something other than 0. *)
Definition returns_block (m : M t Z) (s : t) : bool :=
  match m s with Ret (p, _) => negb (p =? 0) | _ => false end.

Lemma returns_block_spec m s p s' : returns_block m s = true -> m s = Ret (p, s') -> p <> 0.
Proof. unfold returns_block. intros H Hm. rewrite Hm in H. intros ->. done. Qed.

Lemma demo_small : returns_block (kmalloc 20) demo_heap = true.
Proof. by vm_compute. Qed.
Lemma demo_big : returns_block (p ← kmalloc 20; kmalloc 8192) demo_heap = true.
Proof. by vm_compute. Qed.


(** The heap after one small and one big allocation. *)
Lemma demo_two : exists p q s' bl' l' used' G' sz sz',
  (p ← kmalloc 20; q ← kmalloc 8192; mret (p, q)) demo_heap = Ret ((p, q), s') /\
  heap demo_arena s' bl' l' used' G' /\ (p, sz) ∈ blocks_of used' G' /\ (q, sz') ∈ blocks_of used' G'.
Proof.
  destruct (kmalloc_small _ _ _ _ _ _ demo_heap_ok 20) as (p & s1 & Hrun & _ & H); [lia|].
  assert (Hp : p <> 0) by (apply (returns_block_spec _ _ _ _ demo_small Hrun)).
  rewrite decide_False in H by done.
  destruct H as (bl1 & l1 & used1 & G1 & sz & Hh1 & _ & Hperm1 & _).
  destruct (kmalloc_big _ _ _ _ _ _ 8192 Hh1) as (q & s2 & Hrun2 & _ & H2); [lia|].
  assert (Hq : q <> 0).
  { apply (returns_block_spec (p ← kmalloc 20; kmalloc 8192) demo_heap _ s2); [exact demo_big|].
    by rewrite (bind_Ret _ _ _ _ _ Hrun). }
  rewrite decide_False in H2 by done. destruct H2 as (bl2 & l2 & used2 & G2 & sz2 & Hh2 & _ & Hperm2 & _).
  exists p, q, s2, bl2, l2, used2, G2, sz, sz2. rewrite (bind_Ret _ _ _ _ _ Hrun), (bind_Ret _ _ _ _ _ Hrun2).
  split_and!; [done..| |]; rewrite Hperm2; [right; rewrite Hperm1; left|left].
Qed.

Lemma kfree_correct_witness :
  exists p q s' s1 s2, (p ← kmalloc 20; q ← kmalloc 8192; mret (p, q)) demo_heap = Ret ((p, q), s') /\
    kfree p s' = Ret (tt, s1) /\ kfree q s' = Ret (tt, s2).
Proof.
  destruct demo_two as (p & q & s' & bl & l & used & G & sz & sz' & Hrun & Hh & Hp & Hq).
  destruct (kfree_correct demo_arena s' bl l used G p sz Hh Hp) as (s1 & _ & _ & _ & _ & H1 & _).
  destruct (kfree_correct demo_arena s' bl l used G q sz' Hh Hq) as (s2 & _ & _ & _ & _ & H2 & _).
  exists p, q, s', s1, s2. split; [exact Hrun|]. split; [exact H1|exact H2].
Defined.

(** ** What the code does outside the range *)

(** [kmalloc] and [slob_alloc] disagree on the largest small block: the sizes
    between them stop the kernel. *)
Lemma kmalloc_gap n s : 4080 <= n < 4088 -> kmalloc n s = Panic.
Proof.
  intros Hn. unfold kmalloc, __kmalloc, slob_alloc, PAGE_SIZE, SLOB_UNIT. replace (n <? 4096 - 8) with true by lia.
  unfold mbind, M_bind. by replace (u32 (n + 8 + 8) <? 4096) with false by width.
Qed.

(** [find_order] rounds down: a block of 8193 bytes gets two pages. *)
Lemma find_order_short : 4096 * 2 ^ find_order 8193 < 8193.
Proof. done. Qed.

(** A block of no bytes is the arena itself when nothing else is free; releasing
    it never ends. *)
Lemma kfree_empty_diverges : (p ← kmalloc 0; kfree p) demo_heap = Diverge.
Proof. vm_compute. reflexivity. Qed.

End KmallocSpec.
