(* ===== verification/Vmm.v ===== *)
(** Address spaces: src/ucore_OS/kern/mm/vmm.c, with the page replacement of
    kern/mm/swap.c, swap_fifo.c and fs/swap/swapfs.c it calls.  A pointer to a
    [struct vma_struct] or [struct mm_struct] is the address of its heap block;
    the list of areas of an address space is the list of their addresses in
    order; 0 is NULL. *)

From S2P Require Import Prelude Mem Strings DefaultPmm Paging Heap.

Module Vmm.
Import Paging Strings.Strings.

Definition VM_READ : Z := 0x1.
Definition VM_WRITE : Z := 0x2.
Definition VM_EXEC : Z := 0x4.
Definition VM_STACK : Z := 0x8.
Definition E_INVAL : Z := 3.
Definition KERNTOP : Z := KERNBASE + KMEMSIZE.
Definition KERN_ACCESS (start end_ : Z) : bool :=
  (KERNBASE <=? start) && (start <? end_) && (end_ <=? KERNTOP).

Record vma_struct := mk_vma { vm_mm : Z; vm_start : Z; vm_end : Z; vm_flags : Z }.

Record mm_struct := mk_mm {
  mmap_list : list Z; mmap_cache : Z; pgdir : Z; map_count : Z; sm_priv : bool;
  mm_count : Z; mm_sem : Z
}.

(** [pra_list_head] and [pra_vaddr] belong to the FIFO replacement, [clean_block]
    to swapfs.c; [vmem] is memory at the virtual addresses the kernel uses. *)
Record t (H : Type) := mk {
  hp : H; pg : Paging.t; vmas : gmap Z vma_struct; mms : gmap Z mm_struct;
  pgfault_num : Z; pra_list_head : list Z; pra_vaddr : gmap Z Z; clean_block : Z;
  vmem : mem
}.
Arguments mk {H}. Arguments hp {H}. Arguments pg {H}. Arguments vmas {H}. Arguments mms {H}.
Arguments pgfault_num {H}. Arguments pra_list_head {H}. Arguments pra_vaddr {H}.
Arguments clean_block {H}. Arguments vmem {H}.

Section Vmm.
  Context {H : Type} `{Heap H}.

Definition set_hp (h : H) (s : t H) : t H := mk h (pg s) (vmas s) (mms s) (pgfault_num s) (pra_list_head s) (pra_vaddr s) (clean_block s) (vmem s).
Definition set_pg g (s : t H) : t H := mk (hp s) g (vmas s) (mms s) (pgfault_num s) (pra_list_head s) (pra_vaddr s) (clean_block s) (vmem s).
Definition set_vmas v (s : t H) : t H := mk (hp s) (pg s) v (mms s) (pgfault_num s) (pra_list_head s) (pra_vaddr s) (clean_block s) (vmem s).
Definition set_mms m (s : t H) : t H := mk (hp s) (pg s) (vmas s) m (pgfault_num s) (pra_list_head s) (pra_vaddr s) (clean_block s) (vmem s).
Definition set_pgfault_num n (s : t H) : t H := mk (hp s) (pg s) (vmas s) (mms s) n (pra_list_head s) (pra_vaddr s) (clean_block s) (vmem s).
Definition set_pra_list l (s : t H) : t H := mk (hp s) (pg s) (vmas s) (mms s) (pgfault_num s) l (pra_vaddr s) (clean_block s) (vmem s).
Definition set_clean_block c (s : t H) : t H := mk (hp s) (pg s) (vmas s) (mms s) (pgfault_num s) (pra_list_head s) (pra_vaddr s) c (vmem s).
Definition set_vmem m (s : t H) : t H := mk (hp s) (pg s) (vmas s) (mms s) (pgfault_num s) (pra_list_head s) (pra_vaddr s) (clean_block s) m.

Definition on_hp {A} (m : M H A) : M (t H) A := fun s =>
  match m (hp s) with
  | Ret (a, h) => Ret (a, set_hp h s)
  | Panic => Panic | Fault => Fault | Diverge => Diverge
  end.
Definition on_pg {A} (m : M Paging.t A) : M (t H) A := fun s =>
  match m (pg s) with
  | Ret (a, g) => Ret (a, set_pg g s)
  | Panic => Panic | Fault => Fault | Diverge => Diverge
  end.
Definition on_mem {A} (m : M mem A) : M (t H) A := fun s =>
  match m (vmem s) with
  | Ret (a, v) => Ret (a, set_vmem v s)
  | Panic => Panic | Fault => Fault | Diverge => Diverge
  end.

Definition load_vma (a : Z) : M (t H) vma_struct := fun s =>
  match vmas s !! a with Some v => Ret (v, s) | None => Fault end.
Definition load_mm (a : Z) : M (t H) mm_struct := fun s =>
  match mms s !! a with Some m => Ret (m, s) | None => Fault end.
Definition put_vma (a : Z) (v : vma_struct) : M (t H) unit :=
  modify (fun s => set_vmas (<[a := v]> (vmas s)) s).
Definition put_mm (a : Z) (m : mm_struct) : M (t H) unit :=
  modify (fun s => set_mms (<[a := m]> (mms s)) s).

(** ** Page replacement (swap.c, swap_fifo.c, swapfs.c) *)

Definition _fifo_init_mm : M (t H) unit := modify (set_pra_list []).

(** [sm_priv] says whether the address space has the list: one created before
    swapping was on has none. *)
Definition _fifo_map_swappable (mm page : Z) : M (t H) unit :=
  m ← load_mm mm;
  assert_ (sm_priv m);;
  modify (fun s => set_pra_list (pra_list_head s ++ [page]) s).

Definition _fifo_swap_out_victim (mm : Z) (in_tick : Z) : M (t H) Z :=
  m ← load_mm mm;
  assert_ (sm_priv m);;
  assert_ (in_tick =? 0);;
  s ← get;
  match pra_list_head s with
  | [] => fault
  | page :: l => modify (set_pra_list l);; mret page
  end.

(** The copies to and from flash are commented out in the source. *)
Definition BLOCKBASE (addr : Z) : Z := Z.land addr 0xff7e0000.
Definition BLOCKOFF (addr : Z) : Z := Z.land addr 0x1f000.
Definition FLAGS (entry : Z) : Z := Z.land entry 0x6.
Definition swapfs_clean (base : Z) : M (t H) unit := assert_ (BLOCKBASE base =? base).
Definition swapfs_read (entry page : Z) : M (t H) Z := mret 0.
Definition swapfs_write (entry page : Z) : M (t H) (Z * Z) :=
  let empty := 0xbe421000 in
  s ← get;
  let e := Z.lor (Z.lor (clean_block s) (BLOCKOFF empty)) (FLAGS entry) in
  swapfs_clean (BLOCKBASE empty);;
  modify (set_clean_block (BLOCKBASE empty));;
  mret (0, e).

(** [n] victims are written out; the count is returned. *)
Fixpoint swap_out_loop (n : nat) (mm in_tick i : Z) : M (t H) Z :=
  match n with
  | O => mret i
  | S n =>
      page ← _fifo_swap_out_victim mm in_tick;
      m ← load_mm mm;
      s ← get;
      v ← lift_opt (pra_vaddr s !! page);
      ptep ← on_pg (get_pte (pgdir m) v false);
      defined (negb (ptep =? 0));;
      e ← on_pg (ld ptep);
      assert_ (negb (Z.land e PTE_P =? 0));;
      r ← swapfs_write e page;
      if negb (r.1 =? 0) then _fifo_map_swappable mm page;; swap_out_loop n mm in_tick (i + 1)
      else
        on_pg (tlb_invalidate (pgdir m) v;; st ptep r.2;; free_page page);;
        swap_out_loop n mm in_tick (i + 1)
  end.
Definition swap_out (mm n in_tick : Z) : M (t H) Z := swap_out_loop (Z.to_nat n) mm in_tick 0.

Definition swap_in (mm addr : Z) : M (t H) Z :=
  o ← on_pg alloc_page;
  match o with
  | None => panic
  | Some result =>
      m ← load_mm mm;
      ptep ← on_pg (get_pte (pgdir m) addr false);
      defined (negb (ptep =? 0));;
      e ← on_pg (ld ptep);
      r ← swapfs_read e result;
      when (negb (r =? 0)) (assert_ (negb (r =? 0)));;
      mret result
  end.

(** ** Areas (vmm.c) *)

Definition sizeof_mm : Z := 44.
Definition sizeof_vma : Z := 24.

Definition mm_create : M (t H) Z :=
  mm ← on_hp (kmalloc sizeof_mm);
  if mm =? 0 then mret 0 else
  s ← get;
  when (swap_init_ok (pg s)) _fifo_init_mm;;
  put_mm mm (mk_mm [] 0 0 0 (swap_init_ok (pg s)) 0 1);;
  mret mm.

Definition vma_create (start end_ flags : Z) : M (t H) Z :=
  vma ← on_hp (kmalloc sizeof_vma);
  if vma =? 0 then mret 0 else
  put_vma vma (mk_vma 0 start end_ flags);;
  mret vma.

Definition covers (addr : Z) (v : vma_struct) : bool := (vm_start v <=? addr) && (addr <? vm_end v).

Fixpoint find_loop (l : list Z) (addr : Z) : M (t H) Z :=
  match l with
  | [] => mret 0
  | a :: l => v ← load_vma a; if covers addr v then mret a else find_loop l addr
  end.

Definition find_vma (mm addr : Z) : M (t H) Z :=
  if mm =? 0 then mret 0 else
  m ← load_mm mm;
  hit ← (if mmap_cache m =? 0 then mret false
         else v ← load_vma (mmap_cache m); mret (covers addr v));
  r ← (if hit : bool then mret (mmap_cache m) else find_loop (mmap_list m) addr);
  when (negb (r =? 0))
    (put_mm mm (mk_mm (mmap_list m) r (pgdir m) (map_count m) (sm_priv m) (mm_count m) (mm_sem m)));;
  mret r.

Definition check_vma_overlap (prev next : vma_struct) : M (t H) unit :=
  assert_ (vm_start prev <? vm_end prev);;
  assert_ (vm_end prev <=? vm_start next);;
  assert_ (vm_start next <? vm_end next).

(** The areas up to [le_prev] and those after it. *)
Fixpoint insert_loop (l : list Z) (start : Z) : M (t H) (list Z * list Z) :=
  match l with
  | [] => mret ([], [])
  | a :: l' =>
      v ← load_vma a;
      if start <? vm_start v then mret ([], l)
      else r ← insert_loop l' start; mret (a :: r.1, r.2)
  end.

Definition insert_vma_struct (mm vma : Z) : M (t H) unit :=
  v ← load_vma vma;
  assert_ (vm_start v <? vm_end v);;
  m ← load_mm mm;
  r ← insert_loop (mmap_list m) (vm_start v);
  match last r.1 with
  | Some prev => p ← load_vma prev; check_vma_overlap p v
  | None => mret tt
  end;;
  match head r.2 with
  | Some next => n ← load_vma next; check_vma_overlap v n
  | None => mret tt
  end;;
  put_vma vma (mk_vma mm (vm_start v) (vm_end v) (vm_flags v));;
  put_mm mm (mk_mm (r.1 ++ vma :: r.2) (mmap_cache m) (pgdir m) (s32 (map_count m + 1)) (sm_priv m)
                   (mm_count m) (mm_sem m)).

Fixpoint free_vmas (l : list Z) : M (t H) unit :=
  match l with
  | [] => mret tt
  | a :: l =>
      modify (fun s => set_vmas (delete a (vmas s)) s);;
      on_hp (kfree a);;
      free_vmas l
  end.

Definition mm_destroy (mm : Z) : M (t H) unit :=
  m ← load_mm mm;
  assert_ (mm_count m =? 0);;
  free_vmas (mmap_list m);;
  modify (fun s => set_mms (delete mm (mms s)) s);;
  on_hp (kfree mm).

(** The status and the area stored through [vma_store], 0 when none is. *)
Definition mm_map (mm addr len flags : Z) : M (t H) (Z * Z) :=
  let start := ROUNDDOWN addr PGSIZE in
  let end_ := ROUNDUP (u32 (addr + len)) PGSIZE in
  if negb (USER_ACCESS start end_) then mret (- E_INVAL, 0) else
  assert_ (negb (mm =? 0));;
  vma ← find_vma mm start;
  bad ← (if vma =? 0 then mret false else v ← load_vma vma; mret (vm_start v <? end_));
  if bad : bool then mret (- E_INVAL, 0) else
  vma ← vma_create start end_ flags;
  if vma =? 0 then mret (- E_NO_MEM, 0) else
  insert_vma_struct mm vma;;
  mret (0, vma).

Fixpoint dup_loop (l : list Z) (to : Z) (from_dir : Z) : M (t H) Z :=
  match l with
  | [] => mret 0
  | a :: l =>
      v ← load_vma a;
      nvma ← vma_create (vm_start v) (vm_end v) (vm_flags v);
      if nvma =? 0 then mret (- E_NO_MEM) else
      insert_vma_struct to nvma;;
      m ← load_mm to;
      r ← on_pg (copy_range (pgdir m) from_dir (vm_start v) (vm_end v));
      if negb (r =? 0) then mret (- E_NO_MEM) else dup_loop l to from_dir
  end.
(** From the last area to the first. *)
Definition dup_mmap (to from : Z) : M (t H) Z :=
  assert_ (negb (to =? 0) && negb (from =? 0));;
  m ← load_mm from;
  dup_loop (rev (mmap_list m)) to (pgdir m).

Fixpoint each_area (f : Z -> Z -> M Paging.t unit) (l : list Z) : M (t H) unit :=
  match l with
  | [] => mret tt
  | a :: l => v ← load_vma a; on_pg (f (vm_start v) (vm_end v));; each_area f l
  end.
Definition exit_mmap (mm : Z) : M (t H) unit :=
  assert_ (negb (mm =? 0));;
  m ← load_mm mm;
  assert_ (mm_count m =? 0);;
  each_area (unmap_range (pgdir m)) (mmap_list m);;
  each_area (exit_range (pgdir m)) (mmap_list m).

(** ** Page faults *)

Definition do_pgfault (mm error_code addr : Z) : M (t H) Z :=
  vma ← find_vma mm addr;
  modify (fun s => set_pgfault_num (u32 (pgfault_num s + 1)) s);;
  if vma =? 0 then mret (- E_INVAL) else
  v ← load_vma vma;
  if addr <? vm_start v then mret (- E_INVAL) else
  let flags := vm_flags v in
  let refused := switch (Z.land error_code 3)
      [(1, true); (0, Z.land flags (Z.lor VM_READ VM_EXEC) =? 0)] (Z.land flags VM_WRITE =? 0) in
  if refused then mret (- E_INVAL) else
  let perm := if negb (Z.land flags VM_WRITE =? 0) then Z.lor PTE_U PTE_W else PTE_U in
  let addr := ROUNDDOWN addr PGSIZE in
  m ← load_mm mm;
  ptep ← on_pg (get_pte (pgdir m) addr true);
  e ← on_pg (ld ptep);
  if e =? 0 then on_pg (pgdir_alloc_page (pgdir m) addr perm);; mret 0 else
  s ← get;
  if swap_init_ok (pg s) then
    page ← swap_in mm addr;
    on_pg (page_insert (pgdir m) page addr perm);;
    _fifo_map_swappable mm page;;
    mret 0
  else mret (- E_NO_MEM).

(** ** Access to user memory *)

(** Each pass moves on to another area. *)
Fixpoint check_loop (fuel : nat) (mm start end_ : Z) (write : bool) : M (t H) bool :=
  if negb (start <? end_) then mret true else
  match fuel with
  | O => diverge
  | S fuel =>
      vma ← find_vma mm start;
      if vma =? 0 then mret false else
      v ← load_vma vma;
      if start <? vm_start v then mret false else
      if Z.land (vm_flags v) (if write then VM_WRITE else VM_READ) =? 0 then mret false else
      if write && negb (Z.land (vm_flags v) VM_STACK =? 0) && (start <? u32 (vm_start v + PGSIZE))
      then mret false
      else check_loop fuel mm (vm_end v) end_ write
  end.

Definition user_mem_check (mm addr len : Z) (write : bool) : M (t H) bool :=
  if mm =? 0 then mret (KERN_ACCESS addr (u32 (addr + len))) else
  if negb (USER_ACCESS addr (u32 (addr + len))) then mret false else
  m ← load_mm mm;
  check_loop (S (length (mmap_list m))) mm addr (u32 (addr + len)) write.

Definition copy_from_user (mm dst src len : Z) (writable : bool) : M (t H) bool :=
  ok ← user_mem_check mm src len writable;
  if negb ok then mret false else on_mem (memcpy dst src len);; mret true.

Definition copy_to_user (mm dst src len : Z) : M (t H) bool :=
  ok ← user_mem_check mm dst len true;
  if negb ok then mret false else on_mem (memcpy dst src len);; mret true.

(** [maxn] gets smaller at each pass. *)
Fixpoint copy_string_loop (fuel : nat) (mm dst src maxn part : Z) : M (t H) bool :=
  match fuel with
  | O => diverge
  | S fuel =>
      let part := if maxn <? part then maxn else part in
      ok ← user_mem_check mm src part false;
      if negb ok then mret false else
      alen ← on_mem (strnlen src part);
      if alen <? part then on_mem (memcpy dst src (alen + 1));; mret true else
      if part =? maxn then mret false else
      on_mem (memcpy dst src part);;
      copy_string_loop fuel mm (u32 (dst + part)) (u32 (src + part)) (maxn - part) PGSIZE
  end.
Definition copy_string (mm dst src maxn : Z) : M (t H) bool :=
  copy_string_loop (S (Z.to_nat maxn)) mm dst src maxn
    (u32 (ROUNDDOWN (u32 (src + PGSIZE)) PGSIZE - src)).

End Vmm.
End Vmm.
