(* ===== verification/VmmSpec.v ===== *)
(** Address spaces as sets of disjoint areas (kern/mm/vmm.c): lookup through the
    one-entry cache is lookup in the set, mapping adds an area or refuses, and
    the check of a user buffer accepts exactly the buffers whose every byte may
    be accessed. *)

From S2P Require Import Prelude Mem Strings DefaultPmm Paging Heap Vmm.

Module VmmSpec.
Import Paging Vmm.

(** ** The abstract address space *)

(** The areas in order, disjoint and within user space. *)
Definition before (v w : vma_struct) : Prop := vm_end v <= vm_start w.
#[export] Instance before_dec v w : Decision (before v w).
Proof. unfold before. apply _. Defined.
Definition area_ok (v : vma_struct) : Prop := 0 <= vm_start v < vm_end v /\ vm_end v <= USERTOP.

Section Spec.
  Context {H : Type} `{Heap H}.

Definition at_addr (s : t H) (a : Z) (v : vma_struct) : Prop := a <> 0 /\ vmas s !! a = Some v.

Record mm_ok (s : t H) (mm : Z) (m : mm_struct) (A : list vma_struct) : Prop := {
  ok_mm : mm <> 0 /\ mms s !! mm = Some m;
  ok_list : Forall2 (at_addr s) (mmap_list m) A;
  ok_nodup : NoDup (mmap_list m);
  ok_sorted : StronglySorted before A;
  ok_areas : Forall area_ok A;
  ok_cache : mmap_cache m = 0 \/ mmap_cache m ∈ mmap_list m;
  ok_count : map_count m = s32 (Z.of_nat (length (mmap_list m)))
}.

Lemma at_addr_in s l A a : Forall2 (at_addr s) l A -> a ∈ l -> exists v, v ∈ A /\ at_addr s a v.
Proof.
  intros Hf (i & Hi)%list_elem_of_lookup_1. destruct (Forall2_lookup_l _ _ _ _ _ Hf Hi) as (v & Hv & Ha).
  exists v. split; [by eapply list_elem_of_lookup_2|done].
Qed.

(** At most one area covers an address. *)
Lemma covers_unique A v w addr :
  StronglySorted before A -> Forall area_ok A -> v ∈ A -> w ∈ A ->
  covers addr v = true -> covers addr w = true -> v = w.
Proof.
  intros Hs Ho Hv Hw Cv Cw. unfold covers in *.
  induction Hs as [|x A Hs IH Hx]; [by apply elem_of_nil in Hv|].
  apply Forall_cons in Ho as [_ Ho]. rewrite Forall_forall in Hx. unfold before in Hx.
  apply elem_of_cons in Hv as [->|Hv]; apply elem_of_cons in Hw as [->|Hw]; try done.
  - specialize (Hx _ Hw). lia.
  - specialize (Hx _ Hv). lia.
  - by apply IH.
Qed.

Lemma load_vma_eq s a v : at_addr s a v -> load_vma a s = Ret (v, s).
Proof. intros [_ Hv]. unfold load_vma. by rewrite Hv. Qed.

Lemma load_mm_eq s mm m A : mm_ok s mm m A -> load_mm mm s = Ret (m, s).
Proof. intros Hok. unfold load_mm. by rewrite (proj2 (ok_mm _ _ _ _ Hok)). Qed.

(** ** Lookup *)

(** What a lookup returns. *)
Definition found (s : t H) (A : list vma_struct) (addr r : Z) : Prop :=
  if decide (r = 0) then Forall (fun v => covers addr v = false) A
  else exists v, v ∈ A /\ covers addr v = true /\ at_addr s r v.

Lemma find_loop_spec s l A addr :
  Forall2 (at_addr s) l A ->
  exists r, find_loop l addr s = Ret (r, s) /\ found s A addr r /\ (r <> 0 -> r ∈ l).
Proof.
  unfold found. induction 1 as [|a v l A Ha Hf IH]; [exists 0; by rewrite decide_True|].
  cbn [find_loop]. rewrite (bind_Ret _ _ _ _ _ (load_vma_eq s a v Ha)).
  destruct (covers addr v) eqn:Hc.
  - exists a. split; [done|]. rewrite decide_False by (by destruct Ha).
    split; [exists v; by rewrite elem_of_cons; auto|]. rewrite elem_of_cons. auto.
  - destruct IH as (r & -> & Hr & Hin). exists r. split; [done|]. case_decide as Hd.
    + split; [by constructor|done].
    + split; [|rewrite elem_of_cons; auto]. destruct Hr as (w & Hw & ?). exists w. rewrite elem_of_cons. auto.
Qed.

Definition with_cache (c : Z) (m : mm_struct) : mm_struct :=
  mk_mm (mmap_list m) c (pgdir m) (map_count m) (sm_priv m) (mm_count m) (mm_sem m).

(** Only the cache of the address space changes. *)
Definition cached (s : t H) (mm c : Z) (m : mm_struct) : t H := set_mms (<[mm := with_cache c m]> (mms s)) s.

Lemma cached_ok s mm m A c :
  mm_ok s mm m A -> c ∈ mmap_list m -> mm_ok (cached s mm c m) mm (with_cache c m) A.
Proof.
  intros [[Hn Hm] Hl Hnd Hs Ho Hc Hcnt] Hin. split; try done.
  - split; [done|]. simpl. by rewrite lookup_insert_eq.
  - by right.
Qed.

Lemma find_vma_spec s mm m A addr :
  mm_ok s mm m A ->
  exists r s' m', find_vma mm addr s = Ret (r, s') /\ mm_ok s' mm m' A /\ found s' A addr r /\
    m' = with_cache (mmap_cache m') m /\ s' = set_mms (<[mm := m']> (mms s)) s.
Proof.
  intros Hok. unfold find_vma. destruct (ok_mm _ _ _ _ Hok) as [Hn Hm].
  rewrite (proj2 (Z.eqb_neq mm 0) Hn), (bind_Ret _ _ _ _ _ (load_mm_eq _ _ _ _ Hok)).
  assert (Hself : s = set_mms (<[mm := m]> (mms s)) s) by (rewrite insert_id by done; by destruct s).
  assert (Hfin : forall r, found s A addr r -> (r <> 0 -> r ∈ mmap_list m) ->
    exists r' s' m', (when (negb (r =? 0))
       (put_mm mm (mk_mm (mmap_list m) r (pgdir m) (map_count m) (sm_priv m) (mm_count m) (mm_sem m)));; mret r) s
      = Ret (r', s') /\ mm_ok s' mm m' A /\ found s' A addr r' /\
      m' = with_cache (mmap_cache m') m /\ s' = set_mms (<[mm := m']> (mms s)) s).
  { intros r Hf Hin. destruct (Z.eqb_spec r 0) as [->|Hr]; cbn [negb when].
    - exists 0, s, m. split; [done|]. split_and!; try done. by destruct m.
    - exists r, (cached s mm r m), (with_cache r m). split; [done|]. split_and!; try done.
      apply cached_ok; auto. }
  assert (Hloop : exists r' s' m', (r ← find_loop (mmap_list m) addr;
      when (negb (r =? 0))
       (put_mm mm (mk_mm (mmap_list m) r (pgdir m) (map_count m) (sm_priv m) (mm_count m) (mm_sem m)));; mret r) s
      = Ret (r', s') /\ mm_ok s' mm m' A /\ found s' A addr r' /\
      m' = with_cache (mmap_cache m') m /\ s' = set_mms (<[mm := m']> (mms s)) s).
  { destruct (find_loop_spec s _ _ addr (ok_list _ _ _ _ Hok)) as (r & Hr & Hf & Hin).
    rewrite (bind_Ret _ _ _ _ _ Hr). by apply Hfin. }
  destruct (Z.eqb_spec (mmap_cache m) 0) as [Hc|Hc].
  - rewrite (bind_Ret _ _ s false s) by done. exact Hloop.
  - destruct (ok_cache _ _ _ _ Hok) as [?|Hin]; [done|].
    destruct (at_addr_in s _ _ _ (ok_list _ _ _ _ Hok) Hin) as (v & HvA & Hv).
    rewrite (bind_Ret _ _ s (covers addr v) s) by (by rewrite (bind_Ret _ _ _ _ _ (load_vma_eq _ _ _ Hv))).
    destruct (covers addr v) eqn:Hcov; [|exact Hloop].
    rewrite (bind_Ret _ _ s (mmap_cache m) s) by done. apply Hfin; [|done].
    unfold found. rewrite decide_False by done. exists v. done.
Qed.


(** ** Checking a user buffer *)

(** A byte may be accessed: it lies in an area with the permission, and not in
    the lowest page of a stack when it is written. *)
Definition allowed (A : list vma_struct) (write : bool) (a : Z) : Prop :=
  exists v, v ∈ A /\ covers a v = true /\
    Z.land (vm_flags v) (if write then VM_WRITE else VM_READ) <> 0 /\
    (write = true -> Z.land (vm_flags v) VM_STACK <> 0 -> vm_start v + PGSIZE <= a).

(** The areas that end above an address: the loop leaves one at each pass. *)
Definition above (start : Z) (A : list vma_struct) : nat := length (filter (fun v : vma_struct => (start < vm_end v)%Z) A).

Lemma above_lt A v start : v ∈ A -> start < vm_end v -> (above (vm_end v) A < above start A)%nat.
Proof.
  unfold above. intros Hv Hlt. induction A as [|w A IH]; [by apply elem_of_nil in Hv|].
  assert (Hle : (length (filter (fun u : vma_struct => (vm_end v < vm_end u)%Z) A) <= length (filter (fun u : vma_struct => (start < vm_end u)%Z) A))%nat).
  { clear Hv IH. induction A as [|u A IH]; [done|]. rewrite !filter_cons. repeat case_decide; simpl; lia. }
  rewrite !filter_cons. apply elem_of_cons in Hv as [->|Hv].
  - rewrite decide_False by lia. rewrite decide_True by lia. simpl. lia.
  - specialize (IH Hv). repeat case_decide; simpl; lia.
Qed.

Lemma allowed_here A (write : bool) v start :
  StronglySorted before A -> Forall area_ok A -> v ∈ A -> covers start v = true -> allowed A write start ->
  Z.land (vm_flags v) (if write then VM_WRITE else VM_READ) <> 0 /\
  (write = true -> Z.land (vm_flags v) VM_STACK <> 0 -> vm_start v + PGSIZE <= start).
Proof.
  intros Hs Ho Hv Hc (w & Hw & Hcw & Hf & Hst). by rewrite (covers_unique A v w start Hs Ho).
Qed.

(** The whole of an area is allowed from an allowed address on. *)
Lemma allowed_rest A (write : bool) v start :
  v ∈ A -> covers start v = true ->
  Z.land (vm_flags v) (if write then VM_WRITE else VM_READ) <> 0 ->
  (write = true -> Z.land (vm_flags v) VM_STACK <> 0 -> vm_start v + PGSIZE <= start) ->
  forall a, start <= a < vm_end v -> allowed A write a.
Proof.
  intros Hv Hc Hf Hst a Ha. exists v. unfold covers in *. split_and!; [done|lia|done|].
  intros Hw Hk. specialize (Hst Hw Hk). lia.
Qed.

Lemma check_loop_spec fuel s mm m A start end_ write :
  mm_ok s mm m A -> (above start A < fuel)%nat ->
  exists b s' m', check_loop fuel mm start end_ write s = Ret (b, s') /\ mm_ok s' mm m' A /\
    (b = true <-> forall a, start <= a < end_ -> allowed A write a) /\
    m' = with_cache (mmap_cache m') m /\ s' = set_mms (<[mm := m']> (mms s)) s.
Proof.
  revert s m start. induction fuel as [|fuel IH]; intros s m start Hok Hfuel; [lia|].
  assert (Hself : s = set_mms (<[mm := m]> (mms s)) s).
  { rewrite insert_id by (by destruct (ok_mm _ _ _ _ Hok)). by destruct s. }
  cbn [check_loop]. destruct (Z.ltb_spec start end_) as [Hlt|Hge]; cbn [negb].
  2: { exists true, s, m. split; [done|]. split_and!; try done; [|by destruct m].
       split; [intros _ a Ha; lia|done]. }
  destruct (find_vma_spec s mm m A start Hok) as (r & s1 & m1 & Hr & Hok1 & Hf & Hm1 & Hs1).
  rewrite (bind_Ret _ _ _ _ _ Hr). unfold found in Hf.
  assert (Hstop : ~ allowed A write start ->
    exists b s' m', (mret false : M (t H) bool) s1 = Ret (b, s') /\ mm_ok s' mm m' A /\
      (b = true <-> forall a, start <= a < end_ -> allowed A write a) /\
      m' = with_cache (mmap_cache m') m /\ s' = set_mms (<[mm := m']> (mms s)) s).
  { intros Hno. exists false, s1, m1. split_and!; try done. split; [done|]. intros Hall. destruct Hno. apply Hall. lia. }
  destruct (Z.eqb_spec r 0) as [->|Hr0].
  { apply Hstop. intros (v & Hv & Hc & _). rewrite decide_True, Forall_forall in Hf by done.
    specialize (Hf v Hv). congruence. }
  rewrite decide_False in Hf by done. destruct Hf as (v & Hv & Hc & Hat).
  rewrite (bind_Ret _ _ _ _ _ (load_vma_eq s1 r v Hat)).
  assert (Ho := ok_areas _ _ _ _ Hok). assert (Hs := ok_sorted _ _ _ _ Hok).
  assert (Hhere := fun Hal => allowed_here A write v start Hs Ho Hv Hc Hal).
  assert (Hrange : vm_start v <= start < vm_end v) by (unfold covers in Hc; lia).
  rewrite Forall_forall in Ho. destruct (Ho v Hv) as [Hv0 Hv1]. unfold USERTOP in Hv1.
  replace (start <? vm_start v) with false by lia.
  destruct (Z.eqb_spec (Z.land (vm_flags v) (if write then VM_WRITE else VM_READ)) 0) as [Hfl|Hfl].
  { apply Hstop. intros Hal. by destruct (Hhere Hal). }
  assert (Hu : u32 (vm_start v + PGSIZE) = vm_start v + PGSIZE) by (unfold PGSIZE; width). rewrite Hu.
  destruct (write && negb (Z.land (vm_flags v) VM_STACK =? 0) && (start <? vm_start v + PGSIZE)) eqn:Hst.
  { apply Hstop. intros Hal. destruct (Hhere Hal) as [_ Hx]. destruct write; [|done]. specialize (Hx eq_refl).
    destruct (Z.eqb_spec (Z.land (vm_flags v) VM_STACK) 0); [done|]. specialize (Hx ltac:(done)). lia. }
  destruct (IH s1 m1 (vm_end v) Hok1) as (b & s2 & m2 & Hl & Hok2 & Hb & Hm2 & Hs2).
  { assert (Hab := above_lt A v start Hv). lia. }
  exists b, s2, m2. split_and!; try done.
  - rewrite Hb. split; intros Hall a Ha.
    + destruct (Z.lt_ge_cases a (vm_end v)); [|apply Hall; lia].
      apply (allowed_rest A write v start Hv Hc Hfl); [|lia]. intros -> Hk.
      destruct (Z.eqb_spec (Z.land (vm_flags v) VM_STACK) 0); [done|]. simpl in Hst. lia.
    + apply Hall. lia.
  - rewrite Hm2, Hm1. by destruct m.
  - rewrite Hs2, Hs1. unfold set_mms. simpl. by rewrite insert_insert_eq.
Qed.

End Spec.

(** ** Mapping *)

Section Map.
  Context {H : Type} `{HeapLaws H}.

(** Every descriptor is a block of the heap. *)
Definition heap_ok (s : t H) : Prop :=
  forall a, is_Some (vmas s !! a) \/ is_Some (mms s !! a) -> a ∈ blocks (hp s).

Definition disjoint_from (start end_ : Z) (v : vma_struct) : Prop := vm_end v <= start \/ end_ <= vm_start v.

(** Where a new area goes. *)
Lemma insert_loop_spec (s : t H) l A start :
  Forall2 (at_addr s) l A -> StronglySorted before A -> Forall area_ok A ->
  exists l1 l2 A1 A2, insert_loop l start s = Ret ((l1, l2), s) /\ l = l1 ++ l2 /\ A = A1 ++ A2 /\
    Forall2 (at_addr s) l1 A1 /\ Forall2 (at_addr s) l2 A2 /\
    Forall (fun v => vm_start v <= start) A1 /\ Forall (fun v => start < vm_start v) A2.
Proof.
  intros Hf. induction Hf as [|a v l A Ha Hf IH]; intros Hs Ho.
  { exists [], [], [], []. done. }
  apply StronglySorted_inv in Hs as [Hs Hv]. apply Forall_cons in Ho as [Hov Ho].
  cbn [insert_loop]. rewrite (bind_Ret _ _ _ _ _ (load_vma_eq s a v Ha)).
  destruct (Z.ltb_spec start (vm_start v)) as [Hlt|Hge].
  - exists [], (a :: l), [], (v :: A). split_and!; try done; [by constructor|].
    constructor; [done|]. rewrite Forall_forall in Hv |- *. intros w Hw. specialize (Hv w Hw).
    unfold before, area_ok in *. lia.
  - destruct (IH Hs Ho) as (l1 & l2 & A1 & A2 & Hr & -> & -> & Hf1 & Hf2 & Hle & Hgt).
    exists (a :: l1), l2, (v :: A1), A2. rewrite (bind_Ret _ _ _ _ _ Hr). split_and!; try done; by constructor.
Qed.

(** The checks against the areas on either side of the new one. *)
Lemma check_overlap_ok (s : t H) v w :
  area_ok v -> area_ok w -> before v w -> check_vma_overlap v w s = Ret (tt, s).
Proof.
  intros [Hv _] [Hw _] Hb. unfold before, check_vma_overlap in *.
  replace (vm_start v <? vm_end v) with true by lia. replace (vm_end v <=? vm_start w) with true by lia.
  by replace (vm_start w <? vm_end w) with true by lia.
Qed.

Lemma check_overlap_bad (s : t H) v w : area_ok v -> ~ before v w -> check_vma_overlap v w s = Panic.
Proof.
  intros [Hv _] Hb. unfold before, check_vma_overlap in *.
  replace (vm_start v <? vm_end v) with true by lia. by replace (vm_end v <=? vm_start w) with false by lia.
Qed.

Lemma check_prev (s : t H) l A v :
  Forall2 (at_addr s) l A -> Forall area_ok A -> area_ok v -> Forall (fun w => before w v) A ->
  (match last l with Some a => p ← load_vma a; check_vma_overlap p v | None => mret tt end) s = Ret (tt, s).
Proof.
  intros Hf Ho Hv Hb. destruct (last l) as [a|] eqn:Hl; [|done].
  destruct (at_addr_in s l A a Hf) as (w & Hw & Ha).
  { apply last_Some in Hl as [l' ->]. rewrite elem_of_app, list_elem_of_singleton. auto. }
  rewrite (bind_Ret _ _ _ _ _ (load_vma_eq s a w Ha)). rewrite Forall_forall in Ho, Hb.
  apply check_overlap_ok; auto.
Qed.

Lemma check_next (s : t H) l A v :
  Forall2 (at_addr s) l A -> Forall area_ok A -> area_ok v ->
  (match head l with Some a => n ← load_vma a; check_vma_overlap v n | None => mret tt end) s
  = match head A with Some n => if decide (before v n) then Ret (tt, s) else Panic | None => Ret (tt, s) end.
Proof.
  intros Hf Ho Hv. destruct Hf as [|a w l A Ha Hf]; [done|]. simpl.
  rewrite (bind_Ret _ _ _ _ _ (load_vma_eq s a w Ha)). apply Forall_cons in Ho as [Hw _].
  case_decide; [by apply check_overlap_ok|by apply check_overlap_bad].
Qed.

Section Insert.
  Context (s : t H) (mm : Z) (m : mm_struct) (A : list vma_struct) (p : Z) (v : vma_struct).
  Hypothesis Hok : mm_ok s mm m A.
  Hypothesis Hp : at_addr s p v.
  Hypothesis Hnew : p ∉ mmap_list m.
  Hypothesis Hv : area_ok v.
  Hypothesis Hc : Forall (fun w => covers (vm_start v) w = false) A.

Definition owned : vma_struct := mk_vma mm (vm_start v) (vm_end v) (vm_flags v).
Definition grown (l : list Z) : mm_struct :=
  mk_mm l (mmap_cache m) (pgdir m) (s32 (map_count m + 1)) (sm_priv m) (mm_count m) (mm_sem m).
Definition inserted (l : list Z) : t H :=
  set_mms (<[mm := grown l]> (mms s)) (set_vmas (<[p := owned]> (vmas s)) s).

(** [insert_vma_struct] up to its only check that can fail. *)
Lemma insert_run : exists l1 l2 A1 A2,
  mmap_list m = l1 ++ l2 /\ A = A1 ++ A2 /\
  Forall2 (at_addr s) l1 A1 /\ Forall2 (at_addr s) l2 A2 /\
  Forall (fun w => before w v) A1 /\ Forall (fun w => vm_start v < vm_start w) A2 /\
  insert_vma_struct mm p s =
    match head A2 with
    | Some n => if decide (before v n) then Ret (tt, inserted (l1 ++ p :: l2)) else Panic
    | None => Ret (tt, inserted (l1 ++ p :: l2))
    end.
Proof.
  destruct (insert_loop_spec s _ _ (vm_start v) (ok_list _ _ _ _ Hok) (ok_sorted _ _ _ _ Hok) (ok_areas _ _ _ _ Hok))
    as (l1 & l2 & A1 & A2 & Hr & Hl & HA & Hf1 & Hf2 & Hle & Hgt).
  assert (Ho := ok_areas _ _ _ _ Hok). rewrite HA in Ho, Hc. apply Forall_app in Ho as [Ho1 Ho2].
  assert (Hprev : Forall (fun w => before w v) A1).
  { apply Forall_app in Hc as [Hc' _]. rewrite Forall_forall in Hc', Hle |- *.
    intros w Hw. specialize (Hc' w Hw). specialize (Hle w Hw). unfold covers, before in *. lia. }
  exists l1, l2, A1, A2. split_and!; try done.
  unfold insert_vma_struct. rewrite (bind_Ret _ _ _ _ _ (load_vma_eq s p v Hp)).
  replace (vm_start v <? vm_end v) with true by (unfold area_ok in Hv; lia).
  rewrite (bind_Ret _ _ s tt s), (bind_Ret _ _ _ _ _ (load_mm_eq _ _ _ _ Hok)), (bind_Ret _ _ _ _ _ Hr) by done.
  cbn [fst snd]. rewrite (bind_Ret _ _ _ _ _ (check_prev s l1 A1 v Hf1 Ho1 Hv Hprev)).
  assert (Hnx := check_next s l2 A2 v Hf2 Ho2 Hv). destruct (head A2) as [n|]; [destruct (decide (before v n))|].
  - by rewrite (bind_Ret _ _ _ _ _ Hnx).
  - unfold mbind at 1, M_bind at 1. by rewrite Hnx.
  - by rewrite (bind_Ret _ _ _ _ _ Hnx).
Qed.

Lemma inserted_at l L : p ∉ l -> Forall2 (at_addr s) l L -> forall l', Forall2 (at_addr (inserted l')) l L.
Proof.
  intros Hni Hf l'. induction Hf as [|a w l L Ha Hf IH]; [done|].
  apply not_elem_of_cons in Hni as [Hne Hni]. constructor; [|by apply IH].
  destruct Ha as [Ha0 Ha]. split; [done|]. simpl. by rewrite lookup_insert_ne.
Qed.

(** A free range is added, a range that meets a later area stops the kernel. *)
Lemma insert_area_free :
  Forall (disjoint_from (vm_start v) (vm_end v)) A ->
  exists A1 A2 l, A = A1 ++ A2 /\ insert_vma_struct mm p s = Ret (tt, inserted l) /\
    mm_ok (inserted l) mm (grown l) (A1 ++ owned :: A2).
Proof.
  intros Hd. destruct insert_run as (l1 & l2 & A1 & A2 & Hl & HA & Hf1 & Hf2 & Hprev & Hgt & Hrun).
  destruct Hok as [[Hn Hm] Hfl Hnd Hs Ho Hca Hcnt]. rewrite HA in Hd, Hs, Ho.
  rewrite Hl in Hnew, Hnd. apply not_elem_of_app in Hnew as [Hn1 Hn2].
  assert (Hnext : Forall (fun w => before v w) A2).
  { apply Forall_app in Hd as [_ Hd]. apply Forall_app in Ho as [_ Ho].
    rewrite Forall_forall in Hd, Hgt, Ho |- *. intros w Hw.
    specialize (Hd w Hw). specialize (Hgt w Hw). specialize (Ho w Hw).
    unfold disjoint_from, before, area_ok in *. lia. }
  exists A1, A2, (l1 ++ p :: l2). split; [done|]. split.
  { rewrite Hrun. destruct A2 as [|w A2]; [done|]. simpl. apply Forall_cons in Hnext as [Hw _]. by rewrite decide_True. }
  apply StronglySorted_app in Hs as (Hb & Hs1 & Hs2). apply Forall_app in Ho as [Ho1 Ho2].
  split; simpl.
  - by rewrite lookup_insert_eq.
  - apply Forall2_app; [by apply inserted_at|]. constructor; [|by apply inserted_at].
    split; [by destruct Hp|]. simpl. by rewrite lookup_insert_eq.
  - apply NoDup_app in Hnd as (Hnd1 & Hdis & Hnd2). apply NoDup_app. split_and!; [done| |by constructor].
    intros x Hx. apply not_elem_of_cons. split; [by intros ->|by apply Hdis].
  - rewrite Forall_forall in Hprev, Hnext. apply StronglySorted_app. split_and!; [|done|].
    + intros x y Hx [->|Hy]%elem_of_cons; [apply (Hprev x Hx)|by apply Hb].
    + constructor; [done|]. rewrite Forall_forall. exact Hnext.
  - apply Forall_app. split; [done|]. by constructor.
  - rewrite Hl, elem_of_app in Hca. rewrite elem_of_app, elem_of_cons. tauto.
  - rewrite Hcnt, Hl, !length_app. simpl. width.
Qed.

Lemma insert_overlap :
  ~ Forall (disjoint_from (vm_start v) (vm_end v)) A -> insert_vma_struct mm p s = Panic.
Proof.
  intros Hd. destruct insert_run as (l1 & l2 & A1 & A2 & Hl & HA & Hf1 & Hf2 & Hprev & Hgt & Hrun).
  rewrite Hrun. assert (Hs := ok_sorted _ _ _ _ Hok). assert (Ho := ok_areas _ _ _ _ Hok).
  rewrite HA in Hs, Ho, Hd. apply StronglySorted_app in Hs as (_ & _ & Hs). apply Forall_app in Ho as [_ Ho].
  assert (Hbad : ~ Forall (fun w => before v w) A2).
  { intros Hnext. apply Hd. apply Forall_app. split; eapply Forall_impl; try done.
    - intros w Hw. by left.
    - intros w Hw. by right. }
  destruct A2 as [|n A2]; [by destruct Hbad|]. simpl. rewrite decide_False; [done|]. intros Hn.
  apply Hbad. constructor; [done|]. apply StronglySorted_inv in Hs as [_ Hs].
  apply Forall_cons in Ho as [Hon _]. eapply Forall_impl; [exact Hs|].
  intros w Hw. unfold before, area_ok in *. lia.
Qed.

End Insert.

Lemma vma_create_spec (s : t H) start end_ flags :
  heap_ok s ->
  exists p s', vma_create start end_ flags s = Ret (p, s') /\ heap_ok s' /\ mms s' = mms s /\ pg s' = pg s /\
    if decide (p = 0) then vmas s' = vmas s
    else vmas s !! p = None /\ vmas s' = <[p := mk_vma 0 start end_ flags]> (vmas s).
Proof.
  intros Hh. destruct (kmalloc_spec sizeof_vma (hp s)) as (p & h' & Hk & Hb); [unfold sizeof_vma; lia|].
  assert (Hrun : on_hp (kmalloc sizeof_vma) s = Ret (p, set_hp h' s)) by (unfold on_hp; by rewrite Hk).
  unfold vma_create. rewrite (bind_Ret _ _ _ _ _ Hrun).
  destruct (Z.eqb_spec p 0) as [->|Hp].
  - rewrite decide_True in Hb by done. exists 0, (set_hp h' s). rewrite decide_True by done.
    split_and!; try done. intros a Ha. simpl. rewrite Hb. by apply Hh.
  - rewrite decide_False in Hb by done. destruct Hb as [Hn Hb].
    exists p, (set_vmas (<[p := mk_vma 0 start end_ flags]> (vmas s)) (set_hp h' s)).
    rewrite decide_False by done. split_and!; try done.
    + intros a. simpl. rewrite Hb, elem_of_union, elem_of_singleton. intros Ha.
      destruct (decide (a = p)) as [->|Hne]; [by left|right].
      rewrite lookup_insert_ne in Ha by done. by apply Hh.
    + destruct (vmas s !! p) eqn:E; [|done]. destruct Hn. apply Hh. left. by rewrite E.
Qed.

(** A new descriptor does not disturb an address space. *)
Lemma mm_ok_fresh (s s' : t H) mm m A p v :
  mm_ok s mm m A -> mms s' = mms s -> vmas s !! p = None -> vmas s' = <[p := v]> (vmas s) -> mm_ok s' mm m A.
Proof.
  intros [Hm Hl Hnd Hs Ho Hc Hcnt] Hmm Hp Hv. split; try done; [by rewrite Hmm|].
  eapply Forall2_impl; [exact Hl|]. intros a w [Ha Hw]. split; [done|]. rewrite Hv, lookup_insert_ne; [done|].
  intros ->. congruence.
Qed.

Lemma mm_ok_same (s s' : t H) mm m A :
  mm_ok s mm m A -> mms s' = mms s -> vmas s' = vmas s -> mm_ok s' mm m A.
Proof.
  intros [Hm Hl Hnd Hs Ho Hc Hcnt] Hmm Hv. split; try done; [by rewrite Hmm|].
  eapply Forall2_impl; [exact Hl|]. intros a w [Ha Hw]. split; [done|]. by rewrite Hv.
Qed.

Lemma not_listed (s : t H) mm m A p : mm_ok s mm m A -> vmas s !! p = None -> p ∉ mmap_list m.
Proof.
  intros Hok Hp Hin. destruct (at_addr_in s _ _ p (ok_list _ _ _ _ Hok) Hin) as (v & _ & _ & Hv). congruence.
Qed.

(** What [mm_map] does once the range is known to be a user range whose start
    is free. *)
Lemma map_free (s : t H) mm m A start end_ flags :
  mm_ok s mm m A -> heap_ok s -> USER_ACCESS start end_ = true ->
  Forall (fun v => covers start v = false) A ->
  let run := vma ← vma_create start end_ flags;
    if vma =? 0 then mret (- E_NO_MEM, 0) else insert_vma_struct mm vma;; mret (0, vma) in
  (exists s', run s = Ret ((- E_NO_MEM, 0), s') /\ mm_ok s' mm m A /\ heap_ok s') \/
  if decide (Forall (disjoint_from start end_) A) then
    exists p s' m' A1 A2, run s = Ret ((0, p), s') /\ A = A1 ++ A2 /\ heap_ok s' /\
      mm_ok s' mm m' (A1 ++ mk_vma mm start end_ flags :: A2) /\ at_addr s' p (mk_vma mm start end_ flags)
  else run s = Panic.
Proof.
  intros Hok Hh Hu Hf run. destruct (vma_create_spec s start end_ flags Hh) as (p & s1 & Hcr & Hh1 & Hmm & Hpg & Hv).
  unfold run. rewrite (bind_Ret _ _ _ _ _ Hcr). destruct (Z.eqb_spec p 0) as [->|Hp].
  { left. exists s1. rewrite decide_True in Hv by done. split; [done|]. split; [|done]. by eapply mm_ok_same. }
  right. rewrite decide_False in Hv by done. destruct Hv as [Hnone Hv].
  set (v := mk_vma 0 start end_ flags) in *.
  assert (Hok1 : mm_ok s1 mm m A) by (by eapply mm_ok_fresh).
  assert (Hat : at_addr s1 p v) by (split; [done|]; rewrite Hv; apply lookup_insert_eq).
  assert (Hnew := not_listed s mm m A p Hok Hnone).
  assert (Hav : area_ok v) by (unfold USER_ACCESS, USERBASE, USERTOP, area_ok in *; simpl; unfold USERTOP; lia).
  case_decide as Hd.
  - destruct (insert_area_free s1 mm m A p v Hok1 Hat Hnew Hav Hf Hd) as (A1 & A2 & l & HA & Hins & Hok2).
    exists p, (inserted s1 mm m p v l), (grown m l), A1, A2. rewrite (bind_Ret _ _ _ _ _ Hins).
    split_and!; try done; [|simpl; split; [done|]; apply lookup_insert_eq].
    intros a. simpl. intros Ha. apply Hh1. destruct Ha as [Ha|Ha].
    + destruct (decide (a = p)) as [->|]; [left; by destruct Hat as [_ ->]|]. rewrite lookup_insert_ne in Ha by done. by left.
    + right. destruct (decide (a = mm)) as [->|]; [by destruct (ok_mm _ _ _ _ Hok1) as [_ ->]|].
      by rewrite lookup_insert_ne in Ha.
  - assert (Hins := insert_overlap s1 mm m A p v Hok1 Hat Hav Hf Hd).
    unfold mbind at 1, M_bind at 1. by rewrite Hins.
Qed.

End Map.

Section Claims.
  Context {H : Type} `{HeapLaws H}.

(** C20: The outcomes of [mm_map].  On a well-formed address space: a range
    outside user space, or whose first address is in an area, is refused with
    -E_INVAL and no area changes; a free range is added as one area (keeping the
    areas sorted and disjoint, with no other change) unless the heap is
    exhausted, which gives -E_NO_MEM; a range that starts free but meets a later
    area is not refused: unless the heap is exhausted the kernel panics in the
    overlap check of [insert_vma_struct]. *)
Theorem mm_map_outcomes (s : t H) mm m A addr len flags :
  mm_ok s mm m A -> heap_ok s ->
  let start := ROUNDDOWN addr PGSIZE in
  let end_ := ROUNDUP (u32 (addr + len)) PGSIZE in
  let r := mm_map mm addr len flags s in
  if negb (USER_ACCESS start end_) then r = Ret ((- E_INVAL, 0), s)
  else if existsb (covers start) A then
    exists s' m', r = Ret ((- E_INVAL, 0), s') /\ mm_ok s' mm m' A /\ vmas s' = vmas s /\ hp s' = hp s
  else
    (exists s' m', r = Ret ((- E_NO_MEM, 0), s') /\ mm_ok s' mm m' A /\ heap_ok s') \/
    if decide (Forall (disjoint_from start end_) A) then
      exists p s' m' A1 A2, r = Ret ((0, p), s') /\ A = A1 ++ A2 /\ heap_ok s' /\
        mm_ok s' mm m' (A1 ++ mk_vma mm start end_ flags :: A2) /\ at_addr s' p (mk_vma mm start end_ flags)
    else r = Panic.
Proof.
  intros Hok Hh start end_ r. unfold r, mm_map. fold start end_.
  destruct (USER_ACCESS start end_) eqn:Hu; cbn [negb]; [|done].
  destruct (ok_mm _ _ _ _ Hok) as [Hn Hm]. rewrite (proj2 (Z.eqb_neq mm 0) Hn), (bind_Ret _ _ s tt s) by done.
  destruct (find_vma_spec s mm m A start Hok) as (q & s1 & m1 & Hq & Hok1 & Hf & Hm1 & Hs1).
  rewrite (bind_Ret _ _ _ _ _ Hq). unfold found in Hf.
  assert (Hh1 : heap_ok s1).
  { rewrite Hs1. intros a Ha. apply Hh. simpl in Ha. destruct Ha as [Ha|Ha]; [by left|right].
    destruct (decide (a = mm)) as [->|]; [by rewrite Hm|]. by rewrite lookup_insert_ne in Ha. }
  destruct (Z.eqb_spec q 0) as [->|Hq0].
  - rewrite decide_True in Hf by done. rewrite (bind_Ret _ _ s1 false s1) by done.
    assert (Hex : existsb (covers start) A = false).
    { apply not_true_is_false. rewrite existsb_exists. intros (v & Hin & Hc). rewrite Forall_forall in Hf.
      rewrite Hf in Hc; [done|by apply list_elem_of_In]. }
    rewrite Hex. destruct (map_free s1 mm m1 A start end_ flags Hok1 Hh1 Hu Hf) as [(s2 & Hr & ? & ?)|Hr].
    + left. exists s2, m1. done.
    + right. exact Hr.
  - rewrite decide_False in Hf by done. destruct Hf as (v & Hin & Hc & Hat).
    assert (Hex : existsb (covers start) A = true) by (apply existsb_exists; exists v; by rewrite <- list_elem_of_In).
    rewrite Hex, (bind_Ret _ _ s1 true s1).
    + exists s1, m1. rewrite Hs1 in *. done.
    + rewrite (bind_Ret _ _ _ _ _ (load_vma_eq s1 q v Hat)). unfold covers, USER_ACCESS in *.
      by replace (vm_start v <? end_) with true by lia.
Qed.

(** The check of a range of user memory. *)
Lemma user_mem_check_spec (s : t H) mm m A addr len write :
  mm_ok s mm m A -> is_u32 addr -> is_u32 len ->
  exists b s' m', user_mem_check mm addr len write s = Ret (b, s') /\ mm_ok s' mm m' A /\
    s' = set_mms (mms s') s /\
    (b = true <-> USERBASE <= addr /\ 0 < len /\ addr + len <= USERTOP /\
                  forall a, addr <= a < addr + len -> allowed A write a).
Proof.
  intros Hok Ha Hl. unfold user_mem_check. destruct (ok_mm _ _ _ _ Hok) as [Hn _].
  rewrite (proj2 (Z.eqb_neq mm 0) Hn).
  assert (Hua : USER_ACCESS addr (u32 (addr + len)) = true <->
                USERBASE <= addr /\ 0 < len /\ addr + len <= USERTOP).
  { unfold USER_ACCESS, USERBASE, USERTOP. split.
    - intros ?. assert (Hx : u32 (addr + len) = addr + len \/ u32 (addr + len) = addr + len - 0x100000000) by width.
      unfold is_u32 in *. lia.
    - intros. rewrite u32_id by width. lia. }
  destruct (USER_ACCESS addr (u32 (addr + len))); cbn [negb].
  - destruct Hua as [Hua _]. destruct (Hua eq_refl) as (Hlo & Hpos & Htop).
    rewrite (bind_Ret _ _ _ _ _ (load_mm_eq _ _ _ _ Hok)).
    rewrite u32_id by (unfold USERTOP in Htop; width).
    destruct (check_loop_spec (S (length (mmap_list m))) s mm m A addr (addr + len) write Hok)
      as (b & s' & m' & Hc & Hok' & Hb & _ & Hs').
    { rewrite (Forall2_length _ _ _ (ok_list _ _ _ _ Hok)). unfold above.
      assert (Hlf := length_filter (fun v : vma_struct => addr < vm_end v) A). lia. }
    exists b, s', m'. split; [done|]. split; [done|]. split; [by rewrite Hs' at 1; rewrite Hs'|]. rewrite Hb. naive_solver.
  - exists false, s, m. split; [done|]. split; [done|]. split; [by destruct s|]. naive_solver.
Qed.

(** C19: [user_mem_check] decides access to a user buffer.  On a well-formed
    address space it returns, keeps the address space (only the lookup cache may
    move), and answers yes exactly when the buffer is a nonempty, non-wrapping
    range of user space of which every byte lies in an area with the permission
    asked for and, for a write, above the lowest page of a stack area. *)
Theorem user_mem_check_correct (s : t H) mm m A addr len write :
  mm_ok s mm m A -> is_u32 addr -> is_u32 len ->
  exists b s' m', user_mem_check mm addr len write s = Ret (b, s') /\ mm_ok s' mm m' A /\
    vmas s' = vmas s /\ pg s' = pg s /\ vmem s' = vmem s /\
    (b = true <-> USERBASE <= addr /\ 0 < len /\ addr + len <= USERTOP /\
                  forall a, addr <= a < addr + len -> allowed A write a).
Proof.
  intros Hok Ha Hl. destruct (user_mem_check_spec s mm m A addr len write Hok Ha Hl) as (b & s' & m' & Hc & Hok' & Hs' & Hb).
  exists b, s', m'. split; [done|]. split; [done|]. rewrite Hs'. by split_and!.
Qed.

End Claims.

(** ** A concrete address space *)

Definition demo_code : vma_struct := mk_vma 1 0x400000 0x402000 (Z.lor VM_READ VM_WRITE).
Definition demo_stack : vma_struct := mk_vma 1 0x7ff00000 0x80000000 (Z.lor (Z.lor VM_READ VM_WRITE) VM_STACK).
Definition demo_mm : mm_struct := mk_mm [2; 3] 0 0x80001000 2 false 1 1.
Definition demo_pg : Paging.t := Paging.mk ∅ 0 (Pmm.mk ∅ [] 0) false 0 [] [] [] [] 0 [] 0.
Definition demo : t Bump.t :=
  mk (Bump.mk 5 [1; 2; 3]) demo_pg {[2 := demo_code; 3 := demo_stack]} {[1 := demo_mm]} 0 [] ∅ 0 ∅.

Lemma demo_ok : mm_ok demo 1 demo_mm [demo_code; demo_stack].
Proof.
  split; try done.
  - by repeat constructor.
  - by apply (bool_decide_unpack _).
  - repeat constructor. by unfold before.
  - repeat constructor; done.
  - by left.
Qed.

Lemma demo_heap : heap_ok demo.
Proof.
  assert (Hb : forall a, a = 1 \/ a = 2 \/ a = 3 -> a ∈ blocks (hp demo)).
  { intros a Ha. change (a ∈ (list_to_set (filter (fun p => 0 < p) [1; 2; 3]) : gset Z)).
    apply elem_of_list_to_set, list_elem_of_filter. rewrite !elem_of_cons. split; [lia|tauto]. }
  intros a Ha. apply Hb. destruct (decide (a = 1)) as [->|]; [auto|].
  destruct (decide (a = 2)) as [->|]; [auto|]. destruct (decide (a = 3)) as [->|]; [auto|].
  simpl in Ha. rewrite !lookup_insert_ne, !lookup_singleton_ne in Ha by done.
  destruct Ha as [[? ?]|[? ?]]; done.
Qed.

Lemma user_mem_check_correct_witness :
  exists s', user_mem_check 1 0x401ff0 16 true demo = Ret (true, s').
Proof.
  destruct (user_mem_check_correct demo 1 demo_mm [demo_code; demo_stack] 0x401ff0 16 true demo_ok)
    as (b & s' & m' & Hr & _ & _ & _ & _ & Hb); [width|width|].
  exists s'. rewrite Hr. do 2 f_equal. apply Hb. unfold USERBASE, USERTOP. split_and!; [lia..|].
  intros a Ha. exists demo_code. split; [by left|]. unfold covers, demo_code. simpl. split; [lia|]. done.
Defined.

Lemma mm_map_outcomes_witness :
  exists p s' m', mm_map 1 0x500000 0x1000 VM_READ demo = Ret ((0, p), s') /\
    mm_ok s' 1 m' [demo_code; mk_vma 1 0x500000 0x501000 VM_READ; demo_stack].
Proof.
  destruct (mm_map_outcomes demo 1 demo_mm [demo_code; demo_stack] 0x500000 0x1000 VM_READ demo_ok demo_heap)
    as [(s' & m' & Hr & _)|(p & s' & m' & A1 & A2 & Hr & HA & _ & Hok & _)].
  - exfalso. revert Hr. vm_compute. congruence.
  - exists p, s', m'. split; [exact Hr|].
    assert (Hs := ok_sorted _ _ _ _ Hok). apply StronglySorted_app in Hs as (Hb & _ & Hs).
    apply StronglySorted_inv in Hs as [_ Hs]. rewrite Forall_forall in Hs.
    destruct A1 as [|x1 [|x2 A1]]; simpl in HA.
    + subst A2. exfalso. specialize (Hs demo_code (list_elem_of_here _ _)). by vm_compute in Hs.
    + injection HA as <- <-. exact Hok.
    + assert (x2 = demo_stack) as -> by congruence. exfalso.
      assert (Hx := Hb demo_stack (mk_vma 1 0x500000 0x501000 VM_READ)). unfold before in Hx. simpl in Hx.
      assert (demo_stack ∈ x1 :: demo_stack :: A1) as Hin by (rewrite !elem_of_cons; auto).
      specialize (Hx Hin (list_elem_of_here _ _)). lia.
Defined.
End VmmSpec.
