(* ===== verification/Iobuf.v ===== *)
(** I/O buffers: src/ucore_OS/kern/fs/iobuf.c.  An [iobuf] is passed by
    reference; the functions here return it with its new fields. *)

From S2P Require Import Prelude Mem Strings StringsSpec.

Module Iobuf.
Import Strings.Strings StringsSpec.StringsSpec.

Record iobuf := mk { io_base : Z; io_offset : Z; io_len : Z; io_resid : Z }.

Definition E_NO_MEM : Z := 4.

Definition iobuf_used (iob : iobuf) : Z := u32 (io_len iob - io_resid iob).

Definition iobuf_init (base len offset : Z) : iobuf := mk base offset len len.

Definition iobuf_skip (iob : iobuf) (n : Z) : M mem iobuf :=
  assert_ (n <=? io_resid iob);;
  mret (mk (u32 (io_base iob + n)) (s32 (io_offset iob + n)) (io_len iob) (io_resid iob - n)).

(** The status, the number of bytes moved and the buffer. *)
Definition iobuf_move (iob : iobuf) (data len : Z) (m2b : bool) : M mem (Z * Z * iobuf) :=
  let alen := if len <? io_resid iob then len else io_resid iob in
  r ← (if 0 <? alen then
         memmove (if m2b then io_base iob else data) (if m2b then data else io_base iob) alen;;
         iob' ← iobuf_skip iob alen;
         mret (iob', len - alen)
       else mret (iob, len));
  mret (if r.2 =? 0 then 0 else - E_NO_MEM, alen, r.1).

Definition iobuf_move_zeros (iob : iobuf) (len : Z) : M mem (Z * Z * iobuf) :=
  let alen := if len <? io_resid iob then len else io_resid iob in
  r ← (if 0 <? alen then
         memset (io_base iob) 0 alen;;
         iob' ← iobuf_skip iob alen;
         mret (iob', len - alen)
       else mret (iob, len));
  mret (if r.2 =? 0 then 0 else - E_NO_MEM, alen, r.1).

(** ** Facts *)

(** The rest of the buffer lies in memory and does not wrap around. *)
Record iob_ok (m : mem) (iob : iobuf) : Prop := {
  iob_base : 0 <= io_base iob /\ io_base iob + io_resid iob < 0x100000000;
  iob_resid : 0 <= io_resid iob <= io_len iob /\ io_len iob < 0x100000000;
  iob_offset : is_s32 (io_offset iob);
  iob_mem : allocated m (io_base iob) (Z.to_nat (io_resid iob))
}.

(** The buffer [n] bytes further. *)
Definition advanced (iob : iobuf) (n : Z) : iobuf :=
  mk (io_base iob + n) (s32 (io_offset iob + n)) (io_len iob) (io_resid iob - n).

Lemma iobuf_skip_eq m iob n :
  iob_ok m iob -> 0 <= n <= io_resid iob -> iobuf_skip iob n m = Ret (advanced iob n, m).
Proof.
  intros [Hb Hr _ _] Hn. unfold iobuf_skip. replace (n <=? io_resid iob) with true by lia.
  unfold advanced. rewrite (bind_Ret _ _ m tt m) by done. by rewrite u32_id by width.
Qed.

Lemma iobuf_used_advanced iob m n :
  iob_ok m iob -> 0 <= n <= io_resid iob ->
  iobuf_used (advanced iob n) = io_len iob - io_resid iob + n.
Proof. intros [_ Hr _ _] Hn. unfold iobuf_used, advanced. simpl. rewrite u32_id; width. Qed.

(** Writing at [d] keeps what is allocated. *)
Lemma allocated_same m d l a n :
  allocated m d (length l) -> allocated m a n -> allocated (write_bytes m d l) a n.
Proof. intros Hd Ha. by apply allocated_write. Qed.

Lemma advanced_ok m iob n :
  iob_ok m iob -> 0 <= n <= io_resid iob -> iob_ok m (advanced iob n).
Proof.
  intros [Hb Hr _ Ha] Hn. split; simpl; [lia|lia|width|]. intros i Hi. apply Ha. lia.
Qed.

Lemma iob_ok_write m iob d l : iob_ok m iob -> allocated m d (length l) -> iob_ok (write_bytes m d l) iob.
Proof. intros [Hb Hr Ho Ha] Hd. split; [done|done|done|]. by apply allocated_same. Qed.

Definition moved (iob : iobuf) (len : Z) : Z := Z.min len (io_resid iob).

(** The exact result. *)
Lemma iobuf_move_eq m iob data len (m2b : bool) l :
  iob_ok m iob -> is_u32 len ->
  let n := moved iob len in
  let src := if m2b then data else io_base iob in
  let dst := if m2b then io_base iob else data in
  length l = Z.to_nat n -> bytes m src l -> Forall is_u8 l -> allocated m dst (length l) ->
  iobuf_move iob data len m2b m =
    Ret ((if len <=? io_resid iob then 0 else - E_NO_MEM, n, advanced iob n), write_bytes m dst l).
Proof.
  intros Hok Hlen n src dst Hll Hsrc Hu Hdst.
  assert (Hr := iob_resid _ _ Hok). assert (Hn : 0 <= n <= io_resid iob) by (unfold n, moved, is_u32 in *; lia).
  assert (Halen : (if len <? io_resid iob then len else io_resid iob) = n).
  { unfold n, moved. destruct (Z.ltb_spec len (io_resid iob)); lia. }
  assert (Hst : (len - n =? 0) = (len <=? io_resid iob)).
  { unfold n, moved. destruct (Z.leb_spec len (io_resid iob)); lia. }
  unfold iobuf_move. rewrite Halen. destruct (Z.ltb_spec 0 n) as [Hpos|Hz].
  - fold src dst. assert (Hmm := memmove_eq m dst src l Hsrc Hu Hdst). rewrite Hll, Z2Nat.id in Hmm by lia.
    assert (Hsk := iobuf_skip_eq (write_bytes m dst l) iob n (iob_ok_write _ _ _ _ Hok Hdst) Hn).
    rewrite (bind_Ret _ _ m (advanced iob n, len - n) (write_bytes m dst l)); [simpl; by rewrite Hst|].
    rewrite (bind_Ret _ _ _ _ _ Hmm). by rewrite (bind_Ret _ _ _ _ _ Hsk).
  - assert (Hn0 : n = 0) by lia. destruct l; [|simpl in Hll; lia].
    assert (Hid : advanced iob n = iob).
    { assert (Ho := iob_offset _ _ Hok). unfold advanced. rewrite Hn0. destruct iob as [b o ln rs]. simpl in *.
      rewrite Z.add_0_r, s32_id by (by rewrite Z.add_0_r). f_equal; lia. }
    rewrite (bind_Ret _ _ m (iob, len) m) by done. cbn [fst snd write_bytes]. rewrite Hid.
    by replace (len =? 0) with (len <=? io_resid iob) by (rewrite <- Hst, Hn0; f_equal; lia).
Qed.

(** C21: [iobuf_move] transfers within bounds.  It moves the first
    [min(len, io_resid)] bytes between the caller's data and the buffer, in the
    direction asked for, and changes no other byte of memory; the buffer
    advances by that count and never past its end, and the status is
    -E_NO_MEM exactly when the data did not fit. *)
Theorem iobuf_move_bounds m iob data len (m2b : bool) l :
  iob_ok m iob -> is_u32 len ->
  let n := moved iob len in
  let src := if m2b then data else io_base iob in
  let dst := if m2b then io_base iob else data in
  length l = Z.to_nat n -> bytes m src l -> Forall is_u8 l -> allocated m dst (length l) ->
  exists m' iob', iobuf_move iob data len m2b m = Ret ((if len <=? io_resid iob then 0 else - E_NO_MEM, n, iob'), m') /\
    iob' = advanced iob n /\ iob_ok m' iob' /\
    iobuf_used iob' = io_len iob - io_resid iob + n /\
    bytes m' dst l /\ (forall i, i < dst \/ dst + n <= i -> m' !! i = m !! i).
Proof.
  intros Hok Hlen n src dst Hll Hsrc Hu Hdst.
  assert (Hr := iob_resid _ _ Hok). assert (Hn : 0 <= n <= io_resid iob) by (unfold n, moved, is_u32 in *; lia).
  exists (write_bytes m dst l), (advanced iob n). split; [by apply iobuf_move_eq|]. split; [done|].
  split; [apply iob_ok_write; [by apply advanced_ok|done]|]. split; [by apply (iobuf_used_advanced _ m)|].
  split; [apply bytes_write|]. intros i Hi. apply write_bytes_out. lia.
Qed.

Definition demo_mem : mem := list_to_map ((fun i => (i, i)) <$> seqZ 100 40).

Lemma iobuf_move_bounds_witness :
  exists m' iob', iobuf_move (iobuf_init 100 4 0) 120 6 true demo_mem = Ret ((- E_NO_MEM, 4, iob'), m') /\
    io_resid iob' = 0 /\ bytes m' 100 [120; 121; 122; 123].
Proof.
  assert (Hal : forall a n, 100 <= a -> a + Z.of_nat n <= 140 -> allocated demo_mem a n).
  { intros a n Ha Hn i Hi. assert (Hin : (i, i) ∈ (fun i : Z => (i, i)) <$> seqZ 100 40).
    { apply list_elem_of_fmap. exists i. split; [done|]. apply elem_of_seqZ. lia. }
    exists i. apply elem_of_list_to_map; [|done]. rewrite <- list_fmap_compose.
    apply NoDup_fmap_2; [by intros ?? ?|]. apply NoDup_seqZ. }
  destruct (iobuf_move_bounds demo_mem (iobuf_init 100 4 0) 120 6 true [120; 121; 122; 123])
    as (m' & iob' & Hr & -> & _ & _ & Hb & _).
  - split; simpl; [lia|lia|width|]. apply Hal; lia.
  - width.
  - done.
  - by vm_compute.
  - repeat constructor; width.
  - apply Hal; simpl; lia.
  - exists m'. eexists. split; [exact Hr|]. split; [done|exact Hb].
Defined.

End Iobuf.
