(* ===== verification/Bitmap.v ===== *)
(** Bit maps of free blocks: src/ucore_OS/kern/fs/sfs/bitmap.c.  A set bit is a
    free index.  The operations run on the structure with the words its [map]
    field points to. *)

From S2P Require Import Prelude Heap.

Module Bitmap.

Definition E_NO_MEM : Z := 4.
Definition WORD_BITS : Z := 32.

Record bitmap := mk { addr : Z; nbits : Z; nwords : Z; map_addr : Z; map : list Z }.

Definition set_map l (b : bitmap) : bitmap := mk (addr b) (nbits b) (nwords b) (map_addr b) l.

Definition sizeof_bitmap : Z := 12.
Definition ROUNDUP_DIV (a n : Z) : Z := u32 (a + n - 1) `div` n.
Definition mask_of (offset : Z) : Z := u32 (1 ≪ offset).

(** [for (; overbits < WORD_BITS; overbits ++) map[ix] ^= (1 << overbits)] *)
Fixpoint clear_over (n : nat) (overbits w : Z) : Z :=
  match n with O => w | S n => clear_over n (overbits + 1) (Z.lxor w (mask_of overbits)) end.

Section Create.
  Context {H : Type} `{Heap H}.

Definition bitmap_create (nbits : Z) : M H (option bitmap) :=
  assert_ (negb (nbits =? 0) && (nbits <? u32 (nbits + WORD_BITS)));;
  bitmap ← kmalloc sizeof_bitmap;
  if bitmap =? 0 then mret None else
  let nwords := ROUNDUP_DIV nbits WORD_BITS in
  map ← kmalloc (u32 (4 * nwords));
  if map =? 0 then kfree bitmap;; mret None else
  let words := replicate (Z.to_nat nwords) 0xffffffff in
  if nbits =? u32 (nwords * WORD_BITS) then mret (Some (mk bitmap nbits nwords map words)) else
  let ix := nwords - 1 in
  let overbits := nbits - ix * WORD_BITS in
  assert_ (nbits / WORD_BITS =? ix);;
  assert_ ((0 <? overbits) && (overbits <? WORD_BITS));;
  mret (Some (mk bitmap nbits nwords map
    (arr_set words ix (clear_over (Z.to_nat (WORD_BITS - overbits)) overbits (arr_get words ix))))).

Definition bitmap_destroy (b : bitmap) : M H unit := kfree (map_addr b);; kfree (addr b).

End Create.

(** The inner loop of [bitmap_alloc] on the word [w]. *)
Fixpoint find_offset (n : nat) (offset w : Z) : option Z :=
  match n with
  | O => None
  | S n => if negb (Z.land w (mask_of offset) =? 0) then Some offset else find_offset n (offset + 1) w
  end.

(** The words from [ix] on, [n] left. *)
Fixpoint alloc_loop (n : nat) (ix : Z) : M bitmap (Z * Z) :=
  match n with
  | O => mret (- E_NO_MEM, 0)
  | S n =>
      b ← get;
      let w := arr_get (map b) ix in
      if w =? 0 then alloc_loop n (ix + 1) else
      match find_offset (Z.to_nat WORD_BITS) 0 w with
      | Some offset =>
          put (set_map (arr_set (map b) ix (Z.lxor w (mask_of offset))) b);;
          mret (0, u32 (ix * WORD_BITS + offset))
      | None => panic
      end
  end.
(** The status and the index stored. *)
Definition bitmap_alloc : M bitmap (Z * Z) := b ← get; alloc_loop (Z.to_nat (nwords b)) 0.

(** The index of the word and the mask. *)
Definition bitmap_translate (index : Z) : M bitmap (Z * Z) :=
  b ← get;
  assert_ (index <? nbits b);;
  mret (index `div` WORD_BITS, mask_of (index `mod` WORD_BITS)).

Definition bitmap_test (index : Z) : M bitmap Z :=
  r ← bitmap_translate index; b ← get; mret (Z.land (arr_get (map b) r.1) r.2).

Definition bitmap_free (index : Z) : M bitmap unit :=
  r ← bitmap_translate index;
  b ← get;
  let w := arr_get (map b) r.1 in
  assert_ (Z.land w r.2 =? 0);;
  put (set_map (arr_set (map b) r.1 (Z.lor w r.2)) b).

Definition bitmap_getdata (b : bitmap) : Z * Z := (map_addr b, u32 (4 * nwords b)).

(** ** The set of free indices *)

Definition free (b : bitmap) (i : Z) : bool :=
  Z.testbit (arr_get (map b) (i `div` 32)) (i `mod` 32).

Record wf (b : bitmap) : Prop := {
  wf_size : 0 < nbits b /\ nbits b + 32 < 0x100000000;
  wf_words : 32 * (nwords b - 1) < nbits b <= 32 * nwords b;
  wf_map : length (map b) = Z.to_nat (nwords b) /\ Forall is_u32 (map b);
  wf_over i : nbits b <= i < 32 * nwords b -> free b i = false
}.

Lemma mask_eq o : 0 <= o < 32 -> mask_of o = 2 ^ o.
Proof.
  intros Ho. unfold mask_of. rewrite Z.shiftl_1_l. apply u32_id. split; [lia|].
  apply (Z.pow_lt_mono_r 2 o 32); lia.
Qed.

Lemma mask_test w o : 0 <= o < 32 -> negb (Z.land w (mask_of o) =? 0) = Z.testbit w o.
Proof.
  intros Ho. rewrite mask_eq, land_pow2 by lia. destruct (Z.testbit w o); [|done].
  destruct (Z.eqb_spec (2 ^ o) 0); [|done]. assert (0 < 2 ^ o) by (apply Z.pow_pos_nonneg; lia). lia.
Qed.

Lemma find_offset_spec w n o :
  0 <= o -> o + Z.of_nat n = 32 ->
  match find_offset n o w with
  | Some k => o <= k < 32 /\ Z.testbit w k = true /\ forall j, o <= j < k -> Z.testbit w j = false
  | None => forall j, o <= j < 32 -> Z.testbit w j = false
  end.
Proof.
  revert o. induction n as [|n IH]; intros o Ho Hn; simpl; [intros; lia|].
  rewrite mask_test by lia. destruct (Z.testbit w o) eqn:E; [split; [lia|]; split; [done|lia]|].
  specialize (IH (o + 1)). destruct (find_offset n (o + 1) w) as [k|].
  - destruct IH as (Hk & Hb & Hj); [lia..|]. split; [lia|]. split; [done|].
    intros j Hj'. destruct (decide (j = o)) as [->|]; [done|]. apply Hj. lia.
  - intros j Hj. destruct (decide (j = o)) as [->|]; [done|]. apply IH; lia.
Qed.

Lemma testbit_lxor_mask w o j : 0 <= o < 32 -> 0 <= j ->
  Z.testbit (Z.lxor w (mask_of o)) j = if decide (j = o) then negb (Z.testbit w o) else Z.testbit w j.
Proof.
  intros Ho Hj. rewrite mask_eq, Z.lxor_spec, Z.pow2_bits_eqb by lia.
  case_decide as Hd; [subst; rewrite Z.eqb_refl; apply xorb_true_r|].
  destruct (Z.eqb_spec o j); [lia|]. apply xorb_false_r.
Qed.

Lemma testbit_lor_mask w o j : 0 <= o < 32 -> 0 <= j ->
  Z.testbit (Z.lor w (mask_of o)) j = if decide (j = o) then true else Z.testbit w j.
Proof.
  intros Ho Hj. rewrite mask_eq, Z.lor_spec, Z.pow2_bits_eqb by lia.
  case_decide as Hd; [subst; rewrite Z.eqb_refl; apply orb_true_r|].
  destruct (Z.eqb_spec o j); [lia|]. apply orb_false_r.
Qed.

Lemma mask_u32 o : is_u32 (mask_of o).
Proof. apply u32_range. Qed.

Section Update.
  Context (b : bitmap) (i : Z).
  Hypothesis Hwf : wf b.
  Hypothesis Hi : 0 <= i < nbits b.

Lemma index_range : 0 <= i `div` 32 < Z.of_nat (length (map b)).
Proof. destruct (wf_map _ Hwf) as [-> _]. destruct (wf_words _ Hwf). width. Qed.

Lemma word_u32 j : is_u32 (arr_get (map b) j).
Proof using Hwf. apply arr_get_Forall; [by destruct (wf_map _ Hwf)|by split]. Qed.

(** Changing the bit of [i] by the word operation [w]. *)
Lemma free_set w' j :
  (forall k, 0 <= k -> k <> i `mod` 32 -> Z.testbit w' k = Z.testbit (arr_get (map b) (i `div` 32)) k) ->
  0 <= j ->
  free (set_map (arr_set (map b) (i `div` 32) w') b) j
  = if decide (j = i) then Z.testbit w' (i `mod` 32) else free b j.
Proof.
  intros Hw Hj. assert (Hr := index_range). unfold free. simpl. case_decide as Hd.
  - subst. by rewrite arr_get_set_eq.
  - destruct (decide (j `div` 32 = i `div` 32)) as [He|Hne].
    + rewrite He, arr_get_set_eq by done. apply Hw; width.
    + rewrite arr_get_set_ne; [done|lia|width|done].
Qed.

Lemma set_wf w' :
  is_u32 w' ->
  (forall k, 0 <= k -> k <> i `mod` 32 -> Z.testbit w' k = Z.testbit (arr_get (map b) (i `div` 32)) k) ->
  wf (set_map (arr_set (map b) (i `div` 32) w') b).
Proof.
  intros Hu Hw. destruct Hwf as [Hs Hn [Hl Hf] Ho]. split; simpl; [done|done| |].
  - rewrite arr_set_length. split; [done|]. by apply arr_set_Forall.
  - intros j Hj. rewrite free_set by (done || lia). rewrite decide_False by lia. by apply Ho.
Qed.

End Update.

(** ** Properties *)

(** The bit map without the index [i]. *)
Definition without (b : bitmap) (i : Z) : bitmap :=
  set_map (arr_set (map b) (i `div` 32) (Z.lxor (arr_get (map b) (i `div` 32)) (mask_of (i `mod` 32)))) b.

Lemma without_free b i j :
  wf b -> 0 <= i < nbits b -> free b i = true -> 0 <= j -> free (without b i) j = if decide (j = i) then false else free b j.
Proof.
  intros Hwf Hi Hf Hj. unfold without. rewrite (free_set b i Hwf Hi) by
    (try done; intros k Hk Hne; rewrite testbit_lxor_mask by width; by rewrite decide_False).
  case_decide; [|done]. rewrite testbit_lxor_mask, decide_True by width. unfold free in Hf. by rewrite Hf.
Qed.

Lemma without_wf b i : wf b -> 0 <= i < nbits b -> wf (without b i).
Proof.
  intros Hwf Hi. apply set_wf; [done..| |].
  - apply is_u32_lxor; [by apply word_u32|apply mask_u32].
  - intros k Hk Hne. rewrite testbit_lxor_mask by width. by rewrite decide_False.
Qed.

Lemma alloc_loop_spec b n ix :
  wf b -> 0 <= ix -> ix + Z.of_nat n = nwords b ->
  (forall j, 0 <= j < 32 * ix -> free b j = false) ->
  exists r, alloc_loop n ix b = Ret r /\
    ((r = ((- E_NO_MEM, 0), b) /\ forall j, 0 <= j < nbits b -> free b j = false) \/
     exists i, r = ((0, i), without b i) /\ 0 <= i < nbits b /\ free b i = true /\
       forall j, 0 <= j < i -> free b j = false).
Proof.
  intros Hwf. revert ix. induction n as [|n IH]; intros ix Hix Hn Hlow; cbn [alloc_loop].
  { exists ((- E_NO_MEM, 0), b). split; [done|]. left. split; [done|]. intros j Hj. apply Hlow.
    destruct (wf_words _ Hwf). lia. }
  rewrite (bind_Ret _ _ b b b) by done. cbv zeta.
  assert (Hfree : forall j, 0 <= j -> j `div` 32 = ix -> free b j = Z.testbit (arr_get (map b) ix) (j `mod` 32)).
  { intros j _ <-. done. }
  assert (Hnext : (forall k, 0 <= k < 32 -> Z.testbit (arr_get (map b) ix) k = false) ->
    forall j, 0 <= j < 32 * (ix + 1) -> free b j = false).
  { intros Hz j Hj. destruct (Z.lt_ge_cases j (32 * ix)); [apply Hlow; lia|]. rewrite Hfree by width. apply Hz. width. }
  destruct (Z.eqb_spec (arr_get (map b) ix) 0) as [H0|H0].
  { apply IH; [lia|lia|]. apply Hnext. intros k _. rewrite H0. apply Z.bits_0. }
  assert (Hfo := find_offset_spec (arr_get (map b) ix) (Z.to_nat WORD_BITS) 0 ltac:(lia) ltac:(done)).
  destruct (find_offset _ 0 _) as [o|].
  - destruct Hfo as (Ho & Hb & Hj).
    set (i := ix * 32 + o). assert (Hd : i `div` 32 = ix /\ i `mod` 32 = o) by (unfold i; width).
    destruct Hd as [Hd Hm].
    assert (Hfi : free b i = true) by (unfold free; by rewrite Hd, Hm).
    assert (Hir : 0 <= i < nbits b).
    { split; [unfold i; lia|]. apply Z.nle_gt. intros Hge. rewrite (wf_over _ Hwf) in Hfi; [done|].
      destruct (wf_words _ Hwf). unfold i in *. lia. }
    exists ((0, i), without b i). split.
    + unfold without. rewrite Hd, Hm. rewrite (bind_Ret _ _ b tt _ eq_refl). unfold WORD_BITS. fold i.
      rewrite u32_id; [done|]. destruct (wf_size _ Hwf). width.
    + right. exists i. split_and!; try done; [lia..|]. intros j Hj'.
      destruct (Z.lt_ge_cases j (32 * ix)); [apply Hlow; lia|].
      rewrite Hfree by (unfold i in *; width). apply Hj. unfold i in *. width.
  - exfalso. apply H0. apply Z.bits_inj'. intros k Hk. rewrite Z.bits_0.
    destruct (Z.lt_ge_cases k 32); [apply Hfo; lia|].
    apply (testbit_bound _ 32); [|lia]. exact (word_u32 b Hwf ix).
Qed.

(** Freeing an index puts its bit back. *)
Lemma free_without b i :
  wf b -> 0 <= i < nbits b -> free b i = true -> bitmap_free i (without b i) = Ret (tt, b).
Proof.
  intros Hwf Hi Hf. unfold bitmap_free, bitmap_translate, WORD_BITS.
  assert (Hr := index_range b i Hwf Hi).
  set (w := arr_get (map b) (i `div` 32)). set (o := i `mod` 32). assert (Ho : 0 <= o < 32) by (unfold o; width).
  rewrite (bind_Ret _ _ (without b i) (i `div` 32, mask_of o) (without b i)).
  2: { rewrite (bind_Ret _ _ _ (without b i) (without b i)) by done. simpl.
       replace (i <? nbits b) with true by lia. done. }
  rewrite (bind_Ret _ _ _ (without b i) (without b i)) by done. cbn [fst snd].
  assert (Hw : arr_get (map (without b i)) (i `div` 32) = Z.lxor w (mask_of o)).
  { unfold without. simpl. by rewrite arr_get_set_eq. }
  rewrite Hw. assert (Hz : Z.land (Z.lxor w (mask_of o)) (mask_of o) =? 0 = true).
  { apply negb_false_iff. rewrite mask_test, testbit_lxor_mask, decide_True by (done || lia).
    unfold free in Hf. fold w o in Hf. by rewrite Hf. }
  rewrite Hz, (bind_Ret _ _ _ tt (without b i)) by done. unfold put, without, set_map. simpl.
  rewrite arr_set_set. do 2 f_equal. destruct b as [ad nb nw ma mp]. simpl in *. f_equal.
  assert (Hlor : Z.lor (Z.lxor w (mask_of o)) (mask_of o) = w).
  { apply Z.bits_inj'. intros k Hk. rewrite testbit_lor_mask by lia. case_decide as Hd.
    - subst k. symmetry. exact Hf.
    - rewrite testbit_lxor_mask by lia. by rewrite decide_False. }
  rewrite Hlor. unfold w, arr_set, arr_get. apply list_insert_id.
  destruct (lookup_lt_is_Some_2 mp (Z.to_nat (i `div` 32))) as [x Hx]; [lia|]. by rewrite Hx.
Qed.

(** The bit map with the index [i]. *)
Definition including (b : bitmap) (i : Z) : bitmap :=
  set_map (arr_set (map b) (i `div` 32) (Z.lor (arr_get (map b) (i `div` 32)) (mask_of (i `mod` 32)))) b.

Lemma including_free b i j :
  wf b -> 0 <= i < nbits b -> 0 <= j -> free (including b i) j = if decide (j = i) then true else free b j.
Proof.
  intros Hwf Hi Hj. unfold including. rewrite (free_set b i Hwf Hi) by
    (try done; intros k Hk Hne; rewrite testbit_lor_mask by width; by rewrite decide_False).
  case_decide; [|done]. by rewrite testbit_lor_mask, decide_True by width.
Qed.

Lemma including_wf b i : wf b -> 0 <= i < nbits b -> wf (including b i).
Proof.
  intros Hwf Hi. apply set_wf; [done..| |].
  - apply is_u32_lor; [by apply word_u32|apply mask_u32].
  - intros k Hk Hne. rewrite testbit_lor_mask by width. by rewrite decide_False.
Qed.

Lemma bitmap_translate_eq b i :
  i < nbits b -> bitmap_translate i b = Ret ((i `div` 32, mask_of (i `mod` 32)), b).
Proof.
  intros Hi. unfold bitmap_translate. rewrite (bind_Ret _ _ b b b) by done.
  by replace (i <? nbits b) with true by lia.
Qed.

Lemma bitmap_free_eq b i :
  i < nbits b -> free b i = false -> bitmap_free i b = Ret (tt, including b i).
Proof.
  intros Hi Hf. unfold bitmap_free. rewrite (bind_Ret _ _ _ _ _ (bitmap_translate_eq b i Hi)).
  rewrite (bind_Ret _ _ b b b) by done. cbn [fst snd].
  assert (Hz : Z.land (arr_get (map b) (i `div` 32)) (mask_of (i `mod` 32)) =? 0 = true).
  { apply negb_false_iff. by rewrite mask_test by width. }
  by rewrite Hz, (bind_Ret _ _ b tt b) by done.
Qed.

Lemma bitmap_test_eq b i :
  i < nbits b -> exists w, bitmap_test i b = Ret (w, b) /\ (w =? 0) = negb (free b i).
Proof.
  intros Hi. unfold bitmap_test. rewrite (bind_Ret _ _ _ _ _ (bitmap_translate_eq b i Hi)).
  rewrite (bind_Ret _ _ b b b) by done. cbn [fst snd]. eexists. split; [done|].
  unfold free. rewrite <- mask_test by width. by rewrite negb_involutive.
Qed.

(** The bit map refines a set of free indices.  [bitmap_alloc] returns the
    least free index below [nbits] and removes exactly that index, or returns
    -E_NO_MEM, changing nothing, when there is none; the map stays well formed,
    and [bitmap_free] of the index restores it exactly. *)
Theorem bitmap_alloc_correct b :
  wf b ->
  exists r, bitmap_alloc b = Ret r /\
    ((r = ((- E_NO_MEM, 0), b) /\ forall j, 0 <= j < nbits b -> free b j = false) \/
     exists i b', r = ((0, i), b') /\ wf b' /\ 0 <= i < nbits b /\ free b i = true /\
       (forall j, 0 <= j < i -> free b j = false) /\
       (forall j, 0 <= j -> free b' j = if decide (j = i) then false else free b j) /\
       bitmap_free i b' = Ret (tt, b)).
Proof.
  intros Hwf. unfold bitmap_alloc. rewrite (bind_Ret _ _ b b b) by done.
  destruct (alloc_loop_spec b (Z.to_nat (nwords b)) 0 Hwf) as (r & Hr & [[-> Hno]|(i & -> & Hi & Hf & Hleast)]);
    [lia|destruct (wf_words _ Hwf), (wf_size _ Hwf); lia|lia| |].
  - exists ((- E_NO_MEM, 0), b). split; [done|]. by left.
  - exists ((0, i), without b i). split; [done|]. right. exists i, (without b i).
    split_and!; try done; [by apply without_wf|lia|lia| |by apply free_without].
    intros j Hj. by apply without_free.
Qed.

(** ** Creation *)

Lemma clear_over_spec n o w j :
  0 <= o -> o + Z.of_nat n <= 32 -> 0 <= j ->
  Z.testbit (clear_over n o w) j = if decide (o <= j < o + Z.of_nat n) then negb (Z.testbit w j) else Z.testbit w j.
Proof.
  revert o w. induction n as [|n IH]; intros o w Ho Hn Hj; cbn [clear_over].
  { rewrite decide_False; [done|lia]. }
  rewrite IH, testbit_lxor_mask by lia. destruct (decide (j = o)) as [->|].
  - rewrite decide_False, decide_True by lia. done.
  - destruct (decide (o + 1 <= j < o + 1 + Z.of_nat n));
      [rewrite decide_True by lia|rewrite decide_False by lia]; done.
Qed.

Lemma ones_word k : 0 <= k < 32 -> Z.testbit 0xffffffff k = true.
Proof. intros Hk. change 0xffffffff with (Z.ones 32). apply Z.ones_spec_low. lia. Qed.

Lemma replicate_get n x i : 0 <= i < Z.of_nat n -> arr_get (replicate n x) i = x.
Proof. intros Hi. unfold arr_get. by rewrite lookup_replicate_2 by lia. Qed.

(** The words of a new map of [nb] bits. *)
Definition new_map (nb : Z) : list Z :=
  let nwords := ROUNDUP_DIV nb WORD_BITS in
  let words := replicate (Z.to_nat nwords) 0xffffffff in
  if nb =? u32 (nwords * WORD_BITS) then words else
  let ix := nwords - 1 in
  let overbits := nb - ix * WORD_BITS in
  arr_set words ix (clear_over (Z.to_nat (WORD_BITS - overbits)) overbits (arr_get words ix)).

Lemma clear_over_u32 n o w : is_u32 w -> is_u32 (clear_over n o w).
Proof.
  revert o w. induction n as [|n IH]; intros o w Hw; [done|]. cbn [clear_over]. apply IH.
  apply is_u32_lxor; [done|apply mask_u32].
Qed.

(** A new map is well formed and has every index free. *)
Lemma new_map_wf a ma nb :
  0 < nb -> nb + 32 < 0x100000000 ->
  let b := mk a nb (ROUNDUP_DIV nb WORD_BITS) ma (new_map nb) in
  wf b /\ forall i, 0 <= i < nb -> free b i = true.
Proof.
  intros H0 H1 b. unfold b. assert (Hnw : ROUNDUP_DIV nb WORD_BITS = (nb + 31) `div` 32).
  { unfold ROUNDUP_DIV, WORD_BITS. rewrite u32_id by width. f_equal. lia. }
  set (nw := ROUNDUP_DIV nb WORD_BITS) in *.
  assert (Hr : 32 * (nw - 1) < nb <= 32 * nw) by (rewrite Hnw; width).
  assert (Hu : u32 (nw * WORD_BITS) = nw * 32) by (unfold WORD_BITS; apply u32_id; width).
  assert (Hbits : forall i, 0 <= i < 32 * nw ->
    Z.testbit (arr_get (new_map nb) (i `div` 32)) (i `mod` 32) = bool_decide (i < nb)).
  { intros i Hi. unfold new_map. fold nw. rewrite Hu. destruct (Z.eqb_spec nb (nw * 32)) as [He|Hne].
    - rewrite replicate_get, ones_word by width. symmetry. apply bool_decide_eq_true. lia.
    - destruct (decide (i `div` 32 = nw - 1)) as [Hl|Hl].
      + rewrite Hl, arr_get_set_eq, replicate_get by (rewrite ?length_replicate; lia).
        unfold WORD_BITS. rewrite clear_over_spec, ones_word by width.
        destruct (decide _); symmetry; [apply bool_decide_eq_false|apply bool_decide_eq_true]; width.
      + rewrite arr_get_set_ne, replicate_get, ones_word by (lia || width).
        symmetry. apply bool_decide_eq_true. width. }
  split; [split; cbn [nbits nwords map]|].
  - lia.
  - lia.
  - unfold new_map. fold nw. destruct (_ =? _).
    + rewrite length_replicate. split; [done|]. apply Forall_replicate. width.
    + rewrite arr_set_length, length_replicate. split; [done|]. apply arr_set_Forall.
      * apply Forall_replicate. width.
      * apply clear_over_u32. apply arr_get_Forall; [apply Forall_replicate; width|width].
  - intros i Hi. unfold free. cbn [map]. rewrite Hbits by lia. apply bool_decide_eq_false. lia.
  - intros i Hi. unfold free. cbn [map]. rewrite Hbits by lia. apply bool_decide_eq_true. lia.
Qed.

(** What [bitmap_create] returns when the heap has room. *)
Lemma bitmap_create_wf {H} `{Heap H} nb (h h' : H) b :
  is_u32 nb -> bitmap_create nb h = Ret (Some b, h') -> wf b /\ forall i, 0 <= i < nb -> free b i = true.
Proof.
  intros Hnb. unfold bitmap_create, mbind, M_bind, assert_, WORD_BITS.
  destruct (negb (nb =? 0) && (nb <? u32 (nb + 32))) eqn:Hg; [|done]. cbn [mret M_ret].
  assert (Hrange : 0 < nb /\ nb + 32 < 0x100000000).
  { apply andb_true_iff in Hg as [Hz Hw]. destruct (Z.eqb_spec nb 0); [done|]. unfold is_u32 in *.
    split; [lia|]. apply Z.nle_gt. intros Hge. assert (u32 (nb + 32) = nb + 32 - 0x100000000) by width. lia. }
  destruct (kmalloc sizeof_bitmap h) as [[p h1]| | |]; try done. destruct (p =? 0); [done|].
  destruct (kmalloc _ h1) as [[q h2]| | |]; try done. destruct (q =? 0).
  { destruct (kfree p h2) as [[[] h3]| | |]; done. }
  destruct (new_map_wf p q nb) as [Hw Hf]; [lia..|]. unfold new_map, WORD_BITS in *.
  destruct (nb =? u32 (ROUNDUP_DIV nb 32 * 32)).
  - intros Hx. injection Hx as <- _. done.
  - destruct (nb / 32 =? _); [|discriminate]. destruct ((0 <? _) && _); [|discriminate]. intros Hx. injection Hx as <- _. done.
Qed.

Definition demo : bitmap := mk 1 40 2 2 (new_map 40).

Lemma bitmap_alloc_correct_witness :
  exists b', bitmap_alloc demo = Ret ((0, 0), b') /\ wf b' /\ bitmap_free 0 b' = Ret (tt, demo).
Proof.
  assert (Hd : wf demo /\ forall i, 0 <= i < 40 -> free demo i = true) by (apply (new_map_wf 1 2 40); lia).
  destruct Hd as [Hwf Hfree].
  destruct (bitmap_alloc_correct demo Hwf) as (r & Hr & [[_ Hno]|(i & b' & -> & Hw & Hi & Hf & Hl & _ & Hback)]).
  - exfalso. assert (Hx := Hfree 0 ltac:(lia)). assert (Hy := Hno 0 ltac:(split; [lia|done])). congruence.
  - destruct (decide (i = 0)) as [->|Hne]; [by exists b'|]. exfalso.
    assert (Hx := Hfree 0 ltac:(lia)). assert (Hy := Hl 0 ltac:(lia)). congruence.
Defined.
End Bitmap.
