(* ===== verification/Vfs.v ===== *)
(** The virtual file system: inodes and their two counts (kern/fs/vfs/inode.c),
    opening and closing (vfsfile.c), names (vfslookup.c, vfspath.c), the boot
    file system (vfs.c) and the device list (vfsdev.c).  What a file system or
    device does behind its [inode_ops] is the interface [FsOps].  Locks are taken
    and released around sections that do not sleep, and are left out. *)

From S2P Require Import Prelude Mem Strings Heap Iobuf.

Module Vfs.
Import Strings.Strings Iobuf.

Definition E_INVAL : Z := 3.
Definition E_NO_MEM : Z := 4.
Definition E_TOO_BIG : Z := 12.
Definition E_NO_DEV : Z := 13.
Definition E_NA_DEV : Z := 14.
Definition E_BUSY : Z := 15.
Definition E_NOENT : Z := 16.
Definition E_NOTDIR : Z := 18.
Definition E_UNIMP : Z := 20.
Definition E_EXISTS : Z := 23.

Definition O_RDONLY : Z := 0.
Definition O_WRONLY : Z := 1.
Definition O_RDWR : Z := 2.
Definition O_CREAT : Z := 0x4.
Definition O_EXCL : Z := 0x8.
Definition O_TRUNC : Z := 0x10.
Definition O_APPEND : Z := 0x20.
Definition O_ACCMODE : Z := 3.
Definition FS_MAX_DNAME_LEN : Z := 31.
Definition MAX_INODE_COUNT : Z := 0x10000.

Record stat := mk_stat { st_mode : Z; st_nlinks : Z; st_blocks : Z; st_size : Z }.
Definition S_IFMT : Z := 0x7000.
Definition S_IFDIR : Z := 0x2000.
Definition S_ISDIR (mode : Z) : bool := Z.land mode S_IFMT =? S_IFDIR.

(** [in_type] is true for a device; [in_fs] is the address of the [struct fs]. *)
Record inode := mk_inode { ref_count : Z; open_count : Z; is_device : bool; in_fs : Z }.

(** What the operations of a file system see: the inodes, its own state and
    memory. *)
Record env (F : Type) := mk_env { inodes : gmap Z inode; fsys : F; vmem : mem }.
Arguments mk_env {F}. Arguments inodes {F}. Arguments fsys {F}. Arguments vmem {F}.

(** The operations of [struct inode_ops] that are called. *)
Inductive opname :=
| VOpen | VClose | VRead | VWrite | VFstat | VFsync | VNamefile | VGetdirentry | VReclaim | VGettype
| VTryseek | VTruncate | VCreate | VLookup.

(** [inode_ops] and the operations of [struct fs]; a result that the code
    stores through a pointer is returned beside the status.  [has_op] says
    whether the table of the inode has an entry for an operation: it may be
    NULL. *)
Class FsOps (F : Type) := {
  has_op : opname -> Z -> M (env F) bool;
  op_open : Z -> Z -> M (env F) Z;
  op_close : Z -> M (env F) Z;
  op_read : Z -> iobuf -> M (env F) (Z * iobuf);
  op_write : Z -> iobuf -> M (env F) (Z * iobuf);
  op_fstat : Z -> M (env F) (Z * stat);
  op_fsync : Z -> M (env F) Z;
  op_namefile : Z -> iobuf -> M (env F) (Z * iobuf);
  op_getdirentry : Z -> iobuf -> M (env F) (Z * iobuf);
  op_reclaim : Z -> M (env F) Z;
  op_gettype : Z -> M (env F) (Z * Z);
  op_tryseek : Z -> Z -> M (env F) Z;
  op_truncate : Z -> Z -> M (env F) Z;
  op_create : Z -> Z -> bool -> M (env F) (Z * Z);
  op_lookup : Z -> Z -> M (env F) (Z * Z);
  fs_sync : Z -> M (env F) Z;
  fs_get_root : Z -> M (env F) Z;
  fs_unmount : Z -> M (env F) Z;
  fs_cleanup : Z -> M (env F) unit
}.

(** ** Inodes (inode.c) *)

Section Inode.
  Context {F : Type} `{FsOps F} `{Heap F}.

Definition set_inodes i (e : env F) : env F := mk_env i (fsys e) (vmem e).

Definition load_inode (node : Z) : M (env F) inode := fun e =>
  match inodes e !! node with Some i => Ret (i, e) | None => Fault end.
Definition put_inode (node : Z) (i : inode) : M (env F) unit :=
  modify (fun e => set_inodes (<[node := i]> (inodes e)) e).
Definition on_heap {A} (m : M F A) : M (env F) A := fun e =>
  match m (fsys e) with
  | Ret (a, f) => Ret (a, mk_env (inodes e) f (vmem e))
  | Panic => Panic | Fault => Fault | Diverge => Diverge
  end.
Definition on_mem {A} (m : M mem A) : M (env F) A := fun e =>
  match m (vmem e) with
  | Ret (a, v) => Ret (a, mk_env (inodes e) (fsys e) v)
  | Panic => Panic | Fault => Fault | Diverge => Diverge
  end.

(** 44 bytes of [in_info], the larger of its two cases, and five words. *)
Definition sizeof_inode : Z := 64.

Definition __alloc_inode : M (env F) Z := on_heap (kmalloc sizeof_inode).

Definition inode_ref_inc (node : Z) : M (env F) Z :=
  i ← load_inode node;
  put_inode node (mk_inode (s32 (ref_count i + 1)) (open_count i) (is_device i) (in_fs i));;
  mret (s32 (ref_count i + 1)).

Definition inode_init (node : Z) (device : bool) (fs : Z) : M (env F) unit :=
  put_inode node (mk_inode 0 0 device fs);;
  inode_ref_inc node;; mret tt.

Definition inode_kill (node : Z) : M (env F) unit :=
  i ← load_inode node;
  assert_ (ref_count i =? 0);;
  assert_ (open_count i =? 0);;
  modify (fun e => set_inodes (delete node (inodes e)) e);;
  on_heap (kfree node).

Definition inode_check (node : Z) : M (env F) unit :=
  assert_ (negb (node =? 0));;
  i ← load_inode node;
  assert_ ((open_count i <=? ref_count i) && (0 <=? open_count i));;
  assert_ ((ref_count i <? MAX_INODE_COUNT) && (open_count i <? MAX_INODE_COUNT)).

(** [__vop_op]: the table has the operation, the inode passes the consistency
    check, and the operation is called. *)
Definition vop {A} (name : opname) (op : Z -> M (env F) A) (node : Z) : M (env F) A :=
  assert_ (negb (node =? 0));;
  has ← has_op name node;
  assert_ has;;
  inode_check node;;
  op node.

(** The same where the inode is known to have a table with the operation [op]. *)
Definition vop_known {A} (op : Z -> M (env F) A) (node : Z) : M (env F) A := inode_check node;; op node.

(** [inode_ref_dec], with [vop_reclaim] of the inode. *)
Definition ref_dec (reclaim : Z -> M (env F) Z) (node : Z) : M (env F) Z :=
  i ← load_inode node;
  assert_ (0 <? ref_count i);;
  put_inode node (mk_inode (ref_count i - 1) (open_count i) (is_device i) (in_fs i));;
  when (ref_count i - 1 =? 0) (reclaim node;; mret tt);;
  mret (ref_count i - 1).
Definition inode_ref_dec (node : Z) : M (env F) Z := ref_dec (vop VReclaim op_reclaim) node.

Definition inode_open_inc (node : Z) : M (env F) Z :=
  i ← load_inode node;
  put_inode node (mk_inode (ref_count i) (s32 (open_count i + 1)) (is_device i) (in_fs i));;
  mret (s32 (open_count i + 1)).

Definition inode_open_dec (node : Z) : M (env F) Z :=
  i ← load_inode node;
  assert_ (0 <? open_count i);;
  put_inode node (mk_inode (ref_count i) (open_count i - 1) (is_device i) (in_fs i));;
  when (open_count i - 1 =? 0) (vop VClose op_close node;; mret tt);;
  mret (open_count i - 1).

Definition vfs_close (node : Z) : M (env F) Z :=
  inode_open_dec node;; inode_ref_dec node;; mret 0.

End Inode.

(** ** The state above the inodes *)

Record vfs_dev := mk_vdev { devname : Z; devnode : Z; vdev_fs : Z; mountable : bool }.

(** [pwd] is [current->filesp->pwd]; [vdev_list] has its first entry first. *)
Record t (F : Type) := mk { ev : env F; bootfs_node : Z; vdev_list : list vfs_dev; pwd : Z }.
Arguments mk {F}. Arguments ev {F}. Arguments bootfs_node {F}. Arguments vdev_list {F}. Arguments pwd {F}.

Section Vfs.
  Context {F : Type} `{FsOps F} `{Heap F}.

Definition set_vdevs l (s : t F) : t F := mk (ev s) (bootfs_node s) l (pwd s).
Definition set_bootfs n (s : t F) : t F := mk (ev s) n (vdev_list s) (pwd s).
Definition set_pwd n (s : t F) : t F := mk (ev s) (bootfs_node s) (vdev_list s) n.

Definition inE {A} (m : M (env F) A) : M (t F) A := fun s =>
  match m (ev s) with
  | Ret (a, e) => Ret (a, mk e (bootfs_node s) (vdev_list s) (pwd s))
  | Panic => Panic | Fault => Fault | Diverge => Diverge
  end.
Definition inM {A} (m : M mem A) : M (t F) A := inE (on_mem m).

(** *** Current directory (vfspath.c) *)

Definition vfs_get_curdir : M (t F) (Z * Z) :=
  s ← get;
  if negb (pwd s =? 0) then inE (inode_ref_inc (pwd s));; mret (0, pwd s)
  else mret (- E_NOENT, 0).

Definition vfs_set_curdir (dir : Z) : M (t F) Z :=
  s ← get;
  if pwd s =? dir then mret 0 else
  ret ← (if dir =? 0 then mret 0 else
         r ← inE (vop VGettype op_gettype dir);
         if negb (r.1 =? 0) then mret r.1 else
         if negb (S_ISDIR r.2) then mret (- E_NOTDIR) else
         inE (inode_ref_inc dir);; mret 0);
  if negb (ret =? 0) then mret ret else
  modify (set_pwd dir);;
  when (negb (pwd s =? 0)) (inE (inode_ref_dec (pwd s));; mret tt);;
  mret 0.

(** *** Devices (vfsdev.c) *)

Definition vfs_devlist_init : M (t F) unit := modify (set_vdevs []).

Fixpoint root_loop (l : list vfs_dev) (name : Z) : M (t F) (Z * Z) :=
  match l with
  | [] => mret (- E_NO_DEV, 0)
  | d :: l =>
      c ← inM (strcmp name (devname d));
      if c =? 0 then
        found ← (if negb (vdev_fs d =? 0) then inE (fs_get_root (vdev_fs d))
                 else if negb (mountable d) then inE (inode_ref_inc (devnode d));; mret (devnode d)
                 else mret 0);
        if negb (found =? 0) then mret (0, found) else mret (- E_NA_DEV, 0)
      else root_loop l name
  end.
Definition vfs_get_root (name : Z) : M (t F) (Z * Z) :=
  assert_ (negb (name =? 0));; s ← get; root_loop (vdev_list s) name.

Definition vfs_get_devname (fs : Z) : M (t F) Z :=
  assert_ (negb (fs =? 0));;
  s ← get;
  mret (match List.find (fun d => vdev_fs d =? fs) (vdev_list s) with Some d => devname d | None => 0 end).

Fixpoint conflict_loop (l : list vfs_dev) (name : Z) : M (t F) bool :=
  match l with
  | [] => mret true
  | d :: l => c ← inM (strcmp (devname d) name); if c =? 0 then mret false else conflict_loop l name
  end.
Definition check_devname_conflict (name : Z) : M (t F) bool := s ← get; conflict_loop (vdev_list s) name.

(** kern/libs/string.c *)
Definition strdup (src : Z) : M (t F) Z :=
  len ← inM (strlen src);
  dst ← inE (on_heap (kmalloc (u32 (len + 1))));
  when (negb (dst =? 0)) (inM (memcpy dst src len);; inM (store (dst + len) 0));;
  mret dst.

Definition sizeof_vdev : Z := 24.

Definition vfs_do_add (name node fs : Z) (mnt : bool) : M (t F) Z :=
  assert_ (negb (name =? 0));;
  (if node =? 0 then assert_ (negb mnt) else i ← inE (load_inode node); assert_ (is_device i));;
  len ← inM (strlen name);
  if FS_MAX_DNAME_LEN <? len then mret (- E_TOO_BIG) else
  s_devname ← strdup name;
  if s_devname =? 0 then mret (- E_NO_MEM) else
  vdev ← inE (on_heap (kmalloc sizeof_vdev));
  if vdev =? 0 then inE (on_heap (kfree s_devname));; mret (- E_NO_MEM) else
  ok ← check_devname_conflict s_devname;
  if negb ok then inE (on_heap (kfree vdev));; inE (on_heap (kfree s_devname));; mret (- E_EXISTS) else
  modify (fun s => set_vdevs (mk_vdev s_devname node fs mnt :: vdev_list s) s);;
  mret 0.
Definition vfs_add_fs (name fs : Z) : M (t F) Z := vfs_do_add name 0 fs false.
Definition vfs_add_dev (name node : Z) (mnt : bool) : M (t F) Z := vfs_do_add name node 0 mnt.

(** The position of the device in the list. *)
Fixpoint mount_loop (l : list vfs_dev) (i : nat) (name : Z) : M (t F) (option nat) :=
  match l with
  | [] => mret None
  | d :: l =>
      if mountable d then
        c ← inM (strcmp (devname d) name);
        if c =? 0 then mret (Some i) else mount_loop l (S i) name
      else mount_loop l (S i) name
  end.
Definition find_mount (name : Z) : M (t F) (option nat) :=
  assert_ (negb (name =? 0));; s ← get; mount_loop (vdev_list s) 0 name.

Definition set_vdev_fs (i : nat) (fs : Z) : M (t F) unit := modify (fun s =>
  set_vdevs (alter (fun d => mk_vdev (devname d) (devnode d) fs (mountable d)) i (vdev_list s)) s).

Definition vfs_mount (name : Z) (mountfunc : Z -> M (env F) (Z * Z)) : M (t F) Z :=
  o ← find_mount name;
  match o with
  | None => mret (- E_NO_DEV)
  | Some i =>
      s ← get;
      d ← lift_opt (vdev_list s !! i);
      if negb (vdev_fs d =? 0) then mret (- E_BUSY) else
      assert_ (negb (devname d =? 0) && mountable d);;
      n ← inE (load_inode (devnode d));
      assert_ (is_device n);;
      r ← inE (mountfunc (devnode d));
      when (r.1 =? 0) (assert_ (negb (r.2 =? 0));; set_vdev_fs i r.2);;
      mret r.1
  end.

Definition vfs_unmount (name : Z) : M (t F) Z :=
  o ← find_mount name;
  match o with
  | None => mret (- E_NO_DEV)
  | Some i =>
      s ← get;
      d ← lift_opt (vdev_list s !! i);
      if vdev_fs d =? 0 then mret (- E_INVAL) else
      assert_ (negb (devname d =? 0) && mountable d);;
      r ← inE (fs_sync (vdev_fs d));
      if negb (r =? 0) then mret r else
      r ← inE (fs_unmount (vdev_fs d));
      when (r =? 0) (set_vdev_fs i 0);;
      mret r
  end.

Fixpoint unmount_loop (l : list vfs_dev) (i : nat) : M (t F) unit :=
  match l with
  | [] => mret tt
  | d :: l =>
      when (mountable d && negb (vdev_fs d =? 0))
        (r ← inE (fs_sync (vdev_fs d));
         when (r =? 0) (r ← inE (fs_unmount (vdev_fs d)); when (r =? 0) (set_vdev_fs i 0)));;
      unmount_loop l (S i)
  end.
Definition vfs_unmount_all : M (t F) Z := s ← get; unmount_loop (vdev_list s) 0;; mret 0.

Fixpoint cleanup_loop (l : list vfs_dev) : M (t F) unit :=
  match l with
  | [] => mret tt
  | d :: l => when (negb (vdev_fs d =? 0)) (inE (fs_cleanup (vdev_fs d)));; cleanup_loop l
  end.
Definition vfs_cleanup : M (t F) unit := s ← get; cleanup_loop (vdev_list s).

(** *** Boot file system (vfs.c) *)

Definition vfs_init : M (t F) unit := vfs_devlist_init.

Definition change_bootfs (node : Z) : M (t F) unit :=
  s ← get;
  modify (set_bootfs node);;
  when (negb (bootfs_node s =? 0)) (inE (inode_ref_dec (bootfs_node s));; mret tt).

Definition vfs_get_bootfs : M (t F) (Z * Z) :=
  s ← get;
  if bootfs_node s =? 0 then mret (- E_NOENT, 0)
  else inE (inode_ref_inc (bootfs_node s));; mret (0, bootfs_node s).

(** *** Names (vfslookup.c) *)

(** The first ':' or '/' of the path: its position and which of them it is. *)
Fixpoint scan_path (fuel : nat) (path i : Z) : M (t F) (option (Z * bool)) :=
  match fuel with
  | O => diverge
  | S fuel =>
      c ← inM (load (path + i));
      if c =? 0 then mret None else
      if c =? 58 then mret (Some (i, true)) else
      if c =? 47 then mret (Some (i, false)) else scan_path fuel path (i + 1)
  end.

(** [while (path[++ k] == '/');] *)
Fixpoint skip_slashes (fuel : nat) (path k : Z) : M (t F) Z :=
  match fuel with
  | O => diverge
  | S fuel => c ← inM (load (path + (k + 1))); if c =? 47 then skip_slashes fuel path (k + 1) else mret (k + 1)
  end.

(** The status, the rest of the path and the inode to start from. *)
Definition get_device (path : Z) : M (t F) (Z * Z * Z) :=
  s ← get;
  let fuel := S (size (vmem (ev s))) in
  o ← scan_path fuel path 0;
  let colon := match o with Some (i, true) => i | _ => -1 end in
  let slash := match o with Some (i, false) => i | _ => -1 end in
  if (colon <? 0) && negb (slash =? 0) then r ← vfs_get_curdir; mret (r.1, path, r.2) else
  if 0 <? colon then
    inM (store (path + colon) 0);;
    k ← skip_slashes fuel path colon;
    r ← vfs_get_root path; mret (r.1, path + k, r.2)
  else
  c ← inM (load path);
  r ← (if c =? 47 then vfs_get_bootfs
       else
         assert_ (c =? 58);;
         r ← vfs_get_curdir;
         if negb (r.1 =? 0) then mret (r.1, 0) else
         n ← inE (load_inode r.2);
         assert_ (negb (in_fs n =? 0));;
         root ← inE (fs_get_root (in_fs n));
         inE (inode_ref_dec r.2);;
         mret (0, root));
  if negb (r.1 =? 0) then mret (r.1, path, 0) else
  k ← skip_slashes fuel path 0;
  mret (0, path + k, r.2).

Definition vfs_lookup (path : Z) : M (t F) (Z * Z) :=
  r ← get_device path;
  if negb (r.1.1 =? 0) then mret (r.1.1, 0) else
  c ← inM (load r.1.2);
  if negb (c =? 0) then
    l ← inE (vop VLookup (fun n => op_lookup n r.1.2) r.2);
    inE (inode_ref_dec r.2);;
    mret l
  else mret (0, r.2).

(** The status, the directory and the last component. *)
Definition vfs_lookup_parent (path : Z) : M (t F) (Z * Z * Z) :=
  r ← get_device path;
  if negb (r.1.1 =? 0) then mret (r.1.1, 0, 0) else mret (0, r.2, r.1.2).

Definition vfs_chdir (path : Z) : M (t F) Z :=
  r ← vfs_lookup path;
  if negb (r.1 =? 0) then mret r.1 else
  ret ← vfs_set_curdir r.2;
  inE (inode_ref_dec r.2);;
  mret ret.

(** [local] is the address of the variable [colon]. *)
Definition vfs_getcwd (local : Z) (iob : iobuf) : M (t F) (Z * iobuf) :=
  r ← vfs_get_curdir;
  if negb (r.1 =? 0) then mret (r.1, iob) else
  n ← inE (load_inode r.2);
  assert_ (negb (in_fs n =? 0));;
  name ← vfs_get_devname (in_fs n);
  len ← inM (strlen name);
  m1 ← inM (iobuf_move iob name len true);
  if negb (m1.1.1 =? 0) then inE (inode_ref_dec r.2);; mret (m1.1.1, m1.2) else
  inM (store local 58);;
  m2 ← inM (iobuf_move m1.2 local 1 true);
  if negb (m2.1.1 =? 0) then inE (inode_ref_dec r.2);; mret (m2.1.1, m2.2) else
  m3 ← inE (vop VNamefile (fun n => op_namefile n m2.2) r.2);
  inE (inode_ref_dec r.2);;
  mret m3.

Definition vfs_set_bootfs (fsname : Z) : M (t F) Z :=
  if fsname =? 0 then change_bootfs 0;; mret 0 else
  o ← inM (strchr fsname 58);
  bad ← match o with None => mret true | Some p => c ← inM (load (p + 1)); mret (negb (c =? 0)) end;
  if bad : bool then mret (- E_INVAL) else
  r ← vfs_chdir fsname;
  if negb (r =? 0) then mret r else
  r ← vfs_get_curdir;
  if negb (r.1 =? 0) then mret r.1 else
  change_bootfs r.2;; mret 0.

(** *** Opening (vfsfile.c) *)

(** When [vop_create] fails the code goes on with an inode pointer that was
    never set. *)
Definition vfs_open (path open_flags : Z) : M (t F) (Z * Z) :=
  let acc := Z.land open_flags O_ACCMODE in
  let can_write := (acc =? O_WRONLY) || (acc =? O_RDWR) in
  if negb ((acc =? O_RDONLY) || can_write) then mret (- E_INVAL, 0) else
  let trunc := negb (Z.land open_flags O_TRUNC =? 0) in
  if trunc && negb can_write then mret (- E_INVAL, 0) else
  let excl := negb (Z.land open_flags O_EXCL =? 0) in
  let create := negb (Z.land open_flags O_CREAT =? 0) in
  r ← vfs_lookup path;
  r ← (if negb (r.1 =? 0) then
         if (r.1 =? -16) && create then
           p ← vfs_lookup_parent path;
           if negb (p.1.1 =? 0) then mret (p.1.1, 0) else
           c ← inE (vop VCreate (fun n => op_create n p.2 excl) p.1.2);
           defined (c.1 =? 0);;
           mret c
         else mret (r.1, 0)
       else if excl && create then mret (- E_EXISTS, 0) else mret r);
  if negb (r.1 =? 0) then mret (r.1, 0) else
  let node := r.2 in
  assert_ (negb (node =? 0));;
  ret ← inE (vop VOpen (fun n => op_open n open_flags) node);
  if negb (ret =? 0) then inE (inode_ref_dec node);; mret (ret, 0) else
  inE (inode_open_inc node);;
  if trunc || create then
    ret ← inE (vop VTruncate (fun n => op_truncate n 0) node);
    if negb (ret =? 0) then
      inE (inode_open_dec node);; inE (inode_ref_dec node);; mret (ret, 0)
    else mret (0, node)
  else mret (0, node).

(** [vfs_unlink], [vfs_rename], [vfs_link], [vfs_symlink], [vfs_readlink] and
    [vfs_mkdir]. *)
Definition vfs_unimplemented : M (t F) Z := mret (- E_UNIMP).

End Vfs.
End Vfs.
