(* ===== verification/File.v ===== *)
(** Open files: the table of a process (kern/fs/file.c) and its creation,
    release and duplication (kern/fs/fs.c).  A [struct file *] is the address of
    its table and an index. *)

From S2P Require Import Prelude Mem Strings Heap Iobuf Vfs.

Module File.
Import Iobuf Vfs.

Definition E_MAX_OPEN : Z := 22.
Definition NO_FD : Z := -0x9527.
Definition LSEEK_SET : Z := 0.
Definition LSEEK_CUR : Z := 1.
Definition LSEEK_END : Z := 2.

Inductive fd_status := FD_NONE | FD_INIT | FD_OPENED | FD_CLOSED.
#[global] Instance fd_status_eq_dec : EqDecision fd_status.
Proof. solve_decision. Defined.

Record file := mk_file {
  status : fd_status; readable : bool; writable : bool; fd : Z; pos : Z; node : Z; fopen_count : Z
}.

Record files_struct := mk_files { fs_pwd : Z; fd_array : list file; files_count : Z; files_sem : Z }.

(** 24 bytes of [struct files_struct] and 28 of [struct file] in a page. *)
Definition FILES_STRUCT_BUFSIZE : Z := 4096 - 24.
Definition FILES_STRUCT_NENTRY : Z := FILES_STRUCT_BUFSIZE / 28.

(** [filesp] is [current->filesp]. *)
Record t (F : Type) := mk {
  fenv : env F; boot : Z; vdevs : list vfs_dev; files : gmap Z files_struct; filesp : Z
}.
Arguments mk {F}. Arguments fenv {F}. Arguments boot {F}. Arguments vdevs {F}.
Arguments files {F}. Arguments filesp {F}.

Section File.
  Context {F : Type} `{FsOps F} `{Heap F}.

Definition set_files f (s : t F) : t F := mk (fenv s) (boot s) (vdevs s) f (filesp s).

Definition load_files (a : Z) : M (t F) files_struct := fun s =>
  match files s !! a with Some f => Ret (f, s) | None => Fault end.
Definition put_files (a : Z) (f : files_struct) : M (t F) unit :=
  modify (fun s => set_files (<[a := f]> (files s)) s).

(** Inode operations, and path operations of the current process. *)
Definition inN {A} (m : M (env F) A) : M (t F) A := fun s =>
  match m (fenv s) with
  | Ret (a, e) => Ret (a, mk e (boot s) (vdevs s) (files s) (filesp s))
  | Panic => Panic | Fault => Fault | Diverge => Diverge
  end.
Definition inV {A} (m : M (Vfs.t F) A) : M (t F) A := fun s =>
  match files s !! filesp s with
  | None => Fault
  | Some f =>
      match m (Vfs.mk (fenv s) (boot s) (vdevs s) (fs_pwd f)) with
      | Ret (a, v) =>
          Ret (a, mk (ev v) (bootfs_node v) (vdev_list v)
                 (<[filesp s := mk_files (pwd v) (fd_array f) (files_count f) (files_sem f)]> (files s)) (filesp s))
      | Panic => Panic | Fault => Fault | Diverge => Diverge
      end
  end.

Definition load_file (p : Z * Z) : M (t F) file :=
  f ← load_files p.1; lift_opt (fd_array f !! Z.to_nat p.2).
Definition put_file (p : Z * Z) (x : file) : M (t F) unit :=
  f ← load_files p.1;
  put_files p.1 (mk_files (fs_pwd f) (<[Z.to_nat p.2 := x]> (fd_array f)) (files_count f) (files_sem f)).

Definition with_status st (x : file) : file :=
  mk_file st (readable x) (writable x) (fd x) (pos x) (node x) (fopen_count x).
Definition with_count n (x : file) : file :=
  mk_file (status x) (readable x) (writable x) (fd x) (pos x) (node x) n.
Definition with_node n (x : file) : file :=
  mk_file (status x) (readable x) (writable x) (fd x) (pos x) n (fopen_count x).
Definition with_pos o (x : file) : file :=
  mk_file (status x) (readable x) (writable x) (fd x) o (node x) (fopen_count x).

(** ** The table (file.c) *)

Definition testfd (fd : Z) : bool := (0 <=? fd) && (fd <? FILES_STRUCT_NENTRY).

(** The address of the current process's table. *)
Definition get_fd_array : M (t F) Z :=
  s ← get;
  assert_ (negb (filesp s =? 0));;
  f ← load_files (filesp s);
  assert_ (0 <? files_count f);;
  mret (filesp s).

(** The entries of a new table: the other fields keep what the block held. *)
Fixpoint fd_array_init (fd : Z) (l : list file) : list file :=
  match l with
  | [] => []
  | x :: l => mk_file FD_NONE (readable x) (writable x) fd (pos x) (node x) 0 :: fd_array_init (fd + 1) l
  end.

Definition first_none (l : list file) : option Z :=
  match list_find (fun x => status x = FD_NONE) l with Some (i, _) => Some (Z.of_nat i) | None => None end.

(** The status and the entry. *)
Definition fd_array_alloc (fd : Z) : M (t F) (Z * (Z * Z)) :=
  a ← get_fd_array;
  f ← load_files a;
  let found i :=
    (x ← load_file (a, i);
     assert_ (fopen_count x =? 0);;
     put_file (a, i) (with_node 0 (with_status FD_INIT x));;
     mret (0, (a, i))) in
  if fd =? NO_FD then
    match first_none (fd_array f) with Some i => found i | None => mret (- E_MAX_OPEN, (0, 0)) end
  else if testfd fd then
    x ← load_file (a, fd);
    if decide (status x = FD_NONE) then found fd else mret (- E_BUSY, (0, 0))
  else mret (- E_INVAL, (0, 0)).

Definition fd_array_free (p : Z * Z) : M (t F) unit :=
  x ← load_file p;
  assert_ (bool_decide (status x = FD_INIT \/ status x = FD_CLOSED));;
  assert_ (fopen_count x =? 0);;
  when (bool_decide (status x = FD_CLOSED)) (inN (vfs_close (node x));; mret tt);;
  x ← load_file p;
  put_file p (with_status FD_NONE x).

Definition fd_array_acquire (p : Z * Z) : M (t F) unit :=
  x ← load_file p;
  assert_ (bool_decide (status x = FD_OPENED));;
  put_file p (with_count (s32 (fopen_count x + 1)) x).

Definition fd_array_release (p : Z * Z) : M (t F) unit :=
  x ← load_file p;
  assert_ (bool_decide (status x = FD_OPENED \/ status x = FD_CLOSED));;
  assert_ (0 <? fopen_count x);;
  put_file p (with_count (fopen_count x - 1) x);;
  when (fopen_count x - 1 =? 0) (fd_array_free p).

Definition fd_array_open (p : Z * Z) : M (t F) unit :=
  x ← load_file p;
  assert_ (bool_decide (status x = FD_INIT) && negb (node x =? 0));;
  put_file p (with_count (s32 (fopen_count x + 1)) (with_status FD_OPENED x)).

Definition fd_array_close (p : Z * Z) : M (t F) unit :=
  x ← load_file p;
  assert_ (bool_decide (status x = FD_OPENED));;
  assert_ (0 <? fopen_count x);;
  put_file p (with_count (fopen_count x - 1) (with_status FD_CLOSED x));;
  when (fopen_count x - 1 =? 0) (fd_array_free p).

Definition fd_array_dup (to from : Z * Z) : M (t F) unit :=
  y ← load_file to;
  x ← load_file from;
  assert_ (bool_decide (status y = FD_INIT) && bool_decide (status x = FD_OPENED));;
  inN (inode_ref_inc (node x));;
  inN (inode_open_inc (node x));;
  put_file to (mk_file (status y) (readable x) (writable x) (fd y) (pos x) (node x) (fopen_count y));;
  fd_array_open to.

Definition fd2file (fd_ : Z) : M (t F) (option (Z * Z)) :=
  if testfd fd_ then
    a ← get_fd_array;
    x ← load_file (a, fd_);
    if bool_decide (status x = FD_OPENED) && (fd x =? fd_) then mret (Some (a, fd_)) else mret None
  else mret None.

Definition file_testfd (fd_ : Z) (rd wr : bool) : M (t F) bool :=
  o ← fd2file fd_;
  match o with
  | None => mret false
  | Some p =>
      x ← load_file p;
      if rd && negb (readable x) then mret false else
      if wr && negb (writable x) then mret false else mret true
  end.

(** ** Operations on descriptors (file.c) *)

Definition file_open (path open_flags : Z) : M (t F) Z :=
  let acc := Z.land open_flags O_ACCMODE in
  if negb ((acc =? O_RDONLY) || (acc =? O_WRONLY) || (acc =? O_RDWR)) then mret (- E_INVAL) else
  let rd := (acc =? O_RDONLY) || (acc =? O_RDWR) in
  let wr := (acc =? O_WRONLY) || (acc =? O_RDWR) in
  r ← fd_array_alloc NO_FD;
  if negb (r.1 =? 0) then mret r.1 else
  let p := r.2 in
  v ← inV (vfs_open path open_flags);
  if negb (v.1 =? 0) then fd_array_free p;; mret v.1 else
  x ← load_file p;
  put_file p (with_pos 0 x);;
  st ← (if negb (Z.land open_flags O_APPEND =? 0) then
          s ← inN (vop VFstat op_fstat v.2);
          if negb (s.1 =? 0) then inN (vfs_close v.2);; fd_array_free p;; mret s.1
          else x ← load_file p; put_file p (with_pos (s32 (st_size s.2)) x);; mret 0
        else mret 0);
  if negb (st =? 0) then mret st else
  x ← load_file p;
  put_file p (mk_file (status x) rd wr (fd x) (pos x) v.2 (fopen_count x));;
  fd_array_open p;;
  x ← load_file p;
  mret (fd x).

Definition file_close (fd_ : Z) : M (t F) Z :=
  o ← fd2file fd_;
  match o with None => mret (- E_INVAL) | Some p => fd_array_close p;; mret 0 end.

(** [file_read] and [file_write]: the status and the count stored. *)
Definition file_rw (name : opname) (op : Z -> iobuf -> M (env F) (Z * iobuf)) (allowed : file -> bool)
    (fd_ base len : Z) : M (t F) (Z * Z) :=
  o ← fd2file fd_;
  match o with
  | None => mret (- E_INVAL, 0)
  | Some p =>
      x ← load_file p;
      if negb (allowed x) then mret (- E_INVAL, 0) else
      fd_array_acquire p;;
      r ← inN (vop name (fun n => op n (iobuf_init base len (pos x))) (node x));
      let copied := iobuf_used r.2 in
      x ← load_file p;
      when (bool_decide (status x = FD_OPENED)) (put_file p (with_pos (s32 (pos x + copied)) x));;
      fd_array_release p;;
      mret (r.1, copied)
  end.
Definition file_read : Z -> Z -> Z -> M (t F) (Z * Z) := file_rw VRead op_read readable.
Definition file_write : Z -> Z -> Z -> M (t F) (Z * Z) := file_rw VWrite op_write writable.

(** Acquire, an operation on the inode, release. *)
Definition with_file {A} (fd_ : Z) (dflt : A) (body : Z * Z -> M (t F) A) : M (t F) A :=
  o ← fd2file fd_;
  match o with
  | None => mret dflt
  | Some p => fd_array_acquire p;; r ← body p; fd_array_release p;; mret r
  end.

Definition file_seek (fd_ off whence : Z) : M (t F) Z :=
  with_file fd_ (- E_INVAL) (fun p =>
    x ← load_file p;
    r ← (if whence =? LSEEK_SET then mret (0, off)
         else if whence =? LSEEK_CUR then mret (0, s32 (off + pos x))
         else if whence =? LSEEK_END then
           s ← inN (vop VFstat op_fstat (node x));
           mret (s.1, if s.1 =? 0 then s32 (off + st_size s.2) else off)
         else mret (- E_INVAL, off));
    if negb (r.1 =? 0) then mret r.1 else
    ret ← inN (vop VTryseek (fun n => op_tryseek n r.2) (node x));
    when (ret =? 0) (x ← load_file p; put_file p (with_pos r.2 x));;
    mret ret).

Definition file_fstat (fd_ : Z) : M (t F) (Z * stat) :=
  with_file fd_ (- E_INVAL, mk_stat 0 0 0 0) (fun p => x ← load_file p; inN (vop VFstat op_fstat (node x))).

Definition file_fsync (fd_ : Z) : M (t F) Z :=
  with_file fd_ (- E_INVAL) (fun p => x ← load_file p; inN (vop VFsync op_fsync (node x))).

(** [name] and [offset] are the fields of the [struct dirent]; the new offset is
    returned. *)
Definition file_getdirentry (fd_ name offset : Z) : M (t F) (Z * Z) :=
  with_file fd_ (- E_INVAL, offset) (fun p =>
    x ← load_file p;
    r ← inN (vop VGetdirentry (fun n => op_getdirentry n (iobuf_init name 256 offset)) (node x));
    mret (r.1, if r.1 =? 0 then s32 (offset + iobuf_used r.2) else offset)).

Definition file_dup (fd1 fd2 : Z) : M (t F) Z :=
  o ← fd2file fd1;
  match o with
  | None => mret (- E_INVAL)
  | Some p =>
      r ← fd_array_alloc fd2;
      if negb (r.1 =? 0) then mret r.1 else
      fd_array_dup r.2 p;;
      y ← load_file r.2;
      mret (fd y)
  end.

(** ** Tables (fs.c) *)

(** The block holds arbitrary values [junk] before it is initialised. *)
Definition files_create (junk : list file) : M (t F) Z :=
  a ← inN (on_heap (kmalloc 4096));
  if a =? 0 then mret 0 else
  put_files a (mk_files 0 (fd_array_init 0 junk) 0 1);;
  mret a.

Fixpoint close_loop (n : nat) (a i : Z) (last : bool) : M (t F) unit :=
  match n with
  | O => mret tt
  | S n =>
      x ← load_file (a, i);
      when (bool_decide (status x = FD_OPENED)) (fd_array_close (a, i));;
      when last (x ← load_file (a, i); assert_ (bool_decide (status x = FD_NONE)));;
      close_loop n a (i + 1) last
  end.

Definition files_destroy (a : Z) : M (t F) unit :=
  assert_ (negb (a =? 0));;
  f ← load_files a;
  assert_ (files_count f =? 0);;
  when (negb (fs_pwd f =? 0)) (inN (inode_ref_dec (fs_pwd f));; mret tt);;
  close_loop (Z.to_nat FILES_STRUCT_NENTRY) a 0 true;;
  modify (fun s => set_files (delete a (files s)) s);;
  inN (on_heap (kfree a)).

Definition files_closeall (a : Z) : M (t F) unit :=
  assert_ (negb (a =? 0));;
  f ← load_files a;
  assert_ (0 <? files_count f);;
  close_loop (Z.to_nat (FILES_STRUCT_NENTRY - 2)) a 2 false.

Fixpoint dup_loop (n : nat) (to from i : Z) : M (t F) unit :=
  match n with
  | O => mret tt
  | S n =>
      x ← load_file (from, i);
      when (bool_decide (status x = FD_OPENED))
        (y ← load_file (to, i);
         put_file (to, i) (with_status FD_INIT y);;
         fd_array_dup (to, i) (from, i));;
      dup_loop n to from (i + 1)
  end.

Definition dup_files (to from : Z) : M (t F) Z :=
  assert_ (negb (to =? 0) && negb (from =? 0));;
  g ← load_files to;
  f ← load_files from;
  assert_ ((files_count g =? 0) && (0 <? files_count f));;
  put_files to (mk_files (fs_pwd f) (fd_array g) (files_count g) (files_sem g));;
  when (negb (fs_pwd f =? 0)) (inN (inode_ref_inc (fs_pwd f));; mret tt);;
  dup_loop (Z.to_nat FILES_STRUCT_NENTRY) to from 0;;
  mret 0.

End File.
End File.
