(* ===== verification/FileSpec.v ===== *)
(** Open files and inode counts (kern/fs/file.c over kern/fs/vfs): between two
    calls every entry of every table is closed or open once, and the open count
    of an inode is the number of entries that hold it; no assertion of the table
    functions can fail. *)

From S2P Require Import Prelude Mem Heap Iobuf Vfs File.

Module FileSpec.
Import Iobuf Vfs File.

(** ** What the file systems promise *)

(** Whatever it returns, it leaves the inodes alone. *)
Definition quiet {F A} (m : M (env F) A) : Prop :=
  forall e r e', m e = Ret (r, e') -> inodes e' = inodes e.

(** An operation may stop the kernel: nothing is assumed of the state of the file
    system or device behind the inode.  One that returns leaves the inodes alone;
    only the one that reclaims an inode without references may remove it. *)
Class FsLaws (F : Type) `{FsOps F} := {
  law_has name n : quiet (has_op name n);
  law_close n : quiet (op_close n);
  law_read n iob : quiet (op_read n iob);
  law_write n iob : quiet (op_write n iob);
  law_fstat n : quiet (op_fstat n);
  law_fsync n : quiet (op_fsync n);
  law_tryseek n o : quiet (op_tryseek n o);
  law_getdirentry n iob : quiet (op_getdirentry n iob);
  law_reclaim n e r e' i : inodes e !! n = Some i -> ref_count i = 0 -> open_count i = 0 ->
    op_reclaim n e = Ret (r, e') -> inodes e' = inodes e \/ inodes e' = delete n (inodes e)
}.

(** ** Who is to blame for a stop *)

(** The kernel stops, or does not end. *)
Definition stopped {A} (r : res A) : Prop := forall a, r <> Ret a.

Lemma stopped_bind {S A B} (m : M S A) (k : A -> M S B) s : stopped (m s) -> stopped ((m ≫= k) s).
Proof.
  intros Hm b. unfold mbind, M_bind. destruct (m s) as [[a s']| | |]; [|done..]. by destruct (Hm (a, s')).
Qed.
Lemma stopped_next {S A B} (m : M S A) (k : A -> M S B) s a s' :
  m s = Ret (a, s') -> stopped (k a s') -> stopped ((m ≫= k) s).
Proof. intros Hm Hk. by rewrite (bind_Ret _ _ _ _ _ Hm). Qed.

(** The calls of an operation of an inode. *)
Inductive opcall :=
| OClose (n : Z) | ORead (n : Z) (iob : iobuf) | OWrite (n : Z) (iob : iobuf) | OFstat (n : Z) | OFsync (n : Z)
| OTryseek (n o : Z) | OGetdirentry (n : Z) (iob : iobuf) | OReclaim (n : Z).

Section Blame.
  Context {F : Type} `{FsOps F}.

Definition op_name (o : opcall) : opname :=
  match o with
  | OClose _ => VClose | ORead _ _ => VRead | OWrite _ _ => VWrite | OFstat _ => VFstat | OFsync _ => VFsync
  | OTryseek _ _ => VTryseek | OGetdirentry _ _ => VGetdirentry | OReclaim _ => VReclaim
  end.
Definition op_node (o : opcall) : Z :=
  match o with
  | OClose n | ORead n _ | OWrite n _ | OFstat n | OFsync n | OTryseek n _ | OGetdirentry n _ | OReclaim n => n
  end.
Definition op_body (o : opcall) : M (env F) unit :=
  match o with
  | OClose n => op_close n;; mret tt
  | ORead n iob => op_read n iob;; mret tt
  | OWrite n iob => op_write n iob;; mret tt
  | OFstat n => op_fstat n;; mret tt
  | OFsync n => op_fsync n;; mret tt
  | OTryseek n o => op_tryseek n o;; mret tt
  | OGetdirentry n iob => op_getdirentry n iob;; mret tt
  | OReclaim n => op_reclaim n;; mret tt
  end.

(** The table of the inode has no such entry, or the operation itself stops. *)
Definition op_stops (o : opcall) (e : env F) : Prop :=
  (forall e', has_op (op_name o) (op_node o) e <> Ret (true, e')) \/
  exists e', has_op (op_name o) (op_node o) e = Ret (true, e') /\ stopped (op_body o e').

Definition blames (names : list opname) (n : Z) : Prop :=
  exists o e, op_name o ∈ names /\ op_node o = n /\ op_stops o e.

(** [m] returns in [Q], or it stops and [C] holds. *)
Definition outcome {S A} (m : M S A) (s : S) (C : Prop) (Q : A -> S -> Prop) : Prop :=
  (exists r s', m s = Ret (r, s') /\ Q r s') \/ (stopped (m s) /\ C).

Lemma outcome_bind {S A B} (m : M S A) (k : A -> M S B) s (C : Prop) Q :
  outcome m s C (fun a s' => outcome (k a) s' C Q) -> outcome (m ≫= k) s C Q.
Proof.
  intros [(a & s' & Hm & Hk)|[Hs HC]]; [|right; split; [by apply stopped_bind|done]].
  destruct Hk as [(r & s2 & Hr & HQ)|[Hs HC]].
  - left. exists r, s2. by rewrite (bind_Ret _ _ _ _ _ Hm).
  - right. split; [|done]. by eapply stopped_next.
Qed.

Lemma outcome_ret {S A} (m : M S A) s (C : Prop) (Q : A -> S -> Prop) r s' :
  m s = Ret (r, s') -> Q r s' -> outcome m s C Q.
Proof. intros Hm HQ. left. by exists r, s'. Qed.

Lemma outcome_mono {S A} (m : M S A) s (C C' : Prop) (Q Q' : A -> S -> Prop) :
  outcome m s C Q -> (C -> C') -> (forall r s', Q r s' -> Q' r s') -> outcome m s C' Q'.
Proof. intros [(r & s' & Hm & HQ)|[Hs HC]] HC' HQ'; [left; exists r, s'; auto|right; auto]. Qed.

Lemma outcome_step {S A B} (m : M S A) (k : A -> M S B) s a s' (C : Prop) Q :
  m s = Ret (a, s') -> outcome (k a) s' C Q -> outcome (m ≫= k) s C Q.
Proof. intros Hm Hk. apply outcome_bind. by eapply outcome_ret. Qed.

End Blame.

Section Inodes.
  Context {F : Type} `{FsLaws F} `{Heap F}.

Lemma load_inode_eq (e : env F) n i : inodes e !! n = Some i -> load_inode n e = Ret (i, e).
Proof. unfold load_inode. by intros ->. Qed.

Definition count_ok (i : inode) : Prop := 0 <= open_count i <= ref_count i /\ ref_count i < MAX_INODE_COUNT.

Lemma inode_check_eq (e : env F) n i :
  n <> 0 -> inodes e !! n = Some i -> count_ok i -> inode_check n e = Ret (tt, e).
Proof.
  intros Hn Hi [Hc Hm]. unfold inode_check. rewrite (proj2 (Z.eqb_neq n 0) Hn), (bind_Ret _ _ e tt e) by done.
  rewrite (bind_Ret _ _ _ _ _ (load_inode_eq e n i Hi)).
  replace ((open_count i <=? ref_count i) && (0 <=? open_count i)) with true by lia.
  by replace ((ref_count i <? MAX_INODE_COUNT) && (open_count i <? MAX_INODE_COUNT)) with true by lia.
Qed.

(** An operation the table has. *)
Lemma vop_eq {A} name (op : Z -> M (env F) A) (e e1 : env F) n i :
  n <> 0 -> inodes e !! n = Some i -> count_ok i -> has_op name n e = Ret (true, e1) -> inodes e1 = inodes e ->
  vop name op n e = op n e1.
Proof.
  intros Hn Hi Hc Hh He. unfold vop. rewrite (proj2 (Z.eqb_neq n 0) Hn), (bind_Ret _ _ e tt e) by done.
  rewrite (bind_Ret _ _ _ _ _ Hh), (bind_Ret _ _ e1 tt e1) by done.
  rewrite (bind_Ret _ _ e1 tt e1); [done|]. apply (inode_check_eq e1 n i); [done|by rewrite He|done].
Qed.

Lemma no_entry {A} name (op : Z -> M (env F) A) (e : env F) n :
  n <> 0 -> stopped (has_op name n e) -> stopped (vop name op n e).
Proof.
  intros Hn Hh. unfold vop. rewrite (proj2 (Z.eqb_neq _ 0) Hn), (bind_Ret _ _ e tt e) by done. by apply stopped_bind.
Qed.

(** A consistent inode stops no operation but by its table or the operation. *)
Lemma vop_outcome {A} (o : opcall) (op : Z -> M (env F) A) (e : env F) n i (C : Prop) Q :
  n <> 0 -> inodes e !! n = Some i -> count_ok i -> op_node o = n ->
  (forall e', stopped (op n e') -> stopped (op_body o e')) ->
  (op_stops o e -> C) ->
  (forall e1 r e', inodes e1 = inodes e -> op n e1 = Ret (r, e') -> Q r e') ->
  outcome (vop (op_name o) op n) e C Q.
Proof.
  intros Hn Hi Hc <- Hop HC HQ. destruct (has_op (op_name o) (op_node o) e) as [[[] e1]| | |] eqn:Hh.
  - assert (He := law_has _ _ _ _ _ Hh). assert (Hv := vop_eq _ op e e1 _ i Hn Hi Hc Hh He).
    destruct (op (op_node o) e1) as [[r e']| | |] eqn:Ho; [left; exists r, e'; split; [done|by eapply HQ]|..].
    all: right; rewrite Hv; split; [by intros a|]; apply HC; right; exists e1; split; [done|];
      apply Hop; rewrite Ho; by intros a.
  - right. split; [|apply HC; left; intros e'; congruence]. unfold vop.
    rewrite (proj2 (Z.eqb_neq _ 0) Hn), (bind_Ret _ _ e tt e), (bind_Ret _ _ _ _ _ Hh) by done. by intros a.
  - right. split; [apply no_entry; [done|by rewrite Hh; intros a]|apply HC; left; intros e'; congruence].
  - right. split; [apply no_entry; [done|by rewrite Hh; intros a]|apply HC; left; intros e'; congruence].
  - right. split; [apply no_entry; [done|by rewrite Hh; intros a]|apply HC; left; intros e'; congruence].
Qed.

(** One open reference less. *)
Definition closed_inode (i : inode) : inode := mk_inode (ref_count i - 1) (open_count i - 1) (is_device i) (in_fs i).

Lemma open_dec_spec (e : env F) n i :
  n <> 0 -> inodes e !! n = Some i -> count_ok i -> 0 < open_count i ->
  outcome (inode_open_dec n) e (blames [VClose; VReclaim] n) (fun r e' =>
    inodes e' = <[n := mk_inode (ref_count i) (open_count i - 1) (is_device i) (in_fs i)]> (inodes e)).
Proof.
  intros Hn Hi Hc Ho. unfold inode_open_dec. apply (outcome_step _ _ _ _ _ _ _ (load_inode_eq e n i Hi)).
  replace (0 <? open_count i) with true by lia. eapply outcome_step; [done|].
  set (j := mk_inode (ref_count i) (open_count i - 1) (is_device i) (in_fs i)).
  set (e1 := set_inodes (<[n := j]> (inodes e)) e). apply (outcome_step _ _ e tt e1); [done|].
  assert (Hj : inodes e1 !! n = Some j) by (simpl; apply lookup_insert_eq). apply outcome_bind.
  destruct (open_count i - 1 =? 0); cbn [when]; [|by eapply outcome_ret; [|eapply outcome_ret]].
  apply outcome_bind. apply (vop_outcome (OClose n) op_close e1 n j); try done.
  - destruct Hc. unfold count_ok. simpl. lia.
  - intros e'. apply stopped_bind.
  - intros Hs. exists (OClose n), e1. split; [set_solver|done].
  - intros e2 r e3 He2 Hr. eapply outcome_ret; [done|]. eapply outcome_ret; [done|].
    rewrite (law_close _ _ _ _ Hr), He2. done.
Qed.

Lemma ref_dec_spec (e : env F) n i :
  n <> 0 -> inodes e !! n = Some i -> 0 <= open_count i < ref_count i -> ref_count i < MAX_INODE_COUNT ->
  let j := mk_inode (ref_count i - 1) (open_count i) (is_device i) (in_fs i) in
  outcome (inode_ref_dec n) e (blames [VClose; VReclaim] n) (fun r e' =>
    inodes e' = <[n := j]> (inodes e) \/ (ref_count i = 1 /\ inodes e' = delete n (inodes e))).
Proof.
  intros Hn Hi Hc Hm j. unfold inode_ref_dec, ref_dec. apply (outcome_step _ _ _ _ _ _ _ (load_inode_eq e n i Hi)).
  replace (0 <? ref_count i) with true by lia. eapply outcome_step; [done|]. fold j.
  set (e1 := set_inodes (<[n := j]> (inodes e)) e). apply (outcome_step _ _ e tt e1); [done|].
  assert (Hj : inodes e1 !! n = Some j) by (simpl; apply lookup_insert_eq). apply outcome_bind.
  destruct (Z.eqb_spec (ref_count i - 1) 0) as [Hz|Hz]; cbn [when].
  2: { eapply outcome_ret; [done|]. eapply outcome_ret; [done|]. by left. }
  apply outcome_bind. apply (vop_outcome (OReclaim n) op_reclaim e1 n j); try done.
  - unfold count_ok. simpl. lia.
  - intros e'. apply stopped_bind.
  - intros Hs. exists (OReclaim n), e1. split; [set_solver|done].
  - intros e2 r e3 He2 Hr. eapply outcome_ret; [done|]. eapply outcome_ret; [done|].
    destruct (law_reclaim n e2 r e3 j) as [-> | ->]; rewrite ?He2; try done; [simpl; lia..|by left|right].
    split; [lia|]. simpl. by rewrite delete_insert_eq.
Qed.

Lemma vfs_close_spec (e : env F) n i :
  n <> 0 -> inodes e !! n = Some i -> count_ok i -> 0 < open_count i ->
  outcome (vfs_close n) e (blames [VClose; VReclaim] n) (fun r e' => r = 0 /\
    (inodes e' = <[n := closed_inode i]> (inodes e) \/ (ref_count i = 1 /\ inodes e' = delete n (inodes e)))).
Proof.
  intros Hn Hi Hc Ho. unfold vfs_close. apply outcome_bind.
  eapply outcome_mono; [by apply (open_dec_spec e n i)|done|]. intros r1 e1 He1. apply outcome_bind.
  set (k := mk_inode (ref_count i) (open_count i - 1) (is_device i) (in_fs i)) in *. destruct Hc as [Hc Hm].
  eapply outcome_mono; [apply (ref_dec_spec e1 n k Hn); [rewrite He1; apply lookup_insert_eq|simpl; lia|done]|done|].
  intros r2 e2 He2. eapply outcome_ret; [done|]. split; [done|].
  destruct He2 as [->|[Hr ->]]; rewrite He1; [left|right].
  - by rewrite insert_insert_eq.
  - split; [done|]. by rewrite delete_insert_eq.
Qed.

(** No operation is called while other references are left. *)
Lemma vfs_close_shared (e : env F) n i :
  inodes e !! n = Some i -> 1 < open_count i -> open_count i <= ref_count i ->
  vfs_close n e = Ret (0, set_inodes (<[n := closed_inode i]> (inodes e)) e).
Proof.
  intros Hi Ho Hr. unfold vfs_close, inode_open_dec, inode_ref_dec, ref_dec.
  set (j := mk_inode (ref_count i) (open_count i - 1) (is_device i) (in_fs i)).
  set (e1 := set_inodes (<[n := j]> (inodes e)) e).
  rewrite (bind_Ret _ _ e (open_count i - 1) e1).
  2: { rewrite (bind_Ret _ _ _ _ _ (load_inode_eq e n i Hi)). replace (0 <? open_count i) with true by lia.
       rewrite (bind_Ret _ _ e tt e), (bind_Ret _ _ e tt e1) by done. by replace (open_count i - 1 =? 0) with false by lia. }
  rewrite (bind_Ret _ _ e1 (ref_count i - 1) (set_inodes (<[n := closed_inode i]> (inodes e)) e)); [done|].
  rewrite (bind_Ret _ _ _ _ _ (load_inode_eq e1 n j (lookup_insert_eq _ _ _))). cbn [j ref_count open_count is_device in_fs].
  replace (0 <? ref_count i) with true by lia. rewrite (bind_Ret _ _ e1 tt e1) by done.
  rewrite (bind_Ret _ _ e1 tt (set_inodes (<[n := closed_inode i]> (inodes e)) e)).
  - by replace (ref_count i - 1 =? 0) with false by lia.
  - unfold put_inode, modify, set_inodes. cbn [inodes e1 set_inodes fsys vmem]. by rewrite insert_insert_eq.
Qed.

Lemma incs_eq (e : env F) n i :
  inodes e !! n = Some i -> count_ok i -> ref_count i + 1 < MAX_INODE_COUNT ->
  let j := mk_inode (ref_count i + 1) (open_count i + 1) (is_device i) (in_fs i) in
  exists e1 r1 r2, inode_ref_inc n e = Ret (r1, e1) /\
    inode_open_inc n e1 = Ret (r2, set_inodes (<[n := j]> (inodes e)) e).
Proof.
  intros Hi [Hc _] Hm j. unfold MAX_INODE_COUNT in Hm.
  exists (set_inodes (<[n := mk_inode (ref_count i + 1) (open_count i) (is_device i) (in_fs i)]> (inodes e)) e).
  eexists _, _. split.
  - unfold inode_ref_inc. rewrite (bind_Ret _ _ _ _ _ (load_inode_eq e n i Hi)). rewrite s32_id by width. reflexivity.
  - unfold inode_open_inc. erewrite bind_Ret by (apply load_inode_eq; simpl; apply lookup_insert_eq).
    cbn [ref_count open_count is_device in_fs]. rewrite s32_id by width.
    unfold put_inode, modify, mbind, M_bind, mret, M_ret, set_inodes. simpl. by rewrite insert_insert_eq.
Qed.

End Inodes.

(** ** Counting *)

Definition holds (n : Z) (x : file) : Prop := status x = FD_OPENED /\ node x = n.
#[export] Instance holds_dec n x : Decision (holds n x).
Proof. unfold holds. apply _. Defined.

Definition one (P : Prop) `{Decision P} : Z := if decide P then 1 else 0.

(** The entries of a table that hold inode [n]. *)
Definition held (n : Z) (l : list file) : Z := foldr (fun x k => one (holds n x) + k) 0 l.

Definition total (g : files_struct -> Z) (m : gmap Z files_struct) : Z := map_fold (fun _ f k => g f + k) 0 m.

Lemma total_insert g m a f f' :
  m !! a = Some f -> total g (<[a := f']> m) = total g m - g f + g f'.
Proof.
  intros Ha. unfold total. rewrite <- insert_delete_eq.
  rewrite (map_fold_insert_L _ _ _ _ (delete a m)) by (try apply lookup_delete_eq; intros; lia).
  rewrite (map_fold_delete_L _ _ a f m) by (try done; intros; lia). lia.
Qed.

Lemma held_insert n l i x y :
  l !! i = Some x -> held n (<[i := y]> l) = held n l - one (holds n x) + one (holds n y).
Proof.
  revert i. induction l as [|z l IH]; intros [|i] Hi; try done; simpl in *.
  - injection Hi as ->. lia.
  - rewrite (IH i Hi). lia.
Qed.

Lemma held_nonneg n l : 0 <= held n l.
Proof. induction l as [|x l IH]; simpl; [lia|]. unfold one. case_decide; lia. Qed.

Lemma held_pos n l i x : l !! i = Some x -> holds n x -> 0 < held n l.
Proof.
  revert i. induction l as [|z l IH]; intros [|i] Hi Hh; try done; simpl in *; unfold one.
  - injection Hi as ->. rewrite decide_True by done. assert (Hn := held_nonneg n l). lia.
  - assert (Hp := IH i Hi Hh). case_decide; lia.
Qed.

Lemma sum_nonneg g m : (forall f, 0 <= g f) -> 0 <= total g m.
Proof.
  intros Hg. unfold total. apply (map_fold_weak_ind (fun r _ => 0 <= r)); [done|].
  intros a f m' r _ Hr. specialize (Hg f). lia.
Qed.

Lemma total_pos g m a f : (forall f, 0 <= g f) -> m !! a = Some f -> g f <= total g m.
Proof.
  intros Hg Ha. assert (Hi := total_insert g m a f f Ha). unfold total in *.
  rewrite (map_fold_delete_L _ _ a f m) by (try done; intros; lia).
  assert (Hn := sum_nonneg g (delete a m) Hg). unfold total in Hn. lia.
Qed.

Section State.
  Context {F : Type}.

Definition opens (s : t F) (n : Z) : Z := total (fun f => held n (fd_array f)) (files s).
Definition pwds (s : t F) (n : Z) : Z := total (fun f => one (fs_pwd f = n)) (files s).

(** ** The invariant *)

Definition entry_ok (e : env F) (i : nat) (x : file) : Prop :=
  fd x = Z.of_nat i /\
  match status x with
  | FD_NONE => fopen_count x = 0
  | FD_OPENED => fopen_count x = 1 /\ node x <> 0 /\ is_Some (inodes e !! node x)
  | _ => False
  end.

Record inv (s : t F) : Prop := {
  inv_len a f : files s !! a = Some f -> length (fd_array f) = Z.to_nat FILES_STRUCT_NENTRY;
  inv_entry a f i x : files s !! a = Some f -> fd_array f !! i = Some x -> entry_ok (fenv s) i x;
  inv_inode n j : inodes (fenv s) !! n = Some j ->
    open_count j = opens s n /\ opens s n + pwds s n <= ref_count j /\ ref_count j < MAX_INODE_COUNT;
  inv_pwd a f : files s !! a = Some f -> fs_pwd f <> 0 -> is_Some (inodes (fenv s) !! fs_pwd f)
}.

(** The current process has a table. *)
Definition current (s : t F) (f : files_struct) : Prop :=
  filesp s <> 0 /\ files s !! filesp s = Some f /\ 0 < files_count f.

Lemma opens_nonneg s n : 0 <= opens s n.
Proof. apply sum_nonneg. intros f. apply held_nonneg. Qed.
Lemma pwds_nonneg s n : 0 <= pwds s n.
Proof. apply sum_nonneg. intros f. unfold one. case_decide; lia. Qed.

Lemma inv_count_ok s n j : inv s -> inodes (fenv s) !! n = Some j -> count_ok j.
Proof.
  intros Hi Hj. destruct (inv_inode _ Hi n j Hj) as (Ho & Hr & Hm).
  assert (H1 := opens_nonneg s n). assert (H2 := pwds_nonneg s n). unfold count_ok. lia.
Qed.

Lemma opens_pos s a f i x :
  files s !! a = Some f -> fd_array f !! i = Some x -> status x = FD_OPENED -> 0 < opens s (node x).
Proof.
  intros Hf Hx Hs. assert (Hp := held_pos (node x) _ i x Hx ltac:(done)).
  assert (Ht := total_pos (fun f => held (node x) (fd_array f)) (files s) a f (fun f => held_nonneg _ _) Hf).
  cbv beta in Ht. unfold opens. lia.
Qed.

(** ** Replacing an entry *)

Definition with_entry (f : files_struct) (i : nat) (x : file) : files_struct :=
  mk_files (fs_pwd f) (<[i := x]> (fd_array f)) (files_count f) (files_sem f).
Definition set_entry (a : Z) (i : nat) (x : file) (s : t F) : t F :=
  match files s !! a with
  | Some f => set_files (<[a := with_entry f i x]> (files s)) s
  | None => s
  end.
Definition set_env (e : env F) (s : t F) : t F := mk e (boot s) (vdevs s) (files s) (filesp s).

Section Entry.
  Context (s : t F) (a : Z) (f : files_struct) (i : nat) (x y : file).
  Hypothesis Hf : files s !! a = Some f.
  Hypothesis Hx : fd_array f !! i = Some x.

Lemma load_file_eq : load_file (a, Z.of_nat i) s = Ret (x, s).
Proof.
  unfold load_file, load_files, mbind, M_bind. simpl. rewrite Hf, Nat2Z.id. unfold lift_opt. by rewrite Hx.
Qed.

Lemma put_file_eq : put_file (a, Z.of_nat i) y s = Ret (tt, set_entry a i y s).
Proof.
  unfold put_file, load_files, mbind, M_bind, set_entry. simpl. rewrite Hf, Nat2Z.id. done.
Qed.

Lemma set_entry_files : files (set_entry a i y s) = <[a := with_entry f i y]> (files s).
Proof. unfold set_entry. by rewrite Hf. Qed.

Lemma set_entry_env : fenv (set_entry a i y s) = fenv s.
Proof. unfold set_entry. by rewrite Hf. Qed.

Lemma set_entry_twice z : set_entry a i z (set_entry a i y s) = set_entry a i z s.
Proof.
  unfold set_entry at 2. rewrite Hf. unfold set_entry. simpl. rewrite lookup_insert_eq, Hf.
  unfold set_files. simpl. rewrite insert_insert_eq. unfold with_entry. simpl. by rewrite list_insert_insert_eq.
Qed.

Lemma entry_lookup : (fd_array (with_entry f i y)) !! i = Some y.
Proof. simpl. apply list_lookup_insert_eq. by eapply lookup_lt_Some. Qed.

Lemma opens_set_entry n : opens (set_entry a i y s) n = opens s n - one (holds n x) + one (holds n y).
Proof.
  unfold opens. rewrite set_entry_files. rewrite (total_insert _ _ _ f) by done.
  simpl. rewrite (held_insert n _ i x) by done. lia.
Qed.

Lemma pwds_set_entry n : pwds (set_entry a i y s) n = pwds s n.
Proof. unfold pwds. rewrite set_entry_files. rewrite (total_insert _ _ _ f) by done. simpl. lia. Qed.

End Entry.

Lemma set_entry_set_env a i y e s : set_entry a i y (set_env e s) = set_env e (set_entry a i y s).
Proof. unfold set_entry, set_env. simpl. by destruct (files s !! a). Qed.

End State.

(** ** Keeping the invariant *)

Section Keep.
  Context {F : Type}.

(** One entry and the inodes change. *)
Lemma inv_update (s : t F) a f i x y e' :
  inv s -> files s !! a = Some f -> fd_array f !! i = Some x -> entry_ok e' i y ->
  let now n := opens s n - one (holds n x) + one (holds n y) in
  (forall n j, inodes e' !! n = Some j ->
     open_count j = now n /\ now n + pwds s n <= ref_count j /\ ref_count j < MAX_INODE_COUNT) ->
  (forall n, is_Some (inodes (fenv s) !! n) -> 0 < now n \/ 0 < pwds s n -> is_Some (inodes e' !! n)) ->
  inv (set_env e' (set_entry a i y s)).
Proof.
  intros Hinv Hf Hx Hy now Hn Hex. set (s' := set_env e' (set_entry a i y s)).
  assert (Hfiles : files s' = <[a := with_entry f i y]> (files s)) by (apply (set_entry_files s a f i y Hf)).
  assert (Hop : forall n, opens s' n = now n) by (intros n; apply (opens_set_entry s a f i x y Hf Hx)).
  assert (Hpw : forall n, pwds s' n = pwds s n) by (intros n; apply (pwds_set_entry s a f i y Hf)).
  assert (Hlook : forall b g, files s' !! b = Some g ->
    (b = a /\ g = with_entry f i y) \/ (b <> a /\ files s !! b = Some g)).
  { intros b g. rewrite Hfiles. destruct (decide (b = a)) as [->|Hne].
    - rewrite lookup_insert_eq. intros [= <-]. by left.
    - rewrite lookup_insert_ne by done. by right. }
  assert (Hkeep : forall b g k z, files s' !! b = Some g -> fd_array g !! k = Some z -> status z = FD_OPENED ->
    is_Some (inodes (fenv s) !! node z) -> is_Some (inodes e' !! node z)).
  { intros b g k z Hb Hz Hs Hi. apply Hex; [done|]. left. rewrite <- Hop. by apply (opens_pos s' b g k z). }
  split.
  - intros b g Hb. destruct (Hlook b g Hb) as [[-> ->]|[_ Hg]]; [|by eapply inv_len].
    simpl. rewrite length_insert. by eapply inv_len.
  - intros b g k z Hb Hz. assert (Hold : entry_ok (fenv s) k z -> entry_ok e' k z).
    { intros [Hfd Hst]. split; [done|]. destruct (status z) eqn:Hs; try done.
      destruct Hst as (? & ? & ?). split; [done|]. split; [done|]. by eapply Hkeep. }
    destruct (Hlook b g Hb) as [[-> ->]|[_ Hg]]; [|by apply Hold; eapply inv_entry].
    simpl in Hz. destruct (decide (k = i)) as [->|Hne].
    + rewrite list_lookup_insert_eq in Hz by (by eapply lookup_lt_Some). injection Hz as <-. done.
    + rewrite list_lookup_insert_ne in Hz by done. apply Hold. by eapply inv_entry.
  - intros n j Hj. rewrite Hop, Hpw. by apply Hn.
  - intros b g Hb Hp. assert (Hi : is_Some (inodes (fenv s) !! fs_pwd g)).
    { destruct (Hlook b g Hb) as [[-> ->]|[_ Hg]]; [simpl in *; by eapply inv_pwd|by eapply inv_pwd]. }
    apply Hex; [done|]. right. rewrite <- Hpw.
    assert (Ht' := total_pos (fun g' => one (fs_pwd g' = fs_pwd g)) (files s') b g
      ltac:(intros; unfold one; case_decide; lia) Hb).
    cbv beta in Ht'. unfold one in Ht' at 1. rewrite decide_True in Ht' by done. unfold pwds. lia.
Qed.

(** The entry keeps its inode and the inodes do not change. *)
Lemma inv_same (s : t F) a f i x y e' :
  inv s -> files s !! a = Some f -> fd_array f !! i = Some x ->
  fd y = fd x -> status y = status x -> node y = node x -> fopen_count y = fopen_count x ->
  inodes e' = inodes (fenv s) -> inv (set_env e' (set_entry a i y s)).
Proof.
  intros Hinv Hf Hx Hfd Hst Hnd Hco He.
  assert (Hone : forall n, opens s n - one (holds n x) + one (holds n y) = opens s n).
  { intros n. assert (one (holds n y) = one (holds n x)); [|lia]. unfold one.
    destruct (decide (holds n x)) as [Hh|Hh]; [rewrite decide_True|rewrite decide_False]; try done;
      unfold holds in *; by rewrite Hst, Hnd. }
  apply (inv_update s a f i x y e' Hinv Hf Hx).
  - destruct (inv_entry _ Hinv a f i x Hf Hx) as [H1 H2]. unfold entry_ok. rewrite Hfd, Hst, Hnd, Hco, He. done.
  - intros n j Hj. rewrite Hone. rewrite He in Hj. by apply inv_inode.
  - intros n Hi _. by rewrite He.
Qed.

End Keep.

(** ** The calls *)

Section Calls.
  Context {F : Type} `{FsLaws F} `{Heap F}.

Section Bracket.
  Context (s : t F) (f : files_struct) (i : nat) (x : file).
  Hypothesis Hcur : current s f.
  Hypothesis Hx : fd_array f !! i = Some x.

Lemma get_fd_array_eq : get_fd_array s = Ret (filesp s, s).
Proof using Hcur.
  destruct Hcur as (Hn & Hf & Hc). unfold get_fd_array. rewrite (bind_Ret _ _ s s s) by done.
  rewrite (proj2 (Z.eqb_neq _ 0) Hn), (bind_Ret _ _ s tt s) by done.
  unfold load_files, mbind, M_bind. rewrite Hf. by replace (0 <? files_count f) with true by lia.
Qed.

Lemma acquire_eq :
  status x = FD_OPENED -> fopen_count x = 1 ->
  fd_array_acquire (filesp s, Z.of_nat i) s = Ret (tt, set_entry (filesp s) i (with_count 2 x) s).
Proof using Hcur Hx.
  intros Hs Hc. destruct Hcur as (_ & Hf & _). unfold fd_array_acquire.
  rewrite (bind_Ret _ _ _ _ _ (load_file_eq s _ f i x Hf Hx)).
  rewrite bool_decide_true, (bind_Ret _ _ s tt s), Hc by done. by apply (put_file_eq s _ f).
Qed.

Lemma release_eq e' z :
  status z = FD_OPENED -> fopen_count z = 2 ->
  fd_array_release (filesp s, Z.of_nat i) (set_env e' (set_entry (filesp s) i z s))
  = Ret (tt, set_env e' (set_entry (filesp s) i (with_count 1 z) s)).
Proof using Hcur Hx.
  intros Hs Hc. destruct Hcur as (_ & Hf & _). set (s1 := set_env e' (set_entry (filesp s) i z s)).
  assert (Hf1 : files s1 !! filesp s = Some (with_entry f i z)).
  { unfold s1. simpl. rewrite (set_entry_files s _ f i z Hf). apply lookup_insert_eq. }
  assert (Hz : fd_array (with_entry f i z) !! i = Some z) by (by eapply entry_lookup).
  unfold fd_array_release. rewrite (bind_Ret _ _ _ _ _ (load_file_eq s1 _ _ i z Hf1 Hz)).
  rewrite bool_decide_true, (bind_Ret _ _ s1 tt s1), Hc by auto.
  rewrite (bind_Ret _ _ s1 tt s1) by done. rewrite (bind_Ret _ _ _ _ _ (put_file_eq s1 _ _ i _ Hf1)).
  cbn [when Z.eqb]. change (2 - 1) with 1. unfold s1. rewrite set_entry_set_env. unfold mret, M_ret.
  do 2 f_equal. unfold set_env at 1. by rewrite (set_entry_twice s _ f).
Qed.

End Bracket.

Definition opened (s : t F) (f : files_struct) (fd_ : Z) (i : nat) (x : file) : Prop :=
  fd_ = Z.of_nat i /\ fd_array f !! i = Some x /\ status x = FD_OPENED.

Lemma fd2file_spec s f fd_ :
  inv s -> current s f ->
  (exists i x, opened s f fd_ i x /\ fd2file fd_ s = Ret (Some (filesp s, Z.of_nat i), s)) \/
  (fd2file fd_ s = Ret (None, s) /\ forall i x, ~ opened s f fd_ i x).
Proof.
  intros Hinv Hcur. assert (Hfd := get_fd_array_eq s f Hcur). destruct Hcur as (_ & Hf & _).
  assert (Hlen := inv_len _ Hinv _ f Hf). unfold fd2file. destruct (testfd fd_) eqn:Ht.
  - unfold testfd in Ht. rewrite (bind_Ret _ _ _ _ _ Hfd).
    destruct (lookup_lt_is_Some_2 (fd_array f) (Z.to_nat fd_)) as [x Hx]; [lia|].
    assert (Hz : fd_ = Z.of_nat (Z.to_nat fd_)) by lia.
    assert (Hl := load_file_eq s _ f _ x Hf Hx). rewrite <- Hz in Hl. rewrite (bind_Ret _ _ _ _ _ Hl).
    destruct (inv_entry _ Hinv _ f _ x Hf Hx) as [Hxf _]. rewrite Hxf, <- Hz, Z.eqb_refl, andb_true_r.
    case_bool_decide as Hs.
    + left. exists (Z.to_nat fd_), x. unfold opened. rewrite <- Hz. done.
    + right. split; [done|]. intros i y (-> & Hy & Hsy). rewrite Nat2Z.id in Hx. congruence.
  - right. split; [done|]. intros i x (-> & Hx & _). apply lookup_lt_Some in Hx. unfold testfd in Ht. lia.
Qed.

Lemma opened_ok s f fd_ i x :
  inv s -> current s f -> opened s f fd_ i x ->
  fd x = Z.of_nat i /\ fopen_count x = 1 /\ node x <> 0 /\ is_Some (inodes (fenv s) !! node x).
Proof.
  intros Hinv (_ & Hf & _) (_ & Hx & Hs). destruct (inv_entry _ Hinv _ f i x Hf Hx) as [Hfd Hst].
  rewrite Hs in Hst. destruct Hst as (? & ? & ?). done.
Qed.

(** A body that leaves the inodes and, in its entry, everything but the
    position alone, or stops for the reason [C]. *)
Definition steady {A} (s : t F) (i : nat) (x : file) (m : M (t F) A) (C : Prop) : Prop :=
  outcome m (set_entry (filesp s) i (with_count 2 x) s) C (fun _ s1 => exists e' o,
    s1 = set_env e' (set_entry (filesp s) i (with_count 2 (with_pos o x)) s) /\ inodes e' = inodes (fenv s)).

(** The state after such a call: one position and the file system changed. *)
Definition moved_to (s s' : t F) : Prop :=
  s' = s \/ exists i e' o f x, current s f /\ fd_array f !! i = Some x /\ inodes e' = inodes (fenv s) /\
    s' = set_env e' (set_entry (filesp s) i (with_pos o x) s).

Lemma moved_inv s s' : inv s -> moved_to s s' -> inv s'.
Proof.
  intros Hinv [->|(i & e' & o & f & x & (_ & Hf & _) & Hx & He & ->)]; [done|].
  by apply (inv_same s _ f i x).
Qed.

Lemma with_count_back x o : fopen_count x = 1 -> with_count 1 (with_count 2 (with_pos o x)) = with_pos o x.
Proof. intros Hc. unfold with_count, with_pos. simpl. by rewrite Hc. Qed.

Lemma with_file_spec {A} s f fd_ (d : A) body (C : Prop) :
  inv s -> current s f ->
  (forall i x, opened s f fd_ i x -> steady s i x (body (filesp s, Z.of_nat i)) C) ->
  outcome (with_file fd_ d body) s C (fun _ s' => moved_to s s').
Proof.
  intros Hinv Hcur Hb. unfold with_file.
  destruct (fd2file_spec s f fd_ Hinv Hcur) as [(i & x & Hop & He)|[He _]]; eapply outcome_step; try exact He.
  - destruct (opened_ok s f fd_ i x Hinv Hcur Hop) as (Hfd & Hc & Hn & _). assert (Hx := Hop). destruct Hx as (_ & Hx & Hs).
    eapply outcome_step; [by apply (acquire_eq s f)|]. apply outcome_bind.
    eapply outcome_mono; [by apply Hb|done|]. intros r s1 (e' & o & -> & He').
    eapply outcome_step; [by apply (release_eq s f i x Hcur Hx e')|]. rewrite with_count_back by done.
    eapply outcome_ret; [done|]. right. by exists i, e', o, f, x.
  - eapply outcome_ret; [done|]. by left.
Qed.

(** The blame for an operation of an open descriptor. *)
Definition fd_blames (s : t F) (f : files_struct) (fd_ : Z) (names : list opname) : Prop :=
  exists i x, opened s f fd_ i x /\ blames names (node x).

(** An operation of the inode on the acquired entry, in an environment [e1] with
    the inodes of [s]. *)
Lemma steady_op {A} s f fd_ i x e1 names (o : opcall) (op : Z -> M (env F) A) :
  inv s -> current s f -> opened s f fd_ i x -> inodes e1 = inodes (fenv s) ->
  op_node o = node x -> op_name o ∈ names -> quiet (op (node x)) ->
  (forall e', stopped (op (node x) e') -> stopped (op_body o e')) ->
  outcome (inN (vop (op_name o) op (node x))) (set_env e1 (set_entry (filesp s) i (with_count 2 x) s))
    (fd_blames s f fd_ names) (fun _ s1 => exists e',
      s1 = set_env e' (set_entry (filesp s) i (with_count 2 x) s) /\ inodes e' = inodes (fenv s)).
Proof.
  intros Hinv Hcur Hop Hi1 Hnode Hin Hq Hst. destruct (opened_ok s f fd_ i x Hinv Hcur Hop) as (_ & _ & Hn & [j Hj]).
  destruct (vop_outcome o op e1 (node x) j (fd_blames s f fd_ names) (fun r e' => inodes e' = inodes (fenv s)))
    as [(r & e' & Hr & He)|[Hs HC]]; try done; [by rewrite Hi1|by eapply inv_count_ok| | | |].
  - intros Hos. exists i, x. split; [done|]. by exists o, e1.
  - intros e2 r e' He2 Hr. rewrite (Hq _ _ _ Hr). congruence.
  - left. exists r, (set_env e' (set_entry (filesp s) i (with_count 2 x) s)). split; [|by exists e'].
    unfold inN. cbn [fenv set_env]. by rewrite Hr.
  - right. split; [|done]. unfold inN. cbn [fenv set_env].
    destruct (vop _ _ _ e1) as [p| | |]; [by destruct (Hs p)|by intros a..].
Qed.

(** The acquired entry is read and its position written. *)
Lemma load_acquired (s : t F) f i x (e' : env F) o :
  current s f -> fd_array f !! i = Some x ->
  load_file (filesp s, Z.of_nat i) (set_env e' (set_entry (filesp s) i (with_count 2 (with_pos o x)) s))
  = Ret (with_count 2 (with_pos o x), set_env e' (set_entry (filesp s) i (with_count 2 (with_pos o x)) s)).
Proof.
  intros (_ & Hf & _) Hx. eapply load_file_eq; [|by eapply entry_lookup].
  simpl. rewrite (set_entry_files s _ f) by done. apply lookup_insert_eq.
Qed.

Lemma put_acquired (s : t F) f i x (e' : env F) o o' :
  current s f -> fd_array f !! i = Some x ->
  put_file (filesp s, Z.of_nat i) (with_pos o' (with_count 2 (with_pos o x)))
    (set_env e' (set_entry (filesp s) i (with_count 2 (with_pos o x)) s))
  = Ret (tt, set_env e' (set_entry (filesp s) i (with_count 2 (with_pos o' x)) s)).
Proof.
  intros (_ & Hf & _) Hx. erewrite put_file_eq.
  2: { simpl. rewrite (set_entry_files s _ f) by done. apply lookup_insert_eq. }
  rewrite set_entry_set_env, (set_entry_twice s _ f) by done. done.
Qed.

Lemma with_pos_id (x : file) : with_count 2 (with_pos (pos x) x) = with_count 2 x.
Proof. by destruct x. Qed.


Lemma load_acquired0 (s : t F) f i x :
  current s f -> fd_array f !! i = Some x ->
  load_file (filesp s, Z.of_nat i) (set_entry (filesp s) i (with_count 2 x) s)
  = Ret (with_count 2 x, set_entry (filesp s) i (with_count 2 x) s).
Proof.
  intros (_ & Hf & _) Hx. eapply load_file_eq; [|by eapply entry_lookup].
  rewrite (set_entry_files s _ f) by done. apply lookup_insert_eq.
Qed.

Lemma set_env_id (s : t F) a i y : set_env (fenv s) (set_entry a i y s) = set_entry a i y s.
Proof. unfold set_entry, set_env. destruct s as [? ? ? fs ?]. simpl. by destruct (fs !! a). Qed.

(** Reading the entry and calling an operation of its inode. *)
Lemma steady_call {A B} s f fd_ i x (o : opcall) (op : Z -> M (env F) A) (k : A -> M (t F) B) :
  inv s -> current s f -> opened s f fd_ i x -> op_node o = node x -> quiet (op (node x)) ->
  (forall e', stopped (op (node x) e') -> stopped (op_body o e')) ->
  (forall r s1, exists b, k r s1 = Ret (b, s1)) ->
  steady s i x (y ← load_file (filesp s, Z.of_nat i); r ← inN (vop (op_name o) op (node y)); k r)
    (fd_blames s f fd_ [op_name o]).
Proof.
  intros Hinv Hcur Hop Hnode Hq Hst Hk. assert (Hx := Hop). destruct Hx as (_ & Hx & _).
  eapply outcome_step; [by apply (load_acquired0 s f i x)|]. cbn [node with_count]. apply outcome_bind.
  rewrite <- (set_env_id s (filesp s) i (with_count 2 x)).
  eapply outcome_mono; [apply (steady_op s f fd_ i x (fenv s) [op_name o] o op); try done; apply list_elem_of_here|done|].
  intros r s1 (e' & -> & He). destruct (Hk r (set_env e' (set_entry (filesp s) i (with_count 2 x) s))) as [b Hb].
  eapply outcome_ret; [exact Hb|]. exists e', (pos x). by rewrite with_pos_id.
Qed.

Lemma steady_mono {A} s i x (m m' : M (t F) A) C : (forall s, m s = m' s) -> steady s i x m C -> steady s i x m' C.
Proof. intros He. unfold steady, outcome. by rewrite He. Qed.

Lemma bind_mret {A} (m : M (t F) A) s : (r ← m; mret r) s = m s.
Proof. unfold mbind, M_bind, mret, M_ret. by destruct (m s) as [[]| | |]. Qed.

(** [fstat] and [fsync]: the result of the operation is returned. *)
Lemma plain_spec {A} s f fd_ (d : A) (o : Z -> opcall) (op : Z -> M (env F) A) name :
  inv s -> current s f -> (forall n, op_node (o n) = n /\ op_name (o n) = name) -> (forall n, quiet (op n)) ->
  (forall n e', stopped (op n e') -> stopped (op_body (o n) e')) ->
  outcome (with_file fd_ d (fun p => x ← load_file p; inN (vop name op (node x)))) s (fd_blames s f fd_ [name])
    (fun _ s' => moved_to s s').
Proof.
  intros Hinv Hcur Ho Hq Hst. apply (with_file_spec s f); [done..|]. intros i x Hop.
  destruct (Ho (node x)) as [Hnode Hname].
  assert (Hc := steady_call s f fd_ i x (o (node x)) op mret Hinv Hcur Hop Hnode (Hq _) (Hst _)). rewrite Hname in Hc.
  eapply steady_mono; [|apply Hc; by eexists].
  intros s0. unfold mbind at 1 3, M_bind at 1 3. destruct (load_file _ s0) as [[y s1]| | |]; try done. apply bind_mret.
Qed.

Lemma fstat_spec s f fd_ :
  inv s -> current s f -> outcome (file_fstat fd_) s (fd_blames s f fd_ [VFstat]) (fun _ s' => moved_to s s').
Proof.
  intros Hinv Hcur. apply (plain_spec s f fd_ _ OFstat op_fstat); try done; [apply law_fstat|]. intros n e'. apply stopped_bind.
Qed.

Lemma fsync_spec s f fd_ :
  inv s -> current s f -> outcome (file_fsync fd_) s (fd_blames s f fd_ [VFsync]) (fun _ s' => moved_to s s').
Proof.
  intros Hinv Hcur. apply (plain_spec s f fd_ _ OFsync op_fsync); try done; [apply law_fsync|]. intros n e'. apply stopped_bind.
Qed.

Lemma getdirentry_spec s f fd_ name offset :
  inv s -> current s f ->
  outcome (file_getdirentry fd_ name offset) s (fd_blames s f fd_ [VGetdirentry]) (fun _ s' => moved_to s s').
Proof.
  intros Hinv Hcur. apply (with_file_spec s f); [done..|]. intros i x Hop.
  apply (steady_call s f fd_ i x (OGetdirentry (node x) (iobuf_init name 256 offset))
    (fun n => op_getdirentry n (iobuf_init name 256 offset))); try done; [apply law_getdirentry|intros e'; apply stopped_bind|].
  intros r s1. by eexists.
Qed.

(** What [file_rw] does after the operation of the inode. *)
Definition rw_tail (p : Z * Z) (r : Z * iobuf) : M (t F) (Z * Z) :=
  let copied := iobuf_used r.2 in
  x ← load_file p;
  when (bool_decide (status x = FD_OPENED)) (put_file p (with_pos (s32 (pos x + copied)) x));;
  fd_array_release p;;
  mret (r.1, copied).

Lemma rw_tail_eq (s : t F) f i x r e' :
  inv s -> current s f -> opened s f (Z.of_nat i) i x ->
  rw_tail (filesp s, Z.of_nat i) r (set_env e' (set_entry (filesp s) i (with_count 2 x) s)) =
    Ret ((r.1, iobuf_used r.2), set_env e' (set_entry (filesp s) i (with_pos (s32 (pos x + iobuf_used r.2)) x) s)).
Proof.
  intros Hinv Hcur Hop. destruct (opened_ok s f _ i x Hinv Hcur Hop) as (_ & Hc & Hn & _). destruct Hop as (_ & Hx & Hs).
  unfold rw_tail. cbv zeta. set (p' := s32 (pos x + iobuf_used r.2)).
  assert (Hl := load_acquired s f i x e' (pos x) Hcur Hx). rewrite with_pos_id in Hl.
  rewrite (bind_Ret _ _ _ _ _ Hl). cbn [status with_count]. rewrite bool_decide_true by done. cbn [when].
  assert (Hp := put_acquired s f i x e' (pos x) p' Hcur Hx). rewrite with_pos_id in Hp.
  rewrite (bind_Ret _ _ _ _ _ Hp).
  rewrite (bind_Ret _ _ _ _ _ (release_eq s f i x Hcur Hx e' (with_count 2 (with_pos p' x)) Hs eq_refl)).
  by rewrite with_count_back.
Qed.

Lemma rw_unfold (s : t F) f name op allowed i x base len :
  inv s -> current s f -> opened s f (Z.of_nat i) i x -> allowed x = true ->
  file_rw name op allowed (Z.of_nat i) base len s =
    (r ← inN (vop name (fun n => op n (iobuf_init base len (pos x))) (node x)); rw_tail (filesp s, Z.of_nat i) r)
      (set_entry (filesp s) i (with_count 2 x) s).
Proof.
  intros Hinv Hcur Hop Hal. unfold file_rw.
  destruct (fd2file_spec s f (Z.of_nat i) Hinv Hcur) as [(i' & x' & Hop' & Hfd)|[_ Hno]]; [|by destruct (Hno i x)].
  assert (i' = i) as -> by (destruct Hop' as (Hi' & _); lia). rewrite (bind_Ret _ _ _ _ _ Hfd).
  destruct (opened_ok s f _ i x Hinv Hcur Hop) as (_ & Hc & _ & _). assert (Hcur' := Hcur).
  destruct Hop as (_ & Hx & Hs), Hcur' as (_ & Hf & _).
  rewrite (bind_Ret _ _ _ _ _ (load_file_eq s _ f i x Hf Hx)), Hal. cbn [negb].
  by rewrite (bind_Ret _ _ _ _ _ (acquire_eq s f i x Hcur Hx Hs Hc)).
Qed.

(** A transfer on an open descriptor, once the operation of the inode is known. *)
Lemma rw_eq (s : t F) f name op allowed i x base len r e1 e' :
  inv s -> current s f -> opened s f (Z.of_nat i) i x -> allowed x = true ->
  has_op name (node x) (fenv s) = Ret (true, e1) -> inodes e1 = inodes (fenv s) ->
  op (node x) (iobuf_init base len (pos x)) e1 = Ret (r, e') ->
  file_rw name op allowed (Z.of_nat i) base len s =
    Ret ((r.1, iobuf_used r.2), set_env e' (set_entry (filesp s) i (with_pos (s32 (pos x + iobuf_used r.2)) x) s)).
Proof.
  intros Hinv Hcur Hop Hal Hh He1 Hr. rewrite (rw_unfold s f name op allowed i x base len Hinv Hcur Hop Hal).
  destruct (opened_ok s f _ i x Hinv Hcur Hop) as (_ & _ & Hn & [j Hj]).
  rewrite (bind_Ret _ _ _ r (set_env e' (set_entry (filesp s) i (with_count 2 x) s))).
  - by apply (rw_tail_eq s f).
  - destruct Hcur as (_ & Hf & _). unfold inN. rewrite (set_entry_env s _ f) by done.
    rewrite (vop_eq _ _ (fenv s) e1 (node x) j) by (done || by eapply inv_count_ok). by rewrite Hr.
Qed.

Lemma rw_spec s f (o : Z -> iobuf -> opcall) name op allowed fd_ base len :
  inv s -> current s f -> (forall n b, op_node (o n b) = n /\ op_name (o n b) = name) ->
  (forall n b, quiet (op n b)) -> (forall n b e', stopped (op n b e') -> stopped (op_body (o n b) e')) ->
  outcome (file_rw name op allowed fd_ base len) s (fd_blames s f fd_ [name]) (fun _ s' => moved_to s s').
Proof.
  intros Hinv Hcur Ho Hq Hst.
  destruct (fd2file_spec s f fd_ Hinv Hcur) as [(i & x & Hop & He)|[He _]].
  2: { unfold file_rw. eapply outcome_step; [exact He|]. eapply outcome_ret; [done|]. by left. }
  assert (Hx := Hop). destruct Hx as (-> & Hx & Hs). destruct (allowed x) eqn:Hal.
  2: { unfold file_rw. eapply outcome_step; [exact He|]. assert (Hcur' := Hcur). destruct Hcur' as (_ & Hf & _).
       eapply outcome_step; [by apply (load_file_eq s _ f i x)|]. rewrite Hal. eapply outcome_ret; [done|]. by left. }
  unfold outcome. rewrite (rw_unfold s f name op allowed i x base len Hinv Hcur Hop Hal).
  set (b := iobuf_init base len (pos x)). destruct (Ho (node x) b) as [Hnode Hname].
  assert (Hop1 := steady_op s f (Z.of_nat i) i x (fenv s) [name] (o (node x) b) (fun n => op n b) Hinv Hcur Hop eq_refl Hnode).
  rewrite Hname, set_env_id in Hop1. specialize (Hop1 (list_elem_of_here _ _) (Hq _ _) (Hst _ _)).
  apply (outcome_bind (inN (vop name (fun n => op n b) (node x))) (rw_tail (filesp s, Z.of_nat i))).
  eapply outcome_mono; [exact Hop1|done|]. intros r s1 (e' & -> & He').
  eapply outcome_ret; [by apply (rw_tail_eq s f)|]. right. by eexists i, e', _, f, x.
Qed.

(** Moving the position, once the new one is known. *)
Lemma seek_tail (s : t F) f i x (e' : env F) ret off :
  current s f -> fd_array f !! i = Some x -> inodes e' = inodes (fenv s) ->
  exists r e2 o, (when (ret =? 0) (y ← load_file (filesp s, Z.of_nat i); put_file (filesp s, Z.of_nat i) (with_pos off y));;
      mret ret) (set_env e' (set_entry (filesp s) i (with_count 2 x) s))
    = Ret (r, set_env e2 (set_entry (filesp s) i (with_count 2 (with_pos o x)) s)) /\ inodes e2 = inodes (fenv s).
Proof.
  intros Hcur Hx Hi. destruct (ret =? 0); cbn [when].
  - exists ret, e', off. split; [|done].
    assert (Hl := load_acquired s f i x e' (pos x) Hcur Hx). assert (Hp := put_acquired s f i x e' (pos x) off Hcur Hx).
    rewrite with_pos_id in Hl, Hp. erewrite bind_Ret; [reflexivity|].
    rewrite (bind_Ret _ _ _ _ _ Hl). exact Hp.
  - exists ret, e', (pos x). split; [|done]. by rewrite with_pos_id.
Qed.



Lemma seek_spec s f fd_ off whence :
  inv s -> current s f ->
  outcome (file_seek fd_ off whence) s (fd_blames s f fd_ [VFstat; VTryseek]) (fun _ s' => moved_to s s').
Proof.
  intros Hinv Hcur. apply (with_file_spec s f); [done..|]. intros i x Hop.
  assert (Hx := Hop). destruct Hx as (_ & Hx & _).
  assert (Htry : forall e1 o, inodes e1 = inodes (fenv s) ->
    outcome (ret ← inN (vop VTryseek (fun n => op_tryseek n o) (node x));
      when (ret =? 0) (y ← load_file (filesp s, Z.of_nat i); put_file (filesp s, Z.of_nat i) (with_pos o y));;
      mret ret) (set_env e1 (set_entry (filesp s) i (with_count 2 x) s)) (fd_blames s f fd_ [VFstat; VTryseek])
      (fun _ s1 => exists e' o, s1 = set_env e' (set_entry (filesp s) i (with_count 2 (with_pos o x)) s) /\
        inodes e' = inodes (fenv s))).
  { intros e1 o Hi1. apply outcome_bind.
    eapply outcome_mono;
      [apply (steady_op s f fd_ i x e1 [VFstat; VTryseek] (OTryseek (node x) o) (fun n => op_tryseek n o)); try done;
        [set_solver|apply law_tryseek|intros e'; apply stopped_bind]|done|].
    intros r s1 (e2 & -> & Hi2). destruct (seek_tail s f i x e2 r o Hcur Hx Hi2) as (r' & e3 & p & Hr & Hi3).
    eapply outcome_ret; [exact Hr|]. by exists e3, p. }
  assert (Hbase := set_env_id s (filesp s) i (with_count 2 x)).
  assert (Htry0 := fun o => Htry (fenv s) o eq_refl). rewrite Hbase in Htry0.
  eapply outcome_step; [by apply (load_acquired0 s f i x)|]. cbn [pos node with_count].
  destruct (whence =? LSEEK_SET); [|destruct (whence =? LSEEK_CUR); [|destruct (whence =? LSEEK_END)]].
  - eapply outcome_step; [done|]. apply Htry0.
  - eapply outcome_step; [done|]. apply Htry0.
  - apply outcome_bind, outcome_bind. rewrite <- Hbase.
    eapply outcome_mono;
      [apply (steady_op s f fd_ i x (fenv s) [VFstat; VTryseek] (OFstat (node x)) op_fstat); try done;
        [set_solver|apply law_fstat|intros e'; apply stopped_bind]|done|].
    intros r s1 (e1 & -> & Hi1). eapply outcome_ret; [done|].
    cbn [fst snd]. destruct (Z.eqb_spec r.1 0) as [Hz|Hz]; cbn [negb]; [by apply Htry|].
    eapply outcome_ret; [done|]. exists e1, (pos x). by rewrite with_pos_id.
  - eapply outcome_step; [done|]. cbn [fst snd negb]. eapply outcome_ret; [done|].
    exists (fenv s), (pos x). by rewrite with_pos_id, Hbase.
Qed.

(** Closing: the entry is free again and its inode has one open reference less,
    or is gone when that was its last reference. *)
Definition freed (x : file) : file := with_status FD_NONE (with_count 0 (with_status FD_CLOSED x)).

(** [file_close] is [vfs_close] on the inode of the entry. *)
Lemma close_unfold s f fd_ i x :
  inv s -> current s f -> opened s f fd_ i x ->
  file_close fd_ s =
    ((inN (vfs_close (node x));; mret tt);;
     y ← load_file (filesp s, Z.of_nat i); put_file (filesp s, Z.of_nat i) (with_status FD_NONE y);; mret 0)
    (set_entry (filesp s) i (with_count 0 (with_status FD_CLOSED x)) s).
Proof.
  intros Hinv Hcur Hop. destruct (opened_ok s f fd_ i x Hinv Hcur Hop) as (Hfd & Hc & Hn & _).
  assert (Hx := Hop). destruct Hx as (_ & Hx & Hs). assert (Hcur' := Hcur). destruct Hcur' as (_ & Hf & _).
  unfold file_close.
  destruct (fd2file_spec s f fd_ Hinv Hcur) as [(i' & x' & (Heq & _) & He')|[_ Hno]]; [|by destruct (Hno i x)].
  assert (i' = i) as -> by (destruct Hop as (? & _); lia). rewrite (bind_Ret _ _ _ _ _ He').
  set (z := with_count 0 (with_status FD_CLOSED x)). set (s1 := set_entry (filesp s) i z s).
  assert (Hf1 : files s1 !! filesp s = Some (with_entry f i z)).
  { unfold s1. rewrite (set_entry_files s _ f) by done. apply lookup_insert_eq. }
  assert (Hz : fd_array (with_entry f i z) !! i = Some z) by (by eapply entry_lookup).
  assert (Hcl : fd_array_close (filesp s, Z.of_nat i) s =
    ((inN (vfs_close (node x));; mret tt);;
     y ← load_file (filesp s, Z.of_nat i); put_file (filesp s, Z.of_nat i) (with_status FD_NONE y)) s1).
  { unfold fd_array_close. rewrite (bind_Ret _ _ _ _ _ (load_file_eq s _ f i x Hf Hx)).
    rewrite bool_decide_true, (bind_Ret _ _ s tt s), Hc, (bind_Ret _ _ s tt s) by done.
    rewrite (bind_Ret _ _ _ _ _ (put_file_eq s _ f i _ Hf)). change (1 - 1) with 0. cbn [Z.eqb when]. fold z. fold s1.
    unfold fd_array_free. rewrite (bind_Ret _ _ _ _ _ (load_file_eq s1 _ _ i z Hf1 Hz)).
    rewrite bool_decide_true, (bind_Ret _ _ s1 tt s1), (bind_Ret _ _ s1 tt s1) by auto. done. }
  unfold mbind at 1, M_bind at 1. rewrite Hcl. unfold mbind, M_bind.
  destruct (inN (vfs_close (node x)) s1) as [[r s2]| | |]; [|done..].
  unfold mret, M_ret. destruct (load_file _ s2) as [[y s3]| | |]; [|done..]. done.
Qed.

Lemma close_eq s f fd_ i x e' :
  inv s -> current s f -> opened s f fd_ i x -> vfs_close (node x) (fenv s) = Ret (0, e') ->
  file_close fd_ s = Ret (0, set_env e' (set_entry (filesp s) i (freed x) s)).
Proof.
  intros Hinv Hcur Hop He. rewrite (close_unfold s f fd_ i x Hinv Hcur Hop). destruct Hop as (_ & Hx & _), Hcur as (_ & Hf & _).
  set (z := with_count 0 (with_status FD_CLOSED x)). set (s1 := set_entry (filesp s) i z s).
  assert (Hf1 : files s1 !! filesp s = Some (with_entry f i z)).
  { unfold s1. rewrite (set_entry_files s _ f) by done. apply lookup_insert_eq. }
  assert (Hz : fd_array (with_entry f i z) !! i = Some z) by (by eapply entry_lookup).
  rewrite (bind_Ret _ _ s1 tt (set_env e' s1)).
  2: { rewrite (bind_Ret _ _ s1 0 (set_env e' s1)); [done|]. unfold inN, s1. rewrite (set_entry_env s _ f) by done. by rewrite He. }
  rewrite (bind_Ret _ _ _ _ _ (load_file_eq (set_env e' s1) _ _ i z Hf1 Hz)).
  rewrite (bind_Ret _ _ _ _ _ (put_file_eq (set_env e' s1) _ _ i _ Hf1)). rewrite set_entry_set_env.
  unfold s1. by rewrite (set_entry_twice s _ f) by done.
Qed.

Lemma close_spec s f fd_ i x j :
  inv s -> current s f -> opened s f fd_ i x -> inodes (fenv s) !! node x = Some j ->
  outcome (file_close fd_) s (fd_blames s f fd_ [VClose; VReclaim]) (fun r s' => exists e',
    r = 0 /\ s' = set_env e' (set_entry (filesp s) i (freed x) s) /\
    (inodes e' = <[node x := closed_inode j]> (inodes (fenv s)) \/
     (ref_count j = 1 /\ inodes e' = delete (node x) (inodes (fenv s))))).
Proof.
  intros Hinv Hcur Hop Hj. destruct (opened_ok s f fd_ i x Hinv Hcur Hop) as (Hfd & Hc & Hn & _).
  assert (Hx := Hop). destruct Hx as (_ & Hx & Hs). assert (Hcur' := Hcur). destruct Hcur' as (_ & Hf & _).
  destruct (inv_inode _ Hinv _ j Hj) as (Ho & _). assert (Hpos := opens_pos s _ f i x Hf Hx Hs).
  destruct (vfs_close_spec (fenv s) (node x) j Hn Hj) as [(r & e' & He & -> & Hi')|[Hst Hb]]; [by eapply inv_count_ok|lia| |].
  - left. exists 0. eexists. split; [by apply (close_eq s f fd_ i x e')|]. by exists e'.
  - right. split; [|by exists i, x]. rewrite (close_unfold s f fd_ i x Hinv Hcur Hop). do 2 apply stopped_bind.
    unfold inN. rewrite (set_entry_env s _ f) by done.
    destruct (vfs_close _ (fenv s)) as [p| | |]; [by destruct (Hst p)|by intros a..].
Qed.

Lemma close_inv s f fd_ i x j e' :
  inv s -> current s f -> opened s f fd_ i x -> inodes (fenv s) !! node x = Some j ->
  (inodes e' = <[node x := closed_inode j]> (inodes (fenv s)) \/
   (ref_count j = 1 /\ inodes e' = delete (node x) (inodes (fenv s)))) ->
  inv (set_env e' (set_entry (filesp s) i (freed x) s)).
Proof.
  intros Hinv Hcur Hop Hj Hi'. destruct (opened_ok s f fd_ i x Hinv Hcur Hop) as (Hfd & Hc & Hn & _).
  destruct Hop as (_ & Hx & Hs). destruct Hcur as (_ & Hf & _).
  destruct (inv_inode _ Hinv _ j Hj) as (Ho & Hr & Hm).
  assert (Hop := opens_pos s _ f i x Hf Hx Hs). assert (Hpw := pwds_nonneg s (node x)).
  assert (Hone : forall n, one (holds n (freed x)) = 0 /\ one (holds n x) = if decide (n = node x) then 1 else 0).
  { intros n. unfold one. split; [rewrite decide_False; [done|by intros []]|].
    destruct (decide (n = node x)) as [->|]; [by rewrite decide_True|]. rewrite decide_False; [done|]. by intros [_ <-]. }
  apply (inv_update s _ f i x (freed x) e' Hinv Hf Hx); [by split| |].
  - intros n j' Hj'. destruct (Hone n) as [-> ->]. destruct (decide (n = node x)) as [->|Hne].
    + destruct Hi' as [Hi'|[_ Hi']]; rewrite Hi' in Hj'; [|by rewrite lookup_delete_eq in Hj'].
      rewrite lookup_insert_eq in Hj'. injection Hj' as <-. unfold closed_inode. simpl. lia.
    + assert (Hjs : inodes (fenv s) !! n = Some j').
      { destruct Hi' as [Hi'|[_ Hi']]; rewrite Hi' in Hj'; [by rewrite lookup_insert_ne in Hj'|by rewrite lookup_delete_ne in Hj']. }
      destruct (inv_inode _ Hinv n j' Hjs) as (? & ? & ?). lia.
  - intros n Hsome Hpos. destruct (Hone n) as [Hz1 Hz2]. rewrite Hz1, Hz2 in Hpos.
    destruct (decide (n = node x)) as [->|Hne].
    + destruct Hi' as [->|[Hr1 _]]; [by rewrite lookup_insert_eq|lia].
    + destruct Hi' as [->|[_ ->]]; [by rewrite lookup_insert_ne|by rewrite lookup_delete_ne].
Qed.

(** ** Duplication *)

(** The entry [fd_array_alloc] chooses, or its error. *)
Definition choice (f : files_struct) (fd2 : Z) : Z + nat :=
  if fd2 =? NO_FD then
    match list_find (fun x => status x = FD_NONE) (fd_array f) with Some (k, _) => inr k | None => inl (- E_MAX_OPEN) end
  else if testfd fd2 then
    match fd_array f !! Z.to_nat fd2 with
    | Some y => if decide (status y = FD_NONE) then inr (Z.to_nat fd2) else inl (- E_BUSY)
    | None => inl (- E_BUSY)
    end
  else inl (- E_INVAL).

Lemma choice_free f fd2 k : choice f fd2 = inr k -> exists y, fd_array f !! k = Some y /\ status y = FD_NONE.
Proof.
  unfold choice. destruct (fd2 =? NO_FD).
  - destruct (list_find _ _) as [[k' y]|] eqn:E; [|done]. intros [= <-].
    apply list_find_Some in E as (Hk & Hs & _). by exists y.
  - destruct (testfd fd2); [|done]. destruct (fd_array f !! Z.to_nat fd2) as [y|] eqn:E; [|done].
    case_decide; [|done]. intros [= <-]. by exists y.
Qed.

Definition fresh_entry (y : file) : file := with_node 0 (with_status FD_INIT y).

Lemma fd_alloc_spec (s : t F) f fd2 :
  inv s -> current s f ->
  match choice f fd2 with
  | inl err => err <> 0 /\ fd_array_alloc fd2 s = Ret ((err, (0, 0)), s)
  | inr k => exists y, fd_array f !! k = Some y /\ status y = FD_NONE /\
      fd_array_alloc fd2 s = Ret ((0, (filesp s, Z.of_nat k)), set_entry (filesp s) k (fresh_entry y) s)
  end.
Proof.
  intros Hinv Hcur. assert (Hget := get_fd_array_eq s f Hcur). destruct Hcur as (_ & Hf & _).
  assert (Hlen := inv_len _ Hinv _ f Hf).
  assert (Hfound : forall k y, fd_array f !! k = Some y -> status y = FD_NONE ->
    (x ← load_file (filesp s, Z.of_nat k);
     assert_ (fopen_count x =? 0);;
     put_file (filesp s, Z.of_nat k) (with_node 0 (with_status FD_INIT x));;
     mret (0, (filesp s, Z.of_nat k))) s
    = Ret ((0, (filesp s, Z.of_nat k)), set_entry (filesp s) k (fresh_entry y) s)).
  { intros k y Hy Hs. rewrite (bind_Ret _ _ _ _ _ (load_file_eq s _ f k y Hf Hy)).
    destruct (inv_entry _ Hinv _ f k y Hf Hy) as [_ Hst]. rewrite Hs in Hst. rewrite Hst, (bind_Ret _ _ s tt s) by done.
    by rewrite (bind_Ret _ _ _ _ _ (put_file_eq s _ f k _ Hf)). }
  unfold fd_array_alloc, choice. rewrite (bind_Ret _ _ _ _ _ Hget).
  rewrite (bind_Ret _ _ s f s) by (unfold load_files; by rewrite Hf). cbv zeta. unfold first_none.
  destruct (fd2 =? NO_FD).
  - destruct (list_find _ (fd_array f)) as [[k y]|] eqn:E; [|done].
    apply list_find_Some in E as (Hk & Hs & _). exists y. split; [done|]. split; [done|]. by apply Hfound.
  - destruct (testfd fd2) eqn:Ht; [|done]. unfold testfd in Ht.
    destruct (lookup_lt_is_Some_2 (fd_array f) (Z.to_nat fd2)) as [y Hy]; [lia|]. rewrite Hy.
    assert (Hl := load_file_eq s _ f _ y Hf Hy). assert (Hfn := Hfound _ y Hy).
    rewrite Z2Nat.id in Hl, Hfn by lia. rewrite (bind_Ret _ _ _ _ _ Hl).
    case_decide as Hs; [|done]. exists y. split; [done|]. split; [done|]. rewrite Z2Nat.id by lia. by apply Hfn.
Qed.


Definition dup_entry (x y : file) : file :=
  mk_file FD_OPENED (readable x) (writable x) (fd y) (pos x) (node x) 1.
Definition dup_inode (j : inode) : inode := mk_inode (ref_count j + 1) (open_count j + 1) (is_device j) (in_fs j).

Section Dup.
  Context (s : t F) (f : files_struct) (fd1 : Z) (i k : nat) (x y : file) (j : inode).
  Hypothesis Hinv : inv s.
  Hypothesis Hcur : current s f.
  Hypothesis Hop : opened s f fd1 i x.
  Hypothesis Hy : fd_array f !! k = Some y.
  Hypothesis Hfree : status y = FD_NONE.
  Hypothesis Hj : inodes (fenv s) !! node x = Some j.
  Hypothesis Hroom : ref_count j + 1 < MAX_INODE_COUNT.

Definition dup_env : env F := set_inodes (<[node x := dup_inode j]> (inodes (fenv s))) (fenv s).
Definition dup_state : t F := set_env dup_env (set_entry (filesp s) k (dup_entry x y) s).

Lemma entries_differ : k <> i.
Proof using Hop Hy Hfree. destruct Hop as (_ & Hx & Hs). intros ->. congruence. Qed.

Lemma fd_array_dup_eq :
  fd_array_dup (filesp s, Z.of_nat k) (filesp s, Z.of_nat i) (set_entry (filesp s) k (fresh_entry y) s)
  = Ret (tt, dup_state).
Proof using All.
  assert (Hne := entries_differ). destruct (opened_ok s f fd1 i x Hinv Hcur Hop) as (_ & _ & Hn & _).
  destruct Hop as (_ & Hx & Hs). destruct Hcur as (_ & Hf & _).
  destruct (inv_entry _ Hinv _ f k y Hf Hy) as [_ Hst]. rewrite Hfree in Hst.
  set (s1 := set_entry (filesp s) k (fresh_entry y) s).
  assert (Hf1 : files s1 !! filesp s = Some (with_entry f k (fresh_entry y))).
  { unfold s1. rewrite (set_entry_files s _ f) by done. apply lookup_insert_eq. }
  assert (Hk1 : fd_array (with_entry f k (fresh_entry y)) !! k = Some (fresh_entry y)) by (by eapply entry_lookup).
  assert (Hi1 : fd_array (with_entry f k (fresh_entry y)) !! i = Some x) by (simpl; by rewrite list_lookup_insert_ne).
  unfold fd_array_dup. rewrite (bind_Ret _ _ _ _ _ (load_file_eq s1 _ _ k _ Hf1 Hk1)).
  rewrite (bind_Ret _ _ _ _ _ (load_file_eq s1 _ _ i _ Hf1 Hi1)).
  rewrite !bool_decide_true, (bind_Ret _ _ s1 tt s1) by done.
  destruct (incs_eq (fenv s) (node x) j Hj (inv_count_ok s _ j Hinv Hj) Hroom) as (e1 & r1 & r2 & Hr1 & Hr2).
  assert (He1 : inN (inode_ref_inc (node x)) s1 = Ret (r1, set_env e1 s1)).
  { unfold inN, s1. rewrite (set_entry_env s _ f) by done. by rewrite Hr1. }
  rewrite (bind_Ret _ _ _ _ _ He1).
  assert (He2 : inN (inode_open_inc (node x)) (set_env e1 s1) = Ret (r2, set_env dup_env s1)).
  { unfold inN. cbn [fenv set_env]. by rewrite Hr2. }
  rewrite (bind_Ret _ _ _ _ _ He2).
  set (z := mk_file (status (fresh_entry y)) (readable x) (writable x) (fd (fresh_entry y)) (pos x) (node x) (fopen_count (fresh_entry y))).
  set (s2 := set_env dup_env s1).
  rewrite (bind_Ret _ _ _ _ _ (put_file_eq s2 _ _ k z Hf1)).
  set (s3 := set_entry (filesp s) k z s2).
  assert (Hf3 : files s3 !! filesp s = Some (with_entry (with_entry f k (fresh_entry y)) k z)).
  { unfold s3. rewrite (set_entry_files s2 _ _ k z Hf1). apply lookup_insert_eq. }
  assert (Hk3 : fd_array (with_entry (with_entry f k (fresh_entry y)) k z) !! k = Some z) by (by eapply entry_lookup).
  unfold fd_array_open. rewrite (bind_Ret _ _ _ _ _ (load_file_eq s3 _ _ k z Hf3 Hk3)).
  rewrite bool_decide_true by done. cbn [node z]. rewrite (proj2 (Z.eqb_neq _ 0) Hn), (bind_Ret _ _ s3 tt s3) by done.
  rewrite (put_file_eq s3 _ _ k _ Hf3). unfold s3. rewrite (set_entry_twice s2 _ _ k z Hf1).
  unfold s2. rewrite set_entry_set_env. unfold s1. rewrite (set_entry_twice s _ f) by done.
  unfold dup_state, dup_entry, with_count, with_status, z. cbn [fopen_count fresh_entry with_node with_status]. by rewrite Hst.
Qed.

Lemma dup_inv : inv dup_state.
Proof using All.
  destruct (opened_ok s f fd1 i x Hinv Hcur Hop) as (_ & _ & Hn & _). destruct Hcur as (_ & Hf & _).
  destruct (inv_entry _ Hinv _ f k y Hf Hy) as [Hfd _]. destruct (inv_inode _ Hinv _ j Hj) as (Ho & Hr & _).
  assert (Hone : forall n, one (holds n y) = 0 /\ one (holds n (dup_entry x y)) = if decide (n = node x) then 1 else 0).
  { intros n. unfold one. split; [rewrite decide_False; [done|]; intros []; congruence|].
    destruct (decide (n = node x)) as [->|]; [by rewrite decide_True|]. rewrite decide_False; [done|]. by intros [_ <-]. }
  apply (inv_update s _ f k y (dup_entry x y) dup_env Hinv Hf Hy).
  - split; [done|]. simpl. split; [done|]. split; [done|]. by rewrite lookup_insert_eq.
  - intros n j' Hj'. destruct (Hone n) as [-> ->]. simpl in Hj'. destruct (decide (n = node x)) as [->|Hne].
    + rewrite lookup_insert_eq in Hj'. injection Hj' as <-. unfold dup_inode. simpl. lia.
    + rewrite lookup_insert_ne in Hj' by done. destruct (inv_inode _ Hinv n j' Hj') as (? & ? & ?). lia.
  - intros n Hsome _. simpl. destruct (decide (n = node x)) as [->|]; [by rewrite lookup_insert_eq|by rewrite lookup_insert_ne].
Qed.

End Dup.

Lemma file_dup_eq (s : t F) f fd1 fd2 :
  inv s -> current s f ->
  (file_dup fd1 fd2 s = Ret (- E_INVAL, s) /\ forall i x, ~ opened s f fd1 i x) \/
  exists i x j, opened s f fd1 i x /\ inodes (fenv s) !! node x = Some j /\
    match choice f fd2 with
    | inl err => file_dup fd1 fd2 s = Ret (err, s)
    | inr k => exists y, fd_array f !! k = Some y /\ status y = FD_NONE /\
        (ref_count j + 1 < MAX_INODE_COUNT -> file_dup fd1 fd2 s = Ret (Z.of_nat k, dup_state s k x y j))
    end.
Proof.
  intros Hinv Hcur. unfold file_dup.
  destruct (fd2file_spec s f fd1 Hinv Hcur) as [(i & x & Hop & He)|[He Hno]]; rewrite (bind_Ret _ _ _ _ _ He); [right|by left].
  destruct (opened_ok s f fd1 i x Hinv Hcur Hop) as (_ & _ & _ & [j Hj]). exists i, x, j.
  split; [done|]. split; [done|].
  assert (Hal := fd_alloc_spec s f fd2 Hinv Hcur). destruct (choice f fd2) as [err|k].
  - destruct Hal as [Hne Hal]. rewrite (bind_Ret _ _ _ _ _ Hal). cbn [fst]. by rewrite (proj2 (Z.eqb_neq err 0) Hne).
  - destruct Hal as (y & Hy & Hs & Hal). exists y. split; [done|]. split; [done|]. intros Hroom.
    rewrite (bind_Ret _ _ _ _ _ Hal). cbn [fst snd negb Z.eqb].
    rewrite (bind_Ret _ _ _ _ _ (fd_array_dup_eq s f fd1 i k x y j Hinv Hcur Hop Hy Hs Hj Hroom)).
    destruct Hcur as (_ & Hf & _). destruct (inv_entry _ Hinv _ f k y Hf Hy) as [Hfd _].
    assert (Hfk : files (dup_state s k x y j) !! filesp s = Some (with_entry f k (dup_entry x y))).
    { unfold dup_state. simpl. rewrite (set_entry_files s _ f) by done. apply lookup_insert_eq. }
    rewrite (bind_Ret _ _ _ _ _ (load_file_eq (dup_state s k x y j) _ _ k _ Hfk (entry_lookup f k y (dup_entry x y) Hy))).
    simpl. by rewrite Hfd.
Qed.

End Calls.

(** ** Properties *)

(** The calls a process makes on its descriptors. *)
Inductive call :=
| Read (fd_ base len : Z) | Write (fd_ base len : Z) | Seek (fd_ off whence : Z) | Fstat (fd_ : Z)
| Fsync (fd_ : Z) | Getdirentry (fd_ name offset : Z) | Close (fd_ : Z) | Dup (fd1 fd2 : Z).

Section Claims.
  Context {F : Type} `{FsLaws F} `{Heap F}.

Definition run (c : call) : M (t F) unit :=
  match c with
  | Read fd_ base len => file_read fd_ base len;; mret tt
  | Write fd_ base len => file_write fd_ base len;; mret tt
  | Seek fd_ off whence => file_seek fd_ off whence;; mret tt
  | Fstat fd_ => file_fstat fd_;; mret tt
  | Fsync fd_ => file_fsync fd_;; mret tt
  | Getdirentry fd_ name offset => file_getdirentry fd_ name offset;; mret tt
  | Close fd_ => file_close fd_;; mret tt
  | Dup fd1 fd2 => file_dup fd1 fd2;; mret tt
  end.

(** The counts have room for one more reference. *)
Definition room (s : t F) : Prop := forall n j, inodes (fenv s) !! n = Some j -> ref_count j + 1 < MAX_INODE_COUNT.

(** The descriptor of a call and the operations of its inode that the call uses. *)
Definition call_fd (c : call) : Z :=
  match c with
  | Read fd_ _ _ | Write fd_ _ _ | Seek fd_ _ _ | Fstat fd_ | Fsync fd_ | Getdirentry fd_ _ _ | Close fd_ => fd_
  | Dup fd1 _ => fd1
  end.
Definition call_ops (c : call) : list opname :=
  match c with
  | Read _ _ _ => [VRead] | Write _ _ _ => [VWrite] | Seek _ _ _ => [VFstat; VTryseek] | Fstat _ => [VFstat]
  | Fsync _ => [VFsync] | Getdirentry _ _ _ => [VGetdirentry] | Close _ => [VClose; VReclaim] | Dup _ _ => []
  end.

Lemma moved_run {A} (m : M (t F) A) s C :
  inv s -> outcome m s C (fun _ s' => moved_to s s') -> outcome (m;; mret tt) s C (fun _ s' => inv s').
Proof.
  intros Hinv Hm. apply outcome_bind. eapply outcome_mono; [exact Hm|done|].
  intros r s' Hmv. eapply outcome_ret; [done|]. by apply (moved_inv s).
Qed.


(** C23: Duplicating a descriptor and closing the copy cancel.  [file_dup]
    returns the entry it was asked for, or the first free one, open on the same
    inode at the same position with the same rights; closing it afterwards
    leaves every inode with the counts it had, every other entry of the table as
    it was, and the entry free again. *)
Theorem dup_close_roundtrip (s : t F) f fd1 fd2 i x k :
  inv s -> current s f -> room s -> opened s f fd1 i x -> choice f fd2 = inr k ->
  exists y s1 s2 f1 f2, file_dup fd1 fd2 s = Ret (Z.of_nat k, s1) /\
    current s1 f1 /\ fd_array f1 !! k = Some (dup_entry x y) /\
    file_close (Z.of_nat k) s1 = Ret (0, s2) /\
    inodes (fenv s2) = inodes (fenv s) /\ inv s2 /\ current s2 f2 /\
    (forall n z, n <> k -> fd_array f2 !! n = Some z <-> fd_array f !! n = Some z) /\
    (exists z, fd_array f2 !! k = Some z /\ status z = FD_NONE /\ fopen_count z = 0).
Proof.
  intros Hinv Hcur Hroom Hop Hch.
  destruct (file_dup_eq s f fd1 fd2 Hinv Hcur) as [[_ Hno]|(i' & x' & j & Hop' & Hj & Hd)]; [by destruct (Hno i x)|].
  assert (Hi : i' = i /\ x' = x).
  { destruct Hop as (-> & Hx & _), Hop' as (He & Hx' & _). apply Nat2Z.inj in He as <-. split; [done|congruence]. }
  destruct Hi as [-> ->]. rewrite Hch in Hd. destruct Hd as (y & Hy & Hs & Hd). specialize (Hd (Hroom _ j Hj)).
  assert (Hcur' := Hcur). destruct Hcur' as (Hz & Hf & Hcnt).
  set (s1 := dup_state s k x y j) in *. set (f1 := with_entry f k (dup_entry x y)).
  assert (Hinv1 : inv s1) by (apply (dup_inv s f fd1 i k x y j); try done; by apply (Hroom (node x))).
  assert (Hfiles1 : files s1 = <[filesp s := f1]> (files s)) by (apply (set_entry_files s _ f); done).
  assert (Hsp1 : filesp s1 = filesp s) by (unfold s1, dup_state, set_entry; by rewrite Hf).
  assert (Hcur1 : current s1 f1) by (split; [by rewrite Hsp1|]; split; [by rewrite Hsp1, Hfiles1, lookup_insert_eq|done]).
  assert (Hk1 : fd_array f1 !! k = Some (dup_entry x y)) by (by eapply entry_lookup).
  assert (Hop1 : opened s1 f1 (Z.of_nat k) k (dup_entry x y)) by done.
  assert (Hj1 : inodes (fenv s1) !! node (dup_entry x y) = Some (dup_inode j)) by (simpl; apply lookup_insert_eq).
  assert (Hpos : 1 < open_count (dup_inode j) /\ open_count (dup_inode j) <= ref_count (dup_inode j)).
  { destruct (inv_count_ok s _ j Hinv Hj) as [Hc0 _]. destruct (inv_inode _ Hinv _ j Hj) as (Ho & _).
    destruct Hop as (_ & Hx & Hst). assert (Hp := opens_pos s _ f i x Hf Hx Hst). unfold dup_inode. cbn [open_count ref_count]. lia. }
  set (e2 := set_inodes (<[node x := closed_inode (dup_inode j)]> (inodes (fenv s1))) (fenv s1)).
  assert (Hcl := close_eq s1 f1 _ k _ e2 Hinv1 Hcur1 Hop1 (vfs_close_shared _ _ _ Hj1 (proj1 Hpos) (proj2 Hpos))).
  assert (Hi2 : inodes e2 = <[node (dup_entry x y) := closed_inode (dup_inode j)]> (inodes (fenv s1)) \/
    (ref_count (dup_inode j) = 1 /\ inodes e2 = delete (node (dup_entry x y)) (inodes (fenv s1)))) by by left.
  assert (Hinv2 := close_inv s1 f1 _ k _ _ e2 Hinv1 Hcur1 Hop1 Hj1 Hi2).
  set (s2 := set_env e2 (set_entry (filesp s1) k (freed (dup_entry x y)) s1)) in *.
  assert (Hf1 : files s1 !! filesp s1 = Some f1) by (by destruct Hcur1 as (_ & ? & _)).
  set (f2 := with_entry f1 k (freed (dup_entry x y))).
  assert (Hsp2 : filesp s2 = filesp s1) by (unfold s2, set_env, set_entry; by rewrite Hf1).
  assert (Hfiles2 : files s2 = <[filesp s1 := f2]> (files s1)) by (apply (set_entry_files s1 _ f1); done).
  assert (Hcur2 : current s2 f2).
  { split; [by rewrite Hsp2, Hsp1|]. split; [|done]. by rewrite Hsp2, Hfiles2, lookup_insert_eq. }
  exists y, s1, s2, f1, f2. do 4 (split; [done|]). split; [|split; [done|split; [done|split]]].
  - simpl. rewrite insert_insert_eq. apply insert_id. rewrite Hj. f_equal. unfold closed_inode, dup_inode. simpl.
    destruct j. simpl. f_equal; lia.
  - intros n z Hn. simpl. by rewrite !list_lookup_insert_ne.
  - exists (freed (dup_entry x y)). split; [|done]. by eapply entry_lookup.
Qed.

End Claims.

(** ** A concrete file system *)

(** Its files are empty and refuse nothing; an inode without references is
    removed. *)
#[local] Instance demo_ops : FsOps Bump.t := {
  has_op _ _ := mret true; op_open _ _ := mret 0; op_close _ := mret 0;
  op_read _ iob := mret (0, iob); op_write _ iob := mret (- E_NO_MEM, iob);
  op_fstat _ := mret (0, mk_stat 0x1000 1 0 0); op_fsync _ := mret 0;
  op_namefile _ iob := mret (0, iob); op_getdirentry _ iob := mret (- E_NOTDIR, iob);
  op_reclaim n := modify (fun e => set_inodes (delete n (inodes e)) e);; mret 0;
  op_gettype _ := mret (0, 0x1000); op_tryseek _ o := mret (if o <? 0 then - E_INVAL else 0);
  op_truncate _ _ := mret 0; op_create _ _ _ := mret (- E_NO_MEM, 0); op_lookup _ _ := mret (- E_NOENT, 0);
  fs_sync _ := mret 0; fs_get_root _ := mret 0; fs_unmount _ := mret 0; fs_cleanup _ := mret tt
}.

#[local] Instance demo_laws : FsLaws Bump.t.
Proof.
  split; try (intros; by intros e r e' [= <- <-]).
  intros n e r e' i Hi _ _ [= <- <-]. by right.
Qed.

Definition demo_file : file := mk_file FD_OPENED true true 0 10 7 1.
Definition demo_files : files_struct :=
  mk_files 0 (demo_file :: fd_array_init 1 (replicate 144 (mk_file FD_CLOSED false false 0 0 0 5))) 1 1.
Definition demo : t Bump.t :=
  mk (mk_env {[7 := mk_inode 1 1 false 0]} (Bump.mk 5 []) ∅) 0 [] {[1 := demo_files]} 1.

Lemma init_entry l k i x :
  fd_array_init k l !! i = Some x -> status x = FD_NONE /\ fopen_count x = 0 /\ fd x = k + Z.of_nat i.
Proof.
  revert k i. induction l as [|y l IH]; intros k [|i] Hx; try done; simpl in Hx.
  - injection Hx as <-. simpl. split_and!; [done..|lia].
  - destruct (IH _ _ Hx) as (? & ? & ?). split_and!; [done..|lia].
Qed.

Lemma demo_current : current demo demo_files.
Proof. by split. Qed.

Lemma demo_inv : inv demo.
Proof.
  split.
  - intros a f Hf. cbn [files demo] in Hf. apply lookup_singleton_Some in Hf as [<- <-]. done.
  - intros a f i x Hf Hx. cbn [files demo] in Hf. apply lookup_singleton_Some in Hf as [<- <-]. destruct i as [|i].
    + injection Hx as <-. done.
    + apply init_entry in Hx as (Hs & Hc & Hd). unfold entry_ok. rewrite Hs. split; [lia|done].
  - intros n j Hj. cbn [fenv inodes demo] in Hj. apply lookup_singleton_Some in Hj as [<- <-]. by vm_compute.
  - intros a f Hf Hp. cbn [files demo] in Hf. apply lookup_singleton_Some in Hf as [<- <-]. done.
Qed.

Lemma demo_room : room demo.
Proof. intros n j Hj. cbn [fenv inodes demo] in Hj. apply lookup_singleton_Some in Hj as [<- <-]. done. Qed.


Lemma dup_close_roundtrip_witness :
  exists s1 s2, file_dup 0 NO_FD demo = Ret (1, s1) /\ file_close 1 s1 = Ret (0, s2) /\
    inodes (fenv s2) = inodes (fenv demo).
Proof.
  destruct (dup_close_roundtrip demo demo_files 0 NO_FD 0 demo_file 1 demo_inv demo_current demo_room)
    as (y & s1 & s2 & f1 & f2 & Hd & _ & _ & Hc & Hi & _); [done|by vm_compute|].
  exists s1, s2. done.
Defined.
End FileSpec.
