(* ===== verification/Sfs.v ===== *)
(** The on-disk file system: its format (kern/fs/sfs/sfs.h), block input and
    output (sfs_io.c) and the map from the blocks of a file to those of the disk
    (sfs_inode.c).  The disk is a device behind [d_io] (kern/fs/devs/dev.h).  A
    buffer is passed as the bytes it holds; a function that fills a buffer
    returns the bytes it holds then.  Semaphores are left out: the functions
    they guard run one at a time. *)

From S2P Require Import Prelude Bytes Heap Bitmap.

(** A block device: [dop_io] at a byte offset of the device with the bytes of
    the buffer; the status and the bytes of the buffer afterwards. *)
Class BlockDev (D : Type) := {
  d_blocks : D -> Z;
  d_blocksize : D -> Z;
  dop_io : Z -> list Z -> bool -> M D (Z * list Z)
}.

Module Sfs.
Import Bitmap.

Definition SFS_MAGIC : Z := 0x2f8dbe2a.
Definition SFS_BLKSIZE : Z := 4096.
Definition SFS_NDIRECT : Z := 12.
Definition SFS_MAX_INFO_LEN : Z := 31.
Definition SFS_MAX_FNAME_LEN : Z := 255.
Definition SFS_MAX_FILE_SIZE : Z := 1024 * 1024 * 128.
Definition SFS_BLKN_SUPER : Z := 0.
Definition SFS_BLKN_ROOT : Z := 1.
Definition SFS_BLKN_FREEMAP : Z := 2.
Definition SFS_BLKBITS : Z := SFS_BLKSIZE * 8.
Definition SFS_BLK_NENTRY : Z := SFS_BLKSIZE / 4.
Definition SFS_TYPE_FILE : Z := 1.
Definition SFS_TYPE_DIR : Z := 2.
Definition SFS_TYPE_LINK : Z := 3.

Record sfs_super := mk_super { magic : Z; sblocks : Z; unused_blocks : Z; info : list Z }.

Record sfs_disk_inode := mk_din {
  size : Z; type : Z; nlinks : Z; blocks : Z; direct : list Z; indirect : Z
}.

(** [din] is the structure the field points to, [din_addr] its address. *)
Record sfs_inode := mk_sin {
  din : sfs_disk_inode; din_addr : Z; ino : Z; dirty : bool; reclaim_count : Z
}.

(** ** Objects as bytes *)

Definition sizeof_super : Z := 44.
Definition sizeof_din : Z := 64.
Definition sizeof_entry : Z := 260.

Definition super_bytes (s : sfs_super) : list Z :=
  le_bytes 4 (magic s) ++ le_bytes 4 (sblocks s) ++ le_bytes 4 (unused_blocks s) ++ info s.
Definition super_of (l : list Z) : sfs_super :=
  mk_super (le_val (slice 0 4 l)) (le_val (slice 4 4 l)) (le_val (slice 8 4 l)) (slice 12 32 l).

Definition din_bytes (d : sfs_disk_inode) : list Z :=
  le_bytes 4 (size d) ++ le_bytes 2 (type d) ++ le_bytes 2 (nlinks d) ++ le_bytes 4 (blocks d)
  ++ words_bytes (direct d) ++ le_bytes 4 (indirect d).
Definition din_of (l : list Z) : sfs_disk_inode :=
  mk_din (le_val (slice 0 4 l)) (le_val (slice 4 2 l)) (le_val (slice 6 2 l)) (le_val (slice 8 4 l))
    (words_of 12 (slice 12 48 l)) (le_val (slice 60 4 l)).

(** ** The state

    [struct sfs_fs], with the structures its pointers lead to and their
    addresses, the in-memory inodes by the address of their [struct inode], the
    device and the kernel heap.  Only disk0 can be mounted, so there is one
    such structure at a time; [fs_addr] is the address of its [struct fs], 0
    when there is none. *)
Record t (D H : Type) := mk {
  fs_addr : Z; super : sfs_super; freemap : bitmap; super_dirty : bool;
  sfs_buffer : list Z; buffer_addr : Z;
  inode_list : list Z; hash_list : list (list Z); hash_addr : Z;
  sins : gmap Z sfs_inode; dev : D; heap : H
}.
Arguments mk {D H}. Arguments fs_addr {D H}. Arguments super {D H}. Arguments freemap {D H}.
Arguments super_dirty {D H}. Arguments sfs_buffer {D H}. Arguments buffer_addr {D H}.
Arguments inode_list {D H}. Arguments hash_list {D H}. Arguments hash_addr {D H}.
Arguments sins {D H}. Arguments dev {D H}. Arguments heap {D H}.

Section Sfs.
  Context {D H : Type} `{BlockDev D} `{Heap H}.

Definition set_super x (s : t D H) : t D H := mk (fs_addr s) x (freemap s) (super_dirty s)
  (sfs_buffer s) (buffer_addr s) (inode_list s) (hash_list s) (hash_addr s) (sins s) (dev s) (heap s).
Definition set_freemap x (s : t D H) : t D H := mk (fs_addr s) (super s) x (super_dirty s)
  (sfs_buffer s) (buffer_addr s) (inode_list s) (hash_list s) (hash_addr s) (sins s) (dev s) (heap s).
Definition set_super_dirty x (s : t D H) : t D H := mk (fs_addr s) (super s) (freemap s) x
  (sfs_buffer s) (buffer_addr s) (inode_list s) (hash_list s) (hash_addr s) (sins s) (dev s) (heap s).
Definition set_buffer x (s : t D H) : t D H := mk (fs_addr s) (super s) (freemap s) (super_dirty s)
  x (buffer_addr s) (inode_list s) (hash_list s) (hash_addr s) (sins s) (dev s) (heap s).
Definition set_lists il hl (s : t D H) : t D H := mk (fs_addr s) (super s) (freemap s) (super_dirty s)
  (sfs_buffer s) (buffer_addr s) il hl (hash_addr s) (sins s) (dev s) (heap s).
Definition set_sins x (s : t D H) : t D H := mk (fs_addr s) (super s) (freemap s) (super_dirty s)
  (sfs_buffer s) (buffer_addr s) (inode_list s) (hash_list s) (hash_addr s) x (dev s) (heap s).
Definition set_dev x (s : t D H) : t D H := mk (fs_addr s) (super s) (freemap s) (super_dirty s)
  (sfs_buffer s) (buffer_addr s) (inode_list s) (hash_list s) (hash_addr s) (sins s) x (heap s).
Definition set_heap x (s : t D H) : t D H := mk (fs_addr s) (super s) (freemap s) (super_dirty s)
  (sfs_buffer s) (buffer_addr s) (inode_list s) (hash_list s) (hash_addr s) (sins s) (dev s) x.

Definition on_dev {A} (m : M D A) : M (t D H) A := fun s =>
  match m (dev s) with
  | Ret (a, d) => Ret (a, set_dev d s) | Panic => Panic | Fault => Fault | Diverge => Diverge
  end.
Definition on_freemap {A} (m : M bitmap A) : M (t D H) A := fun s =>
  match m (freemap s) with
  | Ret (a, b) => Ret (a, set_freemap b s) | Panic => Panic | Fault => Fault | Diverge => Diverge
  end.

(** ** Blocks (sfs_io.c) *)

Definition sfs_rwblock_nolock (buf : list Z) (blkno : Z) (write check : bool) : M (t D H) (Z * list Z) :=
  s ← get;
  assert_ ((negb (blkno =? 0) || negb check) && (blkno <? sblocks (super s)));;
  on_dev (dop_io (s32 (u32 (blkno * SFS_BLKSIZE))) buf write).

(** The loop of [sfs_rwblock] with [n] blocks left; [buf] is the rest of the
    buffer. *)
Fixpoint rwblock_loop (n : nat) (buf : list Z) (blkno : Z) (write : bool) : M (t D H) (Z * list Z) :=
  match n with
  | O => mret (0, buf)
  | S n =>
      r ← sfs_rwblock_nolock (take 4096 buf) blkno write true;
      if negb (r.1 =? 0) then mret (r.1, r.2 ++ drop 4096 buf) else
      q ← rwblock_loop n (drop 4096 buf) (u32 (blkno + 1)) write;
      mret (q.1, r.2 ++ q.2)
  end.
Definition sfs_rwblock (buf : list Z) (blkno nblks : Z) (write : bool) : M (t D H) (Z * list Z) :=
  rwblock_loop (Z.to_nat nblks) buf blkno write.
Definition sfs_rblock (buf : list Z) (blkno nblks : Z) : M (t D H) (Z * list Z) :=
  sfs_rwblock buf blkno nblks false.
Definition sfs_wblock (buf : list Z) (blkno nblks : Z) : M (t D H) (Z * list Z) :=
  sfs_rwblock buf blkno nblks true.

(** The transfer between [sfs->sfs_buffer] and the block. *)
Definition rw_buffer (blkno : Z) (write check : bool) : M (t D H) Z :=
  s ← get;
  r ← sfs_rwblock_nolock (sfs_buffer s) blkno write check;
  modify (set_buffer r.2);;
  mret r.1.

Definition in_block (len offset : Z) : bool :=
  (0 <=? offset) && (offset <? SFS_BLKSIZE) && (u32 (offset + len) <=? SFS_BLKSIZE).

Definition sfs_rbuf (buf : list Z) (len blkno offset : Z) : M (t D H) (Z * list Z) :=
  assert_ (in_block len offset);;
  ret ← rw_buffer blkno false true;
  s ← get;
  mret (ret, if ret =? 0 then splice 0 (slice (Z.to_nat offset) (Z.to_nat len) (sfs_buffer s)) buf else buf).

Definition sfs_wbuf (buf : list Z) (len blkno offset : Z) : M (t D H) (Z * list Z) :=
  assert_ (in_block len offset);;
  ret ← rw_buffer blkno false true;
  if negb (ret =? 0) then mret (ret, buf) else
  modify (fun s => set_buffer (splice (Z.to_nat offset) (take (Z.to_nat len) buf) (sfs_buffer s)) s);;
  ret ← rw_buffer blkno true true;
  mret (ret, buf).

Definition zero_block : list Z := replicate 4096 0.

Definition sfs_sync_super : M (t D H) Z :=
  modify (set_buffer zero_block);;
  modify (fun s => set_buffer (splice 0 (super_bytes (super s)) (sfs_buffer s)) s);;
  rw_buffer SFS_BLKN_SUPER true false.

Definition sfs_freemap_bits (sb : sfs_super) : Z :=
  let a := u32 (sblocks sb + SFS_BLKBITS - 1) in a - a `mod` SFS_BLKBITS.
Definition sfs_freemap_blocks (sb : sfs_super) : Z := u32 (sblocks sb + SFS_BLKBITS - 1) `div` SFS_BLKBITS.

Definition sfs_sync_freemap : M (t D H) Z :=
  s ← get;
  r ← sfs_wblock (words_bytes (map (freemap s))) SFS_BLKN_FREEMAP (sfs_freemap_blocks (super s));
  mret r.1.

(** The loop of [sfs_clear_block]; [ret] is indeterminate before its first
    round. *)
Fixpoint clear_loop (n : nat) (ret : option Z) (blkno : Z) : M (t D H) Z :=
  match n with
  | O => lift_opt ret
  | S n =>
      r ← rw_buffer blkno true true;
      if negb (r =? 0) then mret r else clear_loop n (Some r) (u32 (blkno + 1))
  end.
Definition sfs_clear_block (blkno nblks : Z) : M (t D H) Z :=
  modify (set_buffer zero_block);;
  clear_loop (Z.to_nat nblks) None blkno.

(** ** Free blocks (sfs_inode.c) *)

Definition sfs_block_inuse (ino : Z) : M (t D H) bool :=
  s ← get;
  if negb (ino =? 0) && (ino <? sblocks (super s)) then
    b ← on_freemap (bitmap_test ino); mret (b =? 0)
  else panic.

Definition set_unused (n : Z) (s : t D H) : t D H :=
  set_super_dirty true (set_super (mk_super (magic (super s)) (sblocks (super s)) n (info (super s))) s).

Definition sfs_block_alloc : M (t D H) (Z * Z) :=
  r ← on_freemap bitmap_alloc;
  if negb (r.1 =? 0) then mret r else
  s ← get;
  assert_ (0 <? unused_blocks (super s));;
  modify (set_unused (unused_blocks (super s) - 1));;
  b ← sfs_block_inuse r.2;
  assert_ b;;
  ret ← sfs_clear_block r.2 1;
  mret (ret, r.2).

Definition sfs_block_free (ino : Z) : M (t D H) unit :=
  b ← sfs_block_inuse ino;
  assert_ b;;
  on_freemap (bitmap_free ino);;
  modify (fun s => set_unused (u32 (unused_blocks (super s) + 1)) s).

(** ** The blocks of a file (sfs_inode.c) *)

Definition load_sin (node : Z) : M (t D H) sfs_inode := fun s =>
  match sins s !! node with Some i => Ret (i, s) | None => Fault end.
Definition put_sin (node : Z) (i : sfs_inode) : M (t D H) unit :=
  modify (fun s => set_sins (<[node := i]> (sins s)) s).

Definition set_din (d : sfs_disk_inode) (dirty : bool) (i : sfs_inode) : sfs_inode :=
  mk_sin d (din_addr i) (ino i) dirty (reclaim_count i).
Definition with_direct x (d : sfs_disk_inode) := mk_din (size d) (type d) (nlinks d) (blocks d) x (indirect d).
Definition with_indirect x (d : sfs_disk_inode) := mk_din (size d) (type d) (nlinks d) (blocks d) (direct d) x.
Definition with_blocks x (d : sfs_disk_inode) := mk_din (size d) (type d) (nlinks d) x (direct d) (indirect d).
Definition with_size x (d : sfs_disk_inode) := mk_din x (type d) (nlinks d) (blocks d) (direct d) (indirect d).

(** A 32-bit variable filled by [sfs_rbuf]. *)
Definition rbuf_u32 (blkno offset : Z) : M (t D H) (Z * Z) :=
  r ← sfs_rbuf (le_bytes 4 0) 4 blkno offset; mret (r.1, le_val r.2).
Definition wbuf_u32 (v blkno offset : Z) : M (t D H) Z :=
  r ← sfs_wbuf (le_bytes 4 v) 4 blkno offset; mret r.1.

(** The second half of [sfs_bmap_get_sub_nolock]: the entry is allocated and
    stored; [entp] is the value [*entp] had. *)
Definition get_sub_fill (entp ent offset : Z) : M (t D H) (Z * Z * Z) :=
  r ← sfs_block_alloc;
  ret ← (if negb (r.1 =? 0) then mret r.1 else
         w ← wbuf_u32 r.2 ent offset;
         when (negb (w =? 0)) (sfs_block_free r.2);;
         mret w);
  if negb (ret =? 0) then when (negb (ent =? entp)) (sfs_block_free ent);; mret (ret, entp, 0)
  else mret (0, ent, r.2).

(** The status, the new [*entp] and [*ino_store]. *)
Definition sfs_bmap_get_sub_nolock (entp index : Z) (create : bool) : M (t D H) (Z * Z * Z) :=
  assert_ (index <? SFS_BLK_NENTRY);;
  let offset := index * 4 in
  if negb (entp =? 0) then
    r ← rbuf_u32 entp offset;
    if negb (r.1 =? 0) then mret (r.1, entp, 0) else
    if negb (r.2 =? 0) || negb create then mret (0, entp, r.2) else
    get_sub_fill entp entp offset
  else if negb create then mret (0, entp, 0) else
    r ← sfs_block_alloc;
    if negb (r.1 =? 0) then mret (r.1, entp, 0) else
    get_sub_fill entp r.2 offset.

(** [assert(ino == 0 || sfs_block_inuse(sfs, ino))] *)
Definition check_block (ino : Z) : M (t D H) unit :=
  if ino =? 0 then mret tt else b ← sfs_block_inuse ino; assert_ b.

(** The status and [*ino_store]. *)
Definition sfs_bmap_get_nolock (sin index : Z) (create : bool) : M (t D H) (Z * Z) :=
  i ← load_sin sin;
  let d := din i in
  if index <? SFS_NDIRECT then
    let ino := arr_get (direct d) index in
    if (ino =? 0) && create then
      r ← sfs_block_alloc;
      if negb (r.1 =? 0) then mret (r.1, 0) else
      put_sin sin (set_din (with_direct (arr_set (direct d) index r.2) d) true i);;
      check_block r.2;;
      mret (0, r.2)
    else check_block ino;; mret (0, ino)
  else
  let index := index - SFS_NDIRECT in
  if index <? SFS_BLK_NENTRY then
    r ← sfs_bmap_get_sub_nolock (indirect d) index create;
    if negb (r.1.1 =? 0) then mret (r.1.1, 0) else
    (if negb (r.1.2 =? indirect d) then
       assert_ (indirect d =? 0);; put_sin sin (set_din (with_indirect r.1.2 d) true i)
     else mret tt);;
    check_block r.2;;
    mret (0, r.2)
  else panic.

Definition sfs_bmap_free_sub_nolock (ent index : Z) : M (t D H) Z :=
  b ← sfs_block_inuse ent;
  assert_ (b && (index <? SFS_BLK_NENTRY));;
  let offset := index * 4 in
  r ← rbuf_u32 ent offset;
  if negb (r.1 =? 0) then mret r.1 else
  if negb (r.2 =? 0) then
    w ← wbuf_u32 0 ent offset;
    if negb (w =? 0) then mret w else
    sfs_block_free r.2;; mret 0
  else mret 0.

Definition sfs_bmap_free_nolock (sin index : Z) : M (t D H) Z :=
  i ← load_sin sin;
  let d := din i in
  if index <? SFS_NDIRECT then
    let ino := arr_get (direct d) index in
    when (negb (ino =? 0))
      (sfs_block_free ino;; put_sin sin (set_din (with_direct (arr_set (direct d) index 0) d) true i));;
    mret 0
  else
  let index := index - SFS_NDIRECT in
  if index <? SFS_BLK_NENTRY then
    if negb (indirect d =? 0) then sfs_bmap_free_sub_nolock (indirect d) index else mret 0
  else mret 0.

Definition sfs_bmap_load_nolock (sin index : Z) : M (t D H) (Z * Z) :=
  i ← load_sin sin;
  assert_ (index <=? blocks (din i));;
  let create := index =? blocks (din i) in
  r ← sfs_bmap_get_nolock sin index create;
  if negb (r.1 =? 0) then mret (r.1, 0) else
  b ← sfs_block_inuse r.2;
  assert_ b;;
  when create
    (i ← load_sin sin; put_sin sin (set_din (with_blocks (u32 (blocks (din i) + 1)) (din i)) (dirty i) i));;
  mret (0, r.2).

Definition sfs_bmap_truncate_nolock (sin : Z) : M (t D H) Z :=
  i ← load_sin sin;
  assert_ (negb (blocks (din i) =? 0));;
  ret ← sfs_bmap_free_nolock sin (blocks (din i) - 1);
  if negb (ret =? 0) then mret ret else
  i ← load_sin sin;
  put_sin sin (set_din (with_blocks (blocks (din i) - 1) (din i)) true i);;
  mret 0.

End Sfs.
End Sfs.
