(* ===== verification/SfsSpec.v ===== *)
(** The on-disk file system: what a device promises, block transfers, and the
    set of free blocks. *)

From S2P Require Import Prelude Bytes Heap Bitmap Sfs.

(** The content of a block. *)
Definition is_block (b : list Z) : Prop := length b = 4096%nat /\ Forall is_u8 b.

(** A device of blocks of 4096 bytes that can be addressed with an [off_t]: a
    read of one block at its offset gives that block. *)
Class DiskLaws (D : Type) `{BlockDev D} := {
  disk : D -> list (list Z);
  disk_blocks d : d_blocks d = Z.of_nat (length (disk d));
  disk_blocksize d : d_blocksize d = 4096;
  disk_small d : d_blocks d <= 0x80000;
  disk_block d i b : disk d !! i = Some b -> is_block b;
  disk_read d i b buf : disk d !! i = Some b -> length buf = 4096%nat ->
    dop_io (4096 * Z.of_nat i) buf false d = Ret ((0, b), d)
}.

(** A device that keeps what is written to it: a write of one block replaces that
    block.  [Disk0Dev] shows that the driver of dev_disk0.c keeps the laws above
    and that it does not keep these. *)
Class KeepsWrites (D : Type) `{DiskLaws D} := {
  put_block : D -> nat -> list Z -> D;
  disk_write d i buf : (i < length (disk d))%nat -> is_block buf ->
    dop_io (4096 * Z.of_nat i) buf true d = Ret ((0, buf), put_block d i buf);
  disk_put d i buf : (i < length (disk d))%nat -> is_block buf ->
    disk (put_block d i buf) = <[i := buf]> (disk d)
}.

Lemma zero_is_block : is_block Sfs.zero_block.
Proof. split; [apply length_replicate|]. apply Forall_replicate. width. Qed.

(** A disk of [nblocks] blocks kept in memory; the blocks that were never
    written are zero. *)
Module RamDisk.

Record t := mk { nblocks : nat; content : gmap nat (list Z) }.

Definition is_byte (b : Z) : bool := (0 <=? b) && (b <? 256).
Definition is_blockb (b : list Z) : bool := (length b =? 4096)%nat && forallb is_byte b.
Definition block (d : t) (i : nat) : list Z :=
  match content d !! i with Some b => if is_blockb b then b else Sfs.zero_block | None => Sfs.zero_block end.
Definition size (d : t) : nat := Nat.min (nblocks d) (Z.to_nat 0x80000).
Definition store (d : t) (i : nat) (b : list Z) : t := mk (nblocks d) (<[i := b]> (content d)).

#[global] Instance ram_dev : BlockDev t := {
  d_blocks d := Z.of_nat (size d);
  d_blocksize _ := 4096;
  dop_io off buf write := fun d =>
    let i := Z.to_nat (off / 4096) in
    if (off `mod` 4096 =? 0) && (0 <=? off) && (i <? size d)%nat && (length buf =? 4096)%nat then
      if write : bool then Ret ((0, buf), store d i buf) else Ret ((0, block d i), d)
    else Ret ((-3, buf), d)
}.

Lemma is_blockb_spec b : is_blockb b = true <-> is_block b.
Proof.
  unfold is_blockb, is_block. rewrite andb_true_iff, Nat.eqb_eq, forallb_forall, List.Forall_forall.
  unfold is_byte, is_u8. split; intros [Hl Hf]; (split; [done|]); intros x Hx; specialize (Hf x Hx); lia.
Qed.

Lemma block_ok d i : is_block (block d i).
Proof.
  unfold block. destruct (content d !! i) as [b|]; [|apply zero_is_block].
  destruct (is_blockb b) eqn:E; [by apply is_blockb_spec|apply zero_is_block].
Qed.

Lemma dop_io_eq d i buf (write : bool) : (i < size d)%nat -> length buf = 4096%nat ->
  dop_io (4096 * Z.of_nat i) buf write d =
    if write then Ret ((0, buf), store d i buf) else Ret ((0, block d i), d).
Proof.
  intros Hi Hl. cbn [dop_io ram_dev]. rewrite Hl.
  assert (He : (4096 * Z.of_nat i) / 4096 = Z.of_nat i) by width. rewrite He, Nat2Z.id.
  replace ((4096 * Z.of_nat i) `mod` 4096 =? 0) with true by (symmetry; apply Z.eqb_eq; width).
  replace (0 <=? 4096 * Z.of_nat i) with true by lia.
  by rewrite (proj2 (Nat.ltb_lt _ _) Hi).
Qed.

#[global] Instance ram_laws : DiskLaws t.
Proof.
  refine {| disk d := block d <$> seq 0 (size d) |}.
  - intros d. by rewrite length_fmap, length_seq.
  - done.
  - intros d. cbn [d_blocks ram_dev]. unfold size. lia.
  - intros d i b Hb. apply list_lookup_fmap_Some in Hb as (k & -> & _). apply block_ok.
  - intros d i b buf Hb Hl. apply list_lookup_fmap_Some in Hb as (k & -> & Hk%lookup_seq).
    destruct Hk as [-> Hk]. by rewrite dop_io_eq.
Defined.

#[global] Instance ram_keeps : KeepsWrites t.
Proof.
  refine {| put_block := store |}; cbn [disk ram_laws].
  - intros d i buf Hi [Hl _]. rewrite length_fmap, length_seq in Hi. by rewrite dop_io_eq.
  - intros d i buf Hi Hb. rewrite length_fmap, length_seq in Hi. apply list_eq. intros j.
    destruct (decide (j = i)) as [->|Hne].
    + rewrite list_lookup_insert_eq by (by rewrite length_fmap, length_seq).
      rewrite list_lookup_fmap, lookup_seq_lt by done. cbn. unfold block. cbn [content store].
      rewrite lookup_insert_eq. by rewrite (proj2 (is_blockb_spec buf) Hb).
    + rewrite list_lookup_insert_ne by done. rewrite !list_lookup_fmap.
      change (size (store d i buf)) with (size d). destruct (seq 0 (size d) !! j) as [k|] eqn:E; [|done].
      apply lookup_seq in E as [-> _]. cbn. unfold block. cbn [content store]. by rewrite lookup_insert_ne.
Defined.

End RamDisk.

Module SfsSpec.
Import Bitmap Sfs.

Section Spec.
  Context {D H : Type} `{DiskLaws D} `{KW : !KeepsWrites D} `{Heap H}.

Let st := t D H.

(** The content of a block. *)
Definition blk (s : st) (i : Z) : list Z := default [] (disk (dev s) !! Z.to_nat i).
Definition set_blk (i : Z) (b : list Z) (s : st) : st := set_dev (put_block (dev s) (Z.to_nat i) b) s.

Definition in_range (s : st) (i : Z) : Prop := 0 < i < sblocks (super s).
Definition in_use (s : st) (i : Z) : Prop := in_range s i /\ free (freemap s) i = false.

(** The free indices of a bit map. *)
Definition free_set (b : bitmap) : gset Z := list_to_set (filter (fun i => free b i = true) (seqZ 0 (nbits b))).

Record disk_ok (s : st) : Prop := {
  ok_buffer : is_block (sfs_buffer s);
  ok_blocks : 0 < sblocks (super s) <= d_blocks (dev s);
  ok_freemap : wf (freemap s);
  ok_bits : sblocks (super s) <= nbits (freemap s);
  ok_free i : 0 <= i -> free (freemap s) i = true -> in_range s i;
  ok_unused : unused_blocks (super s) = Z.of_nat (base.size (free_set (freemap s)))
}.

(** ** Transfers *)

Lemma set_freemap_id (s : st) : set_freemap (freemap s) s = s.
Proof. by destruct s. Qed.
Lemma set_dev_id (s : st) : set_dev (dev s) s = s.
Proof. by destruct s. Qed.

Lemma blk_lookup s i : disk_ok s -> 0 <= i < sblocks (super s) -> disk (dev s) !! Z.to_nat i = Some (blk s i).
Proof.
  intros Hok Hi. destruct (ok_blocks _ Hok) as [_ Hd]. rewrite disk_blocks in Hd. unfold blk.
  destruct (lookup_lt_is_Some_2 (disk (dev s)) (Z.to_nat i)) as [b Hb]; [lia|]. by rewrite Hb.
Qed.

Lemma blk_block s i : disk_ok s -> 0 <= i < sblocks (super s) -> is_block (blk s i).
Proof. intros Hok Hi. exact (disk_block _ _ _ (blk_lookup s i Hok Hi)). Qed.

Lemma index_lt s i : disk_ok s -> 0 <= i < sblocks (super s) -> (Z.to_nat i < length (disk (dev s)))%nat.
Proof. intros Hok Hi. destruct (ok_blocks _ Hok) as [_ Hd]. rewrite disk_blocks in Hd. lia. Qed.

(** Writing a block changes that block. *)
Lemma blk_set s i b j :
  disk_ok s -> 0 <= i < sblocks (super s) -> is_block b -> 0 <= j ->
  blk (set_blk i b s) j = if decide (j = i) then b else blk s j.
Proof.
  intros Hok Hi Hb Hj. assert (Hlt := index_lt s i Hok Hi).
  unfold blk, set_blk. cbn [dev set_dev]. rewrite disk_put by done. case_decide as Hc.
  - subst j. by rewrite list_lookup_insert_eq.
  - by rewrite list_lookup_insert_ne by lia.
Qed.

Lemma offset_eq s i : disk_ok s -> 0 <= i < sblocks (super s) ->
  s32 (u32 (i * SFS_BLKSIZE)) = 4096 * Z.of_nat (Z.to_nat i).
Proof.
  intros Hok Hi. destruct (ok_blocks _ Hok) as [_ Hd]. assert (Hs := disk_small (dev s)).
  unfold SFS_BLKSIZE. rewrite u32_id, s32_id by width. lia.
Qed.

Lemma rwblock_guard (s : st) i (check : bool) :
  0 <= i < sblocks (super s) -> (check = true -> i <> 0) ->
  (negb (i =? 0) || negb check) && (i <? sblocks (super s)) = true.
Proof. intros Hi Hc. destruct check; [specialize (Hc eq_refl)|]; simpl; lia. Qed.

Lemma rwblock_read s buf i (check : bool) :
  disk_ok s -> 0 <= i < sblocks (super s) -> (check = true -> i <> 0) -> length buf = 4096%nat ->
  sfs_rwblock_nolock buf i false check s = Ret ((0, blk s i), s).
Proof.
  intros Hok Hi Hc Hl. unfold sfs_rwblock_nolock. rewrite (bind_Ret _ _ s s s) by done.
  rewrite rwblock_guard, (bind_Ret _ _ s tt s) by done. unfold on_dev.
  rewrite (offset_eq s) by done. rewrite (disk_read _ _ _ _ (blk_lookup s i Hok Hi)) by done.
  by rewrite set_dev_id.
Qed.

Lemma rwblock_write s buf i (check : bool) :
  disk_ok s -> 0 <= i < sblocks (super s) -> (check = true -> i <> 0) -> is_block buf ->
  sfs_rwblock_nolock buf i true check s = Ret ((0, buf), set_blk i buf s).
Proof.
  intros Hok Hi Hc Hb. unfold sfs_rwblock_nolock. rewrite (bind_Ret _ _ s s s) by done.
  rewrite rwblock_guard, (bind_Ret _ _ s tt s) by done. unfold on_dev.
  assert (Hlt := index_lt s i Hok Hi). rewrite (offset_eq s) by done. by rewrite disk_write.
Qed.

Lemma rw_buffer_read s i :
  disk_ok s -> in_range s i -> rw_buffer i false true s = Ret (0, set_buffer (blk s i) s).
Proof.
  intros Hok Hi. unfold in_range in Hi. unfold rw_buffer. rewrite (bind_Ret _ _ s s s) by done.
  by rewrite (bind_Ret _ _ _ _ _
    (rwblock_read s (sfs_buffer s) i true Hok ltac:(lia) ltac:(lia) (proj1 (ok_buffer _ Hok)))).
Qed.

Lemma rw_buffer_write s i (check : bool) :
  disk_ok s -> 0 <= i < sblocks (super s) -> (check = true -> i <> 0) ->
  rw_buffer i true check s = Ret (0, set_blk i (sfs_buffer s) s).
Proof.
  intros Hok Hi Hc. unfold rw_buffer. rewrite (bind_Ret _ _ s s s) by done.
  rewrite (bind_Ret _ _ _ _ _ (rwblock_write s (sfs_buffer s) i check Hok Hi Hc (ok_buffer _ Hok))).
  unfold set_blk. by destruct s.
Qed.

Lemma buffer_ok s b : disk_ok s -> is_block b -> disk_ok (set_buffer b s).
Proof. intros [? ? ? ? ? ?] ?. by split. Qed.

Lemma set_blk_ok s i b : disk_ok s -> 0 <= i < sblocks (super s) -> is_block b -> disk_ok (set_blk i b s).
Proof.
  intros Hok Hi Hb. assert (Hlt := index_lt s i Hok Hi). destruct Hok as [? Hbl ? ? ? ?]. split; try done.
  unfold set_blk. cbn [dev set_dev super]. rewrite !disk_blocks in *. by rewrite disk_put, length_insert.
Qed.

Lemma in_block_true len off : 0 <= off < 4096 -> 0 <= len -> off + len <= 4096 -> in_block len off = true.
Proof. intros Ho Hl Hs. unfold in_block, SFS_BLKSIZE. rewrite u32_id by width. lia. Qed.

Lemma sfs_rbuf_eq s buf len i off :
  disk_ok s -> in_range s i -> 0 <= off < 4096 -> 0 <= len -> off + len <= 4096 ->
  sfs_rbuf buf len i off s =
    Ret ((0, splice 0 (slice (Z.to_nat off) (Z.to_nat len) (blk s i)) buf), set_buffer (blk s i) s).
Proof.
  intros Hok Hi Ho Hl Hs. unfold sfs_rbuf. rewrite in_block_true by done. rewrite (bind_Ret _ _ s tt s) by done.
  by rewrite (bind_Ret _ _ _ _ _ (rw_buffer_read s i Hok Hi)).
Qed.

(** The block [i] with the bytes [d] at [off], left in the buffer. *)
Definition written (i : Z) (off : nat) (d : list Z) (s : st) : st :=
  set_buffer (splice off d (blk s i)) (set_blk i (splice off d (blk s i)) s).

Lemma splice_block off d b :
  is_block b -> Forall is_u8 d -> (off + length d <= 4096)%nat -> is_block (splice off d b).
Proof. intros [Hl Hu] Hd Hs. split; [|by apply splice_Forall]. rewrite length_splice; lia. Qed.

Lemma sfs_wbuf_eq s buf len i off :
  disk_ok s -> in_range s i -> 0 <= off < 4096 -> off + len <= 4096 -> 0 <= len ->
  length buf = Z.to_nat len -> Forall is_u8 buf ->
  sfs_wbuf buf len i off s = Ret ((0, buf), written i (Z.to_nat off) buf s).
Proof.
  intros Hok Hi Ho Hs Hl Hb Hu. unfold sfs_wbuf. rewrite in_block_true by done. rewrite (bind_Ret _ _ s tt s) by done.
  rewrite (bind_Ret _ _ _ _ _ (rw_buffer_read s i Hok Hi)). cbn [negb Z.eqb].
  unfold in_range in Hi. assert (Hbl := blk_block s i Hok ltac:(lia)).
  rewrite take_ge by lia. set (nb := splice (Z.to_nat off) buf (blk s i)).
  assert (Hn : disk_ok (set_buffer nb s)) by (apply buffer_ok; [done|apply splice_block; [done..|lia]]).
  rewrite (bind_Ret _ _ _ tt (set_buffer nb s)) by done.
  by rewrite (bind_Ret _ _ _ _ _ (rw_buffer_write (set_buffer nb s) i true Hn ltac:(simpl; lia) ltac:(lia))).
Qed.

(** ** Free blocks *)

Lemma elem_free_set b i : i ∈ free_set b <-> 0 <= i < nbits b /\ free b i = true.
Proof. unfold free_set. rewrite elem_of_list_to_set, list_elem_of_filter, elem_of_seqZ. naive_solver lia. Qed.

Lemma free_set_without b i :
  wf b -> 0 <= i < nbits b -> free b i = true -> free_set (without b i) = free_set b ∖ {[i]}.
Proof.
  intros Hwf Hi Hf. apply set_eq. intros j. rewrite elem_of_difference, elem_of_singleton, !elem_free_set.
  change (nbits (without b i)) with (nbits b). split.
  - intros [Hj Hx]. rewrite without_free in Hx by (done || lia). case_decide; [done|]. done.
  - intros [[Hj Hx] Hne]. split; [done|]. by rewrite without_free, decide_False by (done || lia).
Qed.

Lemma free_set_including b i :
  wf b -> 0 <= i < nbits b -> free_set (including b i) = {[i]} ∪ free_set b.
Proof.
  intros Hwf Hi. apply set_eq. intros j. rewrite elem_of_union, elem_of_singleton, !elem_free_set.
  change (nbits (including b i)) with (nbits b). split.
  - intros [Hj Hx]. rewrite including_free in Hx by (done || lia). case_decide; [by left|by right].
  - intros [->|[Hj Hx]]; (split; [done|]); rewrite including_free by (done || lia); [by rewrite decide_True|by destruct (decide _)].
Qed.

Lemma sfs_block_inuse_eq s i :
  disk_ok s -> in_range s i -> sfs_block_inuse i s = Ret (negb (free (freemap s) i), s).
Proof.
  intros Hok Hi. unfold in_range in Hi. unfold sfs_block_inuse. rewrite (bind_Ret _ _ s s s) by done.
  replace (negb (i =? 0) && (i <? sblocks (super s))) with true by lia.
  destruct (bitmap_test_eq (freemap s) i) as (w & Hw & Hz); [assert (Hb := ok_bits _ Hok); lia|].
  rewrite (bind_Ret _ _ s w s); [by rewrite Hz|]. unfold on_freemap. by rewrite Hw, set_freemap_id.
Qed.

Lemma in_use_eq s i : disk_ok s -> in_use s i -> sfs_block_inuse i s = Ret (true, s).
Proof. intros Hok [Hr Hf]. rewrite sfs_block_inuse_eq by done. by rewrite Hf. Qed.

(** The state after the allocation of the block [i], and after its release. *)
Definition taken (i : Z) (s : st) : st :=
  set_unused (unused_blocks (super s) - 1) (set_freemap (without (freemap s) i) s).
Definition allocd (i : Z) (s : st) : st := set_blk i zero_block (set_buffer zero_block (taken i s)).
Definition freed (i : Z) (s : st) : st :=
  set_unused (unused_blocks (super s) + 1) (set_freemap (including (freemap s) i) s).

Section Alloc.
  Context (s : st) (i : Z).
  Hypothesis Hok : disk_ok s.
  Hypothesis Hf : free (freemap s) i = true.
  Hypothesis Hi0 : 0 <= i.

Lemma free_range : 0 < i < sblocks (super s) /\ i < nbits (freemap s).
Proof using Hok Hf Hi0. destruct (ok_free _ Hok i Hi0 Hf). assert (Hb := ok_bits _ Hok). lia. Qed.

Lemma taken_ok : disk_ok (taken i s).
Proof using Hok Hf Hi0.
  assert (Hr := free_range). assert (Hw := ok_freemap _ Hok).
  assert (Hin : i ∈ free_set (freemap s)) by (apply elem_free_set; split; [lia|done]).
  destruct Hok as [Hb Hbl _ Hbits Hfree Hun]. split; cbn [taken set_unused set_super_dirty set_super set_freemap
    super sfs_buffer dev freemap sblocks unused_blocks].
  - done.
  - done.
  - apply without_wf; [done|lia].
  - done.
  - intros j Hj Hx. rewrite without_free in Hx by (done || lia). case_decide; [done|]. by apply Hfree.
  - rewrite free_set_without by (done || lia). rewrite size_difference by set_solver. rewrite size_singleton, Hun.
    assert (base.size (free_set (freemap s)) <> 0)%nat; [|lia]. intros Hz%size_empty_inv. set_solver.
Qed.

Lemma allocd_ok : disk_ok (allocd i s).
Proof using Hok Hf Hi0.
  assert (Hr := free_range). apply set_blk_ok; [|simpl; lia|apply zero_is_block].
  apply buffer_ok; [apply taken_ok|apply zero_is_block].
Qed.

Lemma allocd_free j : 0 <= j -> free (freemap (allocd i s)) j = if decide (j = i) then false else free (freemap s) j.
Proof using Hok Hf Hi0. intros Hj. assert (Hr := free_range). by apply without_free; [apply ok_freemap|lia|..]. Qed.

Lemma allocd_blk j : 0 <= j -> blk (allocd i s) j = if decide (j = i) then zero_block else blk s j.
Proof using Hok Hf Hi0.
  intros Hj. assert (Hr := free_range). unfold allocd. rewrite blk_set; [done| | |apply zero_is_block|done].
  - apply buffer_ok; [apply taken_ok|apply zero_is_block].
  - simpl. lia.
Qed.

End Alloc.

Lemma sfs_clear_block_eq s i :
  disk_ok s -> in_range s i ->
  sfs_clear_block i 1 s = Ret (0, set_blk i zero_block (set_buffer zero_block s)).
Proof.
  intros Hok Hi. unfold in_range in Hi. unfold sfs_clear_block.
  rewrite (bind_Ret _ _ s tt (set_buffer zero_block s)) by done. change (Z.to_nat 1) with 1%nat. cbn [clear_loop].
  assert (Hz : disk_ok (set_buffer zero_block s)) by (apply buffer_ok; [done|apply zero_is_block]).
  by rewrite (bind_Ret _ _ _ _ _ (rw_buffer_write (set_buffer zero_block s) i true Hz ltac:(simpl; lia) ltac:(lia))).
Qed.

(** [sfs_block_alloc] takes the least free block and clears it. *)
Lemma sfs_block_alloc_eq s :
  disk_ok s ->
  (sfs_block_alloc s = Ret ((- E_NO_MEM, 0), s) /\ forall j, 0 <= j -> free (freemap s) j = false) \/
  exists i, sfs_block_alloc s = Ret ((0, i), allocd i s) /\ 0 <= i /\ free (freemap s) i = true.
Proof.
  intros Hok. unfold sfs_block_alloc. assert (Hw := ok_freemap _ Hok).
  destruct (alloc_loop_spec (freemap s) (Z.to_nat (nwords (freemap s))) 0 Hw) as (r & Hr & Hcase);
    [lia|destruct (wf_words _ Hw), (wf_size _ Hw); lia|lia|].
  assert (Hal : bitmap_alloc (freemap s) = Ret r) by exact Hr. destruct Hcase as [[-> Hno]|(i & -> & Hi & Hf & _)].
  - left. split.
    + rewrite (bind_Ret _ _ s (- E_NO_MEM, 0) s); [done|]. unfold on_freemap. by rewrite Hal, set_freemap_id.
    + intros j Hj. destruct (free (freemap s) j) eqn:E; [|done]. rewrite <- E. apply Hno.
      destruct (ok_free _ Hok j Hj E). assert (Hb := ok_bits _ Hok). lia.
  - right. exists i. split; [|split; [lia|done]]. set (s1 := set_freemap (without (freemap s) i) s).
    rewrite (bind_Ret _ _ s (0, i) s1) by (unfold on_freemap; by rewrite Hal).
    cbn [fst snd negb Z.eqb]. rewrite (bind_Ret _ _ s1 s1 s1) by done.
    assert (Hun : 0 < unused_blocks (super s)).
    { rewrite (ok_unused _ Hok). assert (Hin : i ∈ free_set (freemap s)) by (by apply elem_free_set).
      assert (base.size (free_set (freemap s)) <> 0)%nat; [|lia]. intros Hz%size_empty_inv. set_solver. }
    change (super s1) with (super s). replace (0 <? unused_blocks (super s)) with true by lia.
    rewrite (bind_Ret _ _ s1 tt s1) by done. rewrite (bind_Ret _ _ s1 tt (taken i s)) by done.
    assert (Hr0 := free_range s i Hok Hf ltac:(lia)). assert (Ht := taken_ok s i Hok Hf ltac:(lia)).
    assert (Hu : in_use (taken i s) i).
    { split; [unfold in_range; simpl; lia|]. cbn [freemap taken set_unused set_super_dirty set_super set_freemap].
      rewrite without_free by (done || lia). by rewrite decide_True. }
    rewrite (bind_Ret _ _ _ _ _ (in_use_eq _ _ Ht Hu)). rewrite (bind_Ret _ _ _ tt (taken i s)) by done.
    by rewrite (bind_Ret _ _ _ _ _ (sfs_clear_block_eq _ _ Ht (proj1 Hu))).
Qed.

(** [sfs_block_free] gives a block in use back. *)
Lemma sfs_block_free_eq s i :
  disk_ok s -> in_use s i -> sfs_block_free i s = Ret (tt, freed i s).
Proof.
  intros Hok Hu. destruct Hu as [Hr Hf]. unfold in_range in Hr. unfold sfs_block_free.
  rewrite (bind_Ret _ _ _ _ _ (in_use_eq s i Hok (conj Hr Hf))), (bind_Ret _ _ s tt s) by done.
  set (s1 := set_freemap (including (freemap s) i) s).
  rewrite (bind_Ret _ _ s tt s1).
  2: { unfold on_freemap. rewrite bitmap_free_eq; [done|assert (Hb := ok_bits _ Hok); lia|done]. }
  unfold modify. change (super s1) with (super s). rewrite u32_id; [done|].
  rewrite (ok_unused _ Hok). destruct (wf_size _ (ok_freemap _ Hok)) as [_ Hsz].
  assert (Hle : (base.size (free_set (freemap s)) <= Z.to_nat (nbits (freemap s)))%nat); [|width].
  unfold free_set. rewrite size_list_to_set by (apply NoDup_filter, NoDup_seqZ).
  etrans; [apply length_filter|]. by rewrite length_seqZ.
Qed.

Section Free.
  Context (s : st) (i : Z).
  Hypothesis Hok : disk_ok s.
  Hypothesis Hu : in_use s i.

Lemma released_free j : 0 <= j -> free (freemap (freed i s)) j = if decide (j = i) then true else free (freemap s) j.
Proof using Hok Hu.
  intros Hj. destruct Hu as [Hr _]. unfold in_range in Hr. assert (Hb := ok_bits _ Hok).
  apply including_free; [by apply ok_freemap|lia|done].
Qed.

Lemma freed_ok : disk_ok (freed i s).
Proof using Hok Hu.
  assert (Hff := released_free). destruct Hu as [Hr Hf]. unfold in_range in Hr. assert (Hw := ok_freemap _ Hok).
  destruct Hok as [Hb Hbl _ Hbits Hfree Hun]. split; try done.
  - apply including_wf; [done|lia].
  - intros j Hj Hx. rewrite Hff in Hx by done. case_decide; [by subst|]. by apply Hfree.
  - cbn [freed set_unused set_super_dirty set_super super unused_blocks freemap set_freemap].
    rewrite free_set_including by (done || lia). rewrite size_union.
    + rewrite size_singleton, Hun. lia.
    + rewrite disjoint_singleton_l, elem_free_set. intros [_ Hx]. congruence.
Qed.

End Free.

End Spec.
End SfsSpec.
