(* ===== verification/SfsMap.v ===== *)
(** The blocks of a file: the direct and indirect entries of an inode as a
    sequence of disk blocks, and how [sfs_bmap_load_nolock] and
    [sfs_bmap_truncate_nolock] change it. *)

From S2P Require Import Prelude Bytes Heap Bitmap Sfs SfsSpec.

Module SfsMap.
Import Bitmap Sfs SfsSpec.

Section Map.
  Context {D H : Type} `{DiskLaws D} `{KW : !KeepsWrites D} `{Heap H}.

Let st := t D H.

(** The entry of the [k]-th block, 0 when there is none. *)
Definition entry (s : st) (d : sfs_disk_inode) (k : Z) : Z :=
  if k <? 12 then arr_get (direct d) k
  else if indirect d =? 0 then 0 else le_val (slice (Z.to_nat (4 * (k - 12))) 4 (blk s (indirect d))).

Definition file_blocks (s : st) (d : sfs_disk_inode) : list Z := entry s d <$> seqZ 0 (blocks d).
Definition table (d : sfs_disk_inode) : list Z := if indirect d =? 0 then [] else [indirect d].
Definition own (s : st) (d : sfs_disk_inode) : list Z := table d ++ file_blocks s d.

Record file_ok (s : st) (d : sfs_disk_inode) : Prop := {
  fo_direct : length (direct d) = 12%nat;
  fo_blocks : 0 <= blocks d <= 1036;
  fo_rest k : blocks d <= k < 1036 -> entry s d k = 0;
  fo_nodup : NoDup (own s d);
  fo_use : Forall (in_use s) (own s d)
}.

(** Apart from the blocks [X], the blocks in use stay in use and keep their
    content. *)
Record frame (s s' : st) (X : list Z) : Prop := {
  fr_super : sblocks (super s') = sblocks (super s);
  fr_rest : fs_addr s' = fs_addr s /\ buffer_addr s' = buffer_addr s /\ hash_addr s' = hash_addr s /\
    inode_list s' = inode_list s /\ hash_list s' = hash_list s /\ heap s' = heap s;
  fr_use j : in_use s j -> j ∉ X -> in_use s' j /\ blk s' j = blk s j
}.

Lemma frame_refl s X : frame s s X.
Proof. by split. Qed.

Lemma frame_trans s1 s2 s3 X Y Z :
  frame s1 s2 X -> frame s2 s3 Y -> X ⊆ Z -> (forall j, j ∈ Y -> in_use s1 j -> j ∈ Z) -> frame s1 s3 Z.
Proof.
  intros [Hs1 Hr1 Hu1] [Hs2 Hr2 Hu2] HX HY. split; [congruence|naive_solver congruence|].
  intros j Hj Hn. destruct (Hu1 j Hj) as [Hj1 Hb1]; [set_solver|].
  destruct (Hu2 j Hj1) as [Hj2 Hb2]; [naive_solver|]. split; [done|congruence].
Qed.

Lemma frame_mono s s' X Y : X ⊆ Y -> frame s s' X -> frame s s' Y.
Proof. intros HXY [? ? Hu]. split; [done..|]. intros j Hj Hn. apply Hu; [done|set_solver]. Qed.

Lemma frame_buffer s b : frame s (set_buffer b s) [].
Proof. by split. Qed.

Lemma frame_sins s x : frame s (set_sins x s) [].
Proof. by split. Qed.

Lemma frame_allocd s i : disk_ok s -> free (freemap s) i = true -> 0 <= i -> frame s (allocd i s) [].
Proof.
  intros Hok Hf Hi. split; [done..|]. intros j [Hr Hj] _. unfold in_range in Hr.
  assert (Hne : j <> i) by congruence. split; [split; [done|]|].
  - rewrite (allocd_free s i) by (done || lia). by rewrite decide_False.
  - rewrite (allocd_blk s i) by (done || lia). by rewrite decide_False.
Qed.

Lemma frame_freed s i : disk_ok s -> in_use s i -> frame s (freed i s) [i].
Proof.
  intros Hok Hi. split; [done..|]. intros j [Hr Hj] Hn. unfold in_range in Hr.
  assert (Hne : j <> i) by set_solver. split; [|done]. split; [done|].
  rewrite (released_free s i) by (done || lia). by rewrite decide_False.
Qed.

Section Written.
  Context (s : st) (e : Z) (off : nat) (d : list Z).
  Hypothesis Hok : disk_ok s.
  Hypothesis He : 0 < e < sblocks (super s).
  Hypothesis Hd : Forall is_u8 d.
  Hypothesis Hoff : (off + length d <= 4096)%nat.

Lemma written_block : is_block (splice off d (blk s e)).
Proof using Hok He Hd Hoff. apply splice_block; [|done..]. apply blk_block; [done|lia]. Qed.

Lemma written_ok : disk_ok (written e off d s).
Proof using Hok He Hd Hoff.
  assert (Hb := written_block). apply buffer_ok; [|done]. apply set_blk_ok; [done|lia|done].
Qed.

Lemma written_blk j : 0 <= j -> blk (written e off d s) j = if decide (j = e) then splice off d (blk s e) else blk s j.
Proof using Hok He Hd Hoff. intros Hj. apply (blk_set s e); [done|lia|apply written_block|done]. Qed.

Lemma frame_written : frame s (written e off d s) [e].
Proof using Hok He Hd Hoff.
  split; [done..|]. intros j [Hr Hj] Hn. unfold in_range in Hr. split; [done|].
  rewrite written_blk by lia. rewrite decide_False; [done|set_solver].
Qed.

End Written.

(** ** Entries *)

Lemma entry_blk s s' d k :
  (indirect d <> 0 -> blk s' (indirect d) = blk s (indirect d)) -> entry s' d k = entry s d k.
Proof.
  intros Hb. unfold entry. destruct (k <? 12); [done|]. destruct (Z.eqb_spec (indirect d) 0); [done|].
  by rewrite Hb.
Qed.

Lemma file_blocks_blk s s' d :
  (indirect d <> 0 -> blk s' (indirect d) = blk s (indirect d)) -> file_blocks s' d = file_blocks s d.
Proof. intros Hb. unfold file_blocks. apply list_fmap_ext. intros ? k _. by apply entry_blk. Qed.

Lemma table_in d : indirect d <> 0 -> indirect d ∈ table d.
Proof. intros Hi. unfold table. rewrite (proj2 (Z.eqb_neq _ _) Hi). set_solver. Qed.

Lemma elem_table d j : j ∈ table d <-> j = indirect d /\ j <> 0.
Proof. unfold table. destruct (Z.eqb_spec (indirect d) 0); set_solver. Qed.

Lemma elem_file_blocks s d j : j ∈ file_blocks s d <-> exists k, 0 <= k < blocks d /\ j = entry s d k.
Proof.
  unfold file_blocks. rewrite list_elem_of_fmap. setoid_rewrite elem_of_seqZ. rewrite Z.add_0_l. naive_solver.
Qed.

Lemma lookup_file_blocks s d k : 0 <= k < blocks d -> file_blocks s d !! Z.to_nat k = Some (entry s d k).
Proof.
  intros Hk. unfold file_blocks. rewrite list_lookup_fmap, lookup_seqZ_lt by lia. simpl. do 2 f_equal. lia.
Qed.

Lemma length_file_blocks s d : length (file_blocks s d) = Z.to_nat (blocks d).
Proof. unfold file_blocks. by rewrite length_fmap, length_seqZ. Qed.

(** A file whose blocks are left alone. *)
Lemma file_frame s s' d X :
  file_ok s d -> frame s s' X -> (forall j, j ∈ own s d -> j ∉ X) -> own s' d = own s d /\ file_ok s' d.
Proof.
  intros [Hd Hb Hr Hn Hu] Hf Hx. rewrite Forall_forall in Hu.
  assert (Hi : indirect d <> 0 -> blk s' (indirect d) = blk s (indirect d)).
  { intros Hi. assert (Hin : indirect d ∈ own s d) by (apply elem_of_app; left; by apply table_in).
    by apply (fr_use _ _ _ Hf); [apply Hu|apply Hx]. }
  assert (Ho : own s' d = own s d) by (unfold own; by rewrite (file_blocks_blk s s')).
  split; [done|]. split; [done|done| |by rewrite Ho|].
  - intros k Hk. rewrite (entry_blk s s') by done. by apply Hr.
  - rewrite Ho. apply Forall_forall. intros j Hj. by apply (fr_use _ _ _ Hf); [apply Hu|apply Hx].
Qed.

(** Replacing the entry [k0] in the table of indirect blocks. *)
Lemma entry_written s d k0 v k :
  disk_ok s -> in_range s (indirect d) -> 12 <= k0 < 1036 -> is_u32 v -> 0 <= k < 1036 ->
  entry (written (indirect d) (Z.to_nat (4 * (k0 - 12))) (le_bytes 4 v) s) d k
  = if decide (k = k0) then v else entry s d k.
Proof.
  intros Hok Hr Hk0 Hv Hk. unfold in_range in Hr.
  assert (Hl : (Z.to_nat (4 * (k0 - 12)) + length (le_bytes 4 v) <= 4096)%nat) by (rewrite length_le_bytes; lia).
  destruct (blk_block s (indirect d) Hok ltac:(lia)) as [Hbl _].
  unfold entry. destruct (Z.ltb_spec k 12); [by rewrite decide_False by lia|].
  destruct (Z.eqb_spec (indirect d) 0); [lia|].
  rewrite written_blk by (done || lia || apply le_bytes_u8). rewrite decide_True by done. case_decide as Hc.
  - subst k. rewrite slice_splice by (rewrite ?Hbl, ?length_le_bytes; done || lia). by apply le_val_u32.
  - rewrite slice_splice_ne; [done|by rewrite Hbl|rewrite length_le_bytes; lia].
Qed.

(** Replacing a direct entry. *)
Lemma entry_direct s d k0 v k :
  length (direct d) = 12%nat -> 0 <= k0 < 12 -> 0 <= k ->
  entry s (with_direct (arr_set (direct d) k0 v) d) k = if decide (k = k0) then v else entry s d k.
Proof.
  intros Hl Hk0 Hk. unfold entry. cbn [direct indirect with_direct]. destruct (Z.ltb_spec k 12).
  - case_decide as Hc; [subst; apply arr_get_set_eq; lia|]. apply arr_get_set_ne; lia.
  - by rewrite decide_False by lia.
Qed.

(** A table just allocated. *)
Lemma entry_zero s d e k :
  indirect d = 0 -> blk s e = zero_block -> 0 <= k < 1036 ->
  entry s (with_indirect e d) k = entry s d k.
Proof.
  intros Hi Hb Hk. unfold entry. cbn [direct indirect with_indirect]. rewrite Hi. cbn [Z.eqb].
  destruct (Z.ltb_spec k 12); [done|]. destruct (e =? 0); [done|]. rewrite Hb.
  unfold zero_block. rewrite slice_replicate by lia. apply le_val_zero.
Qed.

(** ** Reading the map *)

Lemma load_sin_eq (s : st) n i : sins s !! n = Some i -> load_sin n s = Ret (i, s).
Proof. unfold load_sin. by intros ->. Qed.

Lemma check_block_eq (s : st) j : disk_ok s -> in_use s j -> check_block j s = Ret (tt, s).
Proof.
  intros Hok Hj. unfold check_block. destruct Hj as [Hr Hf]. unfold in_range in Hr.
  replace (j =? 0) with false by lia. by rewrite (bind_Ret _ _ _ _ _ (in_use_eq s j Hok (conj Hr Hf))).
Qed.

Lemma rbuf_u32_eq (s : st) e k :
  disk_ok s -> in_range s e -> 0 <= k < 1024 ->
  rbuf_u32 e (k * 4) s = Ret ((0, le_val (slice (Z.to_nat (4 * k)) 4 (blk s e))), set_buffer (blk s e) s).
Proof.
  intros Hok He Hk. unfold rbuf_u32.
  rewrite (bind_Ret _ _ _ _ _ (sfs_rbuf_eq s (le_bytes 4 0) 4 e (k * 4) Hok He ltac:(lia) ltac:(lia) ltac:(lia))).
  cbn [fst snd]. unfold in_range in He. destruct (blk_block s e Hok ltac:(lia)) as [Hl _].
  change (Z.to_nat 4) with 4%nat. replace (k * 4) with (4 * k) by lia.
  rewrite splice_full; [done|]. rewrite length_slice, length_le_bytes; [done|lia].
Qed.

Lemma wbuf_u32_eq (s : st) v e k :
  disk_ok s -> in_range s e -> 0 <= k < 1024 ->
  wbuf_u32 v e (k * 4) s = Ret (0, written e (Z.to_nat (4 * k)) (le_bytes 4 v) s).
Proof.
  intros Hok He Hk. unfold wbuf_u32.
  rewrite (bind_Ret _ _ _ _ _ (sfs_wbuf_eq s (le_bytes 4 v) 4 e (k * 4) Hok He ltac:(lia) ltac:(lia) ltac:(lia)
    (length_le_bytes 4 v) (le_bytes_u8 4 v))).
  by replace (k * 4) with (4 * k) by lia.
Qed.

Lemma entry_use (s : st) d k : file_ok s d -> 0 <= k < blocks d -> in_use s (entry s d k).
Proof.
  intros Hf Hk. assert (Hu := fo_use _ _ Hf). rewrite Forall_forall in Hu. apply Hu.
  apply elem_of_app. right. apply elem_file_blocks. by exists k.
Qed.

Lemma table_use (s : st) d : file_ok s d -> indirect d <> 0 -> in_use s (indirect d).
Proof.
  intros Hf Hi. assert (Hu := fo_use _ _ Hf). rewrite Forall_forall in Hu. apply Hu.
  apply elem_of_app. left. by apply table_in.
Qed.

(** Looking a block up. *)
Lemma bmap_get_read (s : st) n i k :
  disk_ok s -> sins s !! n = Some i -> file_ok s (din i) -> 0 <= k < blocks (din i) ->
  exists b, is_block b /\ sfs_bmap_get_nolock n k false s = Ret ((0, entry s (din i) k), set_buffer b s).
Proof.
  intros Hok Hn Hf Hk. assert (Hu := entry_use s (din i) k Hf Hk). assert (Hb := fo_blocks _ _ Hf).
  unfold sfs_bmap_get_nolock. rewrite (bind_Ret _ _ _ _ _ (load_sin_eq s n i Hn)).
  unfold SFS_NDIRECT. cbv zeta. unfold entry in *. destruct (Z.ltb_spec k 12).
  - exists (sfs_buffer s). split; [apply (ok_buffer _ Hok)|]. rewrite andb_false_r.
    rewrite (bind_Ret _ _ _ _ _ (check_block_eq s _ Hok Hu)). by destruct s.
  - change SFS_BLK_NENTRY with 1024. replace (k - 12 <? 1024) with true by lia.
    destruct (Z.eqb_spec (indirect (din i)) 0) as [Hz|Hz]; [destruct Hu as [Hr _]; unfold in_range in Hr; lia|].
    assert (Ht := table_use s (din i) Hf Hz). exists (blk s (indirect (din i))).
    destruct Ht as [Htr Htf]. assert (Hib : is_block (blk s (indirect (din i))))
      by (unfold in_range in Htr; apply blk_block; [done|lia]). split; [done|].
    set (e := le_val _) in *. set (s1 := set_buffer (blk s (indirect (din i))) s).
    rewrite (bind_Ret _ _ s (0, indirect (din i), e) s1).
    2: { unfold sfs_bmap_get_sub_nolock. change SFS_BLK_NENTRY with 1024. replace (k - 12 <? 1024) with true by lia.
         rewrite (bind_Ret _ _ s tt s) by done. rewrite (proj2 (Z.eqb_neq _ _) Hz). cbn [negb].
         rewrite (bind_Ret _ _ _ _ _ (rbuf_u32_eq s _ (k - 12) Hok Htr ltac:(lia))).
         cbn [fst snd]. rewrite orb_true_r. done. }
    cbn [fst snd negb Z.eqb]. rewrite Z.eqb_refl. cbn [negb]. rewrite (bind_Ret _ _ s1 tt s1) by done.
    by rewrite (bind_Ret _ _ _ _ _ (check_block_eq s1 _ (buffer_ok s _ Hok Hib) Hu)).
Qed.

(** [sfs_bmap_load_nolock] of a block of the file. *)
Lemma bmap_load_read (s : st) n i k :
  disk_ok s -> sins s !! n = Some i -> file_ok s (din i) -> 0 <= k < blocks (din i) ->
  exists b, is_block b /\ sfs_bmap_load_nolock n k s = Ret ((0, entry s (din i) k), set_buffer b s).
Proof.
  intros Hok Hn Hf Hk. assert (Hu := entry_use s (din i) k Hf Hk).
  destruct (bmap_get_read s n i k Hok Hn Hf Hk) as (b & Hb & Hg). exists b. split; [done|].
  unfold sfs_bmap_load_nolock. rewrite (bind_Ret _ _ _ _ _ (load_sin_eq s n i Hn)).
  replace (k <=? blocks (din i)) with true by lia. rewrite (bind_Ret _ _ s tt s) by done.
  cbv zeta. replace (k =? blocks (din i)) with false by lia. rewrite (bind_Ret _ _ _ _ _ Hg).
  cbn [fst snd negb Z.eqb]. set (s1 := set_buffer b s). assert (Hok1 : disk_ok s1) by (by apply buffer_ok).
  by rewrite (bind_Ret _ _ _ _ _ (in_use_eq s1 _ Hok1 Hu)), (bind_Ret _ _ s1 tt s1) by done.
Qed.

Lemma set_din_id i : set_din (din i) (dirty i) i = i.
Proof. by destruct i. Qed.

(** ** Appending a block *)

Definition same_attrs (d d' : sfs_disk_inode) : Prop :=
  size d' = size d /\ type d' = type d /\ nlinks d' = nlinks d.

(** How many free blocks the next block of the file takes. *)
Definition needed (d : sfs_disk_inode) : nat :=
  if (12 <=? blocks d) && (indirect d =? 0) then 2 else 1.

(** From [s] to [s'] the file of the inode [i] at [n] has got the block [b],
    which was free and is zero now. *)
Record appended (s : st) (n : Z) (i : sfs_inode) (b : Z) (s' : st) (d' : sfs_disk_inode) (dt : bool) : Prop := {
  ap_sins : sins s' = <[n := set_din d' dt i]> (sins s);
  ap_ok : disk_ok s';
  ap_file : file_ok s' d';
  ap_blocks : blocks d' = blocks (din i) + 1;
  ap_attrs : same_attrs (din i) d';
  ap_map : file_blocks s' d' = file_blocks s (din i) ++ [b];
  ap_free : 0 <= b /\ free (freemap s) b = true;
  ap_zero : blk s' b = zero_block;
  ap_frame : frame s s' (table (din i));
  ap_indirect : (indirect d' =? 0) = (indirect (din i) =? 0) && (blocks (din i) <? 12);
  ap_count : unused_blocks (super s') = unused_blocks (super s) - Z.of_nat (needed (din i));
  ap_own j : j ∈ own s' d' -> j ∈ own s (din i) \/ (0 <= j /\ free (freemap s) j = true)
}.

Lemma file_blocks_snoc (s s' : st) d d' b :
  0 <= blocks d -> blocks d' = blocks d + 1 -> entry s' d' (blocks d) = b ->
  (forall k, 0 <= k < blocks d -> entry s' d' k = entry s d k) ->
  file_blocks s' d' = file_blocks s d ++ [b].
Proof.
  intros Hb Hb' He Hk. unfold file_blocks. rewrite Hb', seqZ_app, fmap_app by lia. f_equal.
  - apply list_fmap_ext. intros ? k Hx%list_elem_of_lookup_2. apply Hk. apply elem_of_seqZ in Hx. lia.
  - rewrite <- He. cbn. do 2 f_equal; lia.
Qed.

Section Append.
  Context (s : st) (n : Z) (i : sfs_inode).
  Hypothesis Hok : disk_ok s.
  Hypothesis Hn : sins s !! n = Some i.
  Hypothesis Hf : file_ok s (din i).

Lemma own_not_free j : j ∈ own s (din i) -> free (freemap s) j = true -> False.
Proof using Hf.
  intros Hj Hx. assert (Hu := fo_use _ _ Hf). rewrite Forall_forall in Hu. destruct (Hu _ Hj). congruence.
Qed.

(** The state [s1] and the inode [d1] before the number of blocks is
    increased. *)
Record grown (b : Z) (s1 : st) (d1 : sfs_disk_inode) : Prop := {
  gr_ok : disk_ok s1;
  gr_blocks : blocks d1 = blocks (din i);
  gr_attrs : same_attrs (din i) d1;
  gr_direct : length (direct d1) = 12%nat;
  gr_entry k : 0 <= k < 1036 -> entry s1 d1 k = if decide (k = blocks (din i)) then b else entry s (din i) k;
  gr_free : 0 <= b /\ free (freemap s) b = true;
  gr_use : in_use s1 b;
  gr_zero : blk s1 b = zero_block;
  gr_frame : frame s s1 (table (din i));
  gr_indirect : (indirect d1 =? 0) = (indirect (din i) =? 0) && (blocks (din i) <? 12);
  gr_count : unused_blocks (super s1) = unused_blocks (super s) - Z.of_nat (needed (din i));
  gr_table j : j ∈ table d1 -> in_use s1 j /\ j <> b /\
    (j ∈ table (din i) \/ (0 <= j /\ free (freemap s) j = true))
}.

Lemma append_close s1 d1 dt b :
  grown b s1 d1 -> blocks (din i) < 1036 ->
  appended s n i b (set_sins (<[n := set_din (with_blocks (blocks (din i) + 1) d1) dt i]> (sins s)) s1)
    (with_blocks (blocks (din i) + 1) d1) dt.
Proof using Hok Hn Hf.
  intros [Hok1 Hb1 Hat Hl He [Hb0 Hfb] Hub Hz Hfr Hind Hcnt Ht] Hlt. assert (Hbl := fo_blocks _ _ Hf).
  set (d' := with_blocks (blocks (din i) + 1) d1). set (s' := set_sins _ s1).
  assert (He' : forall k, entry s' d' k = entry s1 d1 k) by done.
  assert (Hm : file_blocks s' d' = file_blocks s (din i) ++ [b]).
  { apply file_blocks_snoc; [lia|done| |].
    - rewrite He', He, decide_True by lia. done.
    - intros k Hk. rewrite He', He, decide_False by lia. done. }
  assert (Hown : own s' d' = table d1 ++ file_blocks s (din i) ++ [b]) by (unfold own; by rewrite Hm).
  assert (Hnd := fo_nodup _ _ Hf). unfold own in Hnd. apply NoDup_app in Hnd as (_ & Hdis & Hnd).
  assert (Hfree : forall j, j ∈ file_blocks s (din i) -> free (freemap s) j = true -> False).
  { intros j Hj. apply own_not_free. apply elem_of_app. by right. }
  split; try done.
  - by destruct Hok1; split.
  - split.
    + done.
    + simpl. lia.
    + intros k Hk. rewrite He', He by (simpl in Hk; lia). rewrite decide_False by (simpl in Hk; lia).
      apply (fo_rest _ _ Hf). simpl in Hk. lia.
    + rewrite Hown. apply NoDup_app. split; [unfold table; destruct (_ =? 0); repeat constructor; set_solver|]. split.
      * intros j Hj [Hin|Hin]%elem_of_app; destruct (Ht j Hj) as (_ & Hne & [Hold|[_ Hnew]]).
        -- by apply (Hdis j).
        -- by apply (Hfree j).
        -- set_solver.
        -- set_solver.
      * apply NoDup_app. split; [done|]. split; [|apply NoDup_singleton]. intros j Hj Hin%list_elem_of_singleton. subst.
        by apply (Hfree b).
    + rewrite Hown, !Forall_app, Forall_singleton. split; [|split; [|done]].
      * apply Forall_forall. intros j Hj. by apply Ht.
      * apply Forall_forall. intros j Hj. assert (Hu := fo_use _ _ Hf). rewrite Forall_forall in Hu.
        apply (fr_use _ _ _ Hfr); [apply Hu; apply elem_of_app; by right|]. intros Hx. by apply (Hdis j).
  - destruct Hfr as [? ? ?]. by split.
  - intros j Hj. rewrite Hown in Hj. apply elem_of_app in Hj as [Hj|[Hj|Hj]%elem_of_app].
    + destruct (Ht j Hj) as (_ & _ & [?|?]); [left; apply elem_of_app; by left|by right].
    + left. apply elem_of_app. by right.
    + apply list_elem_of_singleton in Hj. subst. by right.
Qed.

(** The first free block as the next direct block. *)
Lemma grown_direct b :
  blocks (din i) < 12 -> 0 <= b -> free (freemap s) b = true ->
  grown b (allocd b s) (with_direct (arr_set (direct (din i)) (blocks (din i)) b) (din i)).
Proof using Hok Hn Hf.
  intros Hk Hb Hfb. assert (Hr := free_range s b Hok Hfb Hb). assert (Hbl := fo_blocks _ _ Hf).
  assert (Hub : in_use (allocd b s) b).
  { split; [unfold in_range; simpl; lia|]. by rewrite (allocd_free s b), decide_True. }
  assert (Hfr := frame_allocd s b Hok Hfb Hb).
  split; try done.
  - by apply allocd_ok.
  - simpl. rewrite arr_set_length. apply (fo_direct _ _ Hf).
  - intros k Hk'. rewrite entry_direct; [|apply (fo_direct _ _ Hf)|lia..]. case_decide; [done|].
    apply entry_blk. intros Hi. by apply (fr_use _ _ _ Hfr); [apply table_use|set_solver].
  - by rewrite (allocd_blk s b), decide_True.
  - by apply (frame_mono _ _ []); [set_solver|].
  - simpl. replace (blocks (din i) <? 12) with true by lia. by rewrite andb_true_r.
  - unfold needed. by replace (12 <=? blocks (din i)) with false by lia.
  - intros j [-> Hj]%elem_table. simpl in *. assert (Hu := table_use s (din i) Hf Hj). split.
    + by apply (fr_use _ _ _ Hfr); [|set_solver].
    + split; [intros Hx; destruct Hu; congruence|]. left. by apply table_in.
Qed.

(** The first free block as the next entry of a table [e] that [s0] has: the
    one the file has, or a new one. *)
Lemma grown_indirect s0 e b :
  12 <= blocks (din i) < 1036 -> disk_ok s0 -> in_use s0 e -> frame s s0 [] ->
  0 <= b -> free (freemap s0) b = true -> free (freemap s) b = true ->
  (forall k, 0 <= k < 1036 -> entry s0 (with_indirect e (din i)) k = entry s (din i) k) ->
  (e = indirect (din i) \/ free (freemap s) e = true) ->
  unused_blocks (super s0) = unused_blocks (super s) - (if indirect (din i) =? 0 then 1 else 0) ->
  grown b (written e (Z.to_nat (4 * (blocks (din i) - 12))) (le_bytes 4 b) (allocd b s0))
    (with_indirect e (din i)).
Proof using Hok Hn Hf.
  intros Hk Hok0 He Hfr0 Hb Hfb0 Hfb Hent He0 Hcnt.
  assert (Hr := free_range s0 b Hok0 Hfb0 Hb). set (s1 := allocd b s0). assert (Hok1 := allocd_ok s0 b Hok0 Hfb0 Hb).
  assert (Hfr1 := frame_allocd s0 b Hok0 Hfb0 Hb). fold s1 in Hok1, Hfr1.
  assert (Hne : e <> b) by (intros ->; destruct He; congruence).
  destruct (fr_use _ _ _ Hfr1 e He) as [He1 Heb]; [set_solver|]. destruct He as [Her Hef].
  assert (Hd : Forall is_u8 (le_bytes 4 b)) by apply le_bytes_u8.
  set (off := Z.to_nat (4 * (blocks (din i) - 12))).
  assert (Hoff : (off + length (le_bytes 4 b) <= 4096)%nat) by (rewrite length_le_bytes; unfold off; lia).
  assert (Her1 : 0 < e < sblocks (super s1)) by exact (proj1 He1).
  assert (Hsm : is_u32 b).
  { destruct (ok_blocks _ Hok0) as [_ Hd0]. assert (Hs := disk_small (dev s0)). width. }
  split.
  - by apply written_ok.
  - done.
  - done.
  - apply (fo_direct _ _ Hf).
  - intros k Hk'. change e with (indirect (with_indirect e (din i))) at 1.
    unfold off. rewrite entry_written by (done || lia). case_decide; [done|].
    rewrite <- Hent by done. apply entry_blk. intros _. exact Heb.
  - done.
  - split; [unfold in_range; simpl in *; lia|]. change (free (freemap s1) b = false).
    unfold s1. by rewrite (allocd_free s0 b), decide_True.
  - rewrite (written_blk s1) by done. rewrite decide_False by done. unfold s1.
    by rewrite (allocd_blk s0 b), decide_True.
  - apply (frame_trans s s0 _ [] [e]); [done| |set_solver|].
    + apply (frame_trans s0 s1 _ [] [e]); [done|by apply frame_written|set_solver|set_solver].
    + intros j ->%list_elem_of_singleton Hj. destruct He0 as [->|He0]; [|destruct Hj; congruence].
      apply table_in. destruct Hj as [Hj _]. unfold in_range in Hj. lia.
  - simpl. replace (blocks (din i) <? 12) with false by lia. rewrite andb_false_r.
    destruct Her1. apply Z.eqb_neq. lia.
  - change (unused_blocks (super s0) - 1 = unused_blocks (super s) - Z.of_nat (needed (din i))). rewrite Hcnt. unfold needed.
    replace (12 <=? blocks (din i)) with true by lia. destruct (indirect (din i) =? 0); simpl; lia.
  - intros j [-> Hj]%elem_table. simpl in *. split; [done|]. split; [done|].
    destruct He0 as [->|He0]; [left; by apply table_in|right; split; [lia|done]].
Qed.

(** The file system refuses: nothing but the buffer and free blocks changed. *)
Record kept (s' : st) : Prop := {
  kp_ok : disk_ok s';
  kp_sins : sins s' = sins s;
  kp_freemap : freemap s' = freemap s;
  kp_frame : frame s s' []
}.

Lemma kept_buffer b : is_block b -> kept (set_buffer b s).
Proof using Hok. intros Hb. split; [by apply buffer_ok|done..]. Qed.

(** Taking a block and giving it back. *)
Lemma kept_freed e : 0 <= e -> free (freemap s) e = true -> kept (freed e (allocd e s)).
Proof using Hok.
  intros He Hfe. assert (Hr := free_range s e Hok Hfe He). assert (Hok1 := allocd_ok s e Hok Hfe He).
  assert (Hu : in_use (allocd e s) e).
  { split; [unfold in_range; simpl; lia|]. by rewrite (allocd_free s e), decide_True. }
  split.
  - by apply freed_ok.
  - done.
  - assert (Hw := ok_freemap _ Hok). assert (Hx := free_without (freemap s) e Hw ltac:(lia) Hfe).
    rewrite bitmap_free_eq in Hx; [by injection Hx|simpl; lia|]. 
    rewrite without_free by (done || lia). by rewrite decide_True.
  - apply (frame_trans s (allocd e s) _ [] [e]); [by apply frame_allocd|by apply frame_freed|set_solver|].
    intros j ->%list_elem_of_singleton [_ Hj]. congruence.
Qed.

End Append.

Lemma fill_eq (s : st) e k entp :
  disk_ok s -> in_use s e -> 0 <= k < 1024 ->
  (get_sub_fill entp e (k * 4) s = Ret ((- E_NO_MEM, entp, 0), if e =? entp then s else freed e s) /\
     forall j, 0 <= j -> free (freemap s) j = false) \/
  exists b, get_sub_fill entp e (k * 4) s =
      Ret ((0, e, b), written e (Z.to_nat (4 * k)) (le_bytes 4 b) (allocd b s)) /\
    0 <= b /\ free (freemap s) b = true.
Proof.
  intros Hok He Hk. unfold get_sub_fill. destruct (sfs_block_alloc_eq s Hok) as [[Ha Hno]|(b & Ha & Hb & Hfb)].
  - left. split; [|done]. rewrite (bind_Ret _ _ _ _ _ Ha). cbn [fst snd].
    rewrite (bind_Ret _ _ s (- E_NO_MEM) s) by done. change (- E_NO_MEM =? 0) with false. cbn [negb].
    destruct (e =? entp); cbn [negb when]; [done|]. by rewrite (bind_Ret _ _ _ _ _ (sfs_block_free_eq s e Hok He)).
  - right. exists b. split; [|done]. rewrite (bind_Ret _ _ _ _ _ Ha). cbn [fst snd negb Z.eqb].
    destruct (fr_use _ _ _ (frame_allocd s b Hok Hfb Hb) e He) as [He1 _]; [set_solver|].
    set (s2 := written e (Z.to_nat (4 * k)) (le_bytes 4 b) (allocd b s)).
    rewrite (bind_Ret _ _ _ 0 s2); [done|].
    rewrite (bind_Ret _ _ _ _ _ (wbuf_u32_eq (allocd b s) b e k (allocd_ok s b Hok Hfb Hb) (proj1 He1) Hk)).
    done.
Qed.

Lemma no_free_size (b : bitmap) : (forall j, 0 <= j -> free b j = false) -> free_set b = ∅.
Proof.
  intros Hno. apply elem_of_equiv_empty_L. intros j [Hj Hf]%elem_free_set. rewrite Hno in Hf; [done|lia].
Qed.

Section Create.
  Context (s : st) (n : Z) (i : sfs_inode).
  Hypothesis Hok : disk_ok s.
  Hypothesis Hn : sins s !! n = Some i.
  Hypothesis Hf : file_ok s (din i).

(** What [sfs_bmap_get_nolock] gives for the block after the last. *)
Definition get_created (r : res ((Z * Z) * st)) : Prop :=
  (exists s', r = Ret ((- E_NO_MEM, 0), s') /\ kept s s' /\ (base.size (free_set (freemap s)) < needed (din i))%nat) \/
  exists b s1 d1 dt, grown s i b s1 d1 /\ r = Ret ((0, b), set_sins (<[n := set_din d1 dt i]> (sins s)) s1).

Lemma get_direct : blocks (din i) < 12 -> get_created (sfs_bmap_get_nolock n (blocks (din i)) true s).
Proof using KW Hok Hn Hf.
  intros Hk. assert (Hbl := fo_blocks _ _ Hf). unfold sfs_bmap_get_nolock.
  rewrite (bind_Ret _ _ _ _ _ (load_sin_eq s n i Hn)). unfold SFS_NDIRECT. cbv zeta.
  replace (blocks (din i) <? 12) with true by lia.
  assert (Hz := fo_rest _ _ Hf (blocks (din i)) ltac:(lia)). unfold entry in Hz.
  replace (blocks (din i) <? 12) with true in Hz by lia. rewrite Hz. cbn [andb Z.eqb].
  destruct (sfs_block_alloc_eq s Hok) as [[Ha Hno]|(b & Ha & Hb & Hfb)]; rewrite (bind_Ret _ _ _ _ _ Ha).
  - left. exists s. split; [done|]. split; [split; [done..|apply frame_refl]|]. rewrite no_free_size by done.
    rewrite size_empty. unfold needed. destruct (_ && _); lia.
  - right. exists b, (allocd b s), (with_direct (arr_set (direct (din i)) (blocks (din i)) b) (din i)), true.
    assert (Hg := grown_direct s n i Hok Hn Hf b Hk Hb Hfb). split; [done|]. cbn [fst snd negb Z.eqb].
    set (s2 := set_sins _ (allocd b s)). rewrite (bind_Ret _ _ (allocd b s) tt s2) by done.
    assert (Hok2 : disk_ok s2) by (destruct (gr_ok _ _ _ _ _ Hg); by split).
    by rewrite (bind_Ret _ _ _ _ _ (check_block_eq s2 b Hok2 (gr_use _ _ _ _ _ Hg))).
Qed.

(** The result of the search in the table, stored in the inode. *)
Lemma get_sub_store s1 e b :
  12 <= blocks (din i) < 1036 -> (e = indirect (din i) \/ indirect (din i) = 0) ->
  grown s i b s1 (with_indirect e (din i)) -> sins s1 = sins s ->
  sfs_bmap_get_sub_nolock (indirect (din i)) (blocks (din i) - 12) true s = Ret ((0, e, b), s1) ->
  get_created (sfs_bmap_get_nolock n (blocks (din i)) true s).
Proof using Hok Hn Hf.
  intros Hk He Hg Hs1 Hr. unfold sfs_bmap_get_nolock.
  rewrite (bind_Ret _ _ _ _ _ (load_sin_eq s n i Hn)). unfold SFS_NDIRECT. cbv zeta.
  replace (blocks (din i) <? 12) with false by lia.
  change SFS_BLK_NENTRY with 1024. replace (blocks (din i) - 12 <? 1024) with true by lia.
  rewrite (bind_Ret _ _ _ _ _ Hr). cbn [fst snd negb Z.eqb]. right.
  destruct (Z.eqb_spec e (indirect (din i))) as [Heq|Hne]; cbn [negb].
  - exists b, s1, (with_indirect e (din i)), (dirty i). split; [done|].
    rewrite (bind_Ret _ _ s1 tt s1) by done.
    rewrite (bind_Ret _ _ _ _ _ (check_block_eq s1 b (gr_ok _ _ _ _ _ Hg) (gr_use _ _ _ _ _ Hg))).
    assert (Hi : set_din (with_indirect e (din i)) (dirty i) i = i)
      by (rewrite Heq; destruct i as [[] ? ? ? ?]; done).
    rewrite Hi, insert_id by done. rewrite <- Hs1. by destruct s1.
  - exists b, s1, (with_indirect e (din i)), true. split; [done|].
    destruct He as [?|Hz]; [done|]. rewrite Hz. cbn [Z.eqb].
    set (s2 := set_sins (<[n := set_din (with_indirect e (din i)) true i]> (sins s)) s1).
    rewrite (bind_Ret _ _ s1 tt s2).
    2: { rewrite (bind_Ret _ _ s1 tt s1) by done. unfold put_sin, modify, s2. by rewrite Hs1. }
    assert (Hok2 : disk_ok s2) by (destruct (gr_ok _ _ _ _ _ Hg); by split).
    by rewrite (bind_Ret _ _ _ _ _ (check_block_eq s2 b Hok2 (gr_use _ _ _ _ _ Hg))).
Qed.

(** A refusal of the search in the table. *)
Lemma get_sub_refused s' entp :
  12 <= blocks (din i) < 1036 -> kept s s' -> (base.size (free_set (freemap s)) < needed (din i))%nat ->
  sfs_bmap_get_sub_nolock (indirect (din i)) (blocks (din i) - 12) true s = Ret ((- E_NO_MEM, entp, 0), s') ->
  get_created (sfs_bmap_get_nolock n (blocks (din i)) true s).
Proof using Hok Hn Hf.
  intros Hk Hkp Hlt Hr. unfold sfs_bmap_get_nolock.
  rewrite (bind_Ret _ _ _ _ _ (load_sin_eq s n i Hn)). unfold SFS_NDIRECT. cbv zeta.
  replace (blocks (din i) <? 12) with false by lia.
  change SFS_BLK_NENTRY with 1024. replace (blocks (din i) - 12 <? 1024) with true by lia.
  rewrite (bind_Ret _ _ _ _ _ Hr). cbn [fst snd]. left. exists s'. done.
Qed.

Lemma get_sub_start entp : 12 <= blocks (din i) < 1036 ->
  sfs_bmap_get_sub_nolock entp (blocks (din i) - 12) true s =
    (if negb (entp =? 0) then
       r ← rbuf_u32 entp ((blocks (din i) - 12) * 4);
       if negb (r.1 =? 0) then mret (r.1, entp, 0) else
       if negb (r.2 =? 0) || negb true then mret (0, entp, r.2) else
       get_sub_fill entp entp ((blocks (din i) - 12) * 4)
     else
       r ← sfs_block_alloc;
       if negb (r.1 =? 0) then mret (r.1, entp, 0) else
       get_sub_fill entp r.2 ((blocks (din i) - 12) * 4)) s.
Proof.
  intros Hk. unfold sfs_bmap_get_sub_nolock. change SFS_BLK_NENTRY with 1024.
  replace (blocks (din i) - 12 <? 1024) with true by lia. by rewrite (bind_Ret _ _ s tt s).
Qed.

(** The table of the file exists. *)
Lemma get_old_table :
  12 <= blocks (din i) < 1036 -> indirect (din i) <> 0 ->
  get_created (sfs_bmap_get_nolock n (blocks (din i)) true s).
Proof using KW Hok Hn Hf.
  intros Hk Hi. set (k := blocks (din i) - 12). assert (Hu := table_use s (din i) Hf Hi).
  assert (Hstart := get_sub_start (indirect (din i)) Hk). fold k in Hstart.
  rewrite (proj2 (Z.eqb_neq _ _) Hi) in Hstart. cbn [negb] in Hstart.
  rewrite (bind_Ret _ _ _ _ _ (rbuf_u32_eq s _ k Hok (proj1 Hu) ltac:(lia))) in Hstart.
  assert (Hz := fo_rest _ _ Hf (blocks (din i)) ltac:(lia)). unfold entry in Hz.
  replace (blocks (din i) <? 12) with false in Hz by lia. rewrite (proj2 (Z.eqb_neq _ _) Hi) in Hz. fold k in Hz.
  rewrite Hz in Hstart. cbn [fst snd negb Z.eqb orb] in Hstart.
  set (s0 := set_buffer (blk s (indirect (din i))) s) in Hstart.
  assert (Hb : is_block (blk s (indirect (din i)))) by (destruct Hu as [[? ?] _]; apply blk_block; [done|lia]).
  assert (Hok0 : disk_ok s0) by (by apply buffer_ok). assert (Hu0 : in_use s0 (indirect (din i))) by done.
  destruct (fill_eq s0 _ k (indirect (din i)) Hok0 Hu0 ltac:(lia)) as [[Hr Hno]|(b & Hr & Hb0 & Hfb)]; rewrite Hr in Hstart.
  - apply (get_sub_refused s0 (indirect (din i))); [done|by apply kept_buffer| |by rewrite Z.eqb_refl in Hstart].
    change (freemap s0) with (freemap s) in Hno. rewrite no_free_size, size_empty by done. unfold needed.
    destruct (_ && _); lia.
  - apply (get_sub_store (written (indirect (din i)) (Z.to_nat (4 * k)) (le_bytes 4 b) (allocd b s0))
      (indirect (din i)) b Hk); [by left| |done|exact Hstart].
    apply (grown_indirect s n i Hok Hn Hf s0); try done; [by left|].
    rewrite (proj2 (Z.eqb_neq _ _) Hi). simpl. lia.
Qed.

(** The file gets its table. *)
Lemma get_new_table :
  12 <= blocks (din i) < 1036 -> indirect (din i) = 0 ->
  get_created (sfs_bmap_get_nolock n (blocks (din i)) true s).
Proof using KW Hok Hn Hf.
  intros Hk Hi. set (k := blocks (din i) - 12).
  assert (Hstart := get_sub_start (indirect (din i)) Hk). fold k in Hstart. rewrite Hi in Hstart. cbn [negb Z.eqb] in Hstart.
  assert (Hneed : needed (din i) = 2%nat).
  { unfold needed. rewrite Hi. by replace (12 <=? blocks (din i)) with true by lia. }
  destruct (sfs_block_alloc_eq s Hok) as [[Ha Hno]|(e & Ha & He & Hfe)]; rewrite (bind_Ret _ _ _ _ _ Ha) in Hstart.
  { apply (get_sub_refused s 0); [done|split; [done..|apply frame_refl]| |by rewrite Hi].
    rewrite no_free_size, size_empty, Hneed by done. lia. }
  cbn [fst snd negb Z.eqb] in Hstart. set (s0 := allocd e s) in Hstart.
  assert (Hok0 := allocd_ok s e Hok Hfe He). assert (Hr := free_range s e Hok Hfe He).
  assert (Hu0 : in_use s0 e) by (split; [unfold in_range; simpl; lia|]; unfold s0; by rewrite (allocd_free s e), decide_True).
  assert (Hs0 : forall j, 0 <= j -> free (freemap s0) j = if decide (j = e) then false else free (freemap s) j)
    by (intros; by apply allocd_free).
  destruct (fill_eq s0 e k 0 Hok0 Hu0 ltac:(lia)) as [[Hr0 Hno]|(b & Hr0 & Hb0 & Hfb)]; rewrite Hr0 in Hstart.
  - replace (e =? 0) with false in Hstart by lia.
    apply (get_sub_refused (freed e s0) 0); [done|by apply kept_freed| |by rewrite Hi]. rewrite Hneed.
    assert (Hsub : free_set (freemap s) ⊆ {[e]}).
    { intros j [Hj Hx]%elem_free_set. specialize (Hno j ltac:(lia)). rewrite Hs0 in Hno by lia.
      case_decide; [set_solver|congruence]. }
    apply subseteq_size in Hsub. rewrite size_singleton in Hsub. lia.
  - assert (Hfb' : free (freemap s) b = true) by (rewrite Hs0 in Hfb by done; by destruct (decide _)).
    apply (get_sub_store (written e (Z.to_nat (4 * k)) (le_bytes 4 b) (allocd b s0)) e b Hk); [by right| |done|by rewrite Hi].
    apply (grown_indirect s n i Hok Hn Hf s0); try done.
    + by apply frame_allocd.
    + intros k' Hk'. rewrite entry_zero; [|done| |done].
      * apply entry_blk. intros Hx. congruence.
      * unfold s0. by rewrite (allocd_blk s e), decide_True.
    + by right.
    + by rewrite Hi.
Qed.

Lemma bmap_get_create :
  blocks (din i) < 1036 -> get_created (sfs_bmap_get_nolock n (blocks (din i)) true s).
Proof using KW Hok Hn Hf.
  intros Hk. assert (Hb := fo_blocks _ _ Hf). destruct (Z.lt_ge_cases (blocks (din i)) 12); [by apply get_direct|].
  destruct (decide (indirect (din i) = 0)); [by apply get_new_table|by apply get_old_table].
Qed.

(** [sfs_bmap_load_nolock] of the block after the last one: a new block, or a
    refusal when there are not enough free blocks. *)
Lemma bmap_load_append :
  blocks (din i) < 1036 ->
  (exists s', sfs_bmap_load_nolock n (blocks (din i)) s = Ret ((- E_NO_MEM, 0), s') /\ kept s s' /\
     unused_blocks (super s) < Z.of_nat (needed (din i))) \/
  exists b s' d' dt, sfs_bmap_load_nolock n (blocks (din i)) s = Ret ((0, b), s') /\ appended s n i b s' d' dt.
Proof using KW Hok Hn Hf.
  intros Hk. assert (Hb := fo_blocks _ _ Hf). unfold sfs_bmap_load_nolock.
  rewrite (bind_Ret _ _ _ _ _ (load_sin_eq s n i Hn)). rewrite Z.leb_refl, (bind_Ret _ _ s tt s) by done.
  cbv zeta. rewrite Z.eqb_refl.
  destruct (bmap_get_create Hk) as [(s' & Hg & Hkp & Hlt)|(b & s1 & d1 & dt & Hgr & Hg)]; rewrite (bind_Ret _ _ _ _ _ Hg).
  - left. exists s'. split; [done|]. split; [done|]. rewrite (ok_unused _ Hok). lia.
  - right. exists b. eexists _, _, dt. split; [|by apply (append_close s n i Hok Hn Hf s1 d1)].
    cbn [fst snd negb Z.eqb]. set (s2 := set_sins _ s1).
    assert (Hok2 : disk_ok s2) by (destruct (gr_ok _ _ _ _ _ Hgr); by split).
    assert (Hu2 : in_use s2 b) by exact (gr_use _ _ _ _ _ Hgr).
    rewrite (bind_Ret _ _ _ _ _ (in_use_eq s2 b Hok2 Hu2)), (bind_Ret _ _ s2 tt s2) by done. cbn [when].
    assert (Hl : load_sin n s2 = Ret (set_din d1 dt i, s2)) by (apply load_sin_eq; apply lookup_insert_eq).
    unfold mbind, M_bind. rewrite Hl. unfold put_sin, modify, mret, M_ret. cbn [din set_din dirty].
    rewrite (gr_blocks _ _ _ _ _ Hgr), u32_id by width. unfold s2, set_sins. cbn. by rewrite insert_insert_eq.
Qed.

End Create.

(** ** Removing the last block *)

(** From [s] to [s'] the file of the inode [i] at [n] has lost its last block
    [b], which is free now. *)
Record dropped (s : st) (n : Z) (i : sfs_inode) (b : Z) (s' : st) (d' : sfs_disk_inode) : Prop := {
  dr_sins : sins s' = <[n := set_din d' true i]> (sins s);
  dr_ok : disk_ok s';
  dr_file : file_ok s' d';
  dr_blocks : blocks d' = blocks (din i) - 1;
  dr_attrs : same_attrs (din i) d';
  dr_indirect : indirect d' = indirect (din i);
  dr_map : file_blocks s (din i) = file_blocks s' d' ++ [b];
  dr_free j : 0 <= j -> free (freemap s') j = if decide (j = b) then true else free (freemap s) j;
  dr_frame : frame s s' (b :: table (din i))
}.

Section Truncate.
  Context (s : st) (n : Z) (i : sfs_inode).
  Hypothesis Hok : disk_ok s.
  Hypothesis Hn : sins s !! n = Some i.
  Hypothesis Hf : file_ok s (din i).
  Hypothesis Hpos : 0 < blocks (din i).

Let last := blocks (din i) - 1.
Let b := entry s (din i) last.

(** The state [s1] and the inode [d1] before the number of blocks is
    decreased. *)
Record shrunk (s1 : st) (d1 : sfs_disk_inode) : Prop := {
  sh_ok : disk_ok s1;
  sh_blocks : blocks d1 = blocks (din i);
  sh_attrs : same_attrs (din i) d1;
  sh_direct : length (direct d1) = 12%nat;
  sh_indirect : indirect d1 = indirect (din i);
  sh_entry k : 0 <= k < 1036 -> entry s1 d1 k = if decide (k = last) then 0 else entry s (din i) k;
  sh_free j : 0 <= j -> free (freemap s1) j = if decide (j = b) then true else free (freemap s) j;
  sh_frame : frame s s1 (b :: table (din i))
}.

Lemma last_own : own s (din i) = table (din i) ++ (entry s (din i) <$> seqZ 0 last) ++ [b].
Proof using Hf Hpos.
  unfold own. f_equal. unfold file_blocks. replace (blocks (din i)) with (last + 1) by (unfold last; lia).
  rewrite seqZ_app, fmap_app by (unfold last; lia). f_equal.
Qed.

Lemma shrunk_close s1 d1 :
  shrunk s1 d1 ->
  dropped s n i b (set_sins (<[n := set_din (with_blocks last d1) true i]> (sins s)) s1) (with_blocks last d1).
Proof using Hok Hn Hf Hpos.
  intros [Hok1 Hb1 Hat Hl Hi1 He Hfree Hfr]. assert (Hbl := fo_blocks _ _ Hf). assert (Hlast : last = blocks (din i) - 1) by done.
  set (d' := with_blocks last d1). set (s' := set_sins _ s1).
  assert (He' : forall k, entry s' d' k = entry s1 d1 k) by done.
  assert (Hm : file_blocks s' d' = entry s (din i) <$> seqZ 0 last).
  { unfold file_blocks. apply list_fmap_ext. intros ? k Hx%list_elem_of_lookup_2.
    apply elem_of_seqZ in Hx. rewrite He', He, decide_False by (simpl in *; lia). done. }
  assert (Ht : table d' = table (din i)) by (unfold table; simpl; by rewrite Hi1).
  assert (Hown := last_own). assert (Hnd := fo_nodup _ _ Hf). rewrite Hown, app_assoc in Hnd.
  apply NoDup_app in Hnd as (Hnd & Hdis & _).
  assert (Hown' : own s' d' = table (din i) ++ (entry s (din i) <$> seqZ 0 last)) by (unfold own; by rewrite Hm, Ht).
  assert (Hin : forall j, j ∈ own s' d' -> j ∈ own s (din i) /\ j <> b).
  { intros j Hj. rewrite Hown' in Hj. split; [rewrite Hown, app_assoc; apply elem_of_app; by left|].
    intros ->. apply (Hdis b Hj). set_solver. }
  split; try done.
  - by destruct Hok1; split.
  - split.
    + done.
    + simpl. lia.
    + intros k Hk. simpl in Hk. rewrite He', He by lia. case_decide; [done|]. apply (fo_rest _ _ Hf). lia.
    + by rewrite Hown'.
    + apply Forall_forall. intros j Hj. destruct (Hin j Hj) as [Hjo Hne].
      assert (Hu := fo_use _ _ Hf). rewrite Forall_forall in Hu. destruct (Hu j Hjo) as [Hr Hfj]. split.
      * unfold in_range in *. simpl. by rewrite (fr_super _ _ _ Hfr).
      * change (free (freemap s1) j = false). unfold in_range in Hr. rewrite Hfree by lia. by rewrite decide_False.
  - rewrite Hm. unfold own in Hown. by apply app_inv_head in Hown.
  - destruct Hfr. by split.
Qed.

Lemma last_use : in_use s b.
Proof using Hf Hpos. apply entry_use; [done|unfold last; lia]. Qed.

Lemma shrunk_direct :
  last < 12 -> shrunk (freed b s) (with_direct (arr_set (direct (din i)) last 0) (din i)).
Proof using Hok Hn Hf Hpos.
  intros Hk. assert (Hu := last_use). assert (Hl : 0 <= last) by (unfold last; lia). split; try done.
  - by apply freed_ok.
  - simpl. rewrite arr_set_length. apply (fo_direct _ _ Hf).
  - intros k Hk'. rewrite entry_direct; [|apply (fo_direct _ _ Hf)|lia..]. done.
  - intros j Hj. by apply released_free.
  - apply (frame_mono _ _ [b]); [set_solver|]. by apply frame_freed.
Qed.

Lemma shrunk_indirect buf :
  12 <= last -> is_block buf ->
  shrunk (freed b (written (indirect (din i)) (Z.to_nat (4 * (last - 12))) (le_bytes 4 0) (set_buffer buf s))) (din i).
Proof using Hok Hn Hf Hpos.
  intros Hk Hbuf. assert (Hu := last_use). assert (Hbl := fo_blocks _ _ Hf). assert (Hlast : last = blocks (din i) - 1) by done.
  assert (Hi : indirect (din i) <> 0).
  { intros Hz. destruct Hu as [Hr _]. unfold in_range, b, entry in Hr. rewrite Hz in Hr.
    replace (last <? 12) with false in Hr by lia. cbn [Z.eqb] in Hr. lia. }
  assert (Ht := table_use s (din i) Hf Hi). destruct Ht as [Htr Htf].
  set (s0 := set_buffer buf s). assert (Hok0 : disk_ok s0) by (by apply buffer_ok).
  assert (Hd : Forall is_u8 (le_bytes 4 0)) by apply le_bytes_u8.
  set (off := Z.to_nat (4 * (last - 12))).
  assert (Hoff : (off + length (le_bytes 4 0) <= 4096)%nat) by (rewrite length_le_bytes; unfold off; lia).
  set (s1 := written (indirect (din i)) off (le_bytes 4 0) s0).
  assert (Hok1 : disk_ok s1) by (by apply written_ok). assert (Hu1 : in_use s1 b) by exact Hu.
  split; try done.
  - by apply freed_ok.
  - apply (fo_direct _ _ Hf).
  - intros k Hk'. change (entry (freed b s1) (din i) k) with (entry s1 (din i) k).
    unfold s1, off. rewrite entry_written by (done || lia || width). by change (entry s0 (din i) k) with (entry s (din i) k).
  - intros j Hj. rewrite (released_free s1 b) by done. done.
  - apply (frame_trans s s1 _ [indirect (din i)] [b]); [|by apply frame_freed| |set_solver].
    + apply (frame_trans s s0 _ [] [indirect (din i)]); [apply (frame_buffer s)|by apply frame_written|set_solver|set_solver].
    + intros j ->%list_elem_of_singleton. apply elem_of_cons. right. by apply table_in.
Qed.

(** [sfs_bmap_free_nolock] of the last block. *)
Lemma bmap_free_last :
  exists s1 d1 dt, shrunk s1 d1 /\
    sfs_bmap_free_nolock n last s = Ret (0, set_sins (<[n := set_din d1 dt i]> (sins s)) s1).
Proof using KW Hok Hn Hf Hpos.
  assert (Hu := last_use). assert (Hbl := fo_blocks _ _ Hf). assert (Hlast : last = blocks (din i) - 1) by done.
  assert (Hr := proj1 Hu). unfold in_range in Hr.
  unfold sfs_bmap_free_nolock. rewrite (bind_Ret _ _ _ _ _ (load_sin_eq s n i Hn)). unfold SFS_NDIRECT. cbv zeta.
  destruct (Z.ltb_spec last 12) as [Hk|Hk].
  - eexists _, _, true. split; [by apply shrunk_direct|]. assert (Hb : arr_get (direct (din i)) last = b).
    { unfold b, entry. by replace (last <? 12) with true by lia. }
    rewrite Hb. replace (b =? 0) with false by lia. cbn [negb when].
    set (s2 := set_sins _ (freed b s)). rewrite (bind_Ret _ _ s tt s2); [done|].
    by rewrite (bind_Ret _ _ _ _ _ (sfs_block_free_eq s b Hok Hu)).
  - change SFS_BLK_NENTRY with 1024. replace (last - 12 <? 1024) with true by lia.
    assert (Hi : indirect (din i) <> 0).
    { intros Hz. unfold b, entry in Hr. rewrite Hz in Hr. replace (last <? 12) with false in Hr by lia. cbn [Z.eqb] in Hr. lia. }
    assert (Ht := table_use s (din i) Hf Hi). rewrite (proj2 (Z.eqb_neq _ _) Hi). cbn [negb].
    set (buf := blk s (indirect (din i))).
    assert (Hbuf : is_block buf) by (destruct Ht as [[? ?] _]; apply blk_block; [done|lia]).
    assert (Hsh := shrunk_indirect buf Hk Hbuf). eexists _, _, (dirty i). split; [exact Hsh|].
    unfold sfs_bmap_free_sub_nolock. rewrite (bind_Ret _ _ _ _ _ (in_use_eq s _ Hok Ht)).
    change SFS_BLK_NENTRY with 1024. replace (last - 12 <? 1024) with true by lia. cbn [andb].
    rewrite (bind_Ret _ _ s tt s) by done. cbv zeta.
    rewrite (bind_Ret _ _ _ _ _ (rbuf_u32_eq s _ (last - 12) Hok (proj1 Ht) ltac:(lia))). fold buf.
    assert (Hb : le_val (slice (Z.to_nat (4 * (last - 12))) 4 buf) = b).
    { unfold b, entry. replace (last <? 12) with false by lia. by rewrite (proj2 (Z.eqb_neq _ _) Hi). }
    rewrite Hb. cbn [fst snd negb Z.eqb]. replace (b =? 0) with false by lia. cbn [negb].
    set (s0 := set_buffer buf s) in *. assert (Hok0 : disk_ok s0) by (by apply buffer_ok).
    rewrite (bind_Ret _ _ _ _ _ (wbuf_u32_eq s0 0 (indirect (din i)) (last - 12) Hok0 (proj1 Ht) ltac:(lia))).
    cbn [negb Z.eqb]. set (s1 := written _ _ _ s0) in *.
    assert (Hok1 : disk_ok s1).
    { apply written_ok; [done|exact (proj1 Ht)|apply le_bytes_u8|rewrite length_le_bytes; lia]. }
    rewrite (bind_Ret _ _ _ _ _ (sfs_block_free_eq s1 b Hok1 Hu)).
    rewrite set_din_id, insert_id by done. done.
Qed.

(** [sfs_bmap_truncate_nolock] takes the last block away. *)
Lemma bmap_truncate_drop :
  exists s' d', sfs_bmap_truncate_nolock n s = Ret (0, s') /\ dropped s n i b s' d'.
Proof using KW Hok Hn Hf Hpos.
  destruct bmap_free_last as (s1 & d1 & dt & Hsh & Hr). eexists _, _. split; [|by apply (shrunk_close s1 d1)].
  unfold sfs_bmap_truncate_nolock. rewrite (bind_Ret _ _ _ _ _ (load_sin_eq s n i Hn)).
  replace (blocks (din i) =? 0) with false by lia. rewrite (bind_Ret _ _ s tt s) by done. fold last.
  rewrite (bind_Ret _ _ _ _ _ Hr). cbn [negb Z.eqb]. set (s2 := set_sins _ s1).
  assert (Hl : load_sin n s2 = Ret (set_din d1 dt i, s2)) by (apply load_sin_eq; apply lookup_insert_eq).
  rewrite (bind_Ret _ _ _ _ _ Hl). unfold put_sin, modify, mbind, M_bind, mret, M_ret. cbn [din set_din].
  rewrite (sh_blocks _ _ Hsh). fold last. unfold s2, set_sins. cbn. by rewrite insert_insert_eq.
Qed.

End Truncate.

End Map.
End SfsMap.
