(* ===== verification/SfsOps.v ===== *)
(** The operations of the on-disk file system on inodes (sfs_inode.c), its
    mounting and synchronisation (sfs_fs.c, sfs.c), and with them the instance
    of the interface of the VFS. *)

From S2P Require Import Prelude Bytes Mem Strings Heap Bitmap Iobuf Process Vfs Sfs.

Module SfsOps.
Import Strings.Strings Bitmap Iobuf Vfs.Vfs Sfs.

Definition E_ISDIR : Z := 17.
Definition S_IFREG : Z := 0x1000.
Definition S_IFLNK : Z := 0x3000.

Definition SFS_HLIST_SHIFT : Z := 10.
Definition SFS_HLIST_SIZE : Z := 1024.
Definition sin_hashfn (x : Z) : Z := Process.hash32 x SFS_HLIST_SHIFT.

(** 256 bytes, [sizeof] the name of an entry. *)
Definition sfs_dentry_size : Z := 256.

Section Ops.
  Context {D H : Type} `{BlockDev D} `{Heap H}.

Definition on_sheap {A} (m : M H A) : M (t D H) A := fun s =>
  match m (heap s) with
  | Ret (a, h) => Ret (a, set_heap h s) | Panic => Panic | Fault => Fault | Diverge => Diverge
  end.
#[global] Instance sfs_heap : Heap (t D H) := {
  kmalloc n := on_sheap (kmalloc n);
  kfree p := on_sheap (kfree p)
}.

Let E := env (t D H).

(** ** Loading an inode *)

(** Whether the inode's table is [sfs_node_dirops]; every other valid type has
    [sfs_node_fileops]. *)
Definition sfs_get_ops (ty : Z) : M E bool :=
  if ty =? SFS_TYPE_DIR then mret true else if ty =? SFS_TYPE_FILE then mret false else panic.

Definition sfs_hash_list (s : t D H) (ino : Z) : list Z :=
  default [] (hash_list s !! Z.to_nat (sin_hashfn ino)).

Definition sfs_set_links (node ino : Z) (s : t D H) : t D H :=
  set_lists (node :: inode_list s)
    (<[Z.to_nat (sin_hashfn ino) := node :: sfs_hash_list s ino]> (hash_list s)) s.

Definition unlink (node : Z) (l : list Z) : list Z := filter (fun n => n <> node) l.
Definition sfs_remove_links (node : Z) (s : t D H) : t D H :=
  set_lists (unlink node (inode_list s)) (unlink node <$> hash_list s) s.

Definition sfs_create_inode (d : sfs_disk_inode) (d_addr ino : Z) : M E (Z * Z) :=
  node ← __alloc_inode;
  if node =? 0 then mret (- E_NO_MEM, 0) else
  sfs_get_ops (type d);;
  s ← gets fsys;
  inode_init node false (fs_addr s);;
  on_heap (put_sin node (mk_sin d d_addr ino false 1));;
  mret (0, node).

Fixpoint lookup_loop (l : list Z) (i : Z) : M E Z :=
  match l with
  | [] => mret 0
  | node :: l =>
      sin ← on_heap (load_sin node);
      if ino sin =? i then
        c ← inode_ref_inc node;
        when (c =? 1) (on_heap (put_sin node
          (mk_sin (din sin) (din_addr sin) (ino sin) (dirty sin) (s32 (reclaim_count sin + 1)))));;
        mret node
      else lookup_loop l i
  end.
Definition lookup_sfs_nolock (ino : Z) : M E Z := s ← gets fsys; lookup_loop (sfs_hash_list s ino) ino.

(** The status and the inode. *)
Definition sfs_load_inode (ino : Z) : M E (Z * Z) :=
  node ← lookup_sfs_nolock ino;
  if negb (node =? 0) then mret (0, node) else
  d ← on_heap (kmalloc sizeof_din);
  if d =? 0 then mret (- E_NO_MEM, 0) else
  b ← on_heap (sfs_block_inuse ino);
  assert_ b;;
  r ← on_heap (sfs_rbuf (replicate 64 0) sizeof_din ino 0);
  if negb (r.1 =? 0) then on_heap (kfree d);; mret (r.1, 0) else
  let di := din_of r.2 in
  assert_ (negb (nlinks di =? 0));;
  c ← sfs_create_inode di d ino;
  if negb (c.1 =? 0) then on_heap (kfree d);; mret (c.1, 0) else
  on_heap (modify (sfs_set_links c.2 ino));;
  mret (0, c.2).

(** ** Directories *)

Fixpoint store_bytes (a : Z) (l : list Z) : M mem unit :=
  match l with [] => mret tt | b :: l => store a b;; store_bytes (a + 1) l end.

(** An operation on a buffer of [len] bytes at the address [buf]. *)
Definition mem_op (op : list Z -> M (t D H) (Z * list Z)) (buf len : Z) : M E Z :=
  b ← on_mem (load_bytes (Z.to_nat len) buf);
  r ← on_heap (op b);
  on_mem (store_bytes buf r.2);;
  mret r.1.

(** The name of the entry at the address [entry]. *)
Definition entry_name (entry : Z) : Z := entry + 4.
Definition entry_ino (entry : Z) : M E Z := b ← on_mem (load_bytes 4 entry); mret (le_val b).

Definition sfs_dirent_read_nolock (sin slot entry : Z) : M E Z :=
  i ← on_heap (load_sin sin);
  assert_ ((type (din i) =? SFS_TYPE_DIR) && (0 <=? slot) && (slot <? blocks (din i)));;
  r ← on_heap (sfs_bmap_load_nolock sin slot);
  if negb (r.1 =? 0) then mret r.1 else
  b ← on_heap (sfs_block_inuse r.2);
  assert_ b;;
  ret ← mem_op (fun b => sfs_rbuf b sizeof_entry r.2 0) entry sizeof_entry;
  if negb (ret =? 0) then mret ret else
  on_mem (store (entry_name entry + SFS_MAX_FNAME_LEN) 0);;
  mret 0.

(** The loop of [sfs_dirent_search_nolock] from the slot [i], [n] slots left:
    the status, [*ino_store], [*slot] and [*empty_slot]. *)
Fixpoint search_loop (n : nat) (sin name entry i empty : Z) : M E (Z * Z * Z * Z) :=
  match n with
  | O => mret (- E_NOENT, 0, 0, empty)
  | S n =>
      ret ← sfs_dirent_read_nolock sin i entry;
      if negb (ret =? 0) then mret (ret, 0, 0, empty) else
      e ← entry_ino entry;
      if e =? 0 then search_loop n sin name entry (i + 1) i else
      c ← on_mem (strcmp name (entry_name entry));
      if c =? 0 then mret (0, e, i, empty) else search_loop n sin name entry (i + 1) empty
  end.
Definition sfs_dirent_search_nolock (sin name : Z) : M E (Z * Z * Z * Z) :=
  len ← on_mem (strlen name);
  assert_ (len <=? SFS_MAX_FNAME_LEN);;
  entry ← on_heap (kmalloc sizeof_entry);
  if entry =? 0 then mret (- E_NO_MEM, 0, 0, 0) else
  i ← on_heap (load_sin sin);
  r ← search_loop (Z.to_nat (blocks (din i))) sin name entry 0 (blocks (din i));
  on_heap (kfree entry);;
  mret r.

Fixpoint findino_loop (n : nat) (sin ino entry i : Z) : M E Z :=
  match n with
  | O => mret (- E_NOENT)
  | S n =>
      ret ← sfs_dirent_read_nolock sin i entry;
      if negb (ret =? 0) then mret ret else
      e ← entry_ino entry;
      if e =? ino then mret 0 else findino_loop n sin ino entry (i + 1)
  end.
Definition sfs_dirent_findino_nolock (sin ino entry : Z) : M E Z :=
  i ← on_heap (load_sin sin);
  findino_loop (Z.to_nat (blocks (din i))) sin ino entry 0.

(** The status, the inode and the slot. *)
Definition sfs_lookup_once (sin name : Z) : M E (Z * Z * Z) :=
  r ← sfs_dirent_search_nolock sin name;
  if r.1.1.1 =? 0 then l ← sfs_load_inode r.1.1.2; mret (l.1, l.2, r.1.2)
  else mret (r.1.1.1, 0, 0).

(** ** Opening and closing *)

Definition sfs_opendir (node open_flags : Z) : M E Z :=
  if negb (Z.land open_flags O_ACCMODE =? O_RDONLY) then mret (- E_ISDIR) else
  if negb (Z.land open_flags O_APPEND =? 0) then mret (- E_ISDIR) else mret 0.

Definition sfs_openfile (node open_flags : Z) : M E Z := mret 0.

Definition sfs_fsync (node : Z) : M E Z :=
  i ← on_heap (load_sin node);
  if dirty i then
    on_heap (put_sin node (set_din (din i) false i));;
    r ← on_heap (sfs_wbuf (din_bytes (din i)) sizeof_din (ino i) 0);
    when (negb (r.1 =? 0))
      (on_heap (j ← load_sin node; put_sin node (set_din (din j) true j)));;
    mret r.1
  else mret 0.

Definition sfs_close (node : Z) : M E Z := vop_known sfs_fsync node.

(** ** Reading and writing *)

(** A part of [sfs_io_nolock]: [op] on the block [index] of the file and [len]
    bytes of the buffer; the new [bufptr]. *)
Definition io_part (sin index bufptr len : Z) (op : Z -> list Z -> M (t D H) (Z * list Z)) : M E Z :=
  r ← on_heap (sfs_bmap_load_nolock sin index);
  assert_ (r.1 =? 0);;
  ret ← mem_op (op r.2) bufptr len;
  assert_ (ret =? 0);;
  mret (bufptr + len).

(** The transfer of the bytes from [offset] to [endpos]: the first block from
    its offset, the whole blocks, the beginning of the last block; the last
    [bufptr]. *)
Definition io_parts (sin buf offset endpos : Z)
    (sfs_buf_op : list Z -> Z -> Z -> Z -> M (t D H) (Z * list Z))
    (sfs_block_op : list Z -> Z -> Z -> M (t D H) (Z * list Z)) : M E Z :=
  let blkno := offset / SFS_BLKSIZE in
  let nblks := endpos / SFS_BLKSIZE - blkno in
  let blkoff := offset `mod` SFS_BLKSIZE in
  let blkend := endpos `mod` SFS_BLKSIZE in
  r ← (if 0 <? blkoff then
         let blklen := if 0 <? nblks then SFS_BLKSIZE - blkoff else endpos - offset in
         p ← io_part sin blkno buf blklen (fun ino b => sfs_buf_op b blklen ino blkoff);
         mret (p, blkno + 1, if 0 <? nblks then nblks - 1 else nblks, negb (0 <? nblks))
       else mret (buf, blkno, nblks, false));
  let '(bufptr, blkno, nblks, single) := r in
  bufptr ← (if 0 <? nblks then
              io_part sin blkno bufptr (nblks * SFS_BLKSIZE) (fun ino b => sfs_block_op b ino nblks)
            else mret bufptr);
  if negb single && (0 <? blkend) then
    io_part sin (endpos / SFS_BLKSIZE) bufptr blkend (fun ino b => sfs_buf_op b blkend ino 0)
  else mret bufptr.

Definition sfs_io_nolock (sin buf offset alen : Z) (write : bool) : M E (Z * Z) :=
  i ← on_heap (load_sin sin);
  assert_ (negb (type (din i) =? SFS_TYPE_DIR));;
  let endpos := s32 (offset + alen) in
  if (offset <? 0) || (SFS_MAX_FILE_SIZE <=? offset) || (endpos <? offset) then mret (- E_INVAL, 0) else
  if offset =? endpos then mret (0, 0) else
  let endpos := if SFS_MAX_FILE_SIZE <? endpos then SFS_MAX_FILE_SIZE else endpos in
  if negb write && (size (din i) <=? offset) then mret (0, 0) else
  let endpos := if negb write && (size (din i) <? endpos) then size (din i) else endpos in
  bufptr ← (if write then io_parts sin buf offset endpos sfs_wbuf sfs_wblock
            else io_parts sin buf offset endpos sfs_rbuf sfs_rblock);
  let alen := bufptr - buf in
  i ← on_heap (load_sin sin);
  when (size (din i) <? offset + alen)
    (on_heap (put_sin sin (set_din (with_size (offset + alen) (din i)) true i)));;
  mret (0, alen).

Definition sfs_io (node : Z) (iob : iobuf) (write : bool) : M E (Z * iobuf) :=
  r ← sfs_io_nolock node (io_base iob) (io_offset iob) (io_resid iob) write;
  iob ← (if negb (r.2 =? 0) then on_mem (iobuf_skip iob r.2) else mret iob);
  mret (r.1, iob).
Definition sfs_read (node : Z) (iob : iobuf) : M E (Z * iobuf) := sfs_io node iob false.
Definition sfs_write (node : Z) (iob : iobuf) : M E (Z * iobuf) := sfs_io node iob true.

(** ** Attributes and size *)

Definition sfs_gettype (node : Z) : M E (Z * Z) :=
  i ← on_heap (load_sin node);
  if type (din i) =? SFS_TYPE_DIR then mret (0, S_IFDIR) else
  if type (din i) =? SFS_TYPE_FILE then mret (0, S_IFREG) else
  if type (din i) =? SFS_TYPE_LINK then mret (0, S_IFLNK) else panic.

Definition sfs_fstat (node : Z) : M E (Z * stat) :=
  r ← vop_known sfs_gettype node;
  if negb (r.1 =? 0) then mret (r.1, mk_stat 0 0 0 0) else
  i ← on_heap (load_sin node);
  mret (0, mk_stat r.2 (nlinks (din i)) (blocks (din i)) (size (din i))).

(** The two loops of [sfs_truncfile]. *)
Fixpoint enlarge_loop (n : nat) (sin nblks : Z) : M (t D H) Z :=
  match n with
  | O => mret 0
  | S n =>
      r ← sfs_bmap_load_nolock sin nblks;
      if negb (r.1 =? 0) then mret r.1 else enlarge_loop n sin (u32 (nblks + 1))
  end.
Fixpoint reduce_loop (n : nat) (sin : Z) : M (t D H) Z :=
  match n with
  | O => mret 0
  | S n =>
      r ← sfs_bmap_truncate_nolock sin;
      if negb (r =? 0) then mret r else reduce_loop n sin
  end.

Definition truncfile (node len : Z) : M (t D H) Z :=
  if (len <? 0) || (SFS_MAX_FILE_SIZE <? len) then mret (- E_INVAL) else
  i ← load_sin node;
  let tblks := ROUNDUP_DIV len SFS_BLKSIZE in
  let nblks := blocks (din i) in
  if size (din i) =? len then assert_ (tblks =? nblks);; mret 0 else
  ret ← (if nblks <? tblks then enlarge_loop (Z.to_nat (tblks - nblks)) node nblks
         else reduce_loop (Z.to_nat (nblks - tblks)) node);
  if negb (ret =? 0) then mret ret else
  i ← load_sin node;
  assert_ (blocks (din i) =? tblks);;
  put_sin node (set_din (with_size len (din i)) true i);;
  mret 0.
Definition sfs_truncfile (node len : Z) : M E Z := on_heap (truncfile node len).

(** [vop_truncate]: the table of a directory has no such operation. *)
Definition vop_truncate (node len : Z) : M E Z :=
  i ← on_heap (load_sin node);
  dir ← sfs_get_ops (type (din i));
  assert_ (negb dir);;
  vop_known (fun n => sfs_truncfile n len) node.

Definition sfs_tryseek (node pos : Z) : M E Z :=
  if (pos <? 0) || (SFS_MAX_FILE_SIZE <=? pos) then mret (- E_INVAL) else
  i ← on_heap (load_sin node);
  if size (din i) <? pos then vop_truncate node pos else mret 0.

(** ** Releasing an inode *)

Definition sfs_reclaim (node : Z) : M E Z :=
  i ← on_heap (load_sin node);
  assert_ (0 <? reclaim_count i);;
  on_heap (put_sin node (mk_sin (din i) (din_addr i) (ino i) (dirty i) (reclaim_count i - 1)));;
  n ← load_inode node;
  if negb (reclaim_count i - 1 =? 0) || negb (ref_count n =? 0) then mret (- E_BUSY) else
  ret ← (if nlinks (din i) =? 0 then vop_truncate node 0 else mret 0);
  if negb (ret =? 0) then mret ret else
  i ← on_heap (load_sin node);
  ret ← (if dirty i then vop_known sfs_fsync node else mret 0);
  if negb (ret =? 0) then mret ret else
  on_heap (modify (sfs_remove_links node));;
  i ← on_heap (load_sin node);
  when (nlinks (din i) =? 0)
    (on_heap (sfs_block_free (ino i));;
     when (negb (indirect (din i) =? 0)) (on_heap (sfs_block_free (indirect (din i)))));;
  on_heap (kfree (din_addr i));;
  on_heap (modify (fun s => set_sins (delete node (sins s)) s));;
  inode_kill node;;
  mret 0.

(** [vop_ref_dec] *)
Definition sfs_ref_dec (node : Z) : M E Z := ref_dec (vop_known sfs_reclaim) node.

(** ** Names *)

Definition sfs_lookup (node path : Z) : M E (Z * Z) :=
  c ← on_mem (load path);
  assert_ (negb (c =? 0) && negb (c =? 47));;
  inode_ref_inc node;;
  i ← on_heap (load_sin node);
  if negb (type (din i) =? SFS_TYPE_DIR) then sfs_ref_dec node;; mret (- E_NOTDIR, 0) else
  r ← sfs_lookup_once node path;
  sfs_ref_dec node;;
  if negb (r.1.1 =? 0) then mret (r.1.1, 0) else mret (0, r.1.2).

Fixpoint dirent_loop (n : nat) (sin slot entry i : Z) : M E Z :=
  match n with
  | O => mret (- E_NOENT)
  | S n =>
      ret ← sfs_dirent_read_nolock sin i entry;
      if negb (ret =? 0) then mret ret else
      e ← entry_ino entry;
      if negb (e =? 0) then if slot =? 0 then mret 0 else dirent_loop n sin (slot - 1) entry (i + 1)
      else dirent_loop n sin slot entry (i + 1)
  end.
Definition sfs_getdirentry_sub_nolock (sin slot entry : Z) : M E Z :=
  i ← on_heap (load_sin sin);
  dirent_loop (Z.to_nat (blocks (din i))) sin slot entry 0.

Definition sfs_getdirentry (node : Z) (iob : iobuf) : M E (Z * iobuf) :=
  entry ← on_heap (kmalloc sizeof_entry);
  if entry =? 0 then mret (- E_NO_MEM, iob) else
  i ← on_heap (load_sin node);
  let offset := io_offset iob in
  if (offset <? 0) || negb (offset `mod` sfs_dentry_size =? 0) then
    on_heap (kfree entry);; mret (- E_INVAL, iob) else
  let slot := offset / sfs_dentry_size in
  if blocks (din i) <? slot then on_heap (kfree entry);; mret (- E_NOENT, iob) else
  ret ← sfs_getdirentry_sub_nolock node slot entry;
  r ← (if negb (ret =? 0) then mret (ret, iob) else
       m ← on_mem (iobuf_move iob (entry_name entry) sfs_dentry_size true); mret (m.1.1, m.2));
  on_heap (kfree entry);;
  mret r.

(** The loop of [sfs_namefile]: the status, [node], [ptr] and [resid].  Its
    rounds are bounded by [fuel]: the name does not grow past [resid]. *)
Fixpoint namefile_loop (fuel : nat) (node dotdot entry ptr resid : Z) : M E (Z * Z * Z * Z) :=
  match fuel with
  | O => diverge
  | S fuel =>
      l ← sfs_lookup_once node dotdot;
      if negb (l.1.1 =? 0) then mret (l.1.1, node, ptr, resid) else
      let parent := l.1.2 in
      i ← on_heap (load_sin node);
      sfs_ref_dec node;;
      if node =? parent then sfs_ref_dec node;; mret (0, node, ptr, resid) else
      p ← on_heap (load_sin parent);
      assert_ (negb (ino i =? ino p) && (type (din p) =? SFS_TYPE_DIR));;
      ret ← sfs_dirent_findino_nolock parent (ino i) entry;
      if negb (ret =? 0) then mret (ret, parent, ptr, resid) else
      len ← on_mem (strlen (entry_name entry));
      let alen := len + 1 in
      if resid <? alen then mret (- E_NO_MEM, parent, ptr, resid) else
      on_mem (memcpy (ptr - alen) (entry_name entry) (alen - 1));;
      on_mem (store (ptr - 1) 47);;
      namefile_loop fuel parent dotdot entry (ptr - alen) (resid - alen)
  end.

(** [dotdot] is the address of the literal "..". *)
Definition sfs_namefile (dotdot node : Z) (iob : iobuf) : M E (Z * iobuf) :=
  if io_resid iob <=? 2 then mret (- E_NO_MEM, iob) else
  entry ← on_heap (kmalloc sizeof_entry);
  if entry =? 0 then mret (- E_NO_MEM, iob) else
  inode_ref_inc node;;
  r ← namefile_loop (S (Z.to_nat (io_resid iob))) node dotdot entry
        (io_base iob + io_resid iob) (io_resid iob - 2);
  let '(ret, node, ptr, resid) := r in
  if negb (ret =? 0) then sfs_ref_dec node;; on_heap (kfree entry);; mret (ret, iob) else
  let alen := io_resid iob - resid - 2 in
  on_mem (memmove (io_base iob + 1) ptr alen);;
  on_mem (store (io_base iob) 47);;
  on_mem (store (io_base iob + 1 + alen) 0);;
  iob ← on_mem (iobuf_skip iob alen);
  on_heap (kfree entry);;
  mret (0, iob).

(** ** The file system (sfs_fs.c) *)

Fixpoint fsync_all (l : list Z) : M E unit :=
  match l with [] => mret tt | node :: l => vop_known sfs_fsync node;; fsync_all l end.

(** The part of [sfs_sync] after the inodes. *)
Definition sync_meta : M (t D H) Z :=
  s ← get;
  if super_dirty s then
    modify (set_super_dirty false);;
    ret ← sfs_sync_super;
    if negb (ret =? 0) then modify (set_super_dirty true);; mret ret else
    ret ← sfs_sync_freemap;
    if negb (ret =? 0) then modify (set_super_dirty true);; mret ret else mret 0
  else mret 0.
Definition sfs_sync (fs : Z) : M E Z :=
  s ← gets fsys; fsync_all (inode_list s);; on_heap sync_meta.

Definition sfs_get_root (fs : Z) : M E Z :=
  r ← sfs_load_inode SFS_BLKN_ROOT; if negb (r.1 =? 0) then panic else mret r.2.

Definition set_fs_addr x (s : t D H) : t D H := mk x (super s) (freemap s) (super_dirty s) (sfs_buffer s)
  (buffer_addr s) (inode_list s) (hash_list s) (hash_addr s) (sins s) (dev s) (heap s).

Definition sfs_unmount (fs : Z) : M E Z :=
  s ← gets fsys;
  if negb (bool_decide (inode_list s = [])) then mret (- E_BUSY) else
  assert_ (negb (super_dirty s));;
  on_heap (bitmap_destroy (freemap s));;
  on_heap (kfree (buffer_addr s));;
  on_heap (kfree (hash_addr s));;
  on_heap (kfree (fs_addr s));;
  on_heap (modify (set_fs_addr 0));;
  mret 0.

Fixpoint sync_times (n : nat) (fs : Z) : M E unit :=
  match n with O => mret tt | S n => r ← sfs_sync fs; if r =? 0 then mret tt else sync_times n fs end.
Definition sfs_cleanup (fs : Z) : M E unit := sync_times 32 fs.

(** The block and the status. *)
Definition sfs_init_read (blkno : Z) (buf : list Z) : M (t D H) (Z * list Z) :=
  on_dev (dop_io (s32 (u32 (blkno * SFS_BLKSIZE))) buf false).

(** The loop of [sfs_init_freemap] with [n] blocks left and the rest of the
    data. *)
Fixpoint init_freemap_loop (n : nat) (blkno : Z) (data : list Z) : M (t D H) (Z * list Z) :=
  match n with
  | O => mret (0, data)
  | S n =>
      r ← sfs_init_read blkno (take 4096 data);
      if negb (r.1 =? 0) then mret (r.1, r.2 ++ drop 4096 data) else
      q ← init_freemap_loop n (u32 (blkno + 1)) (drop 4096 data);
      mret (q.1, r.2 ++ q.2)
  end.
Definition sfs_init_freemap (b : bitmap) (blkno nblks : Z) : M (t D H) (Z * bitmap) :=
  let len := (bitmap_getdata b).2 in
  assert_ (negb ((bitmap_getdata b).1 =? 0) && (len =? u32 (nblks * SFS_BLKSIZE)));;
  r ← init_freemap_loop (Z.to_nat nblks) blkno (words_bytes (map b));
  mret (r.1, set_map (words_of (length (map b)) r.2) b).

(** The loop that counts the free blocks from [i] on. *)
Fixpoint count_free (n : nat) (i unused : Z) : M bitmap Z :=
  match n with
  | O => mret unused
  | S n => b ← bitmap_test i; count_free n (i + 1) (if b =? 0 then unused else unused + 1)
  end.

(** 108 bytes of [sfs_fs] and five words. *)
Definition sizeof_fs : Z := 128.

(** The part of [sfs_do_mount] after the hash lists: the free map. *)
Definition mount_freemap (sb : sfs_super) : M (t D H) (Z * option bitmap) :=
  o ← bitmap_create (sfs_freemap_bits sb);
  match o with
  | None => mret (- E_NO_MEM, None)
  | Some b =>
      r ← sfs_init_freemap b SFS_BLKN_FREEMAP (sfs_freemap_blocks sb);
      if negb (r.1 =? 0) then bitmap_destroy r.2;; mret (r.1, None) else
      modify (set_freemap r.2);;
      unused ← on_freemap (count_free (Z.to_nat (sfs_freemap_bits sb)) 0 0);
      assert_ (unused =? unused_blocks sb);;
      mret (0, Some r.2)
  end.

(** The status and the [struct fs]. *)
Definition do_mount : M (t D H) (Z * Z) :=
  s ← get;
  if negb (d_blocksize (dev s) =? SFS_BLKSIZE) then mret (- E_NA_DEV, 0) else
  fs ← kmalloc sizeof_fs;
  if fs =? 0 then mret (- E_NO_MEM, 0) else
  buffer ← kmalloc SFS_BLKSIZE;
  if buffer =? 0 then kfree fs;; mret (- E_NO_MEM, 0) else
  r ← sfs_init_read SFS_BLKN_SUPER (replicate 4096 0);
  let fail ret := kfree buffer;; kfree fs;; mret (ret, 0) in
  if negb (r.1 =? 0) then fail r.1 else
  let sb := super_of r.2 in
  if negb (magic sb =? SFS_MAGIC) then fail (- E_INVAL) else
  if d_blocks (dev s) <? sblocks sb then fail (- E_INVAL) else
  let sb := mk_super (magic sb) (sblocks sb) (unused_blocks sb) (arr_set (info sb) SFS_MAX_INFO_LEN 0) in
  hash ← kmalloc (8 * SFS_HLIST_SIZE);
  if hash =? 0 then fail (- E_NO_MEM) else
  f ← mount_freemap sb;
  match f.2 with
  | None => kfree hash;; fail f.1
  | Some b =>
      s ← get;
      put (mk fs sb b false (splice 12 (info sb) r.2) buffer [] (replicate (Z.to_nat SFS_HLIST_SIZE) []) hash ∅ (dev s) (heap s));;
      mret (0, fs)
  end.
Definition sfs_do_mount (devnode : Z) : M E (Z * Z) := on_heap do_mount.

End Ops.
End SfsOps.
