(* ===== verification/SfsFile.v ===== *)
(** Files of the on-disk file system: the invariant of all inodes in memory,
    the bytes of a file, and changes of its size. *)

From S2P Require Import Prelude Bytes Mem Heap Bitmap Iobuf Vfs Sfs SfsSpec SfsMap SfsOps.

Module SfsFile.
Import Bitmap Sfs SfsSpec SfsMap SfsOps.

Section File.
  Context {D H : Type} `{DiskLaws D} `{KW : !KeepsWrites D} `{Heap H}.

Let st := t D H.

(** ** The invariant *)

(** The blocks of an inode: its own and those of its file. *)
Definition owned (s : st) (i : sfs_inode) : list Z := ino i :: own s (din i).

Record fs_ok (s : st) : Prop := {
  fs_disk : disk_ok s;
  fs_file n i : sins s !! n = Some i -> file_ok s (din i);
  fs_ino n i : sins s !! n = Some i -> in_use s (ino i) /\ ino i ∉ own s (din i);
  fs_apart n1 n2 i1 i2 j : n1 <> n2 -> sins s !! n1 = Some i1 -> sins s !! n2 = Some i2 ->
    j ∈ owned s i1 -> j ∉ owned s i2
}.

Lemma owned_use s n i j : fs_ok s -> sins s !! n = Some i -> j ∈ owned s i -> in_use s j.
Proof.
  intros Hok Hn [->|Hj]%elem_of_cons; [by apply (fs_ino _ Hok n i Hn)|].
  assert (Hu := fo_use _ _ (fs_file _ Hok n i Hn)). rewrite Forall_forall in Hu. by apply Hu.
Qed.

(** A change of the file of one inode. *)
Record changed (s : st) (n : Z) (i : sfs_inode) (s' : st) (d' : sfs_disk_inode) (dt : bool) : Prop := {
  ch_sins : sins s' = <[n := set_din d' dt i]> (sins s);
  ch_ok : disk_ok s';
  ch_file : file_ok s' d';
  ch_frame : frame s s' (own s (din i));
  ch_own j : j ∈ own s' d' -> j ∈ own s (din i) \/ (0 <= j /\ free (freemap s) j = true)
}.

(** The other inodes keep their files, and the invariant holds. *)
Lemma changed_ok s n i s' d' dt : fs_ok s -> sins s !! n = Some i -> changed s n i s' d' dt -> fs_ok s'.
Proof.
  intros Hok Hn [Hs Hd Hf Hfr Ho].
  assert (Hino := fs_ino _ Hok n i Hn).
  assert (Hother : forall m k, m <> n -> sins s !! m = Some k ->
    owned s' k = owned s k /\ file_ok s' (din k) /\ in_use s' (ino k)).
  { intros m k Hm Hk. assert (Hdis : forall j, j ∈ owned s k -> j ∉ own s (din i)).
    { intros j Hj Hx. apply (fs_apart _ Hok m n k i j Hm Hk Hn Hj). apply elem_of_cons. by right. }
    destruct (file_frame s s' (din k) (own s (din i)) (fs_file _ Hok m k Hk) Hfr) as [Ho' Hf'].
    { intros j Hj. apply Hdis. apply elem_of_cons. by right. }
    unfold owned. rewrite Ho'. split_and!; [done..|].
    apply (fr_use _ _ _ Hfr); [by apply (fs_ino _ Hok m k Hk)|]. apply Hdis. apply elem_of_cons. by left. }
  assert (Hsame : forall j, j ∈ owned s' (set_din d' dt i) -> j ∈ owned s i \/ (0 <= j /\ free (freemap s) j = true)).
  { intros j [->|Hj]%elem_of_cons; [left; apply elem_of_cons; by left|].
    destruct (Ho j Hj) as [?|?]; [left; apply elem_of_cons; by right|by right]. }
  assert (Hcross : forall m k j, m <> n -> sins s !! m = Some k -> j ∈ owned s' k -> j ∉ owned s' (set_din d' dt i)).
  { intros m k j Hm Hk Hj Hx. destruct (Hother m k Hm Hk) as [He _]. rewrite He in Hj.
    destruct (Hsame j Hx) as [Hi|[_ Hi]]; [by apply (fs_apart _ Hok m n k i j)|].
    destruct (owned_use s m k j Hok Hk Hj). congruence. }
  split.
  - done.
  - intros m k Hm. rewrite Hs in Hm. apply lookup_insert_Some in Hm as [[<- <-]|[Hne Hm]]; [done|]. by apply (Hother m k).
  - intros m k Hm. rewrite Hs in Hm. apply lookup_insert_Some in Hm as [[<- <-]|[Hne Hm]].
    + simpl. split; [apply (fr_use _ _ _ Hfr); apply Hino|]. intros Hx. destruct (Ho _ Hx) as [?|[_ Hfree]]; [tauto|].
      destruct Hino as [[_ ?] _]. congruence.
    + destruct (Hother m k) as (He & _ & Hu); [done..|]. split; [done|]. unfold owned in He. injection He as He.
      rewrite He. by apply (fs_ino _ Hok m k Hm).
  - intros n1 n2 i1 i2 j Hne Hx1 Hx2 Hj1 Hj2. rewrite Hs in Hx1, Hx2.
    apply lookup_insert_Some in Hx1 as [[<- <-]|[Hn1 Hx1]], Hx2 as [[<- <-]|[Hn2 Hx2]]; [done| | |].
    + by apply (Hcross n2 i2 j).
    + by apply (Hcross n1 i1 j).
    + destruct (Hother n1 i1) as [He1 _]; [done..|]. destruct (Hother n2 i2) as [He2 _]; [done..|].
      rewrite He1 in Hj1. rewrite He2 in Hj2. by apply (fs_apart _ Hok n1 n2 i1 i2 j).
Qed.

Lemma changed_id (s : st) n i :
  disk_ok s -> sins s !! n = Some i -> file_ok s (din i) -> changed s n i s (din i) (dirty i).
Proof.
  intros Hok Hn Hf. split; [by rewrite set_din_id, insert_id|done|done|apply frame_refl|auto].
Qed.

Lemma changed_refl s n i : fs_ok s -> sins s !! n = Some i -> changed s n i s (din i) (dirty i).
Proof. intros Hok Hn. apply changed_id; [apply Hok|done|by apply (fs_file _ Hok n)]. Qed.

Lemma set_din_set d1 d2 b1 b2 i : set_din d2 b2 (set_din d1 b1 i) = set_din d2 b2 i.
Proof. done. Qed.

Lemma changed_trans s n i s1 d1 b1 s2 d2 b2 :
  disk_ok s -> changed s n i s1 d1 b1 -> changed s1 n (set_din d1 b1 i) s2 d2 b2 -> changed s n i s2 d2 b2.
Proof.
  intros Hok [Hs1 Hok1 Hf1 Hfr1 Ho1] [Hs2 Hok2 Hf2 Hfr2 Ho2]. split; [|done|done| |].
  - by rewrite Hs2, Hs1, insert_insert_eq, set_din_set.
  - apply (frame_trans s s1 s2 (own s (din i)) (own s1 d1)); [done..|].
    intros j Hj [_ Hu]. destruct (Ho1 j Hj) as [?|[_ Hx]]; [done|congruence].
  - intros j Hj. destruct (Ho2 j Hj) as [Hj1|[H0j Hfree1]]; [by apply Ho1|].
    destruct (free (freemap s) j) eqn:E; [by right|left].
    destruct (decide (j ∈ own s (din i))) as [?|Hn]; [done|]. exfalso.
    assert (Hr : in_range s j).
    { assert (Hr1 := ok_free _ Hok1 j H0j Hfree1). unfold in_range in *. by rewrite (fr_super _ _ _ Hfr1) in Hr1. }
    destruct (fr_use _ _ _ Hfr1 j (conj Hr E) Hn) as [[_ Hx] _]. congruence.
Qed.

Lemma appended_changed s n i b s' d' dt : file_ok s (din i) -> appended s n i b s' d' dt -> changed s n i s' d' dt.
Proof.
  intros Hf Ha. split; [apply Ha|apply Ha|apply Ha| |by apply (ap_own _ _ _ _ _ _ _ Ha)].
  apply (frame_mono _ _ (table (din i))); [|apply Ha]. intros j Hj. apply elem_of_app. by left.
Qed.

Lemma dropped_changed s n i b s' d' : dropped s n i b s' d' -> changed s n i s' d' true.
Proof.
  intros Hd. assert (Hm := dr_map _ _ _ _ _ _ Hd).
  assert (Ht : table d' = table (din i)) by (unfold table; by rewrite (dr_indirect _ _ _ _ _ _ Hd)).
  split; [apply Hd|apply Hd|apply Hd| |].
  - apply (frame_mono _ _ (b :: table (din i))); [|apply Hd]. unfold own. rewrite Hm. set_solver.
  - intros j Hj. left. unfold own in *. rewrite Hm. rewrite Ht in Hj. set_solver.
Qed.

(** The state without a change of files. *)
Lemma kept_changed s n i s' : fs_ok s -> sins s !! n = Some i -> kept s s' -> changed s n i s' (din i) (dirty i).
Proof.
  intros Hok Hn [Hok' Hs Hm Hfr]. destruct (file_frame s s' (din i) [] (fs_file _ Hok n i Hn) Hfr) as [Ho Hf]; [set_solver|].
  split; [by rewrite set_din_id, insert_id by done|done|done| |].
  - apply (frame_mono _ _ []); [set_solver|done].
  - rewrite Ho. auto.
Qed.

(** ** The bytes of a file *)

Definition data (s : st) (d : sfs_disk_inode) : list Z := mjoin (blk s <$> file_blocks s d).

Lemma data_frame (s s' : st) d X :
  file_ok s d -> frame s s' X -> (forall j, j ∈ file_blocks s d -> j ∉ X) -> blk s' <$> file_blocks s d = blk s <$> file_blocks s d.
Proof.
  intros Hf Hfr Hx. assert (Hu := fo_use _ _ Hf). rewrite Forall_forall in Hu.
  apply list_fmap_ext. intros ? j Hj%list_elem_of_lookup_2. apply (fr_use _ _ _ Hfr); [|by apply Hx].
  apply Hu. apply elem_of_app. by right.
Qed.

Lemma table_apart (s : st) d j : file_ok s d -> j ∈ file_blocks s d -> j ∉ table d.
Proof. intros Hf Hj Ht. assert (Hn := fo_nodup _ _ Hf). apply NoDup_app in Hn as (_ & Hd & _). by apply (Hd j). Qed.

Lemma appended_data s n i b s' d' dt :
  file_ok s (din i) -> appended s n i b s' d' dt -> data s' d' = data s (din i) ++ zero_block.
Proof.
  intros Hf Ha. unfold data. rewrite (ap_map _ _ _ _ _ _ _ Ha), fmap_app, join_app. f_equal.
  - f_equal. apply (data_frame s s' _ (table (din i)) Hf (ap_frame _ _ _ _ _ _ _ Ha)). intros j Hj. by apply (table_apart s).
  - cbn. by rewrite (ap_zero _ _ _ _ _ _ _ Ha), app_nil_r.
Qed.

Lemma dropped_data s n i b s' d' :
  file_ok s (din i) -> dropped s n i b s' d' -> data s (din i) = data s' d' ++ blk s b.
Proof.
  intros Hf Hd. assert (Hm := dr_map _ _ _ _ _ _ Hd). unfold data. rewrite Hm, fmap_app, join_app. f_equal; [|apply app_nil_r].
  f_equal. assert (Hu := fo_use _ _ Hf). rewrite Forall_forall in Hu.
  symmetry. apply list_fmap_ext. intros ? j Hj%list_elem_of_lookup_2.
  assert (Hin : j ∈ file_blocks s (din i)) by (rewrite Hm; apply elem_of_app; by left).
  apply (fr_use _ _ _ (dr_frame _ _ _ _ _ _ Hd)); [apply Hu; apply elem_of_app; by right|].
  intros [->|Ht]%elem_of_cons; [|by apply (table_apart s (din i) j)].
  assert (Hn := fo_nodup _ _ Hf). apply NoDup_app in Hn as (_ & _ & Hn). rewrite Hm in Hn.
  apply NoDup_app in Hn as (_ & Hx & _). apply (Hx b Hj). set_solver.
Qed.

Lemma length_data s d : disk_ok s -> file_ok s d -> length (data s d) = (4096 * Z.to_nat (blocks d))%nat.
Proof.
  intros Hok Hf. unfold data. rewrite <- (length_file_blocks s d).
  assert (Hu : Forall (in_use s) (file_blocks s d)).
  { assert (Hu := fo_use _ _ Hf). unfold own in Hu. apply Forall_app in Hu. apply Hu. }
  induction Hu as [|j l [Hr _] _ IH]; [done|]. rewrite fmap_cons. change (mjoin (blk s j :: (blk s <$> l))) with (blk s j ++ mjoin (blk s <$> l)). rewrite length_app, IH. cbn [length].
  unfold in_range in Hr. destruct (blk_block s j Hok ltac:(lia)) as [-> _]. lia.
Qed.

Lemma kept_data (s s' : st) d : file_ok s d -> kept s s' -> data s' d = data s d.
Proof.
  intros Hf Hk. assert (Hfr := kp_frame _ _ Hk). destruct (file_frame s s' d [] Hf Hfr) as [Ho _]; [set_solver|].
  unfold own in Ho. apply app_inv_head in Ho. unfold data. rewrite Ho. f_equal.
  apply (data_frame s s' d [] Hf Hfr). set_solver.
Qed.

(** ** Changing the size *)

Lemma changed_size (s : st) n i s1 d1 b1 len :
  changed s n i s1 d1 b1 ->
  let s2 := set_sins (<[n := set_din (with_size len d1) true (set_din d1 b1 i)]> (sins s1)) s1 in
  changed s n i s2 (with_size len d1) true.
Proof.
  intros [Hs Hok Hf Hfr Ho] s2. split.
  - simpl. by rewrite Hs, insert_insert_eq.
  - by destruct Hok; split.
  - destruct Hf. by split.
  - destruct Hfr. by split.
  - exact Ho.
Qed.

Definition zeros (n : Z) : list Z := replicate (Z.to_nat n) 0.

Lemma zeros_S k : 0 <= k -> zeros (4096 * (k + 1)) = zero_block ++ zeros (4096 * k).
Proof.
  intros Hk. unfold zeros, zero_block. rewrite <- replicate_add. f_equal. lia.
Qed.

(** How many free blocks [m] more blocks take: themselves and, where the file
    has none yet and needs it, the table of indirect blocks. *)
Definition demand (d : sfs_disk_inode) (m : Z) : Z :=
  m + if (12 <? blocks d + m) && (indirect d =? 0) then 1 else 0.

Lemma demand_next d d' m :
  0 <= m -> blocks d' = blocks d + 1 -> (indirect d' =? 0) = (indirect d =? 0) && (blocks d <? 12) ->
  demand d (m + 1) = Z.of_nat (needed d) + demand d' m.
Proof.
  intros Hm Hb Hi. unfold demand, needed. rewrite Hi, Hb. replace (blocks d + 1 + m) with (blocks d + (m + 1)) by lia.
  destruct (indirect d =? 0); cbn [andb]; [|rewrite !andb_false_r; lia]. rewrite !andb_true_r.
  destruct (Z.ltb_spec (blocks d) 12), (Z.leb_spec 12 (blocks d)), (Z.ltb_spec 12 (blocks d + (m + 1)));
    cbn [andb]; lia.
Qed.

Lemma needed_demand d m : 0 <= m -> Z.of_nat (needed d) <= demand d (m + 1).
Proof.
  intros Hm. unfold demand, needed. destruct (indirect d =? 0); [rewrite !andb_true_r|rewrite !andb_false_r; lia].
  destruct (Z.leb_spec 12 (blocks d)), (Z.ltb_spec 12 (blocks d + (m + 1))); lia.
Qed.

(** The loop that appends [m] blocks. *)
Lemma enlarge_spec n m : forall (s : st) i,
  fs_ok s -> sins s !! n = Some i -> blocks (din i) + Z.of_nat m <= 1036 ->
  exists r s' d' dt k, enlarge_loop m n (blocks (din i)) s = Ret (r, s') /\ changed s n i s' d' dt /\
    same_attrs (din i) d' /\ blocks d' = blocks (din i) + k /\ data s' d' = data s (din i) ++ zeros (4096 * k) /\
    ((r = 0 /\ k = Z.of_nat m) \/
     (r = - E_NO_MEM /\ 0 <= k < Z.of_nat m /\ unused_blocks (super s) < demand (din i) (Z.of_nat m))).
Proof.
  induction m as [|m IH]; intros s i Hok Hn Hm; cbn [enlarge_loop].
  { exists 0, s, (din i), (dirty i), 0. split; [done|]. split; [by apply changed_refl|]. split; [done|].
    split; [lia|]. split; [by rewrite app_nil_r|]. by left. }
  assert (Hf := fs_file _ Hok n i Hn). assert (Hbl := fo_blocks _ _ Hf). assert (Hd := fs_disk _ Hok).
  destruct (bmap_load_append s n i Hd Hn Hf ltac:(lia)) as [(s1 & Hr & Hk & Hlt)|(b & s1 & d1 & b1 & Hr & Ha)];
    rewrite (bind_Ret _ _ _ _ _ Hr).
  { exists (- E_NO_MEM), s1, (din i), (dirty i), 0. split; [done|]. split; [by apply kept_changed|]. split; [done|].
    split; [lia|]. split; [rewrite app_nil_r; by apply kept_data|]. right. split; [done|].
    split; [lia|]. assert (Hnd := needed_demand (din i) (Z.of_nat m)). replace (Z.of_nat (S m)) with (Z.of_nat m + 1) by lia. lia. }
  cbn [fst snd negb Z.eqb]. assert (Hc := appended_changed _ _ _ _ _ _ _ Hf Ha).
  assert (Hok1 := changed_ok _ _ _ _ _ _ Hok Hn Hc). assert (Hb1 := ap_blocks _ _ _ _ _ _ _ Ha).
  assert (Hn1 : sins s1 !! n = Some (set_din d1 b1 i)) by (rewrite (ch_sins _ _ _ _ _ _ Hc); apply lookup_insert_eq).
  rewrite u32_id by width. rewrite <- Hb1.
  destruct (IH s1 (set_din d1 b1 i) Hok1 Hn1) as (r & s2 & d2 & b2 & k & Hr2 & Hc2 & Hat & Hb2 & Hd2 & Hcase); [simpl; lia|].
  cbn [din set_din] in *. exists r, s2, d2, b2, (k + 1). split; [exact Hr2|].
  split; [by apply (changed_trans s n i s1 d1 b1)|]. split; [destruct Hat as (?&?&?), (ap_attrs _ _ _ _ _ _ _ Ha) as (?&?&?); by split_and!; etrans|].
  split; [lia|]. split; [|destruct Hcase as [[? ?]|(? & ? & Hlt)]; [left; split; [done|lia]|right; split; [done|]]].
  2: { split; [lia|]. replace (Z.of_nat (S m)) with (Z.of_nat m + 1) by lia.
       rewrite (demand_next (din i) d1) by (done || lia || apply Ha). rewrite (ap_count _ _ _ _ _ _ _ Ha) in Hlt. lia. }
  rewrite Hd2, (appended_data _ _ _ _ _ _ _ Hf Ha), <- app_assoc. f_equal. symmetry. apply zeros_S.
  destruct Hcase as [[? ?]|(? & ? & ?)]; lia.
Qed.

(** The loop that takes [m] blocks away. *)
Lemma reduce_spec n m : forall (s : st) i,
  fs_ok s -> sins s !! n = Some i -> Z.of_nat m <= blocks (din i) ->
  exists s' d' dt, reduce_loop m n s = Ret (0, s') /\ changed s n i s' d' dt /\
    same_attrs (din i) d' /\ blocks d' = blocks (din i) - Z.of_nat m /\ (exists l, data s (din i) = data s' d' ++ l).
Proof.
  induction m as [|m IH]; intros s i Hok Hn Hm; cbn [reduce_loop].
  { exists s, (din i), (dirty i). split; [done|]. split; [by apply changed_refl|]. split; [done|].
    split; [lia|]. exists []. by rewrite app_nil_r. }
  assert (Hf := fs_file _ Hok n i Hn). assert (Hd := fs_disk _ Hok).
  destruct (bmap_truncate_drop s n i Hd Hn Hf ltac:(lia)) as (s1 & d1 & Hr & Hdr). rewrite (bind_Ret _ _ _ _ _ Hr).
  cbn [negb Z.eqb]. assert (Hc := dropped_changed _ _ _ _ _ _ Hdr).
  assert (Hok1 := changed_ok _ _ _ _ _ _ Hok Hn Hc). assert (Hb1 := dr_blocks _ _ _ _ _ _ Hdr).
  assert (Hn1 : sins s1 !! n = Some (set_din d1 true i)) by (rewrite (ch_sins _ _ _ _ _ _ Hc); apply lookup_insert_eq).
  destruct (IH s1 (set_din d1 true i) Hok1 Hn1) as (s2 & d2 & b2 & Hr2 & Hc2 & Hat & Hb2 & l & Hl); [simpl; lia|].
  cbn [din set_din] in *. exists s2, d2, b2. split; [exact Hr2|]. split; [by apply (changed_trans s n i s1 d1 true)|].
  split; [destruct Hat as (?&?&?), (dr_attrs _ _ _ _ _ _ Hdr) as (?&?&?); by split_and!; etrans|].
  split; [lia|]. exists (l ++ blk s (entry s (din i) (blocks (din i) - 1))).
  rewrite (dropped_data _ _ _ _ _ _ Hf Hdr), Hl. by rewrite app_assoc.
Qed.

(** The number of blocks a file of [len] bytes takes. *)
Definition blocks_for (len : Z) : Z := (len + 4095) `div` 4096.

Lemma roundup_blocks len : 0 <= len <= SFS_MAX_FILE_SIZE -> ROUNDUP_DIV len SFS_BLKSIZE = blocks_for len.
Proof.
  unfold SFS_MAX_FILE_SIZE, ROUNDUP_DIV, SFS_BLKSIZE, blocks_for. intros Hl. rewrite u32_id by width. f_equal. lia.
Qed.

Definition size_ok (d : sfs_disk_inode) : Prop := 0 <= size d /\ blocks d = blocks_for (size d).

(** The part of [truncfile] after the loops. *)
Lemma finish_truncate (s : st) n i s1 d1 b1 len :
  changed s n i s1 d1 b1 -> blocks d1 = blocks_for len ->
  let s2 := set_sins (<[n := set_din (with_size len d1) true (set_din d1 b1 i)]> (sins s1)) s1 in
  (i ← load_sin n; assert_ (blocks (din i) =? blocks_for len);;
   put_sin n (set_din (with_size len (din i)) true i);; mret 0) s1 = Ret (0, s2).
Proof.
  intros Hc Hb s2. assert (Hn1 : sins s1 !! n = Some (set_din d1 b1 i)) by (rewrite (ch_sins _ _ _ _ _ _ Hc); apply lookup_insert_eq).
  rewrite (bind_Ret _ _ _ _ _ (load_sin_eq s1 n _ Hn1)). cbn [din set_din]. rewrite Hb, Z.eqb_refl.
  by rewrite (bind_Ret _ _ s1 tt s1).
Qed.

(** C26: [sfs_truncfile] sets the size of a file, on a block device that keeps
    what is written to it ([KeepsWrites]; the driver of dev_disk0.c is not such a
    device, [Disk0Dev.writes_dropped]) and for lengths up to the 1036 blocks that
    an inode can address.  From a file system whose invariant holds it keeps the invariant of every inode, changes no block in
    use outside the file, and either gives the file the blocks for the new
    length, its bytes being the old ones cut or continued with zero blocks, or
    returns -E_NO_MEM with the old size and bytes (and the blocks it got), which
    happens only when the free blocks do not suffice. *)
Theorem truncfile_correct (s : st) n i len :
  fs_ok s -> sins s !! n = Some i -> size_ok (din i) -> 0 <= len <= 1036 * 4096 ->
  exists r s' d' dt, truncfile n len s = Ret (r, s') /\ fs_ok s' /\
    sins s' = <[n := set_din d' dt i]> (sins s) /\ frame s s' (own s (din i)) /\
    ((r = 0 /\ size d' = len /\ size_ok d' /\
      data s' d' = resize (Z.to_nat (4096 * blocks_for len)) 0 (data s (din i))) \/
     (r = - E_NO_MEM /\ unused_blocks (super s) < demand (din i) (blocks_for len - blocks (din i)) /\
      size (din i) < len /\ size d' = size (din i) /\
      exists k, data s' d' = data s (din i) ++ zeros (4096 * k) /\ 0 <= k < blocks_for len - blocks (din i))).
Proof.
  intros Hok Hn [Hs0 Hsz] Hlen. assert (Hf := fs_file _ Hok n i Hn). assert (Hbl := fo_blocks _ _ Hf).
  assert (Hld := length_data s (din i) (fs_disk _ Hok) Hf).
  unfold truncfile. replace ((len <? 0) || (SFS_MAX_FILE_SIZE <? len)) with false by (unfold SFS_MAX_FILE_SIZE; lia).
  rewrite (bind_Ret _ _ _ _ _ (load_sin_eq s n i Hn)). cbv zeta.
  rewrite roundup_blocks by (unfold SFS_MAX_FILE_SIZE; lia).
  assert (Htb : 0 <= blocks_for len <= 1036) by (unfold blocks_for; width).
  destruct (Z.eqb_spec (size (din i)) len) as [He|Hne].
  { exists 0, s, (din i), (dirty i). rewrite <- He, <- Hsz, Z.eqb_refl, (bind_Ret _ _ s tt s) by done.
    split; [done|]. split; [done|]. split; [by rewrite set_din_id, insert_id|]. split; [apply frame_refl|]. left.
    split; [done|]. split; [done|]. split; [done|]. rewrite resize_all_alt; [done|]. lia. }
  destruct (Z.ltb_spec (blocks (din i)) (blocks_for len)) as [Hlt|Hge].
  - destruct (enlarge_spec n (Z.to_nat (blocks_for len - blocks (din i))) s i Hok Hn ltac:(lia))
      as (r & s1 & d1 & b1 & k & Hr & Hc & Hat & Hb1 & Hd1 & Hcase). rewrite (bind_Ret _ _ _ _ _ Hr).
    destruct Hcase as [[-> Hk]|(-> & Hk & Hlow)].
    + cbn [negb Z.eqb]. assert (Hfin := finish_truncate s n i s1 d1 b1 len Hc ltac:(lia)).
      assert (Hc2 := changed_size s n i s1 d1 b1 len Hc). eexists 0, _, (with_size len d1), true.
      split; [exact Hfin|]. split; [by apply (changed_ok s n i _ (with_size len d1) true)|].
      split; [apply (ch_sins _ _ _ _ _ _ Hc2)|]. split; [apply (ch_frame _ _ _ _ _ _ Hc2)|]. left.
      split; [done|]. split; [done|]. split; [split; simpl; lia|]. rewrite resize_spec, take_ge by lia.
      change (data s1 d1 = data s (din i) ++ replicate (Z.to_nat (4096 * blocks_for len) - length (data s (din i))) 0).
      rewrite Hd1, Hld. unfold zeros. do 2 f_equal. lia.
    + exists (- E_NO_MEM), s1, d1, b1. split; [done|]. split; [by apply (changed_ok s n i s1 d1 b1)|].
      split; [apply Hc|]. split; [apply Hc|]. right. split; [done|].
      split; [by rewrite Z2Nat.id in Hlow by lia|]. split; [unfold blocks_for in *; width|]. split; [apply Hat|]. exists k. split; [done|lia].
  - destruct (reduce_spec n (Z.to_nat (blocks (din i) - blocks_for len)) s i Hok Hn ltac:(lia))
      as (s1 & d1 & b1 & Hr & Hc & Hat & Hb1 & l & Hl). rewrite (bind_Ret _ _ _ _ _ Hr). cbn [negb Z.eqb].
    assert (Hfin := finish_truncate s n i s1 d1 b1 len Hc ltac:(lia)).
    assert (Hc2 := changed_size s n i s1 d1 b1 len Hc). eexists 0, _, (with_size len d1), true.
    split; [exact Hfin|]. split; [by apply (changed_ok s n i _ (with_size len d1) true)|].
    split; [apply (ch_sins _ _ _ _ _ _ Hc2)|]. split; [apply (ch_frame _ _ _ _ _ _ Hc2)|]. left.
    split; [done|]. split; [done|]. split; [split; simpl; lia|].
    assert (Hld1 := length_data s1 d1 (ch_ok _ _ _ _ _ _ Hc) (ch_file _ _ _ _ _ _ Hc)).
    rewrite resize_le by lia. change (data s1 d1 = take (Z.to_nat (4096 * blocks_for len)) (data s (din i))).
    rewrite Hl, take_app_length' by lia. done.
Qed.

End File.
(** ** An example

    A disk of 40 blocks of which the first five are in use: the super block,
    the root, the free map, the inode of a file of ten bytes, which is in
    memory, and its block. *)

Definition demo_freemap : bitmap := Bitmap.mk 1 40 2 2 [0xffffffe0; 0xff].
Definition demo_bytes : list Z := seqZ 1 10.
Definition demo_din : sfs_disk_inode := mk_din 10 SFS_TYPE_FILE 1 1 (4 :: replicate 11 0) 0.
Definition demo_sin : sfs_inode := mk_sin demo_din 8 3 false 1.
Definition demo : t RamDisk.t Bump.t :=
  mk 5 (mk_super SFS_MAGIC 40 35 (replicate 32 0)) demo_freemap false zero_block 6 [100]
    (replicate 1024 []) 7 {[100 := demo_sin]} (RamDisk.mk 40 {[4%nat := splice 0 demo_bytes zero_block]}) (Bump.mk 5 []).

Lemma demo_free i : 0 <= i -> free demo_freemap i = (5 <=? i) && (i <? 40).
Proof.
  intros Hi. destruct (Z.lt_ge_cases i 64) as [Hlt|Hge].
  - assert (Hall : forallb (fun i => eqb (free demo_freemap i) ((5 <=? i) && (i <? 40))) (seqZ 0 64) = true)
      by (vm_compute; reflexivity).
    rewrite forallb_forall in Hall. apply eqb_prop, Hall, list_elem_of_In, elem_of_seqZ. lia.
  - replace ((5 <=? i) && (i <? 40)) with false by lia. unfold free, arr_get. cbn [map demo_freemap].
    rewrite lookup_ge_None_2; [apply Z.bits_0|]. simpl. width.
Qed.

Lemma demo_disk_ok : disk_ok demo.
Proof.
  split.
  - apply zero_is_block.
  - vm_compute. split; [done|]. by intros.
  - split; [done|done|split; [done|repeat constructor; width]|]. intros i Hi. rewrite demo_free by (simpl in Hi; lia).
    simpl in Hi. lia.
  - done.
  - intros i Hi Hf. change (freemap demo) with demo_freemap in Hf. rewrite demo_free in Hf by done. unfold in_range. simpl. lia.
  - vm_compute. reflexivity.
Qed.

Lemma demo_use i : 1 <= i <= 4 -> in_use demo i.
Proof.
  intros Hi. split; [unfold in_range; simpl; lia|]. change (freemap demo) with demo_freemap. rewrite demo_free by lia. lia.
Qed.

Lemma demo_fs_ok : fs_ok demo.
Proof.
  assert (Hone : forall n i, sins demo !! n = Some i -> n = 100 /\ i = demo_sin).
  { intros n i Hi. cbn [sins demo] in Hi. apply lookup_singleton_Some in Hi as [<- <-]. done. }
  assert (Hown : own demo demo_din = [4]) by reflexivity.
  split.
  - apply demo_disk_ok.
  - intros n i [_ ->]%Hone. change (din demo_sin) with demo_din. split.
    + done.
    + simpl. lia.
    + intros k Hk. unfold entry. cbn [direct indirect demo_din blocks] in *. destruct (Z.ltb_spec k 12); [|done].
      assert (Hall : forallb (fun k => arr_get (4 :: replicate 11 0) k =? 0) (seqZ 1 11) = true) by reflexivity.
      rewrite forallb_forall in Hall. apply Z.eqb_eq, Hall, list_elem_of_In, elem_of_seqZ. lia.
    + rewrite Hown. apply NoDup_singleton.
    + rewrite Hown. apply Forall_singleton, demo_use. lia.
  - intros n i [_ ->]%Hone. change (din demo_sin) with demo_din. split; [apply demo_use; simpl; lia|].
    rewrite Hown. set_solver.
  - intros n1 n2 i1 i2 j Hne [-> _]%Hone [-> _]%Hone. done.
Qed.

Lemma truncfile_correct_witness :
  exists s' d', truncfile 100 5000 demo = Ret (0, s') /\ fs_ok s' /\ size d' = 5000 /\
    data s' d' = demo_bytes ++ zeros 8182.
Proof.
  destruct (truncfile_correct demo 100 demo_sin 5000 demo_fs_ok) as (r & s' & d' & dt & Hr & Hok & _ & _ & Hcase);
    [done|by split|lia|].
  destruct Hcase as [(-> & Hs & _ & Hd)|(_ & Hlow & _)].
  - exists s', d'. split; [done|]. split; [done|]. split; [done|]. rewrite Hd. vm_compute. reflexivity.
  - exfalso. vm_compute in Hlow. done.
Defined.

End SfsFile.
