(* ===== verification/SfsIo.v ===== *)
(** Reading and writing files of the on-disk file system ([sfs_io_nolock]). *)

From S2P Require Import Prelude Bytes Mem Heap Bitmap Iobuf Vfs Sfs SfsSpec SfsMap SfsOps SfsFile.

Module SfsIo.
Import Bitmap Iobuf Vfs.Vfs Sfs SfsSpec SfsMap SfsOps SfsFile.

Section Io.
  Context {D H : Type} `{DiskLaws D} `{KW : !KeepsWrites D} `{Heap H}.

Let st := t D H.
Let E := env st.

(** ** Memory and the file system *)

Definition with_fs (s : st) (e : E) : E := mk_env (inodes e) s (vmem e).
Definition with_mem (m : mem) (e : E) : E := mk_env (inodes e) (fsys e) m.

Lemma on_heap_eq {A} (m : M st A) (e : E) a s : m (fsys e) = Ret (a, s) -> on_heap m e = Ret (a, with_fs s e).
Proof. unfold on_heap. by intros ->. Qed.
Lemma on_mem_eq {A} (m : M mem A) (e : E) a v : m (vmem e) = Ret (a, v) -> on_mem m e = Ret (a, with_mem v e).
Proof. unfold on_mem. by intros ->. Qed.
Lemma with_fs_id (e : E) : with_fs (fsys e) e = e.
Proof. by destruct e. Qed.

Lemma store_bytes_eq m a l : allocated m a (length l) -> Forall is_u8 l -> store_bytes a l m = Ret (tt, write_bytes m a l).
Proof.
  revert m a. induction l as [|b l IH]; intros m a Ha Hu; [done|]. apply Forall_cons in Hu as [Hb Hu].
  cbn [length] in Ha. apply allocated_S in Ha as [H0a Ha]. cbn [store_bytes write_bytes].
  rewrite (bind_Ret _ _ _ _ _ (store_eq m a b H0a)), u8_id by done. apply IH; [|done].
  intros j Hj. rewrite lookup_insert_ne by lia. by apply Ha.
Qed.

Lemma load_all m a n : allocated m a n -> exists l, length l = n /\ bytes m a l.
Proof.
  revert a. induction n as [|n IH]; intros a Ha; [by exists []|]. apply allocated_S in Ha as [[b Hb] Ha].
  destruct (IH _ Ha) as (l & Hl & Hbl). exists (b :: l). split; [simpl; lia|]. by split.
Qed.

(** An operation that turns the bytes [l] of a buffer into [l']. *)
Lemma mem_op_eq op (e : E) a len l l' r s' :
  bytes (vmem e) a l -> length l = Z.to_nat len -> op l (fsys e) = Ret ((r, l'), s') ->
  length l' = length l -> Forall is_u8 l' ->
  mem_op op a len e = Ret (r, mk_env (inodes e) s' (write_bytes (vmem e) a l')).
Proof.
  intros Hb Hl Hop Hl' Hu. unfold mem_op. rewrite <- Hl.
  rewrite (bind_Ret _ _ e l e). 2: { etrans; [by apply on_mem_eq, load_bytes_eq|]. by destruct e. }
  rewrite (bind_Ret _ _ _ _ _ (on_heap_eq _ e _ _ Hop)). cbn [fst snd].
  assert (Hal : allocated (vmem e) a (length l')) by (rewrite Hl'; by apply bytes_allocated).
  by rewrite (bind_Ret _ _ _ _ _ (on_mem_eq _ (with_fs s' e) _ _ (store_bytes_eq (vmem e) a l' Hal Hu))).
Qed.

(** ** Bytes of a file *)

Lemma data_lookup (s : st) d k j :
  disk_ok s -> file_ok s d -> 0 <= k < blocks d -> (j < 4096)%nat ->
  data s d !! (4096 * Z.to_nat k + j)%nat = blk s (entry s d k) !! j.
Proof.
  intros Hok Hf Hk Hj. unfold data. assert (Hl := lookup_file_blocks s d k Hk).
  assert (Hu : Forall (fun b => length b = 4096%nat) (blk s <$> file_blocks s d)).
  { apply Forall_fmap. assert (Hu := fo_use _ _ Hf). unfold own in Hu. apply Forall_app in Hu as [_ Hu].
    eapply Forall_impl; [exact Hu|]. intros b [Hr _]. unfold in_range in Hr. simpl. apply blk_block; [done|lia]. }
  assert (Hl' : (blk s <$> file_blocks s d) !! Z.to_nat k = Some (blk s (entry s d k))) by (by rewrite list_lookup_fmap, Hl).
  revert Hl' Hu. generalize (blk s <$> file_blocks s d) (blk s (entry s d k)). generalize (Z.to_nat k). clear -Hj.
  intros k l x. revert k. induction l as [|b l IH]; intros k Hk Hu; [done|]. apply Forall_cons in Hu as [Hb Hu].
  change (mjoin (b :: l)) with (b ++ mjoin l). destruct k as [|k].
  - injection Hk as ->. by rewrite lookup_app_l by lia.
  - simpl in Hk. rewrite lookup_app_r by lia. rewrite <- (IH k Hk Hu). f_equal. lia.
Qed.

Lemma data_slice (s : st) d k off len :
  disk_ok s -> file_ok s d -> 0 <= k < blocks d -> (off + len <= 4096)%nat ->
  slice (4096 * Z.to_nat k + off) len (data s d) = slice off len (blk s (entry s d k)).
Proof.
  intros Hok Hf Hk Hl. apply list_eq. intros j. rewrite !lookup_slice. case_decide; [|done].
  rewrite <- (data_lookup s d k (off + j)) by (done || lia). f_equal. lia.
Qed.

Lemma slice_add off n m l : slice off (n + m) l = slice off n l ++ slice (off + n) m l.
Proof.
  unfold slice. rewrite <- drop_drop. generalize (drop off l). clear. intros k.
  revert k. induction n as [|n IH]; intros [|x k]; simpl; try done; [by rewrite take_nil|]. by rewrite IH.
Qed.

Lemma data_u8 (s : st) d : disk_ok s -> file_ok s d -> Forall is_u8 (data s d).
Proof.
  intros Hok Hf. unfold data. apply Forall_join, Forall_fmap. assert (Hu := fo_use _ _ Hf). unfold own in Hu.
  apply Forall_app in Hu as [_ Hu]. eapply Forall_impl; [exact Hu|]. intros b [Hr _]. unfold in_range in Hr.
  simpl. apply blk_block; [done|lia].
Qed.

(** The [m] blocks of the file from the [a]-th on follow each other on the
    disk. *)
Definition run (s : st) (d : sfs_disk_inode) (a m : Z) : Prop :=
  forall j, 0 <= j < m -> entry s d (a + j) = entry s d a + j.

Lemma run_none s d a m : m <= 0 -> run s d a m.
Proof. intros Hm j Hj. lia. Qed.

(** ** Reading *)

(** Reading consecutive blocks. *)
Lemma rwblock_loop_read (s : st) d m : forall a b buf,
  disk_ok s -> file_ok s d -> 0 <= a -> a + Z.of_nat m <= blocks d -> length buf = (4096 * m)%nat ->
  (forall j, 0 <= j < Z.of_nat m -> entry s d (a + j) = b + j) ->
  rwblock_loop m buf b false s = Ret ((0, slice (4096 * Z.to_nat a) (4096 * m) (data s d)), s).
Proof.
  induction m as [|m IH]; intros a b buf Hok Hf Ha Hm Hl Hrun; cbn [rwblock_loop].
  { destruct buf; [done|simpl in Hl; lia]. }
  assert (Hb : b = entry s d a) by (rewrite <- (Z.add_0_r a), Hrun; lia).
  assert (Hu := entry_use s d a Hf ltac:(lia)). rewrite <- Hb in Hu. destruct Hu as [Hr _]. unfold in_range in Hr.
  assert (Hsm : is_u32 (b + 1)) by (assert (Hs := disk_small (dev s)); destruct (ok_blocks _ Hok); width).
  rewrite (bind_Ret _ _ _ _ _ (rwblock_read s (take 4096 buf) b true Hok ltac:(lia) ltac:(lia) ltac:(rewrite length_take; lia))).
  cbn [fst snd negb Z.eqb]. rewrite u32_id by done.
  assert (Hnext := IH (a + 1) (b + 1) (drop 4096 buf) Hok Hf ltac:(lia) ltac:(lia) ltac:(rewrite length_drop; lia)
    ltac:(intros j Hj; rewrite <- Z.add_assoc, Hrun by lia; lia)).
  rewrite (bind_Ret _ _ _ _ _ Hnext). cbn [fst snd]. unfold mret, M_ret. do 3 f_equal.
  replace (4096 * S m)%nat with (4096 + 4096 * m)%nat by lia. rewrite slice_add. f_equal.
  - rewrite <- (Nat.add_0_r (4096 * Z.to_nat a)), data_slice by (done || lia). rewrite <- Hb.
    destruct (blk_block s b Hok ltac:(lia)) as [Hbl _]. unfold slice. rewrite drop_0, take_ge by lia. done.
  - f_equal. lia.
Qed.

Section Read.
  Context (s : st) (n : Z) (i : sfs_inode).
  Hypothesis Hok : disk_ok s.
  Hypothesis Hn : sins s !! n = Some i.
  Hypothesis Hf : file_ok s (din i).

(** A part of a read that transfers [len] bytes from the position [pos] of the
    file: what [op] returns for the block [k] of the file. *)
Definition reads (op : Z -> list Z -> M st (Z * list Z)) (k pos len : Z) : Prop :=
  forall x l, is_block x -> length l = Z.to_nat len ->
    exists y, is_block y /\ op (entry s (din i) k) l (set_buffer x s) =
      Ret ((0, slice (Z.to_nat pos) (Z.to_nat len) (data s (din i))), set_buffer y s).

Lemma reads_buf k off len :
  0 <= k < blocks (din i) -> 0 <= off < 4096 -> 0 <= len -> off + len <= 4096 ->
  reads (fun b l => sfs_rbuf l len b off) k (4096 * k + off) len.
Proof using Hok Hf.
  intros Hk Ho Hl Hs x l Hx Hll. assert (Hu := entry_use s (din i) k Hf Hk). destruct Hu as [Hr _].
  exists (blk s (entry s (din i) k)). unfold in_range in Hr. assert (Hb := blk_block s _ Hok (conj (Z.lt_le_incl _ _ (proj1 Hr)) (proj2 Hr))).
  split; [done|]. rewrite (sfs_rbuf_eq (set_buffer x s)) by (done || by apply buffer_ok).
  change (blk (set_buffer x s) (entry s (din i) k)) with (blk s (entry s (din i) k)).
  replace (Z.to_nat (4096 * k + off)) with (4096 * Z.to_nat k + Z.to_nat off)%nat by lia.
  rewrite data_slice by (done || lia). rewrite splice_full; [done|].
  rewrite length_slice; [done|]. destruct Hb as [-> _]. lia.
Qed.

Lemma reads_blocks k m :
  0 <= k -> 0 <= m -> k + m <= blocks (din i) -> run s (din i) k m ->
  reads (fun b l => sfs_rblock l b m) k (4096 * k) (m * SFS_BLKSIZE).
Proof using Hok Hf.
  intros Hk Hm Hs Hrun x l Hx Hll. exists x. split; [done|]. unfold sfs_rblock, sfs_rwblock, SFS_BLKSIZE in *.
  assert (Hok' : disk_ok (set_buffer x s)) by (by apply buffer_ok).
  assert (Hf' : file_ok (set_buffer x s) (din i)) by (destruct Hf; by split).
  rewrite (rwblock_loop_read (set_buffer x s) (din i) (Z.to_nat m) k) by
    (try done; try lia; intros j Hj; apply Hrun; lia).
  change (data (set_buffer x s) (din i)) with (data s (din i)). do 4 f_equal; lia.
Qed.

Lemma io_part_read e x op k pos len buf :
  fsys e = set_buffer x s -> is_block x -> 0 <= k < blocks (din i) -> 0 <= pos -> 0 <= len ->
  pos + len <= 4096 * blocks (din i) -> reads op k pos len -> allocated (vmem e) buf (Z.to_nat len) ->
  exists y, is_block y /\ io_part n k buf len op e =
    Ret (buf + len, mk_env (inodes e) (set_buffer y s)
      (write_bytes (vmem e) buf (slice (Z.to_nat pos) (Z.to_nat len) (data s (din i))))).
Proof using Hok Hn Hf.
  intros He Hx Hk Hpos Hlen Hend Hop Hal. unfold io_part.
  assert (Hok' : disk_ok (set_buffer x s)) by (by apply buffer_ok).
  assert (Hf' : file_ok (set_buffer x s) (din i)) by (destruct Hf; by split).
  destruct (bmap_load_read (set_buffer x s) n i k Hok' Hn Hf' Hk) as (z & Hz & Hr).
  rewrite <- He in Hr. rewrite (bind_Ret _ _ _ _ _ (on_heap_eq _ e _ _ Hr)). cbn [fst snd Z.eqb].
  rewrite He. change (entry (set_buffer x s) (din i) k) with (entry s (din i) k).
  set (e1 := with_fs _ e). rewrite (bind_Ret _ _ e1 tt e1) by done.
  destruct (load_all (vmem e) buf (Z.to_nat len) Hal) as (l & Hl & Hb).
  destruct (Hop z l Hz Hl) as (y & Hy & Hr2). exists y. split; [done|].
  assert (Hld := length_data s (din i) Hok Hf).
  assert (Hm := mem_op_eq (op (entry s (din i) k)) e1 buf len l _ 0 _ Hb Hl Hr2
    ltac:(rewrite length_slice; lia) (slice_Forall _ _ _ _ (data_u8 s (din i) Hok Hf))).
  rewrite (bind_Ret _ _ _ _ _ Hm). done.
Qed.

(** The state after the first [p] bytes from [offset] on are in memory. *)
Definition read_state (e : E) (x : list Z) (buf offset p : Z) : E :=
  mk_env (inodes e) (set_buffer x s)
    (write_bytes (vmem e) buf (slice (Z.to_nat offset) (Z.to_nat p) (data s (din i)))).

Lemma io_part_step e x op k buf offset p len :
  is_block x -> 0 <= k < blocks (din i) -> 0 <= offset -> 0 <= p -> 0 <= len ->
  offset + p + len <= 4096 * blocks (din i) -> reads op k (offset + p) len ->
  allocated (vmem e) buf (Z.to_nat (p + len)) ->
  exists y, is_block y /\ io_part n k (buf + p) len op (read_state e x buf offset p) =
    Ret (buf + (p + len), read_state e y buf offset (p + len)).
Proof using Hok Hn Hf.
  intros Hx Hk Ho Hp Hlen Hend Hop Hal. assert (Hld := length_data s (din i) Hok Hf).
  set (l := slice (Z.to_nat offset) (Z.to_nat p) (data s (din i))).
  assert (Hl : length l = Z.to_nat p) by (unfold l; rewrite length_slice; lia).
  destruct (io_part_read (read_state e x buf offset p) x op k (offset + p) len (buf + p)) as (y & Hy & Hr); try done; try lia.
  { apply allocated_write. intros j Hj. apply Hal. lia. }
  exists y. split; [done|]. rewrite Hr. unfold read_state. cbn [inodes vmem]. fold l.
  replace (buf + p + len) with (buf + (p + len)) by lia. do 3 f_equal.
  replace (buf + p) with (buf + Z.of_nat (length l)) by lia. rewrite <- write_bytes_app. f_equal.
  replace (Z.to_nat (p + len)) with (Z.to_nat p + Z.to_nat len)%nat by lia. rewrite slice_add. f_equal. f_equal. lia.
Qed.

(** A part that is left out when [c] is false. *)
Lemma io_part_opt (c : bool) e x op k buf offset p len :
  is_block x -> 0 <= offset -> 0 <= p -> (c = false -> len = 0) ->
  (c = true -> 0 <= k < blocks (din i) /\ 0 <= len /\ offset + p + len <= 4096 * blocks (din i) /\
     reads op k (offset + p) len /\ allocated (vmem e) buf (Z.to_nat (p + len))) ->
  exists y, is_block y /\ (if c then io_part n k (buf + p) len op else mret (buf + p)) (read_state e x buf offset p) =
    Ret (buf + (p + len), read_state e y buf offset (p + len)).
Proof using Hok Hn Hf.
  intros Hx Ho Hp Hfalse Htrue. destruct c.
  - destruct Htrue as (Hk & Hl & Hend & Hr & Hal); [done|]. by apply io_part_step.
  - exists x. split; [done|]. rewrite Hfalse by done. by rewrite Z.add_0_r.
Qed.

(** The whole blocks that a transfer of the bytes from [offset] to [endpos]
    covers: the index of the first and their number. *)
Definition first_whole (offset : Z) : Z := (offset + 4095) `div` 4096.
Definition whole (offset endpos : Z) : Z := endpos `div` 4096 - first_whole offset.

(** The parts of a read after the first: [a] is the next block, [p] the number
    of bytes read so far. *)
Lemma read_tail e x buf offset endpos p a m :
  is_block x -> 0 <= offset -> 0 <= p -> offset + p = 4096 * a -> a + m = endpos `div` 4096 -> 0 <= m ->
  endpos <= 4096 * blocks (din i) -> run s (din i) a m ->
  allocated (vmem e) buf (Z.to_nat (endpos - offset)) ->
  exists y, is_block y /\
    (bufptr ← (if 0 <? m then io_part n a (buf + p) (m * 4096) (fun ino b => sfs_rblock b ino m) else mret (buf + p));
     if negb false && (0 <? endpos `mod` 4096) then
       io_part n (endpos / 4096) bufptr (endpos `mod` 4096) (fun ino b => sfs_rbuf b (endpos `mod` 4096) ino 0)
     else mret bufptr) (read_state e x buf offset p) =
    Ret (buf + (endpos - offset), read_state e y buf offset (endpos - offset)).
Proof using Hok Hn Hf.
  intros Hx Ho Hp Ha Hm Hm0 Hend Hrun Hal.
  destruct (io_part_opt (0 <? m) e x (fun ino b => sfs_rblock b ino m) a buf offset p (m * 4096)) as (x1 & Hx1 & Hr1);
    [done..|lia| |].
  { intros Hc. split; [width|]. split; [lia|]. split; [width|]. split; [|intros j Hj; apply Hal; width].
    rewrite Ha. apply reads_blocks; try done; width. }
  rewrite (bind_Ret _ _ _ _ _ Hr1). cbn [negb andb].
  destruct (io_part_opt (0 <? endpos `mod` 4096) e x1 (fun ino b => sfs_rbuf b (endpos `mod` 4096) ino 0)
    (endpos / 4096) buf offset (p + m * 4096) (endpos `mod` 4096)) as (x2 & Hx2 & Hr2); [done|done|lia|width| |].
  { intros Hc. split; [width|]. split; [width|]. split; [width|]. split; [|intros j Hj; apply Hal; width].
    replace (offset + (p + m * 4096)) with (4096 * (endpos / 4096) + 0) by lia. apply reads_buf; try done; width. }
  exists x2. split; [done|]. rewrite Hr2. replace (p + m * 4096 + endpos `mod` 4096) with (endpos - offset) by width. done.
Qed.

(** The three parts of a read. *)
Lemma io_parts_read e buf offset endpos :
  fsys e = s -> 0 <= offset < endpos -> endpos <= 4096 * blocks (din i) ->
  run s (din i) (first_whole offset) (whole offset endpos) ->
  allocated (vmem e) buf (Z.to_nat (endpos - offset)) ->
  exists y, is_block y /\ io_parts n buf offset endpos sfs_rbuf sfs_rblock e =
    Ret (buf + (endpos - offset), read_state e y buf offset (endpos - offset)).
Proof using Hok Hn Hf.
  intros He Hoff Hend Hrun Hal. unfold io_parts, SFS_BLKSIZE. unfold whole, first_whole in Hrun.
  assert (Hb0 := ok_buffer _ Hok). assert (Hk0 : 0 <= offset / 4096 < blocks (din i)) by width.
  assert (He0 : e = read_state e (sfs_buffer s) buf offset 0).
  { unfold read_state, slice. cbn. destruct e as [ii ff vv]. cbn in *. subst ff. by destruct s. }
  destruct (Z.ltb_spec 0 (offset `mod` 4096)) as [Ho|Ho].
  - set (len := if 0 <? endpos / 4096 - offset / 4096 then 4096 - offset `mod` 4096 else endpos - offset).
    assert (Hlen : 0 <= len /\ offset `mod` 4096 + len <= 4096 /\ offset + len <= endpos).
    { unfold len. destruct (Z.ltb_spec 0 (endpos / 4096 - offset / 4096)); width. }
    destruct (io_part_step e (sfs_buffer s) (fun ino b => sfs_rbuf b len ino (offset `mod` 4096))
      (offset / 4096) buf offset 0 len) as (x1 & Hx1 & Hr1); [done|done|lia|lia|lia|lia| |intros j Hj; apply Hal; lia|].
    { rewrite Z.add_0_r. replace offset with (4096 * (offset / 4096) + offset `mod` 4096) at 2 by width.
      apply reads_buf; try done; width. }
    rewrite <- He0, Z.add_0_r, Z.add_0_l in Hr1.
    set (e1 := read_state e x1 buf offset len) in *.
    destruct (Z.ltb_spec 0 (endpos / 4096 - offset / 4096)) as [Hnb|Hnb].
    + rewrite (bind_Ret _ _ e (buf + len, offset / 4096 + 1, endpos / 4096 - offset / 4096 - 1, false) e1)
        by (by rewrite (bind_Ret _ _ _ _ _ Hr1)).
      apply read_tail; try done; unfold len; try width.
      intros j Hj. replace (offset / 4096 + 1) with ((offset + 4095) `div` 4096) by width. apply Hrun. width.
    + rewrite (bind_Ret _ _ e (buf + len, offset / 4096 + 1, endpos / 4096 - offset / 4096, true) e1)
        by (by rewrite (bind_Ret _ _ _ _ _ Hr1)).
      replace (0 <? endpos / 4096 - offset / 4096) with false by lia.
      exists x1. split; [done|]. by rewrite (bind_Ret _ _ e1 (buf + len) e1).
  - rewrite (bind_Ret _ _ e (buf, offset / 4096, endpos / 4096 - offset / 4096, false) e) by done.
    assert (Hrun' : run s (din i) (offset / 4096) (endpos / 4096 - offset / 4096)).
    { intros j Hj. replace (offset / 4096) with ((offset + 4095) `div` 4096) by width. apply Hrun. width. }
    assert (Ht := read_tail e (sfs_buffer s) buf offset endpos 0 (offset / 4096) (endpos / 4096 - offset / 4096)
      Hb0 ltac:(lia) ltac:(lia) ltac:(width) ltac:(lia) ltac:(width) Hend Hrun' Hal).
    rewrite <- He0, Z.add_0_r in Ht. exact Ht.
Qed.

End Read.

Lemma size_blocks d : size_ok d -> size d <= 4096 * blocks d.
Proof. intros [H0s ->]. unfold blocks_for. width. Qed.

(** The bytes that a read of [len] bytes at [offset] gives. *)
Definition readable (d : sfs_disk_inode) (offset len : Z) : Z := Z.max 0 (Z.min len (size d - offset)).

Lemma io_nolock_read (e : E) n i buf offset alen :
  let s := fsys e in let k := readable (din i) offset alen in
  disk_ok s -> sins s !! n = Some i -> file_ok s (din i) -> type (din i) <> SFS_TYPE_DIR -> size_ok (din i) ->
  0 <= offset < SFS_MAX_FILE_SIZE -> 0 <= alen -> offset + alen < 0x80000000 ->
  run s (din i) (first_whole offset) (whole offset (offset + k)) ->
  allocated (vmem e) buf (Z.to_nat k) ->
  exists y, is_block y /\ sfs_io_nolock n buf offset alen false e = Ret ((0, k), read_state s i e y buf offset k).
Proof.
  intros s k Hok Hn Hf Hty Hsz Hoff Hal Hsum Hrun Hmem. assert (Hsb := size_blocks _ Hsz). destruct Hsz as [Hs0 _].
  assert (Hbl := fo_blocks _ _ Hf). assert (Hmax : size (din i) < SFS_MAX_FILE_SIZE) by (unfold SFS_MAX_FILE_SIZE; lia).
  assert (Hload : on_heap (load_sin n) e = Ret (i, e)).
  { etrans; [by apply on_heap_eq, load_sin_eq|]. by destruct e. }
  assert (Hid : read_state s i e (sfs_buffer s) buf offset 0 = e).
  { unfold read_state, slice. cbn. subst s. destruct e as [ii [] vv]. done. }
  unfold sfs_io_nolock. rewrite (bind_Ret _ _ _ _ _ Hload). rewrite (proj2 (Z.eqb_neq _ _) Hty).
  rewrite (bind_Ret _ _ e tt e) by done. cbv zeta. rewrite s32_id by width.
  replace ((offset <? 0) || (SFS_MAX_FILE_SIZE <=? offset) || (offset + alen <? offset)) with false by lia.
  destruct (Z.eqb_spec offset (offset + alen)) as [Hz|Hz].
  { exists (sfs_buffer s). split; [apply Hok|]. replace k with 0 by (unfold k, readable; lia). by rewrite Hid. }
  cbn [negb andb]. destruct (Z.leb_spec (size (din i)) offset) as [Hle|Hgt].
  { exists (sfs_buffer s). split; [apply Hok|]. replace k with 0 by (unfold k, readable; lia). by rewrite Hid. }
  set (endpos := if size (din i) <? _ then _ else _).
  assert (Hend : endpos = offset + k).
  { unfold endpos, k, readable. destruct (Z.ltb_spec SFS_MAX_FILE_SIZE (offset + alen)).
    - replace (size (din i) <? SFS_MAX_FILE_SIZE) with true by lia. lia.
    - destruct (Z.ltb_spec (size (din i)) (offset + alen)); lia. }
  assert (Hk : 0 < k /\ offset + k <= size (din i)) by (unfold k, readable; lia).
  rewrite Hend. destruct (io_parts_read s n i Hok Hn Hf e buf offset (offset + k)) as (y & Hy & Hr); try done; try lia.
  { by replace (offset + k - offset) with k by lia. }
  replace (offset + k - offset) with k in Hr by lia. exists y. split; [done|].
  rewrite (bind_Ret _ _ _ _ _ Hr). replace (buf + k - buf) with k by lia.
  rewrite (bind_Ret _ _ _ i (read_state s i e y buf offset k)).
  2: { apply (on_heap_eq _ (read_state s i e y buf offset k)). by apply load_sin_eq. }
  by replace (size (din i) <? offset + k) with false by lia.
Qed.

Lemma advanced_0 m iob : iob_ok m iob -> advanced iob 0 = iob.
Proof.
  intros Hiob. unfold advanced. rewrite !Z.add_0_r, s32_id, Z.sub_0_r by apply Hiob. by destruct iob.
Qed.

(** The exact result of a read. *)
Lemma sfs_read_eq (e : E) n i (iob : iobuf) :
  let s := fsys e in let k := readable (din i) (io_offset iob) (io_resid iob) in
  fs_ok s -> sins s !! n = Some i -> type (din i) <> SFS_TYPE_DIR -> size_ok (din i) ->
  iob_ok (vmem e) iob -> 0 <= io_offset iob < SFS_MAX_FILE_SIZE -> io_offset iob + io_resid iob < 0x80000000 ->
  run s (din i) (first_whole (io_offset iob)) (whole (io_offset iob) (io_offset iob + k)) ->
  exists y, is_block y /\ sfs_read n iob e = Ret ((0, advanced iob k), mk_env (inodes e) (set_buffer y s)
    (write_bytes (vmem e) (io_base iob) (slice (Z.to_nat (io_offset iob)) (Z.to_nat k) (data s (din i))))).
Proof.
  intros s k Hok Hn Hty Hsz Hiob Hoff Hsum Hrun. assert (Hf := fs_file _ Hok n i Hn). assert (Hd := fs_disk _ Hok).
  assert (Hr := iob_resid _ _ Hiob). assert (Hk : 0 <= k <= io_resid iob) by (unfold k, readable; lia).
  destruct (io_nolock_read e n i (io_base iob) (io_offset iob) (io_resid iob)) as (y & Hy & He); try done; try lia.
  { eapply allocated_mono; [|apply (iob_mem _ _ Hiob)]. fold k. lia. }
  exists y. split; [done|]. unfold sfs_read, sfs_io. rewrite (bind_Ret _ _ _ _ _ He). fold k. cbn [fst snd].
  set (e1 := read_state _ _ _ _ _ _ _). destruct (Z.eqb_spec k 0) as [Hz|Hz]; cbn [negb].
  - assert (Ha : advanced iob k = iob) by (rewrite Hz; by apply (advanced_0 (vmem e))). rewrite Ha.
    by rewrite (bind_Ret _ _ e1 iob e1).
  - rewrite (bind_Ret _ _ e1 (advanced iob k) e1); [done|].
    etrans; [apply on_mem_eq, iobuf_skip_eq; [|done]|by destruct e1].
    destruct Hiob as [? ? ? ?]. split; try done. by apply allocated_write.
Qed.

(** C27: [sfs_read] returns the bytes of the file.  For a file in a consistent
    file system it copies to the buffer the bytes of the file from the offset
    on, up to the end of the file or of the buffer, advances the buffer by
    their number and changes no file; the blocks that the read covers whole
    must follow each other on the disk. *)
Theorem sfs_read_correct (e : E) n i (iob : iobuf) :
  let s := fsys e in let k := readable (din i) (io_offset iob) (io_resid iob) in
  fs_ok s -> sins s !! n = Some i -> type (din i) <> SFS_TYPE_DIR -> size_ok (din i) ->
  iob_ok (vmem e) iob -> 0 <= io_offset iob < SFS_MAX_FILE_SIZE -> io_offset iob + io_resid iob < 0x80000000 ->
  run s (din i) (first_whole (io_offset iob)) (whole (io_offset iob) (io_offset iob + k)) ->
  exists y, is_block y /\ sfs_read n iob e = Ret ((0, advanced iob k), mk_env (inodes e) (set_buffer y s)
    (write_bytes (vmem e) (io_base iob) (slice (Z.to_nat (io_offset iob)) (Z.to_nat k) (data s (din i))))).
Proof. apply sfs_read_eq. Qed.

(** ** Writing *)

Lemma entry_inj (s : st) d j k :
  file_ok s d -> 0 <= j < blocks d -> 0 <= k < blocks d -> entry s d j = entry s d k -> j = k.
Proof.
  intros Hf Hj Hk He. assert (Hn := fo_nodup _ _ Hf). apply NoDup_app in Hn as (_ & _ & Hn).
  assert (Hjk : Z.to_nat j = Z.to_nat k); [|lia].
  apply (NoDup_lookup _ _ _ (entry s d j) Hn); [by apply lookup_file_blocks|]. rewrite He. by apply lookup_file_blocks.
Qed.

Section SetBlock.
  Context (s : st) (d : sfs_disk_inode) (k : Z) (nb : list Z).
  Hypothesis Hok : disk_ok s.
  Hypothesis Hf : file_ok s d.
  Hypothesis Hk : 0 <= k < blocks d.
  Hypothesis Hnb : is_block nb.

Let s2 := set_blk (entry s d k) nb s.

Lemma set_entry_range : 0 < entry s d k < sblocks (super s).
Proof using Hf Hk. exact (proj1 (entry_use s d k Hf Hk)). Qed.

Lemma set_entry_ok : disk_ok s2.
Proof using Hok Hf Hk Hnb. assert (Hr := set_entry_range). apply set_blk_ok; [done|lia|done]. Qed.

Lemma set_entry_entry j : entry s2 d j = entry s d j.
Proof using Hok Hf Hk Hnb.
  apply entry_blk. intros Hi. assert (Hr := set_entry_range). assert (Hu := table_use s d Hf Hi).
  destruct Hu as [Hu _]. unfold in_range in Hu. unfold s2. rewrite (blk_set s) by (done || lia).
  rewrite decide_False; [done|]. intros He.
  apply (table_apart s d (entry s d k) Hf); [apply elem_file_blocks; by exists k|]. rewrite <- He. by apply table_in.
Qed.

Lemma set_entry_blocks : file_blocks s2 d = file_blocks s d.
Proof using Hok Hf Hk Hnb. unfold file_blocks. apply list_fmap_ext. intros. apply set_entry_entry. Qed.

Lemma set_entry_file : file_ok s2 d.
Proof using Hok Hf Hk Hnb.
  assert (Ho : own s2 d = own s d) by (unfold own; by rewrite set_entry_blocks).
  destruct Hf as [? ? Hr ? Hu]. split; [done|done| |by rewrite Ho|by rewrite Ho].
  intros j Hj. rewrite set_entry_entry. by apply Hr.
Qed.

Lemma set_entry_frame : frame s s2 (own s d).
Proof using Hok Hf Hk Hnb.
  assert (Hr := set_entry_range). split; [done..|]. intros j [Hj Hfj] Hn. unfold in_range in Hj. split; [done|].
  unfold s2. rewrite (blk_set s) by (done || lia). rewrite decide_False; [done|]. intros ->. apply Hn.
  apply elem_of_app. right. apply elem_file_blocks. by exists k.
Qed.

Lemma set_entry_data : data s2 d = splice (4096 * Z.to_nat k) nb (data s d).
Proof using Hok Hf Hk Hnb.
  assert (Hr := set_entry_range). destruct Hnb as [Hl Hu].
  assert (Hld := length_data s d Hok Hf). assert (Hld2 := length_data s2 d set_entry_ok set_entry_file).
  apply list_eq. intros i. rewrite lookup_splice by lia. rewrite Hl.
  destruct (Nat.lt_ge_cases i (4096 * Z.to_nat (blocks d))) as [Hi|Hi].
  2: { rewrite lookup_ge_None_2 by lia. rewrite decide_False, decide_False by lia. symmetry. apply lookup_ge_None_2. lia. }
  set (q := Z.of_nat i / 4096). set (j := Z.to_nat (Z.of_nat i `mod` 4096)).
  assert (Hq : 0 <= q < blocks d) by (unfold q; width). assert (Hj : (j < 4096)%nat) by (unfold j; width).
  assert (Hij : i = (4096 * Z.to_nat q + j)%nat) by (unfold q, j; width). rewrite Hij.
  rewrite (data_lookup s2) by (done || apply set_entry_ok || apply set_entry_file). rewrite set_entry_entry.
  assert (Huq := entry_use s d q Hf Hq). destruct Huq as [Huq _]. unfold in_range in Huq.
  unfold s2. rewrite (blk_set s) by (done || lia). case_decide as Hc.
  - apply entry_inj in Hc; [|done..]. rewrite Hc, decide_False, decide_True by lia. f_equal. lia.
  - assert (Hne : q <> k) by congruence. rewrite (data_lookup s) by done.
    case_decide; [done|]. by rewrite decide_False by lia.
Qed.

End SetBlock.

(** There are free blocks for the file to have [T] blocks. *)
Definition room (s : st) (d : sfs_disk_inode) (T : Z) : Prop :=
  T <= 1036 /\ (blocks d < T -> demand d (T - blocks d) <= unused_blocks (super s)).

(** From [s] to [s'] the bytes [l] were written at the position [pos] of the
    file, which may have grown by blocks of zeros, up to [T] blocks. *)
Record wrote (s : st) (n : Z) (i : sfs_inode) (pos : Z) (l : list Z) (T : Z) (s' : st) (d' : sfs_disk_inode) (dt : bool) : Prop := {
  wr_changed : changed s n i s' d' dt;
  wr_attrs : same_attrs (din i) d';
  wr_blocks : blocks (din i) <= blocks d' <= Z.max (blocks (din i)) T;
  wr_data : data s' d' = splice (Z.to_nat pos) l (data s (din i) ++ zeros (4096 * (blocks d' - blocks (din i))));
  wr_fit : 0 <= pos /\ pos + Z.of_nat (length l) <= 4096 * blocks d';
  wr_room : room s' d' T;
  wr_entry k : 0 <= k < blocks (din i) -> entry s' d' k = entry s (din i) k
}.

Lemma zeros_add a b : 0 <= a -> 0 <= b -> zeros (a + b) = zeros a ++ zeros b.
Proof. intros Ha Hb. unfold zeros. rewrite <- replicate_add. f_equal. lia. Qed.

Lemma length_zeros a : 0 <= a -> length (zeros a) = Z.to_nat a.
Proof. intros Ha. unfold zeros. apply length_replicate. Qed.

Lemma wrote_trans s n i p l1 T s1 d1 b1 l2 s2 d2 b2 :
  disk_ok s -> file_ok s (din i) -> wrote s n i p l1 T s1 d1 b1 ->
  wrote s1 n (set_din d1 b1 i) (p + Z.of_nat (length l1)) l2 T s2 d2 b2 -> wrote s n i p (l1 ++ l2) T s2 d2 b2.
Proof.
  intros Hok Hf [Hc1 (?&?&?) Hb1 Hd1 Hfit1 Hr1 He1] [Hc2 (?&?&?) Hb2 Hd2 Hfit2 Hr2 He2]. cbn [din set_din] in *.
  assert (Hld := length_data s (din i) Hok Hf). assert (Hbl := fo_blocks _ _ Hf). split.
  - by apply (changed_trans s n i s1 d1 b1).
  - by split_and!; etrans.
  - lia.
  - rewrite Hd2, Hd1. replace (Z.to_nat (p + Z.of_nat (length l1))) with (Z.to_nat p + length l1)%nat by lia.
    assert (Hz : zeros (4096 * (blocks d2 - blocks (din i))) =
      zeros (4096 * (blocks d1 - blocks (din i))) ++ zeros (4096 * (blocks d2 - blocks d1))).
    { rewrite <- zeros_add by lia. f_equal. lia. }
    rewrite Hz, app_assoc. rewrite <- (splice_app (Z.to_nat p) l1).
    + apply splice_splice. rewrite !length_app, !length_zeros by lia. lia.
    + rewrite length_app, length_zeros by lia. lia.
  - rewrite length_app. lia.
  - done.
  - intros k Hk. rewrite He2 by lia. by apply He1.
Qed.

Lemma wrote_nil s n i pos T :
  disk_ok s -> sins s !! n = Some i -> file_ok s (din i) -> room s (din i) T -> 0 <= pos <= 4096 * blocks (din i) ->
  wrote s n i pos [] T s (din i) (dirty i).
Proof.
  intros Hok Hn Hf Hr Hp. split; try done; [by apply changed_id|lia| |simpl; lia].
  rewrite splice_nil, Z.sub_diag. by rewrite app_nil_r.
Qed.

(** Finding a block to write, which may be the one after the last. *)
Lemma load_room s n i k T :
  disk_ok s -> sins s !! n = Some i -> file_ok s (din i) -> room s (din i) T -> 0 <= k <= blocks (din i) -> k < T ->
  exists s1 d1 b1, sfs_bmap_load_nolock n k s = Ret ((0, entry s1 d1 k), s1) /\ k < blocks d1 /\
    wrote s n i (4096 * k) [] T s1 d1 b1.
Proof.
  intros Hok Hn Hf [HT Hroom] Hk HkT. destruct (Z.lt_ge_cases k (blocks (din i))) as [Hlt|Hge].
  - destruct (bmap_load_read s n i k Hok Hn Hf ltac:(lia)) as (x & Hx & Hr). set (s1 := set_buffer x s) in *.
    exists s1, (din i), (dirty i). split; [done|]. split; [done|].
    assert (Hc : changed s n i s1 (din i) (dirty i)).
    { split; [by rewrite set_din_id, insert_id|by apply buffer_ok|destruct Hf; by split|by split|auto]. }
    split; try done; [lia| |simpl; lia]. rewrite splice_nil, Z.sub_diag. by rewrite app_nil_r.
  - assert (k = blocks (din i)) as -> by lia. specialize (Hroom ltac:(lia)).
    assert (Hnd := needed_demand (din i) (T - blocks (din i) - 1) ltac:(lia)).
    replace (T - blocks (din i) - 1 + 1) with (T - blocks (din i)) in Hnd by lia.
    destruct (bmap_load_append s n i Hok Hn Hf ltac:(lia)) as [(s1 & _ & _ & Hlow)|(b & s1 & d1 & b1 & Hr & Ha)]; [lia|].
    assert (Hm := ap_map _ _ _ _ _ _ _ Ha). assert (Hb1 := ap_blocks _ _ _ _ _ _ _ Ha). exists s1, d1, b1.
    assert (He : forall j v, (file_blocks s (din i) ++ [b]) !! Z.to_nat j = Some v -> 0 <= j < blocks d1 -> entry s1 d1 j = v).
    { intros j v Hv Hj. rewrite <- Hm, lookup_file_blocks in Hv by done. congruence. }
    assert (Hlen := length_file_blocks s (din i)).
    split; [|split; [lia|]].
    + rewrite Hr. do 3 f_equal. symmetry. apply He; [|lia]. rewrite lookup_app_r by lia.
      by replace (Z.to_nat (blocks (din i)) - length (file_blocks s (din i)))%nat with 0%nat by lia.
    + split.
      * by apply (appended_changed s n i b).
      * apply Ha.
      * lia.
      * rewrite splice_nil, Hb1, (appended_data _ _ _ _ _ _ _ Hf Ha). f_equal.
        by replace (blocks (din i) + 1 - blocks (din i)) with 1 by lia.
      * simpl. lia.
      * split; [done|]. intros Hlt. rewrite (ap_count _ _ _ _ _ _ _ Ha).
        assert (Hdn := demand_next (din i) d1 (T - blocks d1) ltac:(lia) Hb1 (ap_indirect _ _ _ _ _ _ _ Ha)).
        replace (T - blocks d1 + 1) with (T - blocks (din i)) in Hdn by lia. lia.
      * intros j Hj. apply He; [|lia]. rewrite lookup_app_l by lia. by apply lookup_file_blocks.
Qed.

(** Writing into a block of the file, and whole blocks. *)
Section WriteOps.
  Context (s : st) (n : Z) (i : sfs_inode) (T : Z).
  Hypothesis Hok : disk_ok s.
  Hypothesis Hn : sins s !! n = Some i.
  Hypothesis Hf : file_ok s (din i).
  Hypothesis Hroom : room s (din i) T.

Lemma set_entry_wrote k nb pos l :
  0 <= k < blocks (din i) -> is_block nb -> 0 <= pos -> pos + Z.of_nat (length l) <= 4096 * blocks (din i) ->
  splice (4096 * Z.to_nat k) nb (data s (din i)) = splice (Z.to_nat pos) l (data s (din i)) ->
  wrote s n i pos l T (set_blk (entry s (din i) k) nb s) (din i) (dirty i).
Proof using Hok Hn Hf Hroom.
  intros Hk Hnb Hpos Hfit He. split; try done.
  - split; [by rewrite set_din_id, insert_id|by apply set_entry_ok|by apply set_entry_file|by apply set_entry_frame|].
    intros j Hj. left. unfold own in *. by rewrite set_entry_blocks in Hj.
  - lia.
  - rewrite set_entry_data by done. rewrite He, Z.sub_diag. by rewrite app_nil_r.
  - intros j Hj. by apply set_entry_entry.
Qed.

(** The content of the buffer does not matter. *)
Lemma wrote_buffer pos l s' d' dt x : is_block x -> wrote s n i pos l T s' d' dt -> wrote s n i pos l T (set_buffer x s') d' dt.
Proof using Hok.
  intros Hx [[Hs Hok' Hf' Hfr Ho] Hat Hb Hd Hfit Hr He]. split; try done. split; try done.
  - by apply buffer_ok.
  - destruct Hf'. by split.
  - destruct Hfr. by split.
Qed.

Lemma wbuf_wrote k off l :
  0 <= k < blocks (din i) -> 0 <= off < 4096 -> off + Z.of_nat (length l) <= 4096 -> Forall is_u8 l ->
  exists s', sfs_wbuf l (Z.of_nat (length l)) (entry s (din i) k) off s = Ret ((0, l), s') /\
    wrote s n i (4096 * k + off) l T s' (din i) (dirty i).
Proof using KW Hok Hn Hf Hroom.
  intros Hk Ho Hl Hu. assert (Hr := set_entry_range s (din i) k Hf Hk). assert (Hbl := fo_blocks _ _ Hf).
  assert (Hb : is_block (blk s (entry s (din i) k))) by (apply blk_block; [done|lia]).
  assert (Hld := length_data s (din i) Hok Hf).
  exists (written (entry s (din i) k) (Z.to_nat off) l s). split; [apply sfs_wbuf_eq; try done; lia|].
  assert (Hnb : is_block (splice (Z.to_nat off) l (blk s (entry s (din i) k)))) by (apply splice_block; [done..|lia]).
  apply wrote_buffer; [done|]. apply set_entry_wrote; [done|done|lia|lia|].
  assert (Hsl : blk s (entry s (din i) k) = slice (4096 * Z.to_nat k) 4096 (data s (din i))).
  { rewrite <- (Nat.add_0_r (4096 * Z.to_nat k)), data_slice by (done || lia). unfold slice.
    destruct Hb as [Hb _]. by rewrite drop_0, take_ge by lia. }
  rewrite Hsl, splice_nested by lia. f_equal. lia.
Qed.

End WriteOps.

Lemma wblock_wrote n i T m : forall (s : st) a b buf,
  disk_ok s -> sins s !! n = Some i -> file_ok s (din i) -> room s (din i) T ->
  0 <= a -> a + Z.of_nat m <= blocks (din i) -> length buf = (4096 * m)%nat -> Forall is_u8 buf ->
  (forall j, 0 <= j < Z.of_nat m -> entry s (din i) (a + j) = b + j) ->
  exists s', rwblock_loop m buf b true s = Ret ((0, buf), s') /\ wrote s n i (4096 * a) buf T s' (din i) (dirty i).
Proof.
  induction m as [|m IH]; intros s a b buf Hok Hn Hf Hroom Ha Hm Hl Hu Hrun; cbn [rwblock_loop].
  { destruct buf; [|simpl in Hl; lia]. exists s. split; [done|]. apply wrote_nil; try done. lia. }
  assert (Hb : b = entry s (din i) a) by (rewrite <- (Z.add_0_r a), Hrun; lia).
  assert (Hr := set_entry_range s (din i) a Hf ltac:(lia)). rewrite <- Hb in Hr.
  assert (Hsm : is_u32 (b + 1)) by (assert (Hs := disk_small (dev s)); destruct (ok_blocks _ Hok); width).
  assert (Hnb : is_block (take 4096 buf)) by (split; [rewrite length_take; lia|by apply Forall_take]).
  rewrite (bind_Ret _ _ _ _ _ (rwblock_write s (take 4096 buf) b true Hok ltac:(lia) ltac:(lia) Hnb)).
  cbn [fst snd negb Z.eqb]. rewrite u32_id by done. set (s1 := set_blk b (take 4096 buf) s).
  assert (Hw1 : wrote s n i (4096 * a) (take 4096 buf) T s1 (din i) (dirty i)).
  { unfold s1. rewrite Hb. apply set_entry_wrote; try done; try lia; [destruct Hnb as [-> _]; lia|]. f_equal. lia. }
  assert (Hc1 := wr_changed _ _ _ _ _ _ _ _ _ Hw1).
  destruct (IH s1 (a + 1) (b + 1) (drop 4096 buf)) as (s2 & Hr2 & Hw2); try lia.
  - apply Hc1.
  - done.
  - apply Hc1.
  - apply (wr_room _ _ _ _ _ _ _ _ _ Hw1).
  - rewrite length_drop. lia.
  - by apply Forall_drop.
  - intros j Hj. rewrite (wr_entry _ _ _ _ _ _ _ _ _ Hw1) by lia. rewrite <- Z.add_assoc, Hrun by lia. lia.
  - exists s2. rewrite (bind_Ret _ _ _ _ _ Hr2). cbn [fst snd]. rewrite take_drop. split; [done|].
    rewrite <- (take_drop 4096 buf). apply (wrote_trans s n i (4096 * a) _ T s1 (din i) (dirty i)); try done.
    rewrite set_din_id. destruct Hnb as [-> _]. by replace (4096 * a + Z.of_nat 4096) with (4096 * (a + 1)) by lia.
Qed.

Lemma write_bytes_same m a l : bytes m a l -> write_bytes m a l = m.
Proof.
  revert m a. induction l as [|b l IH]; intros m a Hb; [done|]. destruct Hb as [Hb Hl]. cbn [write_bytes].
  rewrite insert_id by done. by apply IH.
Qed.

(** A part of a write: [op] writes [l] once the block is found. *)
Definition writes (s : st) (n : Z) (i : sfs_inode) (T : Z) (op : Z -> list Z -> M st (Z * list Z)) (k pos : Z) (l : list Z) : Prop :=
  forall s1 d1 b1, k < blocks d1 -> wrote s n i pos [] T s1 d1 b1 ->
    exists s2, op (entry s1 d1 k) l s1 = Ret ((0, l), s2) /\ wrote s1 n (set_din d1 b1 i) pos l T s2 d1 b1.

Lemma io_part_write (e : E) n i T op k pos len buf l :
  let s := fsys e in
  disk_ok s -> sins s !! n = Some i -> file_ok s (din i) -> room s (din i) T -> 0 <= k <= blocks (din i) -> k < T ->
  4096 * k <= pos < 4096 * (k + 1) ->
  length l = Z.to_nat len -> 0 <= len -> Forall is_u8 l -> bytes (vmem e) buf l -> writes s n i T op k pos l ->
  exists s2 d2 b2, io_part n k buf len op e = Ret (buf + len, with_fs s2 e) /\ wrote s n i pos l T s2 d2 b2 /\ k < blocks d2.
Proof.
  intros s Hok Hn Hf Hroom Hk HkT Hpos Hl Hlen Hu Hb Hop.
  destruct (load_room s n i k T Hok Hn Hf Hroom Hk HkT) as (s1 & d1 & b1 & Hr & Hkd & Hw).
  assert (Hw' : wrote s n i pos [] T s1 d1 b1).
  { destruct Hw as [? ? ? Hd ? ? ?]. split; try done; [by rewrite splice_nil in *|simpl; lia]. }
  destruct (Hop s1 d1 b1 Hkd Hw') as (s2 & Hr2 & Hw2). exists s2, d1, b1.
  split; [|split; [|done]].
  - unfold io_part. rewrite (bind_Ret _ _ _ _ _ (on_heap_eq _ e _ _ Hr)). cbn [fst snd Z.eqb].
    set (e1 := with_fs s1 e). rewrite (bind_Ret _ _ e1 tt e1) by done.
    rewrite (bind_Ret _ _ _ _ _ (mem_op_eq (op (entry s1 d1 k)) e1 buf len l l 0 s2 Hb Hl Hr2 eq_refl Hu)).
    cbn [Z.eqb]. rewrite (write_bytes_same (vmem e1)) by done. done.
  - replace pos with (pos + Z.of_nat (length (@nil Z))) in Hw2 by (simpl; lia).
    exact (wrote_trans s n i pos [] T s1 d1 b1 l s2 d1 b1 Hok Hf Hw' Hw2).
Qed.

Lemma writes_buf s n i T k off l :
  0 <= k -> 0 <= off < 4096 -> off + Z.of_nat (length l) <= 4096 -> Forall is_u8 l ->
  writes s n i T (fun b x => sfs_wbuf x (Z.of_nat (length l)) b off) k (4096 * k + off) l.
Proof.
  intros Hk Ho Hl Hu s1 d1 b1 Hkd Hw. assert (Hc := wr_changed _ _ _ _ _ _ _ _ _ Hw).
  assert (Hn1 : sins s1 !! n = Some (set_din d1 b1 i)) by (rewrite (ch_sins _ _ _ _ _ _ Hc); apply lookup_insert_eq).
  destruct (wbuf_wrote s1 n (set_din d1 b1 i) T (ch_ok _ _ _ _ _ _ Hc) Hn1 (ch_file _ _ _ _ _ _ Hc)
    (wr_room _ _ _ _ _ _ _ _ _ Hw) k off l) as (s2 & Hr & Hw2); [simpl; lia|done..|]. by exists s2.
Qed.

Lemma writes_blocks (s : st) n i T k m l :
  0 <= k -> 0 <= m -> length l = Z.to_nat (4096 * m) -> Forall is_u8 l ->
  (m <= 1 \/ (k + m <= blocks (din i) /\ run s (din i) k m)) ->
  writes s n i T (fun b x => sfs_wblock x b m) k (4096 * k) l.
Proof.
  intros Hk Hm Hl Hu Hrun s1 d1 b1 Hkd Hw. assert (Hc := wr_changed _ _ _ _ _ _ _ _ _ Hw).
  assert (Hn1 : sins s1 !! n = Some (set_din d1 b1 i)) by (rewrite (ch_sins _ _ _ _ _ _ Hc); apply lookup_insert_eq).
  assert (Hb := wr_blocks _ _ _ _ _ _ _ _ _ Hw). assert (He := wr_entry _ _ _ _ _ _ _ _ _ Hw).
  destruct (wblock_wrote n (set_din d1 b1 i) T (Z.to_nat m) s1 k (entry s1 d1 k) l) as (s2 & Hr & Hw2); try done; try lia.
  - apply Hc.
  - apply Hc.
  - apply (wr_room _ _ _ _ _ _ _ _ _ Hw).
  - cbn [din set_din]. lia.
  - cbn [din set_din]. intros j Hj. destruct Hrun as [?|[Hin Hrun]]; [f_equal; replace j with 0 by lia; by rewrite !Z.add_0_r|].
    rewrite !He by lia. apply Hrun. lia.
  - by exists s2.
Qed.

(** The next part of a write, left out when [c] is false. *)
Lemma step_write (c : bool) (e : E) s n i offset T l1 s1 d1 b1 op k len l2 buf :
  disk_ok s -> file_ok s (din i) -> wrote s n i offset l1 T s1 d1 b1 -> length l2 = Z.to_nat len -> 0 <= len ->
  (c = false -> len = 0) ->
  (c = true -> 0 <= k <= blocks d1 /\ k < T /\ 4096 * k <= offset + Z.of_nat (length l1) < 4096 * (k + 1) /\
     Forall is_u8 l2 /\ bytes (vmem e) (buf + Z.of_nat (length l1)) l2 /\
     writes s1 n (set_din d1 b1 i) T op k (offset + Z.of_nat (length l1)) l2) ->
  exists s2 d2 b2, (if c then io_part n k (buf + Z.of_nat (length l1)) len op else mret (buf + Z.of_nat (length l1))) (with_fs s1 e)
      = Ret (buf + Z.of_nat (length (l1 ++ l2)), with_fs s2 e) /\
    wrote s n i offset (l1 ++ l2) T s2 d2 b2 /\ blocks d1 <= blocks d2 /\ (c = true -> k < blocks d2).
Proof.
  intros Hok Hf Hw Hl Hlen Hfalse Htrue. assert (Hc := wr_changed _ _ _ _ _ _ _ _ _ Hw). rewrite length_app, Nat2Z.inj_add.
  destruct c.
  - destruct Htrue as (Hk & HkT & Hpos & Hu & Hb & Hop); [done|].
    assert (Hn1 : sins s1 !! n = Some (set_din d1 b1 i)) by (rewrite (ch_sins _ _ _ _ _ _ Hc); apply lookup_insert_eq).
    destruct (io_part_write (with_fs s1 e) n (set_din d1 b1 i) T op k (offset + Z.of_nat (length l1)) len
      (buf + Z.of_nat (length l1)) l2) as (s2 & d2 & b2 & Hr & Hw2 & Hk2); try done.
    + apply Hc.
    + apply Hc.
    + apply (wr_room _ _ _ _ _ _ _ _ _ Hw).
    + exists s2, d2, b2. split; [rewrite Hr; do 2 f_equal; lia|].
      assert (Hb2 := wr_blocks _ _ _ _ _ _ _ _ _ Hw2). split; [by apply (wrote_trans s n i offset l1 T s1 d1 b1)|]. split; [apply Hb2|done].
  - rewrite Hfalse in Hl by done. destruct l2; [|done]. exists s1, d1, b1. rewrite app_nil_r.
    split; [by rewrite Z.add_0_r|]. done.
Qed.

(** A part of the bytes in memory. *)
Section Write.
  Context (e : E) (n : Z) (i : sfs_inode) (buf offset endpos : Z) (l : list Z).

Let s := fsys e.
Let T := blocks_for endpos.

  Hypothesis Hok : disk_ok s.
  Hypothesis Hn : sins s !! n = Some i.
  Hypothesis Hf : file_ok s (din i).
  Hypothesis Hroom : room s (din i) T.
  Hypothesis Hoff : 0 <= offset < endpos.
  Hypothesis Hstart : offset / 4096 <= blocks (din i).
  Hypothesis Hlen : length l = Z.to_nat (endpos - offset).
  Hypothesis Hu8 : Forall is_u8 l.
  Hypothesis Hmem : bytes (vmem e) buf l.
  Hypothesis Hrun : whole offset endpos <= 1 \/
    (first_whole offset + whole offset endpos <= blocks (din i) /\ run s (din i) (first_whole offset) (whole offset endpos)).

(** The parts after the first: the whole blocks and the beginning of the last
    one. *)
Lemma write_tail p s1 d1 b1 :
  (p <= length l)%nat -> offset + Z.of_nat p = 4096 * first_whole offset -> 0 <= whole offset endpos ->
  wrote s n i offset (take p l) T s1 d1 b1 -> first_whole offset <= blocks d1 ->
  exists s2 d2 b2,
    (bufptr ← (if 0 <? whole offset endpos then
       io_part n (first_whole offset) (buf + Z.of_nat p) (whole offset endpos * 4096) (fun ino b => sfs_wblock b ino (whole offset endpos))
       else mret (buf + Z.of_nat p));
     if negb false && (0 <? endpos `mod` 4096) then
       io_part n (endpos / 4096) bufptr (endpos `mod` 4096) (fun ino b => sfs_wbuf b (endpos `mod` 4096) ino 0)
     else mret bufptr) (with_fs s1 e) = Ret (buf + (endpos - offset), with_fs s2 e) /\
    wrote s n i offset l T s2 d2 b2.
Proof using KW Hok Hn Hf Hroom Hoff Hstart Hlen Hu8 Hmem Hrun.
  intros Hp Ha Hm Hw Hblk. set (m := whole offset endpos) in *. set (a := first_whole offset) in *.
  assert (Ham : a + m = endpos / 4096) by (unfold m, whole, a; lia).
  assert (HT : T = (endpos + 4095) / 4096) by done. set (q := Z.to_nat (m * 4096)).
  assert (Hpl : length (take p l) = p) by (rewrite length_take; lia).
  assert (Hq : (p + q <= length l)%nat) by (unfold q; width). assert (Hql : length (slice p q l) = q) by (by apply length_slice).
  assert (Htq : take p l ++ slice p q l = take (p + q) l).
  { assert (Hx := slice_add 0 p q l). unfold slice in *. by rewrite !drop_0 in Hx. }
  destruct (step_write (0 <? m) e s n i offset T (take p l) s1 d1 b1 (fun ino b => sfs_wblock b ino m) a (m * 4096) (slice p q l) buf)
    as (s2 & d2 & b2 & Hr2 & Hw2 & Hb2 & Hk2); try done; try lia.
  { intros Hc. rewrite Hpl. split_and!; try width; [by apply slice_Forall|by apply bytes_slice|].
    rewrite Ha. apply writes_blocks; try lia; [by apply slice_Forall|]. cbn [din set_din].
    destruct Hrun as [?|[Hin Hr]]; [by left|right]. assert (Hb := wr_blocks _ _ _ _ _ _ _ _ _ Hw). split; [lia|].
    intros j Hj. rewrite !(wr_entry _ _ _ _ _ _ _ _ _ Hw) by (unfold a, first_whole in *; width). by apply Hr. }
  rewrite Htq in Hr2, Hw2. rewrite Hpl in Hr2. rewrite length_take, Nat.min_l in Hr2 by done.
  rewrite (bind_Ret _ _ _ _ _ Hr2). cbn [negb andb].
  assert (Hble : endpos / 4096 <= blocks d2).
  { assert (Hb1 := wr_blocks _ _ _ _ _ _ _ _ _ Hw). assert (Hrun' := Hrun).
    destruct (Z.ltb_spec 0 m); [specialize (Hk2 eq_refl)|]; destruct Hrun' as [?|[? _]]; lia. }
  set (r := Z.to_nat (endpos `mod` 4096)). assert (Hrl : (p + q + r = length l)%nat) by (unfold r, q; width).
  assert (Hpql : length (take (p + q) l) = (p + q)%nat) by (rewrite length_take; lia).
  assert (Hsl : length (slice (p + q) r l) = r) by (apply length_slice; lia).
  assert (Htr : take (p + q) l ++ slice (p + q) r l = l).
  { assert (Hx := slice_add 0 (p + q) r l). unfold slice in *. rewrite !drop_0, Nat.add_0_l in Hx. rewrite <- Hx. apply take_ge. lia. }
  destruct (step_write (0 <? endpos `mod` 4096) e s n i offset T (take (p + q) l) s2 d2 b2
    (fun ino b => sfs_wbuf b (endpos `mod` 4096) ino 0) (endpos / 4096) (endpos `mod` 4096) (slice (p + q) r l) buf)
    as (s3 & d3 & b3 & Hr3 & Hw3 & _ & _); try done; try width.
  { intros Hc. rewrite Hpql. assert (Hpq : offset + Z.of_nat (p + q) = 4096 * (endpos / 4096) + 0) by (unfold q; lia).
    split_and!; try width; [by apply slice_Forall|by apply bytes_slice|].
    rewrite Hpq. replace (endpos `mod` 4096) with (Z.of_nat (length (slice (p + q) r l))) by (rewrite Hsl; unfold r; width).
    apply writes_buf; [width|width|rewrite Hsl; unfold r; width|by apply slice_Forall]. }
  rewrite Htr in Hr3, Hw3. rewrite Hpql in Hr3. exists s3, d3, b3. split; [|done]. rewrite Hr3. do 2 f_equal. lia.
Qed.

(** The first part, when the offset is inside a block. *)
Lemma write_head len :
  0 < offset `mod` 4096 -> 0 <= len -> offset `mod` 4096 + len <= 4096 -> offset + len <= endpos ->
  exists s1 d1 b1, io_part n (offset / 4096) buf len (fun ino b => sfs_wbuf b len ino (offset `mod` 4096)) e
      = Ret (buf + len, with_fs s1 e) /\ wrote s n i offset (take (Z.to_nat len) l) T s1 d1 b1 /\ offset / 4096 < blocks d1.
Proof using KW Hok Hn Hf Hroom Hoff Hstart Hlen Hu8 Hmem.
  intros Ho Hl0 Hle Hend. assert (HT : T = (endpos + 4095) / 4096) by done.
  assert (Hl : length (take (Z.to_nat len) l) = Z.to_nat len) by (rewrite length_take; lia).
  apply (io_part_write e n i T); try done; try width.
  - by apply Forall_take.
  - assert (Hx := bytes_slice (vmem e) buf l 0 (Z.to_nat len) Hmem).
    unfold slice in Hx. by rewrite drop_0, Z.add_0_r in Hx.
  - assert (Hw := writes_buf s n i T (offset / 4096) (offset `mod` 4096) (take (Z.to_nat len) l)
      ltac:(width) ltac:(width) ltac:(rewrite Hl; lia) (Forall_take _ _ _ Hu8)).
    rewrite Hl, Z2Nat.id in Hw by lia. by replace (4096 * (offset / 4096) + offset `mod` 4096) with offset in Hw by width.
Qed.

Lemma io_parts_write :
  exists s2 d2 b2, io_parts n buf offset endpos sfs_wbuf sfs_wblock e = Ret (buf + (endpos - offset), with_fs s2 e) /\
    wrote s n i offset l T s2 d2 b2.
Proof using KW Hok Hn Hf Hroom Hoff Hstart Hlen Hu8 Hmem Hrun.
  unfold io_parts, SFS_BLKSIZE. assert (Htail := write_tail).
  destruct (Z.ltb_spec 0 (offset `mod` 4096)) as [Ho|Ho].
  - set (len := if 0 <? endpos / 4096 - offset / 4096 then 4096 - offset `mod` 4096 else endpos - offset).
    assert (Hl : 0 <= len /\ offset `mod` 4096 + len <= 4096 /\ offset + len <= endpos).
    { unfold len. destruct (Z.ltb_spec 0 (endpos / 4096 - offset / 4096)); width. }
    destruct (write_head len) as (s1 & d1 & b1 & Hr1 & Hw1 & Hb1); [done|lia..|].
    destruct (Z.ltb_spec 0 (endpos / 4096 - offset / 4096)) as [Hnb|Hnb].
    + rewrite (bind_Ret _ _ e (buf + len, offset / 4096 + 1, endpos / 4096 - offset / 4096 - 1, false) (with_fs s1 e))
        by (by rewrite (bind_Ret _ _ _ _ _ Hr1)).
      specialize (Htail (Z.to_nat len) s1 d1 b1). unfold whole in Htail.
      replace (first_whole offset) with (offset / 4096 + 1) in Htail by (unfold first_whole; width).
      rewrite Z2Nat.id in Htail by lia.
      replace (endpos `div` 4096 - (offset / 4096 + 1)) with (endpos / 4096 - offset / 4096 - 1) in Htail by lia.
      apply Htail; try done; unfold len in *; try lia; width.
    + rewrite (bind_Ret _ _ e (buf + len, offset / 4096 + 1, endpos / 4096 - offset / 4096, true) (with_fs s1 e))
        by (by rewrite (bind_Ret _ _ _ _ _ Hr1)).
      replace (0 <? endpos / 4096 - offset / 4096) with false by lia.
      exists s1, d1, b1. rewrite take_ge in Hw1 by (unfold len; lia). done.
  - rewrite (bind_Ret _ _ e (buf, offset / 4096, endpos / 4096 - offset / 4096, false) e) by done.
    specialize (Htail 0%nat s (din i) (dirty i)). unfold whole in Htail.
    replace (first_whole offset) with (offset / 4096) in Htail by (unfold first_whole; width).
    rewrite !Z.add_0_r in Htail. assert (Hid : with_fs s e = e) by apply with_fs_id. rewrite Hid in Htail.
    apply Htail; try lia; try width. apply wrote_nil; try done. width.
Qed.

End Write.

Lemma blocks_for_mono a b : a <= b -> blocks_for a <= blocks_for b.
Proof. unfold blocks_for. intros. width. Qed.

(** A write: [sfs_io_nolock] with the bytes [l] in memory. *)
Lemma io_nolock_write (e : E) n i buf offset l :
  let s := fsys e in let endpos := offset + Z.of_nat (length l) in
  disk_ok s -> sins s !! n = Some i -> file_ok s (din i) -> type (din i) <> SFS_TYPE_DIR ->
  0 <= offset -> (0 < length l)%nat -> room s (din i) (blocks_for endpos) -> offset / 4096 <= blocks (din i) ->
  Forall is_u8 l -> bytes (vmem e) buf l ->
  (whole offset endpos <= 1 \/
    (first_whole offset + whole offset endpos <= blocks (din i) /\ run s (din i) (first_whole offset) (whole offset endpos))) ->
  exists s1 d1 b1, wrote s n i offset l (blocks_for endpos) s1 d1 b1 /\
    sfs_io_nolock n buf offset (Z.of_nat (length l)) true e = Ret ((0, Z.of_nat (length l)), with_fs
      (if size d1 <? endpos then
         set_sins (<[n := set_din (with_size endpos d1) true (set_din d1 b1 i)]> (sins s1)) s1 else s1) e).
Proof.
  intros s endpos Hok Hn Hf Hty Hoff Hl Hroom Hstart Hu Hm Hrun.
  assert (HT : endpos <= 1036 * 4096) by (destruct Hroom as [Hr _]; unfold blocks_for in Hr; width).
  assert (Hload : on_heap (load_sin n) e = Ret (i, e)).
  { etrans; [by apply on_heap_eq, load_sin_eq|]. by destruct e. }
  unfold sfs_io_nolock. rewrite (bind_Ret _ _ _ _ _ Hload). rewrite (proj2 (Z.eqb_neq _ _) Hty).
  rewrite (bind_Ret _ _ e tt e) by done. cbv zeta. fold endpos. rewrite s32_id by (unfold endpos in *; width).
  replace ((offset <? 0) || (SFS_MAX_FILE_SIZE <=? offset) || (endpos <? offset)) with false
    by (unfold SFS_MAX_FILE_SIZE, endpos in *; lia).
  replace (offset =? endpos) with false by (unfold endpos in *; lia). cbn [negb andb].
  replace (SFS_MAX_FILE_SIZE <? endpos) with false by (unfold SFS_MAX_FILE_SIZE in *; lia).
  destruct (io_parts_write e n i buf offset endpos l Hok Hn Hf Hroom) as (s1 & d1 & b1 & Hr & Hw); try done; try (unfold endpos; lia).
  exists s1, d1, b1. split; [done|]. rewrite (bind_Ret _ _ _ _ _ Hr).
  replace (buf + (endpos - offset) - buf) with (Z.of_nat (length l)) by (unfold endpos; lia). fold endpos.
  assert (Hn1 : sins s1 !! n = Some (set_din d1 b1 i))
    by (rewrite (ch_sins _ _ _ _ _ _ (wr_changed _ _ _ _ _ _ _ _ _ Hw)); apply lookup_insert_eq).
  rewrite (bind_Ret _ _ _ _ _ (on_heap_eq _ (with_fs s1 e) _ _ (load_sin_eq s1 n _ Hn1))). cbn [din set_din].
  by destruct (size d1 <? endpos).
Qed.

(** C28: [sfs_write] writes the bytes of the buffer into the file, on a block
    device that keeps what is written to it ([KeepsWrites]).  For a write
    that starts in the file or right after its last block, for which there are
    free blocks, and that covers at most one whole block (or whole blocks the
    file has and which follow each other on the disk), the bytes of the file
    are the old ones, continued with blocks of zeros where it grew, with the
    bytes written in place; the size is the larger of the old one and the end
    of the write, the invariant of the file system is kept, and no block in use
    outside the file changes. *)
Theorem sfs_write_correct (e : E) n i (iob : iobuf) l :
  let s := fsys e in let endpos := io_offset iob + io_resid iob in
  fs_ok s -> sins s !! n = Some i -> type (din i) <> SFS_TYPE_DIR -> size_ok (din i) ->
  iob_ok (vmem e) iob -> 0 <= io_offset iob -> 0 < io_resid iob ->
  Z.of_nat (length l) = io_resid iob -> Forall is_u8 l -> bytes (vmem e) (io_base iob) l ->
  room s (din i) (blocks_for endpos) -> io_offset iob / 4096 <= blocks (din i) ->
  (whole (io_offset iob) endpos <= 1 \/
    (first_whole (io_offset iob) + whole (io_offset iob) endpos <= blocks (din i) /\
     run s (din i) (first_whole (io_offset iob)) (whole (io_offset iob) endpos))) ->
  exists s' d' dt, sfs_write n iob e = Ret ((0, advanced iob (io_resid iob)), mk_env (inodes e) s' (vmem e)) /\
    fs_ok s' /\ sins s' = <[n := set_din d' dt i]> (sins s) /\ frame s s' (own s (din i)) /\
    size d' = Z.max (size (din i)) endpos /\ size_ok d' /\
    data s' d' = splice (Z.to_nat (io_offset iob)) l (data s (din i) ++ zeros (4096 * (blocks d' - blocks (din i)))).
Proof.
  intros s endpos Hok Hn Hty Hsz Hiob Hoff Hpos Hl Hu Hm Hroom Hstart Hrun.
  assert (Hf := fs_file _ Hok n i Hn). assert (Hd := fs_disk _ Hok).
  destruct (io_nolock_write e n i (io_base iob) (io_offset iob) l) as (s1 & d1 & b1 & Hw & Hr);
    rewrite ?Hl; try done; try lia. rewrite Hl in Hr, Hw. fold endpos in Hr, Hw.
  destruct Hw as [Hc (Hs1 & _) Hb Hdata Hfit _ _]. destruct Hsz as [Hs0 Hsz].
  assert (Hb1 : blocks d1 = blocks_for (Z.max (size (din i)) endpos)).
  { assert (Hx : blocks_for endpos <= blocks d1) by (unfold blocks_for, endpos; width).
    assert (Hy := blocks_for_mono (size (din i)) (Z.max (size (din i)) endpos)).
    assert (Hz := blocks_for_mono endpos (Z.max (size (din i)) endpos)).
    destruct (Z.max_spec (size (din i)) endpos) as [[? Hmax]|[? Hmax]]; rewrite Hmax in *; lia. }
  assert (Hio : forall s', sfs_io_nolock n (io_base iob) (io_offset iob) (io_resid iob) true e = Ret ((0, io_resid iob), with_fs s' e) ->
    sfs_write n iob e = Ret ((0, advanced iob (io_resid iob)), with_fs s' e)).
  { intros s' He. unfold sfs_write, sfs_io. rewrite (bind_Ret _ _ _ _ _ He). cbn [fst snd].
    replace (io_resid iob =? 0) with false by lia. cbn [negb].
    rewrite (bind_Ret _ _ (with_fs s' e) (advanced iob (io_resid iob)) (with_fs s' e)); [done|].
    etrans; [apply on_mem_eq, iobuf_skip_eq; [exact Hiob|lia]|done]. }
  destruct (Z.ltb_spec (size d1) endpos) as [Hlt|Hge].
  - assert (Hc2 := changed_size s n i s1 d1 b1 endpos Hc). eexists _, (with_size endpos d1), true.
    split; [by apply Hio|]. split; [by apply (changed_ok s n i _ (with_size endpos d1) true)|].
    split; [apply (ch_sins _ _ _ _ _ _ Hc2)|]. split; [apply (ch_frame _ _ _ _ _ _ Hc2)|].
    split; [simpl; lia|]. split; [split; simpl; [lia|]; rewrite Hb1; f_equal; lia|]. exact Hdata.
  - exists s1, d1, b1. split; [by apply Hio|]. split; [by apply (changed_ok s n i s1 d1 b1)|].
    split; [apply Hc|]. split; [apply Hc|]. split; [lia|]. split; [|exact Hdata]. split; [lia|]. rewrite Hb1. f_equal. lia.
Qed.

End Io.
(** ** Examples *)

Definition demo_mem : mem := list_to_map ((fun i => (i, i)) <$> seqZ 100 40).
Definition demo_env : env (t RamDisk.t Bump.t) := mk_env {[100 := mk_inode 1 1 false 5]} demo demo_mem.

Lemma sfs_read_correct_witness :
  exists e', sfs_read 100 (iobuf_init 100 8 4) demo_env = Ret ((0, advanced (iobuf_init 100 8 4) 6), e') /\
    bytes (vmem e') 100 [5; 6; 7; 8; 9; 10].
Proof.
  destruct (sfs_read_correct demo_env 100 demo_sin (iobuf_init 100 8 4)) as (y & _ & Hr).
  - apply demo_fs_ok.
  - done.
  - done.
  - by split.
  - split; [simpl; lia|simpl; lia|simpl; width|].
    apply (bytes_allocated _ _ (seqZ 100 8)). by vm_compute.
  - unfold SFS_MAX_FILE_SIZE. simpl. lia.
  - simpl. lia.
  - apply run_none. by vm_compute.
  - eexists. split; [exact Hr|]. change [5; 6; 7; 8; 9; 10] with (slice 4 6 (data demo demo_din)). apply bytes_write.
Defined.

Lemma sfs_write_correct_witness :
  exists s' d', sfs_write 100 (iobuf_init 100 3 4095) demo_env =
      Ret ((0, advanced (iobuf_init 100 3 4095) 3), mk_env (inodes demo_env) s' demo_mem) /\
    fs_ok s' /\ size d' = 4098 /\ slice 4095 3 (data s' d') = [100; 101; 102].
Proof.
  destruct (sfs_write_correct demo_env 100 demo_sin (iobuf_init 100 3 4095) [100; 101; 102])
    as (s' & d' & dt & Hr & Hok & _ & _ & Hs & Hsz & Hd).
  - apply demo_fs_ok.
  - done.
  - done.
  - by split.
  - split; [simpl; lia|simpl; lia|simpl; width|]. apply (bytes_allocated _ _ (seqZ 100 3)). by vm_compute.
  - simpl. lia.
  - simpl. lia.
  - done.
  - repeat constructor; width.
  - by vm_compute.
  - split; [by vm_compute|]. intros _. by vm_compute.
  - by vm_compute.
  - left. by vm_compute.
  - exists s', d'. split; [done|]. split; [done|]. split; [done|]. rewrite Hd.
    apply slice_splice; [|done]. rewrite length_app. destruct Hsz as [_ Hb]. rewrite Hb, Hs.
    change (blocks_for _) with 2. rewrite length_zeros by (simpl; lia). change (data (fsys demo_env) (din demo_sin)) with (data demo demo_din).
    rewrite (length_data demo demo_din demo_disk_ok (fs_file _ demo_fs_ok 100 demo_sin eq_refl)). change (blocks (din demo_sin)) with 1.
    change (blocks demo_din) with 1. change (length [100; 101; 102]) with 3%nat. cbn [io_offset iobuf_init]. lia.
Defined.

End SfsIo.
