(* ===== verification/SfsMount.v ===== *)
(** Synchronising and mounting the on-disk file system (sfs_fs.c): what
    [sfs_sync] writes is what [sfs_do_mount] reads. *)

From S2P Require Import Prelude Bytes Mem Heap Bitmap Iobuf Vfs Sfs SfsSpec SfsMap SfsOps.

Module SfsMount.
Import Bitmap Sfs SfsSpec SfsMap SfsOps.

(** ** The super block as bytes *)

Record super_ok (sb : sfs_super) : Prop := {
  su_magic : magic sb = SFS_MAGIC;
  su_fields : is_u32 (sblocks sb) /\ is_u32 (unused_blocks sb);
  su_info : length (info sb) = 32%nat /\ Forall is_u8 (info sb) /\ arr_get (info sb) 31 = 0
}.

Lemma super_bytes_ok sb : super_ok sb -> length (super_bytes sb) = 44%nat /\ Forall is_u8 (super_bytes sb).
Proof.
  intros [_ _ (Hl & Hu & _)]. unfold super_bytes. rewrite !length_app, !length_le_bytes, Hl. split; [done|].
  rewrite !Forall_app. auto using le_bytes_u8.
Qed.

(** [raw] is the super block [sb] but for the last byte of its label, which the
    kernel overwrites. *)
Record raw_super (raw sb : sfs_super) : Prop := {
  ra_fields : magic raw = magic sb /\ sblocks raw = sblocks sb /\ unused_blocks raw = unused_blocks sb;
  ra_info : length (info raw) = 32%nat /\ arr_set (info raw) SFS_MAX_INFO_LEN 0 = info sb
}.

Lemma raw_super_refl sb : super_ok sb -> raw_super sb sb.
Proof.
  intros [_ _ (Hil & _ & Hi0)]. split; [done|]. split; [done|]. unfold arr_set, arr_get, SFS_MAX_INFO_LEN in *.
  destruct (info sb !! Z.to_nat 31) as [x|] eqn:E.
  - simpl in Hi0. subst x. by apply list_insert_id.
  - apply lookup_ge_None in E. rewrite Hil in E. simpl in E. lia.
Qed.

Lemma super_of_bytes raw sb l : super_ok sb -> raw_super raw sb -> super_of (super_bytes raw ++ l) = raw.
Proof.
  intros [Hm0 [Hb0 Hu0] _] [(Hm1 & Hb1 & Hu1) [Hl _]]. unfold super_of, super_bytes, slice.
  assert (Hmu : is_u32 (magic raw)) by (rewrite Hm1, Hm0; by vm_compute). rewrite <- Hb1 in Hb0. rewrite <- Hu1 in Hu0.
  assert (H4 : forall v, length (le_bytes 4 v) = 4%nat) by (intros; apply length_le_bytes).
  assert (Hd4 : forall v k, drop 4 (le_bytes 4 v ++ k) = k) by (intros; apply drop_app_length'; by rewrite H4).
  assert (Ht4 : forall v k, take 4 (le_bytes 4 v ++ k) = le_bytes 4 v) by (intros; apply take_app_length'; by rewrite H4).
  rewrite drop_0, <- !app_assoc, Ht4, Hd4, Ht4.
  rewrite <- (drop_drop _ 4 4), !Hd4, Ht4. rewrite <- (drop_drop _ 4 8), <- (drop_drop _ 4 4), !Hd4.
  rewrite take_app_length' by done. rewrite !le_val_u32 by done. by destruct raw.
Qed.

Section Mount.
  Context {D H : Type} `{DiskLaws D} `{KW : !KeepsWrites D} `{Heap H}.

Let st := t D H.

(** ** Runs of blocks *)

(** Only the device differs. *)
Definition same_but_dev (s s' : st) : Prop := s' = set_dev (dev s') s.

Lemma wblock_run m : forall (s : st) b buf,
  disk_ok s -> 0 < b -> b + Z.of_nat m <= sblocks (super s) -> length buf = (4096 * m)%nat -> Forall is_u8 buf ->
  exists s', rwblock_loop m buf b true s = Ret ((0, buf), s') /\ disk_ok s' /\ same_but_dev s s' /\
    forall j, 0 <= j -> blk s' j =
      if decide (b <= j < b + Z.of_nat m) then slice (4096 * Z.to_nat (j - b)) 4096 buf else blk s j.
Proof.
  induction m as [|m IH]; intros s b buf Hok Hb Hm Hl Hu; cbn [rwblock_loop].
  { destruct buf; [|simpl in Hl; lia]. exists s. split; [done|]. split; [done|]. split; [unfold same_but_dev; by destruct s|].
    intros j Hj. by rewrite decide_False by lia. }
  assert (Hnb : is_block (take 4096 buf)) by (split; [rewrite length_take; lia|by apply Forall_take]).
  assert (Hsm : is_u32 (b + 1)) by (assert (Hs := disk_small (dev s)); destruct (ok_blocks _ Hok); width).
  rewrite (bind_Ret _ _ _ _ _ (rwblock_write s (take 4096 buf) b true Hok ltac:(lia) ltac:(lia) Hnb)).
  cbn [fst snd negb Z.eqb]. rewrite u32_id by done. set (s1 := set_blk b (take 4096 buf) s).
  assert (Hok1 : disk_ok s1) by (apply set_blk_ok; [done|lia|done]).
  destruct (IH s1 (b + 1) (drop 4096 buf)) as (s2 & Hr & Hok2 & Hsame & Hblk); try done; try lia.
  - change (super s1) with (super s). lia.
  - rewrite length_drop. lia.
  - by apply Forall_drop.
  - exists s2. rewrite (bind_Ret _ _ _ _ _ Hr). cbn [fst snd]. rewrite take_drop.
    split; [done|]. split; [done|]. split; [unfold same_but_dev in *; rewrite Hsame; by destruct s|].
    intros j Hj. rewrite Hblk by done. destruct (decide (b + 1 <= j < b + 1 + Z.of_nat m)).
    + rewrite decide_True by lia. unfold slice. rewrite drop_drop. do 2 f_equal. lia.
    + unfold s1. rewrite (blk_set s) by (done || lia). case_decide as Hc.
      * subst j. rewrite decide_True by lia. rewrite Z.sub_diag. unfold slice. by rewrite drop_0.
      * by rewrite decide_False by lia.
Qed.

(** Reading the blocks directly from the device. *)
Lemma init_read_eq (s : st) i b buf :
  disk (dev s) !! Z.to_nat i = Some b -> 0 <= i -> length buf = 4096%nat ->
  sfs_init_read i buf s = Ret ((0, b), s).
Proof.
  intros Hb Hi Hl. assert (Hlt := lookup_lt_Some _ _ _ Hb). assert (Hs := disk_small (dev s)).
  rewrite disk_blocks in Hs. unfold sfs_init_read, on_dev, SFS_BLKSIZE. rewrite u32_id, s32_id by width.
  replace (i * 4096) with (4096 * Z.of_nat (Z.to_nat i)) by lia.
  rewrite (disk_read _ _ _ _ Hb) by done. by rewrite set_dev_id.
Qed.

Lemma init_freemap_eq m : forall (s : st) b buf l,
  0 <= b -> length buf = (4096 * m)%nat -> length l = (4096 * m)%nat ->
  (forall j, (j < m)%nat -> disk (dev s) !! (Z.to_nat b + j)%nat = Some (slice (4096 * j) 4096 l)) ->
  init_freemap_loop m b buf s = Ret ((0, l), s).
Proof.
  induction m as [|m IH]; intros s b buf l Hb Hl Hll Hd; cbn [init_freemap_loop].
  { destruct buf; [|simpl in Hl; lia]. destruct l; [done|simpl in Hll; lia]. }
  assert (H0d := Hd 0%nat ltac:(lia)). rewrite Nat.add_0_r, Nat.mul_0_r in H0d.
  assert (Hlt := lookup_lt_Some _ _ _ H0d). assert (Hs := disk_small (dev s)). rewrite disk_blocks in Hs.
  rewrite (bind_Ret _ _ _ _ _ (init_read_eq s b _ (take 4096 buf) H0d Hb ltac:(rewrite length_take; lia))).
  cbn [fst snd negb Z.eqb]. rewrite u32_id by width.
  rewrite (bind_Ret _ _ _ _ _ (IH s (b + 1) (drop 4096 buf) (drop 4096 l) ltac:(lia) ltac:(rewrite length_drop; lia)
    ltac:(rewrite length_drop; lia) ltac:(intros j Hj; replace (Z.to_nat (b + 1) + j)%nat with (Z.to_nat b + S j)%nat by lia;
      rewrite Hd by lia; unfold slice; rewrite drop_drop; do 3 f_equal; lia))).
  cbn [fst snd]. unfold slice. rewrite drop_0, take_drop. done.
Qed.

(** ** Synchronisation *)

(** The free map has its blocks after the super block and the root. *)
Record layout_ok (s : st) : Prop := {
  la_super : super_ok (super s);
  la_bits : nbits (freemap s) = sfs_freemap_bits (super s);
  la_map : 2 + sfs_freemap_blocks (super s) <= sblocks (super s)
}.

Lemma freemap_words (s : st) :
  disk_ok s -> layout_ok s -> nwords (freemap s) = 1024 * sfs_freemap_blocks (super s) /\
    nbits (freemap s) = 32768 * sfs_freemap_blocks (super s) /\ 0 < sfs_freemap_blocks (super s).
Proof.
  intros Hok [_ Hb Hm]. assert (Hw := wf_words _ (ok_freemap _ Hok)). destruct (ok_blocks _ Hok) as [Hpos Hle].
  assert (Hs := disk_small (dev s)). rewrite Hb in Hw. unfold sfs_freemap_bits, sfs_freemap_blocks, SFS_BLKBITS, SFS_BLKSIZE in *.
  rewrite Hb. rewrite u32_id in * by width. width.
Qed.

(** The disk holds the super block and the free map of [s]. *)
Record synced (s : st) (d : list (list Z)) : Prop := {
  sy_super : exists raw l, raw_super raw (super s) /\ d !! 0%nat = Some (super_bytes raw ++ l);
  sy_map j : (j < Z.to_nat (sfs_freemap_blocks (super s)))%nat ->
    d !! (2 + j)%nat = Some (slice (4096 * j) 4096 (words_bytes (map (freemap s))))
}.

Lemma sync_super_eq (s : st) :
  disk_ok s -> layout_ok s ->
  let b := splice 0 (super_bytes (super s)) zero_block in
  sfs_sync_super s = Ret (0, set_blk 0 b (set_buffer b s)) /\ is_block b.
Proof.
  intros Hok Hla b. destruct (super_bytes_ok _ (la_super _ Hla)) as [Hl Hu].
  assert (Hb : is_block b) by (apply splice_block; [apply zero_is_block|done|lia]). split; [|done].
  unfold sfs_sync_super. rewrite (bind_Ret _ _ s tt (set_buffer zero_block s)) by done.
  rewrite (bind_Ret _ _ _ tt (set_buffer b s)) by done.
  destruct (ok_blocks _ Hok). apply (rw_buffer_write (set_buffer b s) 0 false); [by apply buffer_ok|simpl; lia|done].
Qed.

Lemma freemap_bytes (s : st) : disk_ok s -> layout_ok s ->
  length (words_bytes (map (freemap s))) = (4096 * Z.to_nat (sfs_freemap_blocks (super s)))%nat.
Proof.
  intros Hok Hla. destruct (freemap_words s Hok Hla) as (Hn & _ & Hp).
  rewrite length_words_bytes, (proj1 (wf_map _ (ok_freemap _ Hok))), Hn. lia.
Qed.

(** [sfs_sync] after the inodes: a modified file system is clean and on the
    disk afterwards. *)
Lemma sync_meta_eq (s : st) :
  disk_ok s -> layout_ok s -> super_dirty s = true ->
  exists s', sync_meta s = Ret (0, s') /\ disk_ok s' /\ super_dirty s' = false /\
    super s' = super s /\ freemap s' = freemap s /\ sins s' = sins s /\ inode_list s' = inode_list s /\
    (forall j, 0 < j -> ~ 2 <= j < 2 + sfs_freemap_blocks (super s) -> blk s' j = blk s j) /\ synced s (disk (dev s')).
Proof.
  intros Hok Hla Hd. unfold sync_meta. rewrite (bind_Ret _ _ s s s) by done. rewrite Hd.
  set (s1 := set_super_dirty false s). rewrite (bind_Ret _ _ s tt s1) by done.
  assert (Hok1 : disk_ok s1) by (destruct Hok; by split). assert (Hla1 : layout_ok s1) by (destruct Hla; by split).
  destruct (sync_super_eq s1 Hok1 Hla1) as [Hs2 Hb]. set (b := splice 0 _ zero_block) in *. set (s2 := set_blk 0 b _) in *.
  rewrite (bind_Ret _ _ _ _ _ Hs2). cbn [negb Z.eqb]. destruct (ok_blocks _ Hok) as [Hpos Hle].
  assert (Hok2 : disk_ok s2) by (apply set_blk_ok; [by apply buffer_ok|simpl; lia|done]).
  assert (Hlen := freemap_bytes s Hok Hla). destruct (freemap_words s Hok Hla) as (_ & _ & Hnb).
  assert (Hfit := la_map _ Hla). set (nb := sfs_freemap_blocks (super s)) in *.
  destruct (wblock_run (Z.to_nat nb) s2 2 (words_bytes (map (freemap s)))) as (s3 & Hr & Hok3 & Hsame & Hblk); try done.
  { change (super s2) with (super s). lia. }
  { apply words_bytes_u8. }
  exists s3. assert (Hf : sfs_sync_freemap s2 = Ret (0, s3)).
  { unfold sfs_sync_freemap. rewrite (bind_Ret _ _ s2 s2 s2) by done. by rewrite (bind_Ret _ _ _ _ _ Hr). }
  rewrite (bind_Ret _ _ _ _ _ Hf). split; [done|]. split; [done|].
  unfold same_but_dev in Hsame. split; [by rewrite Hsame|]. split; [by rewrite Hsame|]. split; [by rewrite Hsame|].
  split; [by rewrite Hsame|]. split; [by rewrite Hsame|]. assert (Hsup : super s3 = super s) by (by rewrite Hsame).
  assert (Hblk2 : forall j, 0 <= j -> blk s2 j = if decide (j = 0) then b else blk s j).
  { intros j Hj. apply (blk_set (set_buffer b s1)); [by apply buffer_ok|simpl; lia|done|lia]. }
  split; [|split].
  - intros j Hj Hm. rewrite Hblk, decide_False by lia. rewrite Hblk2, decide_False by lia. done.
  - exists (super s), (drop (length (super_bytes (super s))) zero_block). split; [apply raw_super_refl, Hla|]. rewrite (blk_lookup s3 0) by (done || (rewrite Hsup; lia)).
    rewrite Hblk by lia. rewrite decide_False by lia. by rewrite Hblk2.
  - intros j Hj. fold nb in Hj. assert (Hl := blk_lookup s3 (2 + Z.of_nat j) Hok3 ltac:(rewrite Hsup; lia)).
    replace (Z.to_nat (2 + Z.of_nat j)) with (2 + j)%nat in Hl by lia. rewrite Hl, Hblk by lia.
    rewrite decide_True by lia. do 3 f_equal. lia.
Qed.

(** ** Mounting *)

(** The heap can give blocks of these sizes, one after the other. *)
Fixpoint heap_gives (sizes : list Z) (h : H) : Prop :=
  match sizes with
  | [] => True
  | n :: sizes => exists p h', kmalloc n h = Ret (p, h') /\ p <> 0 /\ heap_gives sizes h'
  end.

Lemma sfs_kmalloc_eq (s : st) n p h : kmalloc n (heap s) = Ret (p, h) -> kmalloc n s = Ret (p, set_heap h s).
Proof. intros Hk. cbn [kmalloc sfs_heap]. unfold on_sheap. by rewrite Hk. Qed.

(** A new map of whole words. *)
Lemma bitmap_create_eq (s : st) k sizes :
  0 < k -> 32 * k + 32 < 0x100000000 -> heap_gives (sizeof_bitmap :: 4 * k :: sizes) (heap s) ->
  exists p q h, bitmap_create (32 * k) s = Ret (Some (Bitmap.mk p (32 * k) k q (replicate (Z.to_nat k) 0xffffffff)), set_heap h s) /\
    q <> 0 /\ heap_gives sizes h.
Proof.
  intros Hk Hs (p & h1 & Hp & Hp0 & q & h2 & Hq & Hq0 & Hrest). exists p, q, h2. split; [|done].
  unfold bitmap_create, WORD_BITS. rewrite (u32_id (32 * k + 32)) by width.
  replace (negb (32 * k =? 0) && (32 * k <? 32 * k + 32)) with true by lia.
  rewrite (bind_Ret _ _ s tt s) by done.
  rewrite (bind_Ret _ _ _ _ _ (sfs_kmalloc_eq s _ _ _ Hp)). rewrite (proj2 (Z.eqb_neq _ _) Hp0).
  assert (Hnw : ROUNDUP_DIV (32 * k) 32 = k) by (unfold ROUNDUP_DIV; rewrite u32_id by width; width).
  rewrite Hnw, (u32_id (4 * k)) by width.
  rewrite (bind_Ret _ _ _ _ _ (sfs_kmalloc_eq (set_heap h1 s) _ _ _ Hq)). rewrite (proj2 (Z.eqb_neq _ _) Hq0).
  rewrite (u32_id (k * 32)) by width. by replace (32 * k =? k * 32) with true by lia.
Qed.

(** Counting the free blocks. *)
Lemma count_free_eq n : forall (b : bitmap) i u,
  0 <= i -> i + Z.of_nat n <= nbits b ->
  count_free n i u b = Ret (u + Z.of_nat (length (filter (fun j => free b j = true) (seqZ i (Z.of_nat n)))), b).
Proof.
  induction n as [|n IH]; intros b i u Hi Hn; cbn [count_free]; [by rewrite Z.add_0_r|].
  destruct (bitmap_test_eq b i ltac:(lia)) as (w & Hw & Hz). rewrite (bind_Ret _ _ _ _ _ Hw), IH by lia.
  rewrite Hz, (seqZ_cons i (Z.of_nat (S n))) by lia. replace (Z.pred (Z.of_nat (S n))) with (Z.of_nat n) by lia. unfold Z.succ.
  destruct (free b i) eqn:E; [rewrite filter_cons_True by done|rewrite filter_cons_False by (by rewrite E)];
    cbn [negb length]; do 2 f_equal; lia.
Qed.

Lemma count_all (b : bitmap) : 0 <= nbits b -> count_free (Z.to_nat (nbits b)) 0 0 b = Ret (Z.of_nat (base.size (free_set b)), b).
Proof.
  intros Hb. rewrite count_free_eq by lia. unfold free_set.
  rewrite size_list_to_set by (apply NoDup_filter, NoDup_seqZ). by rewrite Z2Nat.id by lia.
Qed.

Lemma freemap_blocks_bits (sb : sfs_super) : sfs_freemap_bits sb = 32 * (1024 * sfs_freemap_blocks sb).
Proof. unfold sfs_freemap_bits, sfs_freemap_blocks, SFS_BLKBITS, SFS_BLKSIZE. width. Qed.

Section DoMount.
  Context (s s0 : st).
  Hypothesis Hok : disk_ok s.
  Hypothesis Hla : layout_ok s.
  Hypothesis Hdev : sblocks (super s) <= d_blocks (dev s0).
  Hypothesis Hsync : synced s (disk (dev s0)).

Let nb := sfs_freemap_blocks (super s).

(** The free map is read back. *)
Lemma mount_freemap_eq s1 sizes :
  dev s1 = dev s0 -> heap_gives (sizeof_bitmap :: 4 * (1024 * nb) :: sizes) (heap s1) ->
  exists b h, mount_freemap (super s) s1 = Ret ((0, Some b), set_freemap b (set_heap h s1)) /\ heap_gives sizes h /\
    map b = map (freemap s) /\ nbits b = nbits (freemap s) /\ nwords b = nwords (freemap s).
Proof using Hok Hla Hdev Hsync.
  intros Hd1 Hh. destruct (freemap_words s Hok Hla) as (Hnw & Hnbits & Hpos). fold nb in Hnw, Hnbits, Hpos.
  destruct (wf_size _ (ok_freemap _ Hok)) as [_ Hsz]. assert (Hlen := freemap_bytes s Hok Hla). fold nb in Hlen.
  destruct (bitmap_create_eq s1 (1024 * nb) sizes ltac:(lia) ltac:(lia) Hh) as (p & q & h & Hc & Hq & Hrest).
  unfold mount_freemap. rewrite freemap_blocks_bits. fold nb. rewrite (bind_Ret _ _ _ _ _ Hc). cbv match.
  set (b0 := Bitmap.mk _ _ _ _ _). set (s2 := set_heap h s1).
  set (b := set_map (map (freemap s)) b0).
  assert (Hm := wf_map _ (ok_freemap _ Hok)). destruct Hm as [Hml Hmu].
  assert (Hif : sfs_init_freemap b0 SFS_BLKN_FREEMAP nb s2 = Ret ((0, b), s2)).
  { unfold sfs_init_freemap, bitmap_getdata. cbn [fst snd map_addr nwords b0 map]. unfold SFS_BLKSIZE, SFS_BLKN_FREEMAP.
    rewrite (proj2 (Z.eqb_neq _ _) Hq). replace (nb * 4096) with (4 * (1024 * nb)) by lia. rewrite Z.eqb_refl.
    rewrite (bind_Ret _ _ s2 tt s2) by done.
    rewrite (bind_Ret _ _ _ _ _ (init_freemap_eq (Z.to_nat nb) s2 2 (words_bytes (replicate (Z.to_nat (1024 * nb)) 0xffffffff))
      (words_bytes (map (freemap s))) ltac:(lia) ltac:(rewrite length_words_bytes, length_replicate; lia) ltac:(lia)
      ltac:(intros j Hj; cbn [dev set_heap s2]; rewrite Hd1; by apply (sy_map _ _ Hsync)))).
    cbn [fst snd]. unfold b. rewrite length_replicate.
    replace (Z.to_nat (1024 * nb)) with (length (map (freemap s))) by (rewrite Hml; lia). by rewrite words_of_bytes. }
  rewrite (bind_Ret _ _ _ _ _ Hif). cbn [fst snd negb Z.eqb]. set (s3 := set_freemap b s2).
  rewrite (bind_Ret _ _ s2 tt s3) by done.
  assert (Hcount : on_freemap (count_free (Z.to_nat (32 * (1024 * nb))) 0 0) s3 = Ret (unused_blocks (super s), s3)).
  { assert (Hca := count_all b ltac:(simpl; lia)). change (nbits b) with (32 * (1024 * nb)) in Hca.
    unfold on_freemap. change (freemap s3) with b. rewrite Hca. rewrite (ok_unused _ Hok). do 4 f_equal.
    unfold free_set. change (nbits b) with (32 * (1024 * nb)). do 3 f_equal. lia. }
  rewrite (bind_Ret _ _ _ _ _ Hcount), Z.eqb_refl. exists b, h. split; [done|]. split; [done|]. split; [done|].
  cbn [nbits nwords b b0 set_map]. lia.
Qed.

(** What [sfs_do_mount] finds on such a disk. *)
Lemma do_mount_eq :
  heap_gives [sizeof_fs; SFS_BLKSIZE; 8 * SFS_HLIST_SIZE; sizeof_bitmap; 4 * (1024 * nb)] (heap s0) ->
  exists p s1, do_mount s0 = Ret ((0, p), s1) /\ p <> 0 /\ fs_addr s1 = p /\ disk_ok s1 /\ dev s1 = dev s0 /\
    super s1 = super s /\ map (freemap s1) = map (freemap s) /\ nbits (freemap s1) = nbits (freemap s) /\
    super_dirty s1 = false /\ inode_list s1 = [] /\ sins s1 = ∅.
Proof using Hok Hla Hdev Hsync.
  intros (p & h1 & Hp & Hp0 & q & h2 & Hq & Hq0 & r & h3 & Hr & Hr0 & Hrest).
  destruct (la_super _ Hla) as [Hmag Hflds (Hil & Hiu & Hi0)].
  destruct (sy_super _ _ Hsync) as (raw & tl & Hraw & Hsb). destruct (Hraw) as [(R1 & R2 & R3) [R4 Hinfo]]. assert (Hblk := disk_block _ _ _ Hsb).
  unfold do_mount. rewrite (bind_Ret _ _ s0 s0 s0) by done. rewrite disk_blocksize. change (4096 =? SFS_BLKSIZE) with true. cbn [negb].
  rewrite (bind_Ret _ _ _ _ _ (sfs_kmalloc_eq s0 _ _ _ Hp)), (proj2 (Z.eqb_neq _ _) Hp0).
  rewrite (bind_Ret _ _ _ _ _ (sfs_kmalloc_eq (set_heap h1 s0) _ _ _ Hq)), (proj2 (Z.eqb_neq _ _) Hq0).
  set (s2 := set_heap h2 s0). change (set_heap h2 (set_heap h1 s0)) with s2.
  rewrite (bind_Ret _ _ _ _ _ (init_read_eq s2 0 _ (replicate 4096 0) Hsb ltac:(lia) (length_replicate _ _))).
  cbn [fst snd negb Z.eqb]. rewrite (super_of_bytes raw (super s)) by (apply Hla || done). rewrite R1, R2, R3, Hmag, Z.eqb_refl. cbn [negb].
  replace (d_blocks (dev s0) <? sblocks (super s)) with false by lia.
  rewrite Hinfo. assert (Hsup : mk_super SFS_MAGIC (sblocks (super s)) (unused_blocks (super s)) (info (super s)) = super s).
  { rewrite <- Hmag. by destruct (super s). }
  cbv zeta. rewrite Hsup.
  rewrite (bind_Ret _ _ _ _ _ (sfs_kmalloc_eq s2 _ _ _ Hr)), (proj2 (Z.eqb_neq _ _) Hr0).
  set (s3 := set_heap h3 s2).
  destruct (mount_freemap_eq s3 [] eq_refl Hrest) as (b & h4 & Hm & _ & Hb1 & Hb2 & Hb3).
  rewrite (bind_Ret _ _ _ _ _ Hm). cbn [snd]. rewrite (bind_Ret _ _ _ _ _ (eq_refl : get _ = Ret (_, _))).
  eexists p, _. split; [unfold mbind, M_bind, put, mret, M_ret; reflexivity|].
  split; [done|]. split; [done|]. split; [|by split_and!].
  assert (Hfree : forall i, free b i = free (freemap s) i) by (intros i; unfold free; by rewrite Hb1).
  assert (Hset : free_set b = free_set (freemap s)).
  { apply set_eq. intros i. rewrite !elem_free_set. by rewrite Hfree, Hb2. }
  split; cbn [sfs_buffer super dev freemap].
  - apply splice_block; [done|done|]. rewrite Hil. lia.
  - destruct (ok_blocks _ Hok). split; [done|exact Hdev].
  - destruct (ok_freemap _ Hok) as [? ? ? ?]. split; rewrite ?Hb1, ?Hb2, ?Hb3; try done.
    intros i Hi. rewrite Hfree. auto.
  - rewrite Hb2. apply (ok_bits _ Hok).
  - intros i Hi Hf. rewrite Hfree in Hf. apply (ok_free _ Hok i Hi Hf).
  - rewrite Hset. apply (ok_unused _ Hok).
Qed.

End DoMount.

End Mount.
End SfsMount.
