(* ===== verification/SfsSync.v ===== *)
(** Durability of the on-disk file system: [sfs_sync] brings every inode and the
    free map to the disk, and mounting the disk again finds every file. *)

From S2P Require Import Prelude Bytes Mem Heap Bitmap Iobuf Vfs Sfs SfsSpec SfsMap SfsOps SfsFile SfsMount.

Module SfsSync.
Import Bitmap Vfs.Vfs Sfs SfsSpec SfsMap SfsOps SfsFile SfsMount.

(** ** An inode as bytes *)

Record din_ok (d : sfs_disk_inode) : Prop := {
  di_size : is_u32 (size d) /\ is_u32 (blocks d) /\ is_u32 (indirect d);
  di_small : 0 <= type d < 65536 /\ 0 <= nlinks d < 65536;
  di_direct : length (direct d) = 12%nat /\ Forall is_u32 (direct d)
}.

Lemma din_bytes_ok d : din_ok d -> length (din_bytes d) = 64%nat /\ Forall is_u8 (din_bytes d).
Proof.
  intros [_ _ [Hl _]]. unfold din_bytes.
  rewrite !length_app, !length_le_bytes, length_words_bytes, Hl. split; [done|].
  rewrite !Forall_app. auto 10 using le_bytes_u8, words_bytes_u8.
Qed.

Lemma drop_le n v l k : drop (n + k) (le_bytes n v ++ l) = drop k l.
Proof. rewrite <- drop_drop. f_equal. apply drop_app_length'. by rewrite length_le_bytes. Qed.

Lemma take_le n v l : take n (le_bytes n v ++ l) = le_bytes n v.
Proof. apply take_app_length'. by rewrite length_le_bytes. Qed.

(** What [sfs_load_inode] reads is what [sfs_fsync] wrote. *)
Lemma din_of_bytes d l : din_ok d -> din_of (din_bytes d ++ l) = d.
Proof.
  intros [(Hs & Hb & Hi) (Ht & Hn) [Hl Hu]]. unfold din_of, din_bytes, slice. rewrite <- !app_assoc.
  rewrite drop_0, take_le. change (drop 60) with (drop (A := Z) (4 + (2 + (2 + (4 + 48))))). change (drop 12) with (drop (A := Z) (4 + (2 + (2 + (4 + 0))))).
  change (drop 8) with (drop (A := Z) (4 + (2 + (2 + 0)))). change (drop 6) with (drop (A := Z) (4 + (2 + 0))).
  change (drop 4) with (drop (A := Z) (4 + 0)). rewrite !drop_le, !drop_0, !take_le.
  rewrite take_app_length', drop_app_length', take_le by (rewrite length_words_bytes, Hl; done).
  rewrite !le_val_u32 by done. rewrite !le_val_bytes by (simpl; lia).
  rewrite <- Hl at 1. rewrite words_of_bytes by done. by destruct d.
Qed.

Section Sync.
  Context {D H : Type} `{DiskLaws D} `{KW : !KeepsWrites D} `{Heap H}.

Let st := t D H.

(** ** Files that are left alone *)

Section Same.
  Context (s s' : st).
  Hypothesis Hsup : super s' = super s.
  Hypothesis Hmap : freemap s' = freemap s \/ forall j, free (freemap s') j = free (freemap s) j.

Lemma in_use_same j : in_use s j -> in_use s' j.
Proof using Hsup Hmap.
  unfold in_use, in_range. rewrite Hsup. destruct Hmap as [He|He]; [by rewrite He|by rewrite He].
Qed.

Lemma same_file d : file_ok s d -> (forall j, j ∈ own s d -> blk s' j = blk s j) ->
  own s' d = own s d /\ file_ok s' d /\ data s' d = data s d.
Proof using Hsup Hmap.
  intros [Hd Hb Hr Hn Hu] Hblk.
  assert (Hi : indirect d <> 0 -> blk s' (indirect d) = blk s (indirect d)).
  { intros Hi. apply Hblk. apply elem_of_app. left. by apply table_in. }
  assert (Hfb : file_blocks s' d = file_blocks s d) by (by apply file_blocks_blk).
  assert (Ho : own s' d = own s d) by (unfold own; by rewrite Hfb).
  split; [done|]. split.
  - split; [done|done| |by rewrite Ho|].
    + intros k Hk. rewrite (entry_blk s s') by done. by apply Hr.
    + rewrite Ho. apply (Forall_impl _ _ _ Hu). apply in_use_same.
  - unfold data. rewrite Hfb. f_equal. apply list_fmap_ext. intros ? j Hj%list_elem_of_lookup_2.
    apply Hblk. apply elem_of_app. by right.
Qed.

End Same.

(** The states have the same inodes, up to their marks, and the same files. *)
Record same_files (s s' : st) : Prop := {
  sf_super : super s' = super s;
  sf_map : freemap s' = freemap s;
  sf_list : inode_list s' = inode_list s;
  sf_to n i : sins s !! n = Some i -> exists b, sins s' !! n = Some (set_din (din i) b i) /\ (dirty i = false -> b = false);
  sf_of n i' : sins s' !! n = Some i' -> is_Some (sins s !! n);
  sf_blk n i j : sins s !! n = Some i -> j ∈ own s (din i) -> blk s' j = blk s j
}.

Lemma same_of s s' n i' : same_files s s' -> sins s' !! n = Some i' ->
  exists i, sins s !! n = Some i /\ din i' = din i /\ ino i' = ino i /\ (dirty i = false -> dirty i' = false).
Proof.
  intros Hs Hi'. destruct (sf_of _ _ Hs n i' Hi') as [i Hi]. destruct (sf_to _ _ Hs n i Hi) as (b & Hb & Hd).
  exists i. rewrite Hi' in Hb. injection Hb as ->. done.
Qed.

Lemma same_refl s : same_files s s.
Proof. split; try done. intros n i Hi. exists (dirty i). by rewrite set_din_id. Qed.

Lemma same_data s s' n i : fs_ok s -> same_files s s' -> sins s !! n = Some i ->
  own s' (din i) = own s (din i) /\ file_ok s' (din i) /\ data s' (din i) = data s (din i).
Proof.
  intros Hok Hs Hn. apply (same_file s s'); [apply Hs|left; apply Hs|by apply (fs_file _ Hok n)|].
  intros j. by apply (sf_blk _ _ Hs n).
Qed.

Lemma same_trans s1 s2 s3 : fs_ok s1 -> same_files s1 s2 -> same_files s2 s3 -> same_files s1 s3.
Proof.
  intros Hok H12 H23. assert (H12' := H12). assert (H23' := H23).
  destruct H12' as [A1 B1 C1 T1 O1 _], H23' as [A2 B2 C2 T2 O2 K2].
  split; try congruence.
  - intros n i Hn. destruct (T1 n i Hn) as (b & Hb & Hd). destruct (T2 n _ Hb) as (b' & Hb' & Hd'). exists b'. auto.
  - intros n i Hn. destruct (O2 n i Hn) as [i2 Hi2]. eauto.
  - intros n i j Hn Hj. destruct (T1 n i Hn) as (b & Hb & _). destruct (same_data s1 s2 n i Hok H12 Hn) as (Ho & _).
    rewrite (K2 n _ j Hb) by (simpl; by rewrite Ho). by apply (sf_blk _ _ H12 n i).
Qed.

Lemma same_fs_ok s s' : fs_ok s -> disk_ok s' -> same_files s s' -> fs_ok s'.
Proof.
  intros Hok Hd Hs.
  assert (Hown : forall n i', sins s' !! n = Some i' -> exists i, sins s !! n = Some i /\ owned s' i' = owned s i /\
    file_ok s' (din i') /\ in_use s' (ino i') /\ ino i' ∉ own s' (din i')).
  { intros n i' Hi'. destruct (same_of s s' n i' Hs Hi') as (i & Hi & He & Hn & _). exists i.
    destruct (same_data s s' n i Hok Hs Hi) as (Ho & Hf & _). destruct (fs_ino _ Hok n i Hi) as [Hu Hni].
    unfold owned. rewrite He, Hn, Ho. split_and!; try done. apply (in_use_same s); [apply Hs|left; apply Hs|done]. }
  split; [done| | |].
  - intros n i Hi. by destruct (Hown n i Hi) as (? & _ & _ & ? & _).
  - intros n i Hi. destruct (Hown n i Hi) as (? & _ & _ & _ & ? & ?). done.
  - intros n1 n2 i1 i2 j Hne Hx1 Hx2. destruct (Hown _ _ Hx1) as (k1 & Hk1 & -> & _), (Hown _ _ Hx2) as (k2 & Hk2 & -> & _).
    by apply (fs_apart _ Hok n1 n2).
Qed.

(** ** The invariant of the marks *)

(** The inode is on the disk. *)
Definition stored (s : st) (i : sfs_inode) : Prop := exists l, blk s (ino i) = din_bytes (din i) ++ l.

(** The blocks of the free map. *)
Definition map_block (s : st) (j : Z) : Prop := 2 <= j < 2 + sfs_freemap_blocks (super s).

(** The inodes are listed, no block of theirs belongs to the free map, and what
    is not marked is on the disk. *)
Record sync_ok (s : st) : Prop := {
  so_fs : fs_ok s;
  so_layout : layout_ok s;
  so_list n : n ∈ inode_list s <-> is_Some (sins s !! n);
  so_din n i : sins s !! n = Some i -> din_ok (din i);
  so_apart n i j : sins s !! n = Some i -> j ∈ owned s i -> ~ map_block s j;
  so_clean n i : sins s !! n = Some i -> dirty i = false -> stored s i;
  so_super : super_dirty s = false -> synced s (disk (dev s))
}.

(** What [sfs_fsync] does to the file system. *)
Definition flush (n : Z) (i : sfs_inode) (s : st) : st :=
  if dirty i then
    written (ino i) 0 (din_bytes (din i)) (set_sins (<[n := set_din (din i) false i]> (sins s)) s)
  else s.

Section Flush.
  Context (s : st) (n : Z) (i : sfs_inode).
  Hypothesis Hok : sync_ok s.
  Hypothesis Hn : sins s !! n = Some i.
  Hypothesis Hdirty : dirty i = true.

Let s1 := set_sins (<[n := set_din (din i) false i]> (sins s)) s.

Lemma flush_bytes : disk_ok s1 /\ 0 < ino i < sblocks (super s1) /\ Forall is_u8 (din_bytes (din i)) /\
  length (din_bytes (din i)) = 64%nat.
Proof using Hok Hn Hdirty.
  destruct (din_bytes_ok _ (so_din _ Hok n i Hn)) as [Hl Hu]. destruct (fs_ino _ (so_fs _ Hok) n i Hn) as [[Hr _] _].
  split; [destruct (fs_disk _ (so_fs _ Hok)); by split|]. by split.
Qed.

Lemma flush_blk j : 0 <= j ->
  blk (flush n i s) j = if decide (j = ino i) then splice 0 (din_bytes (din i)) (blk s (ino i)) else blk s j.
Proof using Hok Hn Hdirty.
  intros Hj. destruct flush_bytes as (Hd & Hi & Hu & Hl). unfold flush. rewrite Hdirty.
  apply (written_blk s1 (ino i) 0 (din_bytes (din i)) Hd Hi Hu); [lia|done].
Qed.

Lemma flush_sins : sins (flush n i s) = <[n := set_din (din i) false i]> (sins s).
Proof using Hdirty. unfold flush. by rewrite Hdirty. Qed.

Lemma flush_disk_ok : disk_ok (flush n i s).
Proof using Hok Hn Hdirty.
  destruct flush_bytes as (Hd & Hi & Hu & Hl). unfold flush. rewrite Hdirty. apply written_ok; [done..|lia].
Qed.

Lemma flush_same : same_files s (flush n i s).
Proof using Hok Hn Hdirty.
  assert (Hs := flush_sins). split; try (unfold flush; by rewrite Hdirty).
  - intros m k Hm. rewrite Hs. destruct (decide (m = n)) as [->|Hne].
    + rewrite Hn in Hm. injection Hm as <-. exists false. by rewrite lookup_insert_eq.
    + exists (dirty k). rewrite lookup_insert_ne by done. by rewrite set_din_id.
  - intros m k. rewrite Hs. intros [[<- _]|[_ Hm]]%lookup_insert_Some; eauto.
  - intros m k j Hm Hj. assert (Hu := owned_use s m k j (so_fs _ Hok) Hm ltac:(apply elem_of_cons; by right)).
    destruct Hu as [[Hj0 _] _]. rewrite flush_blk by lia. rewrite decide_False; [done|]. intros ->.
    destruct (decide (m = n)) as [->|Hne].
    + rewrite Hn in Hm. injection Hm as <-. by apply (fs_ino _ (so_fs _ Hok) n i Hn).
    + apply (fs_apart _ (so_fs _ Hok) m n k i (ino i) Hne Hm Hn); apply elem_of_cons; [by right|by left].
Qed.

Lemma flush_stored : stored (flush n i s) i.
Proof using Hok Hn Hdirty.
  destruct flush_bytes as (Hd & Hi & Hu & Hl). unfold stored. rewrite flush_blk by lia. rewrite decide_True by done.
  eexists. unfold splice. rewrite take_0. done.
Qed.

Lemma flush_sync_ok : sync_ok (flush n i s).
Proof using Hok Hn Hdirty.
  assert (Hs := flush_same). assert (Hfs := same_fs_ok s _ (so_fs _ Hok) flush_disk_ok Hs).
  assert (Hsup := sf_super _ _ Hs). assert (Hmap := sf_map _ _ Hs).
  destruct flush_bytes as (Hd & Hi & Hu & Hl).
  split; [done| | | | | |].
  - destruct (so_layout _ Hok). split; by rewrite ?Hsup, ?Hmap.
  - intros m. rewrite (sf_list _ _ Hs), (so_list _ Hok). split; intros [k Hk].
    + destruct (sf_to _ _ Hs m k Hk) as (b & Hb & _). eauto.
    + by apply (sf_of _ _ Hs m k).
  - intros m k Hk. destruct (same_of _ _ m k Hs Hk) as (k0 & Hk0 & -> & _). by apply (so_din _ Hok m).
  - intros m k j Hk Hj. destruct (same_of _ _ m k Hs Hk) as (k0 & Hk0 & He & Hx & _).
    destruct (same_data s _ m k0 (so_fs _ Hok) Hs Hk0) as (Ho & _). unfold map_block. rewrite Hsup.
    apply (so_apart _ Hok m k0 j Hk0). unfold owned in *. by rewrite He, Ho, Hx in Hj.
  - intros m k Hk Hc. destruct (same_of _ _ m k Hs Hk) as (k0 & Hk0 & He & Hx & _).
    destruct (decide (m = n)) as [->|Hne].
    + rewrite Hn in Hk0. injection Hk0 as <-. unfold stored. rewrite He, Hx. apply flush_stored.
    + destruct (fs_ino _ (so_fs _ Hok) m k0 Hk0) as [[[Hr _] _] _].
      assert (Hc0 : dirty k0 = false).
      { rewrite flush_sins, lookup_insert_ne in Hk by done. congruence. }
      unfold stored. rewrite He, Hx, flush_blk by lia. rewrite decide_False; [by apply (so_clean _ Hok m)|].
      intros Heq. apply (fs_apart _ (so_fs _ Hok) m n k0 i (ino i) Hne Hk0 Hn); apply elem_of_cons; by left.
  - intros Hsd. assert (Hsd0 : super_dirty s = false) by (unfold flush in Hsd; by rewrite Hdirty in Hsd).
    destruct (so_super _ Hok Hsd0) as [Hs0 Hs1]. assert (Hb := ok_blocks _ (fs_disk _ (so_fs _ Hok))).
    assert (Hla := la_map _ (so_layout _ Hok)).
    assert (Hsame : forall j, 0 <= j < sblocks (super s) -> j <> ino i -> disk (dev (flush n i s)) !! Z.to_nat j = disk (dev s) !! Z.to_nat j).
    { intros j Hj Hji. rewrite (blk_lookup s) by (done || apply Hok). rewrite (blk_lookup (flush n i s)) by (apply flush_disk_ok || by rewrite Hsup).
      rewrite flush_blk by lia. by rewrite decide_False. }
    split.
    + rewrite Hsup. change 0%nat with (Z.to_nat 0). rewrite Hsame by lia. done.
    + rewrite Hsup, Hmap. intros j Hj. replace (2 + j)%nat with (Z.to_nat (2 + Z.of_nat j)) by lia.
      rewrite Hsame; [|lia|]. { replace (Z.to_nat (2 + Z.of_nat j)) with (2 + j)%nat by lia. by apply Hs1. }
      intros Heq. apply (so_apart _ Hok n i (ino i) Hn); [apply elem_of_cons; by left|]. unfold map_block. lia.
Qed.

End Flush.

(** ** Synchronisation *)

Let E := env (t D H).

(** The consistency check before every operation passes. *)
Definition ready (e : E) (n : Z) : Prop :=
  n <> 0 /\ exists x, inodes e !! n = Some x /\ 0 <= open_count x <= ref_count x /\ ref_count x < MAX_INODE_COUNT.

Lemma vop_ready {A} (op : Z -> M E A) (e : E) n : ready e n -> vop_known op n e = op n e.
Proof.
  intros [Hn (x & Hx & Ho & Hr)]. unfold vop_known, inode_check. rewrite (proj2 (Z.eqb_neq _ _) Hn).
  assert (Hl : load_inode n e = Ret (x, e)) by (unfold load_inode; by rewrite Hx).
  unfold mbind, M_bind at 1 2 3 4. cbn [negb assert_]. unfold mret, M_ret. rewrite Hl.
  replace ((open_count x <=? ref_count x) && (0 <=? open_count x)) with true by lia. cbn [assert_].
  unfold mret, M_ret. replace ((ref_count x <? MAX_INODE_COUNT) && (open_count x <? MAX_INODE_COUNT)) with true by lia.
  done.
Qed.

Lemma fsync_eq (e : E) n i :
  sync_ok (fsys e) -> sins (fsys e) !! n = Some i -> sfs_fsync n e = Ret (0, mk_env (inodes e) (flush n i (fsys e)) (vmem e)).
Proof.
  intros Hok Hn. unfold sfs_fsync.
  rewrite (bind_Ret _ _ e i e) by (unfold on_heap; rewrite (load_sin_eq _ _ _ Hn); by destruct e).
  unfold flush. destruct (dirty i) eqn:Hd; [|by destruct e].
  destruct (flush_bytes (fsys e) n i Hok Hn Hd) as (Hdk & Hi & Hu & Hl).
  set (s1 := set_sins _ (fsys e)) in *. rewrite (bind_Ret _ _ e tt (mk_env (inodes e) s1 (vmem e))) by done.
  assert (Hw := sfs_wbuf_eq s1 (din_bytes (din i)) 64 (ino i) 0 Hdk Hi ltac:(lia) ltac:(lia) ltac:(lia) Hl Hu).
  rewrite (bind_Ret _ _ _ (0, din_bytes (din i)) (mk_env (inodes e) (written (ino i) 0 (din_bytes (din i)) s1) (vmem e))); [done|].
  unfold on_heap. cbn [fsys]. unfold sizeof_din. by rewrite Hw.
Qed.

Lemma flush_step (s : st) n i : sync_ok s -> sins s !! n = Some i ->
  sync_ok (flush n i s) /\ same_files s (flush n i s) /\ super_dirty (flush n i s) = super_dirty s /\
  sins (flush n i s) !! n = Some (set_din (din i) false i).
Proof.
  intros Hok Hn. destruct (dirty i) eqn:Hd.
  - split; [by apply flush_sync_ok|]. split; [by apply flush_same|].
    rewrite flush_sins by done. rewrite lookup_insert_eq. unfold flush. by rewrite Hd.
  - unfold flush. rewrite Hd. split; [done|]. split; [apply same_refl|]. split; [done|].
    rewrite <- Hd. by rewrite set_din_id.
Qed.

Lemma fsync_all_eq l : forall (e : E),
  sync_ok (fsys e) -> Forall (ready e) l -> Forall (fun n => is_Some (sins (fsys e) !! n)) l ->
  exists s', fsync_all l e = Ret (tt, mk_env (inodes e) s' (vmem e)) /\ sync_ok s' /\ same_files (fsys e) s' /\
    super_dirty s' = super_dirty (fsys e) /\ forall n i, n ∈ l -> sins s' !! n = Some i -> dirty i = false.
Proof.
  induction l as [|n l IH]; intros e Hok Hr Hs; cbn [fsync_all].
  { exists (fsys e). split; [by destruct e|]. split; [done|]. split; [apply same_refl|]. split; [done|]. set_solver. }
  apply Forall_cons in Hr as [Hrn Hr], Hs as [[i Hi] Hs].
  set (e1 := mk_env (inodes e) (flush n i (fsys e)) (vmem e)).
  rewrite (bind_Ret _ _ e 0 e1) by (by rewrite vop_ready, (fsync_eq e n i) by done).
  destruct (flush_step (fsys e) n i Hok Hi) as (Hok1 & Hs1 & Hsd & Hn1).
  destruct (IH e1 Hok1 Hr) as (s' & Hf & Hok' & Hs' & Hsd' & Hc).
  { apply (Forall_impl _ _ _ Hs). intros m [k Hk]. destruct (sf_to _ _ Hs1 m k Hk) as (b & Hb & _). eauto. }
  exists s'. split; [done|]. split; [done|]. split; [by apply (same_trans _ (flush n i (fsys e))); [apply Hok|..]|].
  split; [simpl in Hsd'; congruence|]. intros m k [->|Hm]%elem_of_cons Hk; [|by apply (Hc m)].
  destruct (sf_to _ _ Hs' n _ Hn1) as (b & Hb & Hdb). cbn [fsys e1] in Hb. rewrite Hk in Hb. injection Hb as ->. by apply Hdb.
Qed.

Lemma sync_meta_step (s : st) : sync_ok s ->
  exists s', sync_meta s = Ret (0, s') /\ sync_ok s' /\ same_files s s' /\ super_dirty s' = false /\ sins s' = sins s.
Proof.
  intros Hok. destruct (super_dirty s) eqn:Hsd.
  2: { exists s. split; [unfold sync_meta; rewrite (bind_Ret _ _ s s s) by done; by rewrite Hsd|]. by split_and!; try apply same_refl. }
  destruct (sync_meta_eq s (fs_disk _ (so_fs _ Hok)) (so_layout _ Hok) Hsd)
    as (s' & Hr & Hd & Hsd' & Hsup & Hmap & Hsins & Hlist & Hblk & Hsy).
  exists s'. split; [done|].
  assert (Hb : forall n i j, sins s !! n = Some i -> j ∈ owned s i -> blk s' j = blk s j).
  { intros n i j Hn Hj. destruct (owned_use s n i j (so_fs _ Hok) Hn Hj) as [[Hj0 _] _].
    apply Hblk; [lia|]. by apply (so_apart _ Hok n i). }
  assert (Hs : same_files s s').
  { split; try done.
    - intros n i Hn. exists (dirty i). by rewrite Hsins, set_din_id.
    - intros n i. rewrite Hsins. eauto.
    - intros n i j Hn Hj. apply (Hb n i j Hn). apply elem_of_cons. by right. }
  split; [|done]. assert (Hfs := same_fs_ok s s' (so_fs _ Hok) Hd Hs).
  assert (Hown : forall n i, sins s !! n = Some i -> owned s' i = owned s i).
  { intros n i Hn. unfold owned. f_equal. by apply (same_data s s' n i (so_fs _ Hok) Hs). }
  destruct Hok as [_ [L1 L2 L3] Hl Hdi Hap Hcl _].
  split; try done.
  - split; by rewrite ?Hsup, ?Hmap.
  - intros n. by rewrite Hlist, Hsins.
  - intros n i. rewrite Hsins. apply Hdi.
  - intros n i j. rewrite Hsins. intros Hn. rewrite (Hown n i Hn). unfold map_block. rewrite Hsup. by apply (Hap n i j).
  - intros n i. rewrite Hsins. intros Hn Hc. unfold stored. rewrite (Hb n i (ino i) Hn) by (apply elem_of_cons; by left).
    by apply (Hcl n i).
  - intros _. destruct Hsy as [Y1 Y2]. split; by rewrite Hsup, ?Hmap.
Qed.

(** Everything is on the disk. *)
Definition all_clean (s : st) : Prop := super_dirty s = false /\ forall n i, sins s !! n = Some i -> dirty i = false.

Lemma sfs_sync_eq (fs : Z) (e : E) :
  sync_ok (fsys e) -> Forall (ready e) (inode_list (fsys e)) ->
  exists s', sfs_sync fs e = Ret (0, mk_env (inodes e) s' (vmem e)) /\ sync_ok s' /\ same_files (fsys e) s' /\ all_clean s'.
Proof.
  intros Hok Hr. unfold sfs_sync. rewrite (bind_Ret _ _ e (fsys e) e) by done.
  destruct (fsync_all_eq (inode_list (fsys e)) e Hok Hr) as (s1 & Hf & Hok1 & Hs1 & Hsd & Hc).
  { apply Forall_forall. intros n. apply (so_list _ Hok). }
  rewrite (bind_Ret _ _ _ _ _ Hf). destruct (sync_meta_step s1 Hok1) as (s' & Hm & Hok' & Hs' & Hsd' & Hsins).
  exists s'. split; [unfold on_heap; cbn [fsys]; by rewrite Hm|]. split; [done|].
  split; [by apply (same_trans _ s1); [apply Hok|..]|]. split; [done|].
  intros n i Hn. rewrite Hsins in Hn. apply (Hc n i); [|done]. rewrite <- (sf_list _ _ Hs1). apply (so_list _ Hok1). eauto.
Qed.

(** The file [i] can be read from the file system [s'] as it is in [s]. *)
Definition found (s s' : st) (i : sfs_inode) : Prop :=
  in_use s' (ino i) /\ din_of (slice 0 64 (blk s' (ino i))) = din i /\ file_ok s' (din i) /\ data s' (din i) = data s (din i).

(** C29: On a block device that keeps what is written to it ([KeepsWrites]; the
    driver of dev_disk0.c does not), [sfs_sync] keeps every inode and every file, leaves nothing marked, and
    what it wrote survives: mounting the same disk again, with enough memory,
    gives a file system with the same super block and the same free map that
    satisfies the invariant of the free blocks, and for every inode that was in
    memory the inode [sfs_load_inode] reads from its block is the one that was in
    memory and leads to the same bytes. *)
Theorem sync_mount_roundtrip (fs : Z) (e : E) :
  sync_ok (fsys e) -> Forall (ready e) (inode_list (fsys e)) ->
  exists e', sfs_sync fs e = Ret (0, e') /\ sync_ok (fsys e') /\ same_files (fsys e) (fsys e') /\ all_clean (fsys e') /\
    forall s0 : st, dev s0 = dev (fsys e') ->
      heap_gives [sizeof_fs; SFS_BLKSIZE; 8 * SFS_HLIST_SIZE; sizeof_bitmap; 4 * (1024 * sfs_freemap_blocks (super (fsys e)))] (heap s0) ->
      exists p s1, do_mount s0 = Ret ((0, p), s1) /\ p <> 0 /\ disk_ok s1 /\ super s1 = super (fsys e) /\
        map (freemap s1) = map (freemap (fsys e)) /\ all_clean s1 /\
        forall n i, sins (fsys e) !! n = Some i -> found (fsys e) s1 i.
Proof.
  intros Hok Hr. destruct (sfs_sync_eq fs e Hok Hr) as (s' & Hs & Hok' & Hsame & Hc).
  eexists. split; [exact Hs|]. cbn [fsys]. split; [done|]. split; [done|]. split; [done|].
  intros s0 Hdev Hheap. assert (Hsup := sf_super _ _ Hsame). assert (Hd := fs_disk _ (so_fs _ Hok')).
  destruct (do_mount_eq s' s0 Hd (so_layout _ Hok')) as (p & s1 & Hm & Hp & _ & Hd1 & Hdev1 & Hs1 & Hf1 & _ & Hsd & _ & Hsins);
    [rewrite Hdev; apply Hd|rewrite Hdev; by apply (so_super _ Hok'), Hc|by rewrite Hsup|].
  exists p, s1. split; [done|]. split; [done|]. split; [done|]. split; [congruence|].
  split; [by rewrite Hf1, (sf_map _ _ Hsame)|]. split; [split; [done|]; rewrite Hsins; set_solver|].
  intros n i Hn. destruct (sf_to _ _ Hsame n i Hn) as (b & Hb & _). assert (Hcl := proj2 Hc n _ Hb).
  assert (Hblk : forall j, blk s1 j = blk s' j) by (intros j; unfold blk; by rewrite Hdev1, Hdev).
  assert (Hfree : forall j, free (freemap s1) j = free (freemap s') j) by (intros j; unfold free; by rewrite Hf1).
  destruct (fs_ino _ (so_fs _ Hok') n _ Hb) as [Hu _]. destruct (so_clean _ Hok' n _ Hb Hcl) as [l Hl].
  destruct (same_file s' s1 Hs1 (or_intror Hfree) (din i) (fs_file _ (so_fs _ Hok') n _ Hb)) as (_ & Hfo & Hda); [by intros|].
  split; [apply (in_use_same s'); [done|by right|done]|]. split; [|split; [done|]].
  - rewrite Hblk. cbn [ino set_din din] in Hl. rewrite Hl. assert (Hdi := so_din _ Hok n i Hn).
    destruct (din_bytes_ok _ Hdi) as [Hlen _]. unfold slice. rewrite drop_0, take_app_length' by done.
    rewrite <- (app_nil_r (din_bytes (din i))). by apply din_of_bytes.
  - rewrite Hda. by apply (same_data _ _ n i (so_fs _ Hok) Hsame).
Qed.

End Sync.

(** ** An example

    The disk of [demo] with a free map of a whole block, its inode and its free
    map not yet on the disk. *)

Definition vol_freemap : bitmap := Bitmap.mk 1 32768 1024 2 ([0xffffffe0; 0xff] ++ replicate 1022 0).
Definition vol_sin : sfs_inode := mk_sin demo_din 8 3 true 1.
Definition vol : t RamDisk.t Bump.t :=
  mk 5 (mk_super SFS_MAGIC 40 35 (replicate 32 0)) vol_freemap true zero_block 6 [100]
    (replicate 1024 []) 7 {[100 := vol_sin]} (RamDisk.mk 40 {[4%nat := splice 0 demo_bytes zero_block]}) (Bump.mk 5 []).
Definition vol_env : env (t RamDisk.t Bump.t) := mk_env {[100 := mk_inode 1 1 false 5]} vol ∅.

Lemma vol_demo i : free vol_freemap i = free demo_freemap i.
Proof.
  unfold free, arr_get. cbn [map vol_freemap demo_freemap]. destruct (Z.lt_ge_cases i 64) as [Hlt|Hge].
  - by rewrite lookup_app_l by (simpl; width).
  - rewrite lookup_app_r by (simpl; width). rewrite (lookup_ge_None_2 [_; _]) by (simpl; width).
    destruct (replicate 1022 0 !! _) as [x|] eqn:Ex; [|done]. by apply lookup_replicate in Ex as [-> _].
Qed.

Lemma vol_free i : 0 <= i -> free vol_freemap i = (5 <=? i) && (i <? 40).
Proof. rewrite vol_demo. apply demo_free. Qed.

Lemma vol_free_set : free_set vol_freemap = list_to_set (seqZ 5 35).
Proof.
  apply set_eq. intros i. rewrite elem_free_set, elem_of_list_to_set, elem_of_seqZ. cbn [nbits vol_freemap]. split.
  - intros [Hi Hf]. rewrite vol_free in Hf by lia. lia.
  - intros Hi. split; [lia|]. rewrite vol_free by lia. lia.
Qed.

Lemma vol_disk_ok : disk_ok vol.
Proof.
  split.
  - apply zero_is_block.
  - vm_compute. split; [done|]. by intros.
  - split; [done|done|split; [done|repeat constructor; width]|]. intros i Hi. cbn [nbits vol_freemap freemap vol] in *.
    rewrite vol_free by lia. lia.
  - done.
  - intros i Hi Hf. change (freemap vol) with vol_freemap in Hf. rewrite vol_free in Hf by done. unfold in_range. simpl. lia.
  - change (freemap vol) with vol_freemap. rewrite vol_free_set, size_list_to_set by apply NoDup_seqZ. by rewrite length_seqZ.
Qed.

Lemma vol_one n i : sins vol !! n = Some i -> n = 100 /\ i = vol_sin.
Proof. intros Hi. cbn [sins vol] in Hi. apply lookup_singleton_Some in Hi as [<- <-]. done. Qed.

Lemma vol_sync_ok : sync_ok vol.
Proof.
  assert (Hs : sins demo !! 100 = Some demo_sin) by done.
  destruct (same_file demo vol eq_refl (or_intror vol_demo) demo_din) as (Ho & Hf & _);
    [by apply (fs_file _ demo_fs_ok 100 demo_sin)|done|].
  assert (Hown : own vol demo_din = [4]) by (rewrite Ho; reflexivity).
  assert (Howned : owned vol vol_sin = [3; 4]) by (unfold owned; cbn [din vol_sin]; by rewrite Hown).
  assert (Huse : in_use vol 3) by (apply (in_use_same demo); [done|right; apply vol_demo|apply demo_use; lia]).
  split.
  - split; [apply vol_disk_ok|intros n i [_ ->]%vol_one; done| |].
    + intros n i [_ ->]%vol_one. split; [done|]. change (din vol_sin) with demo_din. rewrite Hown. set_solver.
    + intros n1 n2 i1 i2 j Hne [-> _]%vol_one [-> _]%vol_one. done.
  - split; [|done|done]. split; [done|by vm_compute|]. split; [done|]. split; [|done]. repeat constructor; width.
  - intros n. cbn [inode_list sins vol]. rewrite list_elem_of_singleton. split.
    + intros ->. by rewrite lookup_singleton_eq.
    + intros [i [<- _]%lookup_singleton_Some]. done.
  - intros n i [_ ->]%vol_one. split; [by vm_compute|by vm_compute|]. split; [done|]. repeat constructor; width.
  - intros n i j [_ ->]%vol_one. rewrite Howned. unfold map_block. change (sfs_freemap_blocks (super vol)) with 1. rewrite !elem_of_cons, elem_of_nil. lia.
  - intros n i [_ ->]%vol_one. done.
  - done.
Qed.

Lemma sync_mount_roundtrip_witness :
  exists e' p s1, sfs_sync 5 vol_env = Ret (0, e') /\
    do_mount (set_heap (Bump.mk 5 []) (fsys e')) = Ret ((0, p), s1) /\
    din_of (slice 0 64 (blk s1 3)) = demo_din /\ take 10 (data s1 demo_din) = demo_bytes.
Proof.
  destruct (sync_mount_roundtrip 5 vol_env vol_sync_ok) as (e' & Hs & _ & _ & _ & Hm).
  { apply Forall_singleton. split; [done|]. exists (mk_inode 1 1 false 5). split; [done|]. simpl. unfold MAX_INODE_COUNT. lia. }
  destruct (Hm (set_heap (Bump.mk 5 []) (fsys e')) eq_refl) as (p & s1 & Hd & _ & _ & _ & _ & _ & Hf).
  { unfold heap_gives. repeat (eexists _, _; split; [reflexivity|]; split; [by vm_compute|]). done. }
  exists e', p, s1. split; [done|]. split; [done|]. destruct (Hf 100 vol_sin eq_refl) as (_ & Hdi & _ & Hda). split; [done|].
  change (din vol_sin) with demo_din in Hda. rewrite Hda. vm_compute. reflexivity.
Defined.

End SfsSync.
