(* ===== verification/Mksfs.v ===== *)
(** The image builder (tools/mksfs.c), a host program that writes a directory of
    the host as an image of the simple file system.

    The host is its directory tree in the order of [readdir], with the numbers
    [st_ino] of its objects and the content of its regular files; calls of the
    host succeed.  Structures are in maps by address ([malloc] gives a new one);
    the hash chains are lists of addresses, the newest first.  [bug] and a failed
    assertion end the program ([panic]). *)

From S2P Require Import Prelude Bytes Bitmap Sfs.

Module Mksfs.
Import Sfs.

Definition HASH_SHIFT : Z := 10.
Definition HASH_LIST_SIZE : Z := Z.shiftl 1 HASH_SHIFT.
Definition GOLDEN_RATIO_PRIME_32 : Z := 0x9e370001.
Definition __hash32 (val bits : Z) : Z := u32 (val * GOLDEN_RATIO_PRIME_32) ≫ (32 - bits).
Definition hash32 (val : Z) : Z := __hash32 val HASH_SHIFT.
Definition hash64 (val : Z) : Z := __hash32 (u32 val) HASH_SHIFT.

Definition SFS_MAX_NBLKS : Z := 1024 * 512.
Definition SFS_L0_NBLKS : Z := SFS_NDIRECT.
Definition SFS_L1_NBLKS : Z := SFS_BLK_NENTRY + SFS_L0_NBLKS.
Definition SFS_L2_NBLKS : Z := SFS_BLK_NENTRY * SFS_BLK_NENTRY + SFS_L1_NBLKS.
Definition SFS_LN_NBLKS : Z := SFS_MAX_FILE_SIZE `div` SFS_BLKSIZE.

(** ** The host *)

#[warnings="-register-all"]
Inductive node :=
  | File (real : Z)
  | Dir (real : Z) (entries : list (list Z * node))
  | Link (real : Z) (target : list Z)
  | Other.

(** ** The state *)

(** The cached block is used as an array of words. *)
Record cache_block := mk_cb { cb_ino : Z; cache : list Z }.

(** [struct inode] of the builder: that of the kernel and one more field. *)
Record cache_inode := mk_ci {
  inode : sfs_disk_inode; db_indirect : Z; real : Z; ci_ino : Z; nblks : Z; l1 : Z; l2 : Z
}.

(** [entry] is the static entry of [add_entry], [brk] the next address. *)
Record sfs_fs := mk {
  super : sfs_super; subpath : list (list Z); img : list (list Z); ninos : Z; next_ino : Z; root : Z;
  inodes : list (list Z); cblocks : list (list Z);
  cis : gmap Z cache_inode; cbs : gmap Z cache_block; brk : Z; entry : list Z
}.

Definition set_super x s := mk x (subpath s) (img s) (ninos s) (next_ino s) (root s) (inodes s) (cblocks s) (cis s) (cbs s) (brk s) (entry s).
Definition set_subpath x s := mk (super s) x (img s) (ninos s) (next_ino s) (root s) (inodes s) (cblocks s) (cis s) (cbs s) (brk s) (entry s).
Definition set_img x s := mk (super s) (subpath s) x (ninos s) (next_ino s) (root s) (inodes s) (cblocks s) (cis s) (cbs s) (brk s) (entry s).
Definition set_next_ino x s := mk (super s) (subpath s) (img s) (ninos s) x (root s) (inodes s) (cblocks s) (cis s) (cbs s) (brk s) (entry s).
Definition set_root x s := mk (super s) (subpath s) (img s) (ninos s) (next_ino s) x (inodes s) (cblocks s) (cis s) (cbs s) (brk s) (entry s).
Definition set_inodes x y s := mk (super s) (subpath s) (img s) (ninos s) (next_ino s) (root s) x (cblocks s) y (cbs s) (brk s) (entry s).
Definition set_cblocks x y s := mk (super s) (subpath s) (img s) (ninos s) (next_ino s) (root s) (inodes s) x (cis s) y (brk s) (entry s).
Definition set_brk x s := mk (super s) (subpath s) (img s) (ninos s) (next_ino s) (root s) (inodes s) (cblocks s) (cis s) (cbs s) x (entry s).
Definition set_entry x s := mk (super s) (subpath s) (img s) (ninos s) (next_ino s) (root s) (inodes s) (cblocks s) (cis s) (cbs s) (brk s) x.

Definition safe_malloc : M sfs_fs Z := s ← get; put (set_brk (brk s + 1) s);; mret (brk s).
Definition load_ci (a : Z) : M sfs_fs cache_inode := fun s => match cis s !! a with Some c => Ret (c, s) | None => Fault end.
Definition load_cb (a : Z) : M sfs_fs cache_block := fun s => match cbs s !! a with Some c => Ret (c, s) | None => Fault end.
Definition put_ci (a : Z) (c : cache_inode) : M sfs_fs unit := modify (fun s => set_inodes (inodes s) (<[a := c]> (cis s)) s).
Definition put_cb (a : Z) (c : cache_block) : M sfs_fs unit := modify (fun s => set_cblocks (cblocks s) (<[a := c]> (cbs s)) s).

(** ** Blocks and inodes *)

Definition sfs_alloc_ino : M sfs_fs Z :=
  s ← get;
  if next_ino s <? ninos s then
    let sb := super s in
    put (set_next_ino (next_ino s + 1)
           (set_super (mk_super (magic sb) (sblocks sb) (u32 (unused_blocks sb - 1)) (info sb)) s));;
    mret (next_ino s)
  else panic.

(** A new structure heads its chain. *)
Definition chain (h : Z) (a : Z) (l : list (list Z)) : list (list Z) := alter (cons a) (Z.to_nat h) l.
Definition bucket (l : list (list Z)) (h : Z) : list Z := default [] (l !! Z.to_nat h).

(** [memset(..., 0, SFS_BLKSIZE)] *)
Definition zero_words : list Z := replicate 1024 0.

Definition alloc_cache_block (ino : Z) : M sfs_fs Z :=
  a ← safe_malloc;
  i ← (if negb (ino =? 0) then mret ino else sfs_alloc_ino);
  modify (fun s => set_cblocks (chain (hash32 ino) a (cblocks s)) (<[a := mk_cb i zero_words]> (cbs s)) s);;
  mret a.

Fixpoint search_cb_loop (l : list Z) (ino : Z) : M sfs_fs Z :=
  match l with
  | [] => mret 0
  | a :: l => c ← load_cb a; if cb_ino c =? ino then mret a else search_cb_loop l ino
  end.
Definition search_cache_block (ino : Z) : M sfs_fs Z :=
  s ← get; search_cb_loop (bucket (cblocks s) (hash32 ino)) ino.

Definition new_inode (type : Z) : sfs_disk_inode := mk_din 0 type 0 0 (replicate 12 0) 0.

Definition alloc_cache_inode (real ino type : Z) : M sfs_fs Z :=
  a ← safe_malloc;
  i ← (if negb (ino =? 0) then mret ino else sfs_alloc_ino);
  modify (fun s => set_inodes (chain (hash64 real) a (inodes s)) (<[a := mk_ci (new_inode type) 0 real i 0 0 0]> (cis s)) s);;
  mret a.

Fixpoint search_ci_loop (l : list Z) (r : Z) : M sfs_fs Z :=
  match l with
  | [] => mret 0
  | a :: l => c ← load_ci a; if real c =? r then mret a else search_ci_loop l r
  end.
Definition search_cache_inode (r : Z) : M sfs_fs Z :=
  s ← get; search_ci_loop (bucket (inodes s) (hash64 r)) r.

(** [snprintf(info, SFS_MAX_INFO_LEN, "simple file system")] over the bytes
    [junk] of the new structure. *)
Definition info_text : list Z := [115; 105; 109; 112; 108; 101; 32; 102; 105; 108; 101; 32; 115; 121; 115; 116; 101; 109; 0].

(** The image is its blocks; [junk] is what [malloc] returns. *)
Definition create_sfs (image : list (list Z)) (junk : list Z) : res (Z * sfs_fs) :=
  let n := u32 (Z.of_nat (length image)) in
  let ninos := if SFS_MAX_NBLKS <? n then SFS_MAX_NBLKS else n in
  let next := SFS_BLKN_FREEMAP + (ninos + SFS_BLKBITS - 1) `div` SFS_BLKBITS in
  if ninos <=? next then Panic else
  let s := mk (mk_super SFS_MAGIC ninos (ninos - next) (splice 0 info_text junk)) [] image ninos next 0
             (replicate (Z.to_nat HASH_LIST_SIZE) []) (replicate (Z.to_nat HASH_LIST_SIZE) []) ∅ ∅ 1 (replicate 260 0) in
  (a ← alloc_cache_inode 0 SFS_BLKN_ROOT SFS_TYPE_DIR; modify (set_root a);; mret a : M sfs_fs Z) s.

Definition subpath_push (name : list Z) : M sfs_fs unit := modify (fun s => set_subpath (subpath s ++ [name]) s).
Definition subpath_pop : M sfs_fs unit :=
  s ← get; assert_ (negb (length (subpath s) =? 0)%nat);; put (set_subpath (take (pred (length (subpath s))) (subpath s)) s).

(** [pwrite] of one block. *)
Definition write_block (data : list Z) (len ino : Z) : M sfs_fs unit :=
  s ← get;
  assert_ ((len <=? SFS_BLKSIZE) && (ino <? ninos s));;
  let buffer := if negb (len =? SFS_BLKSIZE) then take (Z.to_nat len) data ++ replicate (4096 - Z.to_nat len) 0 else data in
  put (set_img (<[Z.to_nat ino := buffer]> (img s)) s).

(** [*cbp] and [*inop] afterwards. *)
Definition update_cache (cb ino : Z) : M sfs_fs (Z * Z) :=
  if ino =? 0 then
    cb ← alloc_cache_block 0;
    c ← load_cb cb;
    mret (cb, cb_ino c)
  else
    same ← (if cb =? 0 then mret false else c ← load_cb cb; mret (cb_ino c =? ino) : M sfs_fs bool);
    if same : bool then mret (cb, ino) else
    cb ← search_cache_block ino;
    assert_ (negb (cb =? 0));;
    c ← load_cb cb;
    assert_ (cb_ino c =? ino);;
    mret (cb, ino).

Definition set_word (cb k v : Z) : M sfs_fs unit :=
  c ← load_cb cb; put_cb cb (mk_cb (cb_ino c) (arr_set (cache c) k v)).

Definition with_inode f (c : cache_inode) := mk_ci (f (inode c)) (db_indirect c) (real c) (ci_ino c) (nblks c) (l1 c) (l2 c).
Definition with_nblks x (c : cache_inode) := mk_ci (inode c) (db_indirect c) (real c) (ci_ino c) x (l1 c) (l2 c).
Definition with_l1 x (c : cache_inode) := mk_ci (inode c) (db_indirect c) (real c) (ci_ino c) (nblks c) x (l2 c).
Definition with_l2 x d (c : cache_inode) := mk_ci (inode c) d (real c) (ci_ino c) (nblks c) (l1 c) x.
Definition with_nlinks x (d : sfs_disk_inode) := mk_din (size d) (type d) x (blocks d) (direct d) (indirect d).

(** The index is entered in the inode or in the blocks of its tables. *)
Definition append_entry (file ino : Z) : M sfs_fs unit :=
  f ← load_ci file;
  if nblks f <? SFS_L0_NBLKS then
    put_ci file (with_inode (with_direct (arr_set (direct (inode f)) (nblks f) ino)) f)
  else if nblks f <? SFS_L1_NBLKS then
    let k := nblks f - SFS_L0_NBLKS in
    r ← update_cache (l1 f) (indirect (inode f));
    put_ci file (with_l1 r.1 (with_inode (with_indirect r.2) f));;
    set_word r.1 k ino
  else if nblks f <? SFS_L2_NBLKS then
    let k := nblks f - SFS_L1_NBLKS in
    r ← update_cache (l2 f) (db_indirect f);
    put_ci file (with_l2 r.1 r.2 f);;
    c2 ← load_cb r.1;
    q ← update_cache (l1 f) (arr_get (cache c2) (k `div` SFS_BLK_NENTRY));
    put_ci file (with_l1 q.1 (with_l2 r.1 r.2 f));;
    set_word r.1 (k `div` SFS_BLK_NENTRY) q.2;;
    set_word q.1 (k `mod` SFS_BLK_NENTRY) ino
  else mret tt.

Definition append_block (file sz ino : Z) : M sfs_fs unit :=
  assert_ (sz <=? SFS_BLKSIZE);;
  f ← load_ci file;
  if SFS_LN_NBLKS <=? nblks f then panic else
  append_entry file ino;;
  f ← load_ci file;
  put_ci file (with_nblks (u32 (nblks f + 1))
    (with_inode (fun d => with_blocks (u32 (blocks d + 1)) (with_size (u32 (size d + sz)) d)) f)).

(** The entry written is [sizeof(entry->name)] bytes long; the bytes after the
    name are those of earlier names. *)
Definition add_entry (current file : Z) (name : list Z) : M sfs_fs unit :=
  c ← load_ci current;
  assert_ ((type (inode c) =? SFS_TYPE_DIR) && (Z.of_nat (length name) <=? SFS_MAX_FNAME_LEN));;
  f ← load_ci file;
  modify (fun s => set_entry (splice 0 (le_bytes 4 (ci_ino f) ++ name ++ [0]) (entry s)) s);;
  entry_ino ← sfs_alloc_ino;
  s ← get;
  write_block (entry s) (SFS_MAX_FNAME_LEN + 1) entry_ino;;
  append_block current (SFS_MAX_FNAME_LEN + 1) entry_ino;;
  f ← load_ci file;
  put_ci file (with_inode (fun d => with_nlinks (u16 (nlinks d + 1)) d) f).

(** ** The host tree *)

(** The rounds of [open_file] on the bytes that [read] has still to return. *)
Fixpoint file_loop (fuel : nat) (file last : Z) (rest : list Z) : M sfs_fs unit :=
  match fuel with
  | O => diverge
  | S fuel =>
      match take 4096 rest with
      | [] => mret tt
      | buffer =>
          assert_ (last =? SFS_BLKSIZE);;
          ino ← sfs_alloc_ino;
          write_block buffer (Z.of_nat (length buffer)) ino;;
          append_block file (Z.of_nat (length buffer)) ino;;
          file_loop fuel file (Z.of_nat (length buffer)) (drop 4096 rest)
      end
  end.
Definition open_file (file : Z) (content : list Z) : M sfs_fs unit := file_loop (S (length content)) file SFS_BLKSIZE content.

Definition open_link (file : Z) (target : list Z) : M sfs_fs unit :=
  ino ← sfs_alloc_ino;
  let ret := Z.min (Z.of_nat (length target)) SFS_BLKSIZE in
  if ret =? SFS_BLKSIZE then panic else
  write_block target ret ino;;
  append_block file ret ino.

Section Host.
  (** The content of the regular files of the host. *)
  Variable content : Z -> list Z.

Definition add_file (current : Z) (filename : list Z) (r : Z) : M sfs_fs unit :=
  f ← search_cache_inode r;
  file ← (if f =? 0 then
            file ← alloc_cache_inode r 0 SFS_TYPE_FILE;
            open_file file (content r);;
            mret file
          else mret f);
  add_entry current file filename.

Definition add_link (current : Z) (filename : list Z) (r : Z) (target : list Z) : M sfs_fs unit :=
  file ← alloc_cache_inode r 0 SFS_TYPE_LINK;
  open_link file target;;
  add_entry current file filename.

(** [.], [..] and hidden files. *)
Definition hidden (name : list Z) : bool := match name with 46 :: _ => true | _ => false end.

(** [open_dir] with [visit] for what it does with an entry. *)
Definition open_dir (visit : node -> Z -> list Z -> M sfs_fs unit) (current parent : Z) (l : list (list Z * node)) : M sfs_fs unit :=
  add_entry current current [46];;
  add_entry current parent [46; 46];;
  (fix loop (l : list (list Z * node)) : M sfs_fs unit :=
     match l with
     | [] => mret tt
     | (name, n) :: l =>
         (if hidden name then mret tt else
          if SFS_MAX_FNAME_LEN <? Z.of_nat (length name) then panic else visit n current name);;
         loop l
     end) l.

Definition add_dir (visit : node -> Z -> list Z -> M sfs_fs unit) (parent : Z) (dirname : list Z) (r : Z)
    (l : list (list Z * node)) : M sfs_fs unit :=
  f ← search_cache_inode r;
  assert_ (f =? 0);;
  current ← alloc_cache_inode r 0 SFS_TYPE_DIR;
  subpath_push dirname;;
  open_dir visit current parent l;;
  subpath_pop;;
  add_entry parent current dirname.

Fixpoint add_node (n : node) (current : Z) (name : list Z) : M sfs_fs unit :=
  match n with
  | Link r target => add_link current name r target
  | Dir r l => add_dir add_node current name r l
  | File r => add_file current name r
  | Other => mret tt
  end.

End Host.

(** ** The end *)

Definition flush_cache_block (a : Z) : M sfs_fs unit :=
  c ← load_cb a; write_block (words_bytes (cache c)) SFS_BLKSIZE (cb_ino c).
Definition flush_cache_inode (a : Z) : M sfs_fs unit :=
  c ← load_ci a; write_block (din_bytes (inode c) ++ le_bytes 4 (db_indirect c)) 68 (ci_ino c).

(** [for (j = start; j < end; j ++) data[j / bits] |= (1 << (j % bits))] *)
Fixpoint mark (n : nat) (j : Z) (data : list Z) : list Z :=
  match n with
  | O => data
  | S n => mark n (j + 1) (arr_set data (j `div` 32) (Z.lor (arr_get data (j `div` 32)) (u32 (1 ≪ (j `mod` 32)))))
  end.

(** The block of the free map for the indices from [i] on. *)
Definition map_words (ninos next i : Z) : list Z :=
  let buffer := zero_words in
  if next <? i + SFS_BLKBITS then
    let start := if i <? next then next - i else 0 in
    let end_ := if ninos <? i + SFS_BLKBITS then ninos - i else SFS_BLKBITS in
    mark (Z.to_nat (end_ - start)) start buffer
  else buffer.

Fixpoint freemap_loop (fuel : nat) (i ino : Z) : M sfs_fs unit :=
  match fuel with
  | O => diverge
  | S fuel =>
      s ← get;
      if i <? ninos s then
        write_block (words_bytes (map_words (ninos s) (next_ino s) i)) SFS_BLKSIZE ino;;
        freemap_loop fuel (u32 (i + SFS_BLKBITS)) (ino + 1)
      else mret tt
  end.

Fixpoint each (f : Z -> M sfs_fs unit) (l : list Z) : M sfs_fs unit :=
  match l with [] => mret tt | a :: l => f a;; each f l end.

Fixpoint flush_loop (n : nat) (i : Z) : M sfs_fs unit :=
  match n with
  | O => mret tt
  | S n =>
      s ← get;
      each flush_cache_block (bucket (cblocks s) i);;
      each flush_cache_inode (bucket (inodes s) i);;
      flush_loop n (i + 1)
  end.

Definition close_sfs : M sfs_fs unit :=
  s ← get;
  freemap_loop (S (Z.to_nat (ninos s))) 0 SFS_BLKN_FREEMAP;;
  write_block (super_bytes (super s)) 44 SFS_BLKN_SUPER;;
  flush_loop (Z.to_nat HASH_LIST_SIZE) 0.

Definition create_img (content : Z -> list Z) (home : list (list Z * node)) : M sfs_fs unit :=
  s ← get;
  open_dir (add_node content) (root s) (root s) home;;
  close_sfs.

(** [main]: the image afterwards. *)
Definition mksfs (content : Z -> list Z) (image : list (list Z)) (junk : list Z) (home : list (list Z * node)) : res (list (list Z)) :=
  match create_sfs image junk with
  | Ret (_, s) =>
      match create_img content home s with
      | Ret (_, s) => Ret (img s) | Panic => Panic | Fault => Fault | Diverge => Diverge
      end
  | Panic => Panic | Fault => Fault | Diverge => Diverge
  end.

End Mksfs.
