(* ===== verification/MksfsSpec.v ===== *)
(** The image builder: the state of the builder against the blocks handed out,
    and what its operations on blocks and inodes do. *)

From S2P Require Import Prelude Bytes Bitmap Sfs SfsSpec Mksfs.

Module MksfsSpec.
Import Sfs Mksfs.

(** What a block is used for: the inode at [a], the table of the inode at [a]
    cached at [p], the [k]-th block of the file of the inode at [a]. *)
Inductive role := RInode (a : Z) | RTable (a p : Z) | RData (a : Z) (k : nat).

(** The blocks of each file, the roles, and the inodes that are complete. *)
Record ghost := mk_ghost { blks : gmap Z (list Z); roles : gmap Z role; fin : gset Z }.

(** The first block after the free map. *)
Definition fm_end (n : Z) : Z := 2 + (n + 32767) `div` 32768.

Record ci_rep (tabs : gmap Z cache_block) (rl : gmap Z role) (a : Z) (c : cache_inode) (bs : list Z) : Prop := {
  cr_ino : rl !! ci_ino c = Some (RInode a);
  cr_len : (length bs <= 1036)%nat;
  cr_nblks : nblks c = Z.of_nat (length bs);
  cr_blocks : blocks (inode c) = Z.of_nat (length bs);
  cr_direct : direct (inode c) = take 12 bs ++ replicate (12 - length bs) 0;
  cr_db : db_indirect c = 0;
  cr_data k j : bs !! k = Some j -> rl !! j = Some (RData a k);
  cr_small : (length bs <= 12)%nat -> indirect (inode c) = 0;
  cr_table : (12 < length bs)%nat -> exists b, tabs !! l1 c = Some b /\ cb_ino b = indirect (inode c) /\
    rl !! indirect (inode c) = Some (RTable a (l1 c)) /\ cache b = drop 12 bs ++ replicate (1036 - length bs) 0;
  cr_fields : is_u32 (size (inode c)) /\ is_u16 (type (inode c)) /\ is_u16 (nlinks (inode c))
}.

Record inv (s : sfs_fs) (g : ghost) : Prop := {
  iv_img : ninos s <= Z.of_nat (length (img s)) /\ Forall is_block (img s);
  iv_next : fm_end (ninos s) <= next_ino s <= ninos s /\ 0 < ninos s <= 0x80000;
  iv_super : magic (super s) = SFS_MAGIC /\ sblocks (super s) = ninos s /\ unused_blocks (super s) = ninos s - next_ino s /\
    length (info (super s)) = 32%nat /\ Forall is_u8 (info (super s));
  iv_role j r : roles g !! j = Some r -> j = 1 \/ fm_end (ninos s) <= j < next_ino s;
  iv_ci a c : cis s !! a = Some c -> 0 < a < brk s /\ exists bs, blks g !! a = Some bs /\ ci_rep (cbs s) (roles g) a c bs;
  iv_cb p b : cbs s !! p = Some b -> 0 < p < brk s /\ (exists a, roles g !! cb_ino b = Some (RTable a p)) /\
    length (cache b) = 1024%nat /\ Forall is_u32 (cache b);
  iv_ihash : length (inodes s) = 1024%nat /\ (forall l a, l ∈ inodes s -> a ∈ l -> is_Some (cis s !! a)) /\
    forall a c, cis s !! a = Some c -> exists l, inodes s !! Z.to_nat (hash64 (real c)) = Some l /\ a ∈ l;
  iv_bhash : length (cblocks s) = 1024%nat /\ (forall l p, l ∈ cblocks s -> p ∈ l -> is_Some (cbs s !! p)) /\
    forall p b, cbs s !! p = Some b -> exists l, l ∈ cblocks s /\ p ∈ l;
  iv_entry : length (entry s) = 260%nat /\ Forall is_u8 (entry s);
  iv_fin : forall a, a ∈ fin g -> is_Some (cis s !! a);
  iv_brk : 0 < brk s
}.

Lemma fm_end_pos n : 0 < n -> 3 <= fm_end n.
Proof. intros Hn. unfold fm_end. width. Qed.
Lemma next_ino_pos s g : inv s g -> 3 <= fm_end (ninos s) <= next_ino s.
Proof. intros Hv. destruct (iv_next _ _ Hv) as [? ?]. pose proof (fm_end_pos (ninos s)). lia. Qed.

(** The content of a block of the image. *)
Definition B (s : sfs_fs) (j : Z) : list Z := default [] (img s !! Z.to_nat j).

(** From [s] to [s'] only the files at [X] grow; new objects may appear, and
    blocks handed out before keep their content. *)
Record ext (X : gset Z) (s : sfs_fs) (g : ghost) (s' : sfs_fs) (g' : ghost) : Prop := {
  ex_const : ninos s' = ninos s /\ root s' = root s /\ subpath s' = subpath s /\ length (img s') = length (img s);
  ex_next : next_ino s <= next_ino s';
  ex_img j : 0 <= j < next_ino s -> B s' j = B s j;
  ex_fin : fin g ⊆ fin g' /\ forall a, a ∈ fin g' -> a ∈ fin g \/ cis s !! a = None;
  ex_ci a c : cis s !! a = Some c -> exists c', cis s' !! a = Some c' /\ ci_ino c' = ci_ino c /\ real c' = real c /\
    type (inode c') = type (inode c) /\ (a ∉ X -> size (inode c') = size (inode c) /\ blks g' !! a = blks g !! a)
}.

Lemma ext_refl X s g : ext X s g s g.
Proof. split; try done; [by split; [|auto]|]. intros a c Ha. eauto 10. Qed.

Lemma ext_trans X s1 g1 s2 g2 s3 g3 : ext X s1 g1 s2 g2 -> ext X s2 g2 s3 g3 -> ext X s1 g1 s3 g3.
Proof.
  intros [(A1 & A2 & A3 & A7) B1 C1 [D1 D1'] E1] [(A4 & A5 & A6 & A8) B2 C2 [D2 D2'] E2]. split.
  - split_and!; congruence.
  - lia.
  - intros j Hj. rewrite C2 by lia. by apply C1.
  - split; [set_solver|]. intros a Ha. destruct (D2' a Ha) as [H2|H2]; [by apply D1'|].
    right. destruct (cis s1 !! a) as [c|] eqn:E; [|done]. destruct (E1 a c E) as (c' & Hc' & _). congruence.
  - intros a c Ha. destruct (E1 a c Ha) as (c' & Hc' & I1 & R1 & T1 & K1). destruct (E2 a c' Hc') as (c'' & Hc'' & I2 & R2 & T2 & K2).
    exists c''. split_and!; try congruence. intros Hx. destruct (K1 Hx), (K2 Hx). split; congruence.
Qed.

Lemma ext_mono (X Y : gset Z) s g s' g' : X ⊆ Y -> ext X s g s' g' -> ext Y s g s' g'.
Proof.
  intros Hx [A1 B1 C1 D1 E1]. split; try done. intros a c Ha. destruct (E1 a c Ha) as (c' & ? & ? & ? & ? & K).
  exists c'. split_and!; try done. intros Hy. apply K. set_solver.
Qed.

(** An object that is new since [s1] may grow. *)
Lemma ext_new X a s1 g1 s2 g2 s3 g3 : cis s1 !! a = None ->
  ext X s1 g1 s2 g2 -> ext ({[a]} ∪ X) s2 g2 s3 g3 -> ext X s1 g1 s3 g3.
Proof.
  intros Ha H12 H23. destruct (ext_trans ({[a]} ∪ X) s1 g1 s2 g2 s3 g3) as [A1 B1 C1 D1 E1]; [|done|].
  - apply (ext_mono X); [set_solver|done].
  - split; try done. intros b c Hb. destruct (E1 b c Hb) as (c' & ? & ? & ? & ? & K). exists c'. split_and!; try done.
    intros Hx. apply K. assert (b <> a) by congruence. set_solver.
Qed.

(** ** Blocks *)

Definition taken (s : sfs_fs) : sfs_fs :=
  set_next_ino (next_ino s + 1) (set_super (mk_super (magic (super s)) (sblocks (super s)) (ninos s - next_ino s - 1) (info (super s))) s).

Lemma alloc_ino_eq s g : inv s g -> next_ino s < ninos s -> sfs_alloc_ino s = Ret (next_ino s, taken s).
Proof.
  intros Hv Hn. unfold sfs_alloc_ino. rewrite (bind_Ret _ _ s s s) by done. rewrite (proj2 (Z.ltb_lt _ _) Hn).
  destruct (iv_super _ _ Hv) as (_ & _ & -> & _). destruct (iv_next _ _ Hv) as [? ?]. unfold fm_end in *.
  rewrite u32_id by width. done.
Qed.

Lemma taken_inv s g : inv s g -> next_ino s < ninos s -> inv (taken s) g /\ ext ∅ s g (taken s) g /\ roles g !! next_ino s = None /\
  fm_end (ninos s) <= next_ino s.
Proof.
  intros [] Hn. split_and!.
  - split; try done; cbn.
    + lia.
    + destruct iv_super0 as (? & ? & ? & ? & ?). split_and!; try done. lia.
    + intros j r Hj. destruct (iv_role0 j r Hj); [by left|right; lia].
  - split; try done; cbn; [lia|by split; [|auto]|]. intros a c Ha. eauto 10.
  - destruct (roles g !! next_ino s) as [r|] eqn:E; [|done]. apply iv_role0 in E. pose proof (fm_end_pos (ninos s)). lia.
  - lia.
Qed.

Definition stored (j : Z) (b : list Z) (s : sfs_fs) : sfs_fs := set_img (<[Z.to_nat j := b]> (img s)) s.
Definition padded (l : list Z) : list Z := l ++ replicate (4096 - length l) 0.

Lemma padded_block l : (length l <= 4096)%nat -> Forall is_u8 l -> is_block (padded l).
Proof.
  intros Hl Hu. split; [unfold padded; rewrite length_app, length_replicate; lia|].
  apply Forall_app. split; [done|]. apply Forall_replicate. width.
Qed.

Lemma write_block_eq s data len j : (Z.to_nat len <= length data)%nat -> 0 <= len <= 4096 -> (len = 4096 -> length data = 4096%nat) ->
  j < ninos s -> write_block data len j s = Ret (tt, stored j (padded (take (Z.to_nat len) data)) s).
Proof.
  intros Hd Hl Hf Hj. unfold write_block, SFS_BLKSIZE. rewrite (bind_Ret _ _ s s s) by done.
  replace ((len <=? 4096) && (j <? ninos s)) with true by lia. rewrite (bind_Ret _ _ s tt s) by done.
  unfold put, stored, padded. rewrite length_take, Nat.min_l by done. destruct (Z.eqb_spec len 4096) as [->|Hne]; [|done].
  cbn [negb]. rewrite take_ge by (rewrite Hf by done; lia). change (4096 - Z.to_nat 4096)%nat with 0%nat. by rewrite app_nil_r.
Qed.

Lemma stored_inv s g j b : inv s g -> is_block b -> inv (stored j b s) g.
Proof.
  intros [] Hb. split; try done. cbn. rewrite length_insert. split; [apply iv_img0|]. by apply Forall_insert; [apply iv_img0|].
Qed.

Lemma stored_B s g i j b : inv s g -> 0 <= j < ninos s -> 0 <= i -> B (stored j b s) i = if decide (i = j) then b else B s i.
Proof.
  intros Hv Hj Hi. destruct (iv_img _ _ Hv) as [Hl _]. unfold B. cbn. case_decide as Hd.
  - subst. rewrite list_lookup_insert_eq by lia. done.
  - by rewrite list_lookup_insert_ne by lia.
Qed.

(** A block handed out is written. *)
Lemma stored_ext s g j b : inv s g -> next_ino s <= j < ninos s -> ext ∅ s g (stored j b s) g.
Proof.
  intros Hv Hj. pose proof (next_ino_pos _ _ Hv).
  split; try done; cbn; [by rewrite length_insert| |by split; [|auto]|intros a c Ha; eauto 10].
  intros i Hi. rewrite (stored_B s g) by (done || lia). by rewrite decide_False by lia.
Qed.

(** ** One inode changes *)

Definition changed (s : sfs_fs) (a : Z) (c : cache_inode) (tabs : gmap Z cache_block) : sfs_fs :=
  set_cblocks (cblocks s) tabs (set_inodes (inodes s) (<[a := c]> (cis s)) s).

(** The tables after a change of the table of [a]. *)
Definition tables_of (s : sfs_fs) (g : ghost) (a : Z) (tabs : gmap Z cache_block) : Prop :=
  tabs = cbs s \/ exists p b0 b, cbs s !! p = Some b0 /\ roles g !! cb_ino b0 = Some (RTable a p) /\ cb_ino b = cb_ino b0 /\
    length (cache b) = 1024%nat /\ Forall is_u32 (cache b) /\ tabs = <[p := b]> (cbs s).

Lemma rep_other s g a tabs rl b cb bs : inv s g -> tables_of s g a tabs -> roles g ⊆ rl -> b <> a ->
  ci_rep (cbs s) (roles g) b cb bs -> ci_rep tabs rl b cb bs.
Proof.
  intros Hv Ht Hrl Hb [H1 H2 H3 H4 H5 H6 H7 H8 H9 H10].
  assert (Hr : forall j r, roles g !! j = Some r -> rl !! j = Some r) by (intros; by eapply lookup_weaken).
  split; auto. intros Hlen. destruct (H9 Hlen) as (x & Hx & Hi & Hro & Hc). exists x. split_and!; auto.
  destruct Ht as [->|(p & b0 & b1 & Hp & Hpr & _ & _ & _ & ->)]; [done|].
  rewrite lookup_insert_ne; [done|]. intros ->. rewrite Hx in Hp. injection Hp as ->. congruence.
Qed.

Lemma changed_inv s g a c c' bs' tabs rl : inv s g -> cis s !! a = Some c -> real c' = real c -> roles g ⊆ rl ->
  (forall j r, rl !! j = Some r -> j = 1 \/ fm_end (ninos s) <= j < next_ino s) -> tables_of s g a tabs -> ci_rep tabs rl a c' bs' ->
  inv (changed s a c' tabs) (mk_ghost (<[a := bs']> (blks g)) rl (fin g)).
Proof.
  intros Hv Ha Hre Hrl Hrng Ht Hrep. pose proof (rep_other s g a tabs rl) as Hoth. destruct Hv as [I1 I2 I3 I4 I5 I6 I7 I8 I9 I10 I11].
  assert (Hr : forall j r, roles g !! j = Some r -> rl !! j = Some r) by (intros; by eapply lookup_weaken).
  split; cbn; try done.
  - intros b cb Hb. destruct (decide (b = a)) as [->|Hne].
    + rewrite lookup_insert_eq in Hb. injection Hb as <-. destruct (I5 a c Ha). split; [done|]. exists bs'. by rewrite lookup_insert_eq.
    + rewrite lookup_insert_ne in Hb by done. destruct (I5 b cb Hb) as (? & bs & Hbs & Hcr). split; [done|]. exists bs.
      rewrite lookup_insert_ne by done. split; [done|]. by apply Hoth.
  - intros p b Hp. destruct Ht as [->|(q & b0 & b1 & Hq & Hqr & Hi & Hl & Hu & ->)].
    + destruct (I6 p b Hp) as (? & (x & Hx) & ?). eauto.
    + destruct (decide (p = q)) as [->|Hne].
      * rewrite lookup_insert_eq in Hp. injection Hp as <-. destruct (I6 q b0 Hq). rewrite Hi. eauto 10.
      * rewrite lookup_insert_ne in Hp by done. destruct (I6 p b Hp) as (? & (x & Hx) & ?). eauto.
  - destruct I7 as (J1 & J2 & J3). split_and!; [done| |].
    + intros l b Hl Hb. destruct (decide (b = a)) as [->|Hne]; [rewrite lookup_insert_eq|rewrite lookup_insert_ne by done]; eauto.
    + intros b cb Hb. destruct (decide (b = a)) as [->|Hne]; [|rewrite lookup_insert_ne in Hb by done; eauto].
      rewrite lookup_insert_eq in Hb. injection Hb as <-. rewrite Hre. eauto.
  - destruct I8 as (J1 & J2 & J3). destruct Ht as [->|(q & b0 & b1 & Hq & _ & _ & _ & _ & ->)]; [done|]. split_and!; [done| |].
    + intros l b Hl Hb. destruct (decide (b = q)) as [->|Hne]; [rewrite lookup_insert_eq|rewrite lookup_insert_ne by done]; eauto.
    + intros p b Hb. destruct (decide (p = q)) as [->|Hne]; [|rewrite lookup_insert_ne in Hb by done]; eauto.
  - intros b Hb. destruct (decide (b = a)) as [->|Hne]; [rewrite lookup_insert_eq|rewrite lookup_insert_ne by done]; eauto.
Qed.

Lemma changed_ext s g a c c' bs' tabs rl (X : gset Z) : cis s !! a = Some c -> ci_ino c' = ci_ino c -> real c' = real c ->
  type (inode c') = type (inode c) -> (a ∉ X -> size (inode c') = size (inode c) /\ blks g !! a = Some bs') ->
  ext X s g (changed s a c' tabs) (mk_ghost (<[a := bs']> (blks g)) rl (fin g)).
Proof.
  intros Ha Hi Hr Ht Hx. split; try done; cbn; [by split; [|auto]|].
  intros b cb Hb. destruct (decide (b = a)) as [->|Hne].
  - rewrite lookup_insert_eq. replace cb with c by congruence. exists c'. split_and!; try done. intros Hn. destruct (Hx Hn) as [-> ->].
    by rewrite lookup_insert_eq.
  - rewrite !lookup_insert_ne by done. eauto 10.
Qed.

(** ** New structures *)

Lemma rep_mono tabs rl tabs' rl' a c bs : tabs ⊆ tabs' -> rl ⊆ rl' -> ci_rep tabs rl a c bs -> ci_rep tabs' rl' a c bs.
Proof.
  intros Ht Hrl [H1 H2 H3 H4 H5 H6 H7 H8 H9 H10].
  assert (Hr : forall j r, rl !! j = Some r -> rl' !! j = Some r) by (intros; by eapply lookup_weaken).
  split; auto. intros Hlen. destruct (H9 Hlen) as (x & Hx & ? & ? & ?). exists x. split_and!; auto. by eapply lookup_weaken.
Qed.

Lemma hash32_range v : 0 <= hash32 v < 1024.
Proof.
  unfold hash32, __hash32, HASH_SHIFT. assert (Hu := u32_range (v * GOLDEN_RATIO_PRIME_32)).
  rewrite Z.shiftr_div_pow2 by lia. change (2 ^ (32 - 10)) with 4194304. width.
Qed.
Lemma hash64_range v : 0 <= hash64 v < 1024.
Proof. apply (hash32_range (u32 v)). Qed.

Lemma chain_lookup h a (L : list (list Z)) k l : L !! k = Some l ->
  chain h a L !! k = Some (if decide (k = Z.to_nat h) then a :: l else l).
Proof.
  intros Hl. unfold chain. case_decide as Hd; [subst; by rewrite list_lookup_alter_eq, Hl|by rewrite list_lookup_alter_ne].
Qed.
Lemma chain_elem h a (L : list (list Z)) l x : l ∈ chain h a L -> x ∈ l -> x = a \/ exists l', l' ∈ L /\ x ∈ l'.
Proof.
  intros [k Hk]%list_elem_of_lookup Hx. assert (Hlt := lookup_lt_Some _ _ _ Hk). unfold chain in Hlt. rewrite length_alter in Hlt.
  apply lookup_lt_is_Some in Hlt as [l' Hl']. rewrite (chain_lookup _ _ _ _ _ Hl') in Hk. injection Hk as <-.
  apply list_elem_of_lookup_2 in Hl'. case_decide; [apply elem_of_cons in Hx as [->|Hx]|]; eauto.
Qed.
Lemma chain_keeps h a (L : list (list Z)) k l x : L !! k = Some l -> x ∈ l -> exists l', chain h a L !! k = Some l' /\ x ∈ l'.
Proof. intros Hl Hx. rewrite (chain_lookup _ _ _ _ _ Hl). case_decide; eexists; split; try done. by right. Qed.
Lemma chain_head h a (L : list (list Z)) : (Z.to_nat h < length L)%nat -> exists l, chain h a L !! Z.to_nat h = Some l /\ a ∈ l.
Proof.
  intros [l Hl]%lookup_lt_is_Some. rewrite (chain_lookup _ _ _ _ _ Hl), decide_True by done. eexists. split; [done|by left].
Qed.

Lemma fresh_ci s g : inv s g -> cis s !! brk s = None.
Proof. intros Hv. destruct (cis s !! brk s) as [c|] eqn:E; [|done]. destruct (iv_ci _ _ Hv _ _ E). lia. Qed.
Lemma fresh_cb s g : inv s g -> cbs s !! brk s = None.
Proof. intros Hv. destruct (cbs s !! brk s) as [c|] eqn:E; [|done]. destruct (iv_cb _ _ Hv _ _ E). lia. Qed.

Lemma zero_words_ok : length zero_words = 1024%nat /\ Forall is_u32 zero_words.
Proof. unfold zero_words. split; [apply length_replicate|]. apply Forall_replicate. width. Qed.
#[local] Arguments zero_words : simpl never.

(** A table for the inode at [a]. *)
Definition with_table (s : sfs_fs) : sfs_fs :=
  set_cblocks (chain (hash32 0) (brk s) (cblocks s)) (<[brk s := mk_cb (next_ino s) zero_words]> (cbs s))
    (taken (set_brk (brk s + 1) s)).
Definition table_ghost (s : sfs_fs) (g : ghost) (a : Z) : ghost := mk_ghost (blks g) (<[next_ino s := RTable a (brk s)]> (roles g)) (fin g).

Lemma brk_inv s g : inv s g -> inv (set_brk (brk s + 1) s) g.
Proof.
  intros []. split; try done; cbn; try lia.
  - intros a c Ha. destruct (iv_ci0 a c Ha) as [? ?]. split; [lia|done].
  - intros p b Hp. destruct (iv_cb0 p b Hp) as [? ?]. split; [lia|done].
Qed.

Lemma with_table_eq s g : inv s g -> next_ino s < ninos s -> alloc_cache_block 0 s = Ret (brk s, with_table s).
Proof.
  intros Hv Hn. unfold alloc_cache_block. rewrite (bind_Ret _ _ s (brk s) (set_brk (brk s + 1) s)) by done.
  cbn [Z.eqb negb]. by rewrite (bind_Ret _ _ _ _ _ (alloc_ino_eq _ g (brk_inv _ _ Hv) Hn)).
Qed.

Lemma with_table_inv s g a : inv s g -> next_ino s < ninos s -> inv (with_table s) (table_ghost s g a) /\ ext ∅ s g (with_table s) (table_ghost s g a).
Proof.
  intros Hv Hn. destruct (taken_inv _ g (brk_inv _ _ Hv) Hn) as (Hv1 & _ & Hro & Hfm). cbn in Hro, Hfm. assert (Hf := fresh_cb _ _ Hv).
  assert (Hrl : roles g ⊆ <[next_ino s := RTable a (brk s)]> (roles g)) by (by apply insert_subseteq).
  destruct Hv1 as [I1 I2 I3 I4 I5 I6 I7 I8 I9 I10 I11]. cbn in *. split; [split; cbn; try done|].
  - intros j r. destruct (decide (j = next_ino s)) as [->|]; [intros _; right; lia|rewrite lookup_insert_ne by done]. apply I4.
  - intros b c Hb. destruct (I5 b c Hb) as (? & bs & Hbs & Hcr). split; [done|]. exists bs. split; [done|].
    by apply (rep_mono (cbs s) (roles g)); [apply insert_subseteq| |].
  - intros p b. destruct (decide (p = brk s)) as [->|Hne].
    + rewrite lookup_insert_eq. intros [= <-]. cbn. rewrite lookup_insert_eq. split; [split; [apply Hv|lia]|].
      split; [by eauto|apply zero_words_ok].
    + rewrite lookup_insert_ne by done. intros Hp. destruct (I6 p b Hp) as (? & (x & Hx) & ?). split; [done|]. split; [|done].
      exists x. by eapply lookup_weaken.
  - destruct I8 as (J1 & J2 & J3). split_and!.
    + unfold chain. by rewrite length_alter.
    + intros l x Hl Hx. destruct (decide (x = brk s)) as [->|Hne]; [by rewrite lookup_insert_eq|]. rewrite lookup_insert_ne by done.
      destruct (chain_elem _ _ _ _ _ Hl Hx) as [?|(l' & Hl' & Hx')]; [done|]. eauto.
    + intros p b. destruct (decide (p = brk s)) as [->|Hne].
      * intros _. assert (Hr := hash32_range 0). destruct (chain_head (hash32 0) (brk s) (cblocks s)) as (l & Hl & Hx); [lia|].
        exists l. split; [by eapply list_elem_of_lookup_2|done].
      * rewrite lookup_insert_ne by done. intros Hp. destruct (J3 p b Hp) as (l & [k Hk]%list_elem_of_lookup & Hx).
        destruct (chain_keeps (hash32 0) (brk s) _ _ _ _ Hk Hx) as (l' & Hl' & Hx'). exists l'. split; [by eapply list_elem_of_lookup_2|done].
  - split; try done; cbn; [lia|by split; [|auto]|]. intros b c Hb. eauto 10.
Qed.

(** ** A block is appended to a file *)

(** After [append_entry]: the state is that of [s1] but for the inode [c1] at [a]
    and the tables. *)
Record entered (s : sfs_fs) (g : ghost) (a : Z) (c : cache_inode) (bs : list Z) (j : Z)
    (s1 : sfs_fs) (g1 : ghost) (c1 : cache_inode) (tabs : gmap Z cache_block) : Prop := {
  en_run : append_entry a j s = Ret (tt, changed s1 a c1 tabs);
  en_inv : inv s1 g1;
  en_ext : ext ∅ s g s1 g1;
  en_same : cis s1 = cis s /\ img s1 = img s /\ blks g1 = blks g /\ fin g1 = fin g /\ roles g1 !! j = None;
  en_next : next_ino s1 = next_ino s + (if decide (length bs = 12%nat) then 1 else 0);
  en_tabs : tables_of s1 g1 a tabs;
  en_c : ci_ino c1 = ci_ino c /\ real c1 = real c /\ nblks c1 = nblks c /\ db_indirect c1 = db_indirect c /\
    size (inode c1) = size (inode c) /\ type (inode c1) = type (inode c) /\ nlinks (inode c1) = nlinks (inode c) /\ blocks (inode c1) = blocks (inode c);
  en_direct : direct (inode c1) = take 12 (bs ++ [j]) ++ replicate (12 - length (bs ++ [j])) 0;
  en_small : (length (bs ++ [j]) <= 12)%nat -> indirect (inode c1) = 0;
  en_table : (12 < length (bs ++ [j]))%nat -> exists b, tabs !! l1 c1 = Some b /\ cb_ino b = indirect (inode c1) /\
    roles g1 !! indirect (inode c1) = Some (RTable a (l1 c1)) /\ cache b = drop 12 (bs ++ [j]) ++ replicate (1036 - length (bs ++ [j])) 0
}.

(** The next word of an array that is zero from there on. *)
Lemma fill_next (l : list Z) j n k : length l = k -> (k < n)%nat ->
  arr_set (l ++ replicate (n - k) 0) (Z.of_nat k) j = (l ++ [j]) ++ replicate (n - S k) 0.
Proof.
  intros Hl Hk. unfold arr_set. rewrite Nat2Z.id, insert_app_r_alt by lia. rewrite Hl, Nat.sub_diag.
  replace (n - k)%nat with (S (n - S k)) by lia. cbn. by rewrite <- app_assoc.
Qed.

Section Append.
  Context (s : sfs_fs) (g : ghost) (a : Z) (c : cache_inode) (bs : list Z) (j : Z).
  Hypothesis Hv : inv s g.
  Hypothesis Ha : cis s !! a = Some c.
  Hypothesis Hbs : blks g !! a = Some bs.
  Hypothesis Hlen : (length bs < 1036)%nat.
  Hypothesis Hj : roles g !! j = None.
  Hypothesis Hjr : fm_end (ninos s) <= j < next_ino s.
  Hypothesis Hroom : length bs = 12%nat -> next_ino s < ninos s.

Lemma append_rep : ci_rep (cbs s) (roles g) a c bs.
Proof using Hv Ha Hbs. destruct (iv_ci _ _ Hv a c Ha) as (_ & bs' & Hb' & Hr). by replace bs with bs' by congruence. Qed.

Lemma load_ci_eq : load_ci a s = Ret (c, s).
Proof using Ha. unfold load_ci. by rewrite Ha. Qed.

(** Among the direct blocks. *)
Lemma enter_direct : (length bs < 12)%nat -> exists s1 g1 c1 tabs, entered s g a c bs j s1 g1 c1 tabs.
Proof using All.
  intros Hl. destruct append_rep. exists s, g, (with_inode (with_direct (arr_set (direct (inode c)) (nblks c) j)) c), (cbs s). split; cbn.
  - unfold append_entry. rewrite (bind_Ret _ _ _ _ _ load_ci_eq). unfold SFS_L0_NBLKS, SFS_NDIRECT.
    by replace (nblks c <? 12) with true by lia.
  - done.
  - apply ext_refl.
  - done.
  - rewrite decide_False by lia. lia.
  - by left.
  - done.
  - rewrite cr_direct0, cr_nblks0, (take_ge bs) by lia. rewrite fill_next by lia.
    rewrite take_ge, length_app by (rewrite length_app; cbn; lia). cbn. do 2 f_equal. lia.
  - intros _. apply cr_small0. lia.
  - rewrite length_app. cbn. lia.
Qed.

Lemma index_u32 : is_u32 j.
Proof using All.
  destruct (iv_next _ _ Hv) as [? ?]. pose proof (next_ino_pos _ _ Hv). width.
Qed.

Lemma append_table : (12 <= length bs)%nat -> append_entry a j s =
  (r ← update_cache (l1 c) (indirect (inode c)); put_ci a (with_l1 r.1 (with_inode (with_indirect r.2) c));; set_word r.1 (Z.of_nat (length bs - 12)) j) s.
Proof using All.
  intros Hl. unfold append_entry. rewrite (bind_Ret _ _ _ _ _ load_ci_eq). unfold SFS_L1_NBLKS, SFS_L0_NBLKS, SFS_NDIRECT.
  change (SFS_BLK_NENTRY + 12) with 1036. rewrite (cr_nblks _ _ _ _ _ append_rep).
  replace (Z.of_nat (length bs) <? 12) with false by lia. replace (Z.of_nat (length bs) <? 1036) with true by lia.
  by replace (Z.of_nat (length bs) - 12) with (Z.of_nat (length bs - 12)) by lia.
Qed.

(** In the table [b] at [p] of [a] in [s1]. *)
Lemma enter_table s1 g1 p b : (12 <= length bs)%nat -> update_cache (l1 c) (indirect (inode c)) s = Ret ((p, cb_ino b), s1) ->
  inv s1 g1 -> ext ∅ s g s1 g1 -> cis s1 = cis s /\ img s1 = img s /\ blks g1 = blks g /\ fin g1 = fin g /\ roles g1 !! j = None ->
  next_ino s1 = next_ino s + (if decide (length bs = 12%nat) then 1 else 0) -> cbs s1 !! p = Some b -> roles g1 !! cb_ino b = Some (RTable a p) ->
  cache b = drop 12 bs ++ replicate (1036 - length bs) 0 -> exists c1 tabs, entered s g a c bs j s1 g1 c1 tabs.
Proof using All.
  intros Hl Hu Hv1 He1 Hsame Hnext Hp Hro Hc. destruct append_rep. destruct Hsame as (Hcis & Himg & Hblk & Hfin & Hjn).
  set (b1 := mk_cb (cb_ino b) (arr_set (cache b) (Z.of_nat (length bs - 12)) j)).
  exists (with_l1 p (with_inode (with_indirect (cb_ino b)) c)), (<[p := b1]> (cbs s1)). destruct (iv_cb _ _ Hv1 p b Hp) as (_ & _ & Hcl & Hcu).
  split; try done; cbn.
  - rewrite append_table by done. rewrite (bind_Ret _ _ _ _ _ Hu). cbn [fst snd]. unfold put_ci, set_word, load_cb, mbind, M_bind, modify. cbn.
    rewrite Hp. done.
  - right. exists p, b, b1. split_and!; try done; cbn; [by rewrite arr_set_length|]. apply arr_set_Forall; [done|apply index_u32].
  - rewrite cr_direct0, take_app_le by lia. rewrite length_app. cbn. do 2 f_equal. lia.
  - rewrite length_app. cbn. lia.
  - intros _. exists b1. rewrite lookup_insert_eq. split_and!; try done. cbn. rewrite Hc.
    replace (1036 - length bs)%nat with (1024 - (length bs - 12))%nat by lia. rewrite fill_next by (rewrite ?length_drop; lia).
    rewrite drop_app_le, length_app by lia. cbn. do 2 f_equal. lia.
Qed.

Lemma enter : exists s1 g1 c1 tabs, entered s g a c bs j s1 g1 c1 tabs.
Proof using All.
  destruct (decide (length bs < 12)%nat) as [Hl|Hl]; [by apply enter_direct|]. destruct append_rep.
  destruct (decide (length bs = 12%nat)) as [H12|H12].
  - assert (Hn := Hroom H12). destruct (with_table_inv s g a Hv Hn) as [Hv1 He1]. set (b := mk_cb (next_ino s) zero_words).
    destruct (enter_table (with_table s) (table_ghost s g a) (brk s) b) as (c1 & tabs & He); [lia| |exact Hv1|exact He1| | | | | |by eauto 10].
    + unfold update_cache. rewrite cr_small0 by lia. cbn [Z.eqb]. rewrite (bind_Ret _ _ _ _ _ (with_table_eq s g Hv Hn)).
      unfold load_cb, mbind, M_bind. cbn. by rewrite lookup_insert_eq.
    + split_and!; try done. cbn. rewrite lookup_insert_ne by lia. done.
    + by rewrite decide_True.
    + cbn. by rewrite lookup_insert_eq.
    + cbn. by rewrite lookup_insert_eq.
    + cbn. unfold zero_words. rewrite H12, drop_ge by lia. done.
  - destruct cr_table0 as (b & Hb & Hbi & Hbr & Hbc); [lia|]. destruct (iv_cb _ _ Hv _ _ Hb) as (Hp & _).
    destruct (enter_table s g (l1 c) b) as (c1 & tabs & He); [lia| |done|apply ext_refl|done|by rewrite decide_False, Z.add_0_r|done|by rewrite Hbi|done|by eauto 10].
    unfold update_cache. assert (Hi : indirect (inode c) <> 0).
    { apply (iv_role _ _ Hv) in Hbr. pose proof (next_ino_pos _ _ Hv). lia. }
    rewrite (proj2 (Z.eqb_neq _ _) Hi). replace (l1 c =? 0) with false by lia.
    unfold load_cb, mbind, M_bind. rewrite Hb. cbn. by rewrite Hbi, Z.eqb_refl.
Qed.

(** The file has one more block, [j], and [sz] more bytes. *)
Lemma append_block_eq sz : 0 <= sz <= 4096 -> is_u32 (size (inode c) + sz) -> exists s' g' c',
  append_block a sz j s = Ret (tt, s') /\ inv s' g' /\ ext {[a]} s g s' g' /\ cis s' = <[a := c']> (cis s) /\
  size (inode c') = size (inode c) + sz /\ blks g' = <[a := bs ++ [j]]> (blks g) /\ fin g' = fin g /\ img s' = img s /\
  next_ino s' = next_ino s + (if decide (length bs = 12%nat) then 1 else 0).
Proof using All.
  intros Hsz Hsu. destruct enter as (s1 & g1 & c1 & tabs & []). destruct append_rep as [R1 R2 R3 R4 R5 R6 R7 R8 R9 R10].
  destruct en_same0 as (Hcis & Himg & Hblk & Hfin & Hjn). destruct en_c0 as (C1 & C2 & C3 & C4 & C5 & C6 & C7 & C8).
  set (c' := with_nblks (Z.of_nat (S (length bs))) (with_inode (fun d => with_blocks (Z.of_nat (S (length bs))) (with_size (size (inode c) + sz) d)) c1)).
  set (rl := <[j := RData a (length bs)]> (roles g1)).
  assert (Hnx := ex_next _ _ _ _ _ en_ext0). destruct (ex_const _ _ _ _ _ en_ext0) as (Hni & _).
  assert (Hrl : roles g1 ⊆ rl) by (by apply insert_subseteq).
  assert (Hr : forall i r, roles g1 !! i = Some r -> rl !! i = Some r) by (intros; by eapply lookup_weaken).
  assert (Ha1 : cis s1 !! a = Some c) by (by rewrite Hcis).
  destruct (iv_ci _ _ en_inv0 a c Ha1) as (_ & bs' & Hbs' & Hrep1). rewrite Hblk, Hbs in Hbs'. injection Hbs' as <-.
  assert (Hrep : ci_rep tabs rl a c' (bs ++ [j])).
  { split; cbn; rewrite ?length_app; cbn [length]; try done.
    - rewrite C1. apply Hr, (cr_ino _ _ _ _ _ Hrep1).
    - lia.
    - lia.
    - lia.
    - by rewrite en_direct0, length_app.
    - congruence.
    - intros k i Hk. apply lookup_app_Some in Hk as [Hk|[Hk1 Hk2]]; [by apply Hr, (cr_data _ _ _ _ _ Hrep1)|].
      apply list_lookup_singleton_Some in Hk2 as [Hk2 <-]. unfold rl. rewrite lookup_insert_eq. do 2 f_equal. lia.
    - rewrite length_app in en_small0. exact en_small0.
    - intros Hlt. destruct en_table0 as (b & ? & ? & Hx & ?); [by rewrite length_app|]. exists b. rewrite length_app in *. split_and!; auto.
    - rewrite C6, C7. split_and!; apply R10 || done. }
  assert (Hv' : inv (changed s1 a c' tabs) (mk_ghost (<[a := bs ++ [j]]> (blks g1)) rl (fin g1))).
  { apply (changed_inv s1 g1 a c); try done.
    intros i r. unfold rl. destruct (decide (i = j)) as [->|]; [intros _; right; rewrite Hni; lia|]. rewrite lookup_insert_ne by done. apply en_inv0. }
  exists (changed s1 a c' tabs), (mk_ghost (<[a := bs ++ [j]]> (blks g1)) rl (fin g1)), c'. split_and!; try done.
  - unfold append_block, SFS_BLKSIZE. replace (sz <=? 4096) with true by lia. rewrite (bind_Ret _ _ s tt s) by done.
    rewrite (bind_Ret _ _ _ _ _ load_ci_eq). change SFS_LN_NBLKS with 32768. replace (32768 <=? nblks c) with false by lia.
    rewrite (bind_Ret _ _ _ _ _ en_run0). unfold load_ci, mbind, M_bind, put_ci, modify. cbn. rewrite lookup_insert_eq.
    unfold with_inode, with_nblks, with_blocks, with_size. cbn. rewrite C3, C5, C8, R3, R4. rewrite !(u32_id (Z.of_nat _ + 1)) by width. rewrite (u32_id (size _ + sz)) by done.
    replace (Z.of_nat (length bs) + 1) with (Z.of_nat (S (length bs))) by lia. unfold changed, c'. cbn. by rewrite insert_insert_eq.
  - apply (ext_trans _ _ _ s1 g1); [apply (ext_mono ∅); [set_solver|done]|]. apply (changed_ext s1 g1 a c); [done..|].
    intros Hx. set_solver.
  - cbn. by rewrite Hcis.
  - cbn. by rewrite Hblk.
Qed.

End Append.
(** The blocks used up by the block with the index [k] of a file, and by [n]
    blocks from there on. *)
Definition acost (k : nat) : Z := 1 + (if decide (k = 12%nat) then 1 else 0).
Fixpoint acosts (k n : nat) : Z := match n with O => 0 | S n => acost k + acosts (S k) n end.

Lemma acost_pos k : 1 <= acost k.
Proof. unfold acost. case_decide; lia. Qed.
Lemma acosts_pos n : forall k, 0 <= acosts k n.
Proof. induction n as [|n IH]; intros k; cbn [acosts]; [done|]. pose proof (acost_pos k). specialize (IH (S k)). lia. Qed.

(** Only the inode at [a] differs, and the file there has [js] at its end, which
    used [n] blocks. *)
Record grown (s : sfs_fs) (g : ghost) (a : Z) (c : cache_inode) (bs js : list Z) (n sz : Z) (s' : sfs_fs) (g' : ghost) : Prop := {
  gr_inv : inv s' g';
  gr_ext : ext {[a]} s g s' g';
  gr_cis : exists c', cis s' = <[a := c']> (cis s) /\ size (inode c') = size (inode c) + sz;
  gr_blks : blks g' !! a = Some (bs ++ js);
  gr_fin : fin g' = fin g;
  gr_next : next_ino s' = next_ino s + n;
  gr_js : Forall (fun j => next_ino s <= j < next_ino s') js
}.

(** A new block with the content [b] is appended to a file. *)
Lemma append_new s g a c bs b sz : inv s g -> cis s !! a = Some c -> blks g !! a = Some bs -> (length bs < 1036)%nat ->
  next_ino s + acost (length bs) <= ninos s -> is_block b -> 0 <= sz <= 4096 -> is_u32 (size (inode c) + sz) ->
  exists s' g', append_block a sz (next_ino s) (stored (next_ino s) b (taken s)) = Ret (tt, s') /\
    grown s g a c bs [next_ino s] (acost (length bs)) sz s' g' /\ B s' (next_ino s) = b.
Proof.
  intros Hv Ha Hbs Hlen Hroom Hb Hsz Hsu. pose proof (acost_pos (length bs)). destruct (taken_inv s g Hv) as (Hv1 & He1 & Hro & Hfm); [lia|].
  set (s1 := stored (next_ino s) b (taken s)). assert (Hv2 : inv s1 g) by (by apply stored_inv).
  assert (Hn0 := next_ino_pos _ _ Hv).
  assert (He2 : ext ∅ s g s1 g).
  { split; try done; cbn; [by rewrite length_insert|lia| |by split; [|auto]|intros x y Hx; eauto 10].
    intros i Hi. change (B (stored (next_ino s) b (taken s)) i = B s i). rewrite (stored_B (taken s) g) by (done || (cbn; lia)).
    by rewrite decide_False by lia. }
  destruct (append_block_eq s1 g a c bs (next_ino s) Hv2 Ha Hbs Hlen Hro) with (sz := sz) as (s' & g' & c' & Hrun & Hv' & He' & Hcis & Hs & Hblk & Hfin & Himg & Hnx);
    [cbn; lia|intros H12; cbn; unfold acost in Hroom; rewrite decide_True in Hroom by done; lia|done|done|].
  exists s', g'. split; [exact Hrun|]. assert (Hnext : next_ino s' = next_ino s + acost (length bs)) by (rewrite Hnx; unfold acost; cbn; lia).
  split; [split; try done|].
  - apply (ext_trans _ _ _ s1 g); [apply (ext_mono ∅); [set_solver|done]|done].
  - by exists c'.
  - by rewrite Hblk, lookup_insert_eq.
  - constructor; [lia|constructor].
  - unfold B. rewrite Himg. change (B s1 (next_ino s) = b). unfold s1. rewrite (stored_B (taken s) g) by (done || (cbn; lia)). by rewrite decide_True.
Qed.

(** ** Inodes *)

Definition fresh_inode (r i ty : Z) : cache_inode := mk_ci (new_inode ty) 0 r i 0 0 0.
Definition with_new (r ty : Z) (s : sfs_fs) : sfs_fs :=
  set_inodes (chain (hash64 r) (brk s) (inodes s)) (<[brk s := fresh_inode r (next_ino s) ty]> (cis s)) (taken (set_brk (brk s + 1) s)).
Definition new_ghost (s : sfs_fs) (g : ghost) : ghost :=
  mk_ghost (<[brk s := []]> (blks g)) (<[next_ino s := RInode (brk s)]> (roles g)) (fin g).

Lemma fresh_rep tabs rl a r i ty : is_u16 ty -> rl !! i = Some (RInode a) -> ci_rep tabs rl a (fresh_inode r i ty) [].
Proof. intros Ht Hi. split; cbn; try done; try lia. Qed.

Lemma with_new_eq s g r ty : inv s g -> next_ino s < ninos s -> alloc_cache_inode r 0 ty s = Ret (brk s, with_new r ty s).
Proof.
  intros Hv Hn. unfold alloc_cache_inode. rewrite (bind_Ret _ _ s (brk s) (set_brk (brk s + 1) s)) by done.
  cbn [Z.eqb negb]. by rewrite (bind_Ret _ _ _ _ _ (alloc_ino_eq _ g (brk_inv _ _ Hv) Hn)).
Qed.

Lemma with_new_inv s g r ty : inv s g -> next_ino s < ninos s -> is_u16 ty ->
  inv (with_new r ty s) (new_ghost s g) /\ ext ∅ s g (with_new r ty s) (new_ghost s g).
Proof.
  intros Hv Hn Hty. destruct (taken_inv _ g (brk_inv _ _ Hv) Hn) as (Hv1 & _ & Hro & Hfm). cbn in Hro, Hfm. assert (Hf := fresh_ci _ _ Hv).
  assert (Hrl : roles g ⊆ <[next_ino s := RInode (brk s)]> (roles g)) by (by apply insert_subseteq).
  assert (Hne : forall b c, cis s !! b = Some c -> b <> brk s) by (intros b c Hb ->; congruence).
  destruct Hv1 as [I1 I2 I3 I4 I5 I6 I7 I8 I9 I10 I11]. cbn in *. split; [split; cbn; try done|].
  - intros j x. destruct (decide (j = next_ino s)) as [->|]; [intros _; right; lia|rewrite lookup_insert_ne by done]. apply I4.
  - intros b c Hb. destruct (decide (b = brk s)) as [->|Hbn].
    + rewrite lookup_insert_eq in Hb. injection Hb as <-. split; [split; [apply Hv|lia]|]. exists []. rewrite lookup_insert_eq.
      split; [done|]. apply fresh_rep; [done|apply lookup_insert_eq].
    + rewrite lookup_insert_ne in Hb by done. destruct (I5 b c Hb) as (? & bs & Hbs & Hcr). split; [done|]. exists bs.
      rewrite lookup_insert_ne by done. split; [done|]. by apply (rep_mono (cbs s) (roles g)).
  - intros p b Hp. destruct (I6 p b Hp) as (? & (x & Hx) & ?). split; [done|]. split; [|done]. exists x. by eapply lookup_weaken.
  - destruct I7 as (J1 & J2 & J3). split_and!.
    + unfold chain. by rewrite length_alter.
    + intros l x Hl Hx. destruct (decide (x = brk s)) as [->|Hxn]; [by rewrite lookup_insert_eq|]. rewrite lookup_insert_ne by done.
      destruct (chain_elem _ _ _ _ _ Hl Hx) as [?|(l' & Hl' & Hx')]; [done|]. eauto.
    + intros b c. destruct (decide (b = brk s)) as [->|Hbn].
      * rewrite lookup_insert_eq. intros [= <-]. assert (Hr := hash64_range r). apply chain_head. cbn. lia.
      * rewrite lookup_insert_ne by done. intros Hb. destruct (J3 b c Hb) as (l & Hk & Hx). by eapply chain_keeps.
  - intros a Ha. destruct (I10 a Ha) as [c Hc]. rewrite lookup_insert_ne by (by eapply not_eq_sym, Hne). eauto.
  - split; try done; cbn; [lia|by split; [|auto]|]. intros b c Hb. rewrite !lookup_insert_ne by (by eapply not_eq_sym, Hne). eauto 10.
Qed.

(** The inode at [a] is complete. *)
Definition finished (a : Z) (g : ghost) : ghost := mk_ghost (blks g) (roles g) ({[a]} ∪ fin g).

Lemma finished_inv s g a : inv s g -> is_Some (cis s !! a) -> inv s (finished a g).
Proof. intros [] Ha. split; try done. cbn. intros b [->%elem_of_singleton|Hb]%elem_of_union; auto. Qed.

Lemma finished_ext X s0 g0 s g a : ext X s0 g0 s g -> cis s0 !! a = None -> ext X s0 g0 s (finished a g).
Proof.
  intros [A1 B1 C1 [D1 D2] E1] Ha. split; try done. cbn. split; [set_solver|].
  intros b [->%elem_of_singleton|Hb]%elem_of_union; auto.
Qed.

(** Looking for the inode of an object of the host. *)
Lemma search_chain_eq s r l : (forall a, a ∈ l -> is_Some (cis s !! a) /\ a <> 0) ->
  exists a, search_ci_loop l r s = Ret (a, s) /\
    ((a = 0 /\ forall b c, b ∈ l -> cis s !! b = Some c -> real c <> r) \/ exists c, cis s !! a = Some c /\ real c = r /\ a <> 0).
Proof.
  induction l as [|a l IH]; intros Hl; cbn [search_ci_loop]; [exists 0; split; [done|]; left; set_solver|].
  destruct (Hl a ltac:(by left)) as [[c Hc] Ha]. unfold load_ci, mbind, M_bind. rewrite Hc. destruct (Z.eqb_spec (real c) r) as [Hr|Hr].
  - exists a. split; [done|]. right. eauto.
  - destruct IH as (x & Hx & Hor); [intros b Hb; apply Hl; by right|]. exists x. split; [exact Hx|].
    destruct Hor as [[-> Hno]|?]; [left; split; [done|]|by right].
    intros b cb [->|Hb]%elem_of_cons Hcb; [congruence|eauto].
Qed.

Lemma search_eq s g r : inv s g -> exists a, search_cache_inode r s = Ret (a, s) /\
  ((a = 0 /\ forall b c, cis s !! b = Some c -> real c <> r) \/ exists c, cis s !! a = Some c /\ real c = r /\ a <> 0).
Proof.
  intros Hv. destruct (iv_ihash _ _ Hv) as (Hl & Hin & Hout). unfold search_cache_inode. rewrite (bind_Ret _ _ s s s) by done.
  unfold bucket. assert (Hr := hash64_range r). destruct (lookup_lt_is_Some_2 (inodes s) (Z.to_nat (hash64 r))) as [l Hk]; [lia|]. rewrite Hk. cbn.
  destruct (search_chain_eq s r l) as (a & Ha & Hor).
  - intros a Ha. destruct (Hin l a (list_elem_of_lookup_2 _ _ _ Hk) Ha) as [c Hc]. split; [by eauto|]. destruct (iv_ci _ _ Hv a c Hc). lia.
  - exists a. split; [done|]. destruct Hor as [[-> Hno]|?]; [left; split; [done|]|by right].
    intros b c Hb Hrc. destruct (Hout b c Hb) as (l' & Hk' & Hb'). rewrite Hrc, Hk in Hk'. injection Hk' as <-. by eapply Hno.
Qed.

End MksfsSpec.
