(* ===== verification/MksfsTree.v ===== *)
(** The image builder: what it writes represents the directory of the host. *)

From S2P Require Import Prelude Bytes Bitmap Sfs SfsSpec SfsMap SfsFile Mksfs MksfsSpec.

Module MksfsTree.
Import Sfs Mksfs MksfsSpec.
Abbreviation blocks_for := SfsFile.blocks_for.

(** ** A directory on a disk

    The disk is given by its inodes, [K ino type size blocks], and by the content
    [B] of its blocks. *)

(** An entry as [struct sfs_disk_entry]: an inode and a terminated name. *)
Definition names (b : list Z) (i : Z) (name : list Z) : Prop := exists rest, b = le_bytes 4 i ++ name ++ 0 :: rest.

Definition shown (name : list Z) (n : node) : bool := negb (hidden name) && match n with Other => false | _ => true end.

(** The entries [es] of the directory [ino] are those shown of [l], in order. *)
Definition children (rep : node -> Z -> Z -> Prop) (B : Z -> list Z) (ino : Z) : list (list Z * node) -> list Z -> Prop :=
  fix all l es :=
    match l with
    | [] => es = []
    | (name, n) :: l =>
        if shown name n then
          match es with
          | [] => False
          | e :: es => (exists i, names (B e) i name /\ rep n ino i) /\ all l es
          end
        else all l es
    end.

Section Represents.
  Context (content : Z -> list Z) (K : Z -> Z -> Z -> list Z -> Prop) (B : Z -> list Z).

(** A file of the bytes [x] and the type [ty]. *)
Definition holds (ty : Z) (x : list Z) (i : Z) : Prop :=
  exists bs, K i ty (Z.of_nat (length x)) bs /\ take (length x) (mjoin (B <$> bs)) = x.

(** The inode [i] stands for the object [n] of the host in the directory
    [parent]. *)
Fixpoint represents (n : node) (parent i : Z) : Prop :=
  match n with
  | File r => holds SFS_TYPE_FILE (content r) i
  | Link r target => holds SFS_TYPE_LINK target i
  | Dir r l => exists e1 e2 es, K i SFS_TYPE_DIR (256 * Z.of_nat (2 + length es)) (e1 :: e2 :: es) /\
      names (B e1) i [46] /\ names (B e2) parent [46; 46] /\ children represents B i l es
  | Other => True
  end.

End Represents.

(** Induction over the objects of a directory. *)
Lemma node_ind' (P : node -> Prop) : (forall r, P (File r)) -> (forall r l, Forall (fun e => P e.2) l -> P (Dir r l)) ->
  (forall r target, P (Link r target)) -> P Other -> forall n, P n.
Proof.
  intros HF HD HL HO. fix IH 1. intros [r|r l|r target|]; [apply HF| |apply HL|apply HO].
  apply HD. induction l as [|[name n] l IHl]; constructor; [apply IH|exact IHl].
Qed.

Section Mono.
  Context (content : Z -> list Z) (K K' : Z -> Z -> Z -> list Z -> Prop) (B B' : Z -> list Z).
  Hypothesis HK : forall i ty sz bs, K i ty sz bs -> K' i ty sz bs /\ forall j, j ∈ bs -> B' j = B j.

Lemma holds_mono ty x i : holds K B ty x i -> holds K' B' ty x i.
Proof using HK.
  intros (bs & Hk & Hx). destruct (HK _ _ _ _ Hk) as [Hk' Hb]. exists bs. split; [done|].
  replace (B' <$> bs) with (B <$> bs); [done|]. apply list_fmap_ext. intros ? j Hj%list_elem_of_lookup_2. by rewrite Hb.
Qed.

Lemma children_mono (rep rep' : node -> Z -> Z -> Prop) ino l : Forall (fun e => forall p i, rep e.2 p i -> rep' e.2 p i) l ->
  forall es, (forall j, j ∈ es -> B' j = B j) -> children rep B ino l es -> children rep' B' ino l es.
Proof.
  induction 1 as [|[name n] l Hn _ IH]; intros es Hes; cbn; [done|]. destruct (shown name n); [|by apply IH].
  destruct es as [|e es]; [done|]. intros [(i & Hi & Hr) Hrest]. split.
  - exists i. rewrite (Hes e) by (by left). split; [done|]. by apply Hn.
  - apply IH; [|done]. intros j Hj. apply Hes. by right.
Qed.

Lemma represents_mono n : forall p i, represents content K B n p i -> represents content K' B' n p i.
Proof using HK.
  induction n as [r|r l IH|r target|] using node_ind'; intros p i; cbn [represents]; [apply holds_mono| |apply holds_mono|done].
  intros (e1 & e2 & es & Hk & H1 & H2 & Hc). destruct (HK _ _ _ _ Hk) as [Hk' Hb]. exists e1, e2, es.
  rewrite !Hb by set_solver. split_and!; try done. apply (children_mono (represents content K B)); [done| |done].
  intros j Hj. apply Hb. set_solver.
Qed.

End Mono.

(** ** The view of the builder *)

(** The complete inodes. *)
Definition cached (s : sfs_fs) (g : ghost) (i ty sz : Z) (bs : list Z) : Prop :=
  exists a c, a ∈ fin g /\ cis s !! a = Some c /\ ci_ino c = i /\ type (inode c) = ty /\ size (inode c) = sz /\ blks g !! a = Some bs.

Lemma data_range s g a c bs j : inv s g -> cis s !! a = Some c -> blks g !! a = Some bs -> j ∈ bs -> 0 <= j < next_ino s.
Proof.
  intros Hv Ha Hbs [k Hk]%list_elem_of_lookup. destruct (iv_ci _ _ Hv a c Ha) as (_ & bs' & Hbs' & Hrep).
  replace bs' with bs in Hrep by congruence. apply (cr_data _ _ _ _ _ Hrep) in Hk. apply (iv_role _ _ Hv) in Hk.
  pose proof (next_ino_pos _ _ Hv). lia.
Qed.

Lemma cached_ext (X : gset Z) s g s' g' i ty sz bs : inv s g -> ext X s g s' g' -> (forall a, a ∈ fin g -> a ∉ X) ->
  cached s g i ty sz bs -> cached s' g' i ty sz bs /\ forall j, j ∈ bs -> B s' j = B s j.
Proof.
  intros Hv He Hx Hc. split.
  - destruct Hc as (a & c & Hf & Ha & <- & <- & <- & Hbs). destruct (ex_ci _ _ _ _ _ He a c Ha) as (c' & Ha' & Hi & _ & Ht & Hs).
    destruct (Hs (Hx a Hf)) as [Hsz Hbk]. exists a, c'. split_and!; try done; [|congruence]. by apply (ex_fin _ _ _ _ _ He).
  - intros j Hj. apply (ex_img _ _ _ _ _ He). destruct Hc as (a & c & _ & Ha & _ & _ & _ & Hbs). by eapply data_range.
Qed.

Lemma represents_ext content (X : gset Z) s g s' g' n p i : inv s g -> ext X s g s' g' -> (forall a, a ∈ fin g -> a ∉ X) ->
  represents content (cached s g) (B s) n p i -> represents content (cached s' g') (B s') n p i.
Proof. intros Hv He Hx. apply represents_mono. intros i' ty sz bs. by apply (cached_ext X). Qed.


(** ** Files *)

Lemma growth_refl s g a c bs : inv s g -> cis s !! a = Some c -> blks g !! a = Some bs -> grown s g a c bs [] 0 0 s g.
Proof.
  intros Hv Ha Hb. split; [done|apply ext_refl| |by rewrite app_nil_r|done|lia|constructor].
  exists c. rewrite insert_id by done. split; [done|lia].
Qed.

Lemma growth_trans s g a c bs js n sz s1 g1 c1 js' n' sz' s2 g2 :
  grown s g a c bs js n sz s1 g1 -> cis s1 !! a = Some c1 -> 0 <= n -> 0 <= n' -> grown s1 g1 a c1 (bs ++ js) js' n' sz' s2 g2 ->
  grown s g a c bs (js ++ js') (n + n') (sz + sz') s2 g2.
Proof.
  intros [A1 A2 (c1' & A3 & A4) A5 A6 A7 A8] H1 Hn Hn' [B1 B2 (c2 & B3 & B4) B5 B6 B7 B8].
  rewrite A3, lookup_insert_eq in H1. injection H1 as ->. split; try done.
  - by apply (ext_trans _ _ _ s1 g1).
  - exists c2. rewrite B3, A3, insert_insert_eq. split; [done|lia].
  - by rewrite B5, app_assoc.
  - congruence.
  - lia.
  - apply Forall_app. split; (eapply Forall_impl; [done|]); cbn; intros; lia.
Qed.

Lemma grown_at s g a c bs js n sz s' g' : grown s g a c bs js n sz s' g' ->
  exists c', cis s' !! a = Some c' /\ size (inode c') = size (inode c) + sz.
Proof. intros Hg. destruct (gr_cis _ _ _ _ _ _ _ _ _ _ Hg) as (c' & -> & Hs). exists c'. by rewrite lookup_insert_eq. Qed.

(** The number of blocks of [n] bytes. *)
Definition nblocks (n : nat) : nat := Z.to_nat (blocks_for (Z.of_nat n)).
Lemma nblocks_0 : nblocks 0 = 0%nat. Proof. done. Qed.
Lemma nblocks_step n : (0 < n)%nat -> nblocks n = S (nblocks (n - 4096)).
Proof. intros Hn. unfold nblocks, SfsFile.blocks_for. width. Qed.

Definition u32_room (c : cache_inode) (n : nat) : Prop := is_u32 (size (inode c) + Z.of_nat n).

(** What a file of the bytes [x] looks like in blocks. *)
Definition in_blocks (x : list Z) : list Z := x ++ replicate (4096 * nblocks (length x) - length x) 0.

Lemma in_blocks_step x : x <> [] -> in_blocks x = padded (take 4096 x) ++ in_blocks (drop 4096 x).
Proof.
  intros Hx. assert (Hl : (0 < length x)%nat) by (destruct x; [done|cbn; lia]). unfold in_blocks, padded.
  rewrite (nblocks_step (length x)), length_take, length_drop by done. destruct (Nat.le_gt_cases 4096 (length x)).
  - rewrite Nat.min_l by lia. change (4096 - 4096)%nat with 0%nat. rewrite app_nil_r, (app_assoc (take 4096 x)), take_drop. do 2 f_equal. lia.
  - rewrite Nat.min_r, (take_ge x), (drop_ge x) by lia. replace (length x - 4096)%nat with 0%nat by lia.
    change (nblocks 0) with 0%nat. change (4096 * 0 - 0)%nat with 0%nat. cbn [app replicate]. rewrite app_nil_r. done.
Qed.

Lemma file_loop_eq fuel : forall s g a c bs last x, (length x < fuel)%nat -> inv s g -> cis s !! a = Some c -> blks g !! a = Some bs ->
  (length bs + nblocks (length x) <= 1036)%nat -> next_ino s + acosts (length bs) (nblocks (length x)) <= ninos s -> Forall is_u8 x ->
  u32_room c (length x) -> (x <> [] -> last = 4096) -> exists s' g' js, file_loop fuel a last x s = Ret (tt, s') /\
    grown s g a c bs js (acosts (length bs) (nblocks (length x))) (Z.of_nat (length x)) s' g' /\ mjoin (B s' <$> js) = in_blocks x.
Proof.
  induction fuel as [|fuel IH]; intros s g a c bs last x Hfuel Hv Ha Hbs Hlen Hroom Hu Hsz Hlast; [lia|]. cbn [file_loop].
  destruct (decide (x = [])) as [->|Hx].
  { exists s, g, []. split; [done|]. split; [|done]. by apply growth_refl. }
  assert (Hl : (0 < length x)%nat) by (destruct x; [done|cbn; lia]).
  assert (Hn := nblocks_step (length x) Hl). rewrite Hn in *. cbn [acosts] in *. assert (Hp := acosts_pos (nblocks (length x - 4096)) (S (length bs))).
  assert (Ht : length (take 4096 x) = Nat.min 4096 (length x)) by (by rewrite length_take).
  destruct (taken_inv s g Hv) as (Hv1 & _ & _ & _); [pose proof (acost_pos (length bs)); lia|].
  assert (Hs0 : is_u32 (size (inode c))) by (destruct (iv_ci _ _ Hv a c Ha) as (_ & ? & _ & Hrep); apply Hrep).
  remember (Z.of_nat (length (take 4096 x))) as sz eqn:Esz. unfold u32_room in *.
  assert (Hszr : sz = Z.min 4096 (Z.of_nat (length x))) by lia.
  assert (Hb : is_block (padded (take 4096 x))) by (apply padded_block; [lia|by apply Forall_take]).
  destruct (append_new s g a c bs (padded (take 4096 x)) sz) as (s1 & g1 & Hrun & Hg1 & HB1); [exact Hv|exact Ha|exact Hbs|lia|lia|exact Hb|lia|unfold is_u32 in *; lia|].
  destruct (grown_at _ _ _ _ _ _ _ _ _ _ Hg1) as (c1 & Hc1 & Hs1).
  assert (Hbs1 : blks g1 !! a = Some (bs ++ [next_ino s])) by apply (gr_blks _ _ _ _ _ _ _ _ _ _ Hg1).
  assert (Hnx1 := gr_next _ _ _ _ _ _ _ _ _ _ Hg1). assert (Hni1 := ex_const _ _ _ _ _ (gr_ext _ _ _ _ _ _ _ _ _ _ Hg1)).
  destruct (IH s1 g1 a c1 (bs ++ [next_ino s]) sz (drop 4096 x)) as (s2 & g2 & js & Hrun2 & Hg2 & HB2); rewrite ?length_drop, ?length_app; [lia|apply Hg1|done|done|..].
  - cbn [length]. lia.
  - cbn [length]. rewrite Nat.add_1_r. lia.
  - by apply Forall_drop.
  - unfold u32_room. rewrite Hs1, ?length_drop. unfold is_u32 in *. lia.
  - intros Hd. assert (length (drop 4096 x) <> 0%nat) by (by destruct (drop 4096 x)). rewrite length_drop in *. lia.
  - exists s2, g2, (next_ino s :: js). split; [|split].
    + destruct (take 4096 x) as [|y buf] eqn:Et; [cbn [length] in Ht; lia|]. rewrite <- Et, <- ?Esz in *.
      rewrite (Hlast Hx). rewrite (bind_Ret _ _ s tt s) by done. rewrite (bind_Ret _ _ _ _ _ (alloc_ino_eq s g Hv ltac:(pose proof (acost_pos (length bs)); lia))).
      assert (Hw := write_block_eq (taken s) (take 4096 x) sz (next_ino s)). rewrite (take_ge (take 4096 x)) in Hw by (lia).
      rewrite (bind_Ret _ _ _ _ _ (Hw ltac:(lia) ltac:(lia) ltac:(lia) ltac:(cbn; pose proof (acost_pos (length bs)); lia))).
      rewrite (bind_Ret _ _ _ _ _ Hrun). exact Hrun2.
    + rewrite length_drop, length_app in Hg2. cbn [length] in Hg2. rewrite Nat.add_1_r in Hg2.
      replace (Z.of_nat (length x)) with (sz + Z.of_nat (length x - 4096)) by (lia).
      change (next_ino s :: js) with ([next_ino s] ++ js). apply (growth_trans s g a c bs _ _ _ s1 g1 c1); try done; lia || pose proof (acost_pos (length bs)); lia.
    + rewrite fmap_cons. change (mjoin (B s2 (next_ino s) :: (B s2 <$> js))) with (B s2 (next_ino s) ++ mjoin (B s2 <$> js)). rewrite HB2, (in_blocks_step x) by done. f_equal.
      rewrite (ex_img _ _ _ _ _ (gr_ext _ _ _ _ _ _ _ _ _ _ Hg2)); [done|].
      pose proof (next_ino_pos _ _ Hv). pose proof (acost_pos (length bs)). lia.
Qed.

(** ** Entries *)

Lemma set_entry_inv s g e : inv s g -> length e = 260%nat -> Forall is_u8 e -> inv (set_entry e s) g.
Proof. intros [] Hl Hu. by split. Qed.

(** The count of links of the inode at [file] changes. *)
Definition linked (file : Z) (f : cache_inode) (s : sfs_fs) : sfs_fs :=
  set_inodes (inodes s) (<[file := with_inode (fun d => with_nlinks (u16 (nlinks d + 1)) d) f]> (cis s)) s.

Lemma linked_inv s g file f : inv s g -> cis s !! file = Some f -> inv (linked file f s) g /\ ext ∅ s g (linked file f s) g.
Proof.
  intros Hv Hf. destruct (iv_ci _ _ Hv file f Hf) as (_ & bs & Hbs & Hrep).
  set (f' := with_inode (fun d => with_nlinks (u16 (nlinks d + 1)) d) f).
  assert (Hg : mk_ghost (<[file := bs]> (blks g)) (roles g) (fin g) = g) by (rewrite insert_id by done; by destruct g).
  assert (Hr : ci_rep (cbs s) (roles g) file f' bs).
  { destruct Hrep as [H1 H2 H3 H4 H5 H6 H7 H8 H9 (H10 & H11 & H12)]. split; try done. split_and!; try done. apply u16_range. }
  change (linked file f s) with (changed s file f' (cbs s)). split.
  - rewrite <- Hg. apply (changed_inv s g file f); try done; [apply Hv|by left].
  - rewrite <- Hg at 2. by apply (changed_ext s g file f).
Qed.

(** The directory at [cur] has the block [j] more, an entry for [i]. *)
Record added (s : sfs_fs) (g : ghost) (cur : Z) (bs : list Z) (j i : Z) (name : list Z) (s' : sfs_fs) (g' : ghost) : Prop := {
  ad_inv : inv s' g';
  ad_ext : ext {[cur]} s g s' g';
  ad_blks : blks g' !! cur = Some (bs ++ [j]);
  ad_fin : fin g' = fin g;
  ad_next : next_ino s' = next_ino s + acost (length bs);
  ad_range : 0 <= j < next_ino s';
  ad_names : names (B s' j) i name;
  ad_size : exists c', cis s' !! cur = Some c' /\ size (inode c') = 256 * Z.of_nat (S (length bs));
  ad_keys x : is_Some (cis s' !! x) -> is_Some (cis s !! x)
}.

Lemma entry_names e i name : length e = 260%nat -> (length name <= 251)%nat ->
  names (padded (take 256 (splice 0 (le_bytes 4 i ++ name ++ [0]) e))) i name.
Proof.
  intros He Hn. unfold names, splice, padded. rewrite take_0. cbn [app]. rewrite !length_app, length_le_bytes. cbn [length].
  rewrite take_app_ge by (rewrite !length_app, length_le_bytes; cbn [length]; lia). rewrite <- !app_assoc. cbn [app]. eauto.
Qed.

Lemma add_entry_eq s g cur c bs file f name : inv s g -> cis s !! cur = Some c -> type (inode c) = SFS_TYPE_DIR -> blks g !! cur = Some bs ->
  (length bs < 1036)%nat -> size (inode c) = 256 * Z.of_nat (length bs) -> next_ino s + acost (length bs) <= ninos s ->
  cis s !! file = Some f -> (length name <= 251)%nat -> Forall is_u8 name -> exists s' g' j,
  add_entry cur file name s = Ret (tt, s') /\ added s g cur bs j (ci_ino f) name s' g'.
Proof.
  intros Hv Hc Ht Hbs Hlen Hsz Hroom Hf Hn Hu. destruct (iv_entry _ _ Hv) as [Hel Heu].
  set (e := splice 0 (le_bytes 4 (ci_ino f) ++ name ++ [0]) (entry s)).
  assert (Hpre : length (le_bytes 4 (ci_ino f) ++ name ++ [0]) = (5 + length name)%nat) by (rewrite !length_app, length_le_bytes; cbn [length]; lia).
  assert (He : length e = 260%nat) by (unfold e; rewrite length_splice by lia; done).
  assert (Hue : Forall is_u8 e).
  { apply splice_Forall; [done|]. rewrite !Forall_app. split_and!; [apply le_bytes_u8|done|]. constructor; [width|constructor]. }
  assert (Hv0 := set_entry_inv s g e Hv He Hue). set (s0 := set_entry e s) in *. pose proof (acost_pos (length bs)).
  assert (Hb : is_block (padded (take 256 e))) by (apply padded_block; [rewrite length_take; lia|by apply Forall_take]).
  destruct (append_new s0 g cur c bs (padded (take 256 e)) 256) as (s1 & g1 & Hrun & Hg1 & HB1);
    [exact Hv0|exact Hc|exact Hbs|exact Hlen|exact Hroom|exact Hb|lia|rewrite Hsz; width|].
  assert (He0 : ext {[cur]} s g s1 g1) by (by destruct (gr_ext _ _ _ _ _ _ _ _ _ _ Hg1); split).
  destruct (ex_ci _ _ _ _ _ He0 file f Hf) as (f1 & Hf1 & _).
  destruct (linked_inv s1 g1 file f1 (gr_inv _ _ _ _ _ _ _ _ _ _ Hg1) Hf1) as [Hv2 He2].
  assert (Hnx := gr_next _ _ _ _ _ _ _ _ _ _ Hg1). change (next_ino s0) with (next_ino s) in *.
  destruct (grown_at _ _ _ _ _ _ _ _ _ _ Hg1) as (c1 & Hc1 & Hs1). destruct (ex_ci _ _ _ _ _ He2 cur c1 Hc1) as (c2 & Hc2 & _ & _ & _ & Hs2).
  exists (linked file f1 s1), g1, (next_ino s). split.
  - unfold add_entry, load_ci. unfold mbind at 1, M_bind at 1. rewrite Hc. rewrite Ht, Z.eqb_refl. unfold SFS_MAX_FNAME_LEN.
    replace (Z.of_nat (length name) <=? 255) with true by lia. cbn [andb]. rewrite (bind_Ret _ _ s tt s) by done.
    unfold mbind at 1, M_bind at 1. rewrite Hf. rewrite (bind_Ret _ _ s tt s0) by done.
    rewrite (bind_Ret _ _ _ _ _ (alloc_ino_eq s0 g Hv0 ltac:(cbn; lia))). rewrite (bind_Ret _ _ (taken s0) (taken s0) (taken s0)) by done.
    change (entry (taken s0)) with e. change (255 + 1) with 256.
    rewrite (bind_Ret _ _ _ _ _ (write_block_eq (taken s0) e 256 (next_ino s) ltac:(rewrite He; lia) ltac:(lia) ltac:(lia) ltac:(cbn; lia))).
    rewrite (bind_Ret _ _ _ _ _ Hrun). unfold mbind at 1, M_bind at 1. rewrite Hf1. done.
  - assert (Hcur : forall x, is_Some (cis s1 !! x) -> is_Some (cis s !! x)).
    { intros x. destruct (gr_cis _ _ _ _ _ _ _ _ _ _ Hg1) as (c' & -> & _). change (cis s0) with (cis s).
      destruct (decide (x = cur)) as [->|]; [rewrite lookup_insert_eq; eauto|by rewrite lookup_insert_ne]. }
    split; try done.
    + apply (ext_trans _ _ _ s1 g1); [done|]. apply (ext_mono ∅); [set_solver|done].
    + apply Hg1.
    + apply Hg1.
    + pose proof (next_ino_pos _ _ Hv). cbn. lia.
    + change (B (linked file f1 s1)) with (B s1). rewrite HB1. by apply entry_names.
    + exists c2. split; [done|]. destruct (Hs2 ltac:(set_solver)) as [-> _]. rewrite Hs1, Hsz. lia.
    + intros x. cbn. destruct (decide (x = file)) as [->|]; [rewrite lookup_insert_eq; eauto|rewrite lookup_insert_ne by done; apply Hcur].
Qed.

End MksfsTree.
