(* ===== verification/MksfsBuild.v ===== *)
(** The image builder: building the image of a directory succeeds when there is
    room, and the inodes and blocks made for it represent it. *)

From S2P Require Import Prelude Bytes Bitmap Sfs SfsSpec SfsFile Mksfs MksfsSpec MksfsTree.

Module MksfsBuild.
Import Sfs Mksfs MksfsSpec MksfsTree.

(** ** The host tree *)

(** Sums over the entries that are shown. *)
Definition nshown (l : list (list Z * node)) : nat := length (List.filter (fun e => shown e.1 e.2) l).
Definition costs (f : node -> Z) : list (list Z * node) -> Z :=
  fix go l := match l with [] => 0 | (name, n) :: l => (if shown name n then f n else 0) + go l end.
Definition dirs (f : node -> list Z) : list (list Z * node) -> list Z :=
  fix go l := match l with [] => [] | (name, n) :: l => (if shown name n then f n else []) ++ go l end.

Lemma costs_cons f name n l : costs f ((name, n) :: l) = (if shown name n then f n else 0) + costs f l.
Proof. done. Qed.
Lemma dirs_cons f name n l : dirs f ((name, n) :: l) = (if shown name n then f n else []) ++ dirs f l.
Proof. done. Qed.

(** A name that fits the part of an entry that is written. *)
Definition name_ok (name : list Z) : Prop := (length name <= 251)%nat /\ Forall (fun b => 0 < b < 256) name.
Definition entries_ok (f : node -> Prop) : list (list Z * node) -> Prop :=
  fix go l := match l with [] => True | (name, n) :: l => (if hidden name then True else name_ok name /\ f n) /\ go l end.

Section Tree.
  (** The content of the regular files, and the type of each object. *)
  Context (content : Z -> list Z) (kind : Z -> Z).

(** The blocks used up by an object, but for its entry. *)
Fixpoint cost (n : node) : Z :=
  match n with
  | File r => 1 + acosts 0 (nblocks (length (content r)))
  | Dir r l => 1 + acosts 0 (2 + nshown l) + costs cost l
  | Link r target => 1 + acosts 0 1
  | Other => 0
  end.

Fixpoint dir_reals (n : node) : list Z := match n with Dir r l => r :: dirs dir_reals l | _ => [] end.

Fixpoint node_ok (n : node) : Prop :=
  match n with
  | File r => kind r = SFS_TYPE_FILE /\ Forall is_u8 (content r) /\ (nblocks (length (content r)) <= 1036)%nat
  | Dir r l => kind r = SFS_TYPE_DIR /\ (nshown l <= 1034)%nat /\ entries_ok node_ok l
  | Link r target => kind r = SFS_TYPE_LINK /\ Forall is_u8 target /\ (length target < 4096)%nat
  | Other => True
  end.

Lemma costs_pos (f : node -> Z) l : Forall (fun e => 0 <= f e.2) l -> 0 <= costs f l.
Proof. induction 1 as [|[name n] l Hn _ IH]; cbn in *; [done|]. destruct (shown name n); lia. Qed.
Lemma cost_pos n : 0 <= cost n.
Proof.
  induction n as [r|r l IH|r target|] using node_ind'; cbn [cost]; [|pose proof (costs_pos cost l IH)|..];
    try (match goal with |- context [acosts ?k ?n] => pose proof (acosts_pos n k) end); lia.
Qed.

Lemma dirs_kind (f : node -> list Z) l : Forall (fun e => node_ok e.2 -> forall r, r ∈ f e.2 -> kind r = SFS_TYPE_DIR) l ->
  entries_ok node_ok l -> forall r, r ∈ dirs f l -> kind r = SFS_TYPE_DIR.
Proof.
  induction 1 as [|[name n] l Hn _ IH]; cbn; intros Hok r Hr; [by apply elem_of_nil in Hr|]. destruct Hok as [Ho Hok].
  apply elem_of_app in Hr as [Hr|Hr]; [|by apply IH]. unfold shown in Hr. destruct (hidden name); cbn in Hr; [by apply elem_of_nil in Hr|].
  destruct Ho as [_ Ho]. destruct n; cbn in Hr; try (by apply elem_of_nil in Hr); by apply Hn.
Qed.
Lemma dir_reals_kind n : node_ok n -> forall r, r ∈ dir_reals n -> kind r = SFS_TYPE_DIR.
Proof.
  induction n as [r|r l IH|r target|] using node_ind'; cbn; intros Hok x Hx; try (by apply elem_of_nil in Hx).
  destruct Hok as (Hk & _ & Hl). apply elem_of_cons in Hx as [->|Hx]; [done|]. by eapply dirs_kind.
Qed.

(** Every regular file in the table is complete and has its content. *)
Definition files_ok (s : sfs_fs) (g : ghost) : Prop := forall a c, cis s !! a = Some c ->
  type (inode c) = kind (real c) /\ (kind (real c) = SFS_TYPE_FILE -> represents content (cached s g) (B s) (File (real c)) 0 (ci_ino c)).

(** A directory that is being filled. *)
Record opened (s : sfs_fs) (g : ghost) (cur : Z) (c : cache_inode) (bs : list Z) : Prop := {
  op_ci : cis s !! cur = Some c;
  op_type : type (inode c) = SFS_TYPE_DIR;
  op_fin : cur ∉ fin g;
  op_blks : blks g !! cur = Some bs;
  op_size : size (inode c) = 256 * Z.of_nat (length bs)
}.

(** New directories have numbers in [D]. *)
Definition news (D : list Z) (s s' : sfs_fs) : Prop := forall y c', cis s' !! y = Some c' ->
  (exists c, cis s !! y = Some c /\ real c = real c') \/ kind (real c') <> SFS_TYPE_DIR \/ real c' ∈ D.
Definition fresh (D : list Z) (s : sfs_fs) : Prop := forall y c, cis s !! y = Some c -> real c ∉ D.

Lemma news_same X s g s' g' : ext X s g s' g' -> (forall x, is_Some (cis s' !! x) -> is_Some (cis s !! x)) -> news [] s s'.
Proof.
  intros He Hk y c' Hy. left. destruct (Hk y ltac:(eauto)) as [c Hc]. exists c. split; [done|].
  destruct (ex_ci _ _ _ _ _ He y c Hc) as (c1 & Hc1 & _ & Hr & _). congruence.
Qed.
Lemma news_trans D1 D2 s1 s2 s3 : news D1 s1 s2 -> news D2 s2 s3 -> news (D1 ++ D2) s1 s3.
Proof.
  intros H1 H2 y c' Hy. destruct (H2 y c' Hy) as [(c & Hc & Hr)|[?|?]]; [|by auto|right; right; apply elem_of_app; by right].
  destruct (H1 y c Hc) as [(c0 & Hc0 & Hr0)|[Hk|Hd]]; [left; exists c0; split; congruence|right; left; congruence|right; right; apply elem_of_app; left; congruence].
Qed.
Lemma news_mono D D' s s' : D ⊆ D' -> news D s s' -> news D' s s'.
Proof. intros Hd Hn y c' Hy. destruct (Hn y c' Hy) as [?|[?|?]]; auto. Qed.
Lemma fresh_news D D' s s' : fresh D' s -> news D s s' -> (forall r, r ∈ D' -> kind r = SFS_TYPE_DIR) -> (forall r, r ∈ D -> r ∉ D') -> fresh D' s'.
Proof.
  intros Hf Hn Hk Hd y c' Hy Hin. destruct (Hn y c' Hy) as [(c & Hc & Hr)|[Hx|Hx]]; [|by apply Hx, Hk|by eapply Hd].
  apply (Hf y c Hc). by rewrite Hr.
Qed.

Lemma files_ext (X : gset Z) s g s' g' : inv s g -> files_ok s g -> ext X s g s' g' -> (forall a, a ∈ fin g -> a ∉ X) ->
  (forall y c', cis s' !! y = Some c' -> is_Some (cis s !! y) \/ (type (inode c') = kind (real c') /\
     (kind (real c') = SFS_TYPE_FILE -> represents content (cached s' g') (B s') (File (real c')) 0 (ci_ino c')))) -> files_ok s' g'.
Proof.
  intros Hv Hf He Hx Hk y c' Hy. destruct (Hk y c' Hy) as [[c Hc]|?]; [|done].
  destruct (ex_ci _ _ _ _ _ He y c Hc) as (c1 & Hc1 & Hi & Hr & Ht & _). replace c1 with c' in * by congruence.
  destruct (Hf y c Hc) as [H1 H2]. rewrite Hr, Ht, Hi. split; [done|]. intros Hfile. by apply (represents_ext content X s g), H2.
Qed.

Lemma opened_ext (X : gset Z) s g s' g' cur c bs : inv s g -> opened s g cur c bs -> ext X s g s' g' -> cur ∉ X ->
  exists c', opened s' g' cur c' bs /\ ci_ino c' = ci_ino c.
Proof.
  intros Hv [H1 H2 H3 H4 H5] He Hx. destruct (ex_ci _ _ _ _ _ He cur c H1) as (c' & Hc' & Hi & Hr & Ht & Hs). destruct (Hs Hx) as [Hsz Hb].
  exists c'. split; [|done]. split; try congruence.
  intros Hf. destruct (proj2 (ex_fin _ _ _ _ _ He) cur Hf); [done|congruence].
Qed.


(** ** Steps *)

Lemma out_of_fin (g : ghost) cur : cur ∉ fin g -> forall a, a ∈ fin g -> a ∉ ({[cur]} : gset Z).
Proof. intros Hc a Ha ->%elem_of_singleton. done. Qed.

(** What holds between the steps. *)
Record ready (s : sfs_fs) (g : ghost) (cur : Z) (c : cache_inode) (bs : list Z) : Prop := {
  re_inv : inv s g;
  re_files : files_ok s g;
  re_open : opened s g cur c bs
}.

(** From [s] to [s'] the directory at [cur] got the entries [es] for [l], with
    directories numbered in [D] and at most [n] blocks. *)
Record filled (s : sfs_fs) (g : ghost) (cur : Z) (c : cache_inode) (bs : list Z) (l : list (list Z * node)) (D : list Z) (n : Z)
    (s' : sfs_fs) (g' : ghost) (c' : cache_inode) (es : list Z) : Prop := {
  fi_ready : ready s' g' cur c' (bs ++ es);
  fi_ext : ext {[cur]} s g s' g';
  fi_ino : ci_ino c' = ci_ino c;
  fi_news : news D s s';
  fi_next : next_ino s' <= next_ino s + n;
  fi_es : length es = nshown l;
  fi_kids : children (represents content (cached s' g') (B s')) (B s') (ci_ino c) l es
}.

(** An entry for the inode at [file]. *)
Lemma entry_raw s g cur c bs file f name : ready s g cur c bs -> (length bs < 1036)%nat -> next_ino s + acost (length bs) <= ninos s ->
  cis s !! file = Some f -> name_ok name -> exists s' g' c' j, add_entry cur file name s = Ret (tt, s') /\ ready s' g' cur c' (bs ++ [j]) /\
    ext {[cur]} s g s' g' /\ ci_ino c' = ci_ino c /\ news [] s s' /\ next_ino s' = next_ino s + acost (length bs) /\ names (B s' j) (ci_ino f) name.
Proof.
  intros [Hv Hf [O1 O2 O3 O4 O5]] Hlen Hroom Hfile [Hn1 Hn2].
  assert (Hu : Forall is_u8 name) by (eapply Forall_impl; [done|]; cbn; intros; width).
  destruct (add_entry_eq s g cur c bs file f name) as (s' & g' & j & Hrun & Ha); try done. assert (He := ad_ext _ _ _ _ _ _ _ _ _ Ha).
  destruct (ad_size _ _ _ _ _ _ _ _ _ Ha) as (c' & Hc' & Hs'). destruct (ex_ci _ _ _ _ _ He cur c O1) as (c1 & Hc1 & Hi & Hr & Ht & _).
  replace c1 with c' in * by congruence. exists s', g', c', j. split; [done|]. split_and!; try done; [|by apply (news_same {[cur]} s g s' g'); [|apply Ha]|apply Ha|apply Ha].
  split; [apply Ha| |].
  - apply (files_ext {[cur]} s g); try done; [by apply out_of_fin|]. intros y c2 Hy. left. apply (ad_keys _ _ _ _ _ _ _ _ _ Ha). eauto.
  - split; [done|congruence|by rewrite (ad_fin _ _ _ _ _ _ _ _ _ Ha)|apply Ha|]. rewrite Hs', length_app. cbn [length]. f_equal. lia.
Qed.

(** The inode at [file] represents [n]. *)
Lemma entry_step s g cur c bs file f name n : ready s g cur c bs -> (length bs < 1036)%nat -> next_ino s + acost (length bs) <= ninos s ->
  cis s !! file = Some f -> name_ok name -> shown name n = true -> represents content (cached s g) (B s) n (ci_ino c) (ci_ino f) ->
  exists s' g' c' es, add_entry cur file name s = Ret (tt, s') /\ filled s g cur c bs [(name, n)] [] (acost (length bs)) s' g' c' es.
Proof.
  intros Hre Hlen Hroom Hfile Hname Hsh Hrep. destruct (entry_raw s g cur c bs file f name) as (s' & g' & c' & j & Hrun & Hre' & He & Hi & Hn & Hnx & Hnm); try done.
  exists s', g', c', [j]. split; [done|]. split; try done; [lia|unfold nshown; cbn; by rewrite Hsh|].
  cbn. rewrite Hsh. split; [|done]. exists (ci_ino f). split; [done|]. apply (represents_ext content {[cur]} s g); [apply Hre|done| |done]. apply out_of_fin, Hre.
Qed.

(** A new file that was filled with [js], blocks that hold [x]. *)
Lemma file_done s g r ty x js n s2 g2 : inv s g -> files_ok s g -> next_ino s < ninos s -> is_u16 ty -> kind r = ty -> 0 <= n ->
  (kind r = SFS_TYPE_FILE -> x = content r) ->
  grown (with_new r ty s) (new_ghost s g) (brk s) (fresh_inode r (next_ino s) ty) [] js n (Z.of_nat (length x)) s2 g2 ->
  take (length x) (mjoin (B s2 <$> js)) = x -> exists g' f, inv s2 g' /\ files_ok s2 g' /\ ext ∅ s g s2 g' /\ cis s2 !! brk s = Some f /\
    holds (cached s2 g') (B s2) ty x (ci_ino f) /\ next_ino s2 = next_ino s + (1 + n) /\ (ty <> SFS_TYPE_DIR -> news [] s s2).
Proof.
  intros Hv Hf Hn Hty Hk Hn0 Hfile Hg Hx. destruct (with_new_inv s g r ty Hv Hn Hty) as [Hv1 He1]. assert (Hfr := fresh_ci _ _ Hv).
  destruct (gr_cis _ _ _ _ _ _ _ _ _ _ Hg) as (f & Hcis & Hs). assert (Hf2 : cis s2 !! brk s = Some f) by (by rewrite Hcis, lookup_insert_eq).
  assert (He2 := gr_ext _ _ _ _ _ _ _ _ _ _ Hg).
  destruct (ex_ci _ _ _ _ _ He2 (brk s) (fresh_inode r (next_ino s) ty)) as (f1 & Hf1 & Hi & Hr & Ht & _); [cbn; by rewrite lookup_insert_eq|].
  replace f1 with f in * by congruence. cbn in Hr, Ht, Hs.
  assert (Hother : forall y c', cis s2 !! y = Some c' -> y = brk s \/ is_Some (cis s !! y)).
  { intros y c'. rewrite Hcis. destruct (decide (y = brk s)) as [->|Hne]; [by left|]. rewrite lookup_insert_ne by done. cbn. rewrite lookup_insert_ne by done. eauto. }
  set (g' := finished (brk s) g2).
  assert (Hh : holds (cached s2 g') (B s2) ty x (ci_ino f)).
  { exists js. split; [|done]. exists (brk s), f. split_and!; try done; [cbn; set_solver|]. apply (gr_blks _ _ _ _ _ _ _ _ _ _ Hg). }
  assert (He : ext ∅ s g s2 g').
  { apply finished_ext; [|done]. apply (ext_new ∅ (brk s) s g (with_new r ty s) (new_ghost s g)); [done|done|].
    by apply (ext_mono {[brk s]}); [set_solver|]. }
  exists g', f. split_and!; try done.
  - apply finished_inv; [apply Hg|eauto].
  - apply (files_ext ∅ s g); try done. intros y c' Hy. destruct (Hother y c' Hy) as [->|?]; [right|by left].
    replace c' with f by congruence. rewrite Hr, Ht. split; [done|]. intros Hkf. cbn. rewrite Hkf in Hk. subst ty. by rewrite <- Hfile.
  - rewrite (gr_next _ _ _ _ _ _ _ _ _ _ Hg). cbn. lia.
  - intros Hnd y c' Hy. destruct (Hother y c' Hy) as [->|[c Hc]].
    + right. left. replace c' with f by congruence. rewrite Hr. congruence.
    + left. exists c. split; [done|]. destruct (ex_ci _ _ _ _ _ He y c Hc) as (c1 & Hc1 & _ & Hr1 & _). congruence.
Qed.

(** The directory goes on after a new object was made. *)
Lemma ready_ext s g s' g' cur c bs : ready s g cur c bs -> inv s' g' -> files_ok s' g' -> ext ∅ s g s' g' ->
  exists c', ready s' g' cur c' bs /\ ci_ino c' = ci_ino c.
Proof.
  intros [Hv _ Ho] Hv' Hf' He. destruct (opened_ext ∅ s g s' g' cur c bs) as (c' & Ho' & Hi); [done|done|done|set_solver|]. exists c'. by split.
Qed.

Lemma filled_after s g s1 g1 cur c c1 bs l D D' n n' s2 g2 c2 es : ext ∅ s g s1 g1 -> ci_ino c1 = ci_ino c -> news D s s1 -> next_ino s1 <= next_ino s + n ->
  filled s1 g1 cur c1 bs l D' n' s2 g2 c2 es -> filled s g cur c bs l (D ++ D') (n + n') s2 g2 c2 es.
Proof.
  intros He Hi Hn Hnx [F1 F2 F3 F4 F5 F6 F7]. split; try done.
  - apply (ext_trans _ _ _ s1 g1); [by apply (ext_mono ∅)|done].
  - congruence.
  - by apply (news_trans _ _ _ s1).
  - lia.
  - by rewrite <- Hi.
Qed.

Lemma in_blocks_take x : take (length x) (in_blocks x) = x.
Proof. unfold in_blocks. by rewrite take_app_length. Qed.

Lemma add_file_eq s g cur c bs name r : ready s g cur c bs -> (length bs < 1036)%nat -> node_ok (File r) -> name_ok name -> hidden name = false ->
  next_ino s + (cost (File r) + acost (length bs)) <= ninos s -> exists s' g' c' es, add_file content cur name r s = Ret (tt, s') /\
  filled s g cur c bs [(name, File r)] [] (cost (File r) + acost (length bs)) s' g' c' es.
Proof.
  intros Hre Hlen (Hk & Hu & Hnb) Hname Hhid Hroom. cbn [cost] in *. assert (Hsh : shown name (File r) = true) by (unfold shown; by rewrite Hhid).
  assert (Hp := acosts_pos (nblocks (length (content r))) 0). assert (Ha := acost_pos (length bs)). assert (Hv := re_inv _ _ _ _ _ Hre).
  unfold add_file. destruct (search_eq s g r Hv) as (a & Hs & Hor). rewrite (bind_Ret _ _ _ _ _ Hs).
  destruct Hor as [[-> Hno]|(f & Hf & Hr & Ha0)].
  - cbn [Z.eqb]. destruct (with_new_inv s g r SFS_TYPE_FILE Hv) as [Hv1 He1]; [lia|by vm_compute|].
    destruct (file_loop_eq (S (length (content r))) (with_new r SFS_TYPE_FILE s) (new_ghost s g) (brk s) (fresh_inode r (next_ino s) SFS_TYPE_FILE) []
      SFS_BLKSIZE (content r)) as (s2 & g2 & js & Hrun & Hg & HB); try done.
    + lia.
    + cbn. by rewrite lookup_insert_eq.
    + cbn. by rewrite lookup_insert_eq.
    + cbn [length]. cbn. lia.
    + unfold u32_room. cbn [size inode fresh_inode new_inode]. unfold nblocks, SfsFile.blocks_for in Hnb. width.
    + destruct (file_done s g r SFS_TYPE_FILE (content r) js _ s2 g2 Hv (re_files _ _ _ _ _ Hre) ltac:(lia) ltac:(by vm_compute) Hk Hp ltac:(done) Hg)
        as (g' & f & Hv' & Hf' & He' & Hc' & Hh & Hnx & Hnews); [rewrite HB; apply in_blocks_take|].
      destruct (ready_ext s g s2 g' cur c bs Hre Hv' Hf' He') as (c' & Hre' & Hi). destruct (ex_const _ _ _ _ _ He') as [Hni _].
      destruct (entry_step s2 g' cur c' bs (brk s) f name (File r)) as (s3 & g3 & c3 & es & Hr3 & Hfi); try done; [cbn [length] in Hnx; lia|].
      exists s3, g3, c3, es. split.
      * unfold open_file. rewrite (bind_Ret _ _ s (brk s) s2); [exact Hr3|].
        rewrite (bind_Ret _ _ _ _ _ (with_new_eq s g r SFS_TYPE_FILE Hv ltac:(lia))). by rewrite (bind_Ret _ _ _ _ _ Hrun).
      * apply (filled_after s g s2 g' cur c c' bs _ [] []); try done; [by apply Hnews|cbn [length] in *; lia].
  - rewrite (proj2 (Z.eqb_neq _ _) Ha0). rewrite (bind_Ret _ _ s a s) by done. destruct (re_files _ _ _ _ _ Hre a f Hf) as [_ Hrep].
    rewrite Hr in Hrep. destruct (entry_step s g cur c bs a f name (File r)) as (s3 & g3 & c3 & es & Hr3 & Hfi); try done; [lia|by apply Hrep|].
    exists s3, g3, c3, es. split; [done|]. apply (filled_after s g s g cur c c bs _ [] []); try done; [apply ext_refl|by apply (news_same ∅ s g s g); [apply ext_refl|]|lia].
Qed.

Lemma add_link_eq s g cur c bs name r x : ready s g cur c bs -> (length bs < 1036)%nat -> node_ok (Link r x) -> name_ok name -> hidden name = false ->
  next_ino s + (cost (Link r x) + acost (length bs)) <= ninos s -> exists s' g' c' es, add_link cur name r x s = Ret (tt, s') /\
  filled s g cur c bs [(name, Link r x)] [] (cost (Link r x) + acost (length bs)) s' g' c' es.
Proof.
  intros Hre Hlen (Hk & Hu & Hx) Hname Hhid Hroom. change (cost (Link r x)) with 2 in *. assert (Hsh : shown name (Link r x) = true) by (unfold shown; by rewrite Hhid).
  assert (Ha := acost_pos (length bs)). assert (Hv := re_inv _ _ _ _ _ Hre). unfold add_link.
  destruct (with_new_inv s g r SFS_TYPE_LINK Hv) as [Hv1 He1]; [lia|by vm_compute|]. set (s1 := with_new r SFS_TYPE_LINK s) in *.
  assert (Hb : is_block (padded x)) by (apply padded_block; [lia|done]).
  destruct (append_new s1 (new_ghost s g) (brk s) (fresh_inode r (next_ino s) SFS_TYPE_LINK) [] (padded x) (Z.of_nat (length x)))
    as (s2 & g2 & Hrun & Hg & HB); [done|cbn; by rewrite lookup_insert_eq|cbn; by rewrite lookup_insert_eq|cbn; lia|change (acost (length [])) with 1; cbn; lia|done|lia|cbn; width|].
  destruct (file_done s g r SFS_TYPE_LINK x [next_ino s1] 1 s2 g2 Hv (re_files _ _ _ _ _ Hre) ltac:(lia) ltac:(by vm_compute) Hk ltac:(lia)
    ltac:(by rewrite Hk) Hg) as (g' & f & Hv' & Hf' & He' & Hc' & Hh & Hnx & Hnews).
  { cbn [fmap list_fmap]. rewrite HB. cbn. rewrite app_nil_r. unfold padded. by rewrite take_app_length. }
  destruct (ready_ext s g s2 g' cur c bs Hre Hv' Hf' He') as (c' & Hre' & Hi). destruct (ex_const _ _ _ _ _ He') as [Hni _].
  destruct (entry_step s2 g' cur c' bs (brk s) f name (Link r x)) as (s3 & g3 & c3 & es & Hr3 & Hfi); try done; [lia|].
  exists s3, g3, c3, es. split.
  - rewrite (bind_Ret _ _ _ _ _ (with_new_eq s g r SFS_TYPE_LINK Hv ltac:(lia))). fold s1. rewrite (bind_Ret _ _ s1 tt s2); [exact Hr3|].
    unfold open_link, SFS_BLKSIZE. rewrite (bind_Ret _ _ _ _ _ (alloc_ino_eq s1 _ Hv1 ltac:(cbn; lia))). rewrite Z.min_l by lia.
    replace (Z.of_nat (length x) =? 4096) with false by lia. assert (Hw := write_block_eq (taken s1) x (Z.of_nat (length x)) (next_ino s1)).
    rewrite Nat2Z.id, take_ge in Hw by done. rewrite (bind_Ret _ _ _ _ _ (Hw ltac:(lia) ltac:(lia) ltac:(lia) ltac:(cbn; lia))). exact Hrun.
  - apply (filled_after s g s2 g' cur c c' bs _ [] [] 2); try done; [by apply Hnews|lia].
Qed.

(** ** Directories *)

Lemma children_app (rep : node -> Z -> Z -> Prop) (Bk : Z -> list Z) ino l1 l2 : forall es1 es2, length es1 = nshown l1 ->
  children rep Bk ino l1 es1 -> children rep Bk ino l2 es2 -> children rep Bk ino (l1 ++ l2) (es1 ++ es2).
Proof.
  induction l1 as [|[name n] l1 IH]; intros es1 es2 Hl H1 H2; cbn in *; [by rewrite H1|]. unfold nshown in *. cbn in Hl.
  destruct (shown name n); [|by apply IH]. destruct es1 as [|e es1]; [done|]. destruct H1 as [He H1]. split; [done|]. apply IH; [by injection Hl|done|done].
Qed.

Lemma nshown_app l1 l2 : nshown (l1 ++ l2) = (nshown l1 + nshown l2)%nat.
Proof. unfold nshown. by rewrite List.filter_app, length_app. Qed.

Lemma filled_trans s g cur c bs l1 D1 n1 s1 g1 c1 es1 l2 D2 n2 s2 g2 c2 es2 :
  filled s g cur c bs l1 D1 n1 s1 g1 c1 es1 -> filled s1 g1 cur c1 (bs ++ es1) l2 D2 n2 s2 g2 c2 es2 ->
  filled s g cur c bs (l1 ++ l2) (D1 ++ D2) (n1 + n2) s2 g2 c2 (es1 ++ es2).
Proof.
  intros [F1 F2 F3 F4 F5 F6 F7] [G1 G2 G3 G4 G5 G6 G7]. split.
  - by rewrite app_assoc.
  - by apply (ext_trans _ _ _ s1 g1).
  - congruence.
  - by apply (news_trans _ _ _ s1).
  - lia.
  - by rewrite length_app, nshown_app, F6, G6.
  - apply children_app; [done| |by rewrite <- F3].
    apply (children_mono (B s1) (B s2) (represents content (cached s1 g1) (B s1))); [| |done].
    + apply Forall_forall. intros e _ p i. apply (represents_ext content {[cur]} s1 g1); [apply F1|done|]. apply out_of_fin, F1.
    + intros j Hj. apply (ex_img _ _ _ _ _ G2). destruct F1 as [Fv _ [Fc _ _ Fb _]]. eapply data_range; [done..|]. apply elem_of_app. by right.
Qed.

(** What adding an object to a directory does. *)
Definition node_spec (n : node) : Prop := forall s g cur c bs name, ready s g cur c bs -> node_ok n -> name_ok name -> hidden name = false ->
  fresh (dir_reals n) s -> NoDup (dir_reals n) -> shown name n = true -> (length bs < 1036)%nat -> next_ino s + (cost n + acost (length bs)) <= ninos s ->
  exists s' g' c' es, add_node content n cur name s = Ret (tt, s') /\
    filled s g cur c bs [(name, n)] (dir_reals n) (cost n + acost (length bs)) s' g' c' es.

(** The loop of [open_dir]. *)
Definition visit_all (visit : node -> Z -> list Z -> M sfs_fs unit) (current : Z) : list (list Z * node) -> M sfs_fs unit :=
  fix loop l :=
    match l with
    | [] => mret tt
    | (name, n) :: l =>
        (if hidden name then mret tt else
         if SFS_MAX_FNAME_LEN <? Z.of_nat (length name) then panic else visit n current name);;
        loop l
    end.

Lemma visit_all_cons visit cur name n l : visit_all visit cur ((name, n) :: l) =
  ((if hidden name then mret tt else if SFS_MAX_FNAME_LEN <? Z.of_nat (length name) then panic else visit n cur name);; visit_all visit cur l).
Proof. done. Qed.

Lemma filled_nil s g cur c bs : ready s g cur c bs -> filled s g cur c bs [] [] 0 s g c [].
Proof. intros Hr. split; try done; [by rewrite app_nil_r|apply ext_refl|by apply (news_same ∅ s g s g); [apply ext_refl|]|lia]. Qed.

Lemma visit_all_eq l : Forall (fun e => node_spec e.2) l -> forall s g cur c bs, ready s g cur c bs -> entries_ok node_ok l ->
  fresh (dirs dir_reals l) s -> NoDup (dirs dir_reals l) -> (length bs + nshown l <= 1036)%nat ->
  next_ino s + (costs cost l + acosts (length bs) (nshown l)) <= ninos s ->
  exists s' g' c' es, visit_all (add_node content) cur l s = Ret (tt, s') /\
    filled s g cur c bs l (dirs dir_reals l) (costs cost l + acosts (length bs) (nshown l)) s' g' c' es.
Proof.
  induction 1 as [|[name n] l Hn Hl IH]; intros s g cur c bs Hre Hok Hfr Hnd Hlen Hroom.
  { exists s, g, c, []. split; [done|]. by apply filled_nil. }
  destruct Hok as [Ho Hok]. rewrite dirs_cons, costs_cons in *. change (entries_ok node_ok l) in Hok. assert (Hsame : shown name n = false ->
    (if hidden name then mret tt else if SFS_MAX_FNAME_LEN <? Z.of_nat (length name) then panic else add_node content n cur name) s = Ret (tt, s)).
  { unfold shown. destruct (hidden name); [done|]. destruct n; try done. intros _. destruct Ho as [[Hnl _] _]. unfold SFS_MAX_FNAME_LEN.
    by replace (255 <? Z.of_nat (length name)) with false by lia. }
  destruct (shown name n) eqn:Hsh.
  - assert (Hhid : hidden name = false) by (unfold shown in Hsh; by destruct (hidden name)). rewrite Hhid in *. destruct Ho as [Hname Hno].
    assert (Hns : nshown ((name, n) :: l) = S (nshown l)) by (unfold nshown; cbn; by rewrite Hsh). rewrite Hns in *. cbn [acosts] in *.
    apply NoDup_app in Hnd as (Hnd1 & Hdis & Hnd2). assert (Hp := acosts_pos (nshown l) (S (length bs))).
    assert (Hcp : 0 <= costs cost l) by (apply costs_pos, Forall_forall; intros; apply cost_pos).
    cbn [snd] in Hn. destruct (Hn s g cur c bs name) as (s1 & g1 & c1 & es1 & Hr1 & F1);
      [exact Hre|exact Hno|exact Hname|exact Hhid|intros y c0 Hy Hin; apply (Hfr y c0 Hy), elem_of_app; by left|exact Hnd1|exact Hsh|lia|lia|].
    assert (Hes1 : length es1 = 1%nat) by (rewrite (fi_es _ _ _ _ _ _ _ _ _ _ _ _ F1); unfold nshown; cbn; by rewrite Hsh).
    destruct (ex_const _ _ _ _ _ (fi_ext _ _ _ _ _ _ _ _ _ _ _ _ F1)) as [Hni _]. assert (Hnx := fi_next _ _ _ _ _ _ _ _ _ _ _ _ F1).
    destruct (IH s1 g1 cur c1 (bs ++ es1)) as (s2 & g2 & c2 & es2 & Hr2 & F2); rewrite ?length_app, ?Hes1, ?Nat.add_1_r; try done; try lia.
    + apply F1.
    + apply (fresh_news (dir_reals n) _ s); [|apply F1| |by intros r Hr; apply Hdis].
      * intros y c0 Hy Hin. apply (Hfr y c0 Hy), elem_of_app. by right.
      * eapply dirs_kind; [|done]. apply Forall_forall. intros e _. apply dir_reals_kind.
    + exists s2, g2, c2, (es1 ++ es2). split.
      * rewrite visit_all_cons, Hhid. unfold SFS_MAX_FNAME_LEN. destruct Hname as [Hnl _]. replace (255 <? Z.of_nat (length name)) with false by lia.
        by rewrite (bind_Ret _ _ _ _ _ Hr1).
      * rewrite length_app, Hes1, Nat.add_1_r in F2. assert (F := filled_trans _ _ _ _ _ _ _ _ _ _ _ _ _ _ _ _ _ _ _ F1 F2).
        destruct F as [A1 A2 A3 A4 A5 A6 A7]. split; try done. lia.
  - assert (Hns : nshown ((name, n) :: l) = nshown l) by (unfold nshown; cbn; by rewrite Hsh). rewrite Hns in *.
    destruct (IH s g cur c bs) as (s2 & g2 & c2 & es2 & Hr2 & F2); try done. exists s2, g2, c2, es2. split.
    + rewrite visit_all_cons. by rewrite (bind_Ret _ _ _ _ _ (Hsame eq_refl)).
    + destruct F2 as [A1 A2 A3 A4 A5 A6 A7]. split; try done; [by rewrite Hns|]. cbn. by rewrite Hsh.
Qed.

(** A directory that was just made. *)
Lemma open_dir_eq l : Forall (fun e => node_spec e.2) l -> forall s g a c p cp, ready s g a c [] -> cis s !! p = Some cp -> entries_ok node_ok l ->
  fresh (dirs dir_reals l) s -> NoDup (dirs dir_reals l) -> (nshown l <= 1034)%nat -> next_ino s + (costs cost l + acosts 0 (2 + nshown l)) <= ninos s ->
  exists s' g' c' e1 e2 es, open_dir (add_node content) a p l s = Ret (tt, s') /\ ready s' g' a c' (e1 :: e2 :: es) /\ ext {[a]} s g s' g' /\
    ci_ino c' = ci_ino c /\ news (dirs dir_reals l) s s' /\ next_ino s' <= next_ino s + (costs cost l + acosts 0 (2 + nshown l)) /\
    names (B s' e1) (ci_ino c) [46] /\ names (B s' e2) (ci_ino cp) [46; 46] /\
    children (represents content (cached s' g') (B s')) (B s') (ci_ino c) l es.
Proof.
  intros Hl s g a c p cp Hre Hp Hok Hfr Hnd Hn Hroom. change (acosts 0 (2 + nshown l)) with (1 + (1 + acosts 2 (nshown l))) in *.
  assert (Hcp : 0 <= costs cost l) by (apply costs_pos, Forall_forall; intros; apply cost_pos). assert (Hac := acosts_pos (nshown l) 2).
  destruct (entry_raw s g a c [] a c [46]) as (s1 & g1 & c1 & e1 & Hr1 & Hre1 & He1 & Hi1 & Hn1 & Hnx1 & Hnm1);
    [done|cbn; lia|change (acost (length [])) with 1; lia|apply Hre|by repeat constructor; cbn; lia|].
  destruct (ex_ci _ _ _ _ _ He1 p cp Hp) as (cp1 & Hp1 & Hpi & _). change (acost (length [])) with 1 in Hnx1. destruct (ex_const _ _ _ _ _ He1) as [Hni1 _].
  destruct (entry_raw s1 g1 a c1 [e1] p cp1 [46; 46]) as (s2 & g2 & c2 & e2 & Hr2 & Hre2 & He2 & Hi2 & Hn2 & Hnx2 & Hnm2);
    [done|cbn; lia|change (acost (length [e1])) with 1; lia|done|by repeat constructor; cbn; lia|]. change (acost (length [e1])) with 1 in Hnx2.
  destruct (ex_const _ _ _ _ _ He2) as [Hni2 _]. change ([e1] ++ [e2]) with [e1; e2] in *. assert (Hn12 := news_trans _ _ _ _ _ Hn1 Hn2). cbn [app] in Hn12.
  destruct (visit_all_eq l Hl s2 g2 a c2 [e1; e2] Hre2 Hok) as (s3 & g3 & c3 & es & Hr3 & F3); [|done|cbn; lia|cbn [length]; lia|].
  { eapply fresh_news; [done|done| |set_solver]. eapply dirs_kind; [|done]. apply Forall_forall. intros e _. apply dir_reals_kind. }
  assert (He3 := fi_ext _ _ _ _ _ _ _ _ _ _ _ _ F3). assert (Hdat := fun j => data_range s2 g2 a c2 [e1; e2] j (re_inv _ _ _ _ _ Hre2) (op_ci _ _ _ _ _ (re_open _ _ _ _ _ Hre2)) (op_blks _ _ _ _ _ (re_open _ _ _ _ _ Hre2))).
  assert (Hd1 : B s2 e1 = B s1 e1).
  { apply (ex_img _ _ _ _ _ He2). eapply (data_range s1 g1 a c1 [e1]); [apply Hre1|apply Hre1|apply Hre1|by left]. }
  exists s3, g3, c3, e1, e2, es. split_and!.
  - unfold open_dir. rewrite (bind_Ret _ _ _ _ _ Hr1), (bind_Ret _ _ _ _ _ Hr2). exact Hr3.
  - apply F3.
  - apply (ext_trans _ _ _ s1 g1); [done|]. by apply (ext_trans _ _ _ s2 g2).
  - rewrite (fi_ino _ _ _ _ _ _ _ _ _ _ _ _ F3). congruence.
  - apply (news_trans [] (dirs dir_reals l) s s2); [done|apply F3].
  - assert (Hnx3 := fi_next _ _ _ _ _ _ _ _ _ _ _ _ F3). cbn [length] in Hnx3. lia.
  - rewrite (ex_img _ _ _ _ _ He3), Hd1 by (apply Hdat; set_solver). done.
  - rewrite (ex_img _ _ _ _ _ He3) by (apply Hdat; set_solver). by rewrite <- Hpi.
  - assert (Hk := fi_kids _ _ _ _ _ _ _ _ _ _ _ _ F3). rewrite Hi2, Hi1 in Hk. exact Hk.
Qed.

Lemma subpath_inv s g x : inv s g -> inv (set_subpath x s) g.
Proof. intros []. by split. Qed.
Lemma subpath_ready s g cur c bs x : ready s g cur c bs -> ready (set_subpath x s) g cur c bs.
Proof. intros [? ? []]. split; [by apply subpath_inv|done|by split]. Qed.
Lemma subpath_ext X s g s' g' x : ext X (set_subpath x s) g s' g' -> ext X s g (set_subpath (subpath s) s') g'.
Proof. intros [(? & ? & ? & ?) ? ? ? ?]. by split. Qed.

Lemma dir_made s g r : inv s g -> files_ok s g -> next_ino s < ninos s -> kind r = SFS_TYPE_DIR ->
  ready (with_new r SFS_TYPE_DIR s) (new_ghost s g) (brk s) (fresh_inode r (next_ino s) SFS_TYPE_DIR) [].
Proof.
  intros Hv Hf Hn Hk. destruct (with_new_inv s g r SFS_TYPE_DIR Hv Hn) as [Hv1 He1]; [by vm_compute|]. split; [done| |].
  - apply (files_ext ∅ s g); try done. intros y c'. cbn. destruct (decide (y = brk s)) as [->|Hne].
    + rewrite lookup_insert_eq. intros [= <-]. right. cbn. split; [done|]. by rewrite Hk.
    + rewrite lookup_insert_ne by done. eauto.
  - split; cbn; try done; [by rewrite lookup_insert_eq| |by rewrite lookup_insert_eq].
    intros Hb. destruct (iv_fin _ _ Hv _ Hb) as [c Hc]. by rewrite (fresh_ci _ _ Hv) in Hc.
Qed.

(** A directory that has all its entries is complete. *)
Lemma finished_mono s g a i ty sz bs : cached s g i ty sz bs -> cached s (finished a g) i ty sz bs /\ forall j, j ∈ bs -> B s j = B s j.
Proof. intros (b & c & Hb & Hrest). split; [|done]. exists b, c. split; [cbn; set_solver|done]. Qed.

Lemma dir_complete s g a c r l p e1 e2 es : ready s g a c (e1 :: e2 :: es) -> names (B s e1) (ci_ino c) [46] -> names (B s e2) p [46; 46] ->
  children (represents content (cached s g) (B s)) (B s) (ci_ino c) l es ->
  represents content (cached s (finished a g)) (B s) (Dir r l) p (ci_ino c).
Proof.
  intros Hre H1 H2 Hk. cbn [represents]. exists e1, e2, es. destruct (re_open _ _ _ _ _ Hre) as [O1 O2 O3 O4 O5]. split; [|split; [done|split; [done|]]].
  - exists a, c. split_and!; try done. cbn. set_solver.
  - eapply children_mono; [|done|exact Hk]. apply Forall_forall. intros e _ q i. apply represents_mono. intros. by apply finished_mono.
Qed.

Lemma dir_done s g r l p cp : Forall (fun e => node_spec e.2) l -> inv s g -> files_ok s g -> cis s !! p = Some cp -> node_ok (Dir r l) ->
  fresh (dir_reals (Dir r l)) s -> NoDup (dir_reals (Dir r l)) -> next_ino s + cost (Dir r l) <= ninos s ->
  forall x, exists s' g' f, (open_dir (add_node content) (brk s) p l) (set_subpath x (with_new r SFS_TYPE_DIR s)) = Ret (tt, s') /\ subpath s' = x /\
    let s2 := set_subpath (subpath s) s' in inv s2 g' /\ files_ok s2 g' /\ ext ∅ s g s2 g' /\ cis s2 !! brk s = Some f /\
    represents content (cached s2 g') (B s2) (Dir r l) (ci_ino cp) (ci_ino f) /\ next_ino s2 <= next_ino s + cost (Dir r l) /\ news (dir_reals (Dir r l)) s s2.
Proof.
  intros Hl Hv Hf Hp (Hk & Hnl & Hok) Hfr Hnd Hroom x. cbn [cost dir_reals] in *. apply NoDup_cons in Hnd as [Hr Hnd].
  assert (Hac := acosts_pos (2 + nshown l) 0). assert (Hcp : 0 <= costs cost l) by (apply costs_pos, Forall_forall; intros; apply cost_pos).
  assert (Hn : next_ino s < ninos s) by lia. destruct (with_new_inv s g r SFS_TYPE_DIR Hv Hn) as [Hv1 He1]; [by vm_compute|].
  assert (Hre := dir_made s g r Hv Hf Hn Hk). set (s1 := with_new r SFS_TYPE_DIR s) in *. set (g1 := new_ghost s g) in *.
  destruct (ex_ci _ _ _ _ _ He1 p cp Hp) as (cp1 & Hp1 & Hpi & _). assert (Hbk := fresh_ci _ _ Hv).
  assert (Hne : forall y c', cis s1 !! y = Some c' -> (y = brk s /\ real c' = r) \/ exists c, cis s !! y = Some c /\ real c = real c').
  { intros y c'. cbn. destruct (decide (y = brk s)) as [->|Hne]; [rewrite lookup_insert_eq; intros [= <-]; by left|].
    rewrite lookup_insert_ne by done. eauto. }
  destruct (open_dir_eq l Hl (set_subpath x s1) g1 (brk s) (fresh_inode r (next_ino s) SFS_TYPE_DIR) p cp1)
    as (s' & g' & f & e1 & e2 & es & Hrun & Hre' & He' & Hi' & Hn' & Hnx & Hnm1 & Hnm2 & Hkids); try done.
  { by apply subpath_ready. }
  { intros y c' Hy Hin. destruct (Hne y c' Hy) as [[_ Hx]|(c & Hc & Hrc)]; [by rewrite Hx in Hin|]. apply (Hfr y c Hc). right. by rewrite Hrc. }
  { cbn [next_ino ninos set_subpath s1 with_new set_inodes taken set_next_ino set_super set_brk]. lia. }
  exists s', (finished (brk s) g'), f. split; [exact Hrun|]. split; [by destruct (ex_const _ _ _ _ _ He') as (_ & _ & -> & _)|]. cbv zeta. set (s2 := set_subpath (subpath s) s').
  assert (Hes : ext {[brk s]} s1 g1 s2 g') by apply (subpath_ext _ _ _ _ _ _ He').
  assert (He : ext ∅ s g s2 (finished (brk s) g')).
  { apply finished_ext; [|done]. apply (ext_new ∅ (brk s) s g s1 g1); [done|done|]. by apply (ext_mono {[brk s]}); [set_solver|]. }
  assert (Hv2 : inv s2 (finished (brk s) g')).
  { apply finished_inv; [apply subpath_inv, Hre'|]. exists f. apply Hre'. }
  split; [done|]. split; [|split; [done|]].
  { intros y c' Hy. destruct (re_files _ _ _ _ _ Hre' y c' Hy) as [Ht Hh]. split; [done|]. intros Hkf.
    eapply represents_mono; [intros; by apply (finished_mono s' g')|by apply Hh]. }
  split; [apply Hre'|]. split; [|split].
  - rewrite <- Hi' in Hnm1, Hkids. rewrite Hpi in Hnm2. by apply (dir_complete s' g' (brk s) f r l (ci_ino cp) e1 e2 es).
  - cbn in Hnx. cbn. lia.
  - intros y c' Hy. destruct (Hn' y c' Hy) as [(c1 & Hc1 & Hr1)|[?|?]]; [|by auto|right; right; by right].
    destruct (Hne y c1 Hc1) as [[-> Hr2]|(c & Hc & Hr2)]; [right; right; rewrite <- Hr1, Hr2; by left|left; exists c; split; [done|congruence]].
Qed.

Lemma add_dir_eq s g cur c bs name r l : Forall (fun e => node_spec e.2) l -> ready s g cur c bs -> (length bs < 1036)%nat -> node_ok (Dir r l) ->
  name_ok name -> hidden name = false -> fresh (dir_reals (Dir r l)) s -> NoDup (dir_reals (Dir r l)) ->
  next_ino s + (cost (Dir r l) + acost (length bs)) <= ninos s -> exists s' g' c' es, add_dir (add_node content) cur name r l s = Ret (tt, s') /\
  filled s g cur c bs [(name, Dir r l)] (dir_reals (Dir r l)) (cost (Dir r l) + acost (length bs)) s' g' c' es.
Proof.
  intros Hl Hre Hlen Hok Hname Hhid Hfr Hnd Hroom. assert (Hsh : shown name (Dir r l) = true) by (unfold shown; by rewrite Hhid).
  assert (Ha := acost_pos (length bs)). assert (Hv := re_inv _ _ _ _ _ Hre). assert (Hc1 : 1 <= cost (Dir r l)).
  { cbn [cost]. assert (Hac := acosts_pos (2 + nshown l) 0). assert (0 <= costs cost l) by (apply costs_pos, Forall_forall; intros; apply cost_pos). lia. }
  destruct (dir_done s g r l cur c Hl Hv (re_files _ _ _ _ _ Hre) (op_ci _ _ _ _ _ (re_open _ _ _ _ _ Hre)) Hok Hfr Hnd ltac:(lia) (subpath s ++ [name]))
    as (s1 & g1 & f & Hrun & Hsub & Hv1 & Hf1 & He1 & Hfi & Hrep & Hnx & Hnews). set (s2 := set_subpath (subpath s) s1) in *.
  destruct (ready_ext s g s2 g1 cur c bs Hre Hv1 Hf1 He1) as (c' & Hre' & Hi). destruct (ex_const _ _ _ _ _ He1) as [Hni _].
  rewrite <- Hi in Hrep. destruct (entry_step s2 g1 cur c' bs (brk s) f name (Dir r l)) as (s3 & g3 & c3 & es & Hr3 & F3); try done; [lia|].
  exists s3, g3, c3, es. split.
  - unfold add_dir. destruct (search_eq s g r Hv) as (a & Hs & Hor). rewrite (bind_Ret _ _ _ _ _ Hs).
    destruct Hor as [[-> _]|(c0 & Hc0 & Hr0 & _)]; [|exfalso; apply (Hfr a c0 Hc0); rewrite Hr0; by left].
    cbn [Z.eqb]. rewrite (bind_Ret _ _ s tt s) by done. rewrite (bind_Ret _ _ _ _ _ (with_new_eq s g r SFS_TYPE_DIR Hv ltac:(lia))).
    rewrite (bind_Ret _ _ _ tt (set_subpath (subpath s ++ [name]) (with_new r SFS_TYPE_DIR s))) by done.
    rewrite (bind_Ret _ _ _ _ _ Hrun). rewrite (bind_Ret _ _ _ tt s2); [exact Hr3|].
    unfold subpath_pop. rewrite (bind_Ret _ _ s1 s1 s1) by done. rewrite Hsub, length_app. cbn [length]. rewrite Nat.add_1_r. cbn [Nat.eqb negb pred].
    rewrite (bind_Ret _ _ s1 tt s1) by done. unfold put. by rewrite take_app_length.
  - assert (F := filled_after s g s2 g1 cur c c' bs _ _ [] _ _ s3 g3 c3 es He1 Hi Hnews Hnx F3). by rewrite app_nil_r in F.
Qed.

Lemma add_node_eq n : node_spec n.
Proof.
  induction n as [r|r l IH|r x|] using node_ind'; intros s g cur c bs name Hre Hok Hname Hhid Hfr Hnd Hsh Hlen Hroom; cbn [add_node].
  - by apply add_file_eq.
  - by apply add_dir_eq.
  - by apply add_link_eq.
  - unfold shown in Hsh. by rewrite Hhid in Hsh.
Qed.

End Tree.
End MksfsBuild.
