(* ===== verification/MksfsClose.v ===== *)
(** The image builder: what [close_sfs] writes. *)

From S2P Require Import Prelude Bytes Bitmap Sfs SfsSpec SfsSync Mksfs MksfsSpec.

Module MksfsClose.
Import Sfs Mksfs MksfsSpec.

(** ** Concatenations of parts of the same length *)

Section Parts.
  Context (f : nat -> list Z) (m : nat).
  Hypothesis Hf : forall k, length (f k) = m.

Lemma length_parts n : forall a, length (flat_map f (seq a n)) = (m * n)%nat.
Proof using Hf. induction n as [|n IH]; intros a; cbn; [lia|]. rewrite length_app, IH, Hf. lia. Qed.

Lemma lookup_parts n : forall a q r, (q < n)%nat -> (r < m)%nat -> flat_map f (seq a n) !! (m * q + r)%nat = f (a + q)%nat !! r.
Proof using Hf.
  induction n as [|n IH]; intros a q r Hq Hr; [lia|]. cbn [seq flat_map]. destruct q as [|q].
  - rewrite lookup_app_l by (rewrite Hf; lia). by rewrite Nat.mul_0_r, Nat.add_0_r.
  - rewrite lookup_app_r by (rewrite Hf; lia). rewrite Hf. replace (m * S q + r - m)%nat with (m * q + r)%nat by lia. rewrite IH by lia. do 2 f_equal. lia.
Qed.

Lemma slice_parts n a q : (q < n)%nat -> slice (m * q) m (flat_map f (seq a n)) = f (a + q)%nat.
Proof using Hf.
  intros Hq. apply list_eq. intros i. rewrite lookup_slice. case_decide as Hi; [by apply lookup_parts|].
  symmetry. apply lookup_ge_None. rewrite Hf. lia.
Qed.
End Parts.

Lemma words_bytes_parts (f : nat -> list Z) l : words_bytes (flat_map f l) = flat_map (fun k => words_bytes (f k)) l.
Proof. induction l as [|k l IH]; [done|]. cbn [flat_map]. rewrite <- IH. apply flat_map_app. Qed.

(** ** The free map *)

Definition bit (ws : list Z) (i : Z) : bool := Z.testbit (arr_get ws (i `div` 32)) (i `mod` 32).

Lemma next_range i j n : (j =? i) || ((j + 1 <=? i) && (i <? j + 1 + Z.of_nat n)) = (j <=? i) && (i <? j + Z.of_nat (S n)).
Proof.
  destruct (Z.eqb_spec j i), (Z.leb_spec (j + 1) i), (Z.leb_spec j i), (Z.ltb_spec i (j + 1 + Z.of_nat n)), (Z.ltb_spec i (j + Z.of_nat (S n)));
    cbn; reflexivity || (exfalso; lia).
Qed.

Lemma mark_ok n : forall j ws, 0 <= j -> j + Z.of_nat n <= 32 * Z.of_nat (length ws) -> Forall is_u32 ws ->
  length (mark n j ws) = length ws /\ Forall is_u32 (mark n j ws) /\
  forall i, 0 <= i -> bit (mark n j ws) i = bit ws i || ((j <=? i) && (i <? j + Z.of_nat n)).
Proof.
  induction n as [|n IH]; intros j ws Hj Hn Hu; cbn [mark].
  { split_and!; try done. intros i Hi. destruct (Z.leb_spec j i), (Z.ltb_spec i (j + Z.of_nat 0)); cbn [andb]; first [by rewrite orb_false_r|exfalso; lia]. }
  assert (Hm : 0 <= j `mod` 32 < 32) by width. assert (Hq : 0 <= j `div` 32 /\ j = 32 * (j `div` 32) + j `mod` 32) by width.
  assert (Hmask : u32 (1 ≪ (j `mod` 32)) = 2 ^ (j `mod` 32)) by (apply Bitmap.mask_eq; lia). rewrite Hmask.
  set (ws1 := arr_set ws (j `div` 32) (Z.lor (arr_get ws (j `div` 32)) (2 ^ (j `mod` 32)))).
  assert (Hl1 : length ws1 = length ws) by apply arr_set_length.
  assert (Hu1 : Forall is_u32 ws1).
  { apply arr_set_Forall; [done|]. apply is_u32_lor; [by apply arr_get_Forall|]. split; [lia|].
    apply (Z.pow_lt_mono_r 2 (j `mod` 32) 32); lia. }
  destruct (IH (j + 1) ws1) as (L & U & Bt); [lia|rewrite Hl1; lia|done|]. rewrite L, Hl1. split_and!; try done.
  intros i Hi. rewrite Bt by done. unfold bit, ws1. assert (Hqi : 0 <= i `div` 32 /\ i = 32 * (i `div` 32) + i `mod` 32 /\ 0 <= i `mod` 32 < 32) by width.
  destruct (decide (i `div` 32 = j `div` 32)) as [He|He].
  - rewrite He, arr_get_set_eq by lia. rewrite Z.lor_spec, Z.pow2_bits_eqb by lia. rewrite <- orb_assoc. f_equal.
    replace (j `mod` 32 =? i `mod` 32) with (j =? i) by (destruct (Z.eqb_spec j i), (Z.eqb_spec (j `mod` 32) (i `mod` 32)); congruence || lia).
    apply next_range.
  - rewrite arr_get_set_ne by lia. f_equal. rewrite <- next_range. by replace (j =? i) with false by (symmetry; apply Z.eqb_neq; congruence).
Qed.

Lemma zero_bit i : bit zero_words i = false.
Proof.
  unfold bit, zero_words, arr_get. destruct (replicate 1024 0 !! Z.to_nat (i `div` 32)) as [x|] eqn:E; cbn; [|apply Z.testbit_0_l].
  apply lookup_replicate in E as [-> _]. apply Z.testbit_0_l.
Qed.

Lemma map_words_ok n next k : 0 <= k -> 32768 * k < n -> 0 <= next <= n ->
  length (map_words n next (32768 * k)) = 1024%nat /\ Forall is_u32 (map_words n next (32768 * k)) /\
  forall i, 0 <= i < 32768 -> bit (map_words n next (32768 * k)) i = (next <=? 32768 * k + i) && (32768 * k + i <? n).
Proof.
  intros Hk Hkn Hnext. destruct zero_words_ok as [Zl Zu]. unfold map_words. change SFS_BLKBITS with 32768.
  destruct (Z.ltb_spec next (32768 * k + 32768)) as [Hlt|Hge].
  - set (start := if 32768 * k <? next then next - 32768 * k else 0). set (end_ := if n <? 32768 * k + 32768 then n - 32768 * k else 32768).
    assert (Hs : 0 <= start /\ (start = next - 32768 * k \/ next <= 32768 * k /\ start = 0)) by (unfold start; destruct (Z.ltb_spec (32768 * k) next); lia).
    assert (He : start <= end_ /\ end_ <= 32768 /\ (end_ = n - 32768 * k \/ 32768 * k + 32768 <= n /\ end_ = 32768)) by (unfold end_; destruct (Z.ltb_spec n (32768 * k + 32768)); lia).
    destruct (mark_ok (Z.to_nat (end_ - start)) start zero_words) as (L & U & Bt); [lia|rewrite Zl; lia|done|].
    rewrite L. split_and!; try done. intros i Hi. rewrite Bt, zero_bit by lia. cbn [orb]. rewrite Z2Nat.id by lia. apply eq_true_iff_eq. rewrite !andb_true_iff, !Z.leb_le, !Z.ltb_lt. lia.
  - split_and!; try done. intros i Hi. rewrite zero_bit. symmetry. apply andb_false_iff. rewrite Z.leb_gt. lia.
Qed.

Lemma words_block ws : length ws = 1024%nat -> is_block (words_bytes ws).
Proof. intros Hl. split; [rewrite length_words_bytes, Hl; lia|apply words_bytes_u8]. Qed.

(** ** Writing *)

(** Only the image differs. *)
Definition imaged (s s' : sfs_fs) : Prop := s' = set_img (img s') s /\ length (img s') = length (img s).
Lemma imaged_refl s : imaged s s.
Proof. by destruct s. Qed.
Lemma imaged_trans s1 s2 s3 : imaged s1 s2 -> imaged s2 s3 -> imaged s1 s3.
Proof. intros [H1 L1] [H2 L2]. split; [|congruence]. by rewrite H2, H1. Qed.
Lemma imaged_stored s j b : imaged s (stored j b s).
Proof. split; [done|]. cbn. by rewrite length_insert. Qed.

Lemma write_full s data j : length data = 4096%nat -> j < ninos s -> write_block data SFS_BLKSIZE j s = Ret (tt, stored j data s).
Proof.
  intros Hl Hj. rewrite write_block_eq by (unfold SFS_BLKSIZE; lia). unfold padded, SFS_BLKSIZE.
  change (Z.to_nat 4096) with 4096%nat. rewrite take_ge by lia. rewrite Hl, Nat.sub_diag. cbn [replicate]. by rewrite app_nil_r.
Qed.

Lemma freemap_loop_eq m : forall fuel k s g, inv s g -> (m < fuel)%nat -> 0 <= k -> 2 + k + Z.of_nat m = fm_end (ninos s) ->
  exists s', freemap_loop fuel (32768 * k) (2 + k) s = Ret (tt, s') /\ inv s' g /\ imaged s s' /\
    forall j, 0 <= j -> B s' j = if decide (2 + k <= j < 2 + k + Z.of_nat m) then words_bytes (map_words (ninos s) (next_ino s) (32768 * (j - 2))) else B s j.
Proof.
  induction m as [|m IH]; intros fuel k s g Hv Hfuel Hk Hm; (destruct fuel as [|fuel]; [lia|]); cbn [freemap_loop];
    destruct (iv_next _ _ Hv) as [Hn1 Hn2]; rewrite (bind_Ret _ _ s s s) by done.
  - unfold fm_end in Hm. replace (32768 * k <? ninos s) with false by (symmetry; apply Z.ltb_ge; width).
    exists s. split; [done|]. split; [done|]. split; [apply imaged_refl|]. intros j Hj. by rewrite decide_False by lia.
  - assert (Hlt : 32768 * k < ninos s) by (unfold fm_end in Hm; width). rewrite (proj2 (Z.ltb_lt _ _) Hlt).
    pose proof (next_ino_pos _ _ Hv). destruct (map_words_ok (ninos s) (next_ino s) k) as (L & _ & _); [lia|lia|lia|].
    assert (Hb := words_block _ L). rewrite (bind_Ret _ _ _ _ _ (write_full s _ (2 + k) (proj1 Hb) ltac:(lia))).
    change SFS_BLKBITS with 32768. rewrite u32_id by width. replace (32768 * k + 32768) with (32768 * (k + 1)) by lia.
    replace (2 + k + 1) with (2 + (k + 1)) by lia. set (s1 := stored (2 + k) (words_bytes (map_words (ninos s) (next_ino s) (32768 * k))) s).
    destruct (IH fuel (k + 1) s1 g) as (s2 & Hr & Hv2 & Him & HB); [by apply stored_inv|lia|lia|cbn; lia|].
    exists s2. split; [done|]. split; [done|]. split; [apply (imaged_trans _ s1); [apply imaged_stored|done]|]. intros j Hj. rewrite HB by done.
    change (ninos s1) with (ninos s). change (next_ino s1) with (next_ino s). unfold s1. rewrite (stored_B s g) by (done || lia).
    destruct (decide (j = 2 + k)) as [->|Hne].
    + rewrite decide_False by lia. rewrite decide_True by lia. do 3 f_equal. lia.
    + destruct (decide (2 + (k + 1) <= j < 2 + (k + 1) + Z.of_nat m)); [rewrite decide_True by lia|rewrite decide_False by lia]; done.
Qed.

(** ** The cached structures *)

Definition inode_bytes (c : cache_inode) : list Z := din_bytes (inode c) ++ le_bytes 4 (db_indirect c).

Lemma role_u32 s g j r : inv s g -> roles g !! j = Some r -> 0 < j < ninos s /\ is_u32 j.
Proof. intros Hv Hj%(iv_role _ _ Hv). pose proof (next_ino_pos _ _ Hv). destruct (iv_next _ _ Hv). width. Qed.

Lemma inode_ok s g a c : inv s g -> cis s !! a = Some c -> SfsSync.din_ok (inode c).
Proof.
  intros Hv Ha. destruct (iv_ci _ _ Hv a c Ha) as (_ & bs & _ & [R1 R2 R3 R4 R5 R6 R7 R8 R9 (R10 & R11 & R12)]). unfold is_u16 in *. split; [|done|].
  - split_and!; [done|rewrite R4; width|]. destruct (Nat.le_gt_cases (length bs) 12) as [Hl|Hl]; [rewrite R8 by done; width|].
    destruct (R9 Hl) as (b & _ & _ & Hr & _). by apply (role_u32 s g _ _ Hv Hr).
  - rewrite R5, length_app, length_take, length_replicate. split; [lia|]. apply Forall_app. split; [|apply Forall_replicate; width].
    apply Forall_take, Forall_forall. intros j [k Hk]%list_elem_of_lookup. by apply (role_u32 s g _ _ Hv (R7 k j Hk)).
Qed.

Lemma inode_block s g a c : inv s g -> cis s !! a = Some c -> length (inode_bytes c) = 68%nat /\ is_block (padded (inode_bytes c)).
Proof.
  intros Hv Ha. destruct (SfsSync.din_bytes_ok _ (inode_ok s g a c Hv Ha)) as [Hl Hu].
  assert (Hl68 : length (inode_bytes c) = 68%nat) by (unfold inode_bytes; rewrite length_app, Hl, length_le_bytes; lia). split; [done|].
  apply padded_block; [lia|]. apply Forall_app. split; [done|apply le_bytes_u8].
Qed.

(** What is written to the block of a structure. *)
Definition target (s : sfs_fs) (g : ghost) (j : Z) : list Z :=
  match roles g !! j with
  | Some (RTable a p) => match cbs s !! p with Some b => words_bytes (cache b) | None => [] end
  | Some (RInode a) => match cis s !! a with Some c => padded (inode_bytes c) | None => [] end
  | _ => []
  end.
Definition is_meta (g : ghost) (j : Z) : Prop :=
  match roles g !! j with Some (RTable _ _) | Some (RInode _) => True | _ => False end.

(** The structures of the blocks [W] are on the image. *)
Record flushed (s : sfs_fs) (g : ghost) (W : list Z) (s' : sfs_fs) : Prop := {
  fl_img : imaged s s';
  fl_inv : inv s' g;
  fl_meta : Forall (is_meta g) W;
  fl_B j : 0 <= j -> B s' j = if decide (j ∈ W) then target s g j else B s j
}.

Lemma imaged_fields s s' : imaged s s' -> cis s' = cis s /\ cbs s' = cbs s /\ inodes s' = inodes s /\ cblocks s' = cblocks s /\ ninos s' = ninos s.
Proof. intros [-> _]. done. Qed.

Lemma flush_one s g W s' j b : flushed s g W s' -> is_meta g j -> target s g j = b -> is_block b -> flushed s g (j :: W) (stored j b s').
Proof.
  intros [F1 F2 F3 F4] Hm Ht Hb. assert (Hj : 0 < j < ninos s').
  { unfold is_meta in Hm. destruct (roles g !! j) as [r|] eqn:E; [|done]. by apply (role_u32 s' g j r F2 E). }
  split; [apply (imaged_trans _ s'); [done|apply imaged_stored]|by apply stored_inv|by constructor|]. intros i Hi. rewrite (stored_B s' g) by (done || lia).
  destruct (decide (i = j)) as [->|Hne].
  - rewrite decide_True by (by left). done.
  - rewrite F4 by done. destruct (decide (i ∈ W)); [rewrite decide_True by (by right)|rewrite decide_False by set_solver]; done.
Qed.

Section Flush.
  Context (s : sfs_fs) (g : ghost).
  Hypothesis Hv : inv s g.

(** The states reached from [s'] with the blocks [J] written as well. *)
Definition flush_to (W : list Z) (J : Z -> Prop) (s'' : sfs_fs) : Prop := exists W', flushed s g W' s'' /\ W ⊆ W' /\ forall j, J j -> j ∈ W'.

Lemma flush_blocks l : forall W s', flushed s g W s' -> (forall p, p ∈ l -> is_Some (cbs s !! p)) ->
  exists s'', each flush_cache_block l s' = Ret (tt, s'') /\ flush_to W (fun j => exists p b, p ∈ l /\ cbs s !! p = Some b /\ j = cb_ino b) s''.
Proof using Hv.
  induction l as [|p l IH]; intros W s' Hfl Hl; cbn [each].
  { exists s'. split; [done|]. exists W. split_and!; try done. intros j (p & b & Hp & _). by apply elem_of_nil in Hp. }
  destruct (Hl p ltac:(by left)) as [b Hb]. destruct (iv_cb _ _ Hv p b Hb) as (_ & (a & Hro) & Hcl & _).
  destruct (imaged_fields _ _ (fl_img _ _ _ _ Hfl)) as (_ & Hcbs & _ & _ & Hni). assert (Hbk := words_block _ Hcl).
  destruct (role_u32 _ _ _ _ Hv Hro) as [Hj _].
  assert (Hf : flushed s g (cb_ino b :: W) (stored (cb_ino b) (words_bytes (cache b)) s')).
  { apply flush_one; try done; [unfold is_meta; by rewrite Hro|]. unfold target. by rewrite Hro, Hb. }
  destruct (IH _ _ Hf) as (s'' & Hr & W' & F & Hsub & Hin); [intros q Hq; apply Hl; by right|].
  exists s''. split.
  - rewrite (bind_Ret _ _ s' tt (stored (cb_ino b) (words_bytes (cache b)) s')); [exact Hr|].
    unfold flush_cache_block. rewrite (bind_Ret _ _ s' b s') by (unfold load_cb; by rewrite Hcbs, Hb). apply write_full; [apply Hbk|lia].
  - exists W'. split; [done|]. split; [set_solver|]. intros j (q & b' & [->|Hq]%elem_of_cons & Hb' & ->); [|apply Hin; eauto].
    replace b' with b by congruence. set_solver.
Qed.

Lemma flush_inodes l : forall W s', flushed s g W s' -> (forall a, a ∈ l -> is_Some (cis s !! a)) ->
  exists s'', each flush_cache_inode l s' = Ret (tt, s'') /\ flush_to W (fun j => exists a c, a ∈ l /\ cis s !! a = Some c /\ j = ci_ino c) s''.
Proof using Hv.
  induction l as [|a l IH]; intros W s' Hfl Hl; cbn [each].
  { exists s'. split; [done|]. exists W. split_and!; try done. intros j (p & b & Hp & _). by apply elem_of_nil in Hp. }
  destruct (Hl a ltac:(by left)) as [c Hc]. destruct (iv_ci _ _ Hv a c Hc) as (_ & bs & _ & Hrep). assert (Hro := cr_ino _ _ _ _ _ Hrep).
  destruct (imaged_fields _ _ (fl_img _ _ _ _ Hfl)) as (Hcis & _ & _ & _ & Hni). destruct (inode_block s g a c Hv Hc) as [H68 Hbk].
  destruct (role_u32 _ _ _ _ Hv Hro) as [Hj _].
  assert (Hf : flushed s g (ci_ino c :: W) (stored (ci_ino c) (padded (inode_bytes c)) s')).
  { apply flush_one; try done; [unfold is_meta; by rewrite Hro|]. unfold target. by rewrite Hro, Hc. }
  destruct (IH _ _ Hf) as (s'' & Hr & W' & F & Hsub & Hin); [intros q Hq; apply Hl; by right|].
  exists s''. split.
  - rewrite (bind_Ret _ _ s' tt (stored (ci_ino c) (padded (inode_bytes c)) s')); [exact Hr|].
    unfold flush_cache_inode. rewrite (bind_Ret _ _ s' c s') by (unfold load_ci; by rewrite Hcis, Hc). change (din_bytes (inode c) ++ le_bytes 4 (db_indirect c)) with (inode_bytes c).
    rewrite write_block_eq by lia. rewrite take_ge by lia. done.
  - exists W'. split; [done|]. split; [set_solver|]. intros j (q & c' & [->|Hq]%elem_of_cons & Hc' & ->); [|apply Hin; eauto].
    replace c' with c by congruence. set_solver.
Qed.

Lemma flush_loop_eq n : forall i W s', flushed s g W s' -> 0 <= i -> i + Z.of_nat n = 1024 ->
  exists s'', flush_loop n i s' = Ret (tt, s'') /\ flush_to W (fun j => exists h l, (Z.to_nat i <= h)%nat /\
    ((cblocks s !! h = Some l /\ exists p b, p ∈ l /\ cbs s !! p = Some b /\ j = cb_ino b) \/
     (inodes s !! h = Some l /\ exists a c, a ∈ l /\ cis s !! a = Some c /\ j = ci_ino c))) s''.
Proof using Hv.
  induction n as [|n IH]; intros i W s' Hfl Hi Hn; cbn [flush_loop].
  { exists s'. split; [done|]. exists W. split_and!; try done. intros j (h & l & Hh & Hor). exfalso.
    destruct (iv_ihash _ _ Hv) as [L1 _]. destruct (iv_bhash _ _ Hv) as [L2 _].
    destruct Hor as [[Hl%lookup_lt_Some _]|[Hl%lookup_lt_Some _]]; lia. }
  destruct (imaged_fields _ _ (fl_img _ _ _ _ Hfl)) as (Hcis & Hcbs & Hino & Hblk & Hni). rewrite (bind_Ret _ _ s' s' s') by done.
  destruct (iv_ihash _ _ Hv) as (L1 & M1 & _). destruct (iv_bhash _ _ Hv) as (L2 & M2 & _).
  destruct (lookup_lt_is_Some_2 (inodes s) (Z.to_nat i)) as [l1 Hl1]; [lia|]. destruct (lookup_lt_is_Some_2 (cblocks s) (Z.to_nat i)) as [l2 Hl2]; [lia|].
  unfold bucket. rewrite Hino, Hblk, Hl1, Hl2. cbn [default].
  destruct (flush_blocks l2 W s' Hfl) as (s1 & R1 & W1 & F1 & S1 & I1); [intros p Hp; apply (M2 l2); [by eapply list_elem_of_lookup_2|done]|].
  destruct (flush_inodes l1 W1 s1 F1) as (s2 & R2 & W2 & F2 & S2 & I2); [intros p Hp; apply (M1 l1); [by eapply list_elem_of_lookup_2|done]|].
  destruct (IH (i + 1) W2 s2 F2) as (s3 & R3 & W3 & F3 & S3 & I3); [lia|lia|].
  exists s3. split; [by rewrite (bind_Ret _ _ _ _ _ R1), (bind_Ret _ _ _ _ _ R2)|]. exists W3. split; [done|]. split; [set_solver|].
  intros j (h & l & Hh & Hor). destruct (decide (h = Z.to_nat i)) as [->|Hne].
  - destruct Hor as [[Hl Hj]|[Hl Hj]]; rewrite ?Hl1, ?Hl2 in Hl; injection Hl as <-; [by apply S3, S2, I1|by apply S3, I2].
  - apply I3. exists h, l. split; [lia|done].
Qed.

End Flush.

(** The image at the end. *)
Record closed (s : sfs_fs) (g : ghost) (s' : sfs_fs) : Prop := {
  cl_img : ninos s <= Z.of_nat (length (img s')) /\ Forall is_block (img s');
  cl_super : B s' 0 = padded (super_bytes (super s));
  cl_map j : 2 <= j < fm_end (ninos s) -> B s' j = words_bytes (map_words (ninos s) (next_ino s) (32768 * (j - 2)));
  cl_inode a c : cis s !! a = Some c -> B s' (ci_ino c) = padded (inode_bytes c);
  cl_table p b : cbs s !! p = Some b -> B s' (cb_ino b) = words_bytes (cache b);
  cl_data a k j : roles g !! j = Some (RData a k) -> B s' j = B s j
}.

Lemma close_sfs_eq s g : inv s g -> exists s', close_sfs s = Ret (tt, s') /\ closed s g s' /\ length (img s') = length (img s).
Proof.
  intros Hv. pose proof (next_ino_pos _ _ Hv). destruct (iv_next _ _ Hv) as [Hn1 Hn2].
  destruct (freemap_loop_eq (Z.to_nat (fm_end (ninos s) - 2)) (S (Z.to_nat (ninos s))) 0 s g Hv) as (s1 & R1 & V1 & I1 & B1); [lia|lia|lia|].
  destruct (iv_super _ _ Hv) as (_ & Hsb & _ & Hil & Hiu).
  assert (Hsu : length (super_bytes (super s)) = 44%nat /\ Forall is_u8 (super_bytes (super s))).
  { unfold super_bytes. rewrite !length_app, !length_le_bytes, Hil. split; [done|]. rewrite !Forall_app. auto using le_bytes_u8. }
  set (s2 := stored 0 (padded (super_bytes (super s))) s1). destruct (imaged_fields _ _ I1) as (_ & _ & _ & _ & Hni1).
  assert (V2 : inv s2 g) by (apply stored_inv; [done|]; apply padded_block; [lia|apply Hsu]).
  assert (I2 : imaged s s2) by (apply (imaged_trans _ s1); [done|apply imaged_stored]).
  assert (F2 : flushed s2 g [] s2).
  { split; [apply imaged_refl|done|constructor|]. intros j Hj. rewrite decide_False; [done|]. apply not_elem_of_nil. }
  destruct (flush_loop_eq s2 g V2 1024 0 [] s2 F2) as (s3 & R3 & W & F3 & _ & Hin); [lia|lia|].
  destruct (imaged_fields _ _ I2) as (Hcis & Hcbs & Hino & Hblk & Hni). destruct F3 as [I3 V3 M3 B3]. rewrite Forall_forall in M3.
  assert (Hout : forall j, ~ is_meta g j -> 0 <= j -> B s3 j = B s2 j).
  { intros j Hm Hj. rewrite B3 by done. rewrite decide_False; [done|]. intros Hw. by apply Hm, M3. }
  assert (Hrole : forall j, (j <= 2 \/ 2 <= j < fm_end (ninos s)) -> j <> 1 -> ~ is_meta g j).
  { intros j Hj H1 Hm. unfold is_meta in Hm. destruct (roles g !! j) as [r|] eqn:E; [|done]. apply (iv_role _ _ Hv) in E. lia. }
  assert (B2 : forall j, 0 <= j -> B s2 j = if decide (j = 0) then padded (super_bytes (super s)) else B s1 j).
  { intros j Hj. apply (stored_B s1 g); [done|rewrite Hni1; lia|done]. }
  exists s3. split; [|split; [split|]].
  - unfold close_sfs. rewrite (bind_Ret _ _ s s s) by done. change (32768 * 0) with 0 in R1. change (2 + 0) with 2 in R1.
    rewrite (bind_Ret _ _ _ _ _ R1). rewrite (bind_Ret _ _ s1 tt s2); [exact R3|]. unfold SFS_BLKN_SUPER.
    rewrite write_block_eq by lia. rewrite take_ge by lia. done.
  - rewrite <- Hni. destruct (imaged_fields _ _ I3) as (_ & _ & _ & _ & <-). apply (iv_img _ _ V3).
  - rewrite Hout, B2 by first [apply Hrole; lia|lia]. done.
  - intros j Hj. rewrite Hout by first [apply Hrole; lia|lia]. rewrite B2, decide_False, B1 by lia. rewrite decide_True by lia. done.
  - intros a c Ha. destruct (iv_ci _ _ Hv a c Ha) as (_ & bs & _ & Hrep). assert (Hro := cr_ino _ _ _ _ _ Hrep).
    destruct (role_u32 _ _ _ _ Hv Hro) as [Hj _]. rewrite B3 by lia. rewrite decide_True.
    + unfold target. by rewrite Hro, Hcis, Ha.
    + destruct (iv_ihash _ _ Hv) as (_ & _ & Hh). destruct (Hh a c Ha) as (l & Hl & Hal). apply Hin. eexists _, l. split; [|right; rewrite Hino, Hcis; eauto 10]. lia.
  - intros p b Hp. destruct (iv_cb _ _ Hv p b Hp) as (_ & (a & Hro) & _).
    destruct (role_u32 _ _ _ _ Hv Hro) as [Hj _]. rewrite B3 by lia. rewrite decide_True.
    + unfold target. by rewrite Hro, Hcbs, Hp.
    + destruct (iv_bhash _ _ Hv) as (_ & _ & Hh). destruct (Hh p b Hp) as (l & [h Hl]%list_elem_of_lookup & Hal). apply Hin.
      exists h, l. split; [lia|]. left. rewrite Hblk, Hcbs. eauto 10.
  - intros a k j Hro. destruct (role_u32 _ _ _ _ Hv Hro) as [Hj _]. assert (Hnm : ~ is_meta g j) by (unfold is_meta; rewrite Hro; by intros []).
    rewrite Hout, B2, decide_False, B1 by (done || lia). rewrite decide_False; [done|]. apply (iv_role _ _ Hv) in Hro. lia.
  - rewrite (proj2 I3). apply I2.
Qed.

End MksfsClose.
