(* ===== verification/MksfsMount.v ===== *)
(** The image builder and the kernel: an image that was built can be mounted, and
    what the kernel finds on it is the directory of the host. *)

From S2P Require Import Prelude Bytes Mem Heap Bitmap Iobuf Vfs Sfs SfsSpec SfsMap SfsOps SfsFile SfsMount SfsSync.
From S2P Require Import Mksfs MksfsSpec MksfsTree MksfsBuild MksfsClose.

Module MksfsMount.
Import Bitmap Sfs SfsSpec SfsMap SfsOps SfsMount.

Abbreviation inv := MksfsSpec.inv. Abbreviation B := MksfsSpec.B. Abbreviation fm_end := MksfsSpec.fm_end.
Abbreviation ninos := Mksfs.ninos. Abbreviation next_ino := Mksfs.next_ino. Abbreviation bit := MksfsClose.bit.

(** ** The free map *)

Lemma length_mark n : forall j ws, length (Mksfs.mark n j ws) = length ws.
Proof. induction n as [|n IH]; intros j ws; cbn; [done|]. by rewrite IH, arr_set_length. Qed.
Lemma length_map_words n next i : length (Mksfs.map_words n next i) = 1024%nat.
Proof. unfold Mksfs.map_words. destruct MksfsSpec.zero_words_ok as [L _]. case_match; [by rewrite length_mark|done]. Qed.

Definition map_part (n next : Z) (k : nat) : list Z := Mksfs.map_words n next (32768 * Z.of_nat k).
Definition fm_words (n next : Z) : list Z := flat_map (map_part n next) (seq 0 (Z.to_nat (fm_end n - 2))).

Lemma fm_words_bit n next i : 0 < n -> 0 <= next <= n -> 0 <= i -> bit (fm_words n next) i = (next <=? i) && (i <? n).
Proof.
  intros Hn Hx Hi. unfold fm_words. set (m := Z.to_nat (fm_end n - 2)).
  assert (Hm : 32768 * Z.of_nat m >= n /\ 32768 * (Z.of_nat m - 1) < n) by (unfold m, fm_end; width).
  destruct (Z.lt_ge_cases i (32768 * Z.of_nat m)) as [Hlt|Hge].
  - set (q := Z.to_nat (i `div` 32768)). set (r := Z.to_nat (i `mod` 32768 `div` 32)).
    assert (Hq : (q < m)%nat /\ (r < 1024)%nat /\ Z.to_nat (i `div` 32) = (1024 * q + r)%nat) by (unfold q, r; width). destruct Hq as (Hq & Hr & He).
    destruct (MksfsClose.map_words_ok n next (Z.of_nat q)) as (L & U & Bt); [lia|lia|lia|].
    assert (Hz : 0 <= i `mod` 32768 < 32768 /\ 32768 * Z.of_nat q + i `mod` 32768 = i) by (unfold q; width).
    specialize (Bt (i `mod` 32768) (proj1 Hz)). rewrite (proj2 Hz) in Bt. rewrite <- Bt. unfold bit, arr_get. rewrite He.
    rewrite (MksfsClose.lookup_parts _ 1024) by (done || (intros; apply length_map_words)). fold r. rewrite Nat.add_0_l. unfold map_part. f_equal. width.
  - replace ((next <=? i) && (i <? n)) with false by (symmetry; apply andb_false_iff; rewrite Z.ltb_ge; lia).
    unfold bit, arr_get. rewrite lookup_ge_None_2; [apply Z.testbit_0_l|].
    rewrite (MksfsClose.length_parts _ 1024) by (intros; apply length_map_words). width.
Qed.

Lemma le_val_word ws : forall i, Forall is_u32 ws -> (i < length ws)%nat -> le_val (slice (4 * i) 4 (words_bytes ws)) = default 0 (ws !! i).
Proof.
  induction ws as [|w ws IH]; intros i Hu Hi; [cbn in Hi; lia|]. apply Forall_cons in Hu as [Hw Hu].
  change (words_bytes (w :: ws)) with (le_bytes 4 w ++ words_bytes ws). destruct i as [|i].
  - unfold slice. rewrite Nat.mul_0_r, drop_0, SfsSync.take_le. by apply le_val_u32.
  - unfold slice. replace (4 * S i)%nat with (4 + 4 * i)%nat by lia. rewrite SfsSync.drop_le. apply IH; [done|]. cbn in Hi. lia.
Qed.

Section Mount.
  Context {D H : Type} `{DiskLaws D} `{Heap H}.

Let st := t D H.

(** The inodes of a mounted file system. *)
Definition on_disk (s : st) (i ty sz : Z) (bs : list Z) : Prop := exists d,
  in_use s i /\ din_of (slice 0 64 (blk s i)) = d /\ file_ok s d /\ type d = ty /\ size d = sz /\ file_blocks s d = bs.

Section Image.
  Context (s : Mksfs.sfs_fs) (g : MksfsSpec.ghost) (s' : Mksfs.sfs_fs) (s0 : st).
  Hypothesis Hv : inv s g.
  Hypothesis Hcl : MksfsClose.closed s g s'.
  Hypothesis Hdisk : disk (dev s0) = Mksfs.img s'.

#[local] Abbreviation n := (Mksfs.ninos s).
#[local] Abbreviation next := (Mksfs.next_ino s).

(** The state whose super block and free map are on the image. *)
Definition image_super : sfs_super := mk_super SFS_MAGIC n (n - next) (arr_set (info (Mksfs.super s)) SFS_MAX_INFO_LEN 0).
Definition image_map : bitmap := Bitmap.mk 1 (32768 * (fm_end n - 2)) (1024 * (fm_end n - 2)) 1 (fm_words n next).
Definition image_state : st := Sfs.mk 0 image_super image_map false zero_block 0 [] [] 0 ∅ (dev s0) (heap s0).

Lemma sizes : 0 < n <= 0x80000 /\ 3 <= fm_end n <= next /\ next <= n /\ 32768 * (fm_end n - 3) < n <= 32768 * (fm_end n - 2).
Proof using Hv.
  destruct (MksfsSpec.iv_next _ _ Hv) as [? ?]. pose proof (MksfsSpec.next_ino_pos _ _ Hv).
  split_and!; try lia; unfold fm_end; width.
Qed.

Lemma image_free i : 0 <= i -> free image_map i = (next <=? i) && (i <? n).
Proof using Hv. intros Hi. destruct sizes as (? & ? & ? & ?). by apply fm_words_bit; [lia|lia|]. Qed.

Lemma image_free_set : free_set image_map = list_to_set (seqZ next (n - next)).
Proof using Hv.
  destruct sizes as (? & ? & ? & ?). apply set_eq. intros i. rewrite elem_free_set, elem_of_list_to_set, elem_of_seqZ. cbn [nbits image_map].
  split; [intros [Hi Hf]; rewrite image_free in Hf by lia; lia|]. intros Hi. split; [lia|]. rewrite image_free by lia. lia.
Qed.

Lemma image_disk_ok : n <= d_blocks (dev s0) -> disk_ok image_state.
Proof using Hv.
  intros Hd. destruct sizes as (Hn & Hf & Hx & Hm). split; cbn.
  - apply zero_is_block.
  - lia.
  - split; cbn; [lia|lia| |].
    + unfold fm_words. rewrite (MksfsClose.length_parts _ 1024) by (intros; apply length_map_words). split; [lia|].
      apply Forall_flat_map, List.Forall_forall. intros k Hk%in_seq. apply MksfsClose.map_words_ok; lia.
    + intros i Hi. change (free image_map i = false). rewrite image_free by lia. lia.
  - lia.
  - intros i Hi Hfr. rewrite image_free in Hfr by done. unfold in_range. cbn. lia.
  - rewrite image_free_set, size_list_to_set by apply NoDup_seqZ. rewrite length_seqZ. lia.
Qed.

Lemma image_layout : sfs_freemap_blocks image_super = fm_end n - 2 /\ layout_ok image_state.
Proof using Hv.
  destruct sizes as (Hn & Hf & Hx & Hm). destruct (MksfsSpec.iv_super _ _ Hv) as (_ & _ & _ & Hil & Hiu).
  assert (Hb : sfs_freemap_blocks image_super = fm_end n - 2).
  { unfold sfs_freemap_blocks, SFS_BLKBITS, SFS_BLKSIZE. cbn [sblocks image_super]. rewrite u32_id by width. unfold fm_end. width. }
  split; [done|]. split; cbn [super image_state].
  - split; cbn; [done|unfold is_u32; lia|]. rewrite arr_set_length. split_and!; [done|by apply arr_set_Forall; [|width]|]. apply (arr_get_set_eq _ 31). rewrite Hil. lia.
  - rewrite freemap_blocks_bits, Hb. cbn. lia.
  - rewrite Hb. cbn. lia.
Qed.

Lemma image_blk j : blk s0 j = B s' j /\ blk image_state j = B s' j.
Proof using Hdisk. unfold blk, B, MksfsSpec.B. cbn. by rewrite Hdisk. Qed.

Lemma image_lookup j : 0 <= j < n -> disk (dev s0) !! Z.to_nat j = Some (B s' j).
Proof using Hdisk Hcl.
  intros Hj. rewrite Hdisk. destruct (MksfsClose.cl_img _ _ _ Hcl) as [Hl _]. unfold B, MksfsSpec.B.
  destruct (lookup_lt_is_Some_2 (Mksfs.img s') (Z.to_nat j)) as [b Hb]; [lia|]. by rewrite Hb.
Qed.

Lemma image_synced : synced image_state (disk (dev s0)).
Proof using Hv Hcl Hdisk.
  destruct sizes as (Hn & Hf & Hx & Hm). destruct image_layout as [Hb _]. destruct (MksfsSpec.iv_super _ _ Hv) as (S1 & S2 & S3 & S4 & S5). split.
  - exists (Mksfs.super s), (replicate (4096 - length (super_bytes (Mksfs.super s))) 0). split; [by split|].
    assert (H00 := image_lookup 0 ltac:(lia)). change (Z.to_nat 0) with 0%nat in H00. rewrite H00. by rewrite (MksfsClose.cl_super _ _ _ Hcl).
  - intros j Hj. cbn [super image_state] in Hj. rewrite Hb in Hj. replace (2 + j)%nat with (Z.to_nat (2 + Z.of_nat j)) by lia.
    rewrite image_lookup, (MksfsClose.cl_map _ _ _ Hcl) by lia. f_equal. cbn [freemap image_state map image_map]. unfold fm_words.
    rewrite MksfsClose.words_bytes_parts, (MksfsClose.slice_parts _ 4096); [|intros k; by rewrite length_words_bytes; unfold map_part; rewrite length_map_words|lia].
    unfold map_part. do 2 f_equal. lia.
Qed.

(** ** Files *)

Lemma image_in_use j r : MksfsSpec.roles g !! j = Some r -> in_use image_state j.
Proof using Hv.
  intros Hr. destruct (MksfsClose.role_u32 _ _ _ _ Hv Hr) as [Hj _]. apply (MksfsSpec.iv_role _ _ Hv) in Hr. destruct sizes as (Hn & Hf & Hx & Hm).
  split; [exact Hj|]. cbn [freemap image_state]. rewrite image_free by lia. lia.
Qed.

Section File.
  Context (a : Z) (c : Mksfs.cache_inode) (bs : list Z).
  Hypothesis Ha : Mksfs.cis s !! a = Some c.
  Hypothesis Hrep : MksfsSpec.ci_rep (Mksfs.cbs s) (MksfsSpec.roles g) a c bs.
  #[local] Abbreviation d := (Mksfs.inode c).

Lemma image_table : (12 < length bs)%nat -> exists b, indirect d <> 0 /\ blk image_state (indirect d) = words_bytes (Mksfs.cache b) /\
  Forall is_u32 (Mksfs.cache b) /\ length (Mksfs.cache b) = 1024%nat /\ Mksfs.cache b = drop 12 bs ++ replicate (1036 - length bs) 0.
Proof using Hv Hcl Hdisk Ha Hrep.
  intros Hl. destruct (MksfsSpec.cr_table _ _ _ _ _ Hrep Hl) as (b & Hb & Hi & Hr & Hc). exists b.
  destruct (MksfsClose.role_u32 _ _ _ _ Hv Hr) as [Hj _]. destruct (MksfsSpec.iv_cb _ _ Hv _ _ Hb) as (_ & _ & Hcl' & Hcu).
  split_and!; try done; [lia|]. rewrite (proj2 (image_blk _)), <- Hi. by apply (MksfsClose.cl_table _ _ _ Hcl (Mksfs.l1 c)).
Qed.

Lemma image_entry k : 0 <= k < 1036 -> entry image_state d k = default 0 (bs !! Z.to_nat k).
Proof using Hv Hcl Hdisk Ha Hrep.
  intros Hk. destruct Hrep as [R1 R2 R3 R4 R5 R6 R7 R8 R9 R10]. unfold entry. destruct (Z.ltb_spec k 12) as [Hlt|Hge].
  - unfold arr_get. rewrite R5. destruct (Nat.lt_ge_cases (Z.to_nat k) (length bs)) as [Hb|Hb].
    + rewrite lookup_app_l by (rewrite length_take; lia). by rewrite lookup_take_lt by lia.
    + rewrite lookup_app_r by (rewrite length_take; lia). rewrite lookup_replicate_2 by (rewrite length_take; lia). by rewrite (lookup_ge_None_2 bs) by done.
  - destruct (Nat.le_gt_cases (length bs) 12) as [Hb|Hb].
    + rewrite (R8 Hb). cbn. by rewrite (lookup_ge_None_2 bs) by lia.
    + destruct (image_table Hb) as (b & Hi & Hblk & Hu & Hl & Hc). rewrite (proj2 (Z.eqb_neq _ _) Hi), Hblk.
      replace (Z.to_nat (4 * (k - 12))) with (4 * Z.to_nat (k - 12))%nat by lia. rewrite le_val_word by (done || (rewrite Hl; lia)). rewrite Hc.
      destruct (Nat.lt_ge_cases (Z.to_nat k) (length bs)) as [Hx|Hx].
      * rewrite lookup_app_l by (rewrite length_drop; lia). rewrite lookup_drop. do 2 f_equal. lia.
      * rewrite lookup_app_r by (rewrite length_drop; lia). rewrite lookup_replicate_2 by (rewrite length_drop; lia). by rewrite (lookup_ge_None_2 bs) by done.
Qed.

Lemma image_blocks : file_blocks image_state d = bs.
Proof using Hv Hcl Hdisk Ha Hrep.
  destruct Hrep as [R1 R2 R3 R4 R5 R6 R7 R8 R9 R10]. unfold file_blocks. rewrite R4. apply list_eq. intros k. rewrite list_lookup_fmap.
  destruct (Nat.lt_ge_cases k (length bs)) as [Hk|Hk].
  - rewrite lookup_seqZ_lt by lia. cbn. rewrite image_entry by lia. replace (Z.to_nat (0 + Z.of_nat k)) with k by lia.
    by destruct (lookup_lt_is_Some_2 bs k Hk) as [x ->].
  - rewrite lookup_seqZ_ge by lia. by rewrite (lookup_ge_None_2 bs) by done.
Qed.

Lemma image_file_ok : file_ok image_state d.
Proof using Hv Hcl Hdisk Ha Hrep.
  destruct (Hrep) as [R1 R2 R3 R4 R5 R6 R7 R8 R9 R10]. destruct (MksfsClose.inode_ok s g a c Hv Ha) as [_ _ [Hdl _]].
  assert (Hro : forall j, j ∈ bs -> exists k, MksfsSpec.roles g !! j = Some (MksfsSpec.RData a k)).
  { intros j [k Hk]%list_elem_of_lookup. exists k. by apply R7. }
  split.
  - done.
  - lia.
  - intros k Hk. rewrite image_entry by lia. by rewrite (lookup_ge_None_2 bs) by lia.
  - unfold own. rewrite image_blocks. apply NoDup_app. split_and!.
    + unfold table. case_match; constructor; [apply not_elem_of_nil|constructor].
    + intros j [-> Hnz]%elem_table Hj. destruct (Hro _ Hj) as [k Hk]. destruct (Nat.le_gt_cases (length bs) 12) as [Hb|Hb]; [by apply Hnz, R8|].
      destruct (R9 Hb) as (b & _ & _ & Hr & _). congruence.
    + apply NoDup_alt. intros x y j Hx Hy. apply R7 in Hx, Hy. congruence.
  - unfold own. rewrite image_blocks. apply Forall_app. split; apply Forall_forall; intros j Hj.
    + apply elem_table in Hj as [-> Hnz]. destruct (Nat.le_gt_cases (length bs) 12) as [Hb|Hb]; [by destruct Hnz; apply R8|].
      destruct (R9 Hb) as (b & _ & _ & Hr & _). by eapply image_in_use.
    + destruct (Hro _ Hj) as [k Hk]. by eapply image_in_use.
Qed.

Lemma image_on_disk : on_disk image_state (Mksfs.ci_ino c) (type d) (size d) bs.
Proof using Hv Hcl Hdisk Ha Hrep.
  assert (Hok := MksfsClose.inode_ok s g a c Hv Ha). destruct (SfsSync.din_bytes_ok _ Hok) as [Hl _].
  exists d. split; [eapply image_in_use, Hrep|]. split; [|split; [apply image_file_ok|split; [done|split; [done|apply image_blocks]]]].
  rewrite (proj2 (image_blk _)), (MksfsClose.cl_inode _ _ _ Hcl a c Ha). unfold MksfsSpec.padded, MksfsClose.inode_bytes, slice.
  rewrite drop_0, <- !app_assoc, take_app_length' by done. rewrite <- (app_nil_r (din_bytes d)). by apply SfsSync.din_of_bytes.
Qed.

End File.

End Image.
(** The same in the state after mounting. *)
Lemma on_disk_same (s s1 : st) i ty sz bs : super s1 = super s -> (forall j, free (freemap s1) j = free (freemap s) j) -> (forall j, blk s1 j = blk s j) ->
  on_disk s i ty sz bs -> on_disk s1 i ty sz bs.
Proof.
  intros Hsup Hfree Hblk (d & Hu & Hd & Hf & Ht & Hs & Hbs). exists d.
  destruct (SfsSync.same_file s s1 Hsup (or_intror Hfree) d Hf) as (_ & Hf1 & _); [by intros|].
  split; [by apply (SfsSync.in_use_same s); [|right|]|]. rewrite Hblk. split_and!; try done. rewrite <- Hbs. by apply file_blocks_blk.
Qed.

Section Whole.
  Context (content : Z -> list Z) (kind : Z -> Z) (image : list (list Z)) (junk : list Z) (home : list (list Z * Mksfs.node)).
  #[local] Abbreviation n := (Z.of_nat (length image)).
  #[local] Abbreviation need := (MksfsBuild.costs (MksfsBuild.cost content) home + MksfsSpec.acosts 0 (2 + MksfsBuild.nshown home)).

(** A host directory that fits the image. *)
Record host_ok : Prop := {
  ho_image : Forall is_block image /\ n <= 0x80000;
  ho_junk : length junk = 32%nat /\ Forall is_u8 junk;
  ho_kind : kind 0 = SFS_TYPE_DIR;
  ho_home : MksfsBuild.entries_ok (MksfsBuild.node_ok content kind) home /\ (MksfsBuild.nshown home <= 1034)%nat;
  ho_dirs : NoDup (0 :: MksfsBuild.dirs MksfsBuild.dir_reals home);
  ho_room : fm_end n + need <= n
}.

Definition first_state : Mksfs.sfs_fs :=
  Mksfs.mk (mk_super SFS_MAGIC n (n - fm_end n) (splice 0 Mksfs.info_text junk)) [] image n (fm_end n) 1
    (Mksfs.chain (Mksfs.hash64 0) 1 (replicate (Z.to_nat Mksfs.HASH_LIST_SIZE) [])) (replicate (Z.to_nat Mksfs.HASH_LIST_SIZE) [])
    {[1 := MksfsSpec.fresh_inode 0 1 SFS_TYPE_DIR]} ∅ 2 (replicate 260 0).
Definition first_ghost : MksfsSpec.ghost := MksfsSpec.mk_ghost {[1 := []]} {[1 := MksfsSpec.RInode 1]} ∅.

Lemma create_sfs_eq : 2 < n <= 0x80000 -> fm_end n < n -> Mksfs.create_sfs image junk = Ret (1, first_state).
Proof.
  intros Hn Hf. unfold Mksfs.create_sfs. rewrite u32_id by width. change Mksfs.SFS_MAX_NBLKS with 524288.
  replace (524288 <? n) with false by lia. change SFS_BLKN_FREEMAP with 2. change SFS_BLKBITS with 32768.
  replace (2 + (n + 32768 - 1) `div` 32768) with (fm_end n) by (unfold fm_end; do 2 f_equal; lia).
  replace (n <=? fm_end n) with false by lia. done.
Qed.

Lemma first_ready : host_ok -> 0 < n -> MksfsBuild.ready content kind first_state first_ghost 1 (MksfsSpec.fresh_inode 0 1 SFS_TYPE_DIR) [].
Proof.
  intros [[Hi Hn] [Hjl Hju] Hk _ _ Hroom] Hpos. pose proof (MksfsSpec.fm_end_pos n Hpos).
  assert (Hcost : 0 <= need).
  { assert (0 <= MksfsBuild.costs (MksfsBuild.cost content) home) by (apply MksfsBuild.costs_pos, Forall_forall; intros; apply MksfsBuild.cost_pos).
    pose proof (MksfsSpec.acosts_pos (2 + MksfsBuild.nshown home) 0). lia. }
  assert (Hone : forall a c, ({[1 := MksfsSpec.fresh_inode 0 1 SFS_TYPE_DIR]} : gmap Z Mksfs.cache_inode) !! a = Some c -> a = 1 /\ c = MksfsSpec.fresh_inode 0 1 SFS_TYPE_DIR).
  { intros a c [<- <-]%lookup_singleton_Some. done. }
  split.
  - split; cbn [first_state Mksfs.img Mksfs.ninos Mksfs.next_ino Mksfs.super Mksfs.cis Mksfs.cbs Mksfs.brk Mksfs.inodes Mksfs.cblocks Mksfs.entry first_ghost
      MksfsSpec.roles MksfsSpec.blks MksfsSpec.fin magic sblocks unused_blocks info].
    + done.
    + lia.
    + split_and!; try done; [rewrite length_splice; [done|rewrite Hjl; cbn; lia]|]. apply splice_Forall; [done|]. repeat constructor; lia.
    + intros j r [<- _]%lookup_singleton_Some. by left.
    + intros a c [-> ->]%Hone. split; [lia|]. exists []. rewrite lookup_singleton_eq. split; [done|].
      apply MksfsSpec.fresh_rep; [by vm_compute|apply lookup_singleton_eq].
    + intros p b Hp. by rewrite lookup_empty in Hp.
    + split_and!; [unfold Mksfs.chain; by rewrite length_alter, length_replicate| |].
      * intros l a Hl Ha. destruct (MksfsSpec.chain_elem _ _ _ _ _ Hl Ha) as [->|(l' & Hl' & Ha')]; [by rewrite lookup_singleton_eq|].
        apply elem_of_replicate_inv in Hl' as ->. by apply elem_of_nil in Ha'.
      * intros a c [-> ->]%Hone. apply MksfsSpec.chain_head. rewrite length_replicate. pose proof (MksfsSpec.hash64_range 0). unfold Mksfs.HASH_LIST_SIZE, Mksfs.HASH_SHIFT. change (Z.shiftl 1 10) with 1024. lia.
    + split_and!; [by rewrite length_replicate| |intros p b Hp; by rewrite lookup_empty in Hp].
      intros l a Hl Ha. apply elem_of_replicate_inv in Hl as ->. by apply elem_of_nil in Ha.
    + split; [apply length_replicate|]. apply Forall_replicate. width.
    + intros a Ha. set_solver.
    + lia.
  - intros a c [-> ->]%Hone. cbn. split; [done|]. by rewrite Hk.
  - by split.
Qed.

(** What is built, and what is on the image at the end. *)
Lemma mksfs_built : host_ok -> exists s g s', Mksfs.mksfs content image junk home = Ret (Mksfs.img s') /\ inv s g /\ MksfsClose.closed s g s' /\
  length (Mksfs.img s') = length image /\ ninos s = n /\ MksfsTree.represents content (MksfsTree.cached s g) (B s) (Mksfs.Dir 0 home) 1 1.
Proof.
  intros Hho. destruct (Hho) as [[Hi Hn] [Hjl Hju] Hk [Hok Hns] Hnd Hroom]. apply NoDup_cons in Hnd as [H0d Hnd].
  assert (Hcost : 2 <= need).
  { assert (0 <= MksfsBuild.costs (MksfsBuild.cost content) home) by (apply MksfsBuild.costs_pos, Forall_forall; intros; apply MksfsBuild.cost_pos).
    cbn [MksfsSpec.acosts Nat.add]. pose proof (MksfsSpec.acosts_pos (MksfsBuild.nshown home) 2). pose proof (MksfsSpec.acost_pos 0). pose proof (MksfsSpec.acost_pos 1). lia. }
  assert (Hpos : 2 < n) by (unfold fm_end in Hroom; width). assert (Hre := first_ready Hho ltac:(lia)).
  destruct (MksfsBuild.open_dir_eq content kind home) with (s := first_state) (g := first_ghost) (a := 1) (c := MksfsSpec.fresh_inode 0 1 SFS_TYPE_DIR) (p := 1)
    (cp := MksfsSpec.fresh_inode 0 1 SFS_TYPE_DIR) as (s & g & c & e1 & e2 & es & Hrun & Hre1 & He & Hci & _ & _ & Hnm1 & Hnm2 & Hkids); try done.
  { apply Forall_forall. intros e _. apply MksfsBuild.add_node_eq. }
  { intros y c Hy. cbn in Hy. apply lookup_singleton_Some in Hy as [_ <-]. done. }
  set (g' := MksfsSpec.finished 1 g). cbn [Mksfs.ci_ino MksfsSpec.fresh_inode] in Hci, Hnm1, Hnm2, Hkids.
  assert (Hv : inv s g') by (apply MksfsSpec.finished_inv; [apply Hre1|exists c; apply Hre1]).
  assert (Hrep : MksfsTree.represents content (MksfsTree.cached s g') (B s) (Mksfs.Dir 0 home) 1 1).
  { rewrite <- Hci in Hnm1, Hkids. rewrite <- Hci at 2. by apply (MksfsBuild.dir_complete content kind s g 1 c 0 home 1 e1 e2 es). }
  destruct (MksfsClose.close_sfs_eq s g' Hv) as (s' & Hclose & Hcl & Hlen). destruct (MksfsSpec.ex_const _ _ _ _ _ He) as (Hni & _ & _ & Hlen0). cbn in Hni, Hlen0.
  exists s, g', s'. split; [|split; [done|split; [done|split; [by rewrite Hlen|done]]]].
  unfold Mksfs.mksfs. rewrite create_sfs_eq by lia. unfold Mksfs.create_img. rewrite (bind_Ret _ _ first_state first_state first_state) by done.
  change (Mksfs.root first_state) with 1. rewrite (bind_Ret _ _ _ _ _ Hrun). by rewrite Hclose.
Qed.

(** The kernel finds on an image what the builder had in its structures. *)
Lemma image_represents s g s' (s0 s1 : st) x p i : inv s g -> MksfsClose.closed s g s' -> disk (dev s0) = Mksfs.img s' -> dev s1 = dev s0 ->
  super s1 = super (image_state s s0) -> map (freemap s1) = map (freemap (image_state s s0)) ->
  MksfsTree.represents content (MksfsTree.cached s g) (B s) x p i -> MksfsTree.represents content (on_disk s1) (blk s1) x p i.
Proof.
  intros Hv Hcl Hdisk Hdev Hsup Hmap. apply MksfsTree.represents_mono. clear i.
  intros i ty sz bs (a & c0 & _ & Ha & <- & <- & <- & Hbs). destruct (MksfsSpec.iv_ci _ _ Hv a c0 Ha) as (_ & bs' & Hbs' & Hci0).
  replace bs' with bs in Hci0 by congruence. assert (Hblk : forall j, blk s1 j = blk (image_state s s0) j) by (intros j; unfold blk; by rewrite Hdev).
  split.
  - apply (on_disk_same (image_state s s0)); [done|intros j; unfold free; by rewrite Hmap|done|]. exact (image_on_disk s g s' s0 Hv Hcl Hdisk a c0 bs Ha Hci0).
  - intros j [k Hj]%list_elem_of_lookup. rewrite Hblk, (proj2 (image_blk s s' s0 Hdisk j)).
    apply (MksfsClose.cl_data _ _ _ Hcl a k). by apply (MksfsSpec.cr_data _ _ _ _ _ Hci0).
Qed.

(** C40: the image builder and the kernel agree.  Of a host directory whose
    names, files and directories fit the format and an image with room for it,
    [mksfs] makes an image that the kernel can mount: with enough memory
    [sfs_do_mount] accepts the super block and the free map, the invariant of the
    free blocks holds, and from the root on the inodes and blocks the kernel reads
    represent the directory: every file and link that is not hidden with its
    bytes, every directory with its entries in order.  The counts of links in the
    inodes are not part of the statement. *)
Theorem mksfs_correct : host_ok -> exists img', Mksfs.mksfs content image junk home = Ret img' /\ length img' = length image /\ Forall is_block img' /\
  forall s0 : st, disk (dev s0) = img' ->
    heap_gives [sizeof_fs; SFS_BLKSIZE; 8 * SFS_HLIST_SIZE; sizeof_bitmap; 4 * (1024 * (fm_end n - 2))] (heap s0) ->
    exists p s1, do_mount s0 = Ret ((0, p), s1) /\ p <> 0 /\ disk_ok s1 /\ dev s1 = dev s0 /\
      MksfsTree.represents content (on_disk s1) (blk s1) (Mksfs.Dir 0 home) SFS_BLKN_ROOT SFS_BLKN_ROOT.
Proof.
  intros Hho. destruct (mksfs_built Hho) as (s & g & s' & Hrun & Hv & Hcl & Hlen & Hni & Hrep).
  exists (Mksfs.img s'). split; [done|]. split; [done|]. split; [apply Hcl|].
  intros s0 Hdisk Hheap. assert (Hd : ninos s <= d_blocks (dev s0)) by (rewrite disk_blocks, Hdisk, Hlen, Hni; lia).
  destruct (image_layout s g s0 Hv) as [Hbl Hla]. rewrite Hni in Hbl.
  destruct (do_mount_eq (image_state s s0) s0 (image_disk_ok s g s0 Hv Hd) Hla Hd (image_synced s g s' s0 Hv Hcl Hdisk))
    as (p & s1 & Hm & Hp & _ & Hok1 & Hdev & Hsup & Hmap & _); [cbn [super image_state]; by rewrite Hbl|].
  exists p, s1. split; [done|]. split; [done|]. split; [done|]. split; [done|]. by apply (image_represents s g s' s0).
Qed.

End Whole.
End Mount.

(** ** An example

    Two names of one file of 5000 bytes, a directory, a link, a hidden file and a
    device, on an image of 20 blocks. *)

Definition ram_of (l : list (list Z)) : RamDisk.t := RamDisk.mk (length l) (map_seq 0 l).

Lemma ram_disk l : Forall is_block l -> Z.of_nat (length l) <= 0x80000 -> disk (ram_of l) = l.
Proof.
  intros Hb Hl. assert (Hs : RamDisk.size (ram_of l) = length l) by (unfold RamDisk.size; cbn [RamDisk.nblocks ram_of]; lia).
  apply list_eq. intros i. cbn [disk RamDisk.ram_laws]. rewrite list_lookup_fmap, Hs. destruct (Nat.lt_ge_cases i (length l)) as [Hi|Hi].
  - rewrite lookup_seq_lt by done. cbn. unfold RamDisk.block. cbn [RamDisk.content ram_of]. rewrite lookup_map_seq_0.
    destruct (lookup_lt_is_Some_2 l i Hi) as [b Hlb]. rewrite Hlb. rewrite Forall_forall in Hb.
    by rewrite (proj2 (RamDisk.is_blockb_spec b) (Hb b (list_elem_of_lookup_2 _ _ _ Hlb))).
  - rewrite lookup_seq_ge by done. by rewrite lookup_ge_None_2.
Qed.

Definition demo_content (r : Z) : list Z := if r =? 5 then replicate 5000 7 else [].
Definition demo_kind (r : Z) : Z := if r =? 5 then SFS_TYPE_FILE else if r =? 8 then SFS_TYPE_LINK else SFS_TYPE_DIR.
Definition demo_home : list (list Z * Mksfs.node) :=
  [([97], Mksfs.File 5); ([98; 99], Mksfs.Dir 6 [([97], Mksfs.File 5); ([46; 97], Mksfs.File 77); ([100], Mksfs.Link 8 [1; 2])]); ([101], Mksfs.Other)].
Definition demo_image : list (list Z) := replicate 20 zero_block.

Lemma demo_host : host_ok demo_content demo_kind demo_image (replicate 32 1) demo_home.
Proof.
  assert (Hname : forall name, forallb (fun b => (0 <? b) && (b <? 256)) name = true -> (length name <=? 251)%nat = true -> MksfsBuild.name_ok name).
  { intros name Hf Hl. split; [by apply Nat.leb_le|]. apply List.Forall_forall. intros b Hb. rewrite forallb_forall in Hf. specialize (Hf b Hb). lia. }
  assert (Hfile : MksfsBuild.node_ok demo_content demo_kind (Mksfs.File 5)).
  { split; [done|]. split; [apply Forall_replicate; width|]. unfold demo_content. cbn [Z.eqb Pos.eqb]. rewrite length_replicate.
    apply Nat.leb_le. vm_compute. reflexivity. }
  split.
  - split; [apply Forall_replicate, zero_is_block|by vm_compute].
  - split; [done|]. apply Forall_replicate. width.
  - done.
  - repeat first [exact I|exact Hfile|apply Hname; reflexivity|reflexivity|by apply Nat.leb_le|split].
    repeat constructor; lia.
  - apply (bool_decide_unpack _). vm_compute. done.
  - vm_compute. discriminate.
Qed.

Definition create_demo : res (Z * Mksfs.sfs_fs) := Mksfs.create_sfs demo_image (replicate 32 1).

Definition unmounted (l : list (list Z)) : t RamDisk.t Bump.t :=
  Sfs.mk 0 (mk_super 0 0 0 []) (Bitmap.mk 0 0 0 0 []) false [] 0 [] [] 0 ∅ (ram_of l) (Bump.mk 5 []).

Lemma mksfs_correct_witness : exists img' p s1 e i bs,
  Mksfs.mksfs demo_content demo_image (replicate 32 1) demo_home = Ret img' /\ do_mount (unmounted img') = Ret ((0, p), s1) /\
  MksfsTree.names (blk s1 e) i [97] /\ on_disk s1 i SFS_TYPE_FILE 5000 bs /\ take (Z.to_nat 5000) (mjoin (blk s1 <$> bs)) = demo_content 5.
Proof.
  destruct (mksfs_correct (D := RamDisk.t) (H := Bump.t) demo_content demo_kind demo_image (replicate 32 1) demo_home demo_host) as (img' & Hr & Hl & Hb & Hm).
  destruct (Hm (unmounted img')) as (p & s1 & Hmount & _ & _ & _ & Hrep).
  { apply ram_disk; [done|]. by rewrite Hl. }
  { unfold heap_gives. repeat (eexists _, _; split; [reflexivity|]; split; [by vm_compute|]). done. }
  destruct Hrep as (e1 & e2 & es & _ & _ & _ & Hkids). destruct es as [|e es]; [destruct Hkids|]. destruct Hkids as [(i & Hnm & bs & Hk & Hx) _].
  assert (Hlen : length (demo_content 5) = Z.to_nat 5000) by (unfold demo_content; cbn [Z.eqb Pos.eqb]; apply length_replicate).
  rewrite Hlen in Hk, Hx. exists img', p, s1, e, i, bs. split; [exact Hr|]. split; [exact Hmount|]. split; [exact Hnm|]. split; [exact Hk|exact Hx].
Defined.

(** ** What does not fit *)

(** The 256 bytes written of an entry hold 252 bytes of the name: a longer name,
    which [add_entry] accepts, is cut. *)
Example long_name_cut : match create_demo with Ret (_, s) =>
  match Mksfs.add_entry 1 1 (replicate 255 97) s with
  | Ret (_, s) => slice 4 255 (B s 3) = replicate 252 97 ++ replicate 3 0 | _ => False end | _ => False end.
Proof. vm_compute. reflexivity. Qed.

(** A cached block is entered in the chain of the argument, 0, and not in that of
    its index: [search_cache_block] does not find it. *)
Example cached_block_not_found : match create_demo with Ret (_, s) =>
  match Mksfs.alloc_cache_block 0 s with
  | Ret (a, s) => match Mksfs.search_cache_block 3 s with Ret (b, _) => (Mksfs.cb_ino <$> Mksfs.cbs s !! a, b) = (Some 3, 0) | _ => False end
  | _ => False end | _ => False end.
Proof. vm_compute. reflexivity. Qed.

(** The builder gives a file up to 32768 blocks, the kernel reads 1036 of them. *)
Lemma big_file_panics {D H : Type} `{BlockDev D} `{Heap H} (s : t D H) node i create :
  sins s !! node = Some i -> sfs_bmap_get_nolock node Mksfs.SFS_L1_NBLKS create s = Panic /\ Mksfs.SFS_L1_NBLKS < Mksfs.SFS_LN_NBLKS.
Proof. intros Hn. split; [|done]. unfold sfs_bmap_get_nolock, load_sin, mbind, M_bind. by rewrite Hn. Qed.

End MksfsMount.
