(* ===== verification/Console.v ===== *)
(** The console: src/ucore_OS/kern/driver/console.c, kern/libs/stdio.c and the
    devices kern/fs/devs/dev_stdin.c and dev_stdout.c.  The serial port is the
    characters still to be received and those sent; its transmitter is ready
    whenever it is polled.  A read that finds no input sleeps: it is cut at its
    call of [schedule], as the functions of [Sync] are. *)

From S2P Require Import Prelude Mem Iobuf Proc Sync.

Module Console.
Import Iobuf.Iobuf Proc Sync.

Definition CONSBUFSIZE : Z := 512.
Definition STDIN_BUFSIZE : Z := 4096.
Definition E_INVAL : Z := 3.
Definition O_RDONLY : Z := 0.
Definition O_WRONLY : Z := 1.

(** [stdin_q] is the address of stdin's wait queue. *)
Record con := mk {
  kst : ks;
  rx : list Z;
  tx : list Z;
  serial_exists : bool;
  buf : list Z; rpos : Z; wpos : Z;
  stdin_buffer : list Z; p_rpos : Z; p_wpos : Z; stdin_q : Z;
  cmem : mem
}.

Definition set_kst k s := mk k (rx s) (tx s) (serial_exists s) (buf s) (rpos s) (wpos s)
  (stdin_buffer s) (p_rpos s) (p_wpos s) (stdin_q s) (cmem s).
Definition set_rx l s := mk (kst s) l (tx s) (serial_exists s) (buf s) (rpos s) (wpos s)
  (stdin_buffer s) (p_rpos s) (p_wpos s) (stdin_q s) (cmem s).
Definition set_tx l s := mk (kst s) (rx s) l (serial_exists s) (buf s) (rpos s) (wpos s)
  (stdin_buffer s) (p_rpos s) (p_wpos s) (stdin_q s) (cmem s).
Definition set_exists b s := mk (kst s) (rx s) (tx s) b (buf s) (rpos s) (wpos s)
  (stdin_buffer s) (p_rpos s) (p_wpos s) (stdin_q s) (cmem s).
Definition set_cons b r w s := mk (kst s) (rx s) (tx s) (serial_exists s) b r w
  (stdin_buffer s) (p_rpos s) (p_wpos s) (stdin_q s) (cmem s).
Definition set_stdin b r w s := mk (kst s) (rx s) (tx s) (serial_exists s) (buf s) (rpos s) (wpos s)
  b r w (stdin_q s) (cmem s).
Definition set_cmem m s := mk (kst s) (rx s) (tx s) (serial_exists s) (buf s) (rpos s) (wpos s)
  (stdin_buffer s) (p_rpos s) (p_wpos s) (stdin_q s) m.

Definition on_ks {A} (m : M ks A) : M con A := fun s =>
  match m (kst s) with
  | Ret (a, k) => Ret (a, set_kst k s) | Panic => Panic | Fault => Fault | Diverge => Diverge
  end.
Definition on_cmem {A} (m : M mem A) : M con A := fun s =>
  match m (cmem s) with
  | Ret (a, k) => Ret (a, set_cmem k s) | Panic => Panic | Fault => Fault | Diverge => Diverge
  end.

(** ** The serial port (console.c) *)

(** [pic_enable] writes the interrupt mask of the processor. *)
Definition serial_init : M con unit := modify (set_exists true).
Definition cons_init : M con unit := serial_init.

(** The register is 32 bits wide. *)
Definition serial_putc_sub (c : Z) : M con unit := modify (fun s => set_tx (tx s ++ [u32 c]) s).
Definition serial_putc (c : Z) : M con unit :=
  if negb (c =? 8) then serial_putc_sub c
  else serial_putc_sub 8;; serial_putc_sub 32;; serial_putc_sub 8.
Definition cons_putc (c : Z) : M con unit := serial_putc c.

(** Bit 1 of the status register says that a character has been received. *)
Definition serial_proc_data : M con Z :=
  s ← get;
  match rx s with
  | [] => mret (-1)
  | c :: l => modify (set_rx l);; mret (if s32 c =? 127 then 8 else s32 c)
  end.

(** The loop of [cons_intr]; every round takes a character. *)
Fixpoint cons_intr (fuel : nat) (proc : M con Z) : M con unit :=
  match fuel with
  | O => diverge
  | S fuel =>
      c ← proc;
      if c =? -1 then mret tt else
      when (negb (c =? 0))
        (modify (fun s => set_cons (arr_set (buf s) (wpos s) (u8 c)) (rpos s)
           (if wpos s + 1 =? CONSBUFSIZE then 0 else wpos s + 1) s));;
      cons_intr fuel proc
  end.
Definition serial_intr : M con unit :=
  s ← get; when (serial_exists s) (cons_intr (S (length (rx s))) serial_proc_data).

Definition cons_getc : M con Z :=
  serial_intr;;
  s ← get;
  if negb (rpos s =? wpos s) then
    modify (fun s => set_cons (buf s) (if rpos s + 1 =? CONSBUFSIZE then 0 else rpos s + 1) (wpos s) s);;
    mret (arr_get (buf s) (rpos s))
  else mret 0.

(** ** Writing (stdio.c, dev_stdout.c) *)

Definition cputchar (c : Z) : M con unit := cons_putc c.
(** The counter is returned. *)
Definition cputch (c cnt : Z) : M con Z := cons_putc c;; mret (cnt + 1).

Fixpoint cputs_loop (fuel : nat) (str cnt : Z) : M con Z :=
  match fuel with
  | O => diverge
  | S fuel =>
      c ← on_cmem (load_char str);
      if c =? 0 then mret cnt else
      cnt ← cputch c cnt;
      cputs_loop fuel (str + 1) cnt
  end.
Definition cputs (str : Z) : M con Z :=
  s ← get;
  cnt ← cputs_loop (S (size (cmem s))) str 0;
  cputch 10 cnt.

Definition stdout_open (open_flags : Z) : M con Z :=
  mret (if negb (open_flags =? O_WRONLY) then - E_INVAL else 0).
Definition stdout_close : M con Z := mret 0.
Definition stdout_ioctl (op data : Z) : M con Z := mret (- E_INVAL).

(** [n] characters are left. *)
Fixpoint stdout_loop (n : nat) (data : Z) : M con unit :=
  match n with
  | O => mret tt
  | S n => c ← on_cmem (load_char data); cputchar c;; stdout_loop n (data + 1)
  end.
Definition stdout_io (iob : iobuf) (write : bool) : M con (Z * iobuf) :=
  if write then
    stdout_loop (Z.to_nat (io_resid iob)) (io_base iob);;
    mret (0, Iobuf.mk (io_base iob) (io_offset iob) (io_len iob) 0)
  else mret (- E_INVAL, iob).

(** ** Reading (dev_stdin.c) *)

(** [p_wpos] is signed: counting past the largest is undefined. *)
Definition dev_stdin_write (c : Z) : M con unit :=
  when (negb (c =? 0))
    (s ← get;
     let b := arr_set (stdin_buffer s) (Z.rem (p_wpos s) STDIN_BUFSIZE) c in
     (if p_wpos s - p_rpos s <? STDIN_BUFSIZE
      then defined (p_wpos s + 1 <? 0x80000000);; modify (set_stdin b (p_rpos s) (p_wpos s + 1))
      else modify (set_stdin b (p_rpos s) (p_wpos s)));;
     e ← on_ks (wait_queue_empty (stdin_q s));
     when (negb e) (on_ks (wakeup_queue (stdin_q s) WT_KBD true))).

(** A read is over, or asleep with the pointer and the count it has reached. *)
Inductive progress := Done (ret : Z) | Asleep (buf ret : Z).

(** The loop of [dev_stdin_read] with [n] characters to go, up to and with its
    [schedule]; [w] is its [__wait]. *)
Fixpoint stdin_loop (n : nat) (buf ret w : Z) : M con progress :=
  match n with
  | O => mret (Done ret)
  | S n =>
      s ← get;
      if p_rpos s <? p_wpos s then
        on_cmem (store buf (u8 (arr_get (stdin_buffer s) (Z.rem (p_rpos s) STDIN_BUFSIZE))));;
        modify (set_stdin (stdin_buffer s) (p_rpos s + 1) (p_wpos s));;
        stdin_loop n (buf + 1) (ret + 1) w
      else
        on_ks (wait_current_set (stdin_q s) w WT_KBD);;
        on_ks schedule;;
        mret (Asleep buf ret)
  end.
Definition dev_stdin_read (buf len w : Z) : M con progress := stdin_loop (Z.to_nat len) buf 0 w.

(** After [schedule] has returned. *)
Definition dev_stdin_resume (buf len ret w : Z) : M con progress :=
  s ← get;
  on_ks (wait_current_del (stdin_q s) w);;
  x ← on_ks (load_wait w);
  if wakeup_flags x =? WT_KBD then stdin_loop (Z.to_nat (len - ret)) buf ret w else mret (Done ret).

Definition stdin_open (open_flags : Z) : M con Z :=
  mret (if negb (open_flags =? O_RDONLY) then - E_INVAL else 0).
Definition stdin_close : M con Z := mret 0.
Definition stdin_ioctl (op data : Z) : M con Z := mret (- E_INVAL).

(** What [stdin_io] makes of the end of the read. *)
Definition stdin_result (iob : iobuf) (ret : Z) : Z * iobuf :=
  (ret, if 0 <? ret then Iobuf.mk (io_base iob) (io_offset iob) (io_len iob) (io_resid iob - ret) else iob).
(** [inl] when it returns at once. *)
Definition stdin_io (iob : iobuf) (write : bool) (w : Z) : M con (Z * iobuf + Z * Z) :=
  if negb write then
    r ← dev_stdin_read (io_base iob) (io_resid iob) w;
    mret match r with Done ret => inl (stdin_result iob ret) | Asleep b ret => inr (b, ret) end
  else mret (inl (- E_INVAL, iob)).

(** The part of [stdin_device_init] that sets up the buffer. *)
Definition stdin_device_init : M con unit :=
  s ← get; modify (set_stdin (stdin_buffer s) 0 0);; on_ks (wait_queue_init (stdin_q s)).

(** The loop of the trap handler for the serial interrupt (trap.c). *)
Fixpoint com1_loop (fuel : nat) : M con unit :=
  match fuel with
  | O => diverge
  | S fuel => c ← cons_getc; if s8 c =? 0 then mret tt else dev_stdin_write (s8 c);; com1_loop fuel
  end.

End Console.
