(* ===== verification/ConsoleSpec.v ===== *)
(** What the console promises: the buffer of stdin is a queue, every character is
    delivered once and in order whatever the interleaving of interrupts, readers
    and the scheduler, and no reader sleeps while there is input. *)

From S2P Require Import Prelude Mem Iobuf Proc ProcSpec Sync SyncSpec Console.

Module ConsoleSpec.
Import Iobuf.Iobuf Proc ProcSpec Sync SyncSpec Console.

(** ** Rings of characters *)

(** The [n] cells of the ring from position [r] on. *)
Definition ring (b : list Z) (size r : Z) (n : Z) : list Z := (fun i => arr_get b ((r + i) `mod` size)) <$> seqZ 0 n.

Lemma length_ring b size r n : length (ring b size r n) = Z.to_nat n.
Proof. unfold ring. by rewrite length_fmap, length_seqZ. Qed.

Lemma ring_cons b size r n : 0 < n -> ring b size r n = arr_get b (r `mod` size) :: ring b size (r + 1) (n - 1).
Proof.
  intros Hn. unfold ring. rewrite seqZ_cons by done. cbn [fmap list_fmap]. rewrite Z.add_0_r. f_equal.
  replace (Z.pred n) with (n - 1) by lia. change (Z.succ 0) with (1 + 0).
  rewrite <- (fmap_add_seqZ 1 0), <- list_fmap_compose.
  apply list_fmap_ext. intros _ i _. simpl. do 2 f_equal. lia.
Qed.

Lemma ring_snoc b size r n : 0 <= n -> ring b size r (n + 1) = ring b size r n ++ [arr_get b ((r + n) `mod` size)].
Proof.
  intros Hn. unfold ring. rewrite (seqZ_app 0 n 1) by lia. rewrite fmap_app. done.
Qed.

(** Writing a cell that is not among them. *)
Lemma ring_set_out b size r n p v :
  0 < size -> 0 <= n <= size -> r + n <= p < r + size -> ring (arr_set b (p `mod` size) v) size r n = ring b size r n.
Proof.
  intros Hs Hn Hp. apply list_fmap_ext. intros i j Hj%lookup_seqZ. apply arr_get_set_ne; try (apply Z.mod_pos_bound; lia).
  destruct Hj as [-> Hj]. intros He. assert (Hd : (p - (r + (0 + Z.of_nat i))) `mod` size = 0).
  { rewrite Zminus_mod, He, Z.sub_diag. apply Z.mod_0_l. lia. }
  rewrite Z.mod_small in Hd by lia. lia.
Qed.

(** ** The queue of stdin *)

(** The characters not yet read. *)
Definition queue (s : con) : list Z := ring (stdin_buffer s) STDIN_BUFSIZE (p_rpos s) (p_wpos s - p_rpos s).

Record ring_ok (s : con) : Prop := {
  ro_len : length (stdin_buffer s) = 4096%nat;
  ro_pos : 0 <= p_rpos s <= p_wpos s /\ p_wpos s <= p_rpos s + 4096 /\ p_wpos s < 0x80000000
}.

Lemma length_queue s : ring_ok s -> Z.of_nat (length (queue s)) = p_wpos s - p_rpos s.
Proof. intros [_ Hp]. unfold queue. rewrite length_ring. lia. Qed.

(** A full buffer loses the oldest character to the new one. *)
Definition push (q : list Z) (c : Z) : list Z := if decide (length q < 4096)%nat then q ++ [c] else c :: tail q.

(** The buffer after [c] has been stored. *)
Definition stored (c : Z) (s : con) : con :=
  set_stdin (arr_set (stdin_buffer s) (p_wpos s `mod` STDIN_BUFSIZE) c) (p_rpos s)
    (if p_wpos s - p_rpos s <? STDIN_BUFSIZE then p_wpos s + 1 else p_wpos s) s.

Lemma stored_queue c s : ring_ok s -> queue (stored c s) = push (queue s) c.
Proof.
  intros Hok. assert (Hl := length_queue s Hok). destruct Hok as [Hb Hp]. unfold push.
  assert (Hr : 0 <= p_wpos s `mod` 4096 < 4096) by (apply Z.mod_pos_bound; lia).
  unfold queue, stored, STDIN_BUFSIZE in *. cbn [p_rpos p_wpos stdin_buffer set_stdin].
  destruct (Z.ltb_spec (p_wpos s - p_rpos s) 4096).
  - rewrite decide_True by lia. replace (p_wpos s + 1 - p_rpos s) with (p_wpos s - p_rpos s + 1) by lia.
    rewrite ring_snoc, ring_set_out by lia. do 2 f_equal.
    replace (p_rpos s + (p_wpos s - p_rpos s)) with (p_wpos s) by lia. apply arr_get_set_eq. lia.
  - rewrite decide_False by lia. assert (Hf : p_wpos s - p_rpos s = 4096) by lia. rewrite Hf.
    rewrite (ring_cons (stdin_buffer s)), (ring_cons (arr_set _ _ _)) by lia. cbn [tail]. assert (Hm : p_wpos s `mod` 4096 = p_rpos s `mod` 4096).
    { replace (p_wpos s) with (p_rpos s + 1 * 4096) by lia. by rewrite Z_mod_plus by lia. }
    rewrite Hm in *. rewrite arr_get_set_eq by lia. f_equal.
    rewrite <- Hm. apply ring_set_out; lia.
Qed.

(** ** Waking the readers *)

(** The waits in the queue [q], each of a living process. *)
Record waiters (k : ks) (q : Z) (l : list Z) : Prop := {
  wa_queue : queues k !! q = Some l;
  wa_nodup : NoDup l;
  wa_wait w : w ∈ l -> exists x p, waits k !! w = Some x /\ wait_queue x = q /\
    procs k !! wproc x = Some p /\ state p <> PROC_ZOMBIE
}.

Lemma wakeup_all_eq q flags l : forall k,
  sched_inv k -> waiters k q l ->
  exists k', wakeup_all_del (S (length l)) q flags k = Ret (tt, k') /\ sched_inv k' /\ waiters k' q [] /\
    (forall q', q' <> q -> queues k' !! q' = queues k !! q') /\
    (forall a, runnable k a -> runnable k' a) /\ current k' = current k /\ idleproc k' = idleproc k /\
    (forall w, w ∉ l -> waits k' !! w = waits k !! w) /\
    forall w, w ∈ l -> exists x, waits k' !! w = Some x /\ wakeup_flags x = flags /\ wait_queue x = q /\ runnable k' (wproc x).
Proof.
  induction l as [|w l IH]; intros k Hi [Hq Hnd Hw].
  { exists k. cbn [length wakeup_all_del]. unfold wait_queue_first.
    erewrite bind_Ret by (erewrite bind_Ret by (by apply load_queue_eq); done).
    split; [done|]. split; [done|]. split; [by split|]. do 5 (split; [done|]). set_solver. }
  change (wakeup_all_del (S (length (w :: l))) q flags k) with ((o ← wait_queue_first q;
    match o with None => mret tt | Some w => wakeup_wait q w flags true;; wakeup_all_del (S (length l)) q flags end) k).
  unfold wait_queue_first.
  erewrite bind_Ret by (erewrite bind_Ret by (by apply load_queue_eq); done). cbn [head].
  destruct (Hw w) as (x & p & Hx & Hxq & Hp & Hz); [set_solver|].
  unfold wakeup_wait. simpl (when true _).
  set (k1 := set_queues (<[q := l]> (queues k)) k).
  set (k2 := set_waits (<[w := mk_wait (wproc x) flags (wait_queue x)]> (waits k)) k1).
  assert (Hrest : exists k3, (wait_queue_del q w;; y ← load_wait w; put_wait w (mk_wait (wproc y) flags (wait_queue y));;
    wakeup_proc (wproc y)) k = Ret (tt, k3) /\ woken k2 (wproc x) p k3).
  { erewrite bind_Ret by (eapply wait_queue_del_eq; [done..|set_solver]). rewrite remove_head by done.
    erewrite bind_Ret by (by apply load_wait_eq). erewrite bind_Ret by done.
    apply (wakeup_inv k2); [by apply (sched_inv_ext k)|done|done]. }
  destruct Hrest as (k3 & Hk3 & Hwk). rewrite (bind_Ret _ _ _ _ _ Hk3).
  apply NoDup_cons in Hnd as [Hnw Hnd]. assert (Hrw := runnable_woken _ _ _ _ (wproc x) Hwk).
  assert (Hrun := fun b => runnable_woken _ _ _ _ b Hwk).
  destruct Hwk as (Hi3 & Hr3 & Hc3 & Hid3 & _ & _ & Hqs & Hwt & _ & _ & _ & Ho & _).
  destruct (IH k3 Hi3) as (k' & Hk' & Hi' & Hwa & Hoq & Hr' & Hc' & Hid' & Hnw' & Hall).
  { split; [rewrite Hqs; apply lookup_insert_eq|done|].
    intros w' Hw'. destruct (Hw w') as (x' & p' & Hx' & Hxq' & Hp' & Hz'); [set_solver|].
    rewrite Hwt. cbn [waits set_waits k2]. rewrite lookup_insert_ne by set_solver.
    destruct (decide (wproc x' = wproc x)) as [He|Hne].
    - destruct Hr3 as (p3 & Hp3 & Hst3). exists x', p3. rewrite He. split_and!; [done..|congruence].
    - exists x', p'. by rewrite Ho. }
  exists k'. split; [done|]. split; [done|]. split; [done|]. split.
  { intros q' Hq'. rewrite Hoq, Hqs by done. simpl. by rewrite lookup_insert_ne. }
  split; [intros a Ha; apply Hr', Hrun; done|]. split; [by rewrite Hc', Hc3|]. split; [by rewrite Hid', Hid3|]. split.
  { intros w' Hw'. rewrite Hnw' by set_solver. rewrite Hwt. simpl. rewrite lookup_insert_ne by set_solver. done. }
  intros w' [->|Hw']%elem_of_cons; [|by apply Hall].
  rewrite Hnw' by done. rewrite Hwt. simpl. rewrite lookup_insert_eq. eexists. split; [done|]. simpl.
  split; [done|]. split; [done|]. by apply Hr'.
Qed.

(** ** Stdin *)

(** The readers [l] sleep only when there is nothing to read. *)
Record stdin_ok (s : con) (l : list Z) : Prop := {
  so_ring : ring_ok s;
  so_sched : sched_inv (kst s);
  so_wait : waiters (kst s) (stdin_q s) l;
  so_idle : l <> [] -> queue s = [];
  so_cur : runnable (kst s) (current (kst s));
  so_null : queues (kst s) !! NULL = None /\ stdin_q s <> NULL
}.

Lemma stored_ok c s l : stdin_ok s l -> p_wpos s + 1 < 0x80000000 -> ring_ok (stored c s).
Proof.
  intros [[Hl Hp] _ _ _ _ _] Hb. split; simpl.
  - by rewrite arr_set_length.
  - unfold STDIN_BUFSIZE. destruct (Z.ltb_spec (p_wpos s - p_rpos s) 4096); lia.
Qed.

(** A character: it joins the queue and every reader is woken. *)
Lemma stdin_write_eq c s l :
  stdin_ok s l -> p_wpos s + 1 < 0x80000000 -> c <> 0 ->
  exists s', dev_stdin_write c s = Ret (tt, s') /\ stdin_ok s' [] /\ queue s' = push (queue s) c /\
    stdin_q s' = stdin_q s /\ cmem s' = cmem s /\ rx s' = rx s /\ (buf s', rpos s', wpos s') = (buf s, rpos s, wpos s) /\
    serial_exists s' = serial_exists s /\ p_wpos s' <= p_wpos s + 1 /\ p_rpos s' = p_rpos s /\
    forall w, w ∈ l -> exists x, waits (kst s') !! w = Some x /\ wakeup_flags x = WT_KBD /\ runnable (kst s') (wproc x).
Proof.
  intros Hok Hb Hc. assert (Hring := stored_ok c s l Hok Hb). assert (Hq := stored_queue c s (so_ring _ _ Hok)).
  destruct Hok as [Hr Hsch Hwa Hid Hcur [Hn0 Hqn]]. unfold dev_stdin_write. rewrite (proj2 (Z.eqb_neq _ _) Hc). cbn [negb when].
  rewrite (bind_Ret _ _ s s s) by done. set (s1 := stored c s).
  assert (Hst : (if p_wpos s - p_rpos s <? STDIN_BUFSIZE
      then defined (p_wpos s + 1 <? 0x80000000);; modify (set_stdin (arr_set (stdin_buffer s) (Z.rem (p_wpos s) STDIN_BUFSIZE) c) (p_rpos s) (p_wpos s + 1))
      else modify (set_stdin (arr_set (stdin_buffer s) (Z.rem (p_wpos s) STDIN_BUFSIZE) c) (p_rpos s) (p_wpos s))) s = Ret (tt, s1)).
  { destruct (ro_pos _ Hr). unfold s1, stored. rewrite Z.rem_mod_nonneg by (unfold STDIN_BUFSIZE; lia).
    replace (p_wpos s + 1 <? 0x80000000) with true by lia. by destruct (p_wpos s - p_rpos s <? STDIN_BUFSIZE). }
  cbv zeta. rewrite (bind_Ret _ _ _ _ _ Hst).
  assert (He : on_ks (wait_queue_empty (stdin_q s)) s1 = Ret (bool_decide (l = []), s1)).
  { unfold on_ks, wait_queue_empty. change (kst s1) with (kst s). erewrite bind_Ret by (apply load_queue_eq, Hwa). done. }
  rewrite (bind_Ret _ _ _ _ _ He). destruct (decide (l = [])) as [->|Hne].
  { rewrite bool_decide_true by done. exists s1. split; [done|].
    split; [by split|]. split; [done|]. do 5 (split; [done|]). split; [unfold s1, stored; simpl; case_match; lia|].
    split; [done|]. set_solver. }
  rewrite bool_decide_false by done. cbn [negb when].
  destruct (wakeup_all_eq (stdin_q s) WT_KBD l (kst s) Hsch Hwa) as (k' & Hk & Hs' & Hw' & Hoq & Hrun & Hc' & Hi' & _ & Hall).
  exists (set_kst k' s1). assert (Hwq : wakeup_queue (stdin_q s) WT_KBD true (kst s) = Ret (tt, k')).
  { unfold wakeup_queue. erewrite bind_Ret by (apply load_queue_eq, Hwa). done. }
  split; [unfold on_ks; change (kst s1) with (kst s); by rewrite Hwq|].
  split.
  { split; try done; cbn [kst set_kst].
    - by destruct Hring; split.
    - rewrite Hc'. by apply Hrun.
    - split; [|done]. by rewrite Hoq. }
  split; [done|]. do 5 (split; [done|]). split; [unfold s1, stored; simpl; case_match; lia|]. split; [done|].
  intros w Hw. destruct (Hall w Hw) as (x & Hx & Hf & _ & Hrx). by exists x.
Qed.

(** Going to sleep on the queue of stdin. *)
Lemma stdin_sleep_eq s l w :
  stdin_ok s l -> queue s = [] -> w ∉ l -> current (kst s) <> idleproc (kst s) -> current (kst s) <> NULL ->
  exists s', (on_ks (wait_current_set (stdin_q s) w WT_KBD);; on_ks schedule) s = Ret (tt, s') /\
    stdin_ok s' (l ++ [w]) /\ s' = set_kst (kst s') s.
Proof.
  intros Hok Hq Hw Hci Hc0. destruct Hok as [Hr Hsch Hwa Hid Hcur [Hn0 Hqn]]. destruct Hcur as (p & Hp & Hst).
  assert (Hset := wait_current_set_eq (kst s) (stdin_q s) w WT_KBD l p Hp Hc0 Hn0 (wa_queue _ _ _ Hwa)).
  set (k1 := set_queues _ _) in Hset.
  destruct (sleep_inv (kst s) k1 p (with_wait_state WT_KBD (with_state PROC_SLEEPING p)) Hsch Hp Hci) as [Hi1 Hr1]; try done.
  destruct (schedule_eq k1 Hi1) as (k' & Hsc & Hi' & Hr' & _ & Hc' & _ & Hcore).
  exists (set_kst k' s). split.
  { assert (Hon : on_ks (wait_current_set (stdin_q s) w WT_KBD) s = Ret (tt, set_kst k1 s)) by (unfold on_ks; by rewrite Hset).
    rewrite (bind_Ret _ _ _ _ _ Hon). unfold on_ks. cbn [kst set_kst]. by rewrite Hsc. }
  split; [|done]. split; try done; cbn [kst set_kst stdin_q].
  - by destruct Hr; split.
  - assert (Hwa1 : waiters k1 (stdin_q s) (l ++ [w])).
    { split; cbn [k1 queues waits procs set_queues set_waits set_procs].
      - apply lookup_insert_eq.
      - apply NoDup_app. split_and!; [apply Hwa|set_solver|apply NoDup_singleton].
      - intros w' [Hw'| ->%list_elem_of_singleton]%elem_of_app.
        + destruct (wa_wait _ _ _ Hwa w' Hw') as (x & p' & Hx & Hxq & Hp' & Hz).
          rewrite lookup_insert_ne by set_solver. exists x. destruct (decide (wproc x = current (kst s))) as [He|Hne].
          * rewrite He, lookup_insert_eq. by eexists.
          * rewrite lookup_insert_ne by done. by eexists.
        + rewrite lookup_insert_eq. eexists _, _. split; [done|]. split; [done|]. simpl. by rewrite lookup_insert_eq. }
    destruct Hwa1 as [Hq1 Hn1 Hw1]. destruct Hcore as [Hvp Hvw Hvq _ _ _ _ _ _]. split; [by rewrite Hvq|done|].
    intros w' Hw'. destruct (Hw1 w' Hw') as (x & p' & Hx & Hxq & Hp' & Hz).
    destruct (view_lookup _ _ _ _ _ Hvp Hp') as (p2 & Hp2 & E). exists x, p2. rewrite Hvw.
    split_and!; try done. by rewrite (same_proc_field state p' p2).
  - rewrite Hc'. apply Hr'. by apply served_runnable.
  - split; [|done]. rewrite (sc_queues _ _ Hcore). simpl. by rewrite lookup_insert_ne.
Qed.

(** The loop of a read: what is there is taken from the front, and the reader
    sleeps when it is not enough. *)
Lemma stdin_loop_eq n : forall s l b ret w,
  stdin_ok s l -> w ∉ l -> current (kst s) <> idleproc (kst s) -> current (kst s) <> NULL -> allocated (cmem s) b n ->
  let t := take n (queue s) in let m := Z.of_nat (length t) in
  exists s' l', stdin_loop n b ret w s =
      Ret (if decide (length (queue s) < n)%nat then Asleep (b + m) (ret + m) else Done (ret + m), s') /\
    stdin_ok s' l' /\ queue s' = drop n (queue s) /\ cmem s' = write_bytes (cmem s) b (u8 <$> t) /\ stdin_q s' = stdin_q s.
Proof.
  induction n as [|n IH]; intros s l b ret w Hok Hw Hci Hc0 Ha; cbn [stdin_loop].
  { exists s, l. rewrite decide_False by lia. cbn [take length Z.of_nat]. rewrite Z.add_0_r. done. }
  rewrite (bind_Ret _ _ s s s) by done. assert (Hlq := length_queue s (so_ring _ _ Hok)).
  destruct (ro_pos _ (so_ring _ _ Hok)) as (Hp1 & Hp2 & Hp3). destruct (Z.ltb_spec (p_rpos s) (p_wpos s)) as [Hlt|Hge].
  - assert (Hq : queue s = arr_get (stdin_buffer s) (p_rpos s `mod` STDIN_BUFSIZE) ::
      ring (stdin_buffer s) STDIN_BUFSIZE (p_rpos s + 1) (p_wpos s - p_rpos s - 1)) by (apply ring_cons; lia).
    set (c := arr_get _ _) in Hq. rewrite Z.rem_mod_nonneg by (unfold STDIN_BUFSIZE; lia). fold c.
    apply allocated_S in Ha as [Hb Ha].
    set (s1 := set_cmem (<[b := u8 (u8 c)]> (cmem s)) s).
    assert (Hst : on_cmem (store b (u8 c)) s = Ret (tt, s1)) by (unfold on_cmem; by rewrite store_eq).
    rewrite (bind_Ret _ _ _ _ _ Hst). set (s2 := set_stdin (stdin_buffer s) (p_rpos s + 1) (p_wpos s) s1).
    rewrite (bind_Ret _ _ s1 tt s2) by done.
    assert (Hq2 : queue s = c :: queue s2).
    { rewrite Hq. f_equal. unfold queue. cbn [stdin_buffer p_rpos p_wpos s2 set_stdin]. f_equal. lia. }
    assert (Hu8 : u8 (u8 c) = u8 c) by (apply u8_id, u8_range).
    destruct (IH s2 l (b + 1) (ret + 1) w) as (s' & l' & Hs' & Hok' & Hq' & Hm' & Hsq); try done.
    + destruct Hok as [Hr Hsc Hwa Hid Hcu Hnu]. split; try done.
      * destruct Hr. split; [done|]. simpl. lia.
      * intros Hl. apply Hid in Hl. rewrite Hq2 in Hl. done.
    + intros i Hi. cbn [cmem s2 set_stdin s1 set_cmem]. apply lookup_insert_is_Some'. right. by apply Ha.
    + exists s', l'. rewrite Hs'. rewrite Hq2. cbn [take length fmap list_fmap write_bytes drop]. split.
      * f_equal. f_equal. destruct (decide (length (queue s2) < n)%nat); [rewrite decide_True by lia|rewrite decide_False by lia]; f_equal; lia.
      * split; [done|]. split; [done|]. split; [|done]. rewrite Hm'. cbn [cmem s2 set_stdin s1 set_cmem]. by rewrite Hu8.
  - assert (Hq : queue s = []) by (apply nil_length_inv; lia). rewrite Hq. cbn [take length].
    destruct (stdin_sleep_eq s l w Hok Hq Hw Hci Hc0) as (s' & Hs' & Hok' & He).
    exists s', (l ++ [w]). rewrite decide_True by (simpl; lia). rewrite !Z.add_0_r. split.
    + assert (Hassoc : forall {A B C} (m1 : M con A) (m2 : M con B) (m3 : M con C) s, (m1;; m2;; m3) s = ((m1;; m2);; m3) s).
      { intros A B C m1 m2 m3 x. unfold mbind, M_bind. by destruct (m1 x) as [[? ?]| | |]. }
      rewrite Hassoc. by rewrite (bind_Ret _ _ _ _ _ Hs').
    + split; [done|]. assert (Hq' : queue s' = queue s) by (rewrite He; done). rewrite Hq', Hq, drop_nil. cbn [fmap list_fmap write_bytes].
      split; [done|]. split; by rewrite He.
Qed.

(** A sleeping read goes on. *)
Lemma stdin_resume_eq s l b len ret w x :
  stdin_ok s l -> current (kst s) <> idleproc (kst s) -> current (kst s) <> NULL -> 0 <= ret <= len ->
  allocated (cmem s) b (Z.to_nat (len - ret)) -> waits (kst s) !! w = Some x -> wait_queue x = stdin_q s ->
  exists r s' l' t, dev_stdin_resume b len ret w s = Ret (r, s') /\ stdin_ok s' l' /\ queue s = t ++ queue s' /\
    cmem s' = write_bytes (cmem s) b (u8 <$> t) /\
    match r with Done m => m = ret + Z.of_nat (length t) | Asleep b' m => m = ret + Z.of_nat (length t) /\ b' = b + Z.of_nat (length t) end.
Proof.
  intros Hok Hci Hc0 Hret Ha Hx Hxq. unfold dev_stdin_resume. rewrite (bind_Ret _ _ s s s) by done.
  set (l1 := if decide (w ∈ l) then remove w l else l).
  assert (Hw1 : w ∉ l1) by (unfold l1; case_decide; [unfold remove; rewrite list_elem_of_filter; naive_solver|done]).
  assert (Hdel : exists s1, on_ks (wait_current_del (stdin_q s) w) s = Ret (tt, s1) /\ stdin_ok s1 l1 /\ queue s1 = queue s /\
    s1 = set_kst (kst s1) s /\ waits (kst s1) = waits (kst s) /\ current (kst s1) = current (kst s) /\ idleproc (kst s1) = idleproc (kst s)).
  { unfold on_ks, wait_current_del. assert (Hwa := so_wait _ _ Hok).
    rewrite (bind_Ret _ _ _ _ _ (wait_in_queue_eq _ w x (stdin_q s) l Hx Hxq (wa_queue _ _ _ Hwa))).
    unfold l1. destruct (decide (w ∈ l)) as [Hin|Hni].
    - rewrite bool_decide_true by done. cbn [when]. rewrite (wait_queue_del_eq _ (stdin_q s) w x l Hx Hxq (wa_queue _ _ _ Hwa) Hin).
      eexists. split; [done|]. split; [|done]. destruct Hok as [Hr Hsc _ Hid Hcu [Hn0 Hqn]]. split; try done; cbn [kst set_kst].
      + by destruct Hr; split.
      + by apply (sched_inv_ext (kst s)).
      + split; cbn [queues set_queues].
        * apply lookup_insert_eq.
        * apply NoDup_filter, Hwa.
        * intros w' [_ Hw']%list_elem_of_filter. apply (wa_wait _ _ _ Hwa w' Hw').
      + intros _. apply Hid. intros ->. by apply not_elem_of_nil in Hin.
      + split; [|done]. simpl. by rewrite lookup_insert_ne.
    - rewrite bool_decide_false by done. cbn [when]. exists s. by destruct s. }
  destruct Hdel as (s1 & Hd & Hok1 & Hq1 & He1 & Hwt & Hcu & Hid). rewrite (bind_Ret _ _ _ _ _ Hd).
  assert (Hld : on_ks (load_wait w) s1 = Ret (x, s1)).
  { unfold on_ks. rewrite (load_wait_eq _ w x) by (by rewrite Hwt). by destruct s1. }
  rewrite (bind_Ret _ _ _ _ _ Hld). assert (Hm1 : cmem s1 = cmem s) by (rewrite He1; done).
  destruct (wakeup_flags x =? WT_KBD).
  - destruct (stdin_loop_eq (Z.to_nat (len - ret)) s1 l1 b ret w Hok1 Hw1) as (s' & l' & Hs' & Hok' & Hq' & Hm' & _);
      [by rewrite Hcu, Hid|by rewrite Hcu|by rewrite Hm1|].
    rewrite Hq1, Hm1 in *. eexists _, s', l', (take (Z.to_nat (len - ret)) (queue s)). split; [exact Hs'|]. split; [done|].
    split; [by rewrite Hq', take_drop|]. split; [done|]. by case_decide.
  - exists (Done ret), s1, l1, []. split; [done|]. split; [done|]. split; [by rewrite Hq1|]. split; [done|]. simpl. lia.
Qed.

(** ** Every interleaving *)

Definition count (r : progress) : Z := match r with Done n => n | Asleep _ n => n end.

(** The current process can be put to sleep. *)
Definition can_sleep (s : con) : Prop := current (kst s) <> idleproc (kst s) /\ current (kst s) <> NULL.

(** The states reached from [s0] when characters arrive, processes read,
    sleeping readers go on, other processes are scheduled and change memory,
    with the characters that have arrived and the bytes that readers have got.
    A reader brings a [wait_t] on its own stack and a buffer. *)
Inductive reach (s0 : con) : con -> list Z -> list Z -> Prop :=
| reach_start : reach s0 s0 [] []
| reach_key s s' ws ts c :
    reach s0 s ws ts -> c <> 0 -> p_wpos s - p_rpos s < STDIN_BUFSIZE -> p_wpos s + 1 < 0x80000000 ->
    dev_stdin_write c s = Ret (tt, s') -> reach s0 s' (ws ++ [u8 c]) ts
| reach_read s s' ws ts b len w r t :
    reach s0 s ws ts -> can_sleep s -> w ∉ default [] (queues (kst s) !! stdin_q s) ->
    0 <= len -> allocated (cmem s) b (Z.to_nat len) ->
    dev_stdin_read b len w s = Ret (r, s') -> bytes (cmem s') b t -> Z.of_nat (length t) = count r ->
    reach s0 s' ws (ts ++ t)
| reach_resume s s' ws ts b len ret w x r t :
    reach s0 s ws ts -> can_sleep s -> waits (kst s) !! w = Some x -> wait_queue x = stdin_q s ->
    0 <= ret <= len -> allocated (cmem s) b (Z.to_nat (len - ret)) ->
    dev_stdin_resume b len ret w s = Ret (r, s') -> bytes (cmem s') b t -> ret + Z.of_nat (length t) = count r ->
    reach s0 s' ws (ts ++ t)
| reach_schedule s s' ws ts :
    reach s0 s ws ts -> on_ks schedule s = Ret (tt, s') -> reach s0 s' ws ts
| reach_memory s ws ts m :
    reach s0 s ws ts -> reach s0 (set_cmem m s) ws ts.

Lemma bytes_unique m a l1 l2 : bytes m a l1 -> bytes m a l2 -> length l1 = length l2 -> l1 = l2.
Proof.
  revert a l2. induction l1 as [|b l1 IH]; intros a [|c l2]; simpl; intros Hx1 Hx2 Hl; try done.
  destruct Hx1 as [Hb Hx1], Hx2 as [Hc Hx2]. rewrite Hb in Hc. injection Hc as ->. f_equal. apply (IH (a + 1)); [done..|lia].
Qed.

(** The bytes a reader finds in its buffer. *)
Lemma got_bytes m b (q : list Z) t :
  bytes (write_bytes m b (u8 <$> q)) b t -> length t = length q -> t = u8 <$> q.
Proof. intros Hb Hl. apply (bytes_unique _ b _ _ Hb (bytes_write m b _)). by rewrite length_fmap. Qed.

Lemma waiters_core k k' q l : waiters k q l -> same_core k k' -> waiters k' q l.
Proof.
  intros [Hq Hn Hw] [Hvp Hvw Hvq _ _ _ _ _ _]. split; [by rewrite Hvq|done|].
  intros w Hin. destruct (Hw w Hin) as (x & p & Hx & Hxq & Hp & Hz).
  destruct (view_lookup _ _ _ _ _ Hvp Hp) as (p' & Hp' & E). exists x, p'. rewrite Hvw.
  split_and!; try done. by rewrite (same_proc_field state p p').
Qed.

Lemma schedule_ok s s' l : stdin_ok s l -> on_ks schedule s = Ret (tt, s') -> stdin_ok s' l /\ queue s' = queue s.
Proof.
  intros [Hr Hsch Hwa Hid Hcur [Hn0 Hqn]] Hs.
  destruct (schedule_eq (kst s) Hsch) as (k' & Hk & Hi' & Hr' & _ & Hc' & _ & Hcore).
  unfold on_ks in Hs. rewrite Hk in Hs. injection Hs as <-. split; [|done].
  split; try done; cbn [kst set_kst stdin_q].
  - by destruct Hr; split.
  - by apply (waiters_core (kst s)).
  - rewrite Hc'. apply Hr'. by apply served_runnable.
  - by rewrite (sc_queues _ _ Hcore).
Qed.

Lemma push_room q c : (length q < 4096)%nat -> push q c = q ++ [c].
Proof. intros Hl. unfold push. by rewrite decide_True. Qed.

Lemma reach_inv s0 s ws ts :
  stdin_ok s0 [] -> queue s0 = [] -> reach s0 s ws ts ->
  (exists l, stdin_ok s l) /\ ts ++ (u8 <$> queue s) = ws.
Proof.
  intros Hok0 Hq0. induction 1 as [|s s' ws ts c _ [[l Hok] IH] Hc Hroom Hb Hw|s s' ws ts b len w r t _ [[l Hok] IH] [Hci Hc0] Hni Hlen Ha Hr Hby Hcnt
    |s s' ws ts b len ret w x r t _ [[l Hok] IH] [Hci Hc0] Hx Hxq Hret Ha Hr Hby Hcnt|s s' ws ts _ [[l Hok] IH] Hs|s ws ts m _ [[l Hok] IH]].
  - split; [by exists []|]. by rewrite Hq0.
  - destruct (stdin_write_eq c s l Hok Hb Hc) as (s2 & Hw2 & Hok2 & Hq2 & _). rewrite Hw in Hw2. injection Hw2 as <-.
    split; [by exists []|]. assert (Hl := length_queue s (so_ring _ _ Hok)). unfold STDIN_BUFSIZE in Hroom.
    rewrite Hq2, push_room by lia. rewrite fmap_app, app_assoc, IH. done.
  - rewrite (wa_queue _ _ _ (so_wait _ _ Hok)) in Hni.
    destruct (stdin_loop_eq (Z.to_nat len) s l b 0 w Hok Hni Hci Hc0 Ha) as (s2 & l2 & Hs2 & Hok2 & Hq2 & Hm2 & _).
    unfold dev_stdin_read in Hr. rewrite Hr in Hs2. injection Hs2 as Hre <-. split; [by exists l2|].
    rewrite Hm2 in Hby. rewrite (got_bytes _ _ _ _ Hby), Hq2, <- app_assoc, <- fmap_app, take_drop; [done|].
    rewrite Hre in Hcnt. case_decide; simpl in Hcnt; lia.
  - destruct (stdin_resume_eq s l b len ret w x Hok Hci Hc0 Hret Ha Hx Hxq) as (r2 & s2 & l2 & t2 & Hs2 & Hok2 & Hq2 & Hm2 & Hr2).
    rewrite Hr in Hs2. injection Hs2 as <- <-. split; [by exists l2|].
    rewrite Hm2 in Hby. rewrite (got_bytes _ _ _ _ Hby), <- app_assoc, <- fmap_app, <- Hq2; [done|].
    destruct r; simpl in *; lia.
  - destruct (schedule_ok s s' l Hok Hs) as [Hok' ->]. split; [by exists l|done].
  - split; [|done]. exists l. destruct Hok as [[Hr1 Hr2] ? ? ? ? ?]. by split.
Qed.

(** C31: Input reaches the readers exactly once and in order.  Whatever the
    interleaving of characters, reads, resumed reads and the scheduler in which
    no character arrives while the buffer of 4096 bytes is full (one that does
    overwrites the oldest), the bytes the readers have got followed by those still in the buffer are the
    characters that have arrived; no reader sleeps in the queue while there is
    input; and the device never gets stuck: another character is accepted, and a
    read returns at once or sleeps, getting something whenever there is
    something. *)
Theorem stdin_exactly_once (s0 s : con) (ws ts : list Z) :
  stdin_ok s0 [] -> queue s0 = [] -> reach s0 s ws ts ->
  ts ++ (u8 <$> queue s) = ws /\
  (default [] (queues (kst s) !! stdin_q s) <> [] -> queue s = []) /\
  (forall c, p_wpos s + 1 < 0x80000000 -> exists s', dev_stdin_write c s = Ret (tt, s')) /\
  (forall b len w, can_sleep s -> w ∉ default [] (queues (kst s) !! stdin_q s) -> 0 <= len ->
     allocated (cmem s) b (Z.to_nat len) ->
     exists r s', dev_stdin_read b len w s = Ret (r, s') /\ count r = Z.min len (Z.of_nat (length (queue s)))).
Proof.
  intros Hok0 Hq0 Hre. destruct (reach_inv s0 s ws ts Hok0 Hq0 Hre) as [[l Hok] Hlog].
  assert (Hq := wa_queue _ _ _ (so_wait _ _ Hok)). split; [done|]. split; [rewrite Hq; apply Hok|]. split.
  - intros c Hb. destruct (decide (c = 0)) as [->|Hc]; [by exists s|].
    destruct (stdin_write_eq c s l Hok Hb Hc) as (s' & Hw & _). eauto.
  - rewrite Hq. intros b len w [Hci Hc0] Hw Hlen Ha.
    destruct (stdin_loop_eq (Z.to_nat len) s l b 0 w Hok Hw Hci Hc0 Ha) as (s' & l' & Hs' & _).
    eexists _, s'. split; [exact Hs'|]. rewrite length_take. case_decide; cbn [count]; lia.
Qed.

(** ** From the serial port to stdin *)

(** The characters in the console's own buffer. *)
Definition pending (s : con) : list Z := ring (buf s) CONSBUFSIZE (rpos s) ((wpos s - rpos s) `mod` CONSBUFSIZE).

Record cons_ok (s : con) : Prop := {
  co_len : length (buf s) = 512%nat;
  co_pos : 0 <= rpos s < 512 /\ 0 <= wpos s < 512;
  co_chars : Forall (fun c => 0 < c < 256) (pending s);
  co_exists : serial_exists s = true
}.

(** Delete is read as backspace, NUL is dropped. *)
Definition received (l : list Z) : list Z := filter (fun c => c <> 0) ((fun c => if c =? 127 then 8 else c) <$> l).

Lemma received_chars l : Forall is_u8 l -> Forall (fun c => 0 < c < 256) (received l).
Proof.
  intros Hl. apply Forall_forall. intros c [Hc (d & -> & Hd)%list_elem_of_fmap]%list_elem_of_filter.
  rewrite Forall_forall in Hl. specialize (Hl d Hd). unfold is_u8 in Hl. destruct (d =? 127); lia.
Qed.

Lemma received_cons c l : received (c :: l) = (if decide ((if c =? 127 then 8 else c) <> 0) then [if c =? 127 then 8 else c] else []) ++ received l.
Proof. unfold received. cbn [fmap list_fmap filter list_filter]. by case_decide. Qed.

Lemma ring_mod b size r n : 0 < size -> ring b size (r `mod` size) n = ring b size r n.
Proof. intros Hs. apply list_fmap_ext. intros _ i _. by rewrite Zplus_mod_idemp_l. Qed.

Lemma wrap_add p : 0 <= p < 512 -> (if p + 1 =? CONSBUFSIZE then 0 else p + 1) = (p + 1) `mod` 512.
Proof. intros Hp. unfold CONSBUFSIZE. destruct (Z.eqb_spec (p + 1) 512); [by rewrite e|]. by rewrite Z.mod_small by lia. Qed.

(** A character enters the console's buffer. *)
Definition put_cons (c : Z) (s : con) : con :=
  set_cons (arr_set (buf s) (wpos s) (u8 c)) (rpos s) (if wpos s + 1 =? CONSBUFSIZE then 0 else wpos s + 1) s.

Lemma put_cons_ok c s : cons_ok s -> 0 < c < 256 -> (length (pending s) < 511)%nat ->
  cons_ok (put_cons c s) /\ pending (put_cons c s) = pending s ++ [c].
Proof.
  intros [Hl [Hr Hw] Hc He] Hcc Hn. unfold pending in Hn. rewrite length_ring in Hn. unfold CONSBUFSIZE in *.
  set (n := (wpos s - rpos s) `mod` 512) in *. assert (Hnb : 0 <= n < 512) by (apply Z.mod_pos_bound; lia).
  assert (Hw2 : wpos s = (rpos s + n) `mod` 512).
  { unfold n. rewrite Zplus_mod_idemp_r. replace (rpos s + (wpos s - rpos s)) with (wpos s) by lia. by rewrite Z.mod_small. }
  assert (Hp : pending (put_cons c s) = pending s ++ [c]).
  { unfold pending, put_cons. cbn [buf rpos wpos set_cons]. rewrite wrap_add by lia. unfold CONSBUFSIZE.
    replace (((wpos s + 1) `mod` 512 - rpos s) `mod` 512) with (n + 1).
    2:{ rewrite Zminus_mod_idemp_l. replace (wpos s + 1 - rpos s) with (wpos s - rpos s + 1) by lia.
        rewrite Zplus_mod. fold n. change (1 `mod` 512) with 1. by rewrite Z.mod_small by lia. }
    rewrite ring_snoc by lia. fold n. rewrite Hw2 at 1. rewrite ring_set_out by lia. f_equal. rewrite <- Hw2.
    rewrite arr_get_set_eq by lia. by rewrite u8_id by width. }
  split; [|done]. split; [simpl; by rewrite arr_set_length| |rewrite Hp; apply Forall_app; split; [done|by apply Forall_singleton]|done].
  simpl. rewrite wrap_add by lia. split; [done|]. apply Z.mod_pos_bound. lia.
Qed.

Lemma cons_intr_eq l : forall fuel s,
  rx s = l -> cons_ok s -> Forall is_u8 l -> (length (pending s) + length (received l) < 512)%nat -> (length l < fuel)%nat ->
  exists s', cons_intr fuel serial_proc_data s = Ret (tt, s') /\ cons_ok s' /\ pending s' = pending s ++ received l /\
    rx s' = [] /\ s' = set_cons (buf s') (rpos s') (wpos s') (set_rx [] s).
Proof.
  induction l as [|c l IH]; intros fuel s Hrx Hok Hu Hn Hf; (destruct fuel as [|fuel]; [simpl in Hf; lia|]); cbn [cons_intr].
  { assert (Hd : serial_proc_data s = Ret (-1, s)) by (unfold serial_proc_data; rewrite (bind_Ret _ _ s s s) by done; by rewrite Hrx).
    rewrite (bind_Ret _ _ _ _ _ Hd). exists s. split; [done|]. split; [done|]. rewrite app_nil_r. split; [done|]. split; [done|].
    rewrite <- Hrx. by destruct s. }
  apply Forall_cons in Hu as [Hc Hu]. set (d := if c =? 127 then 8 else c).
  assert (Hc32 : s32 c = c) by (apply s32_id; width).
  assert (Hdr : 0 <= d < 256) by (unfold d; unfold is_u8 in Hc; destruct (c =? 127); lia).
  set (s1 := set_rx l s). assert (Hd : serial_proc_data s = Ret (d, s1)).
  { unfold serial_proc_data. rewrite (bind_Ret _ _ s s s) by done. rewrite Hrx. rewrite (bind_Ret _ _ s tt s1) by done. by rewrite Hc32. }
  rewrite (bind_Ret _ _ _ _ _ Hd). replace (d =? -1) with false by lia.
  assert (Hok1 : cons_ok s1) by (destruct Hok; by split). rewrite received_cons in Hn |- *. fold d in Hn |- *.
  destruct (Z.eqb_spec d 0) as [Hd0|Hd0]; cbn [negb when].
  - rewrite (bind_Ret _ _ s1 tt s1) by done. rewrite decide_False in Hn |- * by tauto.
    destruct (IH fuel s1 eq_refl Hok1 Hu Hn ltac:(simpl in Hf; lia)) as (s' & Hi & Hok' & Hp & Hrx' & Hs').
    exists s'. split; [done|]. split; [done|]. split; [done|]. by split.
  - rewrite (bind_Ret _ _ s1 tt (put_cons d s1)) by done. rewrite decide_True in Hn |- * by done. cbn [length app] in Hn.
    destruct (put_cons_ok d s1 Hok1 ltac:(lia)) as [Hok2 Hp2]; [change (pending s1) with (pending s); lia|].
    destruct (IH fuel (put_cons d s1) eq_refl Hok2 Hu) as (s' & Hi & Hok' & Hp & Hrx' & Hs'); [|simpl in Hf; lia|].
    { rewrite Hp2, length_app. change (pending s1) with (pending s). simpl. lia. }
    exists s'. split; [done|]. split; [done|]. split; [rewrite Hp, Hp2, <- app_assoc; done|]. by split.
Qed.

Definition inputs (s : con) : list Z := pending s ++ received (rx s).

(** One character out of the console. *)
Lemma cons_getc_eq s :
  cons_ok s -> Forall is_u8 (rx s) -> (length (inputs s) < 512)%nat ->
  exists s', cons_getc s = Ret (default 0 (head (inputs s)), s') /\ cons_ok s' /\ pending s' = tail (inputs s) /\ rx s' = [] /\
    s' = set_cons (buf s') (rpos s') (wpos s') (set_rx [] s).
Proof.
  intros Hok Hu Hn. unfold inputs in *. rewrite length_app in Hn. unfold cons_getc, serial_intr.
  destruct (cons_intr_eq (rx s) (S (length (rx s))) s eq_refl Hok Hu Hn ltac:(lia)) as (s1 & Hi & Hok1 & Hp & Hrx & Hs1).
  assert (Hsi : (s ← get; when (serial_exists s) (cons_intr (S (length (rx s))) serial_proc_data)) s = Ret (tt, s1)).
  { rewrite (bind_Ret _ _ s s s) by done. by rewrite (co_exists _ Hok). }
  rewrite (bind_Ret _ _ _ _ _ Hsi). rewrite (bind_Ret _ _ s1 s1 s1) by done. rewrite <- Hp.
  assert (Hcopy := Hok1). destruct Hok1 as [Hl [Hr Hw] Hc He]. unfold pending in *. unfold CONSBUFSIZE in *.
  destruct (Z.eqb_spec (rpos s1) (wpos s1)) as [Heq|Hne]; cbn [negb].
  - exists s1. rewrite Heq, Z.sub_diag. change (0 `mod` 512) with 0. split; [done|]. split; [done|].
    split; [done|]. split; [done|]. by rewrite Heq in Hs1.
  - set (n := (wpos s1 - rpos s1) `mod` 512) in *.
    assert (Hn0 : 0 < n < 512).
    { assert (0 <= n < 512) by (apply Z.mod_pos_bound; lia). assert (n <> 0); [|lia]. unfold n. intros Hz.
      apply Z.mod_divide in Hz; [|lia]. destruct Hz as [q Hq]. lia. }
    set (s2 := set_cons (buf s1) (if rpos s1 + 1 =? CONSBUFSIZE then 0 else rpos s1 + 1) (wpos s1) s1).
    rewrite (bind_Ret _ _ s1 tt s2) by done. exists s2.
    assert (Hring : ring (buf s1) 512 (rpos s1) n = arr_get (buf s1) (rpos s1) :: pending s2).
    { rewrite ring_cons by lia. rewrite Z.mod_small by lia. f_equal. unfold pending, s2. cbn [buf rpos wpos set_cons].
      rewrite wrap_add by lia. unfold CONSBUFSIZE. rewrite ring_mod by lia. f_equal.
      rewrite Zminus_mod_idemp_r. replace (wpos s1 - (rpos s1 + 1)) with (wpos s1 - rpos s1 - 1) by lia.
      rewrite <- Zminus_mod_idemp_l. fold n. by rewrite Z.mod_small by lia. }
    rewrite Hring in *. cbn [head tail default]. apply Forall_cons in Hc as [_ Hc]. split; [done|]. split.
    { split; [done| |done|done]. simpl. rewrite wrap_add by lia. split; [apply Z.mod_pos_bound; lia|lia]. }
    split; [done|]. split; [done|]. unfold s2. simpl. rewrite Hs1. done.
Qed.

Lemma com1_loop_eq all : forall fuel s l,
  inputs s = all -> stdin_ok s l -> cons_ok s -> Forall is_u8 (rx s) -> (length all < 512)%nat -> (length all < fuel)%nat ->
  Z.of_nat (length (queue s) + length all) <= 4096 -> p_wpos s + Z.of_nat (length all) < 0x80000000 ->
  exists s', com1_loop fuel s = Ret (tt, s') /\ stdin_ok s' (if decide (all = []) then l else []) /\ cons_ok s' /\
    inputs s' = [] /\ rx s' = [] /\ queue s' = queue s ++ (s8 <$> all).
Proof.
  induction all as [|c all IH]; intros fuel s l Hin Hok Hco Hu Hn Hf Hroom Hb; (destruct fuel as [|fuel]; [simpl in Hf; lia|]);
    cbn [com1_loop]; destruct (cons_getc_eq s Hco Hu) as (s1 & Hg & Hco1 & Hp1 & Hrx1 & Hs1); try (by rewrite Hin);
    rewrite (bind_Ret _ _ _ _ _ Hg); rewrite Hin in Hp1 |- *; cbn [head tail default from_option id] in Hp1 |- *.
  - change (s8 0 =? 0) with true. exists s1. split; [done|]. rewrite decide_True by done. split.
    { rewrite Hs1. destruct Hok as [[Hr1 Hr2] ? ? ? ? ?]. by split. }
    split; [done|]. unfold inputs. rewrite Hp1, Hrx1. split; [done|]. split; [done|]. rewrite app_nil_r, Hs1. done.
  - assert (Hc : 0 < c < 256).
    { assert (Ha : Forall (fun c => 0 < c < 256) (inputs s)) by (apply Forall_app; split; [apply Hco|by apply received_chars]).
      rewrite Hin in Ha. by apply Forall_cons in Ha as [? _]. }
    assert (Hc0 : s8 c <> 0) by (unfold s8; width). rewrite (proj2 (Z.eqb_neq _ _) Hc0).
    assert (Hok1 : stdin_ok s1 l) by (rewrite Hs1; destruct Hok as [[Hr1 Hr2] ? ? ? ? ?]; by split).
    assert (Hq1 : queue s1 = queue s) by (rewrite Hs1; done). assert (Hw1 : p_wpos s1 = p_wpos s) by (rewrite Hs1; done).
    cbn [length] in *.
    destruct (stdin_write_eq (s8 c) s1 l Hok1 ltac:(lia) Hc0) as (s2 & Hw & Hok2 & Hq2 & _ & _ & Hrx2 & Hbuf & Hex & Hpw & _).
    rewrite (bind_Ret _ _ _ _ _ Hw). injection Hbuf as Hb1 Hb2 Hb3.
    assert (Hp2 : pending s2 = pending s1) by (unfold pending; by rewrite Hb1, Hb2, Hb3).
    rewrite Hq1, push_room in Hq2 by lia.
    destruct (IH fuel s2 []) as (s' & Hl & Hok' & Hco' & Hi' & Hr' & Hq'); try lia.
    + unfold inputs. by rewrite Hp2, Hp1, Hrx2, Hrx1, app_nil_r.
    + done.
    + destruct Hco1. split; rewrite ?Hp2, ?Hb1, ?Hb2, ?Hb3, ?Hex; done.
    + by rewrite Hrx2, Hrx1.
    + rewrite Hq2, length_app. simpl. lia.
    + exists s'. split; [done|]. rewrite decide_False by done. split; [by case_decide|]. split; [done|]. split; [done|]. split; [done|].
      by rewrite Hq', Hq2, <- app_assoc.
Qed.

(** C32: The handler of the serial interrupt moves all input.  Everything that has
    been received, after what the console's buffer still held, is appended to
    the queue of stdin in order, with delete turned into backspace and NUL
    dropped; both buffers before it are empty afterwards, the sleeping readers
    are woken if there was anything, and the loop ends.  This needs fewer than
    512 characters at a time and room in the buffer of stdin. *)
Theorem serial_input_correct (s : con) (l : list Z) (fuel : nat) :
  stdin_ok s l -> cons_ok s -> Forall is_u8 (rx s) -> (length (inputs s) < 512)%nat -> (length (inputs s) < fuel)%nat ->
  Z.of_nat (length (queue s) + length (inputs s)) <= STDIN_BUFSIZE -> p_wpos s + Z.of_nat (length (inputs s)) < 0x80000000 ->
  exists s', com1_loop fuel s = Ret (tt, s') /\ stdin_ok s' (if decide (inputs s = []) then l else []) /\ cons_ok s' /\
    inputs s' = [] /\ rx s' = [] /\ queue s' = queue s ++ (s8 <$> (pending s ++ received (rx s))).
Proof. intros. by apply com1_loop_eq. Qed.

(** ** Examples *)

Definition demo_con : con :=
  mk (set_queues {[ 900 := [] ]} demo_ks) [104; 0; 127; 105] [] true (replicate 512 0) 0 0 (replicate 4096 0) 0 0 900
    (list_to_map ((fun i => (i, 0)) <$> seqZ 100 8)).

Lemma demo_stdin_ok : stdin_ok demo_con [].
Proof.
  split.
  - split; [apply length_replicate|simpl; lia].
  - apply (sched_inv_ext demo_ks); [apply demo_ks_inv|done..].
  - split; [done|constructor|set_solver].
  - done.
  - by vm_compute; eexists.
  - by split.
Qed.

Lemma demo_cons_ok : cons_ok demo_con.
Proof. split; [done|simpl; lia|constructor|done]. Qed.

Lemma serial_input_correct_witness :
  exists s', com1_loop 10 demo_con = Ret (tt, s') /\ queue s' = [104; 8; 105].
Proof.
  destruct (serial_input_correct demo_con [] 10 demo_stdin_ok demo_cons_ok) as (s' & Hl & _ & _ & _ & _ & Hq);
    [repeat constructor; width|vm_compute; lia|vm_compute; lia|vm_compute; congruence|vm_compute; congruence|].
  exists s'. split; [done|]. rewrite Hq. reflexivity.
Defined.

(** A character arrives, and a process that reads one byte gets it. *)
Definition demo_con1 : con := stored 104 demo_con.
Definition demo_con2 : con :=
  set_stdin (stdin_buffer demo_con1) 1 1 (set_cmem (<[100 := 104]> (cmem demo_con)) demo_con1).

Lemma stdin_exactly_once_witness :
  reach demo_con demo_con2 [104] [104] /\ [104] ++ (u8 <$> queue demo_con2) = [104].
Proof.
  assert (Hw : dev_stdin_write 104 demo_con = Ret (tt, demo_con1)) by reflexivity.
  assert (Hr : dev_stdin_read 100 1 50 demo_con1 = Ret (Done 1, demo_con2)) by reflexivity.
  assert (Hre : reach demo_con demo_con2 [104] [104]).
  { apply (reach_read demo_con demo_con1 demo_con2 [104] [] 100 1 50 (Done 1) [104]); try done.
    - by apply (reach_key demo_con demo_con demo_con1 [] [] 104); [constructor|..].
    - set_solver.
    - intros i Hi. assert (i = 100) as -> by lia. by eexists. }
  split; [done|]. by apply (stdin_exactly_once demo_con demo_con2 [104] [104] demo_stdin_ok).
Defined.

End ConsoleSpec.
