(* ===== verification/Disk0.v ===== *)
(** The disk device: src/ucore_OS/kern/fs/devs/dev_disk0.c.  The image of the disk
    is part of memory, at a fixed address.  The semaphore around a transfer is
    left out. *)

From S2P Require Import Prelude Bytes Mem Strings StringsSpec Iobuf.

Module Disk0.
Import Strings.Strings StringsSpec.StringsSpec Iobuf.Iobuf.

Definition DISK0_BLKSIZE : Z := 4096.
Definition DISK0_BUFSIZE : Z := 4 * DISK0_BLKSIZE.
Definition DISK0_DEVSIZE : Z := 0x400000.
Definition E_INVAL : Z := 3.
Definition E_UNIMP : Z := 20.
Definition image_start : Z := 0xbe400000.

Definition disk0_open (open_flags : Z) : M mem Z := mret 0.
Definition disk0_close : M mem Z := mret 0.
Definition disk0_ioctl (op data : Z) : M mem Z := mret (- E_UNIMP).

Section Disk0.
  (** The address of the buffer, from [kmalloc], and [dev->d_blocks]. *)
  Context (disk0_buffer d_blocks : Z).

Definition disk0_read_blks_nolock (blkno nblks : Z) : M mem unit :=
  memcpy disk0_buffer (u32 (image_start + u32 (blkno * DISK0_BLKSIZE))) (u32 (nblks * DISK0_BLKSIZE));; mret tt.

(** It only prints a warning. *)
Definition disk0_write_blks_nolock (blkno nblks : Z) : M mem unit := mret tt.

(** The loop of [disk0_io] with [resid] bytes left. *)
Fixpoint disk0_loop (fuel : nat) (iob : iobuf) (resid blkno : Z) (write : bool) : M mem iobuf :=
  match fuel with
  | O => diverge
  | S fuel =>
      if resid =? 0 then mret iob else
      if write then
        r ← iobuf_move iob disk0_buffer DISK0_BUFSIZE false;
        let '(_, copied, iob) := r in
        assert_ (negb (copied =? 0) && (copied <=? resid) && (copied `mod` DISK0_BLKSIZE =? 0));;
        let nblks := copied / DISK0_BLKSIZE in
        disk0_write_blks_nolock blkno nblks;;
        disk0_loop fuel iob (resid - copied) (u32 (blkno + nblks)) write
      else
        let alen := if resid <? DISK0_BUFSIZE then resid else DISK0_BUFSIZE in
        let nblks := alen / DISK0_BLKSIZE in
        disk0_read_blks_nolock blkno nblks;;
        r ← iobuf_move iob disk0_buffer alen true;
        let '(_, copied, iob) := r in
        assert_ ((copied =? alen) && (copied `mod` DISK0_BLKSIZE =? 0));;
        disk0_loop fuel iob (u32 (resid - copied)) (u32 (blkno + nblks)) write
  end.

Definition disk0_io (iob : iobuf) (write : bool) : M mem (Z * iobuf) :=
  let offset := io_offset iob in
  let resid := io_resid iob in
  let blkno := u32 (Z.quot offset DISK0_BLKSIZE) in
  let nblks := resid / DISK0_BLKSIZE in
  if negb (Z.rem offset DISK0_BLKSIZE =? 0) || negb (resid `mod` DISK0_BLKSIZE =? 0) then mret (- E_INVAL, iob) else
  if d_blocks <? u32 (blkno + nblks) then mret (- E_INVAL, iob) else
  if nblks =? 0 then mret (0, iob) else
  iob ← disk0_loop (S (Z.to_nat nblks)) iob resid blkno write;
  mret (0, iob).

(** ** What a transfer does *)

(** The image lies in memory, apart from the buffer. *)
Record image_ok (m : mem) (img : list Z) : Prop := {
  im_bytes : bytes m image_start img;
  im_u8 : Forall is_u8 img;
  im_len : Z.of_nat (length img) = d_blocks * 4096;
  im_blocks : 0 < d_blocks <= 0x8000;
  im_buffer : allocated m disk0_buffer (Z.to_nat DISK0_BUFSIZE);
  im_apart : disjoint image_start (length img) disk0_buffer (Z.to_nat DISK0_BUFSIZE)
}.

(** The buffer of the caller is apart from both. *)
Record caller_ok (m : mem) (img : list Z) (iob : iobuf) : Prop := {
  ca_iob : iob_ok m iob;
  ca_image : disjoint image_start (length img) (io_base iob) (Z.to_nat (io_resid iob));
  ca_buffer : disjoint disk0_buffer (Z.to_nat DISK0_BUFSIZE) (io_base iob) (Z.to_nat (io_resid iob))
}.

Lemma advanced_advanced iob a b : advanced (advanced iob a) b = advanced iob (a + b).
Proof. unfold advanced. cbn [io_base io_offset io_len io_resid]. f_equal; [lia|width|lia]. Qed.

Lemma advanced_resid0 iob : is_s32 (io_offset iob) -> io_resid iob = 0 -> advanced iob (io_resid iob) = iob.
Proof.
  intros Ho Hr. unfold advanced. rewrite Hr, !Z.add_0_r, s32_id by done. destruct iob. simpl in *. f_equal; lia.
Qed.

(** Bytes away from the two buffers. *)
Definition aside (iob : iobuf) (i : Z) : Prop :=
  (i < io_base iob \/ io_base iob + io_resid iob <= i) /\ (i < disk0_buffer \/ disk0_buffer + DISK0_BUFSIZE <= i).

Definition kept (m m' : mem) (iob : iobuf) : Prop :=
  (forall i, aside iob i -> m' !! i = m !! i) /\ forall i, is_Some (m !! i) -> is_Some (m' !! i).

Lemma bytes_ext m m' a l : (forall i, a <= i < a + Z.of_nat (length l) -> m' !! i = m !! i) -> bytes m a l -> bytes m' a l.
Proof.
  intros Hm Hb. apply bytes_lookup. intros i b Hi. rewrite Hm; [by apply (proj1 (bytes_lookup m a l))|].
  apply lookup_lt_Some in Hi. lia.
Qed.

Section Image.
  Context (img : list Z).

Lemma image_kept m m' iob : image_ok m img -> caller_ok m img iob -> kept m m' iob -> image_ok m' img.
Proof.
  intros [Hb Hu Hl Hn Ha Hd] [Hi Hc1 Hc2] [Hk Hs]. unfold disjoint in *. split; try done; [|].
  - apply (bytes_ext m); [|done]. intros i Hr. apply Hk. destruct (iob_resid _ _ Hi). unfold aside, DISK0_BUFSIZE, DISK0_BLKSIZE in *. lia.
  - intros i Hr. by apply Hs, Ha.
Qed.

(** One round: [n] bytes of the image. *)
Definition piece (blkno n : Z) : list Z := slice (Z.to_nat (4096 * blkno)) (Z.to_nat n) img.
Definition after_piece (m : mem) (iob : iobuf) (l : list Z) : mem := write_bytes (write_bytes m disk0_buffer l) (io_base iob) l.

Section Round.
  Context (m : mem) (iob : iobuf) (blkno n : Z).
  Hypothesis Him : image_ok m img.
  Hypothesis Hca : caller_ok m img iob.
  Hypothesis Hn : 0 < n <= io_resid iob /\ n <= DISK0_BUFSIZE /\ n `mod` 4096 = 0.
  Hypothesis Hb : 0 <= blkno /\ 4096 * blkno + n <= d_blocks * 4096.

Lemma piece_ok : length (piece blkno n) = Z.to_nat n /\ Forall is_u8 (piece blkno n) /\
  bytes m (image_start + 4096 * blkno) (piece blkno n) /\ allocated m disk0_buffer (Z.to_nat n).
Proof using Him Hca Hn Hb.
  destruct Him as [Hi Hu Hl Hnb Ha Hd]. unfold piece. split; [apply length_slice; lia|]. split; [by apply slice_Forall|]. split.
  - assert (Hs := bytes_slice m image_start img (Z.to_nat (4096 * blkno)) (Z.to_nat n) Hi). by rewrite Z2Nat.id in Hs by lia.
  - intros i Hx. apply Ha. lia.
Qed.

Lemma read_blks_eq : disk0_read_blks_nolock blkno (n / 4096) m = Ret (tt, write_bytes m disk0_buffer (piece blkno n)).
Proof using Him Hca Hn Hb.
  destruct piece_ok as (Hpl & Hpu & Hpb & Hpa). destruct Him as [Hi Hu Hl Hnb Ha Hd].
  assert (Hnn : n / 4096 * DISK0_BLKSIZE = n) by (unfold DISK0_BLKSIZE; width).
  unfold disk0_read_blks_nolock, memcpy. rewrite Hnn, (u32_id n) by (unfold DISK0_BUFSIZE, DISK0_BLKSIZE in *; width).
  assert (Hs : u32 (image_start + u32 (blkno * DISK0_BLKSIZE)) = image_start + 4096 * blkno)
    by (unfold image_start, DISK0_BLKSIZE in *; rewrite !u32_id; width).
  rewrite Hs, <- Hpl. unfold mbind, M_bind. rewrite copy_up_eq; [done|done|by rewrite Hpl|done|].
  rewrite Hpl. unfold disjoint, DISK0_BUFSIZE, DISK0_BLKSIZE in *. lia.
Qed.

Lemma move_piece_eq : iobuf_move iob disk0_buffer n true (write_bytes m disk0_buffer (piece blkno n)) =
  Ret ((0, n, advanced iob n), after_piece m iob (piece blkno n)).
Proof using Him Hca Hn Hb.
  destruct piece_ok as (Hpl & Hpu & Hpb & Hpa). set (l := piece blkno n) in *. set (m1 := write_bytes m disk0_buffer l).
  assert (Hal : allocated m disk0_buffer (length l)) by (by rewrite Hpl).
  assert (Hiob := iob_ok_write m iob disk0_buffer l (ca_iob _ _ _ Hca) Hal). fold m1 in Hiob.
  assert (Hmv : moved iob n = n) by (unfold moved; lia).
  assert (Hx := iobuf_move_eq m1 iob disk0_buffer n true l Hiob ltac:(unfold DISK0_BUFSIZE, DISK0_BLKSIZE in *; width)).
  cbv zeta in Hx. rewrite Hmv in Hx. rewrite Hx; [|done|apply bytes_write|done|].
  - by replace (n <=? io_resid iob) with true by lia.
  - rewrite Hpl. intros i Hi. apply (iob_mem _ _ Hiob). lia.
Qed.

Lemma after_piece_kept : kept m (after_piece m iob (piece blkno n)) iob.
Proof using Him Hca Hn Hb.
  destruct piece_ok as (Hpl & Hpu & Hpb & Hpa). set (l := piece blkno n) in *.
  assert (Hal : allocated m disk0_buffer (length l)) by (by rewrite Hpl). split.
  - intros i [Hx1 Hx2]. unfold after_piece. rewrite !write_bytes_out; [done|rewrite Hpl; unfold DISK0_BUFSIZE, DISK0_BLKSIZE in *; lia|rewrite Hpl; lia].
  - intros i Hi. assert (Hone : allocated m i 1) by (intros j Hj; by replace j with i by lia).
    assert (Hiob := ca_iob _ _ _ Hca).
    assert (H1 : allocated (write_bytes m disk0_buffer l) i 1) by (by apply allocated_same).
    assert (H2 : allocated (write_bytes m disk0_buffer l) (io_base iob) (length l)).
    { apply allocated_same; [done|]. intros j Hj. apply (iob_mem _ _ Hiob). lia. }
    apply (allocated_same _ _ _ _ _ H2 H1). lia.
Qed.

Lemma after_piece_ok : caller_ok (after_piece m iob (piece blkno n)) img (advanced iob n).
Proof using Him Hca Hn Hb.
  assert (Hk := after_piece_kept). destruct piece_ok as (Hpl & Hpu & Hpb & Hpa).
  destruct Hca as [Hi Hc1 Hc2]. unfold disjoint in *. split; cbn [advanced io_base io_resid]; [|unfold disjoint; lia|unfold disjoint; lia].
  apply advanced_ok; [|lia]. destruct Hi as [? ? ? Hmem]. split; try done.
  intros i Hx. by apply (proj2 Hk), Hmem.
Qed.

End Round.

Lemma disk0_loop_read fuel : forall m iob blkno,
  image_ok m img -> caller_ok m img iob -> io_resid iob `mod` 4096 = 0 -> 0 <= blkno ->
  4096 * blkno + io_resid iob <= d_blocks * 4096 -> (Z.to_nat (io_resid iob / 4096) < fuel)%nat ->
  exists m', disk0_loop fuel iob (io_resid iob) blkno false m = Ret (advanced iob (io_resid iob), m') /\
    kept m m' iob /\ bytes m' (io_base iob) (piece blkno (io_resid iob)).
Proof.
  induction fuel as [|fuel IH]; intros m iob blkno Him Hca Hal Hb Hfit Hf; [lia|]. cbn [disk0_loop].
  destruct (iob_resid _ _ (ca_iob _ _ _ Hca)) as [Hr0 Hr1]. assert (Hofs := iob_offset _ _ (ca_iob _ _ _ Hca)).
  destruct (Z.eqb_spec (io_resid iob) 0) as [Hz|Hnz].
  { exists m. rewrite advanced_resid0 by done. split; [done|]. split; [by split|]. unfold piece. rewrite Hz. unfold slice.
    change (Z.to_nat 0) with 0%nat. rewrite take_0. done. }
  set (n := if io_resid iob <? DISK0_BUFSIZE then io_resid iob else DISK0_BUFSIZE).
  assert (Hn : 0 < n <= io_resid iob /\ n <= DISK0_BUFSIZE /\ n `mod` 4096 = 0).
  { unfold n, DISK0_BUFSIZE, DISK0_BLKSIZE. destruct (Z.ltb_spec (io_resid iob) (4 * 4096)); width. }
  assert (Hbn : 0 <= blkno /\ 4096 * blkno + n <= d_blocks * 4096) by lia.
  unfold DISK0_BLKSIZE. rewrite (bind_Ret _ _ _ _ _ (read_blks_eq m iob blkno n Him Hca Hn Hbn)).
  rewrite (bind_Ret _ _ _ _ _ (move_piece_eq m iob blkno n Him Hca Hn Hbn)).
  replace ((n =? n) && (n `mod` 4096 =? 0)) with true by lia. unfold assert_.
  set (m1 := after_piece m iob (piece blkno n)). rewrite (bind_Ret _ _ m1 tt m1) by done.
  assert (Hk1 := after_piece_kept m iob blkno n Him Hca Hn Hbn). fold m1 in Hk1.
  assert (Hca1 := after_piece_ok m iob blkno n Him Hca Hn Hbn). fold m1 in Hca1.
  assert (Him1 := image_kept m m1 iob Him Hca Hk1). destruct (piece_ok m iob blkno n Him Hca Hn Hbn) as (Hpl & _ & _ & _).
  destruct Him as [_ _ Hl Hnb _ _].
  rewrite (u32_id (io_resid iob - n)), (u32_id (blkno + n / 4096)) by width.
  change (io_resid iob - n) with (io_resid (advanced iob n)).
  destruct (IH m1 (advanced iob n) (blkno + n / 4096) Him1 Hca1) as (m' & Hl' & Hk' & Hb'); [cbn [advanced io_resid]; width..|].
  exists m'. rewrite Hl', advanced_advanced. cbn [advanced io_resid]. split; [do 3 f_equal; lia|].
  destruct Hk1 as [K1 A1], Hk' as [K' A']. split.
  - split; [|intros i Hi; by apply A', A1]. intros i Hi. rewrite <- (K1 i Hi). apply K'. unfold aside in *. cbn [advanced io_base io_resid]. lia.
  - replace (piece blkno (io_resid iob)) with (piece blkno n ++ piece (blkno + n / 4096) (io_resid iob - n)).
    + apply bytes_app. rewrite Hpl, Z2Nat.id by lia. split; [|exact Hb'].
      apply (bytes_ext m1); [|apply bytes_write]. intros i Hi. rewrite Hpl, Z2Nat.id in Hi by lia. apply K'.
      assert (Hd := ca_buffer _ _ _ Hca). unfold aside, disjoint, DISK0_BUFSIZE, DISK0_BLKSIZE in *. cbn [advanced io_base io_resid]. lia.
    + unfold piece, slice. replace (Z.to_nat (io_resid iob)) with (Z.to_nat n + Z.to_nat (io_resid iob - n))%nat by lia.
      replace (Z.to_nat (4096 * (blkno + n / 4096))) with (Z.to_nat (4096 * blkno) + Z.to_nat n)%nat by width.
      rewrite <- drop_drop. set (d := drop (Z.to_nat (4096 * blkno)) img).
      rewrite <- (take_drop (Z.to_nat n) d) at 3. rewrite take_app_add'; [done|].
      unfold piece, slice in Hpl. fold d in Hpl. done.
Qed.

End Image.

(** The blocks asked for: whole blocks of the device, or whole blocks that begin
    before the device and end in it. *)
Definition aligned (iob : iobuf) : Prop := io_offset iob `mod` 4096 = 0 /\ io_resid iob `mod` 4096 = 0.
Definition on_device (iob : iobuf) : Prop :=
  aligned iob /\ 0 <= io_offset iob /\ io_offset iob + io_resid iob <= d_blocks * 4096.
Definition before_device (iob : iobuf) : Prop :=
  aligned iob /\ io_offset iob < 0 /\ 0 <= io_offset iob + io_resid iob <= d_blocks * 4096.

Lemma rem_mod_0 x : Z.rem x 4096 = 0 <-> x `mod` 4096 = 0.
Proof. rewrite Z.rem_divide, Z.mod_divide by lia. done. Qed.

Lemma rem_mod_eqb x : (Z.rem x 4096 =? 0) = (x `mod` 4096 =? 0).
Proof. assert (Hx := rem_mod_0 x). destruct (Z.eqb_spec (Z.rem x 4096) 0), (Z.eqb_spec (x `mod` 4096) 0); tauto. Qed.

(** The test against [d_blocks]: the sum of the block number and the count is
    taken in 32 bits. *)
Lemma blocks_test m img iob :
  image_ok m img -> caller_ok m img iob -> aligned iob ->
  let blkno := u32 (Z.quot (io_offset iob) 4096) in
  (d_blocks <? u32 (blkno + io_resid iob / 4096)) = false <-> on_device iob \/ before_device iob.
Proof.
  intros Him Hca Hal blkno. assert (Hal' := Hal). destruct Hal' as [Ho Hr].
  destruct (iob_resid _ _ (ca_iob _ _ _ Hca)) as [Hr0 Hr1].
  assert (Hofs := iob_offset _ _ (ca_iob _ _ _ Hca)). assert (Hnb := im_blocks _ _ Him). unfold is_s32 in Hofs.
  set (k := io_offset iob / 4096). set (c := io_resid iob / 4096).
  assert (Hk : io_offset iob = 4096 * k /\ -0x80000 <= k < 0x80000) by (unfold k; width).
  assert (Hc : io_resid iob = 4096 * c /\ 0 <= c < 0x100000) by (unfold c; width).
  assert (Hq : Z.quot (io_offset iob) 4096 = k) by (rewrite (proj1 Hk), Z.mul_comm; apply Z.quot_mul; lia).
  assert (Hs : u32 (blkno + c) = (k + c) `mod` 0x100000000).
  { unfold blkno. rewrite Hq. unfold u32. change (2 ^ 32) with 0x100000000. rewrite Zplus_mod_idemp_l. done. }
  rewrite Hs, Z.ltb_ge. unfold on_device, before_device. destruct (decide (k + c < 0)).
  - assert (Hm : (k + c) `mod` 0x100000000 = k + c + 0x100000000) by width. rewrite Hm. split; [lia|].
    intros [(_ & ? & ?)|(_ & ? & ?)]; lia.
  - assert (Hm : (k + c) `mod` 0x100000000 = k + c) by width. rewrite Hm. split.
    + intros Hle. destruct (decide (0 <= k)); [left|right]; split_and!; (done || lia).
    + intros [(_ & ? & ?)|(_ & ? & ?)]; lia.
Qed.

(** C33: A read of the disk device.  When the offset and the length are multiples
    of the block size and the blocks exist, the bytes of the image from the
    offset on are in the caller's buffer, which is used up, and no byte of memory
    outside that buffer and the driver's own has changed, although the transfer
    goes through the driver's buffer four blocks at a time.  Otherwise the status
    is -E_INVAL and nothing happens, but for one case that the test lets through:
    a negative offset with a length that reaches into the device, since the sum
    of block number and count wraps around; such a read is never refused. *)
Theorem disk0_read_correct (m : mem) (img : list Z) (iob : iobuf) :
  image_ok m img -> caller_ok m img iob ->
  (on_device iob -> exists m', disk0_io iob false m = Ret ((0, advanced iob (io_resid iob)), m') /\ kept m m' iob /\
     bytes m' (io_base iob) (slice (Z.to_nat (io_offset iob)) (Z.to_nat (io_resid iob)) img)) /\
  (before_device iob -> forall r m', disk0_io iob false m = Ret (r, m') -> r.1 = 0) /\
  (~ on_device iob -> ~ before_device iob -> disk0_io iob false m = Ret ((- E_INVAL, iob), m)).
Proof.
  intros Him Hca. destruct (iob_resid _ _ (ca_iob _ _ _ Hca)) as [Hr0 Hr1].
  assert (Hofs := iob_offset _ _ (ca_iob _ _ _ Hca)). assert (Hnb := im_blocks _ _ Him). unfold is_s32 in Hofs.
  assert (Htest := blocks_test m img iob Him Hca). cbv zeta in Htest.
  unfold disk0_io, DISK0_BLKSIZE. rewrite rem_mod_eqb. split_and!.
  - intros Hon. rewrite (proj2 (Htest (proj1 Hon)) (or_introl Hon)). destruct Hon as ([Ho Hr] & Hoff & Hfit).
    replace (negb (io_offset iob `mod` 4096 =? 0) || negb (io_resid iob `mod` 4096 =? 0)) with false by lia.
    rewrite Z.quot_div_nonneg, (u32_id (io_offset iob / 4096)) by width.
    assert (Hp : piece img (io_offset iob / 4096) (io_resid iob) = slice (Z.to_nat (io_offset iob)) (Z.to_nat (io_resid iob)) img)
      by (unfold piece; do 2 f_equal; width).
    destruct (Z.eqb_spec (io_resid iob / 4096) 0) as [Hz|Hnz].
    + assert (Hz0 : io_resid iob = 0) by width. exists m. rewrite advanced_resid0 by done. split; [done|]. split; [by split|].
      rewrite Hz0. unfold slice. change (Z.to_nat 0) with 0%nat. by rewrite take_0.
    + destruct (disk0_loop_read img (S (Z.to_nat (io_resid iob / 4096))) m iob (io_offset iob / 4096) Him Hca Hr) as (m' & Hl & Hk & Hb);
        [width|width|lia|]. exists m'. rewrite (bind_Ret _ _ _ _ _ Hl). rewrite Hp in Hb. done.
  - intros Hbe r m'. rewrite (proj2 (Htest (proj1 Hbe)) (or_intror Hbe)). destruct Hbe as ([Ho Hr] & _).
    replace (negb (io_offset iob `mod` 4096 =? 0) || negb (io_resid iob `mod` 4096 =? 0)) with false by lia.
    destruct (_ =? 0); [by intros [= <- <-]|]. unfold mbind, M_bind.
    destruct (disk0_loop _ _ _ _ _ m) as [[x m1]| | |]; [|done..]. by intros [= <- <-].
  - intros Hno Hnb'. destruct (Z.eqb_spec (io_offset iob `mod` 4096) 0) as [Ho|]; [|done].
    destruct (Z.eqb_spec (io_resid iob `mod` 4096) 0) as [Hr|]; [|done]. cbn [negb orb].
    destruct (d_blocks <? _); [done|]. destruct (proj1 (Htest (conj Ho Hr)) eq_refl); tauto.
Qed.

End Disk0.

(** ** An example: a disk of one block of zeros *)

Definition demo_img : list Z := replicate (Z.to_nat 4096) 0.
Definition demo_buf : list Z := replicate (Z.to_nat DISK0_BUFSIZE) 0.
Definition demo_dst : list Z := replicate (Z.to_nat 4096) 7.
Definition demo_mem : mem := write_bytes (write_bytes (write_bytes ∅ image_start demo_img) 0x10000 demo_buf) 0x20000 demo_dst.

Lemma demo_image : image_ok 0x10000 1 demo_mem demo_img.
Proof.
  assert (Hi : length demo_img = Z.to_nat 4096) by apply length_replicate.
  assert (Hb : length demo_buf = Z.to_nat DISK0_BUFSIZE) by apply length_replicate.
  assert (Hd : length demo_dst = Z.to_nat 4096) by apply length_replicate.
  assert (Hdj : forall a b, a + 0x10000 <= b \/ b + 0x10000 <= a -> forall n k, (n <= Z.to_nat 0x10000)%nat -> (k <= Z.to_nat 0x10000)%nat -> disjoint a n b k)
    by (intros; unfold disjoint; lia).
  split.
  - unfold demo_mem. apply bytes_write_disjoint; [|apply bytes_write_disjoint; [|apply bytes_write]];
      apply Hdj; unfold image_start, DISK0_BUFSIZE, DISK0_BLKSIZE in *; lia.
  - apply Forall_replicate. width.
  - rewrite Hi. lia.
  - lia.
  - rewrite <- Hb. apply bytes_allocated. unfold demo_mem. apply bytes_write_disjoint; [|apply bytes_write].
    apply Hdj; unfold image_start, DISK0_BUFSIZE, DISK0_BLKSIZE in *; lia.
  - apply Hdj; unfold image_start, DISK0_BUFSIZE, DISK0_BLKSIZE in *; lia.
Qed.

Lemma disk0_read_correct_witness :
  exists m', disk0_io 0x10000 1 (iobuf_init 0x20000 4096 0) false demo_mem =
      Ret ((0, advanced (iobuf_init 0x20000 4096 0) 4096), m') /\ bytes m' 0x20000 demo_img.
Proof.
  assert (Hi : length demo_img = Z.to_nat 4096) by apply length_replicate.
  assert (Hd : length demo_dst = Z.to_nat 4096) by apply length_replicate.
  destruct (disk0_read_correct 0x10000 1 demo_mem demo_img (iobuf_init 0x20000 4096 0) demo_image) as [Hgood _].
  - split.
    + split; cbn [io_base io_resid io_len io_offset iobuf_init]; [lia|lia|width|]. rewrite <- Hd. apply bytes_allocated, bytes_write.
    + cbn [io_base io_resid iobuf_init]. unfold disjoint, image_start. lia.
    + cbn [io_base io_resid iobuf_init]. unfold disjoint, DISK0_BUFSIZE, DISK0_BLKSIZE. lia.
  - destruct Hgood as (m' & Hr & _ & Hb); [by split|]. exists m'. split; [exact Hr|].
    cbn [io_base io_resid io_offset iobuf_init] in Hb. unfold slice in Hb. change (Z.to_nat 0) with 0%nat in Hb.
    rewrite drop_0, take_ge in Hb by lia. exact Hb.
Defined.

(** A read of two blocks from one block before a disk of one block: the status
    is 0 and the buffer has the bytes of memory before the image. *)
Definition before_mem : mem :=
  write_bytes (write_bytes (write_bytes ∅ (image_start - 4096) (replicate (Z.to_nat 4096) 9 ++ demo_img)) 0x10000 demo_buf)
    0x20000 (demo_dst ++ demo_dst).
Example before_image_read :
  match disk0_io 0x10000 1 (iobuf_init 0x20000 8192 (-4096)) false before_mem with
  | Ret ((ret, _), m') => ret = 0 /\ m' !! 0x20000 = Some 9
  | _ => False
  end.
Proof. vm_compute. by split. Qed.

End Disk0.
