(* ===== verification/Disk0Dev.v ===== *)
(** The disk driver of dev_disk0.c as the block device of the file system: reads
    of blocks keep the laws the file system relies on ([DiskLaws]); writes are
    reported as done and change nothing, so the driver does not keep what is
    written ([KeepsWrites]). *)

From S2P Require Import Prelude Bytes Mem Iobuf Disk0 Sfs SfsSpec.

Module Disk0Dev.
Import Iobuf.Iobuf Disk0.Disk0.

Section Write.
  Context (disk0_buffer d_blocks : Z).

(** Only bytes of the driver's own buffer may differ. *)
Definition driver_only (m m' : mem) : Prop :=
  forall i, i < disk0_buffer \/ disk0_buffer + DISK0_BUFSIZE <= i -> m' !! i = m !! i.

(** One round of a write: [n] bytes of the caller go to the driver's buffer. *)
Lemma write_round m img iob l n :
  image_ok disk0_buffer d_blocks m img -> caller_ok disk0_buffer m img iob -> bytes m (io_base iob) l -> Forall is_u8 l ->
  Z.of_nat (length l) = io_resid iob -> n = Z.min DISK0_BUFSIZE (io_resid iob) ->
  let m1 := write_bytes m disk0_buffer (take (Z.to_nat n) l) in
  exists st, iobuf_move iob disk0_buffer DISK0_BUFSIZE false m = Ret ((st, n, advanced iob n), m1) /\
    driver_only m m1 /\ image_ok disk0_buffer d_blocks m1 img /\ caller_ok disk0_buffer m1 img (advanced iob n) /\
    bytes m1 (io_base (advanced iob n)) (drop (Z.to_nat n) l).
Proof.
  intros Him Hca Hb Hu Hl Hn m1. assert (Hca' := Hca). destruct Hca' as [Hi Hc1 Hc2].
  destruct (iob_resid _ _ Hi) as [Hr0 Hr1]. unfold DISK0_BUFSIZE, DISK0_BLKSIZE in *.
  assert (Hlt : length (take (Z.to_nat n) l) = Z.to_nat n) by (rewrite length_take; lia).
  assert (Hal : allocated m disk0_buffer (length (take (Z.to_nat n) l))).
  { eapply allocated_mono; [|apply (im_buffer _ _ _ _ Him)]. rewrite Hlt. unfold DISK0_BUFSIZE, DISK0_BLKSIZE. lia. }
  assert (Hbt : bytes m (io_base iob) (take (Z.to_nat n) l)).
  { assert (Hs := bytes_slice m _ l 0 (Z.to_nat n) Hb). by rewrite Z.add_0_r in Hs. }
  assert (Hmv := iobuf_move_eq m iob disk0_buffer (4 * 4096) false (take (Z.to_nat n) l) Hi ltac:(width)).
  cbv zeta in Hmv. assert (Hm : moved iob (4 * 4096) = n) by (unfold moved; lia). rewrite Hm in Hmv.
  assert (Hdo : driver_only m m1).
  { intros i Hx. apply write_bytes_out. rewrite Hlt. unfold DISK0_BUFSIZE, DISK0_BLKSIZE in Hx. lia. }
  exists (if 4 * 4096 <=? io_resid iob then 0 else - E_NO_MEM). split; [by apply Hmv; [..|apply Forall_take|]|]. split; [done|].
  split; [|split].
  - destruct Him as [Hib Hiu Hil Hin Hia Hid]. split; try done; [|by apply allocated_write].
    apply (bytes_ext m); [|done]. intros i Hx. apply Hdo. unfold disjoint, DISK0_BUFSIZE, DISK0_BLKSIZE in *. lia.
  - unfold disjoint in *. split; cbn [advanced io_base io_resid]; [|unfold disjoint; lia|unfold disjoint, DISK0_BUFSIZE, DISK0_BLKSIZE; lia].
    apply advanced_ok; [|lia]. by apply iob_ok_write.
  - cbn [advanced io_base]. assert (Hs := bytes_slice m _ l (Z.to_nat n) (length l - Z.to_nat n) Hb).
    unfold slice in Hs. rewrite take_ge in Hs by (rewrite length_drop; lia). rewrite Z2Nat.id in Hs by lia.
    apply (bytes_ext m); [|done]. intros i Hx. apply Hdo. rewrite length_drop in Hx.
    unfold disjoint, DISK0_BUFSIZE, DISK0_BLKSIZE in *. lia.
Qed.

Lemma write_loop img fuel : forall m iob l blkno,
  image_ok disk0_buffer d_blocks m img -> caller_ok disk0_buffer m img iob -> bytes m (io_base iob) l -> Forall is_u8 l ->
  Z.of_nat (length l) = io_resid iob -> io_resid iob `mod` 4096 = 0 -> (Z.to_nat (io_resid iob / 4096) < fuel)%nat ->
  exists m', disk0_loop disk0_buffer fuel iob (io_resid iob) blkno true m = Ret (advanced iob (io_resid iob), m') /\ driver_only m m'.
Proof.
  induction fuel as [|fuel IH]; intros m iob l blkno Him Hca Hb Hu Hl Hal Hf; [lia|]. cbn [Disk0.disk0_loop].
  destruct (iob_resid _ _ (ca_iob _ _ _ _ Hca)) as [Hr0 Hr1].
  destruct (Z.eqb_spec (io_resid iob) 0) as [Hz|Hnz].
  { exists m. by rewrite advanced_resid0 by (done || apply (iob_offset _ _ (ca_iob _ _ _ _ Hca))). }
  set (n := Z.min DISK0_BUFSIZE (io_resid iob)).
  destruct (write_round m img iob l n Him Hca Hb Hu Hl eq_refl) as (st & Hmv & Hdo & Him1 & Hca1 & Hb1).
  set (m1 := write_bytes m disk0_buffer (take (Z.to_nat n) l)) in *.
  rewrite (bind_Ret _ _ _ _ _ Hmv). unfold n, DISK0_BUFSIZE, DISK0_BLKSIZE in *. fold n in Hca1, Hb1 |- *.
  assert (Hn : 0 < n <= io_resid iob /\ n `mod` 4096 = 0) by (unfold n; destruct (Z.min_spec (4 * 4096) (io_resid iob)); width).
  replace (negb (n =? 0) && (n <=? io_resid iob) && (n `mod` 4096 =? 0)) with true by lia.
  rewrite (bind_Ret _ _ m1 tt m1), (bind_Ret _ _ m1 tt m1) by done.
  change (io_resid iob - n) with (io_resid (advanced iob n)).
  destruct (IH m1 (advanced iob n) (drop (Z.to_nat n) l) (u32 (blkno + n / 4096)) Him1 Hca1 Hb1) as (m' & Hrun & Hdo');
    [by apply Forall_drop|rewrite length_drop; cbn [advanced io_resid]; lia|cbn [advanced io_resid]; width..|].
  exists m'. rewrite Hrun, advanced_advanced. cbn [advanced io_resid]. split; [do 3 f_equal; lia|].
  intros i Hi. rewrite (Hdo' i Hi). by apply Hdo.
Qed.

(** A write to blocks of the device succeeds, uses the caller's buffer up, and
    changes nothing but the driver's own buffer: the image stays as it is. *)
Lemma disk0_write_drops m img iob l :
  image_ok disk0_buffer d_blocks m img -> caller_ok disk0_buffer m img iob -> on_device d_blocks iob ->
  bytes m (io_base iob) l -> Forall is_u8 l -> Z.of_nat (length l) = io_resid iob ->
  exists m', disk0_io disk0_buffer d_blocks iob true m = Ret ((0, advanced iob (io_resid iob)), m') /\ driver_only m m'.
Proof.
  intros Him Hca Hon Hb Hu Hl. assert (Htest := blocks_test _ _ m img iob Him Hca (proj1 Hon)).
  unfold Disk0.disk0_io, DISK0_BLKSIZE. rewrite rem_mod_eqb. cbv zeta in Htest. rewrite (proj2 Htest (or_introl Hon)).
  destruct Hon as ([Ho Hr] & _). destruct (iob_resid _ _ (ca_iob _ _ _ _ Hca)) as [Hr0 Hr1].
  replace (negb (io_offset iob `mod` 4096 =? 0) || negb (io_resid iob `mod` 4096 =? 0)) with false by lia.
  destruct (Z.eqb_spec (io_resid iob / 4096) 0) as [Hz|Hnz].
  - assert (Hz0 : io_resid iob = 0) by width. exists m.
    by rewrite advanced_resid0 by (done || apply (iob_offset _ _ (ca_iob _ _ _ _ Hca))).
  - destruct (write_loop img (S (Z.to_nat (io_resid iob / 4096))) m iob l (u32 (Z.quot (io_offset iob) 4096)) Him Hca Hb Hu Hl Hr)
      as (m' & Hrun & Hdo); [lia|]. exists m'. by rewrite (bind_Ret _ _ _ _ _ Hrun).
Qed.

End Write.

(** ** The device *)

(** Its state is the image: at most 0x8000 blocks of bytes. *)
Definition okb (img : list Z) : bool :=
  (0 <? Z.of_nat (length img)) && (Z.of_nat (length img) <=? 0x8000 * 4096) && (Z.of_nat (length img) `mod` 4096 =? 0) &&
  forallb RamDisk.is_byte img.
Definition dev : Type := { img : list Z | okb img = true }.
Definition image (d : dev) : list Z := proj1_sig d.
Definition nblks (img : list Z) : Z := Z.of_nat (length img) / 4096.

Section Device.
  (** The addresses of the driver's buffer and of the buffer of the file system. *)
  Context (disk0_buffer base : Z).

(** The memory that a transfer finds. *)
Definition memory (img buf : list Z) : mem :=
  write_bytes (write_bytes (write_bytes ∅ image_start img) disk0_buffer (replicate (Z.to_nat DISK0_BUFSIZE) 0)) base buf.

(** What it leaves in the buffer and in the image. *)
Definition result (n k : nat) (r : Z) (m : mem) : res ((Z * list Z) * dev) :=
  match load_bytes n base m, load_bytes k image_start m with
  | Ret (b, _), Ret (img, _) =>
      match decide (okb img = true) with left H => Ret ((r, b), exist _ img H) | right _ => Fault end
  | _, _ => Fault
  end.

#[local] Instance disk0_dev : BlockDev dev := {
  d_blocks d := nblks (image d);
  d_blocksize _ := DISK0_BLKSIZE;
  dop_io off buf write := fun d =>
    match disk0_io disk0_buffer (nblks (image d)) (iobuf_init base (Z.of_nat (length buf)) off) write (memory (image d) buf) with
    | Ret ((r, _), m) => result (length buf) (length (image d)) r m
    | Panic => Panic | Fault => Fault | Diverge => Diverge
    end
}.

(** The three areas do not meet. *)
Hypothesis Hlayout : 0 <= disk0_buffer /\ disk0_buffer + DISK0_BUFSIZE <= base /\ base + 4096 <= image_start.

Lemma image_facts (d : dev) : let img := image d in
  Forall is_u8 img /\ Z.of_nat (length img) = nblks img * 4096 /\ 0 < nblks img <= 0x8000.
Proof using Type.
  destruct d as [img Hok]. cbn. unfold okb in Hok. rewrite !andb_true_iff, forallb_forall in Hok.
  destruct Hok as [[[H1 H2] H3] H4]. unfold nblks. split; [|width].
  apply List.Forall_forall. intros x Hx. specialize (H4 x Hx). unfold RamDisk.is_byte, is_u8 in *. lia.
Qed.

Lemma dev_eq (d d' : dev) : image d = image d' -> d = d'.
Proof using Type.
  destruct d as [i Hi], d' as [i' Hi']. cbn. intros ->. f_equal. apply (proof_irrel Hi Hi').
Qed.

(** The invariants of the driver hold in that memory. *)
Lemma memory_ok (d : dev) buf off : length buf = 4096%nat -> is_s32 off ->
  image_ok disk0_buffer (nblks (image d)) (memory (image d) buf) (image d) /\
  caller_ok disk0_buffer (memory (image d) buf) (image d) (iobuf_init base 4096 off) /\
  bytes (memory (image d) buf) base buf.
Proof using Hlayout.
  intros Hl Ho. destruct (image_facts d) as (Hu & Hlen & Hn). set (img := image d) in *.
  unfold DISK0_BUFSIZE, DISK0_BLKSIZE, image_start in Hlayout.
  assert (Hz : length (replicate (Z.to_nat DISK0_BUFSIZE) 0) = Z.to_nat DISK0_BUFSIZE) by apply length_replicate.
  split; [|split].
  - split; [|done|lia|done| |unfold disjoint, DISK0_BUFSIZE, DISK0_BLKSIZE, image_start; lia].
    + unfold memory. apply bytes_write_disjoint; [|apply bytes_write_disjoint; [|apply bytes_write]];
        rewrite ?Hz; unfold disjoint, DISK0_BUFSIZE, DISK0_BLKSIZE, image_start; lia.
    + unfold memory. apply allocated_write. rewrite <- Hz. apply bytes_allocated, bytes_write.
  - split; [|unfold disjoint, image_start; cbn [io_base io_resid iobuf_init]; lia|
             unfold disjoint, DISK0_BUFSIZE, DISK0_BLKSIZE; cbn [io_base io_resid iobuf_init]; lia].
    split; cbn [io_base io_resid io_len io_offset iobuf_init]; [lia|lia|done|].
    assert (Hb := bytes_allocated _ _ _ (bytes_write (write_bytes (write_bytes ∅ image_start img) disk0_buffer (replicate (Z.to_nat DISK0_BUFSIZE) 0)) base buf)).
    by rewrite Hl in Hb.
  - apply bytes_write.
Qed.

(** A transfer that leaves [b] in the buffer and the image alone. *)
Lemma result_eq (d : dev) n r m b :
  bytes m base b -> length b = n -> bytes m image_start (image d) -> result n (length (image d)) r m = Ret ((r, b), d).
Proof using Type.
  intros Hb <- Hi. unfold result. rewrite (load_bytes_eq _ _ _ Hb), (load_bytes_eq _ _ _ Hi).
  case_decide as Hd; [|by destruct (Hd (proj2_sig d))]. f_equal. f_equal. by apply dev_eq.
Qed.

Definition block (d : dev) (i : nat) : list Z := slice (Z.to_nat (4096 * Z.of_nat i)) (Z.to_nat 4096) (image d).

Lemma block_is_block (d : dev) (i : nat) : Z.of_nat i < nblks (image d) -> is_block (block d i).
Proof using Type.
  intros Hi. destruct (image_facts d) as (Hu & Hlen & Hn). split; [|by apply slice_Forall].
  unfold block. rewrite length_slice by lia. done.
Qed.

Lemma on_device_block (d : dev) (i : nat) : Z.of_nat i < nblks (image d) ->
  on_device (nblks (image d)) (iobuf_init base 4096 (4096 * Z.of_nat i)).
Proof using Type.
  intros Hi. unfold on_device, aligned. cbn [io_offset io_resid iobuf_init]. split_and!; [width|done|lia|lia].
Qed.

Lemma dop_read_eq (d : dev) (i : nat) buf : Z.of_nat i < nblks (image d) -> length buf = 4096%nat ->
  dop_io (4096 * Z.of_nat i) buf false d = Ret ((0, block d i), d).
Proof using Hlayout.
  intros Hi Hl. destruct (image_facts d) as (Hu & Hlen & Hn).
  destruct (memory_ok d buf (4096 * Z.of_nat i) Hl ltac:(width)) as (Him & Hca & _).
  destruct (disk0_read_correct _ _ _ _ _ Him Hca) as [Hr _].
  destruct (Hr (on_device_block d i Hi)) as (m' & Hrun & Hk & Hb). cbn [dop_io disk0_dev]. rewrite Hl.
  change (Z.of_nat 4096) with 4096. rewrite Hrun.
  apply result_eq; [exact Hb|apply (block_is_block d i Hi)|].
  exact (im_bytes _ _ _ _ (image_kept _ _ _ _ _ _ Him Hca Hk)).
Qed.

(** A write is reported as done, and neither the image nor the buffer changes. *)
Lemma writes_dropped (d : dev) (i : nat) buf : Z.of_nat i < nblks (image d) -> is_block buf ->
  dop_io (4096 * Z.of_nat i) buf true d = Ret ((0, buf), d).
Proof using Hlayout.
  intros Hi [Hl Hu]. destruct (image_facts d) as (Hui & Hlen & Hn).
  destruct (memory_ok d buf (4096 * Z.of_nat i) Hl ltac:(width)) as (Him & Hca & Hb).
  destruct (disk0_write_drops _ _ _ _ _ buf Him Hca (on_device_block d i Hi) Hb Hu) as (m' & Hrun & Hdo); [by rewrite Hl|].
  cbn [dop_io disk0_dev]. rewrite Hl. change (Z.of_nat 4096) with 4096. rewrite Hrun.
  unfold DISK0_BUFSIZE, DISK0_BLKSIZE, image_start in Hlayout. unfold driver_only, DISK0_BUFSIZE, DISK0_BLKSIZE in Hdo.
  apply result_eq; [|done|].
  - apply (bytes_ext (memory (image d) buf)); [|done]. intros j Hj. apply Hdo. lia.
  - apply (bytes_ext (memory (image d) buf)); [|apply (im_bytes _ _ _ _ Him)]. intros j Hj. apply Hdo. unfold image_start in Hj. lia.
Qed.

#[local] Instance disk0_laws : DiskLaws dev.
Proof using Hlayout.
  refine {| disk d := block d <$> seq 0 (Z.to_nat (nblks (image d))) |}.
  - intros d. destruct (image_facts d) as (_ & _ & Hn). rewrite length_fmap, length_seq. cbn [d_blocks disk0_dev]. lia.
  - done.
  - intros d. destruct (image_facts d) as (_ & _ & Hn). cbn [d_blocks disk0_dev]. lia.
  - intros d i b Hb. apply list_lookup_fmap_Some in Hb as (k & -> & [-> Hk]%lookup_seq). apply block_is_block. lia.
  - intros d i b buf Hb Hl. apply list_lookup_fmap_Some in Hb as (k & -> & [-> Hk]%lookup_seq). apply dop_read_eq; [lia|done].
Defined.

Lemma ret_state {A S} (a a' : A) (x x' : S) : Ret (a, x) = Ret (a', x') -> x = x'.
Proof using Type. by intros [= _ ->]. Qed.

(** The driver does not keep what is written to it. *)
Lemma keeps_no_writes : KeepsWrites dev -> False.
Proof using Hlayout.
  intros Hk. set (img := replicate (Z.to_nat 4096) 0).
  assert (Hl : length img = Z.to_nat 4096) by apply length_replicate.
  assert (Hok : okb img = true).
  { unfold okb. rewrite Hl, Z2Nat.id, !andb_true_iff, forallb_forall by lia. split_and!; [done..|].
    intros x Hx. apply list_elem_of_In, elem_of_replicate in Hx as [-> _]. done. }
  set (d := exist _ img Hok : dev). set (buf := replicate (Z.to_nat 4096) 1).
  assert (Hn : nblks (image d) = 1) by (unfold nblks; cbn [image d proj1_sig]; by rewrite Hl).
  assert (Hb : is_block buf) by (split; [unfold buf; by rewrite length_replicate|apply Forall_replicate; width]).
  assert (Hlen : (0 < length (disk d))%nat) by (cbn [disk disk0_laws]; rewrite length_fmap, length_seq, Hn; lia).
  assert (Hw := writes_dropped d 0 buf ltac:(rewrite Hn; lia) Hb).
  rewrite (disk_write d 0 buf Hlen Hb) in Hw. apply ret_state in Hw. assert (Hp := disk_put d 0 buf Hlen Hb).
  rewrite Hw in Hp. apply (f_equal (fun l => l !! 0%nat)) in Hp. rewrite list_lookup_insert_eq in Hp by done.
  cbn [disk disk0_laws] in Hp. rewrite Hn, list_lookup_fmap, lookup_seq_lt in Hp by lia. cbn [fmap option_fmap option_map Nat.add] in Hp.
  apply (inj Some), (f_equal (fun l => l !! 0%nat)) in Hp. unfold buf in Hp. rewrite lookup_replicate_2 in Hp by lia.
  unfold block in Hp. rewrite lookup_slice, decide_True in Hp by lia. cbn [image d proj1_sig] in Hp.
  unfold img in Hp. change (Z.to_nat (4096 * Z.of_nat 0) + 0)%nat with 0%nat in Hp. by rewrite lookup_replicate_2 in Hp by lia.
Qed.

End Device.

End Disk0Dev.
