(* ===== verification/Kfs.v ===== *)
(** Device inodes (src/ucore_OS/kern/fs/devs/dev.c and the initialisation of the
    devices) and, with them and the on-disk file system, the kernel's instance of
    the interface of the VFS: the operation tables of directories, files and
    devices. *)

From S2P Require Import Prelude Mem Heap Iobuf Proc Sync Console Disk0 Vfs Sfs SfsOps.

Module Kfs.
Import Iobuf.Iobuf Vfs.Vfs Sfs SfsOps.

Definition S_IFCHR : Z := 0x4000.
Definition S_IFBLK : Z := 0x5000.

(** The function pointers of a [struct device]. *)
Inductive devkind := Stdin | Stdout | Disk.
Record device := mk_device { d_blocks : Z; d_blocksize : Z; d_kind : devkind }.

(** The devices by their inodes, and the state of the drivers; the memory of
    [dcon] is that of the system. *)
Record drivers := mk_drivers { dcon : Console.con; devices : gmap Z device; disk0_buffer : Z }.
Record kfs (D H : Type) := mk { sf : Sfs.t D H; drv : drivers }.
Arguments mk {D H}. Arguments sf {D H}. Arguments drv {D H}.

Section Kfs.
  Context {D H : Type} `{BlockDev D} `{Heap H}.
  (** What other processes and interrupts do while a reader of stdin sleeps, how
      often it is woken at most, and the address of its [wait_t]. *)
  Context (others : M Console.con unit) (patience : nat) (stdin_wait : Z).
  (** The address of the literal ".." *)
  Context (dotdot : Z).

Let K := kfs D H.
Let E := env K.

Definition on_sfs {A} (m : M (env (Sfs.t D H)) A) : M E A := fun e =>
  match m (mk_env (inodes e) (sf (fsys e)) (vmem e)) with
  | Ret (a, e') => Ret (a, mk_env (inodes e') (mk (fsys e') (drv (fsys e))) (vmem e'))
  | Panic => Panic | Fault => Fault | Diverge => Diverge
  end.
Definition on_sf {A} (m : M (Sfs.t D H) A) : M K A := fun k =>
  match m (sf k) with
  | Ret (a, s) => Ret (a, mk s (drv k)) | Panic => Panic | Fault => Fault | Diverge => Diverge
  end.
#[global] Instance kfs_heap : Heap K := { kmalloc n := on_sf (kmalloc n); kfree p := on_sf (kfree p) }.

Definition set_con c (d : drivers) : drivers := mk_drivers c (devices d) (disk0_buffer d).
Definition on_con {A} (m : M Console.con A) : M E A := fun e =>
  let d := drv (fsys e) in
  match m (Console.set_cmem (vmem e) (dcon d)) with
  | Ret (a, c) => Ret (a, mk_env (inodes e) (mk (sf (fsys e)) (set_con c d)) (Console.cmem c))
  | Panic => Panic | Fault => Fault | Diverge => Diverge
  end.
Definition set_drv (f : drivers -> drivers) : M E unit :=
  modify (fun e => mk_env (inodes e) (mk (sf (fsys e)) (f (drv (fsys e)))) (vmem e)).

(** ** Device inodes *)

(** [vop_info(node, device)] *)
Definition load_device (node : Z) : M E device := fun e =>
  match devices (drv (fsys e)) !! node with Some d => Ret (d, e) | None => Fault end.
Definition put_device (node : Z) (d : device) : M E unit :=
  set_drv (fun v => mk_drivers (dcon v) (<[node := d]> (devices v)) (disk0_buffer v)).

Definition dop_open (d : device) (open_flags : Z) : M E Z :=
  match d_kind d with
  | Stdin => on_con (Console.stdin_open open_flags)
  | Stdout => on_con (Console.stdout_open open_flags)
  | Disk => on_mem (Disk0.disk0_open open_flags)
  end.
Definition dop_close (d : device) : M E Z :=
  match d_kind d with
  | Stdin => on_con Console.stdin_close | Stdout => on_con Console.stdout_close | Disk => on_mem Disk0.disk0_close
  end.
Definition dop_ioctl (d : device) (op data : Z) : M E Z :=
  match d_kind d with
  | Stdin => on_con (Console.stdin_ioctl op data) | Stdout => on_con (Console.stdout_ioctl op data)
  | Disk => on_mem (Disk0.disk0_ioctl op data)
  end.

(** A read of stdin that has gone to sleep. *)
Fixpoint stdin_sleep (n : nat) (buf len ret : Z) : M Console.con Z :=
  match n with
  | O => diverge
  | S n =>
      others;;
      r ← Console.dev_stdin_resume buf len ret stdin_wait;
      match r with Console.Done ret => mret ret | Console.Asleep buf ret => stdin_sleep n buf len ret end
  end.
Definition stdin_io (iob : iobuf) (write : bool) : M Console.con (Z * iobuf) :=
  r ← Console.stdin_io iob write stdin_wait;
  match r with
  | inl r => mret r
  | inr (buf, ret) =>
      ret ← stdin_sleep patience buf (io_resid iob) ret;
      mret (Console.stdin_result iob ret)
  end.

Definition dop_io (d : device) (iob : iobuf) (write : bool) : M E (Z * iobuf) :=
  match d_kind d with
  | Stdin => on_con (stdin_io iob write)
  | Stdout => on_con (Console.stdout_io iob write)
  | Disk => k ← gets fsys; on_mem (Disk0.disk0_io (disk0_buffer (drv k)) (d_blocks d) iob write)
  end.

Definition dev_open (node open_flags : Z) : M E Z :=
  if negb (Z.land open_flags (Z.lor (Z.lor (Z.lor O_CREAT O_TRUNC) O_EXCL) O_APPEND) =? 0) then mret (- E_INVAL) else
  d ← load_device node; dop_open d open_flags.
Definition dev_close (node : Z) : M E Z := d ← load_device node; dop_close d.
Definition dev_read (node : Z) (iob : iobuf) : M E (Z * iobuf) := d ← load_device node; dop_io d iob false.
Definition dev_write (node : Z) (iob : iobuf) : M E (Z * iobuf) := d ← load_device node; dop_io d iob true.
Definition dev_ioctl (node op data : Z) : M E Z := d ← load_device node; dop_ioctl d op data.

(** The type is stored through a pointer. *)
Definition dev_gettype (node : Z) : M E (Z * Z) :=
  d ← load_device node; mret (0, if 0 <? d_blocks d then S_IFBLK else S_IFCHR).
Definition dev_fstat (node : Z) : M E (Z * stat) :=
  r ← vop_known dev_gettype node;
  if negb (r.1 =? 0) then mret (r.1, mk_stat 0 0 0 0) else
  d ← load_device node;
  mret (0, mk_stat r.2 1 (d_blocks d) (u32 (d_blocks d * d_blocksize d))).
Definition dev_tryseek (node pos : Z) : M E Z :=
  d ← load_device node;
  if 0 <? d_blocks d then
    assert_ (d_blocksize d =? 4096);;
    mret (if (Z.land pos 0xfff =? 0) && (0 <=? pos) && (pos <? u32 (d_blocks d * d_blocksize d)) then 0 else - E_INVAL)
  else mret (- E_INVAL).
(** The status and the inode. *)
Definition dev_lookup (node path : Z) : M E (Z * Z) :=
  c ← on_mem (load_char path);
  if negb (c =? 0) then mret (- E_NOENT, 0) else
  inode_ref_inc node;; mret (0, node).

Definition dev_create_inode : M E Z :=
  node ← __alloc_inode;
  when (negb (node =? 0)) (inode_init node true 0);;
  mret node.

(** ** The operation tables *)

(** Which table the inode has. *)
Inductive table := DirOps | FileOps | DevOps.
Definition table_of (node : Z) : M E table :=
  i ← load_inode node;
  if is_device i then mret DevOps else
  dir ← on_sfs (s ← on_heap (load_sin node); sfs_get_ops (type (din s)));
  mret (if dir : bool then DirOps else FileOps).

(** The entries of [sfs_node_dirops], [sfs_node_fileops] and [dev_node_ops] that
    are not NULL. *)
Definition in_table (t : table) (name : opname) : bool :=
  match t, name with
  | DirOps, (VOpen | VClose | VFstat | VFsync | VNamefile | VGetdirentry | VReclaim | VGettype | VLookup) => true
  | FileOps, (VOpen | VClose | VRead | VWrite | VFstat | VFsync | VReclaim | VGettype | VTryseek | VTruncate) => true
  | DevOps, (VOpen | VClose | VRead | VWrite | VFstat | VGettype | VTryseek | VLookup) => true
  | _, _ => false
  end.

(** The entry of the table, [None] where [in_table] says that there is none. *)
Definition by_table {A} (node : Z) (dir file dev : option (M E A)) : M E A :=
  t ← table_of node;
  match match t with DirOps => dir | FileOps => file | DevOps => dev end with
  | Some op => op
  | None => panic
  end.

Definition kernel_fs : FsOps K := {|
  has_op name n := t ← table_of n; mret (in_table t name);
  op_open n f := by_table n (Some (on_sfs (sfs_opendir n f))) (Some (on_sfs (sfs_openfile n f))) (Some (dev_open n f));
  op_close n := by_table n (Some (on_sfs (sfs_close n))) (Some (on_sfs (sfs_close n))) (Some (dev_close n));
  op_read n b := by_table n None (Some (on_sfs (sfs_read n b))) (Some (dev_read n b));
  op_write n b := by_table n None (Some (on_sfs (sfs_write n b))) (Some (dev_write n b));
  op_fstat n := by_table n (Some (on_sfs (sfs_fstat n))) (Some (on_sfs (sfs_fstat n))) (Some (dev_fstat n));
  op_fsync n := by_table n (Some (on_sfs (sfs_fsync n))) (Some (on_sfs (sfs_fsync n))) None;
  op_namefile n b := by_table n (Some (on_sfs (sfs_namefile dotdot n b))) None None;
  op_getdirentry n b := by_table n (Some (on_sfs (sfs_getdirentry n b))) None None;
  op_reclaim n := by_table n (Some (on_sfs (sfs_reclaim n))) (Some (on_sfs (sfs_reclaim n))) None;
  op_gettype n := by_table n (Some (on_sfs (sfs_gettype n))) (Some (on_sfs (sfs_gettype n))) (Some (dev_gettype n));
  op_tryseek n p := by_table n None (Some (on_sfs (sfs_tryseek n p))) (Some (dev_tryseek n p));
  op_truncate n l := by_table n None (Some (on_sfs (sfs_truncfile n l))) None;
  op_create n p x := by_table n None None None;
  op_lookup n p := by_table n (Some (on_sfs (sfs_lookup n p))) None (Some (dev_lookup n p));
  fs_sync f := on_sfs (sfs_sync f);
  fs_get_root f := on_sfs (sfs_get_root f);
  fs_unmount f := on_sfs (sfs_unmount f);
  fs_cleanup f := on_sfs (sfs_cleanup f)
|}.
#[local] Existing Instance kernel_fs.

(** ** Initialisation *)

Let V := Vfs.t K.

Definition stdin_device_init (node : Z) : M E unit :=
  put_device node (mk_device 0 1 Stdin);; on_con Console.stdin_device_init.
Definition stdout_device_init (node : Z) : M E unit := put_device node (mk_device 0 1 Stdout).
Definition disk0_device_init (node : Z) : M E unit :=
  put_device node (mk_device (Disk0.DISK0_DEVSIZE / Disk0.DISK0_BLKSIZE) Disk0.DISK0_BLKSIZE Disk);;
  b ← on_heap (kmalloc Disk0.DISK0_BUFSIZE);
  assert_ (negb (b =? 0));;
  set_drv (fun v => mk_drivers (dcon v) (devices v) b).

(** [dev_init_stdin], [dev_init_stdout] and [dev_init_disk0]: [name] is the
    address of the literal. *)
Definition dev_init_one (name : Z) (init : Z -> M E unit) (mountable : bool) : M V unit :=
  node ← inE dev_create_inode;
  assert_ (negb (node =? 0));;
  inE (init node);;
  ret ← vfs_add_dev name node mountable;
  assert_ (ret =? 0).
Definition dev_init_stdin (name : Z) : M V unit := dev_init_one name stdin_device_init false.
Definition dev_init_stdout (name : Z) : M V unit := dev_init_one name stdout_device_init false.
Definition dev_init_disk0 (name : Z) : M V unit := dev_init_one name disk0_device_init true.
Definition dev_init (stdin stdout disk0 : Z) : M V unit :=
  dev_init_stdin stdin;; dev_init_stdout stdout;; dev_init_disk0 disk0.

(** [sfs_init] of sfs.c. *)
Definition sfs_init (disk0 : Z) : M V unit :=
  ret ← vfs_mount disk0 (fun dev => on_sfs (sfs_do_mount dev)); assert_ (ret =? 0).

End Kfs.
End Kfs.
