(* ===== verification/KfsLaws.v ===== *)
(** The operation tables of the kernel keep the promise that the table of open
    files relies on ([FsLaws]): an operation of a directory, a file or a device
    that returns has left the inodes of the VFS alone, and [sfs_reclaim] removes
    no other inode than its own. *)

From S2P Require Import Prelude Mem Heap Iobuf Console Disk0 Vfs Sfs SfsOps Kfs File FileSpec.

Module KfsLaws.
Import Iobuf.Iobuf Vfs.Vfs FileSpec.FileSpec Sfs SfsOps Kfs.

(** ** Computations that leave the inodes alone *)

Section Quiet.
  Context {F : Type}.
Implicit Types e : env F.

Lemma still_ret {A} (a : A) : quiet (F := F) (mret a).
Proof. by intros e r e' [= <- <-]. Qed.
Lemma still_bind {A B} (m : M (env F) A) (k : A -> M (env F) B) :
  quiet m -> (forall a, quiet (k a)) -> quiet (m ≫= k).
Proof.
  intros Hm Hk e r e'. unfold mbind, M_bind. destruct (m e) as [[a e1]| | |] eqn:Em; [|done..].
  intros Hr. by rewrite (Hk a e1 r e' Hr), (Hm e a e1 Em).
Qed.
Lemma still_assert b : quiet (F := F) (assert_ b).
Proof. destruct b; [apply still_ret|done]. Qed.
Lemma still_panic {A} : quiet (F := F) (A := A) panic.
Proof. done. Qed.
Lemma still_when b (m : M (env F) unit) : quiet m -> quiet (when b m).
Proof. destruct b; [done|]. intros _. apply still_ret. Qed.
Lemma still_if {A} (b : bool) (m1 m2 : M (env F) A) : quiet m1 -> quiet m2 -> quiet (if b then m1 else m2).
Proof. by destruct b. Qed.
Lemma still_gets {A} (f : env F -> A) : quiet (gets f).
Proof. by intros e r e' [= <- <-]. Qed.
Lemma still_on_heap {A} (m : M F A) : quiet (on_heap m).
Proof. intros e r e'. unfold on_heap. destruct (m (fsys e)) as [[a f]| | |]; [|done..]. by intros [= <- <-]. Qed.
Lemma still_on_mem {A} (m : M mem A) : quiet (F := F) (on_mem m).
Proof. intros e r e'. unfold on_mem. destruct (m (vmem e)) as [[a v]| | |]; [|done..]. by intros [= <- <-]. Qed.
Lemma still_load_inode n : quiet (F := F) (load_inode n).
Proof. intros e r e'. unfold load_inode. destruct (inodes e !! n); [|done]. by intros [= <- <-]. Qed.
Lemma still_check n : quiet (F := F) (inode_check n).
Proof.
  apply still_bind; [apply still_assert|intros _]. apply still_bind; [apply still_load_inode|intros i].
  apply still_bind; [apply still_assert|intros _]. apply still_assert.
Qed.
Lemma still_known {A} (op : Z -> M (env F) A) n : quiet (op n) -> quiet (vop_known op n).
Proof. intros Hop. apply still_bind; [apply still_check|by intros _]. Qed.

(** At most the inode [n] is removed. *)
Definition drops (n : Z) {A} (m : M (env F) A) : Prop :=
  forall e r e', m e = Ret (r, e') -> inodes e' = inodes e \/ inodes e' = delete n (inodes e).

Lemma drops_quiet n {A} (m : M (env F) A) : quiet m -> drops n m.
Proof. intros Hm e r e' Hr. left. by apply (Hm e r e'). Qed.
Lemma drops_bind n {A B} (m : M (env F) A) (k : A -> M (env F) B) :
  quiet m -> (forall a, drops n (k a)) -> drops n (m ≫= k).
Proof.
  intros Hm Hk e r e'. unfold mbind, M_bind. destruct (m e) as [[a e1]| | |] eqn:Em; [|done..].
  intros Hr. rewrite <- (Hm e a e1 Em). by apply (Hk a e1 r e').
Qed.
Lemma drops_if n {A} (b : bool) (m1 m2 : M (env F) A) : drops n m1 -> drops n m2 -> drops n (if b then m1 else m2).
Proof. by destruct b. Qed.
Lemma drops_kill `{Heap F} n : drops n (inode_kill (F := F) n;; mret 0).
Proof.
  intros e r e' Hr. right. revert Hr. unfold inode_kill, mbind, M_bind, load_inode, assert_.
  destruct (inodes e !! n) as [i|]; [|done]. destruct (ref_count i =? 0), (open_count i =? 0); [|done..].
  cbn. unfold on_heap. destruct (kfree _ _) as [[a f]| | |]; [|done..]. by intros [= <- <-].
Qed.

End Quiet.

Create HintDb quiet.
#[export] Hint Resolve still_ret still_bind still_assert still_panic still_when still_if still_gets still_on_heap
  still_on_mem still_load_inode still_check still_known : quiet.
(** A computation is quiet when each of its steps is. *)
Ltac quiet := repeat first [
  progress intros | apply still_known | apply still_on_heap | apply still_on_mem | apply still_check
  | apply still_load_inode | apply still_gets | apply still_assert | apply still_panic | apply still_ret
  | solve [auto 2 with quiet nocore] | apply still_bind | apply still_when | apply still_if ].

Section Kernel.
  Context {D H : Type} `{BlockDev D} `{Heap H}.
  Context (others : M Console.con unit) (patience : nat) (stdin_wait dotdot : Z).
Let S := Sfs.t D H.
Let K := kfs D H.

(** ** The on-disk file system *)

Lemma fsync_quiet n : quiet (F := S) (sfs_fsync n).
Proof. unfold sfs_fsync. quiet. Qed.
Lemma close_quiet n : quiet (F := S) (sfs_close n).
Proof. unfold sfs_close. apply still_known, fsync_quiet. Qed.

Lemma mem_op_quiet op buf len : quiet (F := S) (mem_op op buf len).
Proof. unfold mem_op. quiet. Qed.
Hint Resolve mem_op_quiet fsync_quiet : quiet.

Lemma io_part_quiet n i b l op : quiet (F := S) (io_part n i b l op).
Proof. unfold io_part. quiet. Qed.
Hint Resolve io_part_quiet : quiet.

Lemma io_parts_quiet n b o l op1 op2 : quiet (F := S) (io_parts n b o l op1 op2).
Proof. unfold io_parts. apply still_bind; [quiet|]. intros [[[p k] c] single]. quiet. Qed.
Hint Resolve io_parts_quiet : quiet.

Lemma io_quiet n iob w : quiet (F := S) (sfs_io n iob w).
Proof. unfold sfs_io, sfs_io_nolock. quiet. Qed.

Lemma gettype_quiet n : quiet (F := S) (sfs_gettype n).
Proof. unfold sfs_gettype. quiet. Qed.
Hint Resolve gettype_quiet : quiet.
Lemma fstat_quiet n : quiet (F := S) (sfs_fstat n).
Proof. unfold sfs_fstat. quiet. Qed.

Lemma get_ops_quiet ty : quiet (F := S) (sfs_get_ops ty).
Proof. unfold sfs_get_ops. quiet. Qed.
Hint Resolve get_ops_quiet : quiet.
Lemma truncate_quiet n l : quiet (F := S) (vop_truncate n l).
Proof. unfold vop_truncate, sfs_truncfile. quiet. Qed.
Hint Resolve truncate_quiet : quiet.
Lemma tryseek_quiet n p : quiet (F := S) (sfs_tryseek n p).
Proof. unfold sfs_tryseek. quiet. Qed.

Lemma dirent_read_quiet n i a : quiet (F := S) (sfs_dirent_read_nolock n i a).
Proof. unfold sfs_dirent_read_nolock. quiet. Qed.
Lemma entry_ino_quiet a : quiet (F := S) (entry_ino (D := D) (H := H) a).
Proof. unfold entry_ino. quiet. Qed.
Hint Resolve dirent_read_quiet entry_ino_quiet : quiet.
Lemma dirent_loop_quiet c n slot a i : quiet (F := S) (dirent_loop c n slot a i).
Proof. revert slot i. induction c as [|c IH]; intros slot i; cbn [dirent_loop]; quiet. Qed.
Hint Resolve dirent_loop_quiet : quiet.
Lemma getdirentry_quiet n iob : quiet (F := S) (sfs_getdirentry n iob).
Proof. unfold sfs_getdirentry, sfs_getdirentry_sub_nolock. quiet. Qed.

Lemma reclaim_drops n : drops (F := S) n (sfs_reclaim n).
Proof.
  unfold sfs_reclaim.
  repeat first [progress intros | apply drops_kill | apply drops_quiet; quiet; fail | apply drops_if
    | apply drops_bind; [quiet; fail|] ].
Qed.

(** ** The tables *)

Lemma on_sfs_quiet {A} (m : M (env S) A) : quiet m -> quiet (F := K) (on_sfs m).
Proof.
  intros Hm e r e'. unfold on_sfs. destruct (m _) as [[a e1]| | |] eqn:Em; [|done..].
  intros [= <- <-]. exact (Hm _ _ _ Em).
Qed.
Lemma on_sfs_drops n {A} (m : M (env S) A) : drops n m -> drops (F := K) n (on_sfs m).
Proof.
  intros Hm e r e'. unfold on_sfs. destruct (m _) as [[a e1]| | |] eqn:Em; [|done..].
  intros [= <- <-]. exact (Hm _ _ _ Em).
Qed.
Lemma on_con_quiet {A} (m : M Console.con A) : quiet (F := K) (on_con m).
Proof. intros e r e'. unfold on_con. destruct (m _) as [[a c]| | |]; [|done..]. by intros [= <- <-]. Qed.
Lemma load_device_quiet n : quiet (F := K) (load_device n).
Proof. intros e r e'. unfold load_device. destruct (devices _ !! n); [|done]. by intros [= <- <-]. Qed.
Hint Resolve on_con_quiet load_device_quiet : quiet.

Lemma dop_io_quiet d iob w : quiet (F := K) (dop_io others patience stdin_wait d iob w).
Proof. unfold dop_io. destruct (d_kind d); quiet. Qed.
Lemma dop_close_quiet d : quiet (F := K) (dop_close (D := D) (H := H) d).
Proof. unfold dop_close. destruct (d_kind d); quiet. Qed.
Lemma dev_gettype_quiet n : quiet (F := K) (dev_gettype n).
Proof. unfold dev_gettype. quiet. Qed.
Hint Resolve dop_io_quiet dop_close_quiet dev_gettype_quiet : quiet.
Lemma dev_fstat_quiet n : quiet (F := K) (dev_fstat n).
Proof. unfold dev_fstat. quiet. Qed.
Lemma dev_tryseek_quiet n p : quiet (F := K) (dev_tryseek n p).
Proof. unfold dev_tryseek. quiet. Qed.

Lemma table_of_quiet n : quiet (F := K) (table_of n).
Proof. unfold table_of. quiet. apply on_sfs_quiet. quiet. Qed.
Hint Resolve table_of_quiet : quiet.

Definition all_quiet {A} (o : option (M (env K) A)) : Prop := match o with Some m => quiet m | None => True end.

Lemma by_table_quiet {A} n (dir file dev : option (M (env K) A)) :
  all_quiet dir -> all_quiet file -> all_quiet dev -> quiet (by_table n dir file dev).
Proof.
  intros Hd Hf Hv. apply still_bind; [apply table_of_quiet|]. intros t.
  by destruct t, dir, file, dev.
Qed.

#[global] Instance kernel_laws : FsLaws K (H := kernel_fs others patience stdin_wait dotdot).
Proof.
  split; intros; cbn.
  - quiet.
  - apply by_table_quiet; cbn; [apply on_sfs_quiet, close_quiet..|unfold dev_close; quiet].
  - apply by_table_quiet; cbn; [done|apply on_sfs_quiet, io_quiet|unfold dev_read; quiet].
  - apply by_table_quiet; cbn; [done|apply on_sfs_quiet, io_quiet|unfold dev_write; quiet].
  - apply by_table_quiet; cbn; [apply on_sfs_quiet, fstat_quiet..|apply dev_fstat_quiet].
  - apply by_table_quiet; cbn; [apply on_sfs_quiet, fsync_quiet..|done].
  - apply by_table_quiet; cbn; [done|apply on_sfs_quiet, tryseek_quiet|apply dev_tryseek_quiet].
  - apply by_table_quiet; cbn; [apply on_sfs_quiet, getdirentry_quiet|done..].
  - enough (Hd : drops n (op_reclaim (FsOps := kernel_fs others patience stdin_wait dotdot) n)) by by eapply Hd.
    cbn. apply drops_bind; [apply table_of_quiet|]. intros [| |]; [apply on_sfs_drops, reclaim_drops..|done].
Qed.

End Kernel.
End KfsLaws.
