(* ===== verification/Sysfile.v ===== *)
(** The file system calls: src/ucore_OS/kern/fs/sysfile.c.  They move data between
    the memory of the user and the operations on open files through a buffer of
    the kernel.  [lock_mm] is left out. *)

From S2P Require Import Prelude Bytes Mem Heap Iobuf Vmm Vfs File SfsOps.

Module Sysfile.
Import Iobuf.Iobuf Vfs.Vfs File.File.

Definition IOBUF_SIZE : Z := 4096.
Definition FS_MAX_FPATH_LEN : Z := 4095.
Definition sizeof_stat : Z := 16.
Definition sizeof_dirent : Z := 260.

(** Open files, and the address spaces; the heap and the memory of [vm] are those
    of [fl].  [mm] is [current->mm]. *)
Record t (F : Type) := mk { fl : File.t F; vm : Vmm.t F; mm : Z }.
Arguments mk {F}. Arguments fl {F}. Arguments vm {F}. Arguments mm {F}.

Section Sysfile.
  Context {F : Type} `{FsOps F} `{Heap F}.

Definition set_fl f (s : t F) : t F := mk f (vm s) (mm s).

Definition on_fl {A} (m : M (File.t F) A) : M (t F) A := fun s =>
  match m (fl s) with
  | Ret (a, f) => Ret (a, set_fl f s) | Panic => Panic | Fault => Fault | Diverge => Diverge
  end.
Definition on_env {A} (m : M (env F) A) : M (t F) A := on_fl (inN m).
Definition on_vm {A} (m : M (Vmm.t F) A) : M (t F) A := fun s =>
  let e := fenv (fl s) in
  match m (Vmm.set_vmem (vmem e) (Vmm.set_hp (fsys e) (vm s))) with
  | Ret (a, v) =>
      let f := fl s in
      Ret (a, mk (File.mk (mk_env (inodes e) (Vmm.hp v) (Vmm.vmem v)) (boot f) (vdevs f) (files f) (filesp f)) v (mm s))
  | Panic => Panic | Fault => Fault | Diverge => Diverge
  end.

Definition alloc (n : Z) : M (t F) Z := on_env (on_heap (kmalloc n)).
Definition release (p : Z) : M (t F) unit := on_env (on_heap (kfree p)).

(** The status and the buffer. *)
Definition copy_path (from : Z) : M (t F) (Z * Z) :=
  s ← get;
  buffer ← alloc (FS_MAX_FPATH_LEN + 1);
  if buffer =? 0 then mret (- E_NO_MEM, 0) else
  ok ← on_vm (Vmm.copy_string (mm s) buffer from (FS_MAX_FPATH_LEN + 1));
  if negb ok then release buffer;; mret (- E_INVAL, 0) else mret (0, buffer).

Definition sysfile_open (path_ open_flags : Z) : M (t F) Z :=
  p ← copy_path path_;
  if negb (p.1 =? 0) then mret p.1 else
  ret ← on_fl (file_open p.2 open_flags);
  release p.2;; mret ret.

Definition sysfile_close (fd : Z) : M (t F) Z := on_fl (file_close fd).

(** The loop of [sysfile_read]: [ret] of the last round and [copied].  Every
    round that goes on has made [len] smaller. *)
Fixpoint read_loop (fuel : nat) (fd buffer base len copied : Z) : M (t F) (Z * Z) :=
  match fuel with
  | O => diverge
  | S fuel =>
      if len =? 0 then mret (0, copied) else
      let alen := if len <? IOBUF_SIZE then len else IOBUF_SIZE in
      r ← on_fl (file_read fd buffer alen);
      let ret := r.1 in
      let alen := r.2 in
      x ← (if negb (alen =? 0) then
             s ← get;
             ok ← on_vm (Vmm.copy_to_user (mm s) base buffer alen);
             if ok : bool then assert_ (alen <=? len);; mret (ret, u32 (base + alen), len - alen, u32 (copied + alen))
             else mret (if ret =? 0 then - E_INVAL else ret, base, len, copied)
           else mret (ret, base, len, copied));
      let '(ret, base, len, copied) := x in
      if negb (ret =? 0) || (alen =? 0) then mret (ret, copied) else read_loop fuel fd buffer base len copied
  end.

(** What both transfers return. *)
Definition transfer_result (r : Z * Z) : Z := if negb (r.2 =? 0) then s32 r.2 else r.1.

Definition sysfile_read (fd base len : Z) : M (t F) Z :=
  if len =? 0 then mret 0 else
  ok ← on_fl (file_testfd fd true false);
  if negb ok then mret (- E_INVAL) else
  buffer ← alloc IOBUF_SIZE;
  if buffer =? 0 then mret (- E_NO_MEM) else
  r ← read_loop (S (Z.to_nat len)) fd buffer base len 0;
  release buffer;;
  mret (transfer_result r).

Fixpoint write_loop (fuel : nat) (fd buffer base len copied : Z) : M (t F) (Z * Z) :=
  match fuel with
  | O => diverge
  | S fuel =>
      if len =? 0 then mret (0, copied) else
      let alen := if len <? IOBUF_SIZE then len else IOBUF_SIZE in
      s ← get;
      ok ← on_vm (Vmm.copy_from_user (mm s) buffer base alen false);
      if negb ok then mret (- E_INVAL, copied) else
      r ← on_fl (file_write fd buffer alen);
      let ret := r.1 in
      let alen := r.2 in
      x ← (if negb (alen =? 0) then assert_ (alen <=? len);; mret (u32 (base + alen), len - alen, u32 (copied + alen))
           else mret (base, len, copied));
      let '(base, len, copied) := x in
      if negb (ret =? 0) || (alen =? 0) then mret (ret, copied) else write_loop fuel fd buffer base len copied
  end.

Definition sysfile_write (fd base len : Z) : M (t F) Z :=
  if len =? 0 then mret 0 else
  ok ← on_fl (file_testfd fd false true);
  if negb ok then mret (- E_INVAL) else
  buffer ← alloc IOBUF_SIZE;
  if buffer =? 0 then mret (- E_NO_MEM) else
  r ← write_loop (S (Z.to_nat len)) fd buffer base len 0;
  release buffer;;
  mret (transfer_result r).

Definition sysfile_seek (fd pos whence : Z) : M (t F) Z := on_fl (file_seek fd pos whence).

Definition stat_bytes (x : stat) : list Z :=
  le_bytes 4 (st_mode x) ++ le_bytes 4 (st_nlinks x) ++ le_bytes 4 (st_blocks x) ++ le_bytes 4 (st_size x).

(** [local] is the address of the local [struct stat]. *)
Definition sysfile_fstat (local fd stat_ : Z) : M (t F) Z :=
  r ← on_fl (file_fstat fd);
  if negb (r.1 =? 0) then mret r.1 else
  on_env (on_mem (SfsOps.store_bytes local (stat_bytes r.2)));;
  s ← get;
  ok ← on_vm (Vmm.copy_to_user (mm s) stat_ local sizeof_stat);
  mret (if ok : bool then 0 else - E_INVAL).

Definition sysfile_fsync (fd : Z) : M (t F) Z := on_fl (file_fsync fd).

Definition sysfile_chdir (path_ : Z) : M (t F) Z :=
  p ← copy_path path_;
  if negb (p.1 =? 0) then mret p.1 else
  ret ← on_fl (inV (vfs_chdir p.2));
  release p.2;; mret ret.

(** [sysfile_link] and [sysfile_rename]: [op] is the call of the VFS. *)
Definition two_paths (op : Z -> Z -> M (t F) Z) (path1 path2 : Z) : M (t F) Z :=
  p ← copy_path path1;
  if negb (p.1 =? 0) then mret p.1 else
  q ← copy_path path2;
  if negb (q.1 =? 0) then release p.2;; mret q.1 else
  ret ← op p.2 q.2;
  release p.2;; release q.2;; mret ret.
Definition sysfile_link : Z -> Z -> M (t F) Z := two_paths (fun _ _ => on_fl (inV vfs_unimplemented)).
Definition sysfile_rename : Z -> Z -> M (t F) Z := two_paths (fun _ _ => on_fl (inV vfs_unimplemented)).
Definition sysfile_unlink (path_ : Z) : M (t F) Z :=
  p ← copy_path path_;
  if negb (p.1 =? 0) then mret p.1 else
  ret ← on_fl (inV vfs_unimplemented);
  release p.2;; mret ret.

(** [local] is the address of a local of [vfs_getcwd]. *)
Definition sysfile_getcwd (local buf len : Z) : M (t F) Z :=
  if len =? 0 then mret (- E_INVAL) else
  s ← get;
  ok ← on_vm (Vmm.user_mem_check (mm s) buf len true);
  if ok : bool then r ← on_fl (inV (vfs_getcwd local (iobuf_init buf len 0))); mret r.1
  else mret (- E_INVAL).

(** The field [offset] of a [struct dirent], at its beginning. *)
Definition load_offset (p : Z) : M (t F) Z := b ← on_env (on_mem (load_bytes 4 p)); mret (s32 (le_val b)).

Definition sysfile_getdirentry (fd direntp_ : Z) : M (t F) Z :=
  direntp ← alloc sizeof_dirent;
  if direntp =? 0 then mret (- E_NO_MEM) else
  s ← get;
  ok ← on_vm (Vmm.copy_from_user (mm s) direntp direntp_ 4 true);
  ret ← (if negb ok then mret (- E_INVAL) else
    off ← load_offset direntp;
    r ← on_fl (file_getdirentry fd (direntp + 4) off);
    on_env (on_mem (SfsOps.store_bytes direntp (le_bytes 4 (u32 r.2))));;
    if negb (r.1 =? 0) then mret r.1 else
    s ← get;
    ok ← on_vm (Vmm.copy_to_user (mm s) direntp_ direntp sizeof_dirent);
    mret (if ok : bool then 0 else - E_INVAL));
  release direntp;; mret ret.

Definition sysfile_dup (fd1 fd2 : Z) : M (t F) Z := on_fl (file_dup fd1 fd2).
Definition sysfile_pipe (fd_store : Z) : M (t F) Z := mret (- E_UNIMP).
Definition sysfile_mkfifo (name open_flags : Z) : M (t F) Z := mret (- E_UNIMP).

End Sysfile.
End Sysfile.
