(* ===== verification/SysfileSpec.v ===== *)
(** The transfers of sysfile.c against what an open file promises: a stream of
    bytes with a position.  [SysfileRead] shows that files of the on-disk file
    system are such streams. *)

From S2P Require Import Prelude Bytes Mem Strings StringsSpec Heap Iobuf Paging Vmm VmmSpec Vfs File FileSpec SfsOps Sysfile.

Module SysfileSpec.
Import Strings.Strings StringsSpec.StringsSpec Iobuf.Iobuf Vfs.Vfs File.File FileSpec.FileSpec Sysfile.


Section Transfer.
  Context {F : Type} `{FsOps F} `{Heap F}.

Definition set_mem (m : mem) (s : File.t F) : File.t F :=
  set_env (mk_env (inodes (fenv s)) (fsys (fenv s)) m) s.
Definition memory (s : File.t F) : mem := vmem (fenv s).

(** The descriptor [fd] reads the bytes [content]; [R p s] says that it is at the
    position [p] in the state [s].  A read moves on by what it gives and touches
    nothing of memory but the buffer. *)
Class Stream (fd : Z) (R : Z -> File.t F -> Prop) (content : list Z) : Prop := {
  st_u8 : Forall is_u8 content;
  st_test p s : R p s -> file_testfd fd true false s = Ret (true, s);
  st_read p s buf n : R p s -> 0 <= p -> 0 < n <= IOBUF_SIZE -> p + n < 0x80000000 -> 0 <= buf -> buf + n < 0x100000000 ->
    allocated (memory s) buf (Z.to_nat n) ->
    let l := slice (Z.to_nat p) (Z.to_nat n) content in
    exists s', file_read fd buf n s = Ret ((0, Z.of_nat (length l)), s') /\ R (p + Z.of_nat (length l)) s' /\
      memory s' = write_bytes (memory s) buf l;
  st_mem p s m : R p s -> R p (set_mem m s)
}.

(** ** Copying to the user *)

(** The range is in areas of the user that can be written. *)
Definition user_range (A : list Vmm.vma_struct) (base len : Z) : Prop :=
  Paging.USERBASE <= base /\ base + len <= Paging.USERTOP /\ forall a, base <= a < base + len -> VmmSpec.allowed A true a.

Lemma user_range_sub A base len base' len' :
  user_range A base len -> base <= base' -> base' + len' <= base + len -> 0 <= len' -> user_range A base' len'.
Proof. intros (Hb & Ht & Hall) H1' H2' H3'. split; [lia|]. split; [lia|]. intros a Ha. apply Hall. lia. Qed.

Lemma copy_to_user_eq (s : t F) m A base p l :
  VmmSpec.mm_ok (vm s) (mm s) m A -> user_range A base (Z.of_nat (length l)) -> (0 < length l)%nat ->
  bytes (memory (fl s)) p l -> Forall is_u8 l -> allocated (memory (fl s)) base (length l) -> disjoint p (length l) base (length l) ->
  exists s' m', on_vm (Vmm.copy_to_user (mm s) base p (Z.of_nat (length l))) s = Ret (true, s') /\
    fl s' = set_mem (write_bytes (memory (fl s)) base l) (fl s) /\ mm s' = mm s /\ VmmSpec.mm_ok (vm s') (mm s) m' A.
Proof.
  intros Hmm (Hb & Ht & Hall) Hpos Hby Hu Ha Hd. unfold on_vm.
  set (v := Vmm.set_vmem _ _). assert (Hv : VmmSpec.mm_ok v (mm s) m A) by (by apply (VmmSpec.mm_ok_same (vm s))).
  unfold Paging.USERBASE, Paging.USERTOP in *.
  destruct (VmmSpec.user_mem_check_spec v (mm s) m A base (Z.of_nat (length l)) true Hv) as (b & v' & m' & Hc & Hok' & Hv' & Hiff); [width|width|].
  assert (Hbt : b = true) by (apply Hiff; unfold Paging.USERBASE, Paging.USERTOP; split_and!; [lia..|done]). subst b.
  unfold Vmm.copy_to_user. rewrite (bind_Ret _ _ _ _ _ Hc). cbn [negb].
  assert (Hcp : memcpy base p (Z.of_nat (length l)) (Vmm.vmem v') = Ret (base, write_bytes (memory (fl s)) base l)).
  { assert (Hvm : Vmm.vmem v' = memory (fl s)) by (rewrite Hv'; done).
    unfold memcpy. rewrite Nat2Z.id, Hvm. unfold mbind, M_bind. rewrite copy_up_eq; try done. unfold disjoint in Hd. lia. }
  assert (Hon : Vmm.on_mem (memcpy base p (Z.of_nat (length l))) v' = Ret (base, Vmm.set_vmem (write_bytes (memory (fl s)) base l) v'))
    by (unfold Vmm.on_mem; by rewrite Hcp).
  rewrite (bind_Ret _ _ _ _ _ Hon). unfold mret at 1, M_ret at 1.
  eexists _, m'. split; [done|]. cbn [fl mm vm]. split; [|split; [done|]].
  - unfold set_mem, set_env. rewrite Hv'. done.
  - by apply (VmmSpec.mm_ok_same v').
Qed.

(** ** Reading *)

Lemma slice_step p a n (l : list Z) :
  (a <= n)%nat -> slice p n l = slice p a l ++ slice (p + length (slice p a l)) (n - length (slice p a l)) l.
Proof.
  intros Ha. unfold slice. rewrite length_take, length_drop. destruct (decide (a <= length l - p)%nat) as [Hle|Hgt].
  - rewrite Nat.min_l by lia. rewrite <- drop_drop. set (d := drop p l).
    rewrite <- (take_drop a d) at 1. rewrite take_app, take_take, Nat.min_r by lia. f_equal. f_equal. rewrite length_take. unfold d. rewrite length_drop. lia.
  - rewrite Nat.min_r by lia. rewrite (drop_ge l (p + (length l - p))) by lia. rewrite take_nil, app_nil_r.
    rewrite !take_ge by (rewrite length_drop; lia). done.
Qed.

Section Read.
  Context (fd : Z) (R : Z -> File.t F -> Prop) (content : list Z) `{!Stream fd R content}.
  Context (A : list Vmm.vma_struct) (buffer : Z).
  Hypothesis Hbuf : 0 <= buffer /\ buffer + IOBUF_SIZE < 0x100000000.

(** The user's range and the buffer of the kernel are there and apart. *)
Record room (m : mem) (base len : Z) : Prop := {
  ro_range : user_range A base len;
  ro_user : allocated m base (Z.to_nat len);
  ro_kernel : allocated m buffer (Z.to_nat IOBUF_SIZE);
  ro_apart : disjoint buffer (Z.to_nat IOBUF_SIZE) base (Z.to_nat len)
}.

(** Only the two of them have changed. *)
Definition outside (m m' : mem) (base len : Z) : Prop :=
  forall i, i < base \/ base + len <= i -> i < buffer \/ buffer + IOBUF_SIZE <= i -> m' !! i = m !! i.

Lemma room_write m base len l1 l2 :
  room m base len -> (length l1 <= Z.to_nat IOBUF_SIZE)%nat -> (length l2 <= Z.to_nat len)%nat ->
  room (write_bytes (write_bytes m buffer l1) base l2) base len.
Proof using Type.
  intros [Hr Hu Hk Ha] Hl1 Hl2. assert (Hk1 : allocated m buffer (length l1)) by (eapply allocated_mono; [exact Hl1|done]).
  assert (Hu2 : allocated (write_bytes m buffer l1) base (length l2)).
  { apply allocated_same; [done|]. eapply allocated_mono; [exact Hl2|done]. }
  split; try done; by apply allocated_same; [|apply allocated_same].
Qed.

Lemma read_loop_eq fuel : forall (s : t F) m p base len copied,
  R p (fl s) -> VmmSpec.mm_ok (vm s) (mm s) m A -> room (memory (fl s)) base len -> 0 <= len -> (Z.to_nat len < fuel)%nat ->
  0 <= copied -> copied + len < 0x80000000 -> 0 <= p -> p + len < 0x80000000 ->
  let l := slice (Z.to_nat p) (Z.to_nat len) content in let k := Z.of_nat (length l) in
  exists s', read_loop fuel fd buffer base len copied s = Ret ((0, copied + k), s') /\ R (p + k) (fl s') /\
    bytes (memory (fl s')) base l /\ outside (memory (fl s)) (memory (fl s')) base len.
Proof using All.
  induction fuel as [|fuel IH]; intros s m p base len copied HR Hmm Hroom Hlen Hf Hc Hcl Hp Hpl; [lia|]. cbn [read_loop].
  destruct (Z.eqb_spec len 0) as [->|Hnz].
  { exists s. change (Z.to_nat 0) with 0%nat. unfold slice. rewrite take_0. cbn [length]. rewrite !Z.add_0_r. by split_and!. }
  set (alen := if len <? IOBUF_SIZE then len else IOBUF_SIZE).
  assert (Hal : 0 < alen <= IOBUF_SIZE /\ alen <= len) by (unfold alen, IOBUF_SIZE; destruct (Z.ltb_spec len 4096); lia).
  destruct Hroom as [Hrg Hua Hka Hap]. assert (Hroom : room (memory (fl s)) base len) by (by split).
  destruct (st_read p (fl s) buffer alen HR) as (f1 & Hrd & HR1 & Hm1); try lia.
  { eapply allocated_mono; [|exact Hka]. lia. }
  set (l1 := slice (Z.to_nat p) (Z.to_nat alen) content) in *. set (k1 := Z.of_nat (length l1)) in *.
  assert (Hk1 : 0 <= k1 <= alen) by (unfold k1, l1, slice; rewrite length_take; lia).
  assert (Hon : on_fl (file_read fd buffer alen) s = Ret ((0, k1), set_fl f1 s)) by (unfold on_fl; by rewrite Hrd).
  rewrite (bind_Ret _ _ _ _ _ Hon). cbn [fst snd]. assert (Hstep := slice_step (Z.to_nat p) (Z.to_nat alen) (Z.to_nat len) content ltac:(lia)).
  fold l1 in Hstep. destruct (Z.eqb_spec k1 0) as [Hk0|Hk0]; cbn [negb].
  { rewrite (bind_Ret _ _ (set_fl f1 s) (0, base, len, copied) (set_fl f1 s)) by done. rewrite orb_true_r.
    assert (Hl1 : l1 = []) by (apply nil_length_inv; lia). exists (set_fl f1 s).
    assert (Hnil : slice (Z.to_nat p) (Z.to_nat len) content = []).
    { apply nil_length_inv. assert (Hll : length l1 = 0%nat) by (by rewrite Hl1). unfold l1, slice in Hll. rewrite length_take in Hll.
      unfold slice. rewrite length_take. lia. }
    rewrite Hnil. cbn [length]. rewrite !Z.add_0_r. split; [done|]. rewrite Hk0, Z.add_0_r in HR1. split; [done|]. split; [done|].
    cbn [fl set_fl]. rewrite Hm1, Hl1. by intros i _ _. }
  set (s1 := set_fl f1 s).
  assert (Hlen1 : (length l1 <= Z.to_nat IOBUF_SIZE)%nat) by lia.
  destruct (copy_to_user_eq s1 m A base buffer l1) as (s2 & m2 & Hcopy & Hfl2 & Hmm2 & Hok2); try done.
  { eapply user_range_sub; [exact Hrg|lia..]. }
  { lia. }
  { cbn [fl s1 set_fl]. rewrite Hm1. apply bytes_write. }
  { unfold l1. apply slice_Forall. apply st_u8. }
  { cbn [fl s1 set_fl]. rewrite Hm1. apply allocated_same; [eapply allocated_mono; [exact Hlen1|done]|]. eapply allocated_mono; [|exact Hua]. lia. }
  { unfold disjoint in *. lia. }
  fold k1 in Hcopy.
  assert (Hmem2 : memory (fl s2) = write_bytes (write_bytes (memory (fl s)) buffer l1) base l1).
  { rewrite Hfl2. cbn [fl s1 set_fl]. unfold memory at 1. cbn [set_mem set_env fenv vmem]. by rewrite Hm1. }
  rewrite (bind_Ret _ _ s1 (0, u32 (base + k1), len - k1, u32 (copied + k1)) s2).
  2: { rewrite (bind_Ret _ _ s1 s1 s1) by done. change (mm s) with (mm s1). rewrite (bind_Ret _ _ _ _ _ Hcopy).
       replace (k1 <=? len) with true by lia. by rewrite (bind_Ret _ _ s2 tt s2). }
  replace (k1 =? 0) with false by lia. cbn [negb orb Z.eqb].
  destruct Hrg as (Hb1 & Hb2 & Hb3). unfold Paging.USERBASE, Paging.USERTOP in *.
  rewrite (u32_id (base + k1)), (u32_id (copied + k1)) by width.
  destruct (IH s2 m2 (p + k1) (base + k1) (len - k1) (copied + k1)) as (s' & Hl & HR' & Hby' & Hout'); try lia.
  { rewrite Hfl2. by apply st_mem. }
  { by rewrite Hmm2. }
  { rewrite Hmem2. destruct (room_write _ base len l1 l1 Hroom Hlen1 ltac:(lia)) as [Hrg' Hua' Hka' Hap'].
    split; [eapply user_range_sub; [exact Hrg'|lia..]| |done|unfold disjoint in *; lia].
    intros i Hi. apply Hua'. lia. }
  assert (Hl2 : slice (Z.to_nat (p + k1)) (Z.to_nat (len - k1)) content =
    slice (Z.to_nat p + length l1) (Z.to_nat len - length l1) content) by (f_equal; lia).
  rewrite Hl2 in Hby', HR', Hl. rewrite Hstep, length_app. set (l2 := slice (_ + _) _ content) in *.
  exists s'. split; [rewrite Hl; do 3 f_equal; lia|]. split; [replace (p + Z.of_nat (length l1 + length l2)) with (p + k1 + Z.of_nat (length l2)) by lia; done|].
  assert (Hkeep : forall i, i < base \/ base + len <= i -> i < buffer \/ buffer + IOBUF_SIZE <= i -> memory (fl s2) !! i = memory (fl s) !! i).
  { intros i Hi1 Hi2. rewrite Hmem2. rewrite !write_bytes_out; [done|lia|lia]. }
  split.
  - apply bytes_app. fold k1. split; [|exact Hby'].
    assert (Hb0 : bytes (memory (fl s2)) base l1) by (rewrite Hmem2; apply bytes_write).
    apply bytes_lookup. intros i b Hi. assert (Hlt := lookup_lt_Some _ _ _ Hi).
    rewrite Hout'; [by apply (proj1 (bytes_lookup _ _ _) Hb0)|lia|]. unfold disjoint in Hap. lia.
  - intros i Hi1 Hi2. rewrite <- Hkeep by done. apply Hout'; lia.
Qed.

End Read.

End Transfer.
End SysfileSpec.
