(* ===== verification/SysfileRead.v ===== *)
(** The read system call on a file of the on-disk file system: the system call,
    the check of the user's memory, the descriptor table, the VFS, the operation
    table and the file system together. *)

From S2P Require Import Prelude Bytes Mem Heap Bitmap Iobuf Proc ProcSpec Paging Console Vmm VmmSpec Vfs File FileSpec.
From S2P Require Import Sfs SfsSpec SfsMap SfsOps SfsFile SfsIo SfsSync Kfs Sysfile SysfileSpec.

Module SysfileRead.
Import Iobuf.Iobuf Vfs.Vfs File.File FileSpec.FileSpec Sfs SfsSpec SfsMap SfsOps SfsFile Sysfile SysfileSpec.

Section ReadFile.
  Context {D H : Type} `{DiskLaws D} `{Heap H}.
  Context (others : M Console.con unit) (patience : nat) (stdin_wait dotdot : Z).

#[local] Instance ops : FsOps (Kfs.kfs D H) := Kfs.kernel_fs others patience stdin_wait dotdot.

Let fst_ := File.t (Kfs.kfs D H).

(** The state of the on-disk file system. *)
Definition sfs_of (s : fst_) : Sfs.t D H := Kfs.sf (fsys (fenv s)).

(** The inode [n] is that of the regular file [si] of the file system [k]. *)
Record regular (k : Sfs.t D H) (n : Z) (si : sfs_inode) : Prop := {
  re_fs : fs_ok k;
  re_sin : sins k !! n = Some si;
  re_type : type (din si) = SFS_TYPE_FILE;
  re_size : size_ok (din si)
}.

(** The descriptor [i] is open for reading on [n] at [p]; the file system is [k]
    but for its block buffer. *)
Record reading (i : nat) (n : Z) (si : sfs_inode) (k : Sfs.t D H) (p : Z) (s : fst_) : Prop := {
  rd_inv : inv s;
  rd_open : exists f x, current s f /\ opened s f (Z.of_nat i) i x /\ readable x = true /\ pos x = p /\ node x = n;
  rd_node : exists j, inodes (fenv s) !! n = Some j /\ is_device j = false;
  rd_sfs : exists y, is_block y /\ sfs_of s = set_buffer y k;
  rd_pos : 0 <= p <= size (din si)
}.

(** The bytes of the file. *)
Definition content (k : Sfs.t D H) (si : sfs_inode) : list Z := take (Z.to_nat (size (din si))) (data k (din si)).

Lemma inv_env (s : fst_) e' : inv s -> inodes e' = inodes (fenv s) -> inv (set_env e' s).
Proof.
  intros [Hl He Hi Hp] Hn. split; cbn [files set_env fenv]; try done.
  - intros a f i x Hf Hx. destruct (He a f i x Hf Hx) as [Hfd Hst]. split; [done|]. by rewrite Hn.
  - intros n j. rewrite Hn. apply Hi.
  - intros a f. rewrite Hn. apply Hp.
Qed.

Lemma slice_take off n m (l : list Z) : slice off n (take m l) = slice off (Nat.min n (m - off)) l.
Proof. unfold slice. by rewrite skipn_firstn_comm, take_take. Qed.

Lemma content_slice k si p n :
  0 <= p -> 0 <= n ->
  slice (Z.to_nat p) (Z.to_nat n) (content k si) = slice (Z.to_nat p) (Z.to_nat (SfsIo.readable (din si) p n)) (data k (din si)).
Proof.
  intros Hp Hn. unfold content. rewrite slice_take. f_equal. unfold SfsIo.readable. lia.
Qed.

Lemma set_buffer_twice y y' (k : Sfs.t D H) : set_buffer y' (set_buffer y k) = set_buffer y' k.
Proof. done. Qed.

Lemma regular_buffer k n si y : is_block y -> regular k n si -> regular (set_buffer y k) n si.
Proof.
  intros Hy [Hf Hn Ht Hs]. split; try done.
  apply (changed_ok k n si (set_buffer y k) (din si) (dirty si) Hf Hn).
  split; [by rewrite set_din_id, insert_id| | |by apply (frame_mono _ _ []); [set_solver|apply frame_buffer]|auto].
  - apply buffer_ok; [apply Hf|done].
  - by apply (file_frame k (set_buffer y k) (din si) [] (fs_file _ Hf n si Hn) (frame_buffer _ _)); set_solver.
Qed.

(** The table of a regular file. *)
Lemma table_of_file k n si j (e : env (Kfs.kfs D H)) :
  regular k n si -> Kfs.sf (fsys e) = k -> inodes e !! n = Some j -> is_device j = false -> Kfs.table_of n e = Ret (Kfs.FileOps, e).
Proof.
  intros [_ Hn Ht _] Hk Hj Hd. subst k. unfold Kfs.table_of. rewrite (bind_Ret _ _ _ _ _ (load_inode_eq e n j Hj)), Hd.
  assert (Hs : Kfs.on_sfs (s ← on_heap (load_sin n); sfs_get_ops (type (din s))) e = Ret (false, e)).
  { unfold Kfs.on_sfs. set (e0 := mk_env _ _ _).
    assert (Hl : on_heap (load_sin n) e0 = Ret (si, e0)) by (unfold on_heap; cbn [fsys e0]; by rewrite (load_sin_eq _ _ _ Hn)).
    rewrite (bind_Ret _ _ _ _ _ Hl). unfold sfs_get_ops. rewrite Ht. cbn [SFS_TYPE_FILE SFS_TYPE_DIR Z.eqb Pos.eqb].
    unfold mret, M_ret. by destruct e as [? [] ?]. }
  by rewrite (bind_Ret _ _ _ _ _ Hs).
Qed.

(** Fewer than two whole blocks are a run. *)
Lemma run_short (k : Sfs.t D H) d offset n : 0 <= n <= 4096 -> SfsIo.run k d (SfsIo.first_whole offset) (SfsIo.whole offset (offset + n)).
Proof.
  intros Hn j Hj. unfold SfsIo.whole, SfsIo.first_whole in Hj. assert (Hj0 : j = 0) by width. rewrite Hj0, !Z.add_0_r. done.
Qed.

Lemma op_read_eq k n si (e : env (Kfs.kfs D H)) j iob :
  regular k n si -> Kfs.sf (fsys e) = k -> inodes e !! n = Some j -> is_device j = false ->
  iob_ok (vmem e) iob -> 0 <= io_offset iob <= size (din si) -> io_resid iob <= 4096 ->
  let m := SfsIo.readable (din si) (io_offset iob) (io_resid iob) in
  exists y, is_block y /\ op_read n iob e = Ret ((0, advanced iob m), mk_env (inodes e) (Kfs.mk (set_buffer y k) (Kfs.drv (fsys e)))
    (write_bytes (vmem e) (io_base iob) (slice (Z.to_nat (io_offset iob)) (Z.to_nat m) (data k (din si))))).
Proof.
  intros Hre Hk Hj Hd Hiob Hoff Hres m. destruct Hre as [Hf Hn Ht Hs].
  assert (Hsb := SfsIo.size_blocks _ Hs). assert (Hbl := fo_blocks _ _ (fs_file _ Hf n si Hn)).
  set (e0 := mk_env (inodes e) k (vmem e)).
  destruct (SfsIo.sfs_read_eq e0 n si iob) as (y & Hy & Hr); try done.
  - rewrite Ht. done.
  - unfold SFS_MAX_FILE_SIZE. lia.
  - lia.
  - apply run_short. unfold SfsIo.readable. destruct (iob_resid _ _ Hiob). lia.
  - exists y. split; [done|]. cbn [op_read ops Kfs.kernel_fs]. unfold Kfs.by_table.
    assert (Htab : Kfs.table_of n e = Ret (Kfs.FileOps, e)) by (by apply (table_of_file k n si j)).
    rewrite (bind_Ret _ _ _ _ _ Htab). unfold Kfs.on_sfs. rewrite Hk. fold e0. rewrite Hr. done.
Qed.

Lemma has_read k n si j (e : env (Kfs.kfs D H)) :
  regular k n si -> Kfs.sf (fsys e) = k -> inodes e !! n = Some j -> is_device j = false ->
  has_op (FsOps := ops) VRead n e = Ret (true, e).
Proof.
  intros Hre Hk Hj Hd. cbn [has_op ops Kfs.kernel_fs].
  by rewrite (bind_Ret _ _ _ _ _ (table_of_file k n si j e Hre Hk Hj Hd)).
Qed.

(** ** A regular file is a stream *)

Section Instance_.
  Context (i : nat) (n : Z) (si : sfs_inode) (k : Sfs.t D H).
  Hypothesis Hre : regular k n si.

Lemma reading_test p (s : fst_) : reading i n si k p s -> file_testfd (Z.of_nat i) true false s = Ret (true, s).
Proof using Type.
  intros [Hinv (f & x & Hcur & Hop & Hrd & _) _ _ _]. unfold file_testfd.
  destruct (fd2file_spec s f (Z.of_nat i) Hinv Hcur) as [(i' & x' & Hop' & Hfd)|[_ Hno]]; [|by destruct (Hno i x)].
  rewrite (bind_Ret _ _ _ _ _ Hfd). assert (i' = i) as -> by (destruct Hop' as (Hi' & _); lia).
  destruct Hop as (_ & Hx & _), Hcur as (_ & Hf & _).
  rewrite (bind_Ret _ _ _ _ _ (load_file_eq s _ f i x Hf Hx)). by rewrite Hrd.
Qed.

Lemma reading_mem p (s : fst_) m : reading i n si k p s -> reading i n si k p (set_mem m s).
Proof using Type. intros [Hinv Hop Hn Hk Hp]. split; try done. by apply inv_env. Qed.

(** The state after the read of [c] bytes. *)
Lemma reading_moved p (s : fst_) e' c y f x :
  reading i n si k p s -> current s f -> opened s f (Z.of_nat i) i x -> readable x = true -> node x = n ->
  inodes e' = inodes (fenv s) -> is_block y -> Kfs.sf (fsys e') = set_buffer y k -> 0 <= c <= size (din si) ->
  reading i n si k c (set_env e' (set_entry (filesp s) i (with_pos c x) s)).
Proof using Type.
  intros Hrd Hcur Hop Hr Hnx He Hy Hk Hc. destruct Hcur as (Hf0 & Hf & Hfc). destruct Hop as (_ & Hx & Hst).
  assert (Hfiles := set_entry_files s (filesp s) f i (with_pos c x) Hf). split.
  - by apply (inv_same s (filesp s) f i x); [apply Hrd|..].
  - exists (with_entry f i (with_pos c x)), (with_pos c x).
    assert (Hfp : filesp (set_entry (filesp s) i (with_pos c x) s) = filesp s) by (unfold set_entry; by rewrite Hf).
    split; [|split; [|by split_and!]].
    + split; cbn [filesp files set_env]; rewrite ?Hfp; [done|]. split; [|done]. rewrite Hfiles. apply lookup_insert_eq.
    + split; [done|]. split; [by eapply entry_lookup|done].
  - cbn [fenv set_env]. rewrite He. by apply (rd_node _ _ _ _ _ _ Hrd).
  - exists y. split; [done|]. done.
  - done.
Qed.

Lemma reading_read p (s : fst_) buf m :
  reading i n si k p s -> 0 <= p -> 0 < m <= IOBUF_SIZE -> p + m < 0x80000000 -> 0 <= buf -> buf + m < 0x100000000 ->
  allocated (memory s) buf (Z.to_nat m) ->
  let l := slice (Z.to_nat p) (Z.to_nat m) (content k si) in
  exists s', file_read (Z.of_nat i) buf m s = Ret ((0, Z.of_nat (length l)), s') /\
    reading i n si k (p + Z.of_nat (length l)) s' /\ memory s' = write_bytes (memory s) buf l.
Proof using Hre.
  intros Hrd Hp Hm Hpm Hb Hbm Ha l. unfold IOBUF_SIZE in Hm. assert (Hrd0 := Hrd).
  destruct Hrd0 as [Hinv (f & x & Hcur & Hop & Hrb & Hpos & Hnode) (j & Hj & Hdv) (y & Hy & Hk) Hpsz].
  set (iob := iobuf_init buf m p).
  assert (Hiob : iob_ok (vmem (fenv s)) iob).
  { split; cbn [iob iobuf_init io_base io_resid io_len io_offset]; [lia|lia|width|done]. }
  assert (Hre1 := regular_buffer k n si y Hy Hre).
  destruct (op_read_eq (set_buffer y k) n si (fenv s) j iob Hre1 Hk Hj Hdv Hiob) as (y' & Hy' & Hr);
    [done|cbn [iob iobuf_init io_resid]; lia|].
  cbn [iob iobuf_init io_offset io_resid io_base] in Hr. fold iob in Hr.
  set (c := SfsIo.readable (din si) p m) in *. assert (Hc : 0 <= c <= m /\ p + c <= size (din si)) by (unfold c, SfsIo.readable; lia).
  assert (Hl : l = slice (Z.to_nat p) (Z.to_nat c) (data k (din si))) by (apply content_slice; lia).
  change (data (set_buffer y k) (din si)) with (data k (din si)) in Hr. rewrite <- Hl in Hr.
  rewrite set_buffer_twice in Hr. set (e' := mk_env _ _ _) in Hr.
  assert (Hlen : Z.of_nat (length l) = c).
  { assert (Hsz := SfsIo.size_blocks _ (re_size _ _ _ Hre)). assert (Hf := fs_file _ (re_fs _ _ _ Hre) n si (re_sin _ _ _ Hre)).
    assert (Hdl := length_data k (din si) (fs_disk _ (re_fs _ _ _ Hre)) Hf). rewrite Hl, length_slice; lia. }
  assert (Hused : iobuf_used (advanced iob c) = c).
  { rewrite (iobuf_used_advanced iob (vmem (fenv s)) c Hiob) by (cbn [iob iobuf_init io_resid]; lia). cbn [iob iobuf_init io_resid io_len]. lia. }
  assert (Hrw := rw_eq s f VRead op_read readable i x buf m (0, advanced iob c) (fenv s) e' Hinv Hcur Hop Hrb).
  rewrite Hpos, Hnode in Hrw. specialize (Hrw (has_read _ n si j _ Hre1 Hk Hj Hdv) eq_refl Hr). cbn [fst snd] in Hrw. rewrite Hused, s32_id in Hrw by width.
  eexists. rewrite Hlen. split; [exact Hrw|]. split; [|done].
  apply (reading_moved p s e' (p + c) y' f x); try done. lia.
Qed.

#[local] Instance file_stream : Stream (Z.of_nat i) (reading i n si k) (content k si).
Proof using Hre.
  split.
  - unfold content. apply Forall_take, SfsIo.data_u8; [apply Hre|by apply (fs_file _ (re_fs _ _ _ Hre) n si), Hre].
  - apply reading_test.
  - apply reading_read.
  - apply reading_mem.
Qed.

End Instance_.

(** ** The system call *)

Definition with_heap (h : H) (s : fst_) : fst_ :=
  set_env (mk_env (inodes (fenv s)) (Kfs.mk (set_heap h (sfs_of s)) (Kfs.drv (fsys (fenv s)))) (vmem (fenv s))) s.

Lemma regular_heap k n si h : regular k n si -> regular (set_heap h k) n si.
Proof.
  intros [Hf Hn Ht Hs]. split; try done. apply (SfsSync.same_fs_ok k); [done|destruct (fs_disk _ Hf); by split|].
  split; try done. intros m i Hm. exists (dirty i). by rewrite set_din_id.
Qed.

Lemma reading_heap i n si k p (s : fst_) h : reading i n si k p s -> reading i n si (set_heap h k) p (with_heap h s).
Proof.
  intros [Hinv Hop Hn (y & Hy & Hk) Hp]. split; try done; [by apply inv_env|].
  exists y. split; [done|]. unfold sfs_of. cbn [with_heap set_env fenv fsys Kfs.sf]. by rewrite Hk.
Qed.

Lemma call_alloc_eq (s : Sysfile.t (Kfs.kfs D H)) m p h : kmalloc m (heap (sfs_of (fl s))) = Ret (p, h) ->
  alloc m s = Ret (p, set_fl (with_heap h (fl s)) s).
Proof.
  intros Hk. unfold alloc, on_env, on_fl, inN, on_heap. cbn [kmalloc Kfs.kfs_heap sfs_heap]. unfold Kfs.on_sf, on_sheap.
  fold (sfs_of (fl s)). by rewrite Hk.
Qed.

Lemma call_release_eq (s : Sysfile.t (Kfs.kfs D H)) p h : kfree p (heap (sfs_of (fl s))) = Ret (tt, h) ->
  release p s = Ret (tt, set_fl (with_heap h (fl s)) s).
Proof.
  intros Hk. unfold release, on_env, on_fl, inN, on_heap. cbn [kfree Kfs.kfs_heap sfs_heap]. unfold Kfs.on_sf, on_sheap.
  fold (sfs_of (fl s)). by rewrite Hk.
Qed.

(** C30: The read system call on a regular file, through every layer below it.
    The call returns the number of bytes from the position of the descriptor to
    the end of the file, at most [len]; these bytes of the file are in the user's
    buffer; the position has moved by their number; the buffer it used is back
    in the heap; and no other byte of memory and no file has changed.  No assumption is made on where the blocks of the file lie: the call
    reads in pieces of one block. *)
Theorem read_call_correct (s : Sysfile.t (Kfs.kfs D H)) i n si k m A base len p buffer h1 h2 :
  regular k n si -> reading i n si k p (fl s) -> VmmSpec.mm_ok (vm s) (mm s) m A ->
  kmalloc IOBUF_SIZE (heap k) = Ret (buffer, h1) -> kfree buffer h1 = Ret (tt, h2) ->
  0 < buffer -> buffer + IOBUF_SIZE < 0x100000000 -> room A buffer (memory (fl s)) base len ->
  0 < len < 0x80000000 -> p + len < 0x80000000 ->
  let l := slice (Z.to_nat p) (Z.to_nat len) (content k si) in
  exists s', sysfile_read (Z.of_nat i) base len s = Ret (Z.of_nat (length l), s') /\
    reading i n si (set_heap h2 k) (p + Z.of_nat (length l)) (fl s') /\
    bytes (memory (fl s')) base l /\ outside buffer (memory (fl s)) (memory (fl s')) base len.
Proof.
  intros Hre Hrd Hmm Hka Hkf Hb0 Hb1 Hroom Hlen Hpl l.
  assert (Hheap : heap (sfs_of (fl s)) = heap k) by (destruct (rd_sfs _ _ _ _ _ _ Hrd) as (y & _ & ->); done).
  unfold sysfile_read. replace (len =? 0) with false by lia.
  assert (Ht : on_fl (file_testfd (Z.of_nat i) true false) s = Ret (true, s)).
  { unfold on_fl. rewrite (reading_test i n si k p _ Hrd). by destruct s. }
  rewrite (bind_Ret _ _ _ _ _ Ht). cbn [negb]. rewrite <- Hheap in Hka.
  rewrite (bind_Ret _ _ _ _ _ (call_alloc_eq s _ _ _ Hka)). replace (buffer =? 0) with false by lia.
  set (s1 := set_fl _ s). assert (Hrd1 := reading_heap i n si k p (fl s) h1 Hrd).
  assert (Hst := file_stream i n si (set_heap h1 k) (regular_heap k n si h1 Hre)).
  assert (Hp := rd_pos _ _ _ _ _ _ Hrd).
  destruct (read_loop_eq (Z.of_nat i) (reading i n si (set_heap h1 k)) (content (set_heap h1 k) si) A buffer
    ltac:(split; [lia|done]) (S (Z.to_nat len)) s1 m p base len 0) as (s2 & Hl & Hrd2 & Hby & Hout); try done; try lia.
  change (content (set_heap h1 k) si) with (content k si) in *. fold l in Hl, Hrd2, Hby.
  rewrite (bind_Ret _ _ _ _ _ Hl). assert (Hh2 : heap (sfs_of (fl s2)) = h1).
  { destruct (rd_sfs _ _ _ _ _ _ Hrd2) as (y & _ & ->). done. }
  rewrite <- Hh2 in Hkf. rewrite (bind_Ret _ _ _ _ _ (call_release_eq s2 buffer h2 Hkf)).
  exists (set_fl (with_heap h2 (fl s2)) s2). split.
  - assert (Hk : (length l <= Z.to_nat len)%nat) by (unfold l, slice; rewrite length_take; lia).
    unfold transfer_result. cbn [fst snd]. rewrite Z.add_0_l. unfold mret, M_ret. do 2 f_equal.
    destruct (Z.eqb_spec (Z.of_nat (length l)) 0); cbn [negb]; [lia|]. apply s32_id. width.
  - split; [|done]. apply (reading_heap _ _ _ _ _ _ h2) in Hrd2. done.
Qed.

End ReadFile.

(** ** An example: 20 bytes are asked for at offset 4 of a file of 10 bytes *)

Definition demo_k : Sfs.t RamDisk.t Bump.t := SfsFile.demo.
Definition demo_file : file := mk_file FD_OPENED true false 0 4 100 1.
Definition demo_files : files_struct :=
  mk_files 0 (demo_file :: fd_array_init 1 (replicate 144 (mk_file FD_CLOSED false false 0 0 0 5))) 1 1.
Definition demo_mem : mem := write_bytes (write_bytes ∅ 1 (zeros 4096)) 0x400000 (zeros 20).
Definition demo_drivers : Kfs.drivers :=
  Kfs.mk_drivers (Console.mk ProcSpec.ProcSpec.demo_ks [] [] true [] 0 0 [] 0 0 900 ∅) ∅ 0.
Definition demo_fl : File.t (Kfs.kfs RamDisk.t Bump.t) :=
  File.mk (mk_env {[100 := mk_inode 1 1 false 5]} (Kfs.mk demo_k demo_drivers) demo_mem) 0 [] {[1 := demo_files]} 1.
Definition demo_vm : Vmm.t (Kfs.kfs RamDisk.t Bump.t) :=
  Vmm.mk (Kfs.mk demo_k demo_drivers) VmmSpec.demo_pg {[2 := VmmSpec.demo_code; 3 := VmmSpec.demo_stack]}
    {[1 := VmmSpec.demo_mm]} 0 [] ∅ 0 ∅.
Definition demo_sys : Sysfile.t (Kfs.kfs RamDisk.t Bump.t) := Sysfile.mk demo_fl demo_vm 1.

Lemma demo_regular : regular demo_k 100 demo_sin.
Proof. split; [apply demo_fs_ok|done|done|by split]. Qed.

Lemma demo_reading : reading 0 100 demo_sin demo_k 4 demo_fl.
Proof.
  split.
  - split.
    + intros a f Hf. cbn [files demo_fl] in Hf. apply lookup_singleton_Some in Hf as [<- <-]. done.
    + intros a f i x Hf Hx. cbn [files demo_fl] in Hf. apply lookup_singleton_Some in Hf as [<- <-]. destruct i as [|i].
      * injection Hx as <-. done.
      * apply init_entry in Hx as (Hs & Hc & Hd). unfold entry_ok. rewrite Hs. split; [lia|done].
    + intros n j Hj. cbn [fenv inodes demo_fl] in Hj. apply lookup_singleton_Some in Hj as [<- <-]. by vm_compute.
    + intros a f Hf Hp. cbn [files demo_fl] in Hf. apply lookup_singleton_Some in Hf as [<- <-]. done.
  - by exists demo_files, demo_file.
  - by eexists.
  - exists (sfs_buffer demo_k). split; [apply demo_disk_ok|done].
  - simpl. lia.
Qed.

Lemma demo_mm_ok : VmmSpec.mm_ok demo_vm 1 VmmSpec.demo_mm [VmmSpec.demo_code; VmmSpec.demo_stack].
Proof.
  split; try done.
  - by repeat constructor.
  - by apply (bool_decide_unpack _).
  - repeat constructor. by unfold VmmSpec.before.
  - repeat constructor; done.
  - by left.
Qed.

Lemma read_demo_room : room [VmmSpec.demo_code; VmmSpec.demo_stack] 1 demo_mem 0x400000 20.
Proof.
  assert (Hl : length (zeros 4096) = Z.to_nat 4096) by (apply length_replicate).
  assert (Hu : length (zeros 20) = Z.to_nat 20) by (apply length_replicate). split.
  - split; [done|]. split; [done|]. intros a Ha. exists VmmSpec.demo_code. split; [apply elem_of_cons; by left|].
    split; [unfold Vmm.covers; simpl; lia|]. split; [done|]. intros _ Hst. by destruct Hst.
  - rewrite <- Hu. apply bytes_allocated, bytes_write.
  - unfold IOBUF_SIZE. rewrite <- Hl. apply bytes_allocated. apply bytes_write_disjoint; [unfold disjoint; lia|apply bytes_write].
  - unfold disjoint, IOBUF_SIZE. lia.
Qed.

Lemma read_call_correct_witness :
  exists s', @sysfile_read _ (ops (mret tt) 0 0 0) _ 0 0x400000 20 demo_sys = Ret (6, s') /\
    bytes (memory (fl s')) 0x400000 [5; 6; 7; 8; 9; 10].
Proof.
  destruct (read_call_correct (mret tt) 0 0 0 demo_sys 0 100 demo_sin demo_k VmmSpec.demo_mm [VmmSpec.demo_code; VmmSpec.demo_stack]
    0x400000 20 4 1 (Bump.mk 4 [1]) (Bump.mk 4 []) demo_regular demo_reading demo_mm_ok) as (s' & Hr & _ & Hb & _);
    [reflexivity|reflexivity|lia|done|apply read_demo_room|lia|lia|].
  assert (Hc : slice (Z.to_nat 4) (Z.to_nat 20) (content demo_k demo_sin) = [5; 6; 7; 8; 9; 10]) by reflexivity.
  rewrite Hc in *. exists s'. split; [exact Hr|exact Hb].
Defined.

End SysfileRead.
