(* ===== verification/SkewHeap.v ===== *)
(** Skew heaps (libs/skew_heap.h) and the random numbers (libs/rand.c).  An
    entry is linked to its parent and its children by address; a representation
    predicate ties the linked entries to a tree, on which the operations are
    those of a priority queue. *)

From S2P Require Import Prelude.

Module SkewHeap.

Definition NULL : Z := 0.
Record skew_heap_entry := mk_entry { parent : Z; left : Z; right : Z }.
Abbreviation heap := (gmap Z skew_heap_entry).

Definition load_entry (a : Z) : M heap skew_heap_entry := fun h =>
  match h !! a with Some e => Ret (e, h) | None => Fault end.
Definition put_entry (a : Z) (e : skew_heap_entry) : M heap unit :=
  load_entry a;; modify (fun h => <[a := e]> h).
Definition set_parent (a v : Z) : M heap unit := e ← load_entry a; put_entry a (mk_entry v (left e) (right e)).
Definition set_left (a v : Z) : M heap unit := e ← load_entry a; put_entry a (mk_entry (parent e) v (right e)).
Definition set_right (a v : Z) : M heap unit := e ← load_entry a; put_entry a (mk_entry (parent e) (left e) v).

Section SkewHeap.
  (** The comparison passed by the caller. *)
  Context (comp : Z -> Z -> Z).

Definition skew_heap_init (a : Z) : M heap unit := put_entry a (mk_entry NULL NULL NULL).

Fixpoint merge_rec (fuel : nat) (a b : Z) : M heap Z :=
  match fuel with
  | O => diverge
  | S fuel =>
      if a =? NULL then mret b else
      if b =? NULL then mret a else
      if comp a b =? -1 then
        e ← load_entry a;
        let r := left e in
        l ← merge_rec fuel (right e) b;
        set_left a l;; set_right a r;;
        when (negb (l =? NULL)) (set_parent l a);;
        mret a
      else
        e ← load_entry b;
        let r := left e in
        l ← merge_rec fuel a (right e);
        set_left b l;; set_right b r;;
        when (negb (l =? NULL)) (set_parent l b);;
        mret b
  end.
(** Every call takes an entry off the two heaps. *)
Definition skew_heap_merge (a b : Z) : M heap Z := h ← get; merge_rec (S (size h)) a b.

Definition skew_heap_insert (a b : Z) : M heap Z := skew_heap_init b;; skew_heap_merge a b.

Definition skew_heap_remove (a b : Z) : M heap Z :=
  e ← load_entry b;
  let p := parent e in
  rep ← skew_heap_merge (left e) (right e);
  when (negb (rep =? NULL)) (set_parent rep p);;
  if negb (p =? NULL) then
    f ← load_entry p;
    (if left f =? b then set_left p rep else set_right p rep);;
    mret a
  else mret rep.

(** ** Trees *)

Inductive tree := Leaf | Node (a : Z) (l r : tree).

Fixpoint nodes (t : tree) : list Z :=
  match t with Leaf => [] | Node a l r => a :: nodes l ++ nodes r end.

Definition root (t : tree) : Z := match t with Leaf => NULL | Node a _ _ => a end.

(** The entries of [t] are linked as [t], and its root has the parent [q]. *)
Fixpoint repr (h : heap) (q : Z) (t : tree) : Prop :=
  match t with
  | Leaf => True
  | Node a l r => a <> NULL /\ h !! a = Some (mk_entry q (root l) (root r)) /\ repr h a l /\ repr h a r
  end.

Fixpoint merge (t1 : tree) : tree -> tree :=
  match t1 with
  | Leaf => fun t2 => t2
  | Node a l1 r1 => fix inner t2 :=
      match t2 with
      | Leaf => Node a l1 r1
      | Node b l2 r2 => if comp a b =? -1 then Node a (merge r1 (Node b l2 r2)) l1 else Node b (inner r2) l2
      end
  end.

Fixpoint delete (b : Z) (t : tree) : tree :=
  match t with
  | Leaf => Leaf
  | Node x l r => if x =? b then merge l r else Node x (delete b l) (delete b r)
  end.

Lemma merge_Leaf t : merge t Leaf = t.
Proof. by destruct t. Qed.
Lemma merge_Node a l1 r1 b l2 r2 : merge (Node a l1 r1) (Node b l2 r2) =
  if comp a b =? -1 then Node a (merge r1 (Node b l2 r2)) l1 else Node b (merge (Node a l1 r1) r2) l2.
Proof. done. Qed.

Lemma merge_nodes t1 t2 : nodes (merge t1 t2) ≡ₚ nodes t1 ++ nodes t2.
Proof.
  revert t2. induction t1 as [|a l1 IHl r1 IHr]; intros t2; [done|].
  induction t2 as [|b l2 IHl2 r2 IHr2]; [by rewrite merge_Leaf, app_nil_r|].
  rewrite merge_Node. case_match; cbn [nodes].
  - rewrite IHr. cbn [nodes]. solve_Permutation.
  - rewrite IHr2. cbn [nodes]. solve_Permutation.
Qed.

Lemma root_in t : root t <> NULL -> root t ∈ nodes t.
Proof. destruct t; [done|]. intros _. left. Qed.

Lemma repr_frame h h' q t : repr h q t -> (forall x, x ∈ nodes t -> h' !! x = h !! x) -> repr h' q t.
Proof.
  revert q. induction t as [|a l IHl r IHr]; intros q Hr Hx; [done|].
  destruct Hr as (Ha & He & Hl & Hr). cbn [nodes] in Hx. cbn [repr].
  rewrite Hx by left. split_and!; [done|done|apply IHl|apply IHr]; try done; intros x Hi; apply Hx; right; set_solver.
Qed.

Lemma repr_null h q t : repr h q t -> NULL ∉ nodes t.
Proof.
  revert q. induction t as [|a l IHl r IHr]; intros q; cbn; [set_solver|]. intros (Ha & _ & Hl & Hr).
  specialize (IHl a Hl). specialize (IHr a Hr). set_solver.
Qed.

Lemma repr_root h q t : repr h q t -> (root t =? NULL) = match t with Leaf => true | _ => false end.
Proof. destruct t; [done|]. intros (Ha & _). cbn. lia. Qed.

(** Giving the root another parent. *)
Lemma repr_parent h q p t : repr h q t -> NoDup (nodes t) -> t <> Leaf ->
  exists h', set_parent (root t) p h = Ret (tt, h') /\ repr h' p t /\ (forall x, x <> root t -> h' !! x = h !! x).
Proof.
  destruct t as [|a l r]; [done|]. intros (Ha & He & Hl & Hr) [Hn Hd]%NoDup_cons _. cbn [root].
  eexists. split; [|split].
  - unfold set_parent, put_entry, load_entry. cbv [mbind M_bind]. rewrite He. cbn. rewrite He. reflexivity.
  - cbn [repr]. rewrite lookup_insert_eq. split_and!; [done|done| |];
      eapply repr_frame; try done; intros x Hx; apply lookup_insert_ne; set_solver.
  - intros x Hx. by apply lookup_insert_ne.
Qed.

(** ** Refinement *)

Ltac sizes := cbn [nodes length] in *; rewrite ?length_app in *; cbn [nodes length] in *; rewrite ?length_app in *; lia.

Lemma set_left_eq h a e v : h !! a = Some e -> set_left a v h = Ret (tt, <[a := mk_entry (parent e) v (right e)]> h).
Proof.
  intros He. assert (Hl : load_entry a h = Ret (e, h)) by (unfold load_entry; by rewrite He).
  unfold set_left, put_entry. by rewrite !(bind_Ret _ _ _ _ _ Hl).
Qed.
Lemma set_right_eq h a e v : h !! a = Some e -> set_right a v h = Ret (tt, <[a := mk_entry (parent e) (left e) v]> h).
Proof.
  intros He. assert (Hl : load_entry a h = Ret (e, h)) by (unfold load_entry; by rewrite He).
  unfold set_right, put_entry. by rewrite !(bind_Ret _ _ _ _ _ Hl).
Qed.

Lemma set_children_eq {B} h a e l r (k : M heap B) : h !! a = Some e ->
  (set_left a l;; set_right a r;; k) h = k (<[a := mk_entry (parent e) l r]> h).
Proof.
  intros He. rewrite (bind_Ret _ _ _ _ _ (set_left_eq h a e l He)).
  rewrite (bind_Ret _ _ _ _ _ (set_right_eq _ a _ r (lookup_insert_eq _ _ _))). by rewrite insert_insert_eq.
Qed.

(** Linking the merged heap [t] under [a], whose other child becomes [s]. *)
Lemma link_eq h a q s t p old_l old_r :
  h !! a = Some (mk_entry q old_l old_r) -> a <> NULL -> repr h a s -> repr h p t ->
  NoDup (a :: nodes t ++ nodes s) ->
  exists h', (set_left a (root t);; set_right a (root s);; when (negb (root t =? NULL)) (set_parent (root t) a);; mret a) h = Ret (a, h') /\
    repr h' q (Node a t s) /\ (forall x, x ∉ a :: nodes t -> h' !! x = h !! x).
Proof.
  intros He Ha Hs Ht [Hn Hd]%NoDup_cons. apply NoDup_app in Hd as (Hdt & Hts & Hds).
  set (h1 := <[a := mk_entry q (root t) (root s)]> h).
  assert (Hfr : forall x, x <> a -> h1 !! x = h !! x) by (intros x Hx; by apply lookup_insert_ne).
  assert (Ht1 : repr h1 p t) by (apply (repr_frame h); [done|]; intros x Hx; apply Hfr; set_solver).
  assert (Hs1 : repr h1 a s) by (apply (repr_frame h); [done|]; intros x Hx; apply Hfr; set_solver).
  assert (He1 : h1 !! a = Some (mk_entry q (root t) (root s))) by apply lookup_insert_eq.
  rewrite (set_children_eq h a _ _ _ _ He). cbn [parent]. fold h1.
  rewrite (repr_root h1 p t Ht1). destruct t as [|b tl tr]; cbn [negb when].
  - exists h1. split_and!; [done|done|]. intros x Hx. apply Hfr. set_solver.
  - destruct (repr_parent h1 p a (Node b tl tr) Ht1 Hdt ltac:(done)) as (h2 & Hp & Hr2 & Hf2).
    cbn [root] in *. rewrite (bind_Ret _ _ _ _ _ Hp). exists h2. split; [done|]. split.
    + split; [done|]. split; [|split; [exact Hr2|]].
      * rewrite Hf2; [done|]. set_solver.
      * apply (repr_frame h1); [done|]. intros x Hx. apply Hf2. set_solver.
    + intros x Hx. rewrite Hf2 by set_solver. apply Hfr. set_solver.
Qed.

Lemma NoDup_part (l1 l2 l : list Z) : l ≡ₚ l1 ++ l2 -> NoDup l -> NoDup l2.
Proof. intros -> Hd. by apply NoDup_app in Hd as (_ & _ & ?). Qed.

Lemma merge_rec_eq fuel h q1 q2 t1 t2 :
  repr h q1 t1 -> repr h q2 t2 -> NoDup (nodes t1 ++ nodes t2) ->
  (length (nodes t1) + length (nodes t2) < fuel)%nat ->
  exists h' q, merge_rec fuel (root t1) (root t2) h = Ret (root (merge t1 t2), h') /\ (q = q1 \/ q = q2) /\
    repr h' q (merge t1 t2) /\ (forall x, x ∉ nodes t1 ++ nodes t2 -> h' !! x = h !! x).
Proof.
  revert h q1 q2 t1 t2. induction fuel as [|fuel IH]; intros h q1 q2 t1 t2 Hr1 Hr2 Hd Hf; [lia|].
  cbn [merge_rec]. rewrite (repr_root h q1 t1 Hr1), (repr_root h q2 t2 Hr2).
  destruct t1 as [|a l1 r1]; [exists h, q2; split_and!; auto|].
  destruct t2 as [|b l2 r2]; [exists h, q1; split_and!; auto|].
  rewrite merge_Node. cbn [root]. pose proof Hr1 as (Ha & He1 & Hl1 & Hrr1). pose proof Hr2 as (Hb & He2 & Hl2 & Hrr2).
  destruct (comp a b =? -1).
  - unfold load_entry at 1. rewrite (bind_Ret _ _ h (mk_entry q1 (root l1) (root r1)) h) by by rewrite He1.
    cbn [left right]. change b with (root (Node b l2 r2)).
    destruct (IH h a q2 r1 (Node b l2 r2)) as (h1 & q & Hm & _ & Hr & Hx); [done|done| |sizes|].
    { eapply (NoDup_part (a :: nodes l1)); [|exact Hd]. cbn [nodes]. solve_Permutation. }
    rewrite (bind_Ret _ _ _ _ _ Hm).
    assert (Hd' : NoDup (a :: nodes (merge r1 (Node b l2 r2)) ++ nodes l1)).
    { eapply (NoDup_part []); [|exact Hd]. cbn [app]. rewrite merge_nodes. cbn [nodes]. solve_Permutation. }
    pose proof Hd as [Hna Hdr]%NoDup_cons.
    destruct (link_eq h1 a q1 l1 (merge r1 (Node b l2 r2)) q (root l1) (root r1)) as (h2 & Hl & Hr' & Hx'); try done.
    + rewrite Hx; [done|]. cbn [nodes] in Hna |- *. set_solver.
    + apply (repr_frame h); [done|]. intros x Hxl. apply Hx.
      apply NoDup_cons in Hd' as [_ Hd']. apply NoDup_app in Hd' as (_ & Hdis & _).
      intros Hin. apply (Hdis x); [by rewrite merge_nodes|done].
    + exists h2, q1. split_and!; [done|by left|done|]. intros x Hnx. rewrite Hx', Hx; [done|cbn [nodes] in *; set_solver|].
      rewrite merge_nodes. cbn [nodes] in *. set_solver.
  - unfold load_entry at 1. rewrite (bind_Ret _ _ h (mk_entry q2 (root l2) (root r2)) h) by by rewrite He2.
    cbn [left right]. change a with (root (Node a l1 r1)) at 1.
    destruct (IH h q1 b (Node a l1 r1) r2) as (h1 & q & Hm & _ & Hr & Hx); [done|done| |sizes|].
    { eapply (NoDup_part (b :: nodes l2)); [|exact Hd]. cbn [nodes]. solve_Permutation. }
    rewrite (bind_Ret _ _ _ _ _ Hm).
    assert (Hd' : NoDup (b :: nodes (merge (Node a l1 r1) r2) ++ nodes l2)).
    { eapply (NoDup_part []); [|exact Hd]. cbn [app]. rewrite merge_nodes. cbn [nodes]. solve_Permutation. }
    destruct (link_eq h1 b q2 l2 (merge (Node a l1 r1) r2) q (root l2) (root r2)) as (h2 & Hl & Hr' & Hx'); try done.
    + rewrite Hx; [done|]. rewrite <- merge_nodes. apply NoDup_cons in Hd' as [Hd' _]. set_solver.
    + apply (repr_frame h); [done|]. intros x Hxl. apply Hx.
      apply NoDup_cons in Hd' as [_ Hd']. apply NoDup_app in Hd' as (_ & Hdis & _).
      intros Hin. apply (Hdis x); [by rewrite merge_nodes|done].
    + exists h2, q2. split_and!; [done|by right|done|]. intros x Hnx. rewrite Hx', Hx; [done|cbn [nodes] in *; set_solver|].
      rewrite merge_nodes. cbn [nodes] in *. set_solver.
Qed.

Lemma nodes_size (h : heap) l : NoDup l -> (forall x, x ∈ l -> is_Some (h !! x)) -> (length l <= size h)%nat.
Proof.
  intros Hd Hl. rewrite <- (size_list_to_set (C := gset Z) l Hd), <- (size_dom (D := gset Z)). apply subseteq_size.
  intros x Hx. apply elem_of_dom, Hl. by apply elem_of_list_to_set in Hx.
Qed.

Lemma repr_some h q t x : repr h q t -> x ∈ nodes t -> is_Some (h !! x).
Proof.
  revert q. induction t as [|a l IHl r IHr]; intros q; [set_solver|]. intros (Ha & He & Hl & Hr).
  cbn [nodes]. intros [->|[Hx|Hx]%elem_of_app]%elem_of_cons; eauto.
Qed.

Lemma merge_eq h q1 q2 t1 t2 :
  repr h q1 t1 -> repr h q2 t2 -> NoDup (nodes t1 ++ nodes t2) ->
  exists h' q, skew_heap_merge (root t1) (root t2) h = Ret (root (merge t1 t2), h') /\ (q = q1 \/ q = q2) /\
    repr h' q (merge t1 t2) /\ (forall x, x ∉ nodes t1 ++ nodes t2 -> h' !! x = h !! x).
Proof.
  intros Hr1 Hr2 Hd. apply merge_rec_eq; try done. rewrite <- length_app.
  enough (length (nodes t1 ++ nodes t2) <= size h)%nat by lia. apply nodes_size; [done|].
  intros x [Hx|Hx]%elem_of_app; eauto using repr_some.
Qed.

(** *** Deletion *)

Lemma delete_out b t : b ∉ nodes t -> delete b t = t.
Proof.
  induction t as [|x l IHl r IHr]; [done|]. cbn. intros Hb. destruct (Z.eqb_spec x b) as [->|]; [set_solver|].
  rewrite IHl, IHr by set_solver. done.
Qed.

Lemma delete_root b t : root t <> b -> root (delete b t) = root t.
Proof. destruct t as [|x l r]; [done|]. cbn. intros Hx. by replace (x =? b) with false by lia. Qed.

(** The fields of the parent [p] with [rep] in place of [b]. *)
Definition replaced (b rep : Z) (e : skew_heap_entry) : skew_heap_entry :=
  if left e =? b then mk_entry (parent e) rep (right e) else mk_entry (parent e) (left e) rep.

(** Where [b] is in [t]: at the root, or below an entry [p] such that putting a
    heap in its place makes the tree without it. *)
Record hole (h : heap) (q : Z) (t : tree) (b p : Z) (l r : tree) : Prop := {
  ho_repr : repr h p (Node b l r);
  ho_nodup : NoDup (b :: nodes l ++ nodes r);
  ho_in : forall x, x ∈ nodes l ++ nodes r -> x ∈ nodes t;
  ho_at : (t = Node b l r /\ p = q) \/
    (p ∈ nodes t /\ p ∉ b :: nodes l ++ nodes r /\ root t <> b /\
     forall h2 e, repr h2 p (merge l r) -> h !! p = Some e -> h2 !! p = Some (replaced b (root (merge l r)) e) ->
       (forall x, x ∈ nodes t -> x <> p -> x ∉ b :: nodes l ++ nodes r -> h2 !! x = h !! x) ->
       repr h2 q (delete b t))
}.

(** A hole of a child is one of the whole tree. *)
Section Child.
  Context (h : heap) (q x b p : Z) (tl tr l r : tree).
  Hypothesis Hr : repr h q (Node x tl tr).
  Hypothesis Hd : NoDup (nodes (Node x tl tr)).
  Hypothesis Hxb : x <> b.

Lemma hole_left : b ∈ nodes tl -> hole h x tl b p l r -> hole h q (Node x tl tr) b p l r.
Proof using Hr Hd Hxb.
  intros Hb [Hpr Hpd Hpi Hpa]. pose proof Hd as [Hnx (Hdl & Hdis & Hdr)%NoDup_app]%NoDup_cons.
  destruct Hr as (Hx & He & Hrl & Hrr). assert (Hbr : b ∉ nodes tr) by auto.
  split; [done|done|cbn [nodes]; set_solver|right].
  assert (Hsub : forall y, y ∈ b :: nodes l ++ nodes r -> y ∈ nodes tl) by set_solver.
  destruct Hpa as [[-> ->]|(Hp & Hpn & Hrt & Hgo)].
  - split_and!; [left|set_solver|done|].
    intros h2 e Hm Hh He2 Hfr. rewrite Hh in He. injection He as ->.
    unfold replaced in He2. cbn [left parent right root] in He2. rewrite Z.eqb_refl in He2.
    cbn [delete]. replace (x =? b) with false by lia. rewrite Z.eqb_refl, (delete_out b tr Hbr).
    split; [done|]. split; [done|]. split; [done|]. apply (repr_frame h); [done|].
    intros y Hy. apply Hfr; [cbn [nodes]; set_solver|set_solver|]. intros Hin. by apply (Hdis y); [apply Hsub|].
  - assert (x <> p) by set_solver. split_and!; [cbn [nodes]; set_solver|done|done|].
    intros h2 e Hm Hh He2 Hfr. cbn [delete]. replace (x =? b) with false by lia. rewrite (delete_out b tr Hbr).
    split; [done|]. split; [rewrite delete_root by done; rewrite Hfr; [done|left|done|set_solver]|]. split.
    + apply (Hgo h2 e); try done. intros y Hy. apply Hfr. cbn [nodes]; set_solver.
    + apply (repr_frame h); [done|]. intros y Hy.
      apply Hfr; [cbn [nodes]; set_solver|intros ->; by apply (Hdis p)|]. intros Hin. by apply (Hdis y); [apply Hsub|].
Qed.

Lemma hole_right : b ∈ nodes tr -> hole h x tr b p l r -> hole h q (Node x tl tr) b p l r.
Proof using Hr Hd Hxb.
  intros Hb [Hpr Hpd Hpi Hpa]. pose proof Hd as [Hnx (Hdl & Hdis & Hdr)%NoDup_app]%NoDup_cons.
  pose proof (repr_null _ _ _ Hr) as Hnull. destruct Hr as (Hx & He & Hrl & Hrr).
  assert (Hbl : b ∉ nodes tl) by (intros Hin; by apply (Hdis b)).
  assert (Hrt : root tl <> b) by (intros <-; apply Hbl, root_in; cbn [nodes] in Hnull; set_solver).
  split; [done|done|cbn [nodes]; set_solver|right].
  assert (Hsub : forall y, y ∈ b :: nodes l ++ nodes r -> y ∈ nodes tr) by set_solver.
  destruct Hpa as [[-> ->]|(Hp & Hpn & Hrt' & Hgo)].
  - split_and!; [left|set_solver|done|].
    intros h2 e Hm Hh He2 Hfr. rewrite Hh in He. injection He as ->.
    unfold replaced in He2. cbn [left parent right root] in He2. replace (root tl =? b) with false in He2 by lia.
    cbn [delete]. replace (x =? b) with false by lia. rewrite Z.eqb_refl, (delete_out b tl Hbl).
    split; [done|]. split; [done|]. split; [|done]. apply (repr_frame h); [done|].
    intros y Hy. apply Hfr; [cbn [nodes]; set_solver|set_solver|]. intros Hin. by apply (Hdis y); [|apply Hsub].
  - assert (x <> p) by set_solver. split_and!; [cbn [nodes]; set_solver|done|done|].
    intros h2 e Hm Hh He2 Hfr. cbn [delete]. replace (x =? b) with false by lia. rewrite (delete_out b tl Hbl).
    split; [done|]. split; [rewrite delete_root by done; rewrite Hfr; [done|left|done|set_solver]|]. split.
    + apply (repr_frame h); [done|]. intros y Hy.
      apply Hfr; [cbn [nodes]; set_solver|intros ->; by apply (Hdis p)|]. intros Hin. by apply (Hdis y); [|apply Hsub].
    + apply (Hgo h2 e); try done. intros y Hy. apply Hfr. cbn [nodes]; set_solver.
Qed.
End Child.

Lemma find_hole h q t b : repr h q t -> NoDup (nodes t) -> b ∈ nodes t -> exists p l r, hole h q t b p l r.
Proof.
  revert q. induction t as [|x tl IHl tr IHr]; intros q Hr Hd Hb; [set_solver|].
  destruct (decide (x = b)) as [->|Hxb].
  { exists q, tl, tr. split; [done|done| |by left]. intros y Hy. cbn [nodes]. set_solver. }
  pose proof Hd as [Hnx (Hdl & Hdis & Hdr)%NoDup_app]%NoDup_cons. pose proof Hr as (_ & _ & Hrl & Hrr).
  cbn [nodes] in Hb. apply elem_of_cons in Hb as [?|[Hb|Hb]%elem_of_app]; [done| |].
  - destruct (IHl x Hrl Hdl Hb) as (p & l & r & Ho). exists p, l, r. by apply hole_left.
  - destruct (IHr x Hrr Hdr Hb) as (p & l & r & Ho). exists p, l, r. by apply hole_right.
Qed.

Lemma delete_nodes b t : NoDup (nodes t) -> b ∈ nodes t -> nodes t ≡ₚ b :: nodes (delete b t).
Proof.
  induction t as [|x l IHl r IHr]; cbn [nodes delete]; intros Hd Hb; [set_solver|].
  apply NoDup_cons in Hd as [Hnx (Hdl & Hdis & Hdr)%NoDup_app].
  destruct (Z.eqb_spec x b) as [->|Hxb]; [by rewrite merge_nodes|].
  apply elem_of_cons in Hb as [?|[Hb|Hb]%elem_of_app]; [done| |]; cbn [nodes].
  - rewrite (delete_out b r) by auto. rewrite (IHl Hdl Hb) at 1. solve_Permutation.
  - rewrite (delete_out b l) by (intros Hin; by apply (Hdis b)). rewrite (IHr Hdr Hb) at 1. solve_Permutation.
Qed.

Lemma remove_eq h t b : repr h NULL t -> NoDup (nodes t) -> b ∈ nodes t ->
  exists h', skew_heap_remove (root t) b h = Ret (root (delete b t), h') /\ repr h' NULL (delete b t) /\
    (forall x, x ∉ nodes t -> h' !! x = h !! x).
Proof.
  intros Hr Hd Hb. destruct (find_hole h NULL t b Hr Hd Hb) as (p & l & r & [Hpr Hpd Hpi Hpa]).
  pose proof Hpr as (Hb0 & He & Hl & Hrr). pose proof Hpd as [Hnb Hlr]%NoDup_cons.
  unfold skew_heap_remove. rewrite (bind_Ret _ _ h (mk_entry p (root l) (root r)) h) by (unfold load_entry; by rewrite He).
  cbn [parent left right]. destruct (merge_eq h b b l r Hl Hrr Hlr) as (h1 & q & Hm & _ & Hr1 & Hf1).
  rewrite (bind_Ret _ _ _ _ _ Hm).
  assert (Hp : exists h2, when (negb (root (merge l r) =? NULL)) (set_parent (root (merge l r)) p) h1 = Ret (tt, h2) /\
    repr h2 p (merge l r) /\ forall x, x ∉ nodes l ++ nodes r -> h2 !! x = h !! x).
  { rewrite (repr_root h1 q _ Hr1). destruct (merge l r) as [|c cl cr] eqn:Ec; cbn [negb when].
    { exists h1. split_and!; try done. }
    rewrite <- Ec in *. assert (Hne : merge l r <> Leaf) by (rewrite Ec; done).
    destruct (repr_parent h1 q p _ Hr1) as (h2 & Hs & Hr2 & Hf2); [by rewrite merge_nodes|done|].
    exists h2. split_and!; [done|done|]. intros x Hx. rewrite Hf2; [by apply Hf1|]. intros ->. apply Hx. rewrite <- merge_nodes.
    rewrite Ec. left. }
  destruct Hp as (h2 & Hs & Hr2 & Hf2). rewrite (bind_Ret _ _ _ _ _ Hs).
  destruct Hpa as [[-> ->]|(Hp & Hpn & Hrt & Hgo)].
  - cbn [delete root]. rewrite !Z.eqb_refl. cbn [negb]. exists h2. split_and!; [done|done|].
    intros x Hx. apply Hf2. cbn [nodes] in Hx. set_solver.
  - assert (p <> NULL) by (intros ->; by apply (repr_null _ _ _ Hr)). replace (p =? NULL) with false by lia. cbn [negb].
    destruct (repr_some h NULL t p Hr Hp) as [e Hhp].
    assert (Hh2 : h2 !! p = Some e) by (rewrite Hf2; [done|set_solver]).
    rewrite (bind_Ret _ _ h2 e h2) by (unfold load_entry; by rewrite Hh2).
    set (rep := root (merge l r)) in *. set (h3 := <[p := replaced b rep e]> h2).
    rewrite (bind_Ret _ _ h2 tt h3).
    2: { unfold h3, replaced. destruct (left e =? b); [by apply set_left_eq|by apply set_right_eq]. }
    rewrite (delete_root b t Hrt). exists h3. split_and!; [done| |].
    + apply (Hgo h3 e); try done; [|apply lookup_insert_eq|].
      * apply (repr_frame h2); [done|]. intros x Hx. apply lookup_insert_ne. intros <-. apply Hpn. right.
        by rewrite <- merge_nodes.
      * intros x Hx Hxp Hxn. unfold h3. rewrite lookup_insert_ne by done. apply Hf2. set_solver.
    + intros x Hx. unfold h3. rewrite lookup_insert_ne by set_solver. apply Hf2. set_solver.
Qed.

(** ** Priority queues *)

Section Order.
  (** What the comparison decides: which of two entries may be above. *)
  Context (key : Z -> Z).

Fixpoint ordered (t : tree) : Prop :=
  match t with
  | Leaf => True
  | Node a l r => (forall x, x ∈ nodes l ++ nodes r -> key a <= key x) /\ ordered l /\ ordered r
  end.

Lemma ordered_min t x : ordered t -> x ∈ nodes t -> key (root t) <= key x.
Proof. destruct t as [|a l r]; cbn; [set_solver|]. intros (Ha & _) [->|Hx]%elem_of_cons; [done|by apply Ha]. Qed.

Hypothesis comp_key : forall a b, if comp a b =? -1 then key a <= key b else key b <= key a.

Lemma merge_ordered t1 t2 : ordered t1 -> ordered t2 -> ordered (merge t1 t2).
Proof using comp_key.
  revert t2. induction t1 as [|a l1 IHl r1 IHr]; intros t2 H1; [done|].
  induction t2 as [|b l2 IHl2 r2 IHr2]; intros H2; [by rewrite merge_Leaf|].
  rewrite merge_Node. pose proof (comp_key a b) as Hk. pose proof H1 as (Ha & Hl1 & Hr1). pose proof H2 as (Hb & Hl2 & Hr2).
  destruct (comp a b =? -1); cbn [ordered].
  - split_and!; [|apply IHr|]; try done. intros x. rewrite merge_nodes, !elem_of_app.
    intros [[Hx|Hx]|Hx]; [apply Ha; set_solver| |apply Ha; set_solver].
    pose proof (ordered_min _ x H2 Hx). cbn [root] in *. lia.
  - split_and!; [|apply IHr2|]; try done. intros x. rewrite merge_nodes, !elem_of_app.
    intros [[Hx|Hx]|Hx]; [|apply Hb; set_solver|apply Hb; set_solver].
    pose proof (ordered_min _ x H1 Hx). cbn [root] in *. lia.
Qed.

Lemma delete_ordered b t : NoDup (nodes t) -> ordered t -> ordered (delete b t).
Proof using comp_key.
  induction t as [|x l IHl r IHr]; [done|]. intros Hd (Hx & Hl & Hr). cbn [delete].
  pose proof Hd as [Hnx (Hdl & Hdis & Hdr)%NoDup_app]%NoDup_cons.
  destruct (x =? b); [by apply merge_ordered|]. cbn [ordered]. split_and!; auto.
  assert (Hsub : forall t y, NoDup (nodes t) -> y ∈ nodes (delete b t) -> y ∈ nodes t).
  { intros t y Ht Hy. destruct (decide (b ∈ nodes t)) as [Hb|Hb]; [|by rewrite delete_out in Hy].
    rewrite (delete_nodes b t Ht Hb). by right. }
  intros y [Hy|Hy]%elem_of_app; apply Hx; apply elem_of_app; [left|right]; by apply Hsub.
Qed.

(** The entries [s] are in a heap with the root [a]. *)
Definition queue (h : heap) (a : Z) (s : gset Z) : Prop :=
  exists t, a = root t /\ repr h NULL t /\ NoDup (nodes t) /\ ordered t /\ s = list_to_set (nodes t).

Lemma insert_queue h a s b : queue h a s -> is_Some (h !! b) -> b <> NULL -> b ∉ s ->
  exists c h', skew_heap_insert a b h = Ret (c, h') /\ queue h' c ({[b]} ∪ s) /\
    (forall x, x ∉ {[b]} ∪ s -> h' !! x = h !! x).
Proof using comp_key.
  intros (t & -> & Hr & Hd & Ho & ->) [e He] Hb Hs.
  assert (Hbt : b ∉ nodes t) by set_solver. set (h1 := <[b := mk_entry NULL NULL NULL]> h).
  assert (Hi : skew_heap_init b h = Ret (tt, h1)).
  { unfold skew_heap_init, put_entry. rewrite (bind_Ret _ _ h e h); [done|]. unfold load_entry. by rewrite He. }
  unfold skew_heap_insert. rewrite (bind_Ret _ _ _ _ _ Hi). change b with (root (Node b Leaf Leaf)) at 1.
  assert (Hfr : forall x, x <> b -> h1 !! x = h !! x) by (intros x Hx; by apply lookup_insert_ne).
  assert (Hd1 : NoDup (nodes t ++ [b])) by (apply NoDup_app; split_and!; [done|set_solver|apply NoDup_singleton]).
  destruct (merge_eq h1 NULL NULL t (Node b Leaf Leaf)) as (h2 & q & Hm & Hq & Hr2 & Hf2); [| |done|].
  { apply (repr_frame h); [done|]. intros x Hx. apply Hfr. set_solver. }
  { split; [done|]. split; [apply lookup_insert_eq|done]. }
  exists (root (merge t (Node b Leaf Leaf))), h2. split; [done|]. split.
  - exists (merge t (Node b Leaf Leaf)). split_and!; [done|by destruct Hq as [->| ->]|by rewrite merge_nodes| |].
    + apply merge_ordered; [done|]. cbn. split_and!; [set_solver|done|done].
    + apply set_eq. intros x. rewrite elem_of_list_to_set, merge_nodes. cbn [nodes]. set_solver.
  - intros x Hx. rewrite Hf2 by (cbn [nodes]; set_solver). apply Hfr. set_solver.
Qed.

Lemma remove_queue h a s b : queue h a s -> b ∈ s ->
  exists c h', skew_heap_remove a b h = Ret (c, h') /\ queue h' c (s ∖ {[b]}) /\
    (forall x, x ∉ s -> h' !! x = h !! x).
Proof using comp_key.
  intros (t & -> & Hr & Hd & Ho & ->) Hb. assert (Hbt : b ∈ nodes t) by set_solver.
  destruct (remove_eq h t b Hr Hd Hbt) as (h' & Hm & Hr' & Hf). pose proof (delete_nodes b t Hd Hbt) as Hp.
  assert (Hd' : NoDup (b :: nodes (delete b t))) by by rewrite <- Hp. apply NoDup_cons in Hd' as [Hnb Hd'].
  exists (root (delete b t)), h'. split; [done|]. split; [|set_solver].
  exists (delete b t). split_and!; [done|done|done|by apply delete_ordered|].
  apply set_eq. intros x. rewrite elem_of_difference, !elem_of_list_to_set, Hp. set_solver.
Qed.
End Order.

End SkewHeap.

(** ** Properties *)

(** C35: a skew heap is a priority queue.  With a comparison that decides the
    order of keys, for a heap with root [a] and the entries [s]: the root is NULL
    exactly for the empty heap and otherwise an entry with the least key;
    inserting a new entry and removing any entry of the heap end, return the root
    of a heap with the entries [s] and [b], or [s] without [b], and touch no entry
    outside it. *)
Theorem skew_heap_refines (comp : Z -> Z -> Z) (key : Z -> Z) (h : heap) (a : Z) (s : gset Z) :
  (forall a b, if comp a b =? -1 then key a <= key b else key b <= key a) ->
  queue key h a s ->
  (a = NULL <-> s = ∅) /\
  (s <> ∅ -> a ∈ s /\ forall x, x ∈ s -> key a <= key x) /\
  (forall b, is_Some (h !! b) -> b <> NULL -> b ∉ s ->
    exists c h', skew_heap_insert comp a b h = Ret (c, h') /\ queue key h' c ({[b]} ∪ s) /\
      (forall x, x ∉ {[b]} ∪ s -> h' !! x = h !! x)) /\
  (forall b, b ∈ s ->
    exists c h', skew_heap_remove comp a b h = Ret (c, h') /\ queue key h' c (s ∖ {[b]}) /\
      (forall x, x ∉ s -> h' !! x = h !! x)).
Proof.
  intros Hc Hq. split; [|split; [|split]]; [| |by intros; apply insert_queue|by intros; apply remove_queue].
  - destruct Hq as (t & -> & Hr & _ & _ & ->). destruct t as [|a l r]; cbn; [done|].
    destruct Hr as (Ha & _). split; [done|set_solver].
  - destruct Hq as (t & -> & Hr & _ & Ho & ->). intros Hs. destruct t as [|a l r]; [done|].
    split; [cbn; set_solver|]. intros x Hx. apply (ordered_min key _ _ Ho). set_solver.
Qed.

(** Entries with their address as the key. *)
Definition by_address (a b : Z) : Z := if a <? b then -1 else 1.
Definition demo : heap := list_to_map [(10, mk_entry 0 0 0); (20, mk_entry 0 0 0); (5, mk_entry 1 2 3)].

Lemma skew_heap_refines_witness :
  exists c h', skew_heap_insert by_address 10 5 demo = Ret (c, h') /\ queue (fun a => a) h' c ({[5]} ∪ {[10]}) /\
    (forall x, x ∉ ({[5]} ∪ {[10]} : gset Z) -> h' !! x = demo !! x).
Proof.
  refine (proj1 (proj2 (proj2 (skew_heap_refines by_address (fun a => a) demo 10 {[10]} _ _))) 5 _ _ _).
  - intros a b. unfold by_address. destruct (Z.ltb_spec a b); cbn; lia.
  - exists (Node 10 Leaf Leaf). split_and!; try done; first [apply NoDup_singleton|set_solver].
  - done.
  - done.
  - set_solver.
Defined.

(** Inserting 10, 20 and 5 and taking the root off three times gives them in
    ascending order. *)
Example sort_three : exists h,
  (a ← skew_heap_insert by_address NULL 10; a ← skew_heap_insert by_address a 20; a ← skew_heap_insert by_address a 5;
   b ← skew_heap_remove by_address a a; c ← skew_heap_remove by_address b b; d ← skew_heap_remove by_address c c;
   mret [a; b; c; d]) demo = Ret ([5; 10; 20; 0], h).
Proof. eexists. vm_compute. reflexivity. Qed.
End SkewHeap.

(** ** Random numbers *)

Module Rand.

Definition RAND_MAX : Z := 2147483647.

(** The state is [next]; the new value and the result. *)
Definition rand : M Z Z :=
  next ← get;
  let next := u32 (u32 next * 1103515245 + 12345) in
  put next;;
  mret (s32 (next `mod` (RAND_MAX + 1))).
Definition srand (seed : Z) : M Z unit := put (u32 seed).

Lemma rand_range next : exists r next', rand next = Ret (r, next') /\ 0 <= r <= RAND_MAX /\ is_u32 next'.
Proof.
  eexists _, _. split; [cbv [rand mbind M_bind get put mret M_ret]; reflexivity|]. unfold RAND_MAX. split; width.
Qed.
End Rand.
