(* ===== verification/Kdebug.v ===== *)
(** Debugging information (kern/debug/kdebug.c, kern/debug/stab.h): the search
    in the table of stabs and the description of an instruction address. *)

From S2P Require Import Prelude Bytes Mem Strings Heap Paging Vmm.

Module Kdebug.
Import Strings.Strings.

Definition N_FUN : Z := 0x24.
Definition N_SLINE : Z := 0x44.
Definition N_SO : Z := 0x64.
Definition N_SOL : Z := 0x84.
Definition N_PSYM : Z := 0xa0.

(** The fields of [struct stab]: the entry [i] of the table at [stabs]. *)
Definition sizeof_stab : Z := 12.
Definition n_strx (stabs i : Z) : M mem Z := load_le 4 (stabs + sizeof_stab * i).
Definition n_type (stabs i : Z) : M mem Z := load (stabs + sizeof_stab * i + 4).
Definition n_desc (stabs i : Z) : M mem Z := load_le 2 (stabs + sizeof_stab * i + 6).
Definition n_value (stabs i : Z) : M mem Z := load_le 4 (stabs + sizeof_stab * i + 8).

(** ** The search *)

(** The inner loop: the last entry of the type in [l, m], or [l - 1]. *)
Fixpoint scan_down (fuel : nat) (stabs l m type : Z) : M mem Z :=
  match fuel with
  | O => diverge
  | S fuel =>
      if negb (l <=? m) then mret m else
      t ← n_type stabs m;
      if t =? type then mret m else scan_down fuel stabs l (m - 1) type
  end.

(** The outer loop; the result is [*region_left], [*region_right] and
    [any_matches]. *)
Fixpoint search_loop (fuel : nat) (stabs type l r addr region_left region_right : Z) (any_matches : bool)
    : M mem (Z * Z * bool) :=
  match fuel with
  | O => diverge
  | S fuel =>
      if negb (l <=? r) then mret (region_left, region_right, any_matches) else
      defined (l + r <? 0x80000000);;
      let true_m := Z.quot (l + r) 2 in
      m ← scan_down (S (Z.to_nat (true_m - l + 1))) stabs l true_m type;
      if m <? l then search_loop fuel stabs type (true_m + 1) r addr region_left region_right any_matches else
      v ← n_value stabs m;
      if v <? addr then search_loop fuel stabs type (true_m + 1) r addr m region_right true
      else if addr <? v then search_loop fuel stabs type l (m - 1) addr region_left (m - 1) true
      else search_loop fuel stabs type m r (u32 (addr + 1)) m region_right true
  end.

(** The last loop, which looks for the rightmost entry of the type above
    [region_left]. *)
Fixpoint last_loop (fuel : nat) (stabs l region_left type : Z) : M mem Z :=
  match fuel with
  | O => diverge
  | S fuel =>
      if negb (region_left <? l) then mret l else
      t ← n_type stabs l;
      if t =? type then mret l else last_loop fuel stabs (l - 1) region_left type
  end.

Definition stab_binsearch (stabs region_left region_right type addr : Z) : M mem (Z * Z) :=
  x ← search_loop (S (S (Z.to_nat (2 * (region_right - region_left + 1))))) stabs type region_left region_right addr
        region_left region_right false;
  let '(rl, rr, any_matches) := x in
  if negb any_matches then mret (rl, rl - 1) else
  l ← last_loop (S (Z.to_nat (rr - rl))) stabs rr rl type;
  mret (l, rr).

(** ** The description of an address *)

Record eipdebuginfo := mk_info {
  eip_file : Z; eip_line : Z; eip_fn_name : Z; eip_fn_namelen : Z; eip_fn_addr : Z; eip_fn_narg : Z
}.

(** The symbols of the linker script, and the address of the literal
    "<unknown>". *)
Record tables := mk_tables { stab_begin : Z; stab_end : Z; stabstr_begin : Z; stabstr_end : Z; unknown : Z }.

Definition USTAB : Z := Paging.USERBASE.

Section Info.
  Context {H : Type} `{Heap H} (sy : tables).

Abbreviation on_mem := (@Vmm.on_mem H).

(** The table of the kernel or that of the current process, whose address space
    is [mm] (0 also when there is no current process); [None] is the early
    return. *)
Definition find_tables (mm addr : Z) : M (Vmm.t H) (option (Z * Z * Z * Z)) :=
  if Paging.KERNBASE <=? addr then mret (Some (stab_begin sy, stab_end sy, stabstr_begin sy, stabstr_end sy)) else
  if mm =? 0 then mret None else
  ok ← Vmm.user_mem_check mm USTAB 16 false;
  if negb ok then mret None else
  stabs ← on_mem (load_le 4 USTAB);
  stab_end ← on_mem (load_le 4 (USTAB + 4));
  stabstr ← on_mem (load_le 4 (USTAB + 8));
  stabstr_end ← on_mem (load_le 4 (USTAB + 12));
  ok ← Vmm.user_mem_check mm stabs (u32 (stab_end - stabs)) false;
  if negb ok then mret None else
  ok ← Vmm.user_mem_check mm stabstr (u32 (stabstr_end - stabstr)) false;
  if negb ok then mret None else
  mret (Some (stabs, stab_end, stabstr, stabstr_end)).

(** The loop that looks for the name of the source file. *)
Fixpoint file_loop (fuel : nat) (stabs lline lfile : Z) : M mem Z :=
  match fuel with
  | O => diverge
  | S fuel =>
      if negb (lfile <=? lline) then mret lline else
      t ← n_type stabs lline;
      if t =? N_SOL then mret lline else
      stop ← (if t =? N_SO then v ← n_value stabs lline; mret (negb (v =? 0)) else mret false);
      if stop : bool then mret lline else file_loop fuel stabs (lline - 1) lfile
  end.

(** The loop that counts the parameters. *)
Fixpoint narg_loop (fuel : nat) (stabs lline rfun narg : Z) : M mem Z :=
  match fuel with
  | O => diverge
  | S fuel =>
      if negb (lline <? rfun) then mret narg else
      t ← n_type stabs lline;
      if t =? N_PSYM then narg_loop fuel stabs (lline + 1) rfun (narg + 1) else mret narg
  end.

(** Function, address in it, bounds for the search of the line. *)
Definition function_part (stabs stabstr stabstr_end lfile rfile lfun rfun addr : Z) : M mem (Z * Z * Z * Z * Z) :=
  if lfun <=? rfun then
    x ← n_strx stabs lfun;
    v ← n_value stabs lfun;
    mret (if x <? stabstr_end - stabstr then stabstr + x else unknown sy, v, u32 (addr - v), lfun, rfun)
  else mret (unknown sy, addr, addr, lfile, rfile).

Definition debuginfo_eip (mm addr : Z) : M (Vmm.t H) (Z * eipdebuginfo) :=
  let info := mk_info (unknown sy) 0 (unknown sy) 9 addr 0 in
  x ← find_tables mm addr;
  match x with
  | None => mret (-1, info)
  | Some (stabs, stab_end, stabstr, stabstr_end) => on_mem (
      bad ← (if stabstr_end <=? stabstr then mret true else b ← load (stabstr_end - 1); mret (negb (b =? 0)));
      if bad : bool then mret (-1, info) else
      f ← stab_binsearch stabs 0 (Z.quot (stab_end - stabs) sizeof_stab - 1) N_SO addr;
      let '(lfile, rfile) := f in
      if lfile =? 0 then mret (-1, info) else
      g ← stab_binsearch stabs lfile rfile N_FUN addr;
      let '(lfun, rfun) := g in
      y ← function_part stabs stabstr stabstr_end lfile rfile lfun rfun addr;
      let '(fn_name, fn_addr, addr, lline, rline) := y in
      e ← strfind fn_name 58;
      let info := mk_info (unknown sy) 0 fn_name (e - fn_name) fn_addr 0 in
      n ← stab_binsearch stabs lline rline N_SLINE addr;
      let '(lline, rline) := n in
      if negb (lline <=? rline) then mret (-1, info) else
      d ← n_desc stabs rline;
      l ← file_loop (S (Z.to_nat (lline - lfile + 1))) stabs lline lfile;
      file ← (if lfile <=? l
              then x ← n_strx stabs l; mret (if x <? stabstr_end - stabstr then stabstr + x else unknown sy)
              else mret (unknown sy));
      narg ← (if lfun <? rfun then narg_loop (S (Z.to_nat (rfun - lfun))) stabs (lfun + 1) rfun 0 else mret 0);
      mret (0, mk_info file d fn_name (e - fn_name) fn_addr narg))
  end.

End Info.
End Kdebug.
