(* ===== verification/KdebugSpec.v ===== *)
(** The search in the table of stabs against a linear reference search. *)

From S2P Require Import Prelude Bytes Mem StringsSpec Heap Paging Vmm Kdebug.

Module KdebugSpec.
Import Kdebug.

(** ** Tables in memory *)

Record stab := mk_stab { strx : Z; ty : Z; other : Z; desc : Z; value : Z }.
Definition stab_ok (e : stab) : Prop :=
  is_u32 (strx e) /\ is_u8 (ty e) /\ is_u8 (other e) /\ is_u16 (desc e) /\ is_u32 (value e).
Definition stab_bytes (e : stab) : list Z :=
  le_bytes 4 (strx e) ++ [ty e; other e] ++ le_bytes 2 (desc e) ++ le_bytes 4 (value e).
Definition table (m : mem) (stabs : Z) (t : list stab) : Prop :=
  Forall stab_ok t /\ bytes m stabs (flat_map stab_bytes t).

Lemma length_stab_bytes e : length (stab_bytes e) = 12%nat.
Proof. unfold stab_bytes. rewrite !length_app, !length_le_bytes. reflexivity. Qed.

Lemma table_entry m stabs t i e :
  table m stabs t -> t !! i = Some e -> stab_ok e /\ bytes m (stabs + 12 * Z.of_nat i) (stab_bytes e).
Proof.
  intros [Hf Hb] Hi. split; [by apply (proj1 (Forall_lookup _ _) Hf i)|].
  revert stabs i Hb Hi. induction t as [|x t IH]; intros stabs [|i] Hb Hi; [done|done| |];
    cbn [flat_map] in Hb.
  - injection Hi as ->. apply bytes_app in Hb as [Hb _]. by rewrite Z.mul_0_r, Z.add_0_r.
  - apply bytes_app in Hb as [_ Hb]. rewrite length_stab_bytes in Hb. apply Forall_cons in Hf as [_ Hf].
    replace (stabs + 12 * Z.of_nat (S i)) with (stabs + Z.of_nat 12 + 12 * Z.of_nat i) by lia. by apply IH.
Qed.

Lemma load_le_eq m a n v : bytes m a (le_bytes n v) -> 0 <= v < 256 ^ Z.of_nat n -> load_le n a m = Ret (v, m).
Proof.
  intros Hb Hv. unfold load_le. pose proof (load_bytes_eq m a _ Hb) as Hl. rewrite length_le_bytes in Hl.
  rewrite (bind_Ret _ _ _ _ _ Hl). by rewrite le_val_bytes.
Qed.

Section Entry.
  Context (m : mem) (stabs : Z) (t : list stab) (i : Z) (e : stab).
  Hypothesis Ht : table m stabs t.
  Hypothesis Hi : 0 <= i /\ t !! Z.to_nat i = Some e.

Lemma entry_bytes : stab_ok e /\ bytes m (stabs + 12 * i) (stab_bytes e).
Proof using Ht Hi. destruct Hi as [H0i Hx]. pose proof (table_entry _ _ _ _ _ Ht Hx) as He. by rewrite Z2Nat.id in He. Qed.

Lemma n_type_eq : n_type stabs i m = Ret (ty e, m).
Proof using Ht Hi.
  destruct entry_bytes as [Ho Hb]. unfold stab_bytes in Hb. rewrite !bytes_app, !length_le_bytes in Hb.
  apply load_eq. apply Hb.
Qed.

Lemma n_value_eq : n_value stabs i m = Ret (value e, m).
Proof using Ht Hi.
  destruct entry_bytes as [Ho Hb]. unfold stab_bytes in Hb. rewrite !bytes_app, !length_le_bytes in Hb.
  destruct Hb as (_ & _ & _ & Hb). cbn [length] in Hb.
  replace (stabs + 12 * i + Z.of_nat 4 + Z.of_nat 2 + Z.of_nat 2) with (stabs + 12 * i + 8) in Hb by lia.
  apply load_le_eq; [done|]. apply Ho.
Qed.
End Entry.

(** ** The reference *)

Definition ty_at (t : list stab) (i : Z) : Z := default 0 (ty <$> t !! Z.to_nat i).
Definition val_at (t : list stab) (i : Z) : Z := default 0 (value <$> t !! Z.to_nat i).

(** The entries of the type in [L, R] by one look at each. *)
Definition matches (t : list stab) (type L R : Z) : list Z := filter (fun i => ty_at t i = type) (seqZ L (R - L + 1)).

(** The entry that contains the address: the last one of the type that starts at
    or before it. *)
Definition containing (t : list stab) (type L R addr : Z) : option Z :=
  last (filter (fun i => val_at t i <= addr) (matches t type L R)).
(** The end of its region: the entry before the next one of the type that starts
    after the address, or [R]. *)
Definition region_end (t : list stab) (type L R addr : Z) : Z :=
  match head (filter (fun i => addr < val_at t i) (matches t type L R)) with Some j => j - 1 | None => R end.

(** The two ends of the region the code gives.  Where no entry contains the
    address the comment in the source speaks of a region whose left end lies
    after the right one; the code gives that only when no entry has the type. *)
Definition search (t : list stab) (type L R addr : Z) : Z * Z :=
  match containing t type L R addr with
  | Some i => (i, region_end t type L R addr)
  | None =>
      if decide (matches t type L R = []) then (L, L - 1)
      else (Z.min L (region_end t type L R addr), region_end t type L R addr)
  end.

Lemma search_alt t type L R addr : search t type L R addr =
  if decide (matches t type L R = []) then (L, L - 1) else
  (match containing t type L R addr with Some i => i | None => Z.min L (region_end t type L R addr) end, region_end t type L R addr).
Proof.
  unfold search, containing. case_decide as Hm; [by rewrite Hm|]. by destruct (last _).
Qed.

Definition ascending (t : list stab) (type L R : Z) : Prop :=
  forall i j, L <= i <= j -> j <= R -> ty_at t i = type -> ty_at t j = type -> val_at t i <= val_at t j.

Lemma elem_matches t type L R i : i ∈ matches t type L R <-> L <= i <= R /\ ty_at t i = type.
Proof. unfold matches. rewrite list_elem_of_filter, elem_of_seqZ. intuition lia. Qed.

Lemma seqZ_split L R i : L <= i <= R -> seqZ L (R - L + 1) = seqZ L (i - L) ++ i :: seqZ (i + 1) (R - i).
Proof.
  intros Hi. replace (R - L + 1) with ((i - L) + (1 + (R - i))) by lia. rewrite (seqZ_app L (i - L)) by lia.
  replace (L + (i - L)) with i by lia. by rewrite (seqZ_app i 1) by lia.
Qed.

Lemma filter_none (P : Z -> Prop) `{!forall x, Decision (P x)} l : (forall x, x ∈ l -> ~ P x) -> filter P l = [].
Proof.
  induction l as [|x l IH]; intros Hl; [done|]. rewrite filter_cons_False by (apply Hl; left).
  apply IH. intros y Hy. apply Hl. by right.
Qed.

Section Reference.
  Context (t : list stab) (type L R : Z) (P : Z -> Prop) `{!forall x, Decision (P x)} (i : Z).
  Hypothesis Hi : L <= i <= R.
  Hypothesis Hty : ty_at t i = type.
  Hypothesis HP : P i.

Lemma last_match : (forall j, i < j <= R -> ty_at t j = type -> ~ P j) -> last (filter P (matches t type L R)) = Some i.
Proof using Hi Hty HP.
  intros Hj. unfold matches. rewrite (seqZ_split L R i Hi), !filter_app, filter_cons_True by done.
  rewrite (filter_cons_True P) by done. rewrite last_app_cons.
  replace (filter P (filter _ (seqZ (i + 1) (R - i)))) with (@nil Z); [done|]. symmetry. apply filter_none.
  intros j [Ht Hs]%list_elem_of_filter. apply elem_of_seqZ in Hs. apply Hj; [lia|done].
Qed.

Lemma head_match : (forall j, L <= j < i -> ty_at t j = type -> ~ P j) -> head (filter P (matches t type L R)) = Some i.
Proof using Hi Hty HP.
  intros Hj. unfold matches. rewrite (seqZ_split L R i Hi), !filter_app, filter_cons_True by done.
  rewrite (filter_cons_True P) by done.
  rewrite (filter_none P (filter _ (seqZ L (i - L)))); [done|].
  intros j [Ht Hs]%list_elem_of_filter. apply elem_of_seqZ in Hs. apply Hj; [lia|done].
Qed.
End Reference.

(** ** The search *)

Section Search.
  Context (m : mem) (stabs : Z) (t : list stab) (type L R addr : Z).
  Hypothesis Ht : table m stabs t.
  Hypothesis Hrange : 0 <= L <= R + 1 /\ R < Z.of_nat (length t) < 0x40000000.

Lemma load_type i : L <= i <= R -> n_type stabs i m = Ret (ty_at t i, m).
Proof using Ht Hrange.
  intros Hi. destruct (lookup_lt_is_Some_2 t (Z.to_nat i)) as [e He]; [lia|].
  unfold ty_at. rewrite He. apply (n_type_eq m stabs t i e Ht). split; [lia|done].
Qed.

Lemma load_value i : L <= i <= R -> n_value stabs i m = Ret (val_at t i, m).
Proof using Ht Hrange.
  intros Hi. destruct (lookup_lt_is_Some_2 t (Z.to_nat i)) as [e He]; [lia|].
  unfold val_at. rewrite He. apply (n_value_eq m stabs t i e Ht). split; [lia|done].
Qed.

Lemma scan_down_eq fuel l j : L <= l <= j + 1 -> j <= R -> j - l + 1 < Z.of_nat fuel ->
  exists k, scan_down fuel stabs l j type m = Ret (k, m) /\ l - 1 <= k <= j /\
    (forall i, k < i <= j -> ty_at t i <> type) /\ (l <= k -> ty_at t k = type).
Proof using Ht Hrange.
  revert j. induction fuel as [|fuel IH]; intros j Hl Hj Hf; [lia|]. cbn [scan_down].
  destruct (Z.leb_spec l j) as [Hlj|Hlj]; cbn [negb].
  - rewrite (bind_Ret _ _ _ _ _ (load_type j ltac:(lia))). destruct (Z.eqb_spec (ty_at t j) type) as [He|He].
    + exists j. split_and!; [done|lia|lia|lia|done].
    + destruct (IH (j - 1)) as (k & Hk & Hb & Hn & Hy); [lia..|]. exists k. split_and!; [done|lia|lia| |done].
      intros i Hi. destruct (decide (i = j)) as [->|]; [done|]. apply Hn. lia.
  - exists j. split_and!; [done|lia|lia|lia|lia].
Qed.

(** The state of the outer loop, whose right end is always [*region_right]. *)
Record searching (l r a left : Z) (any : bool) : Prop := {
  se_range : L <= l <= r + 1 /\ r <= R;
  se_addr : a = addr \/ a = addr + 1;
  se_above : forall i, r < i <= R -> ty_at t i = type -> addr < val_at t i;
  se_next : r = R \/ ty_at t (r + 1) = type;
  se_left : (ty_at t left = type /\ L <= left <= r /\ left <= l /\ val_at t left <= addr /\
             (forall i, left < i < l -> ty_at t i <> type)) \/
            (left = L /\ a = addr /\ forall i, L <= i < l -> ty_at t i <> type);
  se_some : any = true -> exists i, L <= i <= R /\ ty_at t i = type;
  se_none : any = false -> left = L /\ (forall i, L <= i < l -> ty_at t i <> type) /\ r = R
}.

Definition steps (l r a : Z) : Z := 2 * (r - l + 1) + (if a =? addr then 1 else 0).

Hypothesis Hasc : ascending t type L R.
Hypothesis Hgap : forall i, L <= i <= R -> ty_at t i = type -> val_at t i <> addr + 1.
Hypothesis Haddr : 0 <= addr /\ addr + 1 < 0x100000000.

Section Step.
  Context (l r a left k mid : Z) (any : bool).
  Hypothesis Hs : searching l r a left any.
  Hypothesis Hmid : l <= mid <= r.
  Hypothesis Hk : l - 1 <= k <= mid.
  Hypothesis Hno : forall i, k < i <= mid -> ty_at t i <> type.

Lemma step_none : k < l -> searching (mid + 1) r a left any.
Proof using Hs Hmid Hk Hno.
  intros Hl. destruct Hs as [Hr Ha Hab Hn Hle Hso Hne].
  assert (Hx : forall i, l <= i < mid + 1 -> ty_at t i <> type) by (intros i Hi; apply Hno; lia).
  split; [lia|done|done|done| |done|].
  - destruct Hle as [(H1' & H2' & H3' & H4' & H5')|(H1' & H2' & H3')]; [left|right]; split_and!; try done; try lia; intros i Hi;
      (destruct (decide (i < l)); [auto with lia|apply Hx; lia]).
  - intros He. destruct (Hne He) as (-> & Hb & ->). split_and!; [done| |done].
    intros i Hi. destruct (decide (i < l)); [apply Hb; lia|apply Hx; lia].
Qed.

Hypothesis Hlk : l <= k.
Hypothesis Hty : ty_at t k = type.

Lemma step_right : val_at t k <= addr -> searching (mid + 1) r a k true.
Proof using Hs Hmid Hk Hno Hlk Hty.
  intros Hv. destruct Hs as [Hr Ha Hab Hn Hle Hso Hne].
  split; [lia|done|done|done| |intros _; exists k; split; [lia|done]|done].
  left. split_and!; try done; try lia. intros i Hi. apply Hno. lia.
Qed.

Lemma step_left : addr < val_at t k -> searching l (k - 1) a left true.
Proof using Hs Hmid Hk Hlk Hty Hasc.
  intros Hv. destruct Hs as [Hr Ha Hab Hn Hle Hso Hne].
  split; [lia|done| |right; by replace (k - 1 + 1) with k by lia| |intros _; exists k; split; [lia|done]|done].
  - intros i Hi Hti. pose proof (Hasc k i ltac:(lia) ltac:(lia) Hty Hti). lia.
  - destruct Hle as [(H1' & H2' & H3' & H4' & H5')|(H1' & H2' & H3')]; [left|right]; split_and!; try done; try lia.
    destruct (decide (left = k)) as [->|]; lia.
Qed.

Lemma step_exact : val_at t k = addr -> searching k r (addr + 1) k true.
Proof using Hs Hmid Hk Hlk Hty.
  intros Hv. destruct Hs as [Hr Ha Hab Hn Hle Hso Hne].
  split; [lia|by right|done|done| |intros _; exists k; split; [lia|done]|done].
  left. split_and!; try done; try lia.
Qed.
End Step.

Lemma search_loop_eq fuel l r a left any :
  searching l r a left any -> steps l r a < Z.of_nat fuel ->
  exists r' a' left' any', search_loop fuel stabs type l r a left r any m = Ret ((left', r', any'), m) /\
    searching (r' + 1) r' a' left' any'.
Proof using Ht Hrange Hasc Hgap Haddr.
  revert l r a left any. induction fuel as [|fuel IH]; intros l r a left any Hs Hf;
    [destruct Hs; unfold steps in Hf; destruct (a =? addr); lia|]. pose proof (se_range _ _ _ _ _ Hs) as Hr. cbn [search_loop].
  destruct (Z.leb_spec l r) as [Hlr|Hlr]; cbn [negb].
  2: { exists r, a, left, any. split; [done|]. by replace (r + 1) with l by lia. }
  rewrite (bind_Ret _ _ m tt m) by (unfold defined; by replace (l + r <? 0x80000000) with true by lia).
  rewrite Z.quot_div_nonneg by lia. set (mid := (l + r) / 2). assert (Hmid : l <= mid <= r) by (unfold mid; Z.div_mod_to_equations; lia).
  destruct (scan_down_eq (S (Z.to_nat (mid - l + 1))) l mid) as (k & Hk & Hb & Hno & Hy); [lia..|].
  rewrite (bind_Ret _ _ _ _ _ Hk). destruct (Z.ltb_spec k l) as [Hkl|Hkl].
  { apply IH; [by apply (step_none l r a left k mid any)|unfold steps in *; destruct (a =? addr); lia]. }
  specialize (Hy Hkl). rewrite (bind_Ret _ _ _ _ _ (load_value k ltac:(lia))).
  pose proof (Hgap k ltac:(lia) Hy) as Hg. pose proof (se_addr _ _ _ _ _ Hs) as Ha.
  destruct (Z.ltb_spec (val_at t k) a) as [Hv|Hv].
  { apply IH; [apply (step_right l r a left k mid any); try done; lia|unfold steps in *; destruct (a =? addr); lia]. }
  destruct (Z.ltb_spec a (val_at t k)) as [Hv'|Hv'].
  { apply IH; [apply (step_left l r a left k mid any); try done; lia|unfold steps in *; destruct (a =? addr); lia]. }
  assert (a = addr) as -> by lia. replace (u32 (addr + 1)) with (addr + 1) by width.
  apply IH; [apply (step_exact l r addr left k mid any); try done; lia|].
  unfold steps in *. rewrite Z.eqb_refl in Hf. replace (addr + 1 =? addr) with false by lia. lia.
Qed.

Lemma last_loop_eq fuel j left : L <= left -> j <= R -> j - left < Z.of_nat fuel ->
  (forall i, left < i <= j -> ty_at t i <> type) -> (0 < fuel)%nat ->
  last_loop fuel stabs j left type m = Ret (Z.min left j, m).
Proof using Ht Hrange.
  revert j. induction fuel as [|fuel IH]; intros j Hl Hj Hf Hn H0f; [lia|]. cbn [last_loop].
  destruct (Z.ltb_spec left j) as [Hlj|Hlj]; cbn [negb]; [|by rewrite Z.min_r by lia].
  rewrite (bind_Ret _ _ _ _ _ (load_type j ltac:(lia))). destruct (Z.eqb_spec (ty_at t j) type) as [He|He].
  { by destruct (Hn j ltac:(lia)). }
  rewrite (IH (j - 1)); [f_equal; f_equal; lia|lia..| |lia]. intros i Hi. apply Hn. lia.
Qed.

(** The end of the loop determines the reference. *)
Lemma search_right r a left : searching (r + 1) r a left true ->
  region_end t type L R addr = r.
Proof using Hrange Hasc.
  unfold region_end. intros [Hr Ha Hab Hn Hle Hso Hne].
  assert (Hbelow : forall i, L <= i <= r -> ty_at t i = type -> val_at t i <= addr).
  { intros i Hi Hti. destruct Hle as [(H1' & H2' & H3' & H4' & H5')|(H1' & H2' & H3')].
    - destruct (decide (i <= left)); [pose proof (Hasc i left ltac:(lia) ltac:(lia) Hti H1'); lia|].
      by destruct (H5' i ltac:(lia)).
    - by destruct (H3' i ltac:(lia)). }
  destruct (decide (r = R)) as [->|Hx].
  - rewrite filter_none; [done|]. intros i [Hi Hti]%elem_matches. specialize (Hbelow i ltac:(lia) Hti). lia.
  - destruct Hn as [?|Hn]; [done|]. rewrite (head_match t type L R _ (r + 1)); [lia|lia|done|apply Hab; [lia|done]|].
    intros j Hj Htj. specialize (Hbelow j ltac:(lia) Htj). lia.
Qed.

Lemma search_left r a left : searching (r + 1) r a left true ->
  match containing t type L R addr with Some i => i | None => Z.min L r end = Z.min left r.
Proof using Hrange.
  unfold containing. intros [Hr Ha Hab Hn Hle Hso Hne]. destruct Hle as [(H1' & H2' & H3' & H4' & H5')|(H1' & H2' & H3')].
  - rewrite (last_match t type L R _ left); [lia|lia|done|done|].
    intros j Hj Htj. destruct (decide (j <= r)); [by destruct (H5' j ltac:(lia))|]. specialize (Hab j ltac:(lia) Htj). lia.
  - rewrite filter_none; [by subst|]. intros i [Hi Hti]%elem_matches.
    destruct (decide (i <= r)); [by destruct (H3' i ltac:(lia))|]. specialize (Hab i ltac:(lia) Hti). lia.
Qed.

Lemma binsearch_eq : stab_binsearch stabs L R type addr m = Ret (search t type L R addr, m).
Proof using Ht Hrange Hasc Hgap Haddr.
  unfold stab_binsearch.
  destruct (search_loop_eq (S (S (Z.to_nat (2 * (R - L + 1))))) L R addr L false) as (r & a & left & any & Hr & Hs).
  { split; try done; [lia|by left|lia|by left| |].
    - right. split_and!; [done|done|lia].
    - intros _. split_and!; [done|lia|done]. }
  { unfold steps. rewrite Z.eqb_refl. lia. }
  rewrite (bind_Ret _ _ _ _ _ Hr). rewrite search_alt. destruct any; cbn [negb].
  - rewrite decide_False.
    2: { destruct (se_some _ _ _ _ _ Hs eq_refl) as (i & Hi & Hti). intros He.
         assert (Hx : i ∈ matches t type L R) by by apply elem_matches. rewrite He in Hx. by apply elem_of_nil in Hx. }
    rewrite (search_right _ _ _ Hs), (search_left _ _ _ Hs). pose proof (se_range _ _ _ _ _ Hs) as Hx.
    assert (Hno : forall i, left < i <= r -> ty_at t i <> type).
    { intros i Hi. destruct (se_left _ _ _ _ _ Hs) as [(_ & ? & _ & _ & H5')|(-> & _ & H3')]; [apply H5'|apply H3']; lia. }
    assert (L <= left) by (destruct (se_left _ _ _ _ _ Hs) as [(_ & ? & _)|(-> & _)]; lia).
    rewrite (bind_Ret _ _ _ _ _ (last_loop_eq (S (Z.to_nat (r - left))) r left ltac:(lia) ltac:(lia) ltac:(lia) Hno ltac:(lia))).
    done.
  - destruct (se_none _ _ _ _ _ Hs eq_refl) as (-> & Hn & ->). rewrite decide_True; [done|].
    unfold matches. apply filter_none. intros i Hi. apply elem_of_seqZ in Hi. apply Hn. lia.
Qed.

End Search.

(** ** Properties *)

(** C34: the binary search is the linear search.  On a table in memory whose
    entries of the type ascend in [L, R], for an address such that no entry of the
    type starts at the byte after it ([next_byte_taken] shows what happens
    otherwise), [stab_binsearch] ends, reads nothing outside the range, changes
    nothing and returns the last entry of the type that starts at or before the
    address and the end of its region; [(L, L - 1)], an empty region, when no
    entry has the type.  When entries have the type but all start after the
    address, it returns the entries before the first of them, which is not the
    empty region that the comment in the source and its callers take as the sign
    of an address no entry contains. *)
Theorem stab_binsearch_correct (m : mem) (stabs : Z) (t : list stab) (type L R addr : Z) :
  table m stabs t ->
  0 <= L <= R + 1 -> R < Z.of_nat (length t) < 0x40000000 ->
  ascending t type L R ->
  (forall i, L <= i <= R -> ty_at t i = type -> val_at t i <> addr + 1) ->
  0 <= addr < 0xffffffff ->
  exists left right, stab_binsearch stabs L R type addr m = Ret ((left, right), m) /\
    match containing t type L R addr with
    | Some i => left = i /\ right = region_end t type L R addr
    | None => if decide (matches t type L R = []) then left = L /\ right = L - 1
              else right = region_end t type L R addr /\ left = Z.min L right
    end.
Proof.
  intros Ht HL HR Hasc Hgap Ha.
  exists (search t type L R addr).1, (search t type L R addr).2. split.
  - rewrite <- surjective_pairing. apply binsearch_eq; try done; lia.
  - unfold search. destruct (containing t type L R addr); [done|]. by case_decide.
Qed.

(** ** Witness and examples *)

Definition fn (v x : Z) : stab := mk_stab x N_FUN 0 0 v.
Definition line (v d : Z) : stab := mk_stab 0 N_SLINE 0 d v.
Definition demo_table : list stab :=
  [mk_stab 0 0 0 0 0; mk_stab 1 N_SO 0 0 0x80000000; fn 0x80000010 5; mk_stab 0 N_PSYM 0 0 4; line 0 10; line 8 11;
   fn 0x80000040 9; line 0 20].
(** NUL, "a.c", "f:F", "g:F", and "<unknown>" (cut to its first letter). *)
Definition demo_strings : list Z := [0; 97; 46; 99; 0; 102; 58; 70; 0; 103; 58; 70; 0].
Definition demo_memory (t : list stab) : mem :=
  write_bytes (write_bytes (write_bytes ∅ 0x80010000 (flat_map stab_bytes t)) 0x80020000 demo_strings) 0x80030000 [60; 0].

Lemma demo_table_ok : table (demo_memory demo_table) 0x80010000 demo_table.
Proof. split; [by repeat constructor|]. vm_compute. by repeat split. Qed.

Lemma stab_binsearch_correct_witness :
  exists left right, stab_binsearch 0x80010000 0 7 N_FUN 0x8000001c (demo_memory demo_table) =
    Ret ((left, right), demo_memory demo_table) /\ left = 2 /\ right = 5.
Proof.
  apply (stab_binsearch_correct (demo_memory demo_table) 0x80010000 demo_table N_FUN 0 7 0x8000001c);
    [apply demo_table_ok|lia|done| | |lia].
  - intros i j Hij Hj.
    assert (Hi : i = 0 \/ i = 1 \/ i = 2 \/ i = 3 \/ i = 4 \/ i = 5 \/ i = 6 \/ i = 7) by lia.
    assert (Hj' : j = 0 \/ j = 1 \/ j = 2 \/ j = 3 \/ j = 4 \/ j = 5 \/ j = 6 \/ j = 7) by lia.
    destruct_or? Hi; subst i; try done; destruct_or? Hj'; subst j; try done; lia.
  - intros i Hi. assert (Hj' : i = 0 \/ i = 1 \/ i = 2 \/ i = 3 \/ i = 4 \/ i = 5 \/ i = 6 \/ i = 7) by lia.
    destruct_or? Hj'; subst i; done.
Defined.

(** An entry of the type one byte after an entry at the address is taken for
    the address: the searched address is moved on to find the end of the region. *)
Example next_byte_taken :
  let t := [fn 0x80000010 5; fn 0x80000011 9] in
  stab_binsearch 0x80010000 0 1 N_FUN 0x80000010 (demo_memory t) = Ret ((1, 1), demo_memory t) /\
  search t N_FUN 0 1 0x80000010 = (0, 0).
Proof. vm_compute. done. Qed.

(** An address before the first entry gets the non-empty region [(-1, -1)],
    although no entry contains it. *)
Example before_the_first :
  let t := [fn 0x80000010 5; fn 0x80000040 9] in
  stab_binsearch 0x80010000 0 1 N_FUN 0x80000000 (demo_memory t) = Ret ((-1, -1), demo_memory t).
Proof. vm_compute. done. Qed.

Section Describe.
  Context {H : Type} `{Heap H} (h : H) (g : Paging.t).

Definition demo_symbols : tables := mk_tables 0x80010000 0x80010060 0x80020000 0x8002000d 0x80030000.
Definition demo_state (t : list stab) : Vmm.t H := Vmm.mk h g ∅ ∅ 0 [] ∅ 0 (demo_memory t).

(** The address is in line 11 of the function [f] of the file [a.c], with one
    parameter. *)
Example describe_address :
  debuginfo_eip demo_symbols 0 0x8000001c (demo_state demo_table) =
    Ret ((0, mk_info 0x80020001 11 0x80020005 1 0x80000010 1), demo_state demo_table).
Proof. vm_compute. done. Qed.

(** The line is taken from the last entry of the region, here a bracket, and
    not from the entry of the line. *)
Example line_of_a_bracket :
  let t := [mk_stab 0 0 0 0 0; mk_stab 1 N_SO 0 0 0x80000000; fn 0x80000010 5; mk_stab 0 N_PSYM 0 0 4; line 0 10;
            mk_stab 0 0xc0 0 0 8; fn 0x80000040 9; line 0 20] in
  debuginfo_eip demo_symbols 0 0x80000010 (demo_state t) =
    Ret ((0, mk_info 0x80020001 0 0x80020005 1 0x80000010 1), demo_state t).
Proof. vm_compute. done. Qed.
End Describe.
End KdebugSpec.
