(* ===== verification/Ri.v ===== *)
(** The emulation of DIV (kern/libs/divmod.h, kern/trap/ri.h): the processor
    has no such instruction, and the handler of reserved instructions divides
    bit by bit. *)

From S2P Require Import Prelude Cp0 Mmu Cpu CpuSpec Proc.

Module Ri.
Import Proc.

(** One round for each bit of the dividend; quotient and remainder. *)
Fixpoint div_loop (n : nat) (a b r q : Z) : Z * Z :=
  match n with
  | O => (q, r)
  | S n =>
      let r := Z.lor (s32 (r ≪ 1)) (Z.land (a ≫ 31) 1) in
      let a := s32 (a ≪ 1) in
      let q := s32 (q ≪ 1) in
      if b <=? r then div_loop n a b (s32 (r - b)) (Z.lor q 1) else div_loop n a b r q
  end.

(** Arithmetic on [int] wraps around, as the processor does it.  [None] is the
    error, without a store. *)
Definition divmod (a b : Z) : option (Z * Z) :=
  if b =? 0 then None else
  let sign_div := if a <? 0 then -1 else 1 in
  let sign_mod := if a <? 0 then -1 else 1 in
  let a := if a <? 0 then s32 (- a) else a in
  let sign_div := if b <? 0 then - sign_div else sign_div in
  let b := if b <? 0 then s32 (- b) else b in
  let '(q, r) := div_loop 32 a b 0 0 in
  Some (if sign_div =? -1 then s32 (- q) else q, if sign_mod =? -1 then s32 (- r) else r).

(** [inst] is the word at the saved pc; the status and the frame. *)
Definition ri_handler (inst : Z) (tf : trapframe) : M unit (Z * trapframe) :=
  assert_ (Z.land (tf_Cause tf ≫ 2) 0x1f =? 10);;
  if Z.land inst 0xfc00ffff =? 0x0000001a then
    let reg1 := Z.land (inst ≫ 21) 0x1f in
    let reg2 := Z.land (inst ≫ 16) 0x1f in
    let op1 := s32 (arr_get (tf_regs tf) reg1) in
    let op2 := s32 (arr_get (tf_regs tf) reg2) in
    match divmod op1 op2 with
    | None => mret (-1, tf)
    | Some (q, r) =>
        mret (0, mk_tf (tf_regs tf) (tf_Status tf) (tf_Cause tf) (u32 (tf_EPC tf + 4)) (tf_BadVAddr tf) (u32 q) (u32 r))
    end
  else mret (-1, tf).

(** ** Division *)

Lemma top_bit x : Z.land (s32 x ≫ 31) 1 = (x / 2 ^ 31) `mod` 2.
Proof.
  change 1 with (Z.ones 1). rewrite Z.land_ones, Z.shiftr_div_pow2 by lia. change (2 ^ 1) with 2.
  unfold s32. change (2 ^ 31) with 0x80000000. Z.div_mod_to_equations. lia.
Qed.

Lemma lor_bit x c : 0 <= c < 2 -> Z.lor (2 * x) c = 2 * x + c.
Proof. intros Hc. rewrite (Z.mul_comm 2). exact (lor_add x c 1 ltac:(lia) Hc). Qed.

Lemma halves_of A n : A / 2 ^ Z.of_nat (S n) = A / 2 ^ Z.of_nat n / 2.
Proof. rewrite Z.div_div by lia. f_equal. rewrite Nat2Z.inj_succ, Z.pow_succ_r by lia. lia. Qed.

(** [a] is the dividend [A] shifted; the part of it taken so far is
    [q * b + r]. *)
Lemma div_loop_eq n A a b r q :
  (n <= 32)%nat -> 0 <= A < 0x80000000 -> 0 < b < 0x80000000 ->
  a = s32 (A * 2 ^ (32 - Z.of_nat n)) ->
  A / 2 ^ Z.of_nat n = q * b + r -> 0 <= r < b -> 0 <= q ->
  div_loop n a b r q = (A / b, A mod b).
Proof.
  revert a r q. induction n as [|n IH]; intros a r q Hn HA Hb Ha Hp Hr Hq.
  { cbn [div_loop]. change (2 ^ Z.of_nat 0) with 1 in Hp. rewrite Z.div_1_r in Hp.
    f_equal; [apply (Z.div_unique_pos A b q r)|apply (Z.mod_unique_pos A b q r)]; lia. }
  cbn [div_loop]. set (P := A / 2 ^ Z.of_nat n). set (c := P `mod` 2).
  assert (HP : 0 <= P <= A) by (unfold P; split; [apply Z.div_pos; lia|apply Z.div_le_upper_bound; nia]).
  assert (Hc : Z.land (a ≫ 31) 1 = c).
  { rewrite Ha, top_bit. unfold c, P. f_equal. replace (32 - Z.of_nat (S n)) with (31 - Z.of_nat n) by lia.
    replace (2 ^ 31) with (2 ^ (31 - Z.of_nat n) * 2 ^ Z.of_nat n) by (rewrite <- Z.pow_add_r by lia; f_equal; lia).
    rewrite (Z.mul_comm (2 ^ (31 - _))). rewrite Z.div_mul_cancel_r; [done|lia|lia]. }
  assert (HP2 : P = 2 * (q * b + r) + c) by (rewrite <- Hp, halves_of; fold P; unfold c; Z.div_mod_to_equations; lia).
  assert (Hc2 : 0 <= c < 2) by (unfold c; Z.div_mod_to_equations; lia).
  assert (Hqb : q <= q * b) by nia.
  rewrite !Z.shiftl_mul_pow2, Hc by lia. change (2 ^ 1) with 2.
  replace (s32 (r * 2)) with (2 * r) by width. replace (s32 (q * 2)) with (2 * q) by width.
  rewrite !lor_bit by lia.
  assert (Ha' : s32 (a * 2) = s32 (A * 2 ^ (32 - Z.of_nat n))).
  { rewrite Ha. replace (32 - Z.of_nat n) with (Z.succ (32 - Z.of_nat (S n))) by lia. rewrite Z.pow_succ_r by lia.
    set (y := A * 2 ^ (32 - Z.of_nat (S n))). replace (A * (2 * 2 ^ (32 - Z.of_nat (S n)))) with (2 * y) by (unfold y; lia).
    unfold s32. Z.div_mod_to_equations. lia. }
  destruct (Z.leb_spec b (2 * r + c)).
  - replace (s32 (2 * r + c - b)) with (2 * r + c - b) by width. apply IH; try done; try lia.
  - apply IH; try done; try lia.
Qed.

Lemma divmod_eq a b :
  is_s32 a -> is_s32 b -> a <> -0x80000000 -> b <> -0x80000000 -> b <> 0 ->
  divmod a b = Some (Z.quot a b, Z.rem a b).
Proof.
  intros Ha Hb Ha' Hb' H0. unfold divmod. replace (b =? 0) with false by lia.
  set (A := Z.abs a). set (B := Z.abs b).
  replace (if a <? 0 then s32 (- a) else a) with A by (unfold A; destruct (Z.ltb_spec a 0); width).
  replace (if b <? 0 then s32 (- b) else b) with B by (unfold B; destruct (Z.ltb_spec b 0); width).
  rewrite (div_loop_eq 32 A A B 0 0);
    [|done|unfold A; width|unfold B; width|change (32 - Z.of_nat 32) with 0; rewrite Z.mul_1_r; unfold A; width| |unfold B; lia|lia].
  2: { change (Z.of_nat 32) with 32. rewrite Z.div_small; [lia|]. unfold A. width. }
  assert (HQ : 0 <= A / B < 0x80000000).
  { split; [apply Z.div_pos; unfold A, B; lia|]. apply Z.div_lt_upper_bound; unfold A, B in *; [lia|]. unfold is_s32 in *. nia. }
  assert (HR : 0 <= A `mod` B < 0x80000000) by (pose proof (Z.mod_pos_bound A B); unfold B, is_s32 in *; lia).
  rewrite <- Z.quot_div_nonneg in * by (unfold A, B; lia). rewrite <- Z.rem_mod_nonneg in * by (unfold A, B; lia).
  assert (Hq : Z.quot a b = if xorb (a <? 0) (b <? 0) then - Z.quot A B else Z.quot A B).
  { unfold A, B. destruct (Z.ltb_spec a 0), (Z.ltb_spec b 0); cbn [xorb].
    - by rewrite !Z.abs_neq, Z.quot_opp_opp by lia.
    - rewrite Z.abs_neq, (Z.abs_eq b), Z.quot_opp_l by lia. lia.
    - rewrite (Z.abs_neq b), (Z.abs_eq a), Z.quot_opp_r by lia. lia.
    - by rewrite !Z.abs_eq by lia. }
  assert (Hr : Z.rem a b = if a <? 0 then - Z.rem A B else Z.rem A B).
  { unfold A, B. rewrite Z.rem_abs_r by lia. destruct (Z.ltb_spec a 0).
    - rewrite Z.abs_neq, Z.rem_opp_l by lia. lia.
    - by rewrite Z.abs_eq by lia. }
  rewrite Hq, Hr. clear Hq Hr. revert HQ HR. generalize (Z.quot A B) (Z.rem A B). intros x y Hx Hy.
  destruct (a <? 0), (b <? 0); cbn -[s32 Z.opp]; change (- (-1) =? -1) with false; change (- (1) =? -1) with true;
    change (-1 =? -1) with true; change (1 =? -1) with false; cbn [xorb]; apply f_equal, f_equal2; width.
Qed.

(** ** The instruction *)

Definition DIV_MASK : Z := 0xfc00ffff.
Definition is_div (inst : Z) : Prop := Z.land inst DIV_MASK = 0x1a.

(** No encoding of the processor has the fixed bits of DIV. *)
Definition clashes (x : CPUSpec.enc) : bool := Z.land x.1.2 DIV_MASK =? Z.land 0x1a x.1.1.

Lemma div_matches inst x : is_div inst -> CPUSpec.matches inst x -> clashes x = true.
Proof.
  unfold is_div, CPUSpec.matches, clashes. intros Hd <-. rewrite <- Hd. apply Z.eqb_eq.
  by rewrite <- !Z.land_assoc, (Z.land_comm DIV_MASK).
Qed.

Lemma no_div : forallb (fun x => negb (clashes x)) CPUSpec.isa = true.
Proof. vm_compute. done. Qed.

Lemma div_nomatch inst : is_div inst -> Forall (fun x => ~ CPUSpec.matches inst x) CPUSpec.isa.
Proof.
  intros Hd. apply Forall_forall. intros x Hx Hm. pose proof no_div as Hn. rewrite forallb_forall in Hn.
  specialize (Hn x (proj1 (list_elem_of_In _ _) Hx)). by rewrite (div_matches inst x Hd Hm) in Hn.
Qed.

(** ** Properties *)

(** C38: the kernel supplies the instruction that the processor lacks.  Every
    word that encodes DIV raises Reserved Instruction on the processor; the
    handler then puts the quotient and the remainder of the two registers,
    rounded towards zero, in LO and HI and steps over the instruction, or leaves
    the frame alone and fails when the divisor is zero.  (The least number is
    excluded: it has no negation.) *)
Theorem div_emulated (c : CPU.t) (t : trapframe) :
  CPUSpec.wf c -> is_div (CPU.instruction_ c) ->
  Z.land (tf_Cause t ≫ 2) 0x1f = CP0.Exc_RI ->
  let a := s32 (arr_get (tf_regs t) (Z.land (CPU.instruction_ c ≫ 21) 0x1f)) in
  let b := s32 (arr_get (tf_regs t) (Z.land (CPU.instruction_ c ≫ 16) 0x1f)) in
  CPU.instruction_decode c = CPU.reserved_instruction c /\
  (b = 0 -> ri_handler (CPU.instruction_ c) t tt = Ret ((-1, t), tt)) /\
  (b <> 0 -> a <> -0x80000000 -> b <> -0x80000000 ->
   exists t', ri_handler (CPU.instruction_ c) t tt = Ret ((0, t'), tt) /\
     s32 (tf_LO t') = Z.quot a b /\ s32 (tf_HI t') = Z.rem a b /\
     tf_EPC t' = u32 (tf_EPC t + 4) /\ tf_regs t' = tf_regs t /\ tf_Status t' = tf_Status t).
Proof.
  intros Hc Hd Hcause a b.
  assert (Hrun : ri_handler (CPU.instruction_ c) t tt = match divmod a b with
    | None => Ret ((-1, t), tt)
    | Some (q, r) => Ret ((0, mk_tf (tf_regs t) (tf_Status t) (tf_Cause t) (u32 (tf_EPC t + 4)) (tf_BadVAddr t) (u32 q) (u32 r)), tt)
    end).
  { unfold ri_handler. rewrite Hcause. rewrite (bind_Ret _ _ tt tt tt) by done. unfold is_div, DIV_MASK in Hd. rewrite Hd.
    fold a b. change (0x1a =? 0x0000001a) with true. by destruct (divmod a b) as [[q r]|]. }
  split; [|split].
  - apply CPUSpec.decode_nomatch; [..|by apply div_nomatch]; auto with cpu.
  - intros Hb. rewrite Hrun. unfold divmod. by rewrite Hb.
  - intros Hb Ha Hb'. assert (is_s32 a /\ is_s32 b) as [Hsa Hsb] by (unfold a, b; split; apply s32_range).
    rewrite Hrun, divmod_eq by done. eexists. split; [done|]. cbn [tf_LO tf_HI tf_EPC tf_regs tf_Status].
    assert (Hq : Z.abs (Z.quot a b) <= Z.abs a) by (rewrite <- Z.quot_abs by done; apply Z.quot_le_upper_bound; nia).
    assert (Hr : Z.abs (Z.rem a b) <= Z.abs b).
    { rewrite <- Z.rem_abs by done. pose proof (Z.rem_bound_pos (Z.abs a) (Z.abs b)). lia. }
    rewrite !s32_u32. unfold is_s32 in *. split_and!; try done; width.
Qed.

(** 7 / -2 in registers 8 and 9. *)
Definition div_8_9 : Z := 0x0109001a.
Definition demo_frame : trapframe := mk_tf (arr_set (arr_set (replicate 32 0) 8 7) 9 0xfffffffe) 0x13 (10 ≪ 2) 0x400 0 0 0.

Lemma div_emulated_witness : exists t', ri_handler div_8_9 demo_frame tt = Ret ((0, t'), tt) /\ s32 (tf_LO t') = -3 /\ s32 (tf_HI t') = 1.
Proof.
  destruct (div_emulated (CPUSpec.demo_cpu div_8_9 0 0) demo_frame) as (_ & _ & Hd);
    [apply CPUSpec.demo_cpu_wf; unfold div_8_9; width|by vm_compute|by vm_compute|].
  destruct Hd as (t' & Hr & Hq & Hm & _); [by vm_compute|by vm_compute|by vm_compute|].
  exists t'. split; [exact Hr|]. split; [rewrite Hq; by vm_compute|rewrite Hm; by vm_compute].
Defined.

(** The least number as divisor, and as dividend of a large divisor, gives wrong
    results: the quotients are 0 and -1, the remainders 5 and -1073741823. *)
Example least_number : divmod 5 (-0x80000000) = Some (1, -2147483643) /\ divmod (-0x80000000) 0x40000001 = Some (0, -0x80000000).
Proof. vm_compute. done. Qed.

End Ri.
