(* ===== verification/Trap.v ===== *)
(** Traps, interrupts and system calls (kern/trap/trap.c, kern/syscall/syscall.c,
    kern/driver/clock.c, kern/driver/picirq.c). *)

From S2P Require Import Prelude Proc Process Ri.

Module Trap.
Import Proc Process.

Definition EXC_INT : Z := 0.
Definition EXC_TLBL : Z := 2.
Definition EXC_TLBS : Z := 3.
Definition EXC_SYS : Z := 8.
Definition EXC_RI : Z := 10.
Definition IRQ_TIMER : Z := 7.
Definition IRQ_COM1 : Z := 2.
Definition TICK_NUM : Z := 128.
Definition EXC_ENTRY : Z := 0x80000180.
Definition EXC_ENTRY2 : Z := 0x80000000.

Definition SYS_exit : Z := 1.
Definition SYS_fork : Z := 2.
Definition SYS_wait : Z := 3.
Definition SYS_exec : Z := 4.
Definition SYS_yield : Z := 10.
Definition SYS_sleep : Z := 11.
Definition SYS_kill : Z := 12.
Definition SYS_gettime : Z := 17.
Definition SYS_getpid : Z := 18.
Definition SYS_putc : Z := 30.
Definition SYS_pgdir : Z := 31.
Definition SYS_open : Z := 100.
Definition SYS_close : Z := 101.
Definition SYS_read : Z := 102.
Definition SYS_write : Z := 103.
Definition SYS_seek : Z := 104.
Definition SYS_fstat : Z := 110.
Definition SYS_fsync : Z := 111.
Definition SYS_getcwd : Z := 121.
Definition SYS_getdirentry : Z := 128.
Definition SYS_dup : Z := 130.
Definition SYS_lab6_set_priority : Z := 255.
Definition NUM_SYSCALLS : Z := 256.

Definition reg_v1 : nat := 3.
Definition reg_a2 : nat := 6.
Definition reg_a3 : nat := 7.

(** What the dispatch calls besides process management; each acts for the
    current process. *)
Class Services (R : Type) := {
  do_execve : Z -> Z -> Z -> M (sys R) Z;
  cputchar : Z -> M (sys R) unit;
  print_pgdir : M (sys R) unit;
  sysfile_open : Z -> Z -> M (sys R) Z;
  sysfile_close : Z -> M (sys R) Z;
  sysfile_read : Z -> Z -> Z -> M (sys R) Z;
  sysfile_write : Z -> Z -> Z -> M (sys R) Z;
  sysfile_seek : Z -> Z -> Z -> M (sys R) Z;
  sysfile_fstat : Z -> Z -> M (sys R) Z;
  sysfile_fsync : Z -> M (sys R) Z;
  sysfile_getcwd : Z -> Z -> M (sys R) Z;
  sysfile_getdirentry : Z -> Z -> M (sys R) Z;
  sysfile_dup : Z -> Z -> M (sys R) Z;
  (* the status, or [None] when the process has been killed *)
  tlb_miss_handler : trapframe -> M (sys R) (option Z);
  (* the word at a virtual address, and the loop of the serial interrupt *)
  load_word : Z -> M (sys R) Z;
  serial_input : M (sys R) unit
}.

(** [ticks] of clock.c, and the Compare register of the processor. *)
Record t (R : Type) := mk { base : sys R; ticks : Z; compare : Z }.
Arguments mk {R}. Arguments base {R}. Arguments ticks {R}. Arguments compare {R}.

(** A process suspended inside a system call: in [do_wait] or [do_sleep]. *)
Inductive pending := InWait (pid code_store : Z) | InSleep (timer : Z).
(** How a system call, and a trap, ends for the process that took it: it has
    returned, is suspended, or has exited. *)
Inductive result := Value (v : Z) | Suspended (p : pending) | Exited.
Inductive outcome := Returned | Blocked (p : pending) | Gone.

Section Trap.
  Context {R : Type} `{Resources R} `{Services R} (sy : symbols).
  (** The address of the timer that [do_sleep] has on the kernel stack of a
      process. *)
  Context (stack_timer : Z -> Z).

Definition on_sys {A} (m : M (sys R) A) : M (t R) A := fun s =>
  match m (base s) with
  | Ret (a, b) => Ret (a, mk b (ticks s) (compare s)) | Panic => Panic | Fault => Fault | Diverge => Diverge
  end.
Definition on_ks {A} (m : M ks A) : M (t R) A := on_sys (inK m).
Definition current_proc : M (t R) proc := on_ks (k ← get; load_proc (current k)).

Definition load_frame (f : Z) : M ks trapframe := fun k =>
  match frames k !! f with Some x => Ret (x, k) | None => Fault end.
Definition put_frame (f : Z) (x : trapframe) : M ks unit := modify (fun k => set_frames (<[f := x]> (frames k)) k).
Definition reg (x : trapframe) (r : nat) : Z := arr_get (tf_regs x) (Z.of_nat r).
Definition with_v0 (v : Z) (x : trapframe) : trapframe :=
  mk_tf (<[reg_v0 := u32 v]> (tf_regs x)) (tf_Status x) (tf_Cause x) (tf_EPC x) (tf_BadVAddr x) (tf_LO x) (tf_HI x).
Definition with_EPC (v : Z) (x : trapframe) : trapframe :=
  mk_tf (tf_regs x) (tf_Status x) (tf_Cause x) v (tf_BadVAddr x) (tf_LO x) (tf_HI x).

(** ** System calls (syscall.c) *)

Definition call := list Z -> M (t R) result.
Definition value (m : M (t R) Z) : M (t R) result := v ← m; mret (Value v).

Definition sys_exit : call := fun arg => on_sys (do_exit sy (s32 (arr_get arg 0)));; mret Exited.
Definition sys_fork : call := fun arg =>
  p ← current_proc;
  x ← on_ks (load_frame (tf p));
  value (on_sys (do_fork sy 0 (reg x reg_sp) x)).
Definition sys_wait : call := fun arg =>
  r ← on_sys (do_wait (s32 (arr_get arg 0)) (arr_get arg 1));
  mret (match r with Some v => Value v | None => Suspended (InWait (s32 (arr_get arg 0)) (arr_get arg 1)) end).
Definition sys_exec : call := fun arg => value (on_sys (do_execve (arr_get arg 0) (s32 (arr_get arg 1)) (arr_get arg 2))).
Definition sys_yield : call := fun arg => value (on_ks do_yield).
Definition sys_kill : call := fun arg => value (on_ks (do_kill (s32 (arr_get arg 0)))).
Definition sys_getpid : call := fun arg => value (p ← current_proc; mret (pid p)).
Definition sys_putc : call := fun arg => on_sys (cputchar (s32 (arr_get arg 0)));; mret (Value 0).
Definition sys_pgdir : call := fun arg => on_sys print_pgdir;; mret (Value 0).
Definition sys_gettime : call := fun arg => s ← get; mret (Value (s32 (ticks s))).
Definition sys_lab6_set_priority : call := fun arg => on_ks (lab6_set_priority (arr_get arg 0));; mret (Value 0).
Definition sys_sleep : call := fun arg =>
  s ← get;
  let timer := stack_timer (current (kst (base s))) in
  r ← on_ks (do_sleep_begin timer (arr_get arg 0));
  mret (match r with Some v => Value v | None => Suspended (InSleep timer) end).
Definition sys_open : call := fun arg => value (on_sys (sysfile_open (arr_get arg 0) (arr_get arg 1))).
Definition sys_close : call := fun arg => value (on_sys (sysfile_close (s32 (arr_get arg 0)))).
Definition sys_read : call := fun arg => value (on_sys (sysfile_read (s32 (arr_get arg 0)) (arr_get arg 1) (arr_get arg 2))).
Definition sys_write : call := fun arg => value (on_sys (sysfile_write (s32 (arr_get arg 0)) (arr_get arg 1) (arr_get arg 2))).
Definition sys_seek : call := fun arg =>
  value (on_sys (sysfile_seek (s32 (arr_get arg 0)) (s32 (arr_get arg 1)) (s32 (arr_get arg 2)))).
Definition sys_fstat : call := fun arg => value (on_sys (sysfile_fstat (s32 (arr_get arg 0)) (arr_get arg 1))).
Definition sys_fsync : call := fun arg => value (on_sys (sysfile_fsync (s32 (arr_get arg 0)))).
Definition sys_getcwd : call := fun arg => value (on_sys (sysfile_getcwd (arr_get arg 0) (arr_get arg 1))).
Definition sys_getdirentry : call := fun arg => value (on_sys (sysfile_getdirentry (s32 (arr_get arg 0)) (arr_get arg 1))).
Definition sys_dup : call := fun arg => value (on_sys (sysfile_dup (s32 (arr_get arg 0)) (s32 (arr_get arg 1)))).

Definition syscalls : list (Z * call) :=
  [(SYS_exit, sys_exit); (SYS_fork, sys_fork); (SYS_wait, sys_wait); (SYS_exec, sys_exec); (SYS_yield, sys_yield);
   (SYS_kill, sys_kill); (SYS_getpid, sys_getpid); (SYS_putc, sys_putc); (SYS_pgdir, sys_pgdir);
   (SYS_gettime, sys_gettime); (SYS_lab6_set_priority, sys_lab6_set_priority); (SYS_sleep, sys_sleep);
   (SYS_open, sys_open); (SYS_close, sys_close); (SYS_read, sys_read); (SYS_write, sys_write); (SYS_seek, sys_seek);
   (SYS_fstat, sys_fstat); (SYS_fsync, sys_fsync); (SYS_getcwd, sys_getcwd); (SYS_getdirentry, sys_getdirentry);
   (SYS_dup, sys_dup)].

(** The result goes to [$v0] of the frame. *)
Definition syscall_return (f v : Z) : M (t R) unit := on_ks (x ← load_frame f; put_frame f (with_v0 v x)).

Definition syscall : M (t R) outcome :=
  p ← current_proc;
  x ← on_ks (load_frame (tf p));
  let num := s32 (reg x reg_v0) in
  if (0 <=? num) && (num <? NUM_SYSCALLS) then
    switch num ((fun c : Z * call => (c.1,
        on_ks (put_frame (tf p) (with_EPC (u32 (tf_EPC x + 4)) x));;
        r ← c.2 [reg x reg_a0; reg x reg_a1; reg x reg_a2; reg x reg_a3; reg x reg_v1];
        match r with
        | Value v => syscall_return (tf p) v;; mret Returned
        | Suspended w => mret (Blocked w)
        | Exited => mret Gone
        end)) <$> syscalls)
      panic
  else panic.

(** ** Interrupts (clock.c, trap.c) *)

Definition clock_intr : M (t R) unit := modify (fun s => mk (base s) (ticks s) 0x00020000).

Definition timer_interrupt : M (t R) unit :=
  modify (fun s => mk (base s) (u32 (ticks s + 1)) (compare s));;
  s ← get;
  when (ticks s `mod` TICK_NUM =? 0) (on_ks (k ← get; update_proc (current k) (with_need_resched true)));;
  on_ks run_timer_list;;
  clock_intr.

(** The exception code, and the interrupts that are pending and enabled. *)
Definition trapno (x : trapframe) : Z := Z.land (tf_Cause x) 0x0000007c ≫ 2.
Definition irqs (x : trapframe) : Z := Z.land (Z.land (tf_Cause x) (tf_Status x)) 0x0000ff00 ≫ 8.

(** The default case, and the failure of the handler of reserved
    instructions. *)
Definition kill_current : M (t R) outcome :=
  s ← get;
  if negb (current (kst (base s)) =? NULL) then on_sys (do_exit sy (- E_KILLED));; mret Gone else panic.

Definition ri_trap (f : Z) (x : trapframe) : M (t R) outcome :=
  inst ← on_sys (load_word (tf_EPC x));
  match Ri.ri_handler inst x tt with
  | Ret ((ret, x'), _) => on_ks (put_frame f x');; if negb (ret =? 0) then kill_current else mret Returned
  | Panic => panic | Fault => fault | Diverge => diverge
  end.

Definition trap_dispatch (f : Z) : M (t R) outcome :=
  x ← on_ks (load_frame f);
  let tlb_miss := r ← on_sys (tlb_miss_handler x);
    match r with
    | None => mret Gone
    | Some ret => if negb (ret =? 0) then panic else mret Returned
    end in
  switch (trapno x)
    [(EXC_TLBL, tlb_miss);
     (EXC_TLBS, tlb_miss);
     (EXC_SYS, syscall);
     (EXC_INT, switch (irqs x)
        [(Z.shiftl 1 IRQ_TIMER, timer_interrupt;; mret Returned);
         (Z.shiftl 1 IRQ_COM1, on_sys serial_input;; mret Returned)]
        panic);
     (EXC_RI, ri_trap f x)]
    kill_current.

Definition trap_in_kernel (x : trapframe) : bool := Z.land (tf_Status x) 0x00000010 =? 0.

(** The end of [trap], after the dispatch. *)
Definition trap_end (otf : Z) (in_kernel : bool) : M (t R) outcome :=
  on_ks (k ← get; update_proc (current k) (with_tf otf));;
  if in_kernel then mret Returned else
  p ← current_proc;
  if negb (Z.land (flags p) PF_EXITING =? 0) then on_sys (do_exit sy (- E_KILLED));; mret Gone
  else when (need_resched p) (on_ks schedule);; mret Returned.

(** [f] is the address of the frame on the kernel stack. *)
Definition trap (f : Z) : M (t R) outcome :=
  s ← get;
  if current (kst (base s)) =? NULL then trap_dispatch f else
  p ← current_proc;
  on_ks (update_proc (current (kst (base s))) (with_tf f));;
  x ← on_ks (load_frame f);
  o ← trap_dispatch f;
  match o with
  | Returned => trap_end (tf p) (trap_in_kernel x)
  | o => mret o
  end.

(** A suspended call goes on: the rest of [do_wait] (which may suspend the
    process again, or end it when it was killed) or of [do_sleep], of [syscall]
    and of [trap]. *)
Definition trap_resume (w : pending) (f otf : Z) (in_kernel : bool) : M (t R) outcome :=
  r ← match w with
      | InWait i store => on_sys (do_wait_resume sy i store)
      | InSleep timer => v ← on_ks (do_sleep_end timer); mret (Some v)
      end;
  match r with
  | None => mret (Blocked w)
  | Some v => syscall_return f v;; trap_end otf in_kernel
  end.

End Trap.

(** ** The entries of the exceptions *)

(** [idt_init] writes the same word at both entries. *)
Definition idt_entry (alltraps : Z) : Z := Z.lxor (alltraps ≫ 2) 0x28000000.
Definition idt_init (alltraps : Z) (words : gmap Z Z) : gmap Z Z :=
  <[EXC_ENTRY2 := idt_entry alltraps]> (<[EXC_ENTRY := idt_entry alltraps]> words).

(** ** The interrupt mask (picirq.c) *)

Record pic := mk_pic { irq_mask : Z; did_init : bool; cp0_status : Z }.

Definition pic_setmask (mask : Z) (p : pic) : pic :=
  if did_init p
  then mk_pic mask true (Z.lor (Z.land (cp0_status p) 0xffff00ff) (u32 (mask ≪ 8)))
  else mk_pic mask false (cp0_status p).
Definition pic_enable (irq : Z) (p : pic) : pic := pic_setmask (u8 (Z.lor (irq_mask p) (1 ≪ irq))) p.
Definition pic_init (p : pic) : pic :=
  let p := mk_pic (irq_mask p) true 0x00000000 in
  if negb (irq_mask p =? 0x00) then pic_setmask (irq_mask p) p else p.

End Trap.
