(* ===== verification/TrapSpec.v ===== *)
(** What traps promise: the clock takes the processor from a process whose time
    is up, and a fork returns in two processes. *)

From S2P Require Import Prelude Proc ProcSpec Process Family ProcessSpec ForkSpec Ri Trap.
From S2P Require Import Cp0 Mmu Cpu CpuSpec.

Module TrapSpec.
Import Proc ProcSpec Process Family ProcessSpec ForkSpec Trap.

Section Traps.
  Context {R : Type} `{Resources R} `{Services R} (sy : symbols) (stack_timer : Z -> Z).

Abbreviation trap := (trap sy stack_timer).
Abbreviation trap_dispatch := (trap_dispatch sy stack_timer).

Abbreviation kern s := (kst (base s)).
Definition set_k (k : ks) (s : t R) : t R := mk (mk_sys k (rst (base s))) (ticks s) (compare s).

Lemma set_k_id (s : t R) : set_k (kern s) s = s.
Proof. by destruct s as [[] ]. Qed.

Lemma on_ks_eq {A} (m : M ks A) (s : t R) a k : m (kern s) = Ret (a, k) -> on_ks m s = Ret (a, set_k k s).
Proof. intros Hm. unfold on_ks, on_sys, inK. by rewrite Hm. Qed.

Lemma current_proc_eq (s : t R) p : procs (kern s) !! current (kern s) = Some p -> current_proc s = Ret (p, s).
Proof.
  intros Hp. unfold current_proc. rewrite <- (set_k_id s) at 2. apply on_ks_eq. erewrite bind_Ret by done.
  by apply load_proc_eq.
Qed.

Lemma load_frame_eq k f x : frames k !! f = Some x -> load_frame f k = Ret (x, k).
Proof. unfold load_frame. by intros ->. Qed.

Lemma frame_eq (s : t R) f x : frames (kern s) !! f = Some x -> on_ks (load_frame f) s = Ret (x, s).
Proof. intros Hx. rewrite <- (set_k_id s) at 2. by apply on_ks_eq, load_frame_eq. Qed.

(** The descriptor of the current process is changed. *)
Definition touch (g : proc -> proc) (k : ks) : ks := set_procs (alter g (current k) (procs k)) k.

Lemma touch_eq (g : proc -> proc) (s : t R) : is_Some (procs (kern s) !! current (kern s)) ->
  on_ks (k ← get; update_proc (current k) g) s = Ret (tt, set_k (touch g (kern s)) s).
Proof. intros Hp. apply on_ks_eq. erewrite bind_Ret by done. by apply update_proc_alter. Qed.

Lemma touch_current g k p : procs k !! current k = Some p -> procs (touch g k) !! current k = Some (g p).
Proof. intros Hp. simpl. by rewrite lookup_alter_eq, Hp. Qed.

Lemma touch_view {B} (f : proc -> B) g k : (forall p, f (g p) = f p) -> f <$> procs (touch g k) = f <$> procs k.
Proof.
  intros Hf. apply map_eq. intros a. rewrite !lookup_fmap. simpl. destruct (decide (a = current k)) as [->|].
  - rewrite lookup_alter_eq. destruct (procs k !! current k); simpl; [by rewrite Hf|done].
  - by rewrite lookup_alter_ne.
Qed.

Lemma touch_sched g k : (forall p, state (g p) = state p) -> sched_inv k -> sched_inv (touch g k).
Proof. intros Hg Hi. apply (sched_inv_view k); try done. by apply touch_view. Qed.

Lemma touch_timers g k : timers_ok k -> timers_ok (touch g k).
Proof. intros []. by split. Qed.

Lemma touch_wakeable g k u : (forall p, state (g p) = state p) -> (forall p, wait_state (g p) = wait_state p) ->
  wakeable k u -> wakeable (touch g k) u.
Proof.
  intros Hs Hw (x & p & Hx & Hp & Hz & Hws). destruct (decide (tproc x = current k)) as [He|Hne].
  - exists x, (g p). split; [done|]. rewrite He in *. rewrite (touch_current g k p Hp), Hs, Hw. done.
  - exists x, p. split; [done|]. simpl. by rewrite lookup_alter_ne.
Qed.

(** ** The way into the handler *)

Section Enter.
  Context (s : t R) (f : Z) (x : trapframe) (p : proc).
  Hypothesis Hc : current (kern s) <> NULL.
  Hypothesis Hp : procs (kern s) !! current (kern s) = Some p.
  Hypothesis Hx : frames (kern s) !! f = Some x.

Definition inside : t R := set_k (touch (with_tf f) (kern s)) s.

Lemma trap_enter : trap f s =
  (o ← trap_dispatch f; match o with Returned => trap_end sy (tf p) (trap_in_kernel x) | o => mret o end) inside.
Proof using Hc Hp Hx.
  unfold Trap.trap. erewrite bind_Ret by done. replace (current (kern s) =? NULL) with false by lia.
  rewrite (bind_Ret _ _ _ _ _ (current_proc_eq s p Hp)).
  rewrite (bind_Ret _ _ s tt inside) by (apply on_ks_eq, update_proc_alter; eauto).
  by rewrite (bind_Ret _ _ _ _ _ (frame_eq inside f x Hx)).
Qed.

(** The last part, for a process that was not killed and need not give way. *)
Lemma trap_end_user (s' : t R) q : procs (kern s') !! current (kern s') = Some q -> Z.land (flags q) PF_EXITING = 0 ->
  trap_end sy (tf p) false s' =
    (when (need_resched q) (on_ks schedule);; mret Returned) (set_k (touch (with_tf (tf p)) (kern s')) s').
Proof using.
  intros Hq Hf. unfold trap_end. rewrite (bind_Ret _ _ _ _ _ (touch_eq (with_tf (tf p)) s' (mk_is_Some _ _ Hq))).
  rewrite (bind_Ret _ _ _ _ _ (current_proc_eq (set_k (touch (with_tf (tf p)) (kern s')) s') (with_tf (tf p) q) (touch_current _ _ q Hq))).
  cbn [flags with_tf need_resched].
  by rewrite Hf.
Qed.
End Enter.

(** ** The clock *)

(** The process [p] runs in user mode, and the clock interrupts it with the
    frame [x] at [f]. *)
Record clocked (s : t R) (f : Z) (x : trapframe) (p : proc) : Prop := {
  cl_inv : sched_inv (kern s);
  cl_timers : timers_ok (kern s);
  cl_wake u : u ∈ timer_list (kern s) -> wakeable (kern s) u;
  cl_current : procs (kern s) !! current (kern s) = Some p;
  cl_runs : state p = PROC_RUNNABLE;
  cl_null : current (kern s) <> NULL;
  cl_frame : frames (kern s) !! f = Some x;
  cl_alive : Z.land (flags p) PF_EXITING = 0;
  cl_slice : 0 <= time_slice p;
  cl_cause : trapno x = EXC_INT /\ irqs x = Z.shiftl 1 IRQ_TIMER;
  cl_user : trap_in_kernel x = false
}.

(** The process has to give way at this tick. *)
Definition time_up (s : t R) (p : proc) : bool :=
  need_resched p || (u32 (ticks s + 1) `mod` TICK_NUM =? 0) || (time_slice p <=? 1) || (current (kern s) =? idleproc (kern s)).

(** What the interrupt makes of its descriptor before the scheduler looks. *)
Definition charged (s : t R) (p : proc) : proc :=
  ticked (kern s) (if u32 (ticks s + 1) `mod` TICK_NUM =? 0 then with_need_resched true p else p).

Lemma ticked_need k p : 0 <= time_slice p ->
  need_resched (ticked k p) = need_resched p || (time_slice p <=? 1) || (current k =? idleproc k).
Proof.
  intros Hs. unfold ticked. destruct (current k =? idleproc k); [by rewrite orb_true_r|]. rewrite orb_false_r.
  destruct (Z.ltb_spec 0 (time_slice p)); cbn [time_slice with_time_slice].
  - destruct (Z.eqb_spec (time_slice p - 1) 0), (Z.leb_spec (time_slice p) 1); try lia; cbn; by rewrite ?orb_true_r, ?orb_false_r.
  - destruct (Z.eqb_spec (time_slice p) 0), (Z.leb_spec (time_slice p) 1); try lia; cbn; by rewrite orb_true_r.
Qed.

Lemma charged_need s p : 0 <= time_slice p -> need_resched (charged s p) = time_up s p.
Proof.
  intros Hs. unfold charged, time_up. rewrite ticked_need by by destruct (_ =? _).
  destruct (_ `mod` _ =? 0); [cbn; by rewrite orb_true_r|]. by rewrite orb_false_r.
Qed.

Lemma charged_field {A} (g : proc -> A) s p :
  (forall b q, g (with_need_resched b q) = g q) -> (forall v q, g (with_time_slice v q) = g q) -> g (charged s p) = g p.
Proof.
  intros Hn Ht. unfold charged, ticked. destruct (_ `mod` _ =? 0), (current _ =? _); cbv zeta;
    repeat (destruct (0 <? _) || destruct (_ =? 0)); by rewrite ?Hn, ?Ht, ?Hn.
Qed.

Lemma charged_tf s p f o : with_tf o (charged s (with_tf f p)) = with_tf o (charged s p).
Proof.
  unfold charged, ticked. destruct (_ `mod` _ =? 0), (current _ =? _); cbv zeta;
    cbn [time_slice with_tf with_need_resched]; destruct (0 <? time_slice p);
    cbn [time_slice with_tf with_need_resched with_time_slice]; by try destruct (_ =? 0).
Qed.

Lemma with_tf_id q : with_tf (tf q) q = q.
Proof. by destruct q. Qed.

(** The state before the scheduler looks: the timers are served and the process
    is charged for the tick. *)
Record served (s : t R) (p : proc) (k : ks) : Prop := {
  sv_inv : sched_inv k;
  sv_timers : timers_ok k;
  sv_dl : dl k = one_closer (dl (kern s));
  sv_wake u : u ∈ timer_list k -> wakeable k u;
  sv_current : current k = current (kern s);
  sv_idle : idleproc k = idleproc (kern s);
  sv_frames : frames k = frames (kern s);
  sv_queue : exists w, run_list (rq k) = run_list (rq (kern s)) ++ w;
  sv_proc : procs k !! current k = Some (charged s p)
}.

(** Inside the handler. *)
Lemma timer_interrupt_eq s f x p : clocked s f x p ->
  exists k, timer_interrupt (inside s f) = Ret (tt, mk (mk_sys k (rst (base s))) (u32 (ticks s + 1)) 0x00020000) /\
    procs k !! current k = Some (charged s (with_tf f p)) /\ served s p (touch (with_tf (tf p)) k).
Proof.
  intros [Hi Ht Hw Hp Hr Hn Hf Ha Hs [Hc1 Hc2] Hu]. set (k1 := touch (with_tf f) (kern s)).
  set (b := u32 (ticks s + 1) `mod` TICK_NUM =? 0). set (g := fun q => if b then with_need_resched true q else q).
  set (k2 := touch g k1). set (s2 := mk (base (inside s f)) (u32 (ticks s + 1)) (compare s)).
  assert (Hp1 : procs k1 !! current k1 = Some (with_tf f p)) by by apply (touch_current (with_tf f) (kern s)).
  assert (Hp2 : procs k2 !! current k2 = Some (g (with_tf f p))) by by apply (touch_current g k1).
  assert (Hgs : forall q, state (g q) = state q) by (intros q; unfold g; by destruct b).
  assert (Hgw : forall q, wait_state (g q) = wait_state q) by (intros q; unfold g; by destruct b).
  destruct (run_timer_list_eq k2 (g (with_tf f p))) as (k3 & p3 & Hrun & [Hi3 Ht3 Hd3 _ Hw3 Hg3] & Hp3 & Heq).
  { by apply touch_sched, touch_sched. } { by apply touch_timers, touch_timers. }
  { intros u Hin. apply touch_wakeable; [done|done|]. apply touch_wakeable; [done|done|]. by apply Hw. }
  { done. }
  rewrite Heq in Hrun, Hp3 by (rewrite Hgs; done). destruct Hg3 as [Hq3 Hc3 Hid3 Hf3 _].
  change (ticked k2 (g (with_tf f p))) with (charged s (with_tf f p)) in Hrun.
  set (k4 := set_procs _ k3) in Hrun. exists k4.
  assert (Hp4 : procs k4 !! current k4 = Some (charged s (with_tf f p))).
  { unfold k4. simpl. rewrite Hc3. apply lookup_insert_eq. }
  split; [|split; [done|]].
  - unfold timer_interrupt. rewrite (bind_Ret _ _ _ tt s2) by done. rewrite (bind_Ret _ _ _ s2 s2) by done.
    change (ticks s2 `mod` TICK_NUM =? 0) with b.
    rewrite (bind_Ret _ _ s2 tt (set_k k2 s2)).
    2: { unfold k2, g. destruct b; cbn [when].
         - by rewrite (touch_eq (with_need_resched true) s2 (mk_is_Some _ _ Hp1)).
         - unfold touch. rewrite alter_id by done. unfold s2, set_k, inside, set_k. simpl. by destruct s as [[[] ] ]. }
    rewrite (bind_Ret _ _ (set_k k2 s2) tt (set_k k4 s2)) by by apply (on_ks_eq run_timer_list (set_k k2 s2)).
    done.
  - assert (Hc4 : current k4 = current (kern s)) by (unfold k4; simpl; by rewrite Hc3).
    assert (Hi4 : sched_inv k4).
    { unfold k4. rewrite <- Hc3 in Hp3 |- *. apply (sched_inv_view k3); try done. simpl. rewrite fmap_insert. apply insert_id.
      rewrite lookup_fmap, Hp3. simpl. by rewrite (charged_field state), Hgs. }
    split; cbn [touch set_procs timers timer_list current idleproc frames rq procs]; try done.
    + by apply touch_sched.
    + apply touch_timers. by destruct Ht3.
    + intros u Hin. apply touch_wakeable; [done|done|]. destruct (Hw3 u Hin) as (y & q & Hy & Hq & Hz & Hws).
      unfold k4. destruct (decide (tproc y = current k2)) as [He|Hne].
      * exists y, (charged s (with_tf f p)). split; [done|]. simpl. rewrite He, lookup_insert_eq. split; [done|].
        rewrite He, Hp3 in Hq. injection Hq as <-. rewrite (charged_field state), (charged_field wait_state) by done.
        rewrite Hgs in Hz. rewrite Hgw in Hws. done.
      * exists y, q. split; [done|]. simpl. by rewrite lookup_insert_ne.
    + rewrite lookup_alter_eq, Hp4. simpl. f_equal. rewrite charged_tf.
      by rewrite <- (charged_field tf s p), with_tf_id.
Qed.

Lemma timer_trap s f x p : clocked s f x p ->
  exists k, trap f s = (when (time_up s p) (on_ks schedule);; mret Returned) (mk (mk_sys k (rst (base s))) (u32 (ticks s + 1)) 0x00020000) /\
    served s p k.
Proof.
  intros Hc. destruct (timer_interrupt_eq s f x p Hc) as (k & Ht & Hp & Hsv). exists (touch (with_tf (tf p)) k). split; [|done].
  destruct Hc as [Hi _ _ Hcur _ Hn Hf Ha Hs [Hc1 Hc2] Hu]. rewrite (trap_enter s f x p Hn Hcur Hf), Hu.
  assert (Hd : trap_dispatch f (inside s f) = Ret (Returned, mk (mk_sys k (rst (base s))) (u32 (ticks s + 1)) 0x00020000)).
  { unfold Trap.trap_dispatch. rewrite (bind_Ret _ _ _ _ _ (frame_eq (inside s f) f x Hf)). rewrite Hc1, Hc2.
    unfold switch at 1. cbn [List.find fst snd]. change (EXC_TLBL =? EXC_INT) with false. change (EXC_TLBS =? EXC_INT) with false.
    change (EXC_SYS =? EXC_INT) with false. change (EXC_INT =? EXC_INT) with true. cbv iota. cbn [snd].
    unfold switch. cbn [List.find fst]. rewrite Z.eqb_refl. cbn [snd]. by rewrite (bind_Ret _ _ _ _ _ Ht). }
  rewrite (bind_Ret _ _ _ _ _ Hd).
  rewrite (trap_end_user p (mk (mk_sys k (rst (base s))) (u32 (ticks s + 1)) 0x00020000) _ Hp).
  2: { by rewrite (charged_field flags). }
  rewrite charged_need by done. done.
Qed.

(** The process goes on. *)
Lemma tick_stays s f x p : clocked s f x p -> time_up s p = false ->
  exists s', trap f s = Ret (Returned, s') /\ clocked s' f x (with_time_slice (time_slice p - 1) p) /\
    current (kern s') = current (kern s) /\ idleproc (kern s') = idleproc (kern s) /\
    (exists w, run_list (rq (kern s')) = run_list (rq (kern s)) ++ w).
Proof.
  intros Hc Ht. destruct (timer_trap s f x p Hc) as (k & Hr & [Si St Sd Sw Sc Sid Sf Sq Sp]). rewrite Ht in Hr.
  eexists. split; [exact Hr|]. destruct Hc as [Hi _ _ Hcur Hst Hn Hf Ha Hs Hcs Hu].
  unfold time_up in Ht. apply orb_false_iff in Ht as [[[_ Hm]%orb_false_iff Hl]%orb_false_iff Hid].
  assert (Hch : charged s p = with_time_slice (time_slice p - 1) p).
  { unfold charged, ticked. rewrite Hm, Hid. replace (0 <? time_slice p) with true by lia. cbn [time_slice with_time_slice].
    by replace (time_slice p - 1 =? 0) with false by lia. }
  rewrite Hch in Sp. split_and!; [|done|done|done]. split; cbn [base kst]; try done; [by rewrite Sc|by rewrite Sf|].
  cbn [time_slice with_time_slice]. lia.
Qed.

(** The process gives way to the head of the queue. *)
Lemma tick_switches s f x p q l : clocked s f x p -> time_up s p = true -> run_list (rq (kern s)) = q :: l ->
  current (kern s) <> idleproc (kern s) ->
  exists s', trap f s = Ret (Returned, s') /\ sched_inv (kern s') /\ timers_ok (kern s') /\ current (kern s') = q /\
    current (kern s) ∈ run_list (rq (kern s')).
Proof.
  intros Hc Ht Hq Hid. destruct (timer_trap s f x p Hc) as (k & Hr & [Si St Sd Sw Sc Sid Sf [w Sq] Sp]). rewrite Ht in Hr.
  cbn [when] in Hr. destruct (schedule_eq k Si) as (k' & He & Hi' & Hs' & Hid' & Hc' & Hl' & Hcore).
  set (s2 := mk (mk_sys k (rst (base s))) (u32 (ticks s + 1)) 0x00020000) in Hr.
  rewrite (bind_Ret _ _ _ _ _ (on_ks_eq schedule s2 tt k' He)) in Hr. eexists. split; [exact Hr|]. cbn [set_k base kst].
  assert (Hrun : runnable k (current k)).
  { exists (charged s p). split; [done|]. rewrite (charged_field state) by done. by destruct Hc. }
  assert (Hsv : serving k = q :: (l ++ w) ++ [current k]).
  { unfold serving. rewrite Sq, Hq. rewrite decide_True by (split; [done|congruence]). done. }
  rewrite Hsv in Hc', Hl'. split_and!; [done| |done|].
  - destruct St as [Sn Sp' Sb]. destruct (sc_timers _ _ Hcore) as [Ht1 Ht2]. unfold dl in *. split; unfold dl; rewrite ?Ht1, ?Ht2; done.
  - rewrite Hl'. simpl. rewrite <- Sc. set_solver.
Qed.

(** [n] interrupts of the clock, one after the other. *)
Fixpoint clock_ticks (n : nat) (f : Z) : M (t R) unit :=
  match n with O => mret tt | S n => trap f;; clock_ticks n f end.

Lemma preempted (m : nat) s f x p q l :
  clocked s f x p -> run_list (rq (kern s)) = q :: l -> current (kern s) <> idleproc (kern s) ->
  time_slice p <= Z.of_nat m ->
  exists n s', (1 <= n <= Nat.max 1 m)%nat /\ clock_ticks n f s = Ret (tt, s') /\ sched_inv (kern s') /\
    timers_ok (kern s') /\ current (kern s') = q /\ current (kern s) ∈ run_list (rq (kern s')).
Proof.
  revert s p l. induction m as [|m IH]; intros s p l Hc Hq Hid Hm;
    destruct (time_up s p) eqn:Ht.
  1, 3: destruct (tick_switches s f x p q l Hc Ht Hq Hid) as (s' & Hr & Hi' & Ht' & Hc' & Hin'); exists 1%nat, s';
    split; [lia|]; split; [|done]; cbn [clock_ticks]; by rewrite (bind_Ret _ _ _ _ _ Hr).
  - exfalso. unfold time_up in Ht. apply orb_false_iff in Ht as [[_ Hl]%orb_false_iff _]. lia.
  - destruct (tick_stays s f x p Hc Ht) as (s1 & Hr & Hc1 & Hcur & Hid1 & w & Hw).
    unfold time_up in Ht. apply orb_false_iff in Ht as [[_ Hl]%orb_false_iff _].
    destruct (IH s1 _ (l ++ w) Hc1) as (n & s' & Hn & Hr' & Hi' & Ht' & Hc' & Hin');
      [by rewrite Hw, Hq|by rewrite Hcur, Hid1|cbn [time_slice with_time_slice]; lia|].
    exists (S n), s'. split; [lia|]. cbn [clock_ticks]. rewrite (bind_Ret _ _ _ _ _ Hr). rewrite <- Hcur. done.
Qed.

(** ** System calls *)

Lemma switch_in {A} v (arms : list (Z * A)) d a : NoDup arms.*1 -> (v, a) ∈ arms -> switch v arms d = a.
Proof.
  intros Hn Hin. unfold switch. induction arms as [|[w b] arms IH]; [by apply elem_of_nil in Hin|].
  cbn [List.find fst]. apply NoDup_cons in Hn as [Hw Hn]. destruct (Z.eqb_spec w v) as [->|Hne].
  - apply elem_of_cons in Hin as [[= ->]|Hin]; [done|]. destruct Hw. apply list_elem_of_fmap. by exists (v, a).
  - apply IH; [done|]. apply elem_of_cons in Hin as [[= -> ->]|Hin]; done.
Qed.

Lemma syscall_numbers : NoDup (syscalls (R := R) sy stack_timer).*1.
Proof. apply (bool_decide_unpack _). vm_compute. exact I. Qed.

(** The frame after the instruction. *)
Definition stepped (x : trapframe) : trapframe := with_EPC (u32 (tf_EPC x + 4)) x.

(** The dispatch of a call: the entry of the table runs with the arguments of
    the frame, whose pc has been moved on, and its result goes to the frame. *)
Lemma syscall_eq (s : t R) f x p num h :
  procs (kern s) !! current (kern s) = Some p -> tf p = f -> frames (kern s) !! f = Some x ->
  s32 (reg x reg_v0) = num -> 0 <= num < NUM_SYSCALLS -> (num, h) ∈ syscalls sy stack_timer ->
  syscall sy stack_timer s =
    (r ← h [reg x reg_a0; reg x reg_a1; reg x reg_a2; reg x reg_a3; reg x reg_v1];
     match r with Value v => syscall_return f v;; mret Returned | Suspended w => mret (Blocked w) | Exited => mret Gone end)
    (set_k (set_frames (<[f := stepped x]> (frames (kern s))) (kern s)) s).
Proof.
  intros Hp <- Hx Hn Hr Hin. unfold syscall. rewrite (bind_Ret _ _ _ _ _ (current_proc_eq s p Hp)).
  rewrite (bind_Ret _ _ _ _ _ (frame_eq s (tf p) x Hx)), Hn.
  replace ((0 <=? num) && (num <? NUM_SYSCALLS)) with true by lia. erewrite switch_in; cycle 1.
  - rewrite <- list_fmap_compose. exact syscall_numbers.
  - apply list_elem_of_fmap. eexists. split; [|exact Hin]. done.
  - cbn [fst snd]. rewrite (bind_Ret _ _ _ tt (set_k (set_frames (<[tf p := stepped x]> (frames (kern s))) (kern s)) s)); [done|].
    by apply on_ks_eq.
Qed.

(** The registers of the child: those of the call, with 0 as the result. *)
Lemma child_regs x : tf_regs (child_frame (reg x reg_sp) (stepped x)) = tf_regs (with_v0 0 x).
Proof.
  cbn. unfold reg, arr_get. rewrite Nat2Z.id. change (u32 0) with 0.
  destruct (tf_regs x !! reg_sp) as [v|] eqn:Hv; cbn [default].
  - apply list_insert_id. rewrite list_lookup_insert_ne; [done|]. unfold reg_v0, reg_sp. lia.
  - apply list_insert_ge. rewrite length_insert. by apply lookup_ge_None.
Qed.

Lemma tf_restored (m : gmap Z proc) a p f : m !! a = Some p -> alter (with_tf (tf p)) a (alter (with_tf f) a m) = m.
Proof.
  intros Hp. apply map_eq. intros b. destruct (decide (b = a)) as [->|Hb].
  - rewrite !lookup_alter_eq, Hp. by destruct p.
  - by rewrite !lookup_alter_ne.
Qed.

(** A system call from user mode. *)
Lemma call_trap (s : t R) f x p : current (kern s) <> NULL -> procs (kern s) !! current (kern s) = Some p ->
  frames (kern s) !! f = Some x -> trapno x = EXC_SYS ->
  trap f s = (o ← syscall sy stack_timer; match o with Returned => trap_end sy (tf p) (trap_in_kernel x) | o => mret o end) (inside s f).
Proof.
  intros Hn Hp Hx Hc. rewrite (trap_enter s f x p Hn Hp Hx).
  assert (Hd : trap_dispatch f (inside s f) = syscall sy stack_timer (inside s f)).
  { unfold Trap.trap_dispatch. rewrite (bind_Ret _ _ _ _ _ (frame_eq (inside s f) f x Hx)). rewrite Hc.
    unfold switch at 1. cbn [List.find fst snd]. change (EXC_TLBL =? EXC_SYS) with false. change (EXC_TLBS =? EXC_SYS) with false.
    change (EXC_SYS =? EXC_SYS) with true. done. }
  unfold mbind, M_bind. by rewrite Hd.
Qed.

Section ForkCall.
  Context (owned : R -> Z -> Prop) `{!ResourceLaws owned}.
  Context (s : t R) (fam : Z -> list Z) (f : Z) (x : trapframe) (p : proc) (a : Z) (r1 : R).

(** The current process calls fork from user mode with the frame [x]. *)
Record forking : Prop := {
  fk_inv : proc_inv (kern s) fam;
  fk_held : held owned (base s);
  fk_proc : procs (kern s) !! current (kern s) = Some p;
  fk_state : state p <> PROC_ZOMBIE /\ wait_state p = 0 /\ filesp p <> NULL;
  fk_plain : Z.land (flags p) PF_EXITING = 0 /\ need_resched p = false;
  fk_frame : frames (kern s) !! f = Some x;
  fk_cause : trapno x = EXC_SYS /\ s32 (reg x reg_v0) = SYS_fork;
  fk_user : trap_in_kernel x = false;
  fk_block : kmalloc_proc (rst (base s)) = Ret (a, r1) /\ a <> NULL
}.
Hypothesis Hfk : forking.

(** The state in which [do_fork] runs. *)
Definition calling : ks :=
  set_frames (<[f := stepped x]> (frames (kern s))) (touch (with_tf f) (kern s)).

Lemma current_null : current (kern s) <> NULL.
Proof using Hfk.
  destruct Hfk as [Hi _ _ _ _ _ _ _ _]. pose proof (pi_current _ _ Hi) as Hc. intros He. rewrite He in Hc.
  unfold everyone in Hc. apply elem_of_cons in Hc as [Hc|Hc]; [by destruct (pi_idle _ _ Hi)|by destruct (ti_null _ (pi_table _ _ Hi))].
Qed.

Lemma calling_inv : proc_inv calling fam.
Proof using Hfk.
  apply (proc_inv_view (kern s)); try done; [apply Hfk|..].
  - by apply (touch_view state (with_tf f)).
  - by apply (touch_view pid (with_tf f)).
  - by apply (touch_view link (with_tf f)).
Qed.

Lemma calling_pids : pids calling = pids (kern s).
Proof using.
  unfold pids. apply list_fmap_ext. intros i c _. apply pid_of_view. by apply (touch_view pid (with_tf f)).
Qed.

Lemma do_fork_calling :
  (exists v b', do_fork sy 0 (reg x reg_sp) (stepped x) (mk_sys calling (rst (base s))) = Ret (v, b') /\
    ((v < 0 /\ kst b' = calling) \/
     (entered calling fam a v (child_frame (reg x reg_sp) (stepped x)) (kst b') /\ a <> current (kern s)))) \/
  (stops (do_fork sy 0 (reg x reg_sp) (stepped x) (mk_sys calling (rst (base s)))) /\ copy_stops 0 (with_tf f p)).
Proof using Hfk ResourceLaws0.
  destruct Hfk as [Hi Hh Hp (Hz & Hw & Hfp) _ _ _ _ [Hk Ha]].
  destruct (do_fork_eq owned sy (mk_sys calling (rst (base s))) fam 0 (reg x reg_sp) (stepped x) (with_tf f p) a r1)
    as [(v & b' & Hr & _ & Hcase)|?]; try done.
  - apply calling_inv.
  - intros c [q Hq]. apply Hh. cbn in Hq. destruct (decide (c = current (kern s))) as [->|]; [by rewrite Hp|].
    by rewrite lookup_alter_ne in Hq by done.
  - by apply (touch_current (with_tf f) (kern s)).
  - left. exists v, b'. split; [done|]. destruct Hcase as [?|(? & Hna & _)]; [by left|right; split; [done|]].
    intros ->. cbn in Hna. by rewrite lookup_alter_eq, Hp in Hna.
  - by right.
Qed.

(** From [do_fork] to the end of the trap. *)
Lemma fork_trap v b' q y :
  do_fork sy 0 (reg x reg_sp) (stepped x) (mk_sys calling (rst (base s))) = Ret (v, b') ->
  current (kst b') = current (kern s) -> procs (kst b') !! current (kst b') = Some q ->
  Z.land (flags q) PF_EXITING = 0 -> need_resched q = false -> frames (kst b') !! f = Some y ->
  trap f s = Ret (Returned, mk (mk_sys (touch (with_tf (tf p)) (set_frames (<[f := with_v0 v y]> (frames (kst b'))) (kst b'))) (rst b'))
    (ticks s) (compare s)).
Proof using Hfk.
  intros Hd Hcur Hq Hfl Hnr Hy. assert (Hn := current_null).
  destruct Hfk as [Hi Hh Hp _ _ Hx [Hc1 Hc2] Hu _]. rewrite (call_trap s f x p Hn Hp Hx Hc1), Hu.
  assert (Hp1 : procs (kern (inside s f)) !! current (kern (inside s f)) = Some (with_tf f p)) by by apply (touch_current (with_tf f) (kern s)).
  set (s2 := set_k calling s). set (s3 := mk b' (ticks s) (compare s)).
  set (k4 := set_frames (<[f := with_v0 v y]> (frames (kst b'))) (kst b')).
  assert (Hs : syscall sy stack_timer (inside s f) = Ret (Returned, set_k k4 s3)).
  { rewrite (syscall_eq (inside s f) f x (with_tf f p) SYS_fork (sys_fork sy)); [|done|done|done|done|done|by right; left].
    change (set_k _ (inside s f)) with s2. rewrite (bind_Ret _ _ s2 (Value v) s3).
    2: { unfold sys_fork. rewrite (bind_Ret _ _ _ _ _ (current_proc_eq s2 (with_tf f p) Hp1)).
         rewrite (bind_Ret _ _ _ _ _ (frame_eq s2 f (stepped x) (lookup_insert_eq _ _ _))).
         unfold value. rewrite (bind_Ret _ _ s2 v s3); [done|]. unfold on_sys.
         change (base s2) with (mk_sys calling (rst (base s))). change (reg (stepped x) reg_sp) with (reg x reg_sp). by rewrite Hd. }
    unfold syscall_return. rewrite (bind_Ret _ _ s3 tt (set_k k4 s3)); [done|]. apply on_ks_eq.
    by rewrite (bind_Ret _ _ _ _ _ (load_frame_eq (kst b') f y Hy)). }
  rewrite (bind_Ret _ _ _ _ _ Hs). rewrite (trap_end_user p (set_k k4 s3) q Hq Hfl), Hnr. done.
Qed.

(** The trap stops where [do_fork] does. *)
Lemma fork_trap_stops :
  stops (do_fork sy 0 (reg x reg_sp) (stepped x) (mk_sys calling (rst (base s)))) -> stops (trap f s).
Proof using Hfk.
  intros Hd. assert (Hn := current_null).
  destruct Hfk as [Hi Hh Hp _ _ Hx [Hc1 Hc2] Hu _]. rewrite (call_trap s f x p Hn Hp Hx Hc1).
  assert (Hp1 : procs (kern (inside s f)) !! current (kern (inside s f)) = Some (with_tf f p)) by by apply (touch_current (with_tf f) (kern s)).
  set (s2 := set_k calling s).
  assert (Hs : forall l, stops (sys_fork sy l s2)).
  { intros l. unfold sys_fork. rewrite (bind_Ret _ _ _ _ _ (current_proc_eq s2 (with_tf f p) Hp1)).
    rewrite (bind_Ret _ _ _ _ _ (frame_eq s2 f (stepped x) (lookup_insert_eq _ _ _))).
    unfold value, mbind, M_bind, on_sys. change (base s2) with (mk_sys calling (rst (base s))).
    change (reg (stepped x) reg_sp) with (reg x reg_sp). unfold stops in *. by destruct Hd as [-> | ->]; [left|right]. }
  unfold mbind, M_bind.
  rewrite (syscall_eq (inside s f) f x (with_tf f p) SYS_fork (sys_fork sy)); [|done|done|done|done|done|by right; left].
  change (set_k _ (inside s f)) with s2. unfold mbind, M_bind, stops in *.
  match goal with |- context [sys_fork sy ?l s2] => by destruct (Hs l) as [-> | ->]; [left|right] end.
Qed.
End ForkCall.

End Traps.

Abbreviation kern s := (kst (base s)).

(** ** Properties *)

(** C36: preemption.  While a process other than the idle one runs in user mode
    and another process waits at the head of the run queue, at most as many
    interrupts of the clock as the process has ticks left (one, if none) make the
    process at the head current; none of these traps fails, the process that was
    interrupted stays in the queue, and the invariants of the scheduler and of
    the timers hold again. *)
Theorem clock_preempts {R} `{Resources R} `{Services R} (sy : symbols) (stack_timer : Z -> Z)
    (s : t R) (f : Z) (x : trapframe) (p : proc) (q : Z) (l : list Z) :
  clocked s f x p -> run_list (rq (kern s)) = q :: l -> current (kern s) <> idleproc (kern s) ->
  exists n s', 1 <= Z.of_nat n <= Z.max 1 (time_slice p) /\ clock_ticks sy stack_timer n f s = Ret (tt, s') /\
    sched_inv (kern s') /\ timers_ok (kern s') /\ current (kern s') = q /\ current (kern s) ∈ run_list (rq (kern s')).
Proof.
  intros Hc Hq Hid. assert (Hs := cl_slice _ _ _ _ Hc).
  destruct (preempted sy stack_timer (Z.to_nat (time_slice p)) s f x p q l Hc Hq Hid) as (n & s' & Hn & Hr); [lia|].
  exists n, s'. split; [lia|done].
Qed.


(** ** Witnesses *)

(** Services that do nothing. *)
#[local] Instance idle_services : Services Z := {
  do_execve := fun _ _ _ => mret 0;
  cputchar := fun _ => mret tt;
  print_pgdir := mret tt;
  sysfile_open := fun _ _ => mret 0;
  sysfile_close := fun _ => mret 0;
  sysfile_read := fun _ _ _ => mret 0;
  sysfile_write := fun _ _ _ => mret 0;
  sysfile_seek := fun _ _ _ => mret 0;
  sysfile_fstat := fun _ _ => mret 0;
  sysfile_fsync := fun _ => mret 0;
  sysfile_getcwd := fun _ _ => mret 0;
  sysfile_getdirentry := fun _ _ => mret 0;
  sysfile_dup := fun _ _ => mret 0;
  tlb_miss_handler := fun _ => mret (Some 0);
  load_word := fun _ => mret 0;
  serial_input := mret tt
}.

(** The clock interrupts process 10, with 20 at the head of the queue. *)
Definition clock_frame : trapframe := mk_tf (replicate 32 0) 0x8013 0x8000 0x400 0 0 0.
Definition clock_state : t Z := mk (mk_sys (set_frames {[ 900 := clock_frame ]} demo_ks) 0) 6 0.

Lemma clock_preempts_witness :
  exists n s', 1 <= Z.of_nat n <= 5 /\ clock_ticks demo_symbols id n 900 clock_state = Ret (tt, s') /\ current (kern s') = 20.
Proof.
  destruct (clock_preempts demo_symbols id clock_state 900 clock_frame (demo_proc PROC_RUNNABLE 1 0) 20 [30])
    as (n & s' & Hn & Hr & _ & _ & Hc & _); [|by vm_compute|done|by exists n, s'].
  split; try done.
  - destruct demo_ks_inv. by split.
  - destruct demo_timers_ok. by split.
  - intros u Hu. simpl in Hu. apply list_elem_of_singleton in Hu as ->.
    exists (mk_timer 1 40), (demo_proc PROC_SLEEPING 4 WT_TIMER). split_and!; [by vm_compute..|done|]. right. by vm_compute.
Defined.

(** The first process forks. *)
Definition fork_frame : trapframe := mk_tf (<[reg_v0 := SYS_fork]> (replicate 32 7)) 0x13 (EXC_SYS ≪ 2) 0x400 0 0 0.
Definition fork_state : t Z :=
  mk (mk_sys (set_frames {[ 900 := fork_frame ]} (touch (with_need_resched false) boot_ks)) 100) 0 0.


(** Two interrupts at once are taken for none: the kernel stops when the clock
    and the serial port interrupt together. *)
Example both_interrupts (s : t Z) p :
  current (kern s) <> NULL -> procs (kern s) !! current (kern s) = Some p ->
  frames (kern s) !! 900 = Some (mk_tf (replicate 32 0) 0x8413 0x8400 0x400 0 0 0) ->
  trap demo_symbols id 900 s = Panic.
Proof.
  intros Hn Hp Hx. rewrite (trap_enter demo_symbols id s 900 _ p Hn Hp Hx). unfold mbind, M_bind.
  assert (Hd : trap_dispatch demo_symbols id 900 (inside s 900) = Panic); [|by rewrite Hd].
  unfold trap_dispatch. by rewrite (bind_Ret _ _ _ _ _ (frame_eq (inside s 900) 900 _ Hx)).
Qed.

(** A number that is not in the table stops the kernel. *)
Example unknown_call (s : t Z) p x : procs (kern s) !! current (kern s) = Some p -> frames (kern s) !! tf p = Some x ->
  s32 (Trap.reg x reg_v0) = 5 -> syscall demo_symbols id s = Panic.
Proof.
  intros Hp Hx Hn. unfold syscall. rewrite (bind_Ret _ _ _ _ _ (current_proc_eq s p Hp)).
  by rewrite (bind_Ret _ _ _ _ _ (frame_eq s (tf p) x Hx)), Hn.
Qed.

(** ** The entries of the exceptions *)

Lemma idt_entry_value alltraps : 0x80000000 <= alltraps < 0x90000000 -> alltraps `mod` 4 = 0 ->
  exists j, 0 <= j < 2 ^ 26 /\ alltraps = 0x80000000 + 4 * j /\ idt_entry alltraps = 2 * 2 ^ 26 + j.
Proof.
  intros Ha Hm. set (j := (alltraps - 0x80000000) / 4). assert (Hj : 0 <= j < 2 ^ 26) by (unfold j; Z.div_mod_to_equations; lia).
  assert (Hal : alltraps = 0x80000000 + 4 * j) by (unfold j; Z.div_mod_to_equations; lia).
  exists j. split_and!; [lia|lia|done|]. unfold idt_entry. rewrite Z.shiftr_div_pow2 by lia. change (2 ^ 2) with 4.
  replace (alltraps / 4) with (8 * 2 ^ 26 + j) by (rewrite Hal; Z.div_mod_to_equations; lia).
  assert (Hd : forall c, Z.land (c * 2 ^ 26) j = 0).
  { intros c. rewrite <- (Z.mod_small j (2 ^ 26)), <- Z.land_ones by lia.
    rewrite (Z.land_comm j), Z.land_assoc, Z.land_ones by lia. by rewrite Z.mod_mul, Z.land_0_l by lia. }
  rewrite !Z.add_nocarry_lxor by apply Hd. rewrite Z.lxor_assoc, (Z.lxor_comm j), <- Z.lxor_assoc. done.
Qed.

(** The word that [idt_init] writes is the jump to the handler. *)
Lemma idt_entry_jumps (c : CPU.t) (alltraps : Z) :
  CPUSpec.wf c -> 0x80000000 <= alltraps < 0x90000000 -> alltraps `mod` 4 = 0 -> 0x80000000 <= CPU.pc_ c < 0x90000000 ->
  CPU.instruction_ c = idt_entry alltraps ->
  CPU.instruction_decode c = Ret (tt, CPU.set_pc alltraps c).
Proof.
  intros Hw Ha Hm Hpc Hin. destruct (idt_entry_value alltraps Ha Hm) as (j & Hj & Hal & Hv).
  assert (Hmatch : CPUSpec.matches (CPU.instruction_ c) (CPUSpec.op_main 0x02 CPU.exe_j)).
  { unfold CPUSpec.matches. cbn [CPUSpec.op_main fst snd]. rewrite Hin, Hv. change 0xfc000000 with (2 ^ 32 - 2 ^ 26).
    rewrite land_high by lia. f_equal. Z.div_mod_to_equations. lia. }
  assert (Hdec := CPUSpec.decode_match c (CPUSpec.wf_instr c Hw)). rewrite Forall_lookup in Hdec.
  rewrite (Hdec 24%nat (CPUSpec.op_main 0x02 CPU.exe_j) eq_refl Hmatch). cbn [CPUSpec.op_main snd].
  unfold CPU.exe_j, modify. do 3 f_equal. unfold CPU.jump_target. rewrite Hin, Hv.
  change 0x3ffffff with (2 ^ 26 - 1). rewrite land_low by lia. replace ((2 * 2 ^ 26 + j) `mod` 2 ^ 26) with j by (Z.div_mod_to_equations; lia).
  replace (Z.land (CPU.pc_ c) 0xf0000000) with (8 * 2 ^ 28).
  2: { change 0xf0000000 with (2 ^ 32 - 2 ^ 28). rewrite land_high by lia. Z.div_mod_to_equations. lia. }
  replace (u32 (j * 4)) with (4 * j) by width. rewrite lor_add by lia. lia.
Qed.

End TrapSpec.
